(* ===== verification/_CoqProject ===== *)
-Q . S2P
Prelude.v
PyNum.v
Payload.v
SessionState.v
Accounting.v
Visibility.v
KVLayout.v
FramePlan.v
RuntimeState.v
FrameStore.v
Segment.v
FrameApply.v
BatchAdapter.v
Extend.v
ModelRunner.v
Stream.v
Odict.v
OmniState.v
Silent.v
Intake.v
IntakeBounds.v
IntakeOrder.v
Terminal.v
MossState.v
MossAbort.v
MossStep.v
MossDemo.v
MossFail.v
MossBody.v
MossAll.v
MossPark.v
MossBudget.v
MossFit.v
MossRound.v
MossSelect.v
MossPlan.v
Coord.v
CoordOps.v
CoordSteps.v
CoordInv.v
CoordKeep.v
CoordWorld.v
CoordSafe.v
CoordRun.v
CoordOcc.v
CoordMerge.v
CoordAdmin.v
CoordReply.v
CoordEdge.v
Edge.v
EdgeSteps.v
EdgeInv.v
EdgeWorker.v
EdgeWorld.v
EdgeSafe.v
EdgeTold.v
EdgeHeard.v
EdgeOrder.v
EdgeManager.v
Seqlock.v
Admission.v
AdmissionBound.v
AdmissionCount.v
RouterWorker.v
RouterSelect.v
