(* ===== verification/Prelude.v ===== *)
(** * Verification of the MOSS-VL realtime serving stack

    The repository serves multimodal models.  This development models the part that is the
    program's own logic: the realtime session stack of MOSS-VL
    ([src/sglang_omni/models/moss_vl_realtime/]), the generic scheduler it extends
    ([src/sglang_omni/scheduling/omni_scheduler.py]), the coordinator that submits requests
    to the stages ([src/sglang_omni/pipeline/coordinator.py]), the websocket sessions at the
    edge ([src/sglang_omni/serve/video_realtime.py]), and the parts of the external router that
    decide ([src/sglang_omni_router/]): shared admission, worker health, worker selection.

    ** How the program works

    A client session sends numbered frame and prompt events over a websocket; the edge session
    checks them, stores frame bytes in shared memory, hands the events to the model's request
    and relays what the model reports, with credits for the events in flight.  The scheduler queues them per
    request; between decode steps it drains a queue, builds one segment (prompt tokens, vision
    pads, positions, visibility) and extends the request's page-table row, where the vision
    slots precede the text slots.  The runner commits the extend, or the batch adapter undoes
    it.  Decode steps run one ahead of their results; a request that falls silent is parked
    until its next event or its idle deadline.  Old frames are evicted or pooled by a sliding
    window.  When slots run out the heaviest session is aborted.

    ** Modelling conventions

    Stateful code is a function of type [M S A]: from a state to a [result] (a value or a
    Python exception) and the state reached, which an exception keeps.  [try_except],
    [try_finally], [mforeach] and [zoom] (a statement on a component of the state) are the
    control structures.  Objects that several places alias live in a store and are named by
    their identity.  The coordinator is concurrent: its coroutines are cut at their suspensions,
    and a state with its suspended coroutines steps by events, in any order ([CoordSteps]); the edge
    session is treated the same way ([EdgeSteps]), and so are the router's processes, cut at their
    accesses to shared memory ([Admission]; a single slot even between words, [Seqlock]).  An
    insertion-ordered dictionary is an association list ([Odict]); a
    dictionary whose order nobody reads is a [gmap].  Integers are [Z], as Python's are
    unbounded; a float is an IEEE binary64 datum ([PyNum]).  A tensor is the list of its
    values.  Code of other packages is a parameter with the documented behaviour the theorems
    need: the allocator ([Allocator], [AllocatorLaws]), the image processor, the tokenizer,
    upstream's [release_kv_cache], fill ids and batch steps.  One tensor-parallel rank is
    modelled, on which the broadcast decisions are the identity, and one operation runs at a
    time on the scheduler's thread.

    ** Files

    Shared: [Prelude] (exceptions, effects, triples, slices, sorting, automation, attribute
    updates), [PyNum] (integers and binary64), [Odict].

    Data of a session:
    - [Payload] ([payload_types.py]): event validation, the control-plane dictionary and its
      round trip, event text.
    - [SessionState] ([session_state.py]): the event queues; exactly-once, in-order delivery.
    - [Accounting] ([accounting.py]): the counters, their settlement and freezing.
    - [Visibility] ([visibility.py]) and [KVLayout] ([kv_layout.py]): prefix counts of frames;
      the row as vision slots then text slots.
    - [RuntimeState] ([runtime_state.py]): phases, lengths and the KV-append transaction, whose
      rollback restores and whose commit installs, over every sequence of calls.
    - [FrameStore] ([frame_store.py]): shared-memory segments of frames; nothing leaks.

    Extends and decodes:
    - [Segment] ([segment.py], the arithmetic of [model_step.py]): building a segment; all
      per-token sequences stay aligned.
    - [FramePlan], [FrameApply] ([frame_window.py]): planning a window round, and applying it
      atomically.
    - [BatchAdapter] ([batch_adapter.py]): preparing, committing and rolling back extend and
      decode batches over requests, page table and allocator.
    - [Extend] (the request half of [scheduler.py]): context guard, append and undo.
    - [ModelRunner] ([model_runner.py]): what forwards commit; overrun rows do not count.
    - [Stream] ([request_builders.py]): streamed text, silences, prefill messages.

    The generic scheduler ([omni_scheduler.py]):
    - [OmniState]: requests, batches and tables as shared objects; lookup and abort.
    - [Silent]: what an abort does not disturb, shared by the files below.
    - [Intake]: inbox, builds, admissions, buffered chunks and updates; [IntakeBounds] bounds
      its tables, [IntakeOrder] proves it refines an abstract feed.
    - [Terminal]: the final answer of a request, given at most once.

    The realtime scheduler ([scheduler.py]):
    - [MossState], [MossAbort]: its state on top of the generic one, and abort.
    - [MossStep]: resolving steps, results, parking, updates, expiry; [MossFail] and [MossAll]
      say what failing one request, and several in a row, leaves behind.
    - [MossPark]: a parked request expires.
    - [MossBudget], [MossFit]: eviction under memory pressure, and that the extend batch fits.
    - [MossRound]: planning a round: which requests are extended, the frame-window pass, the rate
      limit and the capacity guard; [MossSelect] and [MossPlan] say what the selection and the
      guard leave behind.
    - [MossBody]: what a failure keeps of a request object: what was done to it before.
    [MossDemo] is the concrete state of the witnesses.

    The coordinator ([pipeline/coordinator.py]):
    - [Coord]: replicas, request objects, futures and queues; [CoordOps]: the methods up to each
      suspension; [CoordSteps]: coroutines, events and what is reachable.
    - [CoordInv], [CoordKeep], [CoordWorld], [CoordSafe]: the invariant of the tables, that every
      piece and every event keeps it, and who may still wait.
    - [CoordRun]: the properties of the coordinator any event keeps; [CoordOcc]: occupancy and
      settled futures.  [CoordMerge]: merged results, replica selection.
    - [CoordAdmin], [CoordReply]: administrative operations and their answers.
    - [CoordEdge]: runs that show where the code falls short.

    The edge ([serve/video_realtime.py]):
    - [Edge]: messages, the session and the pieces of its coroutines; [EdgeSteps]: the receiver,
      the input worker, the response and the teardown, and their interleavings.
    - [EdgeInv], [EdgeWorker], [EdgeWorld]: the invariant of a session, that the worker's pieces
      keep it, and that every event does.  [EdgeSafe]: what a session guarantees.
    - [EdgeTold], [EdgeHeard], [EdgeOrder]: the order of what the client is told.
    - [EdgeManager]: admission and placement of sessions.

    The router ([src/sglang_omni_router/]):
    - [Seqlock] ([SlotCodec] of [admission_shm.py]): one slot under its sequence lock, store by
      store; a read returns the fields of one write.
    - [Admission] ([admission_shm.py], the reclaim of [supervisor.py]): data planes, supervisor
      and reader over the slots, with crashes and replacements.  [AdmissionBound]: the soft bound;
      [AdmissionCount]: the aggregate never invents a rejection ([rejections_not_invented]).
    - [RouterWorker] ([worker.py], the probe of [health.py]): a worker's state is the verdict of
      its last outcomes ([health_verdict]); an operator's dead mark holds ([dead_until_cleared]).
    - [RouterSelect] ([selector.py]): whom a selection takes ([selection_sound]).

    ** What the theorems show

    Transactions: whatever fails, page table, bookkeeping and slots agree and no slot is lost
    or freed twice ([kv_calls_consistent], [extend_failure_restores], [window_round_atomic],
    [decode_rollback_restores]); what succeeds installs exactly the new slots.
    Messages: events, chunks and updates are delivered once and in order
    ([controller_exactly_once], [intake_refines_feed]), what the edge submits is what the
    scheduler's queue accepts ([edge_events_accepted]), a client is told of an event's acceptance
    before its effect ([edge_accepted_first]), an answer is given at most once
    ([stream_output_answers_once]).  Isolation: aborting or failing a request leaves no trace of
    it and nothing of the others changes ([abort_forgets_request],
    [rejected_update_contained], [extensions_selected]).  Resources: tables stay bounded, extends fit the context and
    the pool ([intake_tables_bounded], [guarded_append_fits_row], [extend_budget_holds],
    [decode_capacity_guarded]), and clients to their credits and slots ([edge_credits_bounded],
    [sessions_spread]), and the router's data planes to their common bound ([soft_bound]).
    Waiting: no caller of the coordinator waits for a request that is gone, a result is final,
    slots are counted exactly ([no_waiter_stranded], [settled_result_final],
    [occupancy_exact]); a stream whose request is gone ends ([orphaned_stream_ends]).
    Progress: loops end, a session's own steps are at most seven and its end, once begun, is
    always enabled and leaves nothing ([edge_ends_clean]), and a parked request is eventually answered
    ([drain_builds_terminates], [parked_request_expires]).  The others give the functional
    behaviour of positions, visibility, window plans, streaming and accounting.

    ** Fuel

    Loops that are not structural carry a bound that is always enough: [drain_builds_loop] the
    number of pending builds, [chunk_loop] the number of raw frames, [choose_victims] and
    [preempt_loop] the number of live requests, since each round removes one.  That the bound
    is enough is part of the theorem about the loop.

    ** Not modelled

    Tensor kernels, forwards and sampling; the event loops' threads, the tensor-parallel
    broadcasts and the traces; the chat template and sampling parameters of a request; the
    offline stepper of [model_step.py]; the realtime scheduler's admission override and admin
    actions; the warm-up request and the JSON decoding of the edge; the stages and the transport
    around the coordinator, the router's relays, its control plane and its supervision of
    processes, the other models, the CLI and the benchmarks.  A coordinator
    that was stopped may go on handling messages in the model, which allows more runs than the
    code; whom the event loop resumes next is not constrained either. *)
From stdpp Require Export base gmap list strings.
From Stdlib Require Export ZArith Lia.

#[export] Set Default Goal Selector "!".
#[export] Set Warnings "-clear-no-such-hyp,-postfix-notation-not-level-1,-level-tolerance".

(** ** Exceptions and the two effect monads *)

(** The exception classes the modelled code raises, with the literal part of
    the message. *)
Inductive pyexn : Type :=
| TypeError (msg : string)
| ValueError (msg : string)
| RuntimeError (msg : string)
| KeyError (msg : string)
| IndexError (msg : string)
| AssertionError (msg : string)
| OverflowError (msg : string)
| FileNotFoundError (msg : string)
| ContextExhaustedError (msg : string)
| TimeoutError (msg : string)
| OtherError (msg : string).

#[global] Instance pyexn_eq_dec : EqDecision pyexn.
Proof. solve_decision. Defined.

(** The value of a Python expression that may raise. *)
Inductive result (A : Type) : Type :=
| Ok (a : A)
| Raise (e : pyexn).
Arguments Ok {A} a.
Arguments Raise {A} e.

Definition is_ok {A} (r : result A) : bool :=
  match r with Ok _ => true | Raise _ => false end.

#[global] Instance result_ret : MRet result := fun A a => Ok a.
#[global] Instance result_bind : MBind result := fun A B f r =>
  match r with Ok a => f a | Raise e => Raise e end.
#[global] Instance result_fmap : FMap result := fun A B f r =>
  match r with Ok a => Ok (f a) | Raise e => Raise e end.

(** [raise_if b e] is [if b: raise e]. *)
Definition raise_if (b : bool) (e : pyexn) : result unit :=
  if b then Raise e else Ok tt.

(** A statement that reads and writes a state [S] and may raise.  The state
    reached before the exception is kept, as in Python. *)
Definition M (S A : Type) : Type := S → result A * S.

#[global] Instance M_ret {S} : MRet (M S) := fun A a s => (Ok a, s).
#[global] Instance M_bind {S} : MBind (M S) := fun A B f m s =>
  match m s with
  | (Ok a, s') => f a s'
  | (Raise e, s') => (Raise e, s')
  end.

Definition throw {S A} (e : pyexn) : M S A := fun s => (Raise e, s).
Definition get {S} : M S S := fun s => (Ok s, s).
Definition put {S} (s' : S) : M S unit := fun _ => (Ok tt, s').
Definition modify {S} (f : S → S) : M S unit := fun s => (Ok tt, f s).
Definition lift {S A} (r : result A) : M S A := fun s => (r, s).
Definition guard_raise {S} (b : bool) (e : pyexn) : M S unit :=
  lift (raise_if b e).

(** [try: m  except Exception as exc: h(exc)]. *)
Definition try_except {S A} (m : M S A) (h : pyexn → M S A) : M S A := fun s =>
  match m s with
  | (Ok a, s') => (Ok a, s')
  | (Raise e, s') => h e s'
  end.

(** [try: m  finally: f]; an exception of [f] replaces the one of [m]. *)
Definition try_finally {S A} (m : M S A) (f : M S unit) : M S A := fun s =>
  match m s with
  | (r, s') => match f s' with
               | (Ok _, s'') => (r, s'')
               | (Raise e, s'') => (Raise e, s'')
               end
  end.

(** Run a statement on a component of the state. *)
Definition zoom {S T A} (view : S → T) (upd : T → S → S) (m : M T A) : M S A :=
  fun s => let '(r, t) := m (view s) in (r, upd t s).

(** A [for] loop over a list. *)
Fixpoint mforeach {S A} (f : A → M S unit) (l : list A) : M S unit :=
  match l with
  | [] => mret tt
  | x :: l' => f x ≫= fun _ => mforeach f l'
  end.

Fixpoint rmapM {A B} (f : A → result B) (l : list A) : result (list B) :=
  match l with
  | [] => Ok []
  | x :: l' => y ← f x; ys ← rmapM f l'; Ok (y :: ys)
  end.

(** ** Proof automation shared by the components *)

Create HintDb pymodel.
Create Rewrite HintDb pymodel.

(** Turn boolean tests of the code into propositions. *)
Ltac reflect_bool :=
  repeat match goal with
  | H : _ && _ = true |- _ => apply andb_true_iff in H as [? ?]
  | H : _ || _ = false |- _ => apply orb_false_iff in H as [? ?]
  | H : negb _ = true |- _ => apply negb_true_iff in H
  | H : negb _ = false |- _ => apply negb_false_iff in H
  | H : (_ <? _)%Z = true |- _ => apply Z.ltb_lt in H
  | H : (_ <? _)%Z = false |- _ => apply Z.ltb_ge in H
  | H : (_ <=? _)%Z = true |- _ => apply Z.leb_le in H
  | H : (_ <=? _)%Z = false |- _ => apply Z.leb_gt in H
  | H : (_ =? _)%Z = true |- _ => apply Z.eqb_eq in H
  | H : (_ =? _)%Z = false |- _ => apply Z.eqb_neq in H
  | H : bool_decide _ = true |- _ => apply bool_decide_eq_true in H
  | H : bool_decide _ = false |- _ => apply bool_decide_eq_false in H
  end.

Lemma raise_if_Ok b e u : raise_if b e = Ok u ↔ b = false.
Proof. destruct b, u; simpl; naive_solver. Qed.

Lemma bind_Ok {A B} (f : A → result B) (r : result A) b :
  (r ≫= f) = Ok b ↔ ∃ a, r = Ok a ∧ f a = Ok b.
Proof. destruct r; simpl; naive_solver. Qed.

Lemma Mbind_Ok {S A B} (f : A → M S B) (m : M S A) s b s' :
  (m ≫= f) s = (Ok b, s') ↔ ∃ a s1, m s = (Ok a, s1) ∧ f a s1 = (Ok b, s').
Proof. unfold mbind, M_bind. destruct (m s) as [[a|e] s1]; naive_solver. Qed.

Lemma Mlift_Ok {S A} (r : result A) (s s' : S) a :
  lift r s = (Ok a, s') ↔ r = Ok a ∧ s' = s.
Proof. unfold lift. naive_solver. Qed.

Lemma Mguard_Ok {S} b e (s s' : S) u :
  guard_raise b e s = (Ok u, s') ↔ b = false ∧ s' = s.
Proof. unfold guard_raise. rewrite Mlift_Ok, raise_if_Ok. done. Qed.

(** Evaluate the monadic plumbing of a run. *)
Ltac mrun :=
  cbv beta iota delta [mbind M_bind result_bind get put modify lift guard_raise
    raise_if throw mret M_ret result_ret]; simpl.
Tactic Notation "mrun" "in" hyp(H) :=
  cbv beta iota delta [mbind M_bind result_bind get put modify lift guard_raise
    raise_if throw mret M_ret result_ret] in H; simpl in H.

(** Step through a successful run of a [result] or [M] computation. *)
Ltac inv_ok_step :=
  match goal with
  | H : Ok _ = Ok _ |- _ => injection H as H; subst
  | H : Raise _ = Raise _ |- _ => injection H as H; subst
  | H : Ok _ = Raise _ |- _ => discriminate H
  | H : Raise _ = Ok _ |- _ => discriminate H
  | H : (Ok _, _) = (Ok _, _) |- _ => injection H as H; subst
  | H : (Raise _, _) = (Raise _, _) |- _ => injection H as H; subst
  | H : (Raise _, _) = (Ok _, _) |- _ => discriminate H
  | H : (Ok _, _) = (Raise _, _) |- _ => discriminate H
  | H : raise_if _ _ = Ok _ |- _ => apply raise_if_Ok in H
  | H : mret _ = Ok _ |- _ => injection H as H; subst
  | H : mret _ _ = (Ok _, _) |- _ => injection H as H; subst
  | H : put _ _ = (Ok _, _) |- _ => injection H as H; subst
  | H : get _ = (Ok _, _) |- _ => injection H as H; subst
  | H : modify _ _ = (Ok _, _) |- _ => injection H as H; subst
  | H : throw _ _ = (Ok _, _) |- _ => discriminate H
  | H : (_ ≫= _) = Ok _ |- _ =>
      apply bind_Ok in H; destruct H as (? & ? & H)
  | H : (_ ≫= _) _ = (Ok _, _) |- _ =>
      apply Mbind_Ok in H; destruct H as (? & ? & ? & H)
  | H : lift _ _ = (Ok _, _) |- _ => apply Mlift_Ok in H as [H ?]; subst
  | H : guard_raise _ _ _ = (Ok _, _) |- _ => apply Mguard_Ok in H as [H ?]; subst
  end.
Ltac inv_ok := repeat (inv_ok_step; simpl in * ); reflect_bool.

Lemma existsb_false_Forall {A} (f : A → bool) l :
  existsb f l = false ↔ Forall (fun x => f x = false) l.
Proof.
  induction l as [|x l IH]; simpl; [by split|].
  rewrite orb_false_iff, IH, Forall_cons. done.
Qed.

Lemma filter_keep_all {A} (P : A → Prop) `{∀ x, Decision (P x)} l :
  Forall P l → filter P l = l.
Proof.
  induction 1 as [|x l Hx _ IH]; [done|]. by rewrite filter_cons_True, IH.
Qed.

Lemma filter_keep_none {A} (P : A → Prop) `{∀ x, Decision (P x)} l :
  Forall (fun x => ¬ P x) l → filter P l = [].
Proof.
  induction 1 as [|x l Hx _ IH]; [done|]. by rewrite filter_cons_False.
Qed.

Lemma last_drop_lt {A} n (l : list A) : n < length l → last (drop n l) = last l.
Proof.
  intros H. rewrite <- (take_drop n l) at 2. rewrite last_app.
  destruct (last (drop n l)) eqn:E; [done|].
  apply last_None in E. assert (length (drop n l) = 0) as E' by by rewrite E.
  rewrite length_drop in E'. lia.
Qed.

Lemma unit_exists (P : Prop) : (∃ _ : unit, P) ↔ P.
Proof. split; [by intros [_ ?]|by exists tt]. Qed.

(** ** Total Hoare triples of statements *)

(** From a state satisfying [P] the statement does not raise and ends in [Q]. *)
Definition triple {S A} (P : S → Prop) (m : M S A) (Q : A → S → Prop) : Prop :=
  ∀ s, P s → ∃ a s', m s = (Ok a, s') ∧ Q a s'.

Section Triples.
Context {S : Type}.
Implicit Types (P : S → Prop).

Lemma triple_ret {A} P (a : A) : triple P (mret a) (fun _ => P).
Proof. intros s Hs. by exists a, s. Qed.

Lemma triple_bind {A B} P (m : M S A) R (f : A → M S B) Q :
  triple P m R → (∀ a, triple (R a) (f a) Q) → triple P (m ≫= f) Q.
Proof.
  intros Hm Hf s Hs. destruct (Hm s Hs) as (a & s1 & E & H1).
  destruct (Hf a s1 H1) as (b & s2 & E2 & H2). exists b, s2.
  unfold mbind, M_bind. by rewrite E.
Qed.

Lemma triple_get {B} P (f : S → M S B) Q :
  (∀ s, P s → triple (eq s) (f s) Q) → triple P (get ≫= f) Q.
Proof. intros Hf s Hs. by apply (Hf s Hs). Qed.

(** The same, forgetting which state was read. *)
Lemma triple_get_inv {B} P (f : S → M S B) Q :
  (∀ s, P s → triple P (f s) Q) → triple P (get ≫= f) Q.
Proof. intros Hf s Hs. by apply (Hf s Hs). Qed.

Lemma triple_modify P (f : S → S) (Q : unit → S → Prop) :
  (∀ s, P s → Q tt (f s)) → triple P (modify f) Q.
Proof. intros Hf s Hs. exists tt, (f s). auto. Qed.

Lemma triple_conseq {A} (P P' : S → Prop) (m : M S A) Q Q' :
  triple P' m Q' → (∀ s, P s → P' s) → (∀ a s, Q' a s → Q a s) → triple P m Q.
Proof.
  intros Hm HP HQ s Hs. destruct (Hm s (HP s Hs)) as (a & s' & E & H). exists a, s'. auto.
Qed.

Lemma triple_foreach {A} P (f : A → M S unit) l :
  (∀ x, x ∈ l → triple P (f x) (fun _ => P)) → triple P (mforeach f l) (fun _ => P).
Proof.
  induction l as [|x l IH]; intros Hf; [intros s Hs; by exists tt, s|]. cbn [mforeach].
  apply triple_bind with (fun _ => P); [apply Hf; constructor|]. intros _. apply IH.
  intros y Hy. apply Hf. by constructor.
Qed.
End Triples.

(** ** Python slices of sequences, indexed by [Z] *)

(** [l[:n]] and [l[n:]] for a non-negative [n]. *)
Definition ztake {A} (n : Z) (l : list A) : list A := take (Z.to_nat n) l.
Definition zdrop {A} (n : Z) (l : list A) : list A := drop (Z.to_nat n) l.
Definition zlength {A} (l : list A) : Z := Z.of_nat (length l).
(** [l[i:j]]. *)
Definition zslice {A} (i j : Z) (l : list A) : list A := zdrop i (ztake j l).

Lemma zlength_nonneg {A} (l : list A) : (0 ≤ zlength l)%Z.
Proof. unfold zlength. lia. Qed.
Lemma zlength_nil {A} : zlength (@nil A) = 0%Z.
Proof. done. Qed.
Lemma zlength_cons {A} (x : A) l : zlength (x :: l) = (1 + zlength l)%Z.
Proof. unfold zlength. simpl. lia. Qed.
Lemma zlength_app {A} (l k : list A) : zlength (l ++ k) = (zlength l + zlength k)%Z.
Proof. unfold zlength. rewrite length_app. lia. Qed.
Lemma zlength_snoc {A} (l : list A) x : zlength (l ++ [x]) = (zlength l + 1)%Z.
Proof. by rewrite zlength_app. Qed.
Lemma ztake_app {A} (l k : list A) : ztake (zlength l) (l ++ k) = l.
Proof. unfold ztake, zlength. rewrite Nat2Z.id. apply take_app_length. Qed.
Lemma zdrop_app {A} (l k : list A) : zdrop (zlength l) (l ++ k) = k.
Proof. unfold zdrop, zlength. rewrite Nat2Z.id. apply drop_app_length. Qed.
Lemma ztake_zdrop {A} n (l : list A) : ztake n l ++ zdrop n l = l.
Proof. apply take_drop. Qed.
Lemma zlength_ztake {A} n (l : list A) :
  (0 ≤ n ≤ zlength l)%Z → zlength (ztake n l) = n.
Proof. unfold zlength, ztake. intros. rewrite length_take. lia. Qed.
Lemma zlength_zdrop {A} n (l : list A) :
  (0 ≤ n ≤ zlength l)%Z → zlength (zdrop n l) = (zlength l - n)%Z.
Proof. unfold zlength, zdrop. intros. rewrite length_drop. lia. Qed.

#[export] Hint Rewrite @zlength_nil @zlength_cons @zlength_app : pymodel.
#[export] Hint Resolve zlength_nonneg : pymodel.

(** ** What a piece of code keeps, whether it returns or raises *)
Section Stable.
Context {S : Type}.
Context (P : S → Prop).

Definition stable {A} (f : M S A) : Prop := ∀ s, P s → P (f s).2.

Lemma stable_bind {A B} (f : M S A) (g : A → M S B) : stable f → (∀ a, stable (g a)) → stable (f ≫= g).
Proof.
  intros Hf Hg s Hs. unfold mbind, M_bind. specialize (Hf s Hs). destruct (f s) as [[a|e] s1]; [|done].
  by apply Hg.
Qed.

Lemma stable_get {B} (g : S → M S B) : (∀ s, stable (g s)) → stable (get ≫= g).
Proof. intros Hg s. apply Hg. Qed.

Lemma stable_lift {A} (r : result A) : stable (lift r).
Proof. by intros s. Qed.

Lemma stable_ret {A} (a : A) : stable (mret a).
Proof. by intros s. Qed.

Lemma stable_modify (g : S → S) : (∀ s, P s → P (g s)) → stable (modify g).
Proof. done. Qed.

Lemma stable_try {A} (m : M S A) (h : pyexn → M S A) :
  stable m → (∀ e, stable (h e)) → stable (try_except m h).
Proof.
  intros Hm Hh s Hs. unfold try_except. specialize (Hm s Hs). destruct (m s) as [[a|e] s1]; [done|]. by apply Hh.
Qed.

Lemma stable_foreach {A} (f : A → M S unit) l : (∀ x, stable (f x)) → stable (mforeach f l).
Proof.
  intros Hf. induction l as [|x l IH]; [apply stable_ret|]. by apply stable_bind; [apply Hf|].
Qed.
End Stable.

(** ** Sorting: Python's stable [sorted(l, key=...)] *)

Section StableSort.
Context {A : Type} (lt : A → A → bool).

Fixpoint insert_sorted (x : A) (l : list A) : list A :=
  match l with
  | [] => [x]
  | y :: l' => if lt y x then y :: insert_sorted x l' else x :: y :: l'
  end.

(** Insertion from the right keeps equal keys in their original order. *)
Fixpoint stable_sort (l : list A) : list A :=
  match l with
  | [] => []
  | x :: l' => insert_sorted x (stable_sort l')
  end.

Lemma insert_sorted_perm x l : insert_sorted x l ≡ₚ x :: l.
Proof.
  induction l as [|y l IH]; simpl; [done|].
  destruct (lt y x); [rewrite IH; apply perm_swap | done].
Qed.

Lemma stable_sort_perm l : stable_sort l ≡ₚ l.
Proof.
  induction l as [|x l IH]; simpl; [done|].
  by rewrite insert_sorted_perm, IH.
Qed.

Lemma stable_sort_length l : length (stable_sort l) = length l.
Proof. by rewrite stable_sort_perm. Qed.
End StableSort.

Lemma insert_sorted_map {A B} (f : A → B) (lt : B → B → bool) x l :
  map f (insert_sorted (fun a b => lt (f a) (f b)) x l) = insert_sorted lt (f x) (map f l).
Proof.
  induction l as [|y l IH]; simpl; [done|]. by destruct (lt (f y) (f x)); simpl; rewrite ?IH.
Qed.

(** Sorting by a key commutes with projecting the key. *)
Lemma stable_sort_map {A B} (f : A → B) (lt : B → B → bool) l :
  map f (stable_sort (fun a b => lt (f a) (f b)) l) = stable_sort lt (map f l).
Proof. induction l as [|x l IH]; simpl; [done|]. by rewrite insert_sorted_map, IH. Qed.

Lemma map_fst_zip_eq {A B} (l : list A) (k : list B) :
  length k = length l → map fst (zip l k) = l.
Proof. intros H. apply fst_zip. lia. Qed.

(** ** Taking turns *)

Section Turns.
Local Open Scope nat_scope.

Lemma wrapped c j n : c < n → j < n → (c + j) mod n = if c + j <? n then c + j else c + j - n.
Proof.
  intros Hc Hj. destruct (Nat.ltb_spec (c + j) n); [by apply Nat.mod_small|].
  replace (c + j) with (c + j - n + 1 * n) at 1 by lia. rewrite Nat.Div0.mod_add. apply Nat.mod_small. lia.
Qed.

Lemma round_permutation c n : c < n → map (fun j => (c + j) mod n) (seq 0 n) ≡ₚ seq 0 n.
Proof.
  intros Hc. apply NoDup_Permutation_bis.
  - apply NoDup_ListNoDup, (NoDup_fmap_2_strong (fun j => (c + j) mod n)); [|apply NoDup_seq].
    intros i j Hi%elem_of_seq Hj%elem_of_seq. rewrite !wrapped by lia.
    destruct (Nat.ltb_spec (c + i) n), (Nat.ltb_spec (c + j) n); lia.
  - by rewrite length_map.
  - intros x (j & <- & _)%in_map_iff. apply in_seq. split; [lia|]. apply Nat.mod_upper_bound. lia.
Qed.

End Turns.

Lemma rmapM_Ok_Forall {A B} (f : A → result B) l k :
  rmapM f l = Ok k → Forall (fun x => is_ok (f x) = true) l ∧ length k = length l.
Proof.
  revert k. induction l as [|x l IH]; intros k H; simpl in H.
  - injection H as <-. by split.
  - destruct (f x) as [y|] eqn:E; [|done]. simpl in H.
    destruct (rmapM f l) as [ys|]; [|done]. injection H as <-.
    destruct (IH ys) as [? Hl]; [done|]. split; [|simpl; by rewrite Hl].
    constructor; [by rewrite E|done].
Qed.

(** ** Assigning one attribute of an object *)

(** [Eta R] rebuilds a record from its projections; a [Setter] of a projection
    is obtained from it by abstracting that projection. *)
Class Eta (R : Type) := eta : R → R.
Class Setter {R E : Type} (f : R → E) := setter : (R → E) → R → R.

Ltac solve_setter :=
  match goal with
  | |- @Setter ?R ?E ?f =>
      let i := constr:(_ : Eta R) in
      let e := eval hnf in i in
      match eval pattern f in e with ?F _ => exact F end
  end.
#[export] Hint Extern 0 (Setter _) => solve_setter : typeclass_instances.

Definition assign {R E} (f : R → E) {s : Setter f} (v : E) (r : R) : R :=
  s (fun _ => v) r.
Arguments assign {R E} f {s} v r : simpl never.

(** Compute the attributes of updated objects. *)
Ltac field_step :=
  match goal with
  | |- context [?f (@assign ?R ?E ?g ?s ?v ?r)] =>
      first [ change (f (@assign R E g s v r)) with v
            | change (f (@assign R E g s v r)) with (f r) ]
  | H : context [?f (@assign ?R ?E ?g ?s ?v ?r)] |- _ =>
      first [ change (f (@assign R E g s v r)) with v in H
            | change (f (@assign R E g s v r)) with (f r) in H ]
  end.
Ltac fields := repeat (field_step; simpl in * ); simpl in *.

Notation "r <| f := v |>" := (assign f v r)
  (at level 12, left associativity, f at level 200, v at level 200,
   format "r  <| f  :=  v |>").

(** [self.f = v]. *)
Abbreviation assign_to f v := (modify (assign f v)).
