(* ===== verification/PyNum.v ===== *)
(** * Python numbers: unbounded integers and binary64 floats

    A Python [int] is a [Z]; a Python [float] is an IEEE 754 binary64 datum,
    computed with the Standard Library's executable [SpecFloat] at precision 53
    and exponent bound 1024.  Comparisons between the two kinds are exact, as in
    CPython, so they are made on the dyadic value [m * 2^e]. *)
From S2P Require Import Prelude.
From Stdlib Require Import SpecFloat DecimalString DecimalZ.
Local Open Scope Z_scope.

Abbreviation pyfloat := spec_float.

(** [TypeError]-free numeric values: a timestamp is an [int] or a [float]. *)
Inductive num : Type :=
| NInt (z : Z)
| NFloat (f : pyfloat).

#[global] Instance pyfloat_eq_dec : EqDecision pyfloat.
Proof. solve_decision. Defined.
#[global] Instance num_eq_dec : EqDecision num.
Proof. solve_decision. Defined.

(** ** Arithmetic *)

Definition f_sub (x y : pyfloat) : pyfloat := SFsub 53 1024 x y.
Definition f_add (x y : pyfloat) : pyfloat := SFadd 53 1024 x y.
Definition f_div (x y : pyfloat) : pyfloat := SFdiv 53 1024 x y.
Definition f_of_Z (z : Z) : pyfloat := binary_normalize 53 1024 z 0 false.

Definition f_finite (f : pyfloat) : bool :=
  match f with S754_zero _ | S754_finite _ _ _ => true | _ => false end.

(** [float(n)]: an integer too large for binary64 raises. *)
Definition to_float (n : num) : result pyfloat :=
  match n with
  | NFloat f => Ok f
  | NInt z => if f_finite (f_of_Z z) then Ok (f_of_Z z)
              else Raise (OverflowError "int too large to convert to float")
  end.

(** [math.isfinite(n)] converts its argument to a float first. *)
Definition math_isfinite (n : num) : result bool :=
  f ← to_float n; Ok (f_finite f).

(** ** Exact comparison *)

(** The dyadic value [(m, e)] of a finite number, read as [m * 2^e]. *)
Definition dyadic (n : num) : option (Z * Z) :=
  match n with
  | NInt z => Some (z, 0)
  | NFloat (S754_zero _) => Some (0, 0)
  | NFloat (S754_finite s m e) => Some (if s then Z.neg m else Z.pos m, e)
  | NFloat _ => None
  end.

Definition dy_compare (a b : Z * Z) : comparison :=
  let e := Z.min a.2 b.2 in
  Z.compare (a.1 * 2 ^ (a.2 - e)) (b.1 * 2 ^ (b.2 - e)).

(** The order of two numbers, [None] when one of them is a NaN. *)
Definition num_compare (a b : num) : option comparison :=
  match dyadic a, dyadic b with
  | Some x, Some y => Some (dy_compare x y)
  | _, _ =>
      match a, b with
      | NFloat S754_nan, _ | _, NFloat S754_nan => None
      | NFloat (S754_infinity s), NFloat (S754_infinity t) =>
          Some (match s, t with true, false => Lt | false, true => Gt | _, _ => Eq end)
      | NFloat (S754_infinity s), _ => Some (if s then Lt else Gt)
      | _, NFloat (S754_infinity s) => Some (if s then Gt else Lt)
      | _, _ => None
      end
  end.

Definition num_lt (a b : num) : bool :=
  match num_compare a b with Some Lt => true | _ => false end.
Definition num_le (a b : num) : bool :=
  match num_compare a b with Some Lt | Some Eq => true | _ => false end.
Definition f_lt (x y : pyfloat) : bool := num_lt (NFloat x) (NFloat y).
Definition f_le (x y : pyfloat) : bool := num_le (NFloat x) (NFloat y).

Definition num_finite (n : num) : bool :=
  match dyadic n with Some _ => true | None => false end.

(** ** Fixed-point formatting, [f"{x:.kf}"] *)

Definition digits_of (n : Z) : string :=
  NilZero.string_of_int (Z.to_int n).

Fixpoint zeros (n : nat) : string :=
  match n with O => "" | S n' => "0" ++ zeros n' end.

(** Round-half-even quotient of a non-negative [n] by a positive [d]. *)
Definition div_half_even (n d : Z) : Z :=
  let q := n / d in
  match Z.compare (2 * (n mod d)) d with
  | Lt => q
  | Gt => q + 1
  | Eq => if Z.even q then q else q + 1
  end.

Definition scaled (k : Z) (m e : Z) : Z :=
  if 0 <=? e then m * 10 ^ k * 2 ^ e
  else div_half_even (m * 10 ^ k) (2 ^ (- e)).

Definition fixed_digits (k : Z) (n : Z) : string :=
  let ip := digits_of (n / 10 ^ k) in
  let fp := digits_of (n mod 10 ^ k) in
  ip ++ "." ++ zeros (Z.to_nat k - String.length fp) ++ fp.

(** [f"{x:.kf}"] for a float [x] and [k > 0]. *)
Definition format_fixed (k : Z) (f : pyfloat) : string :=
  match f with
  | S754_nan => "nan"
  | S754_infinity s => if s then "-inf" else "inf"
  | S754_zero s => (if s then "-" else "") ++ fixed_digits k 0
  | S754_finite s m e => (if s then "-" else "") ++ fixed_digits k (scaled k (Z.pos m) e)
  end.

Example format_one : format_fixed 1 (f_of_Z 1) = "1.0"%string.
Proof. reflexivity. Qed.
Example format_tie : format_fixed 1 (f_div (f_of_Z 1) (f_of_Z 4)) = "0.2"%string.
Proof. reflexivity. Qed.
Example format_nine :
  format_fixed 9 (f_div (f_of_Z 1) (f_of_Z 10)) = "0.100000000"%string.
Proof. reflexivity. Qed.

(** ** The order on finite numbers *)

Lemma dy_compare_at e a b :
  e ≤ a.2 → e ≤ b.2 →
  dy_compare a b = Z.compare (a.1 * 2 ^ (a.2 - e)) (b.1 * 2 ^ (b.2 - e)).
Proof.
  intros Ha Hb. unfold dy_compare. set (m := Z.min a.2 b.2).
  assert (Hm : e ≤ m) by (unfold m; lia).
  assert (Hp : 0 < 2 ^ (m - e)) by (apply Z.pow_pos_nonneg; lia).
  replace (a.2 - e) with ((a.2 - m) + (m - e)) by lia.
  replace (b.2 - e) with ((b.2 - m) + (m - e)) by lia.
  rewrite !Z.pow_add_r by (unfold m; lia). rewrite !Z.mul_assoc.
  apply Zmult_compare_compat_r. lia.
Qed.

Lemma num_compare_dyadic a b x y :
  dyadic a = Some x → dyadic b = Some y → num_compare a b = Some (dy_compare x y).
Proof. intros Ha Hb. unfold num_compare. by rewrite Ha, Hb. Qed.

Lemma num_finite_dyadic n : num_finite n = true ↔ ∃ x, dyadic n = Some x.
Proof. unfold num_finite. destruct (dyadic n); naive_solver. Qed.

Lemma num_lt_le a b : num_lt a b = true → num_le a b = true.
Proof. unfold num_lt, num_le. destruct (num_compare a b) as [[]|]; done. Qed.

Lemma num_le_refl a : num_finite a = true → num_le a a = true.
Proof.
  intros [x Hx]%num_finite_dyadic. unfold num_le.
  rewrite (num_compare_dyadic _ _ _ _ Hx Hx).
  unfold dy_compare. by rewrite Z.compare_refl.
Qed.

Lemma num_le_nlt a b :
  num_finite a = true → num_finite b = true → num_le a b = negb (num_lt b a).
Proof.
  intros [x Ha]%num_finite_dyadic [y Hb]%num_finite_dyadic.
  unfold num_lt, num_le. rewrite (num_compare_dyadic _ _ _ _ Ha Hb).
  rewrite (num_compare_dyadic _ _ _ _ Hb Ha).
  rewrite !(dy_compare_at (Z.min x.2 y.2)) by lia.
  rewrite Z.compare_antisym. by destruct (_ ?= _).
Qed.

Lemma num_le_total a b :
  num_finite a = true → num_finite b = true → num_le a b = true ∨ num_le b a = true.
Proof.
  intros Ha Hb. rewrite (num_le_nlt a b), (num_le_nlt b a) by done.
  destruct (num_lt b a) eqn:E; [right|left]; [|done].
  rewrite <- num_le_nlt by done. by apply num_lt_le.
Qed.

Lemma num_le_trans a b c :
  num_finite b = true →
  num_finite a = true → num_finite c = true →
  num_le a b = true → num_le b c = true → num_le a c = true.
Proof.
  intros [y Hb]%num_finite_dyadic [x Ha]%num_finite_dyadic [z Hc]%num_finite_dyadic.
  unfold num_le.
  rewrite (num_compare_dyadic _ _ _ _ Ha Hb), (num_compare_dyadic _ _ _ _ Hb Hc),
    (num_compare_dyadic _ _ _ _ Ha Hc).
  set (e := Z.min x.2 (Z.min y.2 z.2)).
  rewrite !(dy_compare_at e) by lia.
  set (p := x.1 * _). set (q := y.1 * _). set (r := z.1 * _).
  destruct (Z.compare_spec p q), (Z.compare_spec q r), (Z.compare_spec p r);
    try done; lia.
Qed.

Lemma num_lt_irrefl a : num_lt a a = false.
Proof.
  unfold num_lt, num_compare.
  destruct (dyadic a) as [x|] eqn:E.
  - unfold dy_compare. by rewrite Z.compare_refl.
  - destruct a as [|[|[]| |]]; done.
Qed.

Lemma to_float_finite n f :
  math_isfinite n = Ok true → to_float n = Ok f → f_finite f = true.
Proof. unfold math_isfinite. intros H Hf. rewrite Hf in H. by injection H. Qed.

Lemma f_finite_num f : f_finite f = num_finite (NFloat f).
Proof. by destruct f. Qed.

Lemma math_isfinite_finite n : math_isfinite n = Ok true → num_finite n = true.
Proof.
  destruct n as [z|f]; [done|]. unfold math_isfinite. simpl.
  intros H. injection H as H. by rewrite <- f_finite_num.
Qed.

(** A finite number minus itself is [+0.0]. *)
Lemma f_sub_self f : f_finite f = true → f_sub f f = S754_zero false.
Proof.
  destruct f as [[]| | |b m e]; try done. intros _. unfold f_sub, SFsub.
  rewrite Z.min_id, Z.sub_diag. by destruct (shl_align m e e), b.
Qed.

Lemma f_lt_zero f : num_le (NFloat f) (NInt 0) = false → f_lt f (S754_zero false) = false.
Proof.
  unfold f_lt. intros H. destruct (num_lt _ _) eqn:E; [|done].
  apply num_lt_le in E. rewrite <- H, <- E. done.
Qed.
