(* ===== verification/Payload.v ===== *)
(** * Input contract of the realtime pipeline

    Models [src/sglang_omni/models/moss_vl_realtime/payload_types.py]: the
    validation of one frame/prompt event, its control-plane dictionary form and
    the text of one drain cycle.  A field that arrives from the control plane is
    a dynamically typed [pyval]; an event that passed validation is a typed
    record. *)
From S2P Require Import Prelude PyNum.
Local Open Scope Z_scope.
Local Open Scope string_scope.

(** A Python object as far as the validation distinguishes it. *)
Inductive pyval : Type :=
| VNone
| VBool (b : bool)
| VNum (n : num)
| VStr (s : string)
| VOther.

#[global] Instance pyval_eq_dec : EqDecision pyval.
Proof. solve_decision. Defined.

Inductive pyobj : Type :=
| ODict (d : gmap string pyval)
| OOther.

Record FramePromptEvent : Type := {
  ev_request_id : string;
  ev_session_id : string;
  ev_seq_no : Z;
  ev_timestamp : num;
  ev_frame_ref : option string;
  ev_prompt : option string;
  ev_final : bool;
  ev_fingerprint : option string
}.

#[global] Instance FramePromptEvent_eq_dec : EqDecision FramePromptEvent.
Proof. solve_decision. Defined.

(** ** [FramePromptEvent.__post_init__] *)

Definition check_id (name : string) (v : pyval) : result string :=
  match v with
  | VStr s => if String.eqb s "" then Raise (ValueError (name ++ " must not be empty"))
              else Ok s
  | _ => Raise (TypeError (name ++ " must be a string"))
  end.

Definition check_seq_no (v : pyval) : result Z :=
  match v with
  | VNum (NInt z) => if (z <? 0)%Z then Raise (ValueError "seq_no must be non-negative")
                     else Ok z
  | _ => Raise (TypeError "seq_no must be an integer")
  end.

Definition check_timestamp (v : pyval) : result num :=
  match v with
  | VNum n =>
      finite ← math_isfinite n;
      if negb finite || num_lt n (NInt 0)
      then Raise (ValueError "timestamp must be finite and non-negative")
      else Ok n
  | _ => Raise (TypeError "timestamp must be a number")
  end.

Definition check_optional_text (name : string) (v : pyval) : result (option string) :=
  match v with
  | VNone => Ok None
  | VStr s => if String.eqb s "" then Raise (ValueError (name ++ " must not be empty"))
              else Ok (Some s)
  | _ => Raise (TypeError (name ++ " must be a string"))
  end.

Definition check_final (v : pyval) : result bool :=
  match v with VBool b => Ok b | _ => Raise (TypeError "final must be a boolean") end.

Definition check_fingerprint (v : pyval) : result (option string) :=
  match v with
  | VNone => Ok None
  | VStr s => Ok (Some s)
  | _ => Raise (TypeError "fingerprint must be a string")
  end.

Definition make_event (request_id session_id seq_no timestamp frame_ref prompt
    final fingerprint : pyval) : result FramePromptEvent :=
  rid ← check_id "request_id" request_id;
  sid ← check_id "session_id" session_id;
  seq ← check_seq_no seq_no;
  ts ← check_timestamp timestamp;
  ref ← check_optional_text "frame_ref" frame_ref;
  pr ← check_optional_text "prompt" prompt;
  _ ← raise_if (bool_decide (ref = None) && bool_decide (pr = None))
        (ValueError "event must contain a frame or prompt");
  fin ← check_final final;
  fp ← check_fingerprint fingerprint;
  Ok {| ev_request_id := rid; ev_session_id := sid; ev_seq_no := seq;
        ev_timestamp := ts; ev_frame_ref := ref; ev_prompt := pr;
        ev_final := fin; ev_fingerprint := fp |}.

(** ** The control-plane dictionary *)

Definition insert_opt (k : string) (v : option string) (d : gmap string pyval)
  : gmap string pyval :=
  match v with Some s => <[k := VStr s]> d | None => d end.

Definition to_dict (e : FramePromptEvent) : result (gmap string pyval) :=
  ts ← to_float (ev_timestamp e);
  Ok (insert_opt "fingerprint" (ev_fingerprint e)
       (insert_opt "prompt" (ev_prompt e)
         (insert_opt "frame_ref" (ev_frame_ref e)
           (<["final" := VBool (ev_final e)]>
             (<["timestamp" := VNum (NFloat ts)]>
               (<["seq_no" := VNum (NInt (ev_seq_no e))]>
                 (<["session_id" := VStr (ev_session_id e)]>
                   (<["request_id" := VStr (ev_request_id e)]>
                     {["_type" := VStr "FramePromptEvent"]})))))))).

Definition dict_get (d : gmap string pyval) (k : string) (dflt : pyval) : pyval :=
  match d !! k with Some v => v | None => dflt end.

Definition required_fields : list string :=
  ["request_id"; "session_id"; "seq_no"; "timestamp"].

Definition from_dict (data : pyobj) : result FramePromptEvent :=
  match data with
  | OOther => Raise (TypeError "frame event must be a dictionary")
  | ODict d =>
      _ ← raise_if
            (negb (bool_decide (dict_get d "_type" (VStr "FramePromptEvent")
                                = VStr "FramePromptEvent")))
            (ValueError "unexpected frame event type");
      _ ← raise_if (existsb (fun k => bool_decide (d !! k = None)) required_fields)
            (ValueError "frame event is missing fields");
      make_event (dict_get d "request_id" VNone) (dict_get d "session_id" VNone)
        (dict_get d "seq_no" VNone) (dict_get d "timestamp" VNone)
        (dict_get d "frame_ref" VNone) (dict_get d "prompt" VNone)
        (dict_get d "final" (VBool false)) (dict_get d "fingerprint" VNone)
  end.

Definition has_frame (e : FramePromptEvent) : bool :=
  match ev_frame_ref e with Some _ => true | None => false end.

(** ** Segment text *)

Definition VISION_START_TOKEN := "<|vision_start|>".
Definition VISION_END_TOKEN := "<|vision_end|>".
Definition IMAGE_PLACEHOLDER := "<|image|>".
Definition TIME_START_TOKEN := "<|time_start|>".
Definition TIME_END_TOKEN := "<|time_end|>".
Definition SILENCE_TOKEN := "<|silence|>".

Definition newline : string := String (Ascii.ascii_of_nat 10) "".

Definition build_realtime_frame_text (timestamp : pyval) : result string :=
  ts ← check_timestamp timestamp;
  f ← to_float ts;
  Ok (VISION_START_TOKEN ++ TIME_START_TOKEN ++ format_fixed 1 f ++ " seconds"
      ++ TIME_END_TOKEN ++ IMAGE_PLACEHOLDER ++ VISION_END_TOKEN).

(** One prompt closes the assistant turn, states the user turn and consumes the
    trained assistant opener. *)
Definition prompt_text (prompt : string) : string :=
  "<|im_end|>" ++ newline ++ "<|im_start|>user" ++ newline ++ prompt
  ++ "<|im_end|>" ++ newline ++ "<|im_start|>assistant" ++ newline ++ SILENCE_TOKEN.

Definition check_prompt (v : pyval) : result string :=
  match v with
  | VStr s => if String.eqb s "" then Raise (ValueError "prompt must not be empty")
              else Ok s
  | _ => Raise (TypeError "prompt must be a string")
  end.

Definition concat_text (l : list string) : string := foldr String.append "" l.

Definition build_realtime_append_text (prompts frame_timestamps : list pyval)
  : result string :=
  ps ← rmapM check_prompt prompts;
  fs ← rmapM build_realtime_frame_text frame_timestamps;
  Ok (concat_text (map prompt_text ps) ++ concat_text fs).

(** ** Facts about validation *)

(** What a constructed event satisfies. *)
Definition wf_event (e : FramePromptEvent) : Prop :=
  ev_request_id e ≠ "" ∧ ev_session_id e ≠ "" ∧ (0 ≤ ev_seq_no e)%Z ∧
  math_isfinite (ev_timestamp e) = Ok true ∧
  num_lt (ev_timestamp e) (NInt 0) = false ∧
  ev_frame_ref e ≠ Some "" ∧ ev_prompt e ≠ Some "" ∧
  (ev_frame_ref e ≠ None ∨ ev_prompt e ≠ None).

Definition opt_text (o : option string) : pyval :=
  match o with Some s => VStr s | None => VNone end.

(** The constructor applied to the fields of an event. *)
Definition rebuild (e : FramePromptEvent) : result FramePromptEvent :=
  make_event (VStr (ev_request_id e)) (VStr (ev_session_id e))
    (VNum (NInt (ev_seq_no e))) (VNum (ev_timestamp e))
    (opt_text (ev_frame_ref e)) (opt_text (ev_prompt e))
    (VBool (ev_final e)) (opt_text (ev_fingerprint e)).

Lemma check_id_Ok name v s : check_id name v = Ok s ↔ v = VStr s ∧ s ≠ "".
Proof.
  destruct v as [| | |t|]; simpl; try naive_solver.
  destruct (String.eqb_spec t ""); naive_solver.
Qed.

Lemma check_seq_no_Ok v z : check_seq_no v = Ok z ↔ v = VNum (NInt z) ∧ (0 ≤ z)%Z.
Proof.
  destruct v as [| |[t|]| |]; simpl; try naive_solver.
  destruct (Z.ltb_spec t 0); naive_solver lia.
Qed.

Lemma check_timestamp_Ok v n :
  check_timestamp v = Ok n ↔
  v = VNum n ∧ math_isfinite n = Ok true ∧ num_lt n (NInt 0) = false.
Proof.
  destruct v as [| |t| |]; simpl; try naive_solver.
  destruct (math_isfinite t) as [[]|] eqn:E; simpl;
    [destruct (num_lt t (NInt 0)) eqn:E2|..];
    split; intros H; destruct_and?; simplify_eq; try done; congruence.
Qed.

Lemma check_optional_text_Ok name v o :
  check_optional_text name v = Ok o ↔ v = opt_text o ∧ o ≠ Some "".
Proof.
  destruct v as [| | |t|], o as [s|]; simpl; try naive_solver;
    destruct (String.eqb_spec t ""); naive_solver.
Qed.

Lemma check_fingerprint_Ok v o : check_fingerprint v = Ok o ↔ v = opt_text o.
Proof. destruct v, o; simpl; split; intros H; try discriminate; congruence. Qed.

Lemma check_final_Ok v b : check_final v = Ok b ↔ v = VBool b.
Proof. destruct v; simpl; naive_solver. Qed.

Lemma make_event_Ok rid sid seq ts ref pr fin fp e :
  make_event rid sid seq ts ref pr fin fp = Ok e ↔
  wf_event e ∧
  rid = VStr (ev_request_id e) ∧ sid = VStr (ev_session_id e) ∧
  seq = VNum (NInt (ev_seq_no e)) ∧ ts = VNum (ev_timestamp e) ∧
  ref = opt_text (ev_frame_ref e) ∧ pr = opt_text (ev_prompt e) ∧
  fin = VBool (ev_final e) ∧ fp = opt_text (ev_fingerprint e).
Proof.
  unfold make_event, wf_event. split.
  - intros H. repeat (apply bind_Ok in H as (? & ? & H)).
    rewrite ?check_id_Ok, ?check_seq_no_Ok, ?check_timestamp_Ok,
      ?check_optional_text_Ok, ?check_final_Ok, ?check_fingerprint_Ok,
      ?raise_if_Ok in *.
    injection H as <-. simpl. destruct_and!. split_and!; try done.
    match goal with H : bool_decide _ && _ = false |- _ =>
      apply andb_false_iff in H as [H|H]; apply bool_decide_eq_false in H end; auto.
  - destruct e as [a b c d f g h i]; simpl. intros H. destruct_and!. subst.
    rewrite (proj2 (check_id_Ok "request_id" _ a)) by done.
    rewrite (proj2 (check_id_Ok "session_id" _ b)) by done.
    rewrite (proj2 (check_seq_no_Ok _ c)) by done.
    rewrite (proj2 (check_timestamp_Ok _ d)) by done.
    rewrite (proj2 (check_optional_text_Ok "frame_ref" _ f)) by done.
    rewrite (proj2 (check_optional_text_Ok "prompt" _ g)) by done.
    rewrite (proj2 (check_fingerprint_Ok _ i)) by done.
    destruct f, g; simpl; naive_solver.
Qed.

Lemma rebuild_wf e : wf_event e → rebuild e = Ok e.
Proof. intros H. apply make_event_Ok. done. Qed.

Lemma make_event_rebuild rid sid seq ts ref pr fin fp e :
  make_event rid sid seq ts ref pr fin fp = Ok e → rebuild e = Ok e ∧ wf_event e.
Proof. rewrite make_event_Ok. intros (H & _). split; [by apply rebuild_wf | done]. Qed.

(** ** Round trip through the control plane *)

(** The dictionary carries [float(timestamp)]. *)
Definition with_timestamp (e : FramePromptEvent) (f : pyfloat) : FramePromptEvent :=
  {| ev_request_id := ev_request_id e; ev_session_id := ev_session_id e;
     ev_seq_no := ev_seq_no e; ev_timestamp := NFloat f;
     ev_frame_ref := ev_frame_ref e; ev_prompt := ev_prompt e;
     ev_final := ev_final e; ev_fingerprint := ev_fingerprint e |}.

Lemma binary_round_aux_sign s m e l :
  match SpecFloat.binary_round_aux 53 1024 s m e l with
  | SpecFloat.S754_finite t _ _ => t = s
  | _ => True
  end.
Proof.
  unfold SpecFloat.binary_round_aux.
  destruct (SpecFloat.shr_fexp _ _ _ _ _) as [mrs1 e1].
  destruct (SpecFloat.shr_fexp _ _ _ _ _) as [mrs2 e2].
  destruct (SpecFloat.shr_m mrs2); try done. by destruct (_ <=? _)%Z.
Qed.

Lemma f_of_Z_nonneg z :
  (0 ≤ z)%Z → f_finite (f_of_Z z) = true → num_lt (NFloat (f_of_Z z)) (NInt 0) = false.
Proof.
  intros Hz Hf. unfold f_of_Z in *. destruct z as [|p|p]; [done| |lia].
  simpl in *. unfold SpecFloat.binary_round in *.
  destruct (SpecFloat.shl_align _ _ _) as [mz ez].
  pose proof (binary_round_aux_sign false (Z.pos mz) ez SpecFloat.loc_Exact) as H.
  destruct (SpecFloat.binary_round_aux _ _ _ _ _ _) as [| | |s m e]; try done.
  subst s. unfold num_lt, num_compare. simpl. unfold dy_compare. simpl.
  set (k := Z.min e 0). assert (0 < 2 ^ (e - k))%Z by (apply Z.pow_pos_nonneg; lia).
  rewrite Z.mul_0_l.
  by replace (Z.pos m * 2 ^ (e - k) ?= 0)%Z with Gt by (symmetry; apply Z.compare_gt_iff; lia).
Qed.

Lemma wf_event_to_float e :
  wf_event e → ∃ f, to_float (ev_timestamp e) = Ok f ∧ wf_event (with_timestamp e f).
Proof.
  unfold wf_event. intros (? & ? & ? & Hfin & Hneg & ? & ? & ?). simpl.
  destruct (ev_timestamp e) as [z|f] eqn:E; simpl in *.
  - unfold math_isfinite in Hfin. simpl in Hfin.
    destruct (f_finite (f_of_Z z)) eqn:Ef; [|done].
    exists (f_of_Z z). split_and!; try done.
    apply f_of_Z_nonneg; [|done].
    unfold num_lt, num_compare in Hneg. simpl in Hneg. unfold dy_compare in Hneg.
    simpl in Hneg. rewrite Z.mul_0_l, Z.mul_1_r in Hneg. destruct (Z.compare_spec z 0); [lia|done|lia].
  - exists f. done.
Qed.

Lemma lookup_insert_opt k k' o d :
  insert_opt k o d !! k' =
  if decide (k = k') then (match o with Some s => Some (VStr s) | None => d !! k' end)
  else d !! k'.
Proof.
  destruct o; simpl; case_decide; subst;
    rewrite ?lookup_insert_eq, ?lookup_insert_ne by done; done.
Qed.

Lemma roundtrip_event e :
  wf_event e →
  ∃ d f, to_float (ev_timestamp e) = Ok f ∧ to_dict e = Ok d ∧
         from_dict (ODict d) = Ok (with_timestamp e f).
Proof.
  intros Hwf. destruct (wf_event_to_float e Hwf) as (f & Hf & Hwf').
  unfold to_dict. rewrite Hf. simpl. eexists _, f. split_and!; [done|done|].
  pose proof (rebuild_wf _ Hwf') as Hr. unfold rebuild, with_timestamp in Hr.
  simpl in Hr. unfold with_timestamp. rewrite <- Hr.
  unfold from_dict, dict_get.
  repeat (rewrite ?lookup_insert_opt, ?lookup_insert_eq;
          rewrite ?lookup_insert_ne by done; simpl).
  by destruct (ev_frame_ref e), (ev_prompt e), (ev_fingerprint e).
Qed.

(** C40: The control-plane round trip: an event that passed validation is serialised by
    [to_dict] without an exception, and [from_dict] rebuilds the same event from that
    dictionary, with its timestamp converted to a float. *)
Theorem control_plane_roundtrip e :
  wf_event e →
  ∃ d f, to_float (ev_timestamp e) = Ok f ∧ to_dict e = Ok d ∧
         from_dict (ODict d) = Ok (with_timestamp e f).
Proof. apply roundtrip_event. Qed.

Definition demo_event : FramePromptEvent :=
  {| ev_request_id := "r"; ev_session_id := "s"; ev_seq_no := 3; ev_timestamp := NInt 2;
     ev_frame_ref := Some "ref"; ev_prompt := Some "hi"; ev_final := true;
     ev_fingerprint := None |}.

Lemma control_plane_roundtrip_witness :
  ∃ d f, to_dict demo_event = Ok d ∧ from_dict (ODict d) = Ok (with_timestamp demo_event f).
Proof.
  destruct (control_plane_roundtrip demo_event) as (d & f & _ & Hd & Hf).
  - split_and!; try (by vm_compute); try (left; by vm_compute).
  - by exists d, f.
Defined.
