(* ===== verification/SessionState.v ===== *)
(** * Scheduler-owned event ordering

    Models [src/sglang_omni/models/moss_vl_realtime/session_state.py]: the
    per-request event queue [MossVLRealtimeSession] and the dictionary of
    queues [MossVLRealtimeSessionController].  A session object is owned by the
    controller, so operations on it go through the controller's dictionary. *)
From S2P Require Import Prelude PyNum Payload.
Local Open Scope Z_scope.

(** ** One request's queue *)

Record Session : Type := {
  s_request_id : string;
  s_session_id : string;
  s_next_seq_no : Z;
  s_last_timestamp : option pyfloat;
  s_final_received : bool;
  s_pending_events : list FramePromptEvent
}.

Definition new_session (request_id session_id : string) : Session :=
  {| s_request_id := request_id; s_session_id := session_id;
     s_next_seq_no := 0; s_last_timestamp := None;
     s_final_received := false; s_pending_events := [] |}.

Definition timestamp_backwards (last : option pyfloat) (ts : num) : bool :=
  match last with Some l => num_lt ts (NFloat l) | None => false end.

(** [MossVLRealtimeSession.accept]; the queue is extended before the cursor and
    the clock move, and [float(event.timestamp)] comes last but one. *)
Definition accept (ev : FramePromptEvent) : M Session unit :=
  s ← get;
  _ ← guard_raise (negb (String.eqb (ev_request_id ev) (s_request_id s)))
        (ValueError "request mismatch");
  _ ← guard_raise (negb (String.eqb (ev_session_id ev) (s_session_id s)))
        (ValueError "session mismatch");
  _ ← guard_raise (s_final_received s)
        (RuntimeError "request already received final event");
  _ ← guard_raise (negb (ev_seq_no ev =? s_next_seq_no s))
        (ValueError "out-of-order event");
  _ ← guard_raise (timestamp_backwards (s_last_timestamp s) (ev_timestamp ev))
        (ValueError "timestamp moved backwards");
  _ ← modify (fun s => {| s_request_id := s_request_id s; s_session_id := s_session_id s;
        s_next_seq_no := s_next_seq_no s + 1; s_last_timestamp := s_last_timestamp s;
        s_final_received := s_final_received s;
        s_pending_events := s_pending_events s ++ [ev] |});
  ts ← lift (to_float (ev_timestamp ev));
  modify (fun s => {| s_request_id := s_request_id s; s_session_id := s_session_id s;
    s_next_seq_no := s_next_seq_no s; s_last_timestamp := Some ts;
    s_final_received := ev_final ev; s_pending_events := s_pending_events s |}).

Definition set_pending (l : list FramePromptEvent) (s : Session) : Session :=
  {| s_request_id := s_request_id s; s_session_id := s_session_id s;
     s_next_seq_no := s_next_seq_no s; s_last_timestamp := s_last_timestamp s;
     s_final_received := s_final_received s; s_pending_events := l |}.

Definition drain (max_events : option Z) : M Session (list FramePromptEvent) :=
  _ ← guard_raise (match max_events with Some m => m <=? 0 | None => false end)
        (ValueError "max_events must be positive");
  s ← get;
  let count := match max_events with
               | Some m => Z.min (zlength (s_pending_events s)) m
               | None => zlength (s_pending_events s)
               end in
  _ ← put (set_pending (zdrop count (s_pending_events s)) s);
  mret (ztake count (s_pending_events s)).

(** ** The controller *)

Abbreviation Controller := (gmap string Session).

Definition open (request_id session_id : string) : M Controller Session :=
  sessions ← get;
  _ ← guard_raise (negb (bool_decide (sessions !! request_id = None)))
        (ValueError "request already has a realtime session");
  _ ← put (<[request_id := new_session request_id session_id]> sessions);
  mret (new_session request_id session_id).

(** Run an operation on the session object stored under [request_id]. *)
Definition on_session {A} (request_id : string) (m : M Session A) : M Controller A :=
  sessions ← get;
  match sessions !! request_id with
  | None => throw (KeyError "request has no realtime session")
  | Some s => let '(r, s') := m s in
              _ ← put (<[request_id := s']> sessions); lift r
  end.

(** An update is an already built event or its control-plane dictionary. *)
Inductive update_data : Type :=
| UEvent (e : FramePromptEvent)
| UData (d : pyobj).

Definition update_event (d : update_data) : result FramePromptEvent :=
  match d with UEvent e => Ok e | UData o => from_dict o end.

Definition ingest (request_id : string) (data : update_data)
  : M Controller FramePromptEvent :=
  on_session request_id
    (ev ← lift (update_event data); _ ← accept ev; mret ev).

Definition session_get (request_id : string) (c : Controller) : option Session :=
  c !! request_id.

Definition close (request_id : string) : M Controller bool :=
  c ← get; _ ← put (delete request_id c); mret (bool_decide (c !! request_id ≠ None)).

Definition contains (request_id : string) (c : Controller) : bool :=
  bool_decide (c !! request_id ≠ None).

(** ** Ordering invariant *)

(** Consecutive sequence numbers from [n]. *)
Fixpoint dense_from (n : Z) (l : list FramePromptEvent) : Prop :=
  match l with
  | [] => True
  | e :: l' => ev_seq_no e = n ∧ dense_from (n + 1) l'
  end.

(** Each event is no earlier than the clock left by its predecessor. *)
Definition clock_ok (l : list FramePromptEvent) : Prop :=
  ∀ i a b f, l !! i = Some a → l !! S i = Some b →
    to_float (ev_timestamp a) = Ok f → num_lt (ev_timestamp b) (NFloat f) = false.

Lemma dense_from_app n l k :
  dense_from n (l ++ k) ↔ dense_from n l ∧ dense_from (n + zlength l) k.
Proof.
  revert n. induction l as [|e l IH]; intros n; simpl.
  - rewrite zlength_nil, Z.add_0_r. naive_solver.
  - rewrite IH, zlength_cons. replace (n + (1 + zlength l)) with (n + 1 + zlength l) by lia.
    naive_solver.
Qed.

Lemma clock_ok_snoc l ev last_ts :
  clock_ok l →
  last_ts = match last l with
            | Some e => match to_float (ev_timestamp e) with
                        | Ok f => Some f | Raise _ => None end
            | None => None end →
  timestamp_backwards last_ts (ev_timestamp ev) = false →
  clock_ok (l ++ [ev]).
Proof.
  intros Hk Hl Hb i a b f Ha Hb' Hf.
  apply lookup_app_Some in Hb' as [Hb'|[Hge Hb']].
  - assert (S i < length l)%nat by by eapply lookup_lt_Some.
    rewrite lookup_app_l in Ha by lia. eauto.
  - apply list_lookup_singleton_Some in Hb' as [Hi ->].
    rewrite lookup_app_l in Ha by lia.
    assert (last l = Some a) as Hlast.
    { rewrite last_lookup. by replace (pred (length l)) with i by lia. }
    rewrite Hlast, Hf in Hl. subst. done.
Qed.

(** The events a session accepted so far, in order, split into the drained
    prefix and the pending suffix. *)
Record ordered (history : list FramePromptEvent) (s : Session) : Prop := {
  ord_split : ∃ drained, history = drained ++ s_pending_events s;
  ord_next : s_next_seq_no s = zlength history;
  ord_dense : dense_from 0 history;
  ord_final : s_final_received s = match last history with
                                   | Some e => ev_final e | None => false end;
  ord_once : ∀ i e, history !! i = Some e → ev_final e = true →
             i = pred (length history);
  ord_clock : s_last_timestamp s = match last history with
              | Some e => match to_float (ev_timestamp e) with
                          | Ok f => Some f | Raise _ => None end
              | None => None end;
  ord_steps : clock_ok history;
  ord_ids : ∀ e, e ∈ history →
            ev_request_id e = s_request_id s ∧ ev_session_id e = s_session_id s
}.

Lemma ordered_new rid sid : ordered [] (new_session rid sid).
Proof.
  constructor; simpl; try done; [by exists []|].
  intros e He. by apply elem_of_nil in He.
Qed.

Lemma accept_spec ev s s' u :
  accept ev s = (Ok u, s') →
  ∃ ts, to_float (ev_timestamp ev) = Ok ts ∧
  ev_request_id ev = s_request_id s ∧ ev_session_id ev = s_session_id s ∧
  s_final_received s = false ∧ ev_seq_no ev = s_next_seq_no s ∧
  timestamp_backwards (s_last_timestamp s) (ev_timestamp ev) = false ∧
  s' = {| s_request_id := s_request_id s; s_session_id := s_session_id s;
          s_next_seq_no := s_next_seq_no s + 1; s_last_timestamp := Some ts;
          s_final_received := ev_final ev;
          s_pending_events := s_pending_events s ++ [ev] |}.
Proof.
  unfold accept. intros H. inv_ok.
  repeat match goal with H : String.eqb _ _ = true |- _ => apply String.eqb_eq in H end.
  eexists. split_and!; try done. all: congruence.
Qed.

(** Rejections before the queue is touched leave the session as it was. *)
Lemma accept_reject ev s s' e :
  wf_event ev → accept ev s = (Raise e, s') → s' = s.
Proof.
  intros Hwf. destruct (wf_event_to_float _ Hwf) as (f & Hf & _).
  unfold accept, guard_raise, get, lift, raise_if, modify, mbind, M_bind. simpl.
  repeat (case_match; simplify_eq; try done); by intros [= _ ->].
Qed.

Lemma ordered_accept history ev s s' u :
  ordered history s → accept ev s = (Ok u, s') → ordered (history ++ [ev]) s'.
Proof.
  intros [(d & ->) Hn Hd Hf Ho Hc Hk Hi] (ts & Hts & Hr & Hs & Hnf & Hseq & Hb & ->)%accept_spec.
  constructor; simpl.
  - exists d. by rewrite app_assoc.
  - by rewrite zlength_snoc, Hn.
  - apply dense_from_app. simpl. split_and!; [done| |done]. by rewrite Hseq, Hn.
  - by rewrite last_snoc.
  - intros i e Hl He. rewrite length_app. simpl.
    apply lookup_app_Some in Hl as [Hl|[Hge Hl]].
    + exfalso. pose proof (Ho _ _ Hl He) as ->.
      rewrite <- last_lookup in Hl. rewrite Hl in Hf. congruence.
    + apply list_lookup_singleton_Some in Hl as [? _]. lia.
  - by rewrite last_snoc, Hts.
  - by apply clock_ok_snoc with (s_last_timestamp s).
  - intros e [He|He%list_elem_of_singleton]%elem_of_app; [by apply Hi|]. by subst.
Qed.

Lemma ordered_drain history m s s' l :
  ordered history s → drain m s = (Ok l, s') →
  ordered history s' ∧ s_pending_events s = l ++ s_pending_events s' ∧
  (m = None → s_pending_events s' = []).
Proof.
  intros [(d & ->) Hn Hd Hf Ho Hc Hk Hi] H. unfold drain in H. inv_ok.
  set (c := match m with Some _ => _ | None => _ end).
  split_and!.
  - constructor; simpl; try done.
    exists (d ++ ztake c (s_pending_events s)). by rewrite <- app_assoc, ztake_zdrop.
  - by rewrite ztake_zdrop.
  - intros ->. unfold c, zdrop, zlength. rewrite Nat2Z.id. apply drop_all.
Qed.

(** ** Runs of the controller *)

(** One controller operation as the scheduler issues it, with the accepted and
    the delivered events of each live request kept as a ghost log. *)
Abbreviation Log := (gmap string (list FramePromptEvent * list FramePromptEvent)).

Inductive ctl_step : Controller * Log → Controller * Log → Prop :=
| step_open rid sid c g s c' :
    open rid sid c = (Ok s, c') →
    ctl_step (c, g) (c', <[rid := ([], [])]> g)
| step_ingest rid d c g ev c' acc del :
    ingest rid d c = (Ok ev, c') → g !! rid = Some (acc, del) →
    ctl_step (c, g) (c', <[rid := (acc ++ [ev], del)]> g)
| step_reject rid d c g e c' :
    ingest rid d c = (Raise e, c') →
    (∀ ev, update_event d = Ok ev → wf_event ev) →
    ctl_step (c, g) (c', g)
| step_drain rid m c g l c' acc del :
    on_session rid (drain m) c = (Ok l, c') → g !! rid = Some (acc, del) →
    ctl_step (c, g) (c', <[rid := (acc, del ++ l)]> g)
| step_close rid c g b c' :
    close rid c = (Ok b, c') →
    ctl_step (c, g) (c', delete rid g).

Definition ctl_run := rtc ctl_step (∅, ∅).

(** Every live request's log is exactly its session's history. *)
Definition logged (c : Controller) (g : Log) : Prop :=
  ∀ rid s, c !! rid = Some s →
    ∃ acc del, g !! rid = Some (acc, del) ∧ ordered acc s ∧
               acc = del ++ s_pending_events s.

Lemma on_session_Ok {A} rid (m : M Session A) c a c' :
  on_session rid m c = (Ok a, c') ↔
  ∃ s s', c !! rid = Some s ∧ m s = (Ok a, s') ∧ c' = <[rid := s']> c.
Proof.
  unfold on_session, get, mbind, M_bind. simpl.
  destruct (c !! rid) as [s|] eqn:E; simpl; [|naive_solver].
  destruct (m s) as [r s0] eqn:Em; unfold put, lift; simpl. split.
  - intros [= -> <-]. eauto.
  - intros (? & ? & [= <-] & Hm & ->). by rewrite Em in Hm; simplify_eq.
Qed.

Lemma on_session_Raise {A} rid (m : M Session A) c e c' :
  on_session rid m c = (Raise e, c') →
  (c !! rid = None ∧ c' = c) ∨
  ∃ s s', c !! rid = Some s ∧ m s = (Raise e, s') ∧ c' = <[rid := s']> c.
Proof.
  unfold on_session, get, mbind, M_bind. simpl.
  destruct (c !! rid) as [s|] eqn:E; simpl;
    [|intros [= _ <-]; by left].
  destruct (m s) as [r s0] eqn:Em; unfold put, lift; simpl.
  intros [= -> <-]. eauto 10.
Qed.

Lemma logged_insert c g rid s acc del :
  logged c g → ordered acc s → acc = del ++ s_pending_events s →
  logged (<[rid := s]> c) (<[rid := (acc, del)]> g).
Proof.
  intros Hl Ho Ha r s0 Hs0.
  destruct (decide (rid = r)) as [->|Hne]; simplify_map_eq; [by eauto|].
  destruct (Hl _ _ Hs0) as (a & d & Hg & ?). exists a, d. by simplify_map_eq.
Qed.

Lemma ingest_reject_id rid d c e c' :
  (∀ ev, update_event d = Ok ev → wf_event ev) →
  ingest rid d c = (Raise e, c') → c' = c.
Proof.
  intros Hwf [[_ ->]|(s & s' & Hs & Hm & ->)]%on_session_Raise; [done|].
  assert (s' = s) as ->; [|by rewrite insert_id].
  unfold lift, mbind, M_bind in Hm. simpl in Hm.
  destruct (update_event d) as [ev|e0] eqn:Eu; [|by injection Hm].
  destruct (accept ev s) as [[u|e1] s1] eqn:Ea; [done|].
  injection Hm as _ <-. by eapply accept_reject; eauto.
Qed.

Lemma ctl_step_logged x y : ctl_step x y → logged x.1 x.2 → logged y.1 y.2.
Proof.
  intros Hstep Hl. destruct Hstep as
    [rid sid c g s c' H | rid d c g ev c' acc del H Hg | rid d c g e c' H Hwf
    | rid m c g l c' acc del H Hg | rid c g b c' H]; simpl in *.
  - unfold open in H. inv_ok. apply logged_insert; [done|apply ordered_new|done].
  - apply on_session_Ok in H as (s & s' & Hs & Hm & ->).
    destruct (Hl _ _ Hs) as (a & dl & Hg' & Ho & Ha). simplify_eq.
    inv_ok. match goal with H : accept _ _ = _ |- _ => rename H into Hacc end.
    pose proof (accept_spec _ _ _ _ Hacc) as (ts & _ & _ & _ & _ & _ & _ & Hs').
    apply logged_insert; [done|by eapply ordered_accept|].
    rewrite Hs'. simpl. by rewrite app_assoc.
  - by rewrite (ingest_reject_id _ _ _ _ _ Hwf H).
  - apply on_session_Ok in H as (s & s' & Hs & Hm & ->).
    destruct (Hl _ _ Hs) as (a & dl & Hg' & Ho & Ha). simplify_eq.
    destruct (ordered_drain _ _ _ _ _ Ho Hm) as (Ho' & Hp & _).
    apply logged_insert; [done|done|]. by rewrite Hp, app_assoc.
  - unfold close in H. inv_ok. intros r s Hs.
    apply lookup_delete_Some in Hs as [Hne Hs].
    destruct (Hl _ _ Hs) as (a & d & Hg & ?). exists a, d.
    by rewrite lookup_delete_ne.
Qed.

(** C16: On every run of the session controller the events accepted for a live request are
    numbered 0,1,2,... without gaps, an accepted event is delivered at most once and in order,
    what was not delivered is still pending, only the last one may be final, and no event is
    earlier than the session clock its predecessor left. *)
Theorem controller_exactly_once c g rid s :
  ctl_run (c, g) → c !! rid = Some s →
  ∃ acc del, g !! rid = Some (acc, del) ∧ acc = del ++ s_pending_events s ∧
    dense_from 0 acc ∧ s_next_seq_no s = zlength acc ∧ clock_ok acc ∧
    (∀ i e, acc !! i = Some e → ev_final e = true → i = pred (length acc)) ∧
    (∀ e, e ∈ acc → ev_request_id e = s_request_id s).
Proof.
  intros Hrun Hs.
  assert (logged c g) as Hl.
  { change (logged (c, g).1 (c, g).2). revert Hrun.
    apply (rtc_ind_r (fun x => logged x.1 x.2)); [|by eauto using ctl_step_logged].
    intros ? ? Hx. simpl in Hx. by rewrite lookup_empty in Hx. }
  destruct (Hl _ _ Hs) as (acc & del & Hg & [? Hn Hd ? Ho ? Hk Hi] & Ha).
  exists acc, del. split_and!; try done. intros e He. by apply Hi.
Qed.

(** ** Witness *)

Definition demo_update (n : Z) (prompt : string) : update_data :=
  UEvent {| ev_request_id := "r"; ev_session_id := "s"; ev_seq_no := n;
            ev_timestamp := NInt n; ev_frame_ref := None; ev_prompt := Some prompt;
            ev_final := false; ev_fingerprint := None |}.

Definition demo_events : list FramePromptEvent :=
  match update_event (demo_update 0 "a"), update_event (demo_update 1 "b") with
  | Ok a, Ok b => [a; b]
  | _, _ => []
  end.

Definition demo_controller : Controller :=
  ((_ ← open "r" "s"; _ ← ingest "r" (demo_update 0 "a"); _ ← ingest "r" (demo_update 1 "b");
    on_session "r" (drain (Some 1))) ∅).2.

(** One of two accepted events was delivered, the other is pending. *)
Lemma demo_ctl_run : ctl_run (demo_controller, <["r" := (demo_events, take 1 demo_events)]> ∅).
Proof.
  unfold ctl_run. eapply rtc_l; [eapply (step_open "r" "s"); vm_compute; reflexivity|].
  eapply rtc_l; [eapply (step_ingest "r" (demo_update 0 "a")); vm_compute; reflexivity|].
  eapply rtc_l; [eapply (step_ingest "r" (demo_update 1 "b")); vm_compute; reflexivity|].
  eapply rtc_l; [eapply (step_drain "r" (Some 1)); vm_compute; reflexivity|].
  vm_compute. apply rtc_refl.
Qed.

Lemma controller_exactly_once_witness :
  ∃ s, demo_controller !! "r" = Some s ∧ s_next_seq_no s = 2 ∧
    ∃ acc del, acc = del ++ s_pending_events s ∧ dense_from 0 acc ∧ length acc = 2%nat.
Proof.
  destruct (demo_controller !! "r") as [s|] eqn:Hs; [|vm_compute in Hs; discriminate Hs].
  destruct (controller_exactly_once _ _ "r" s demo_ctl_run Hs)
    as (acc & del & Hg & Ha & Hd & Hn & _).
  exists s. injection Hg as <- <-. split_and!; [done|rewrite Hn; reflexivity|].
  eexists _, _. split_and!; [exact Ha|exact Hd|reflexivity].
Defined.
