(* ===== verification/Accounting.v ===== *)
(** * Logical-position accounting

    Models [src/sglang_omni/models/moss_vl_realtime/accounting.py]: the opt-in
    per-request counters that a settlement reads. *)
From S2P Require Import Prelude PyNum.
Local Open Scope Z_scope.

Definition ACCOUNTING_PARAM : string := "realtime_accounting_v2".
Definition ACCOUNTING_EVENT : string := "realtime.accounting".
Definition FINALIZE_ACTION : string := "realtime_finalize_usage".

(** An exception with its [__cause__] chain, each object with its identity. *)
Record exn_link : Type := { x_id : nat; x_exn : pyexn }.

(** [error_code]: walk the chain until a classified exception or a repetition.
    The chain lists the causes from the outermost exception on. *)
Fixpoint error_code_from (seen : list nat) (chain : list exn_link) : string :=
  match chain with
  | [] => "response_failed"
  | l :: chain' =>
      if bool_decide (x_id l ∈ seen) then "response_failed"
      else match x_exn l with
           | ContextExhaustedError _ => "context_exhausted"
           | TimeoutError _ => "session_timeout"
           | _ => error_code_from (x_id l :: seen) chain'
           end
  end.
Definition error_code (chain : list exn_link) : string := error_code_from [] chain.

Record RealtimeAccounting : Type := {
  a_session_id : string;
  a_vision : Z;
  a_text_input : Z;
  a_text_output : Z;
  a_step : Z;
  a_output_step : Z;
  a_frozen : bool;
  a_retired_at : option pyfloat;
  a_failure_code : option string;
  a_failure_seq : option Z
}.

Definition new_accounting (session_id : string) : RealtimeAccounting :=
  {| a_session_id := session_id; a_vision := 0; a_text_input := 0;
     a_text_output := 0; a_step := 0; a_output_step := 0; a_frozen := false;
     a_retired_at := None; a_failure_code := None; a_failure_seq := None |}.

Definition set_counts (vision text_input text_output step output_step : Z)
    (a : RealtimeAccounting) : RealtimeAccounting :=
  {| a_session_id := a_session_id a; a_vision := vision; a_text_input := text_input;
     a_text_output := text_output; a_step := step; a_output_step := output_step;
     a_frozen := a_frozen a; a_retired_at := a_retired_at a;
     a_failure_code := a_failure_code a; a_failure_seq := a_failure_seq a |}.

Definition commit (vision text_input : Z) : M RealtimeAccounting unit :=
  a ← get;
  _ ← guard_raise (a_frozen a)
        (RuntimeError "cannot commit positions after accounting finalization");
  _ ← guard_raise ((vision <? 0) || (text_input <? 0))
        (RuntimeError "negative committed position increment");
  put (set_counts (a_vision a + vision) (a_text_input a + text_input)
         (a_text_output a) (a_step a + 1) (a_output_step a) a).

Definition sampled : M RealtimeAccounting unit :=
  a ← get;
  _ ← guard_raise (a_frozen a)
        (RuntimeError "cannot record output after accounting finalization");
  _ ← guard_raise (a_step a <=? 0)
        (RuntimeError "sampled output has no committed model step");
  if negb (a_output_step a =? a_step a)
  then put (set_counts (a_vision a) (a_text_input a) (a_text_output a + 1)
              (a_step a) (a_step a) a)
  else mret tt.

Record Usage : Type := {
  u_vision_tokens : Z;
  u_text_input_tokens : Z;
  u_text_output_tokens : Z;
  u_text_tokens : Z;
  u_total_tokens : Z
}.

Definition snapshot (a : RealtimeAccounting) : Usage :=
  let text := a_text_input a + a_text_output a in
  {| u_vision_tokens := a_vision a; u_text_input_tokens := a_text_input a;
     u_text_output_tokens := a_text_output a; u_text_tokens := text;
     u_total_tokens := a_vision a + text |}.

(** [now] is [time.monotonic()] at the call. *)
Definition freeze (now : pyfloat) : M RealtimeAccounting Usage :=
  a ← get;
  let a' := {| a_session_id := a_session_id a; a_vision := a_vision a;
       a_text_input := a_text_input a; a_text_output := a_text_output a;
       a_step := a_step a; a_output_step := a_output_step a; a_frozen := true;
       a_retired_at := match a_retired_at a with Some t => Some t | None => Some now end;
       a_failure_code := a_failure_code a; a_failure_seq := a_failure_seq a |} in
  _ ← put a';
  mret (snapshot a').

(** ** Operations in any order *)

Inductive acct_op : Type :=
| OpCommit (vision text_input : Z)
| OpSampled
| OpFreeze (now : pyfloat).

Definition acct_run_op (o : acct_op) : M RealtimeAccounting unit :=
  match o with
  | OpCommit v t => commit v t
  | OpSampled => sampled
  | OpFreeze now => _ ← freeze now; mret tt
  end.

(** A caller that keeps going after an exception, as the scheduler does. *)
Definition acct_exec (ops : list acct_op) (a : RealtimeAccounting) : RealtimeAccounting :=
  fold_left (fun a o => (acct_run_op o a).2) ops a.

Record acct_wf (a : RealtimeAccounting) : Prop := {
  wf_vision : 0 ≤ a_vision a;
  wf_input : 0 ≤ a_text_input a;
  wf_steps : 0 ≤ a_output_step a ≤ a_step a;
  wf_output : 0 ≤ a_text_output a ≤ a_output_step a;
  wf_retired : a_frozen a = true ↔ a_retired_at a ≠ None
}.

Lemma acct_wf_new sid : acct_wf (new_accounting sid).
Proof. constructor; simpl; try lia. naive_solver. Qed.

Lemma commit_cases v t a :
  commit v t a =
  if a_frozen a then
    (Raise (RuntimeError "cannot commit positions after accounting finalization"), a)
  else if (v <? 0) || (t <? 0)
  then (Raise (RuntimeError "negative committed position increment"), a)
  else (Ok tt, set_counts (a_vision a + v) (a_text_input a + t) (a_text_output a)
                 (a_step a + 1) (a_output_step a) a).
Proof. unfold commit. mrun. by destruct (a_frozen a), ((v <? 0) || (t <? 0)). Qed.

Lemma sampled_cases a :
  sampled a =
  if a_frozen a then
    (Raise (RuntimeError "cannot record output after accounting finalization"), a)
  else if a_step a <=? 0
  then (Raise (RuntimeError "sampled output has no committed model step"), a)
  else if a_output_step a =? a_step a then (Ok tt, a)
  else (Ok tt, set_counts (a_vision a) (a_text_input a) (a_text_output a + 1)
                 (a_step a) (a_step a) a).
Proof.
  unfold sampled. mrun. destruct (a_frozen a), (a_step a <=? 0); try done.
  by destruct (a_output_step a =? a_step a).
Qed.

Lemma acct_op_wf o a : acct_wf a → acct_wf (acct_run_op o a).2.
Proof.
  intros Hwf. pose proof Hwf as [Hv Hi Hs Ho Hr]. destruct o as [v t| |now]; simpl.
  - rewrite commit_cases. destruct (a_frozen a) eqn:Ef; [done|].
    destruct (_ || _) eqn:E; [done|]. reflect_bool.
    constructor; simpl; try lia; try done. by rewrite Ef.
  - rewrite sampled_cases. destruct (a_frozen a) eqn:Ef; [done|].
    destruct (a_step a <=? 0) eqn:E; [done|].
    destruct (a_output_step a =? a_step a) eqn:E2; [done|]. reflect_bool.
    constructor; simpl; try lia; try done. by rewrite Ef.
  - unfold freeze. mrun. constructor; simpl; try done.
    by destruct (a_retired_at a).
Qed.

Lemma acct_exec_wf ops a : acct_wf a → acct_wf (acct_exec ops a).
Proof. revert a. induction ops; simpl; auto using acct_op_wf. Qed.

Lemma frozen_op o a :
  a_frozen a = true →
  a_frozen (acct_run_op o a).2 = true ∧
  snapshot (acct_run_op o a).2 = snapshot a ∧
  a_step (acct_run_op o a).2 = a_step a.
Proof.
  intros H. destruct o; simpl; rewrite ?commit_cases, ?sampled_cases, ?H; done.
Qed.

Lemma frozen_exec ops a :
  a_frozen a = true →
  a_frozen (acct_exec ops a) = true ∧
  snapshot (acct_exec ops a) = snapshot a ∧ a_step (acct_exec ops a) = a_step a.
Proof.
  revert a. induction ops as [|o ops IH]; intros a H; simpl; [done|].
  destruct (frozen_op o a H) as (H1 & H2 & H3).
  destruct (IH _ H1) as (? & -> & ->). done.
Qed.

(** However the counters of a fresh record are driven, at most one output token is counted
    per committed model step, all counters stay non-negative and the reported total is the sum
    of its parts; and once the record is frozen its usage and watermark never change again. *)
Theorem accounting_settles sid before after now :
  let a := acct_exec before (new_accounting sid) in
  let final := acct_exec after (freeze now a).2 in
  0 ≤ a_text_output a ≤ a_step a ∧ 0 ≤ a_vision a ∧ 0 ≤ a_text_input a ∧
  u_total_tokens (snapshot a) =
    u_vision_tokens (snapshot a) + u_text_input_tokens (snapshot a)
    + u_text_output_tokens (snapshot a) ∧
  (freeze now a).1 = Ok (snapshot a) ∧
  snapshot final = snapshot a ∧ a_step final = a_step a ∧
  a_frozen final = true.
Proof.
  intros a final.
  destruct (acct_exec_wf before _ (acct_wf_new sid)) as [Hv Hi Hs Ho _].
  fold a in Hv, Hi, Hs, Ho.
  destruct (frozen_exec after (freeze now a).2) as (Hf & Hsn & Hst); [done|].
  split_and!; try lia; try done. simpl. lia.
Qed.
