(* ===== verification/Visibility.v ===== *)
(** * Incremental frame visibility

    Models [src/sglang_omni/models/moss_vl_realtime/visibility.py]: the
    cumulative number of visible frames for each text token, computed for one
    segment and appended to the history.  The arithmetic is [torch.int32]. *)
From S2P Require Import Prelude PyNum Payload.
Local Open Scope Z_scope.

(** A tensor as far as the shape checks distinguish it. *)
Inductive tensor : Type :=
| T1 (values : list Z)
| T2 (rows : list (list Z))
| TN
| NotTensor.

Definition wrap32 (z : Z) : Z := (z + 2 ^ 31) mod 2 ^ 32 - 2 ^ 31.

(** [(ids == image).to(int32).cumsum(0) + initial]. *)
Fixpoint visible_counts (image : Z) (ids : list Z) (count : Z) : list Z :=
  match ids with
  | [] => []
  | x :: ids' =>
      let count' := count + (if x =? image then 1 else 0) in
      wrap32 count' :: visible_counts image ids' count'
  end.

Definition flatten_ids (input_ids : tensor) : result (list Z) :=
  match input_ids with
  | NotTensor => Raise (TypeError "input_ids must be a torch.Tensor")
  | T2 [row] => Ok row
  | T2 _ => Raise (ValueError "realtime visibility only supports batch size 1")
  | T1 ids => Ok ids
  | TN => Raise (ValueError "input_ids must be 1-D or have shape (1, sequence_length)")
  end.

Definition compute_visible_frame_counts (input_ids : tensor) (image_token_id : pyval)
    (initial_visible_frames : pyval) : result (list Z) :=
  ids ← flatten_ids input_ids;
  image ← match image_token_id with
          | VNum (NInt z) => Ok z
          | _ => Raise (TypeError "image_token_id must be an integer")
          end;
  initial ← match initial_visible_frames with
            | VNum (NInt z) =>
                if z <? 0
                then Raise (ValueError "initial_visible_frames must be a non-negative integer")
                else Ok z
            | _ => Raise (ValueError "initial_visible_frames must be a non-negative integer")
            end;
  Ok (visible_counts image ids initial).

Definition append_visible_frame_counts (previous_counts : option tensor)
    (new_input_ids : tensor) (image_token_id : pyval) : result (list Z) :=
  prev ← match previous_counts with
         | None => Ok []
         | Some (T1 l) => Ok l
         | Some NotTensor => Raise (TypeError "previous_counts must be a torch.Tensor")
         | Some _ => Raise (ValueError "previous_counts must be one-dimensional")
         end;
  let initial := default 0 (last prev) in
  new ← compute_visible_frame_counts new_input_ids image_token_id (VNum (NInt initial));
  Ok (prev ++ new).

(** ** Facts *)

Definition count_images (image : Z) (ids : list Z) : Z :=
  zlength (filter (fun x => x = image) ids).

Lemma count_images_nil image : count_images image [] = 0.
Proof. done. Qed.

Lemma count_images_cons image x ids :
  count_images image (x :: ids) = (if x =? image then 1 else 0) + count_images image ids.
Proof.
  unfold count_images. destruct (Z.eqb_spec x image) as [->|Hne].
  - by rewrite filter_cons_True, zlength_cons.
  - by rewrite filter_cons_False.
Qed.

Lemma count_images_app image l k :
  count_images image (l ++ k) = count_images image l + count_images image k.
Proof. unfold count_images. by rewrite filter_app, zlength_app. Qed.

Lemma count_images_bound image ids : 0 ≤ count_images image ids ≤ zlength ids.
Proof.
  unfold count_images, zlength. pose proof (length_filter (fun x => x = image) ids). lia.
Qed.

Lemma visible_counts_length image ids c :
  length (visible_counts image ids c) = length ids.
Proof. revert c. induction ids; simpl; auto. Qed.

Lemma visible_counts_app image l k c :
  visible_counts image (l ++ k) c =
  visible_counts image l c ++ visible_counts image k (c + count_images image l).
Proof.
  revert c. induction l as [|x l IH]; intros c; simpl.
  - by rewrite count_images_nil, Z.add_0_r.
  - rewrite IH, count_images_cons. by rewrite Z.add_assoc.
Qed.

Lemma wrap32_small z : - 2 ^ 31 ≤ z < 2 ^ 31 → wrap32 z = z.
Proof. intros H. unfold wrap32. rewrite Z.mod_small; lia. Qed.

Lemma visible_counts_last image ids c :
  ids ≠ [] → last (visible_counts image ids c) = Some (wrap32 (c + count_images image ids)).
Proof.
  induction ids as [|x ids _] using rev_ind; [done|]. intros _.
  rewrite visible_counts_app, count_images_app. simpl.
  rewrite last_snoc, count_images_cons, count_images_nil. do 2 f_equal. lia.
Qed.

(** The value at each token is the number of image placeholders up to it. *)
Lemma visible_counts_lookup image ids c i x :
  visible_counts image ids c !! i = Some x →
  x = wrap32 (c + count_images image (take (S i) ids)).
Proof.
  revert c i. induction ids as [|y ids IH]; intros c i Hi; [done|].
  rewrite firstn_cons, count_images_cons. destruct i as [|i]; simpl in Hi.
  - injection Hi as <-. simpl. rewrite count_images_nil. f_equal. lia.
  - apply IH in Hi as ->. f_equal. lia.
Qed.

(** Appending the segments of a session one by one. *)
Fixpoint append_segments (image : pyval) (prev : option tensor) (segments : list (list Z))
  : result (list Z) :=
  match segments with
  | [] => Ok (match prev with Some (T1 l) => l | _ => [] end)
  | seg :: rest =>
      counts ← append_visible_frame_counts prev (T1 seg) image;
      append_segments image (Some (T1 counts)) rest
  end.

Lemma append_counts_prefix image ids seg :
  count_images image ids < 2 ^ 31 →
  append_visible_frame_counts (Some (T1 (visible_counts image ids 0))) (T1 seg)
    (VNum (NInt image)) = Ok (visible_counts image (ids ++ seg) 0).
Proof.
  intros Hb. pose proof (count_images_bound image ids).
  unfold append_visible_frame_counts, compute_visible_frame_counts. simpl.
  assert (default 0 (last (visible_counts image ids 0)) = count_images image ids) as ->.
  { destruct ids as [|x ids]; [done|].
    rewrite visible_counts_last by done. simpl. apply wrap32_small. lia. }
  destruct (Z.ltb_spec (count_images image ids) 0); [lia|]. simpl.
  by rewrite visible_counts_app.
Qed.

Lemma append_segments_prefix image ids segments :
  count_images image (ids ++ concat segments) < 2 ^ 31 →
  append_segments (VNum (NInt image)) (Some (T1 (visible_counts image ids 0))) segments
  = Ok (visible_counts image (ids ++ concat segments) 0).
Proof.
  revert ids. induction segments as [|seg rest IH]; intros ids Hb.
  - simpl. by rewrite app_nil_r.
  - cbn [append_segments concat]. simpl in Hb.
    rewrite append_counts_prefix.
    + simpl. rewrite IH; [by rewrite <- app_assoc|by rewrite <- app_assoc].
    + rewrite count_images_app in Hb.
      pose proof (count_images_bound image (seg ++ concat rest)). lia.
Qed.

(** C39: Incremental visibility equals the offline prefix-causal count: however the token stream
    is cut into segments, the appended history gives each token the number of image placeholders
    at or before it in the whole stream. *)
Theorem visibility_incremental image segments :
  count_images image (concat segments) < 2 ^ 31 →
  ∃ counts,
    append_segments (VNum (NInt image)) None segments = Ok counts ∧
    length counts = length (concat segments) ∧
    ∀ i c, counts !! i = Some c →
      c = count_images image (take (S i) (concat segments)).
Proof.
  intros Hb. exists (visible_counts image (concat segments) 0). split_and!.
  - destruct segments as [|seg rest]; [done|].
    cbn [append_segments]. simpl.
    replace (visible_counts image seg 0) with (visible_counts image seg 0 ++ [])
      by apply app_nil_r.
    rewrite app_nil_r. by apply append_segments_prefix.
  - apply visible_counts_length.
  - intros i c Hi. rewrite (visible_counts_lookup _ _ _ _ _ Hi). simpl.
    pose proof (count_images_bound image (take (S i) (concat segments))).
    apply wrap32_small. split; [lia|].
    eapply Z.le_lt_trans; [|exact Hb].
    rewrite <- (take_drop (S i) (concat segments)) at 2.
    rewrite count_images_app.
    pose proof (count_images_bound image (drop (S i) (concat segments))). lia.
Qed.

Lemma visibility_incremental_witness :
  ∃ counts, append_segments (VNum (NInt 9)) None [[1; 9; 2]; [3]; [9; 9]] = Ok counts ∧
    length counts = 6%nat ∧
    ∀ i c, counts !! i = Some c →
      c = count_images 9 (take (S i) (concat [[1; 9; 2]; [3]; [9; 9]])).
Proof.
  apply (visibility_incremental 9 [[1; 9; 2]; [3]; [9; 9]]). vm_compute. reflexivity.
Defined.
