(* ===== verification/KVLayout.v ===== *)
(** * Request-to-token layout of one live request

    Models [src/sglang_omni/models/moss_vl_realtime/kv_layout.py]: a page-table
    row holds the encoder (vision) slots first and the decoder (text) slots
    after them.  A table is the list of its rows; slot ids are the values stored
    in the cells, 0 is the empty cell. *)
From S2P Require Import Prelude.
Local Open Scope Z_scope.

Abbreviation Row := (list Z).
Abbreviation Table := (list (list Z)).

Definition slot_tuple (slots : list Z) : result (list Z) :=
  _ ← raise_if (existsb (fun v => v <=? 0) slots)
        (ValueError "must contain positive KV slot IDs");
  _ ← raise_if (negb (bool_decide (NoDup slots)))
        (ValueError "contains duplicate KV slot IDs");
  Ok slots.

Record KVLayout : Type := { encoder_slots : list Z; decoder_slots : list Z }.

#[global] Instance KVLayout_eq_dec : EqDecision KVLayout.
Proof. solve_decision. Defined.

(** The constructor with its [__post_init__]. *)
Definition make_layout (enc dec : list Z) : result KVLayout :=
  e ← slot_tuple enc;
  d ← slot_tuple dec;
  _ ← raise_if (existsb (fun x => bool_decide (x ∈ d)) e)
        (ValueError "encoder and decoder slots must not overlap");
  Ok {| encoder_slots := e; decoder_slots := d |}.

Definition encoder_length (l : KVLayout) : Z := zlength (encoder_slots l).
Definition decoder_length (l : KVLayout) : Z := zlength (decoder_slots l).
Definition total_length (l : KVLayout) : Z := encoder_length l + decoder_length l.

Definition append_encoder (slots : list Z) (l : KVLayout) : result KVLayout :=
  new_slots ← slot_tuple slots;
  make_layout (encoder_slots l ++ new_slots) (decoder_slots l).

Definition append_decoder (slots : list Z) (l : KVLayout) : result KVLayout :=
  new_slots ← slot_tuple slots;
  make_layout (encoder_slots l) (decoder_slots l ++ new_slots).

Definition as_tuple (l : KVLayout) : list Z := encoder_slots l ++ decoder_slots l.

(** Width of the table, the second dimension of the tensor. *)
Definition row_width (t : Table) : Z :=
  match t with [] => 0 | r :: _ => zlength r end.

Definition validate_row_arguments (t : Table) (req_pool_index total : Z) : result unit :=
  _ ← raise_if ((req_pool_index <? 0) || (zlength t <=? req_pool_index))
        (IndexError "req_pool_index is outside req_to_token");
  raise_if ((total <? 0) || (row_width t <? total))
        (ValueError "KV layout does not fit in req_to_token row").

Definition row_at (t : Table) (i : Z) : Row := default [] (t !! Z.to_nat i).

Definition read_req_to_token_layout (t : Table) (req_pool_index enc_len dec_len : Z)
  : result KVLayout :=
  _ ← validate_row_arguments t req_pool_index (enc_len + dec_len);
  _ ← raise_if ((enc_len <? 0) || (dec_len <? 0))
        (ValueError "committed KV lengths must be non-negative");
  let row := row_at t req_pool_index in
  make_layout (ztake enc_len row) (zslice enc_len (enc_len + dec_len) row).

(** [row[:n].copy_(values)] and optionally [row[n:].zero_()].  The table is int32; slot numbers are
    those of a KV pool and stay below [2^31]. *)
Definition write_row (values : list Z) (clear_tail : bool) (row : Row) : Row :=
  let tail := drop (length values) row in
  values ++ (if clear_tail then map (fun _ => 0) tail else tail).

Definition write_req_to_token_layout (req_pool_index : Z) (layout : KVLayout)
    (clear_tail : bool) : M Table unit :=
  t ← get;
  _ ← lift (validate_row_arguments t req_pool_index (total_length layout));
  put (<[Z.to_nat req_pool_index :=
          write_row (as_tuple layout) clear_tail (row_at t req_pool_index)]> t).

Definition insert_encoder_slots (req_pool_index enc_len dec_len : Z) (new_slots : list Z)
  : M Table KVLayout :=
  t ← get;
  layout ← lift (l ← read_req_to_token_layout t req_pool_index enc_len dec_len;
                 append_encoder new_slots l);
  _ ← write_req_to_token_layout req_pool_index layout false;
  mret layout.

(** ** Well-formed layouts and tables *)

Definition wf_layout (l : KVLayout) : Prop :=
  Forall (fun s => 0 < s) (as_tuple l) ∧ NoDup (as_tuple l).

(** A tensor: all rows have the table's width. *)
Definition rectangular (t : Table) : Prop :=
  ∀ r, r ∈ t → zlength r = row_width t.

Lemma slot_tuple_Ok slots l :
  slot_tuple slots = Ok l ↔ l = slots ∧ Forall (fun s => 0 < s) slots ∧ NoDup slots.
Proof.
  unfold slot_tuple. rewrite bind_Ok.
  setoid_rewrite bind_Ok. setoid_rewrite raise_if_Ok. rewrite !unit_exists.
  rewrite existsb_false_Forall, negb_false_iff, bool_decide_eq_true.
  setoid_rewrite Z.leb_gt. naive_solver.
Qed.

Lemma make_layout_Ok enc dec l :
  make_layout enc dec = Ok l ↔
  l = {| encoder_slots := enc; decoder_slots := dec |} ∧ wf_layout l.
Proof.
  unfold make_layout, wf_layout, as_tuple. split.
  - intros H. apply bind_Ok in H as (e & (-> & Hp & Hn)%slot_tuple_Ok & H).
    apply bind_Ok in H as (d & (-> & Hp' & Hn')%slot_tuple_Ok & H).
    apply bind_Ok in H as (_ & Hx%raise_if_Ok & [= <-]). simpl.
    rewrite existsb_false_Forall, Forall_forall in Hx.
    setoid_rewrite bool_decide_eq_false in Hx.
    split_and!; [done|by apply Forall_app|by apply NoDup_app].
  - intros (-> & (Hp1 & Hp2)%Forall_app & (Hn1 & Hx & Hn2)%NoDup_app). simpl in *.
    rewrite (proj2 (slot_tuple_Ok enc enc)) by done. simpl.
    rewrite (proj2 (slot_tuple_Ok dec dec)) by done. simpl.
    rewrite (proj2 (existsb_false_Forall _ _)); [done|].
    apply Forall_forall. intros x Hxe. apply bool_decide_eq_false. by apply Hx.
Qed.

Lemma make_layout_wf enc dec :
  wf_layout {| encoder_slots := enc; decoder_slots := dec |} →
  make_layout enc dec = Ok {| encoder_slots := enc; decoder_slots := dec |}.
Proof. intros. by apply make_layout_Ok. Qed.

Lemma append_encoder_Ok slots l l' :
  append_encoder slots l = Ok l' ↔
  l' = {| encoder_slots := encoder_slots l ++ slots; decoder_slots := decoder_slots l |} ∧
  wf_layout l'.
Proof.
  unfold append_encoder. rewrite bind_Ok. setoid_rewrite slot_tuple_Ok.
  setoid_rewrite make_layout_Ok. split; [naive_solver|].
  intros [-> Hwf]. eexists. split; [|by split].
  destruct Hwf as [Hp Hn]. unfold as_tuple in *. simpl in *.
  rewrite !Forall_app in Hp. rewrite !NoDup_app in Hn. naive_solver.
Qed.

Lemma append_decoder_Ok slots l l' :
  append_decoder slots l = Ok l' ↔
  l' = {| encoder_slots := encoder_slots l; decoder_slots := decoder_slots l ++ slots |} ∧
  wf_layout l'.
Proof.
  unfold append_decoder. rewrite bind_Ok. setoid_rewrite slot_tuple_Ok.
  setoid_rewrite make_layout_Ok. split; [naive_solver|].
  intros [-> Hwf]. eexists. split; [|by split].
  destruct Hwf as [Hp Hn]. unfold as_tuple in *. simpl in *.
  rewrite !Forall_app in Hp. rewrite !NoDup_app in Hn. naive_solver.
Qed.

Lemma as_tuple_length l : zlength (as_tuple l) = total_length l.
Proof. unfold as_tuple, total_length. by rewrite zlength_app. Qed.

Lemma validate_Ok t i n u :
  validate_row_arguments t i n = Ok u ↔
  0 ≤ i < zlength t ∧ 0 ≤ n ≤ row_width t.
Proof.
  unfold validate_row_arguments. rewrite bind_Ok. setoid_rewrite raise_if_Ok.
  setoid_rewrite orb_false_iff. setoid_rewrite Z.ltb_ge. setoid_rewrite Z.leb_gt.
  split; [intros (_ & ? & ?); lia|]. intros. exists tt. lia.
Qed.

Lemma row_at_lookup t i :
  0 ≤ i < zlength t → t !! Z.to_nat i = Some (row_at t i).
Proof.
  intros H. unfold row_at, zlength in *.
  destruct (lookup_lt_is_Some_2 t (Z.to_nat i)) as [r Hr]; [lia|]. by rewrite Hr.
Qed.

Lemma row_at_width t i :
  rectangular t → 0 ≤ i < zlength t → zlength (row_at t i) = row_width t.
Proof.
  intros Ht Hi. apply Ht. eapply list_elem_of_lookup_2. by apply row_at_lookup.
Qed.

Lemma write_row_length values b row :
  (length values ≤ length row)%nat → length (write_row values b row) = length row.
Proof.
  intros H. unfold write_row. rewrite length_app.
  destruct b; rewrite ?length_map, length_drop; lia.
Qed.

Lemma write_row_take values b row : take (length values) (write_row values b row) = values.
Proof. apply take_app_length. Qed.

(** What a successful write leaves in the table. *)
Lemma write_layout_Ok i l b t t' u :
  write_req_to_token_layout i l b t = (Ok u, t') ↔
  0 ≤ i < zlength t ∧ total_length l ≤ row_width t ∧
  t' = <[Z.to_nat i := write_row (as_tuple l) b (row_at t i)]> t.
Proof.
  unfold write_req_to_token_layout. mrun.
  destruct (validate_row_arguments t i (total_length l)) as [[]|e] eqn:E.
  - apply validate_Ok in E. destruct u. naive_solver lia.
  - split; [done|]. intros (Hi & Hw & _). exfalso.
    assert (validate_row_arguments t i (total_length l) = Ok tt); [|congruence].
    apply validate_Ok. pose proof (as_tuple_length l).
    pose proof (zlength_nonneg (as_tuple l)). lia.
Qed.

Lemma row_width_insert t i r :
  (i < length t)%nat → zlength r = row_width t → row_width (<[i := r]> t) = row_width t.
Proof. intros Hi Hr. destruct t as [|r0 t]; [done|]. by destruct i. Qed.

Lemma rectangular_insert t i r :
  rectangular t → (i < length t)%nat → zlength r = row_width t →
  rectangular (<[i := r]> t).
Proof.
  intros Ht Hi Hr x Hx. rewrite row_width_insert by done.
  apply list_elem_of_lookup in Hx as [j Hj].
  destruct (decide (i = j)) as [->|Hne].
  - rewrite list_lookup_insert_eq in Hj by done. by injection Hj as <-.
  - rewrite list_lookup_insert_ne in Hj by done. apply Ht. by eapply list_elem_of_lookup_2.
Qed.

Section Write.
Context (i : Z) (l : KVLayout) (b : bool) (t t' : Table).
Context (Ht : rectangular t) (Hw : write_req_to_token_layout i l b t = (Ok tt, t')).

#[local] Lemma write_fits : (length (as_tuple l) ≤ length (row_at t i))%nat.
Proof.
  apply write_layout_Ok in Hw as (Hi & Hl & _).
  pose proof (row_at_width _ _ Ht Hi) as Hr.
  rewrite <- as_tuple_length in Hl. unfold zlength in *. lia.
Qed.

Lemma write_row_at : row_at t' i = write_row (as_tuple l) b (row_at t i).
Proof.
  apply write_layout_Ok in Hw as (Hi & _ & ->). unfold row_at at 1.
  rewrite list_lookup_insert_eq; [done|]. unfold zlength in Hi. lia.
Qed.

Lemma write_other j : 0 ≤ j → j ≠ i → row_at t' j = row_at t j.
Proof.
  intros Hj Hne. apply write_layout_Ok in Hw as (Hi & _ & ->). unfold row_at.
  rewrite list_lookup_insert_ne; [done|]. lia.
Qed.

Lemma write_shape :
  zlength t' = zlength t ∧ row_width t' = row_width t ∧ rectangular t'.
Proof.
  pose proof write_fits as Hf.
  apply write_layout_Ok in Hw as (Hi & _ & ->).
  assert (zlength (write_row (as_tuple l) b (row_at t i)) = row_width t) as Hr.
  { rewrite <- (row_at_width t i) by done. unfold zlength.
    by rewrite write_row_length. }
  assert (Z.to_nat i < length t)%nat by (unfold zlength in Hi; lia).
  split_and!; [|by apply row_width_insert|by apply rectangular_insert].
  unfold zlength. by rewrite length_insert.
Qed.

(** Reading back the lengths of a written layout returns that layout. *)
Lemma write_read :
  wf_layout l →
  read_req_to_token_layout t' i (encoder_length l) (decoder_length l) = Ok l.
Proof.
  intros Hwf. destruct write_shape as (Hz & Hrw & _).
  pose proof Hw as (Hi & Hl & _)%write_layout_Ok.
  unfold read_req_to_token_layout.
  pose proof (zlength_nonneg (encoder_slots l)).
  pose proof (zlength_nonneg (decoder_slots l)).
  apply bind_Ok. exists tt. split.
  { apply validate_Ok. rewrite Hz, Hrw. unfold total_length, encoder_length,
      decoder_length in *. lia. }
  unfold encoder_length, decoder_length.
  rewrite (proj2 (Z.ltb_ge (zlength (encoder_slots l)) 0)) by lia.
  rewrite (proj2 (Z.ltb_ge (zlength (decoder_slots l)) 0)) by lia. simpl.
  rewrite write_row_at. unfold write_row, as_tuple.
  rewrite <- app_assoc, ztake_app.
  unfold zslice. rewrite <- zlength_app, app_assoc, ztake_app, zdrop_app.
  rewrite make_layout_wf; by destruct l.
Qed.
End Write.

(** Inserting vision slots before the decoder mapping: on success the new slots follow the
    old vision slots, the decoder slots keep their order, the row reads back as the returned
    layout and no other row changes; on failure the table is untouched. *)
Theorem insert_encoder_slots_correct i e d new t r t' :
  rectangular t → insert_encoder_slots i e d new t = (r, t') →
  match r with
  | Ok l => ∃ old, read_req_to_token_layout t i e d = Ok old ∧
      encoder_slots l = encoder_slots old ++ new ∧
      decoder_slots l = decoder_slots old ∧
      read_req_to_token_layout t' i (encoder_length l) (decoder_length l) = Ok l ∧
      (∀ j, 0 ≤ j → j ≠ i → row_at t' j = row_at t j)
  | Raise _ => t' = t
  end.
Proof.
  intros Ht H. destruct r as [l|ex].
  - unfold insert_encoder_slots in H. inv_ok.
    match goal with
    | Hr : read_req_to_token_layout _ _ _ _ = Ok ?old,
      Ha : append_encoder _ _ = Ok _, Hw : write_req_to_token_layout _ _ _ _ = (Ok ?u, _)
      |- _ => exists old; pose proof Ha as [El Hwf]%append_encoder_Ok; destruct u;
              split_and!; [done|by rewrite El|by rewrite El| |]
    end.
    + eapply write_read; eauto.
    + intros j Hj Hne. eapply write_other; eauto.
  - revert H. unfold insert_encoder_slots, write_req_to_token_layout. mrun.
    repeat (case_match; simplify_eq; try done); by intros [= _ ->].
Qed.

Lemma insert_encoder_slots_correct_witness :
  insert_encoder_slots 0 2 2 [9; 8] [[5; 6; 1; 2; 0; 0]; [7; 0; 0; 0; 0; 0]]
    = (Ok {| encoder_slots := [5; 6; 9; 8]; decoder_slots := [1; 2] |},
       [[5; 6; 9; 8; 1; 2]; [7; 0; 0; 0; 0; 0]]) ∧
  row_at [[5; 6; 9; 8; 1; 2]; [7; 0; 0; 0; 0; 0]] 1 =
  row_at [[5; 6; 1; 2; 0; 0]; [7; 0; 0; 0; 0; 0]] 1.
Proof.
  assert (insert_encoder_slots 0 2 2 [9; 8] [[5; 6; 1; 2; 0; 0]; [7; 0; 0; 0; 0; 0]]
    = (Ok {| encoder_slots := [5; 6; 9; 8]; decoder_slots := [1; 2] |},
       [[5; 6; 9; 8; 1; 2]; [7; 0; 0; 0; 0; 0]])) as H by (vm_compute; reflexivity).
  split; [exact H|].
  assert (rectangular [[5; 6; 1; 2; 0; 0]; [7; 0; 0; 0; 0; 0]]) as Hr.
  { intros r Hr. repeat (apply elem_of_cons in Hr as [->|Hr]; [reflexivity|]).
    by apply elem_of_nil in Hr. }
  destruct (insert_encoder_slots_correct _ _ _ _ _ _ _ Hr H) as (? & _ & _ & _ & _ & Ho).
  apply Ho; lia.
Defined.
