(* ===== verification/FramePlan.v ===== *)
(** * Planning one round of the vision sliding window

    Models the pure half of
    [src/sglang_omni/models/moss_vl_realtime/frame_window.py]: the validated
    thresholds, the frame records, [plan_frame_window], [covered_spans] and
    [visible_count_remap].  The half that rewrites a request's page-table row is
    in [FrameApply]. *)
From S2P Require Import Prelude PyNum Payload.
From Stdlib Require Import SpecFloat.
Local Open Scope Z_scope.

(** ** Thresholds *)

Record WindowConfig : Type := {
  w_enabled : bool;
  w_raw_window_s : pyfloat;
  w_pool_window_s : pyfloat;
  w_pool_ratio : Z;
  w_pooling_enabled : bool
}.

Definition check_bool (name : string) (v : pyval) : result bool :=
  match v with
  | VBool b => Ok b
  | _ => Raise (TypeError (name +:+ " must be a boolean"))
  end.

Definition check_window (name : string) (v : pyval) : result num :=
  match v with
  | VNum n =>
      finite ← math_isfinite n;
      if negb finite then Raise (ValueError (name +:+ " must be finite and positive"))
      else f ← to_float n;
           if num_le (NFloat f) (NInt 0)
           then Raise (ValueError (name +:+ " must be finite and positive"))
           else Ok n
  | _ => Raise (TypeError (name +:+ " must be a number"))
  end.

(** [RealtimeFrameWindowConfig.__post_init__]. *)
Definition make_window_config (enabled raw_window_s pool_window_s pool_ratio
    pooling_enabled : pyval) : result WindowConfig :=
  en ← check_bool "enabled" enabled;
  pe ← check_bool "pooling_enabled" pooling_enabled;
  raw ← check_window "raw_window_s" raw_window_s;
  pool ← check_window "pool_window_s" pool_window_s;
  rawf ← to_float raw;
  poolf ← to_float pool;
  ratio ← match pool_ratio with
          | VNum (NInt z) => Ok z
          | _ => Raise (TypeError "pool_ratio must be an integer")
          end;
  _ ← raise_if (ratio <? 2) (ValueError "pool_ratio must be at least 2");
  Ok {| w_enabled := en; w_raw_window_s := rawf; w_pool_window_s := poolf;
        w_pool_ratio := ratio; w_pooling_enabled := pe |}.

(** ** Records and plans *)

Record FrameRecord : Type := {
  fr_timestamp : pyfloat;
  fr_grid_h : Z;
  fr_grid_w : Z;
  fr_slots : Z;
  fr_pooled : bool;
  fr_pooled_sources : Z
}.

#[global] Instance FrameRecord_eq_dec : EqDecision FrameRecord.
Proof. solve_decision. Defined.

Definition grid_row (r : FrameRecord) : Z * Z * Z := (1, fr_grid_h r, fr_grid_w r).

(** [(start index into the raw region, member count, poolable)]. *)
Abbreviation Chunk := (nat * nat * bool)%type.

Record WindowPlan : Type := {
  p_evicted_virtual_count : nat;
  p_raw_chunks : list Chunk;
  p_new_records : list FrameRecord
}.

Definition sum_counts (keep : bool) (chunks : list Chunk) : nat :=
  sum_list_with (fun c => if Bool.eqb c.2 keep then c.1.2 else 0%nat) chunks.

Definition pooled_raw_count (p : WindowPlan) : nat := sum_counts true (p_raw_chunks p).
Definition dropped_raw_count (p : WindowPlan) : nat := sum_counts false (p_raw_chunks p).
Definition produced_virtual_count (p : WindowPlan) : nat :=
  length (filter (fun c : Chunk => c.2 = true) (p_raw_chunks p)).
Definition removes_frames (p : WindowPlan) : bool :=
  (0 <? p_evicted_virtual_count p)%nat || negb (bool_decide (p_raw_chunks p = [])).

(** ** [plan_frame_window] *)

(** Length of the longest prefix whose elements satisfy [f]: the [while] loops
    that advance a cursor. *)
Fixpoint prefix_len {A} (f : A → bool) (l : list A) : nat :=
  match l with
  | [] => 0
  | x :: l' => if f x then S (prefix_len f l') else 0
  end.

Definition trails (newest window : pyfloat) (r : FrameRecord) : bool :=
  f_lt window (f_sub newest (fr_timestamp r)).

Definition grid_key (r : FrameRecord) : Z * Z * Z :=
  (fr_grid_h r, fr_grid_w r, fr_slots r).

Definition uniform (members : list FrameRecord) : bool :=
  match members with
  | [] => true
  | m :: _ => forallb (fun r => bool_decide (grid_key r = grid_key m)) members
  end.

(** The virtual frame of a full chunk. *)
Definition virtual_of (members : list FrameRecord) : list FrameRecord :=
  match members, last members with
  | m :: _, Some z =>
      [{| fr_timestamp := fr_timestamp z; fr_grid_h := fr_grid_h m;
          fr_grid_w := fr_grid_w m; fr_slots := fr_slots m; fr_pooled := true;
          fr_pooled_sources := zlength members |}]
  | _, _ => []
  end.

(** [while cursor < poolable_count]; [fuel] bounds the iterations. *)
Fixpoint chunk_loop (fuel : nat) (ratio : nat) (raws : list FrameRecord)
    (poolable_count cursor : nat) : list Chunk * list FrameRecord :=
  match fuel with
  | O => ([], [])
  | S fuel' =>
      if (cursor <? poolable_count)%nat then
        let members := take ratio (drop cursor raws) in
        let poolable := uniform members in
        let '(chunks, produced) :=
          chunk_loop fuel' ratio raws poolable_count (cursor + length members) in
        ((cursor, length members, poolable) :: chunks,
         (if poolable then virtual_of members else []) ++ produced)
      else ([], [])
  end.

(** Turn the first [n] poolable chunks into drops. *)
Fixpoint demote (n : nat) (chunks : list Chunk) : list Chunk :=
  match chunks with
  | [] => []
  | (start, count, poolable) :: rest =>
      match n with
      | S n' => if poolable then (start, count, false) :: demote n' rest
                else (start, count, poolable) :: demote n rest
      | O => (start, count, poolable) :: demote n rest
      end
  end.

(** What layer one and the chunking decide: [(poolable_count, chunks, produced)]. *)
Definition age_raws (config : WindowConfig) (raws : list FrameRecord)
  : nat * list Chunk * list FrameRecord :=
  let aged_raw := match last raws with
                  | Some z => prefix_len (trails (fr_timestamp z) (w_raw_window_s config)) raws
                  | None => 0%nat
                  end in
  if w_pooling_enabled config then
    let ratio := Z.to_nat (w_pool_ratio config) in
    let poolable_count := (aged_raw / ratio * ratio)%nat in
    let '(chunks, produced) := chunk_loop poolable_count ratio raws poolable_count 0 in
    (poolable_count, chunks, produced)
  else (aged_raw, (if (aged_raw =? 0)%nat then [] else [(0%nat, aged_raw, false)]), []).

(** Layer two, step two: how many leading virtual frames leave. *)
Definition evict_virtuals (config : WindowConfig) (virtuals_all : list FrameRecord) : nat :=
  if (2 <=? length virtuals_all)%nat then
    match last virtuals_all with
    | Some z => prefix_len (trails (fr_timestamp z) (w_pool_window_s config))
                  (take (length virtuals_all - 1) virtuals_all)
    | None => 0%nat
    end
  else 0%nat.

Definition plan_frame_window (records : list FrameRecord) (config : WindowConfig)
  : result (option WindowPlan) :=
  if negb (w_enabled config) || bool_decide (records = []) then Ok None else
  let virtual_end := prefix_len fr_pooled records in
  _ ← raise_if (existsb fr_pooled (drop virtual_end records))
        (RuntimeError "pooled frames must form the leading encoder region");
  let virtuals := take virtual_end records in
  let raws := drop virtual_end records in
  let '(poolable_count, raw_chunks, produced) := age_raws config raws in
  let virtuals_all := virtuals ++ produced in
  let evicted_virtual := evict_virtuals config virtuals_all in
  if (evicted_virtual =? 0)%nat && bool_decide (raw_chunks = []) then Ok None else
  let new_records := drop evicted_virtual virtuals_all ++ drop poolable_count raws in
  let expired_produced := (evicted_virtual - length virtuals)%nat in
  Ok (Some (if (expired_produced =? 0)%nat
            then {| p_evicted_virtual_count := evicted_virtual;
                    p_raw_chunks := raw_chunks; p_new_records := new_records |}
            else {| p_evicted_virtual_count := length virtuals;
                    p_raw_chunks := demote expired_produced raw_chunks;
                    p_new_records := new_records |})).

(** ** Spans and the visibility remap *)

Definition count_pooled (records : list FrameRecord) : nat :=
  length (filter (fun r => fr_pooled r = true) records).

Fixpoint singles (n cursor : nat) : list (nat * nat) :=
  match n with O => [] | S n' => (cursor, S cursor) :: singles n' (S cursor) end.

Fixpoint chunk_spans (chunks : list Chunk) (cursor : nat) : list (nat * nat) * nat :=
  match chunks with
  | [] => ([], cursor)
  | (_, count, poolable) :: rest =>
      let '(spans, cursor') := chunk_spans rest (cursor + count) in
      ((if poolable then [(cursor, (cursor + count)%nat)] else []) ++ spans, cursor')
  end.

Definition covered_spans (records : list FrameRecord) (plan : WindowPlan)
  : result (list (nat * nat)) :=
  let old_virtual_count := count_pooled records in
  let kept := (old_virtual_count - p_evicted_virtual_count plan)%nat in
  let start := p_evicted_virtual_count plan in
  let '(mid, cursor) := chunk_spans (p_raw_chunks plan) (start + kept) in
  let kept_raw := length (filter (fun r => fr_pooled r = false) (p_new_records plan)) in
  let spans := singles kept start ++ mid ++ singles kept_raw cursor in
  _ ← raise_if (negb (cursor + kept_raw =? length records)%nat)
        (RuntimeError "frame window plan does not cover every old record");
  _ ← raise_if (negb (length spans =? length (p_new_records plan))%nat)
        (RuntimeError "frame window plan spans disagree with new records");
  Ok spans.

(** [for c in range(lo, hi): remap[c] = v]. *)
Fixpoint fill (n lo : nat) (v : nat) (remap : list nat) : result (list nat) :=
  match n with
  | O => Ok remap
  | S n' => if (lo <? length remap)%nat then fill n' (S lo) v (<[lo := v]> remap)
            else Raise (IndexError "list assignment index out of range")
  end.
Definition fill_range (lo hi v : nat) (remap : list nat) : result (list nat) :=
  fill (hi - lo) lo v remap.

Fixpoint remap_loop (spans : list (nat * nat)) (cursor produced : nat)
    (remap : list nat) : result (nat * nat * list nat) :=
  match spans with
  | [] => Ok (cursor, produced, remap)
  | (start, end_) :: rest =>
      _ ← raise_if ((start <? cursor)%nat || (end_ <=? start)%nat)
            (ValueError "plan spans must be ordered and non-empty");
      r1 ← fill_range cursor (start + 1) produced remap;
      r2 ← fill_range (start + 1) (end_ + 1) (produced + 1) r1;
      remap_loop rest end_ (produced + 1) r2
  end.

Definition visible_count_remap (old_row_count : nat) (spans : list (nat * nat))
  : result (list nat) :=
  '(cursor, produced, remap) ←
    remap_loop spans 0 0 (replicate (old_row_count + 1) 0%nat);
  fill_range cursor (old_row_count + 1) produced remap.

(** ** Survivors of a round that cannot pool *)

Definition degraded_new_records (records : list FrameRecord) (plan : WindowPlan)
  : list FrameRecord :=
  let old_virtual_count := count_pooled records in
  let aged_raw := (pooled_raw_count plan + dropped_raw_count plan)%nat in
  drop (p_evicted_virtual_count plan) (take old_virtual_count records)
  ++ drop (old_virtual_count + aged_raw) records.

Definition degrade (records : list FrameRecord) (plan : WindowPlan) : WindowPlan :=
  {| p_evicted_virtual_count := p_evicted_virtual_count plan;
     p_raw_chunks := map (fun c : Chunk => (c.1.1, c.1.2, false)) (p_raw_chunks plan);
     p_new_records := degraded_new_records records plan |}.

(** ** Slots of each record *)

Definition sum_slots (records : list FrameRecord) : Z :=
  foldr (fun r n => fr_slots r + n) 0 records.

Fixpoint slot_runs (records : list FrameRecord) (slots : list Z) : list (list Z) :=
  match records with
  | [] => []
  | r :: rest => ztake (fr_slots r) slots :: slot_runs rest (zdrop (fr_slots r) slots)
  end.

Definition record_slot_runs (records : list FrameRecord) (encoder_slots : list Z)
  : result (list (list Z)) :=
  _ ← raise_if (negb (sum_slots records =? zlength encoder_slots))
        (RuntimeError "frame records disagree with the encoder page-table region");
  Ok (slot_runs records encoder_slots).

(** ** Cursor loops *)

Lemma prefix_len_le {A} (f : A → bool) l : (prefix_len f l ≤ length l)%nat.
Proof. induction l; simpl; [lia|]. case_match; lia. Qed.

Lemma prefix_len_Forall {A} (f : A → bool) l :
  Forall (fun x => f x = true) (take (prefix_len f l) l).
Proof. induction l; simpl; [done|]. case_match; simpl; auto. Qed.

Lemma prefix_len_stop {A} (f : A → bool) l x :
  l !! prefix_len f l = Some x → f x = false.
Proof. induction l as [|y l IH]; simpl; [done|]. case_match; naive_solver. Qed.

(** Dropping part of a prefix leaves the rest of it. *)
Lemma prefix_len_drop {A} (f : A → bool) l n :
  (n ≤ prefix_len f l)%nat → prefix_len f (drop n l) = (prefix_len f l - n)%nat.
Proof.
  revert n. induction l as [|x l IH]; intros n Hn; simpl in *.
  - by destruct n.
  - destruct n as [|n]; [simpl; lia|]. destruct (f x) eqn:E; simpl; [|lia].
    apply IH. lia.
Qed.

Lemma prefix_len_all {A} (f : A → bool) l :
  Forall (fun x => f x = true) l → prefix_len f l = length l.
Proof. induction 1 as [|x l Hx _ IH]; simpl; [done|]. by rewrite Hx, IH. Qed.

Lemma prefix_len_app {A} (f : A → bool) l k :
  Forall (fun x => f x = true) l → prefix_len f (l ++ k) = (length l + prefix_len f k)%nat.
Proof. induction 1 as [|x l Hx _ IH]; simpl; [done|]. by rewrite Hx, IH. Qed.

Lemma prefix_len_none {A} (f : A → bool) l :
  Forall (fun x => f x = false) l → prefix_len f l = 0%nat.
Proof. destruct 1 as [|x l Hx _]; simpl; [done|]. by rewrite Hx. Qed.

(** ** Chunking *)

Section Chunks.
Context (ratio : nat) (raws : list FrameRecord) (Hratio : (0 < ratio)%nat).

Definition members_at (cursor : nat) : list FrameRecord := take ratio (drop cursor raws).

(** The chunk starting at row [cursor] and the virtual frames it yields. *)
Definition chunk_at (cursor : nat) : Chunk := (cursor, ratio, uniform (members_at cursor)).
Definition virtuals_at (cursor : nat) : list FrameRecord :=
  if uniform (members_at cursor) then virtual_of (members_at cursor) else [].

Fixpoint cursors (k cursor : nat) : list nat :=
  match k with O => [] | S k' => cursor :: cursors k' (cursor + ratio) end.

Lemma members_at_length cursor :
  (cursor + ratio ≤ length raws)%nat → length (members_at cursor) = ratio.
Proof. intros. unfold members_at. rewrite length_take, length_drop. lia. Qed.

(** The loop visits the full chunks in order and stops at [poolable_count]. *)
Lemma chunk_loop_spec k fuel cursor :
  (k ≤ fuel)%nat → (cursor + k * ratio ≤ length raws)%nat →
  chunk_loop fuel ratio raws (cursor + k * ratio) cursor =
  (map chunk_at (cursors k cursor), concat (map virtuals_at (cursors k cursor))).
Proof.
  revert fuel cursor. induction k as [|k IH]; intros fuel cursor Hf Hl.
  - rewrite Nat.mul_0_l, Nat.add_0_r. destruct fuel; simpl; [done|].
    by rewrite Nat.ltb_irrefl.
  - destruct fuel as [|fuel]; [lia|]. cbn [chunk_loop].
    rewrite (proj2 (Nat.ltb_lt _ _)) by nia. fold (members_at cursor).
    rewrite members_at_length by nia.
    replace (cursor + S k * ratio)%nat with ((cursor + ratio) + k * ratio)%nat by lia.
    rewrite IH by lia. done.
Qed.

Lemma virtual_of_Some members :
  members ≠ [] →
  ∃ m z, members !! 0%nat = Some m ∧ last members = Some z ∧
  virtual_of members =
    [{| fr_timestamp := fr_timestamp z; fr_grid_h := fr_grid_h m;
        fr_grid_w := fr_grid_w m; fr_slots := fr_slots m; fr_pooled := true;
        fr_pooled_sources := zlength members |}].
Proof.
  destruct members as [|m members]; [done|]. intros _.
  destruct (last (m :: members)) as [z|] eqn:E.
  - exists m, z. split_and!; [done|done|]. unfold virtual_of. by rewrite E.
  - by apply last_None in E.
Qed.
End Chunks.

(** What a new row says about the old rows [span] covers. *)
Inductive describes (ratio : nat) (records : list FrameRecord)
  : nat * nat → FrameRecord → Prop :=
| describes_kept i r :
    records !! i = Some r → describes ratio records (i, S i) r
| describes_pooled i members v :
    members = take ratio (drop i records) → length members = ratio →
    uniform members = true → Forall (fun r => fr_pooled r = false) members →
    virtual_of members = [v] → describes ratio records (i, (i + ratio)%nat) v.

(** Spans in order from [lo], non-empty, not past [hi]. *)
Fixpoint ordered_spans (lo : nat) (spans : list (nat * nat)) (hi : nat) : Prop :=
  match spans with
  | [] => (lo ≤ hi)%nat
  | (s, e) :: rest => (lo ≤ s)%nat ∧ (s < e)%nat ∧ ordered_spans e rest hi
  end.

Lemma ordered_spans_app lo l mid k hi :
  ordered_spans lo l mid → ordered_spans mid k hi → ordered_spans lo (l ++ k) hi.
Proof.
  revert lo. induction l as [|[s e] l IH]; intros lo; simpl.
  - intros Hlo. destruct k as [|[s e] k]; simpl; [lia|]. intros (? & ? & ?). split_and!; [lia|done..].
  - intros (? & ? & ?) ?. split_and!; auto.
Qed.

Lemma ordered_spans_weaken lo lo' l hi :
  (lo' ≤ lo)%nat → ordered_spans lo l hi → ordered_spans lo' l hi.
Proof. destruct l as [|[s e] l]; simpl; intros; intuition lia. Qed.

Lemma ordered_spans_drop n lo l hi : ordered_spans lo l hi → ordered_spans lo (drop n l) hi.
Proof.
  revert n lo. induction l as [|[s e] l IH]; intros n lo; [by destruct n|].
  destruct n as [|n]; simpl; [done|]. intros (? & ? & H).
  apply (ordered_spans_weaken e); [lia|]. by apply IH.
Qed.

Lemma singles_length n c : length (singles n c) = n.
Proof. revert c. induction n; simpl; auto. Qed.

Lemma singles_ordered n c : ordered_spans c (singles n c) (c + n).
Proof.
  revert c. induction n as [|n IH]; intros c; simpl; [lia|]. split_and!; [lia|lia|].
  replace (c + S n)%nat with (S c + n)%nat by lia. apply IH.
Qed.

Lemma singles_describes ratio records n c l :
  l = take n (drop c records) → length l = n →
  Forall2 (describes ratio records) (singles n c) l.
Proof.
  revert c l. induction n as [|n IH]; intros c l Hl Hlen; simpl.
  - destruct l; [constructor|done].
  - destruct (drop c records) as [|r k] eqn:E; [by subst|]. subst l. simpl.
    assert (records !! c = Some r) as Hr.
    { rewrite <- (Nat.add_0_r c), <- lookup_drop, E. done. }
    assert (drop (S c) records = k) as Hk by (rewrite (drop_S _ _ _ Hr) in E; by simplify_eq).
    constructor; [by constructor|]. apply IH; [by rewrite Hk|]. simpl in Hlen. lia.
Qed.

(** ** Spans of the chunked prefix *)

Section ChunkSpans.
Context (ratio : nat) (records : list FrameRecord) (v : nat).
Context (Hratio : (0 < ratio)%nat).
Context (Hraw : Forall (fun r => fr_pooled r = false) (drop v records)).

Lemma pooled_members c :
  (v + c + ratio ≤ length records)%nat →
  Forall2 (describes ratio records)
    (if uniform (members_at ratio (drop v records) c)
     then [((v + c)%nat, (v + c + ratio)%nat)] else [])
    (virtuals_at ratio (drop v records) c).
Proof.
  intros Hc. unfold virtuals_at.
  destruct (uniform _) eqn:Hu; [|constructor].
  assert (length (members_at ratio (drop v records) c) = ratio) as Hlen.
  { apply members_at_length; [done|rewrite length_drop; lia]. }
  destruct (virtual_of_Some (members_at ratio (drop v records) c)) as (m & z & _ & _ & E).
  { intros E. rewrite E in Hlen. simpl in Hlen. lia. }
  rewrite E. constructor; [|constructor].
  apply (describes_pooled _ _ _ (members_at ratio (drop v records) c)); try done.
  - unfold members_at. by rewrite drop_drop.
  - unfold members_at. by apply Forall_take, Forall_drop.
Qed.

Lemma chunk_spans_spec k c :
  (v + c + k * ratio ≤ length records)%nat →
  ∃ spans,
    chunk_spans (map (chunk_at ratio (drop v records)) (cursors ratio k c)) (v + c)
      = (spans, (v + c + k * ratio)%nat) ∧
    ordered_spans (v + c) spans (v + c + k * ratio) ∧
    Forall2 (describes ratio records) spans
      (concat (map (virtuals_at ratio (drop v records)) (cursors ratio k c))).
Proof.
  revert c. induction k as [|k IH]; intros c Hk; simpl.
  - exists []. rewrite Nat.add_0_r. split_and!; [done|simpl; lia|constructor].
  - destruct (IH (c + ratio)%nat) as (spans & E & Ho & Hd); [lia|].
    replace (v + (c + ratio))%nat with (v + c + ratio)%nat in * by lia.
    rewrite E. simpl in Hk.
    replace (v + c + (ratio + k * ratio))%nat
      with (v + c + ratio + k * ratio)%nat in * by lia.
    eexists. split; [done|]. split.
    + eapply ordered_spans_app; [|exact Ho].
      destruct (uniform _); simpl; lia.
    + apply Forall2_app; [apply pooled_members; lia|done].
Qed.
End ChunkSpans.

Lemma demote_spans n chunks c :
  chunk_spans (demote n chunks) c =
  (drop n (chunk_spans chunks c).1, (chunk_spans chunks c).2).
Proof.
  revert n c. induction chunks as [|[[s k] b] chunks IH]; intros n c; simpl.
  - by destruct n.
  - destruct n as [|n]; [|destruct b]; simpl; rewrite IH;
      destruct (chunk_spans chunks (c + k)) as [sp cur]; by destruct b || done.
Qed.

Lemma demote_counts n chunks :
  (sum_counts true (demote n chunks) + sum_counts false (demote n chunks) =
   sum_counts true chunks + sum_counts false chunks)%nat.
Proof.
  unfold sum_counts.
  revert n. induction chunks as [|[[s k] b] chunks IH]; intros n; simpl; [done|].
  destruct n as [|n]; [specialize (IH 0%nat)|destruct b; [specialize (IH n)|specialize (IH (S n))]];
    destruct b || idtac; simpl in *; lia.
Qed.

(** ** What layer one leaves *)

(** What [make_window_config] guarantees. *)
Definition wf_config (config : WindowConfig) : Prop :=
  2 ≤ w_pool_ratio config ∧
  num_le (NFloat (w_raw_window_s config)) (NInt 0) = false ∧
  num_le (NFloat (w_pool_window_s config)) (NInt 0) = false.

Lemma check_window_Ok name v n :
  check_window name v = Ok n →
  ∃ f, to_float n = Ok f ∧ num_le (NFloat f) (NInt 0) = false.
Proof.
  destruct v as [|b|m|s|]; try done. unfold check_window. simpl. intros H. inv_ok.
  destruct x; [|done]. cbn [negb] in H. inv_ok.
  destruct (num_le (NFloat x) (NInt 0)) eqn:E; [done|]. inv_ok. eauto.
Qed.

Lemma make_window_config_wf en raw pool ratio pe config :
  make_window_config en raw pool ratio pe = Ok config → wf_config config.
Proof.
  unfold make_window_config. intros H. inv_ok.
  apply check_window_Ok in H2 as (? & ? & ?), H3 as (? & ? & ?).
  unfold wf_config. simpl. split_and!; [done|congruence|congruence].
Qed.

(** [age_raws] removes exactly a prefix of [poolable_count] raw frames, and the
    spans of its chunks describe the virtual frames it produces. *)
Lemma age_raws_spec config records v pc chunks produced :
  wf_config config →
  (v ≤ length records)%nat →
  Forall (fun r => fr_pooled r = false) (drop v records) →
  age_raws config (drop v records) = (pc, chunks, produced) →
  (v + pc ≤ length records)%nat ∧
  ∃ spans, chunk_spans chunks v = (spans, (v + pc)%nat) ∧
    ordered_spans v spans (v + pc) ∧
    Forall2 (describes (Z.to_nat (w_pool_ratio config)) records) spans produced ∧
    Forall (fun r => fr_pooled r = true) produced.
Proof.
  intros Hcfg Hv Hraw H. unfold age_raws in H. destruct Hcfg as [Hcfg _].
  set (ratio := Z.to_nat (w_pool_ratio config)) in *.
  set (aged := match last _ with Some z => _ | None => 0%nat end) in H.
  assert (aged ≤ length records - v)%nat as Haged.
  { unfold aged. rewrite <- length_drop.
    destruct (last _); [apply prefix_len_le|lia]. }
  clearbody aged.
  assert (0 < ratio)%nat as Hr by (unfold ratio; lia).
  destruct (w_pooling_enabled config).
  - set (k := (aged / ratio)%nat) in *.
    assert (k * ratio ≤ aged)%nat as Hk.
    { unfold k. rewrite Nat.mul_comm. apply Nat.Div0.mul_div_le. }
    pose proof (chunk_loop_spec ratio (drop v records) Hr k (k * ratio) 0) as Hl.
    simpl in Hl. rewrite Hl in H; [|nia|rewrite length_drop; lia]. simplify_eq.
    split; [lia|].
    destruct (chunk_spans_spec ratio records v Hr Hraw k 0) as (spans & E & Ho & Hd); [lia|].
    rewrite Nat.add_0_r in *. exists spans. split_and!; try done.
    apply Forall_concat, Forall_map, Forall_forall. intros c _. simpl.
    unfold virtuals_at. destruct (uniform _); [|done].
    unfold virtual_of. destruct (members_at _ _ _) as [|m ms]; [done|].
    destruct (last (m :: ms)); repeat constructor.
  - simplify_eq. split; [lia|]. exists []. simpl.
    destruct (Nat.eqb_spec pc 0) as [->|Hne]; simpl.
    + rewrite Nat.add_0_r. split_and!; [done|lia|constructor|constructor].
    + split_and!; [done|lia|constructor|constructor].
Qed.

(** The region of leading virtual frames the planner splits off. *)
Lemma virtual_region records :
  existsb fr_pooled (drop (prefix_len fr_pooled records) records) = false →
  count_pooled records = prefix_len fr_pooled records ∧
  Forall (fun r => fr_pooled r = true) (take (prefix_len fr_pooled records) records) ∧
  Forall (fun r => fr_pooled r = false) (drop (prefix_len fr_pooled records) records).
Proof.
  intros H. apply existsb_false_Forall in H.
  pose proof (prefix_len_Forall fr_pooled records) as Hp.
  split_and!; [|done|done]. unfold count_pooled.
  rewrite <- (take_drop (prefix_len fr_pooled records) records) at 1.
  rewrite filter_app, length_app.
  rewrite (filter_keep_all _ (take _ _)), (filter_keep_none _ (drop _ _)).
  - rewrite length_take. pose proof (prefix_len_le fr_pooled records). simpl. lia.
  - eapply Forall_impl; [exact H|]. simpl. congruence.
  - done.
Qed.

Lemma evict_virtuals_lt config vs : (evict_virtuals config vs ≤ length vs - 1)%nat.
Proof.
  unfold evict_virtuals. destruct (2 <=? length vs)%nat; [|lia].
  destruct (last vs); [|lia]. etransitivity; [apply prefix_len_le|].
  rewrite length_take. lia.
Qed.

Lemma demote_0 chunks : demote 0 chunks = chunks.
Proof. induction chunks as [|[[s k] b] chunks IH]; simpl; [done|]. by rewrite IH. Qed.

(** Keeping [v - e] old virtual frames, all but [d] of the produced ones and
    every raw frame past the aged prefix covers the old rows. *)
Lemma covered_spans_spec ratio records v e d pc chunks spans produced :
  count_pooled records = v → (e ≤ v)%nat → (v + pc ≤ length records)%nat →
  Forall (fun r => fr_pooled r = true) (take v records) →
  Forall (fun r => fr_pooled r = false) (drop v records) →
  Forall (fun r => fr_pooled r = true) produced →
  chunk_spans chunks v = (spans, (v + pc)%nat) →
  ordered_spans v spans (v + pc) →
  Forall2 (describes ratio records) spans produced →
  let new := drop e (take v records) ++ drop d produced ++ drop (v + pc) records in
  ∃ sp, covered_spans records {| p_evicted_virtual_count := e;
      p_raw_chunks := demote d chunks; p_new_records := new |} = Ok sp ∧
    ordered_spans e sp (length records) ∧ Forall2 (describes ratio records) sp new.
Proof.
  intros Hcp He Hpc Hvs Hraw Hprod Hsp Hord Hdesc new.
  assert (filter (fun r => fr_pooled r = false) new = drop (v + pc) records) as Hk.
  { assert (∀ l, Forall (fun r => fr_pooled r = true) l →
       filter (fun r => fr_pooled r = false) l = []) as Hn.
    { intros l Hl. apply filter_keep_none. eapply Forall_impl; [exact Hl|].
      simpl. congruence. }
    unfold new. rewrite !filter_app, (Hn (drop e _)), (Hn (drop d _));
      [|by apply Forall_drop..].
    simpl. apply filter_keep_all. rewrite <- drop_drop. by apply Forall_drop. }
  set (n := (length records - (v + pc))%nat).
  assert (length (drop (v + pc) records) = n) as Hn by (rewrite length_drop; done).
  exists (singles (v - e) e ++ drop d spans ++ singles n (v + pc)).
  assert (Forall2 (describes ratio records)
    (singles (v - e) e ++ drop d spans ++ singles n (v + pc)) new) as HF.
  { apply Forall2_app; [|apply Forall2_app].
    - apply singles_describes; [by rewrite firstn_skipn_comm, Nat.add_sub_assoc, Nat.add_sub_swap, Nat.sub_diag|].
      rewrite length_drop, length_take. lia.
    - by apply Forall2_drop.
    - apply singles_describes; [|done]. by rewrite take_ge by lia. }
  split_and!; [|..|done].
  - unfold covered_spans. simpl. rewrite Hcp.
    replace (e + (v - e))%nat with v by lia.
    rewrite demote_spans, Hsp. simpl. rewrite Hk, Hn.
    replace (v + pc + n =? length records)%nat with true by (symmetry; apply Nat.eqb_eq; lia).
    simpl. rewrite (Forall2_length _ _ _ HF), Nat.eqb_refl. done.
  - eapply ordered_spans_app; [apply singles_ordered|].
    replace (e + (v - e))%nat with v by lia.
    eapply ordered_spans_app; [by apply ordered_spans_drop|].
    replace (length records) with (v + pc + n)%nat by lia. apply singles_ordered.
Qed.

(** ** What a round leaves is settled *)

Definition aged_raw (config : WindowConfig) (raws : list FrameRecord) : nat :=
  match last raws with
  | Some z => prefix_len (trails (fr_timestamp z) (w_raw_window_s config)) raws
  | None => 0%nat
  end.

Lemma aged_raw_drop config raws n :
  (n ≤ aged_raw config raws)%nat →
  (aged_raw config (drop n raws) ≤ aged_raw config raws - n)%nat.
Proof.
  unfold aged_raw.
  destruct (decide (n < length raws)%nat) as [Hn|Hn].
  - rewrite last_drop_lt by done. destruct (last raws); [|lia].
    intros. by rewrite prefix_len_drop by done.
  - rewrite drop_ge by lia. simpl. lia.
Qed.

Lemma age_raws_count config raws pc chunks produced :
  wf_config config → age_raws config raws = (pc, chunks, produced) →
  (pc ≤ aged_raw config raws)%nat ∧
  (if w_pooling_enabled config
   then (aged_raw config raws - pc < Z.to_nat (w_pool_ratio config))%nat
   else aged_raw config raws = pc).
Proof.
  unfold age_raws. intros [Hw _]. fold (aged_raw config raws).
  set (a := aged_raw config raws). destruct (w_pooling_enabled config).
  - destruct (chunk_loop _ _ _ _ _). intros H. simplify_eq.
    pose proof (Nat.div_mod_eq a (Z.to_nat (w_pool_ratio config))) as E.
    pose proof (Nat.mod_upper_bound a (Z.to_nat (w_pool_ratio config))). lia.
  - intros H. by simplify_eq.
Qed.

Lemma age_raws_small config raws :
  (if w_pooling_enabled config
   then (aged_raw config raws < Z.to_nat (w_pool_ratio config))%nat
   else aged_raw config raws = 0%nat) →
  age_raws config raws = (0%nat, [], []).
Proof.
  unfold age_raws. fold (aged_raw config raws). destruct (w_pooling_enabled config).
  - intros H. by rewrite Nat.div_small.
  - by intros ->.
Qed.

Lemma age_raws_settled config raws pc chunks produced :
  wf_config config → age_raws config raws = (pc, chunks, produced) →
  age_raws config (drop pc raws) = (0%nat, [], []).
Proof.
  intros Hw H. destruct (age_raws_count _ _ _ _ _ Hw H) as [Hle Hc].
  pose proof (aged_raw_drop _ _ _ Hle). apply age_raws_small.
  destruct (w_pooling_enabled config); lia.
Qed.

Lemma evict_virtuals_settled config vs :
  evict_virtuals config (drop (evict_virtuals config vs) vs) = 0%nat.
Proof.
  set (ev := evict_virtuals config vs). unfold evict_virtuals at 1.
  destruct (Nat.leb_spec 2 (length (drop ev vs))) as [Hl|]; [|done].
  rewrite length_drop in *.
  assert (ev = evict_virtuals config vs) as E by done. unfold evict_virtuals in E.
  rewrite (proj2 (Nat.leb_le _ _)) in E by lia.
  rewrite last_drop_lt by lia. destruct (last vs) as [z|]; [|done].
  replace (take (length vs - ev - 1) (drop ev vs))
    with (drop ev (take (length vs - 1) vs)); [rewrite prefix_len_drop; lia|].
  rewrite skipn_firstn_comm. f_equal. lia.
Qed.

(** A region of virtual frames followed by raw ones splits where it should. *)
Lemma virtual_region_app vs raws :
  Forall (fun r => fr_pooled r = true) vs → Forall (fun r => fr_pooled r = false) raws →
  prefix_len fr_pooled (vs ++ raws) = length vs.
Proof. intros Hv Hr. rewrite prefix_len_app, prefix_len_none by done. lia. Qed.

Lemma plan_frame_window_settled config vs raws :
  Forall (fun r => fr_pooled r = true) vs → Forall (fun r => fr_pooled r = false) raws →
  evict_virtuals config vs = 0%nat → age_raws config raws = (0%nat, [], []) →
  plan_frame_window (vs ++ raws) config = Ok None.
Proof.
  intros Hv Hr He Ha. unfold plan_frame_window.
  destruct (_ || _); [done|].
  rewrite virtual_region_app, drop_app_length, take_app_length by done.
  rewrite (proj2 (existsb_false_Forall _ _) Hr). simpl.
  rewrite Ha, app_nil_r, He. done.
Qed.

(** ** Filling the remap table *)

Definition started (c : nat) (spans : list (nat * nat)) : nat :=
  length (filter (fun p : nat * nat => (p.1 < c)%nat) spans).

Lemma started_cons c s e spans :
  started c ((s, e) :: spans) =
  ((if decide (s < c)%nat then 1 else 0) + started c spans)%nat.
Proof. unfold started. rewrite filter_cons. simpl. by case_decide. Qed.

Lemma started_before lo c spans hi :
  ordered_spans lo spans hi → (c ≤ lo)%nat → started c spans = 0%nat.
Proof.
  revert lo. induction spans as [|[s e] spans IH]; intros lo; simpl; [done|].
  intros (? & ? & ?) ?. rewrite started_cons, decide_False by lia.
  apply (IH e); [done|lia].
Qed.

(** Row [j] of the new table is among the first [started c] rows exactly when
    its first source row is among the first [c] old rows. *)
Lemma started_lookup lo spans hi c j s e :
  ordered_spans lo spans hi → spans !! j = Some (s, e) →
  (j < started c spans ↔ s < c)%nat.
Proof.
  revert lo j. induction spans as [|[s' e'] spans IH]; intros lo j; simpl; [done|].
  intros (? & ? & Ho) Hj. rewrite started_cons. destruct j as [|j]; simplify_eq/=.
  - destruct (decide (s < c)%nat); [lia|].
    rewrite (started_before e) with (hi := hi) by (done || lia). lia.
  - rewrite <- (IH e' j Ho Hj). case_decide; [lia|].
    rewrite (started_before e') with (hi := hi) by (done || lia). lia.
Qed.

Lemma fill_spec n lo v remap :
  (n = 0 ∨ lo + n ≤ length remap)%nat →
  ∃ r, fill n lo v remap = Ok r ∧ length r = length remap ∧
    ∀ c, r !! c = if decide (lo ≤ c < lo + n)%nat then Some v else remap !! c.
Proof.
  revert lo remap. induction n as [|n IH]; intros lo remap Hn; simpl.
  - exists remap. split_and!; [done|done|]. intros c. by rewrite decide_False by lia.
  - rewrite (proj2 (Nat.ltb_lt _ _)) by lia.
    destruct (IH (S lo) (<[lo:=v]> remap)) as (r & E & Hl & Hr);
      [rewrite length_insert; lia|].
    exists r. rewrite length_insert in Hl. split_and!; [done|done|]. intros c.
    rewrite Hr. destruct (decide (c = lo)) as [->|Hc].
    + rewrite decide_False, decide_True by lia. apply list_lookup_insert_eq. lia.
    + rewrite list_lookup_insert_ne by done. repeat case_decide; (done || lia).
Qed.

Lemma fill_bound n lo v remap r :
  fill n lo v remap = Ok r → (n = 0 ∨ lo + n ≤ length remap)%nat ∧ length r = length remap.
Proof.
  revert lo remap. induction n as [|n IH]; intros lo remap E; simpl in E.
  - simplify_eq. by split; [left|].
  - destruct (Nat.ltb_spec lo (length remap)); [|done].
    apply IH in E. rewrite length_insert in E. lia.
Qed.

Lemma fill_range_spec lo hi v remap :
  (lo < hi ≤ length remap)%nat →
  ∃ r, fill_range lo hi v remap = Ok r ∧ length r = length remap ∧
    ∀ c, r !! c = if decide (lo ≤ c < hi)%nat then Some v else remap !! c.
Proof.
  intros H. unfold fill_range.
  destruct (fill_spec (hi - lo) lo v remap) as (r & E & Hl & Hr); [lia|].
  exists r. split_and!; [done|done|]. intros c. rewrite Hr.
  repeat case_decide; (done || lia).
Qed.

Lemma fill_range_Ok lo hi v remap r :
  (lo < hi)%nat → fill_range lo hi v remap = Ok r →
  (hi ≤ length remap)%nat ∧ length r = length remap.
Proof. intros ? E%fill_bound. lia. Qed.

(** The table from [cursor] on, for spans that start there. *)
Lemma remap_spec n spans cursor produced remap :
  ordered_spans cursor spans n → length remap = S n →
  ∃ c' p' r K, remap_loop spans cursor produced remap = Ok (c', p', r) ∧
    fill_range c' (n + 1) p' r = Ok K ∧ length K = S n ∧
    ∀ c, K !! c = if decide (c < cursor)%nat then remap !! c
                  else if decide (c ≤ n)%nat then Some (produced + started c spans)%nat
                  else None.
Proof.
  revert cursor produced remap.
  induction spans as [|[s e] spans IH]; intros cursor produced remap Ho Hl; simpl in *.
  - destruct (fill_range_spec cursor (n + 1) produced remap) as (K & E & HK & Hc); [lia|].
    exists cursor, produced, remap, K. split_and!; [done|done|lia|]. intros c.
    rewrite Hc. unfold started. simpl. rewrite Nat.add_0_r.
    repeat case_decide; try (done || lia). apply lookup_ge_None. lia.
  - destruct Ho as (Hs & He & Ho).
    assert (e ≤ n)%nat as Hen.
    { clear -Ho. revert e Ho. induction spans as [|[s e'] spans IH]; intros e; simpl; [done|].
      intros (? & ? & H). apply IH in H. lia. }
    rewrite (proj2 (Nat.ltb_ge _ _)), (proj2 (Nat.leb_gt _ _)) by lia. simpl.
    destruct (fill_range_spec cursor (s + 1) produced remap) as (r1 & E1 & L1 & H1); [lia|].
    rewrite E1. simpl.
    destruct (fill_range_spec (s + 1) (e + 1) (produced + 1) r1) as (r2 & E2 & L2 & H2); [lia|].
    rewrite E2. simpl.
    destruct (IH e (produced + 1)%nat r2 Ho) as (c' & p' & r & K & E & EK & LK & HK); [lia|].
    exists c', p', r, K. split_and!; [done|done|done|]. intros c.
    rewrite HK, H2, H1, started_cons.
    pose proof (started_before e c spans n Ho).
    repeat case_decide; try (done || lia); f_equal; lia.
Qed.

Lemma remap_loop_Ok n spans cursor produced remap c' p' r :
  length remap = S n → (cursor ≤ n)%nat →
  remap_loop spans cursor produced remap = Ok (c', p', r) →
  ordered_spans cursor spans n.
Proof.
  revert cursor produced remap.
  induction spans as [|[s e] spans IH]; intros cursor produced remap Hl Hc H; simpl in *; [done|].
  inv_ok. apply Nat.ltb_ge in H0. apply Nat.leb_gt in H3.
  apply fill_range_Ok in H1 as [? L1]; [|lia]. apply fill_range_Ok in H2 as [? L2]; [|lia].
  split_and!; [lia|lia|]. by apply (IH e (produced + 1)%nat x1); [lia|lia|].
Qed.

(** ** The shape of a plan *)

(** A poolable chunk starts at a raw frame as wide as its virtual frame. *)
Definition chunk_width (raws : list FrameRecord) (c : Chunk) (r : FrameRecord) : Prop :=
  ∃ m, raws !! c.1.1 = Some m ∧ fr_slots r = fr_slots m.

Definition poolables (chunks : list Chunk) : list Chunk :=
  List.filter (fun c : Chunk => c.2) chunks.

Lemma poolables_demote n chunks : poolables (demote n chunks) = drop n (poolables chunks).
Proof.
  revert n. induction chunks as [|[[s k] []] chunks IH]; intros n; simpl;
    [by destruct n|destruct n; simpl; by rewrite IH|destruct n; simpl; by rewrite IH].
Qed.

Lemma chunks_width ratio raws k c :
  (0 < ratio)%nat → (c + k * ratio ≤ length raws)%nat →
  Forall2 (chunk_width raws)
    (poolables (map (chunk_at ratio raws) (cursors ratio k c)))
    (concat (map (virtuals_at ratio raws) (cursors ratio k c))).
Proof.
  intros Hr. revert c. induction k as [|k IH]; intros c Hk; simpl; [constructor|].
  simpl in Hk. assert (length (members_at ratio raws c) = ratio) as Hl
    by (apply members_at_length; [done|lia]).
  unfold virtuals_at at 1. destruct (uniform (members_at ratio raws c)); simpl; [|apply IH; lia].
  destruct (virtual_of_Some (members_at ratio raws c)) as (m & z & Hm & _ & E).
  { intros E. rewrite E in Hl. simpl in Hl. lia. }
  rewrite E. simpl. constructor; [|apply IH; lia].
  exists m. split; [|done]. simpl. unfold members_at in Hm.
  rewrite lookup_take, lookup_drop, Nat.add_0_r in Hm. by destruct (decide _).
Qed.

Lemma chunk_counts ratio raws k c :
  let chunks := map (chunk_at ratio raws) (cursors ratio k c) in
  (sum_counts true chunks + sum_counts false chunks = k * ratio)%nat.
Proof.
  cbv zeta. unfold sum_counts. revert c. induction k as [|k IH]; intros c; simpl; [done|].
  specialize (IH (c + ratio)%nat). destruct (uniform _); simpl; lia.
Qed.

Lemma age_raws_shape config raws pc chunks produced :
  wf_config config → age_raws config raws = (pc, chunks, produced) →
  (pc ≤ length raws)%nat ∧ (sum_counts true chunks + sum_counts false chunks = pc)%nat ∧
  Forall2 (chunk_width raws) (poolables chunks) produced.
Proof.
  intros Hw H. destruct (age_raws_count _ _ _ _ _ Hw H) as [Hpc _]. destruct Hw as [Hw _].
  assert (aged_raw config raws ≤ length raws)%nat as Ha.
  { unfold aged_raw. destruct (last raws); [apply prefix_len_le|lia]. }
  split; [lia|]. unfold age_raws in H. fold (aged_raw config raws) in H.
  destruct (w_pooling_enabled config).
  - set (ratio := Z.to_nat (w_pool_ratio config)) in *.
    set (k := (aged_raw config raws / ratio)%nat) in *.
    assert (0 < ratio)%nat as Hr by (unfold ratio; lia).
    assert (k * ratio ≤ aged_raw config raws)%nat as Hk.
    { unfold k. rewrite Nat.mul_comm. apply Nat.Div0.mul_div_le. }
    pose proof (chunk_loop_spec ratio raws Hr k (k * ratio) 0) as Hl.
    simpl in Hl. rewrite Hl in H; [|nia|lia]. simplify_eq.
    split; [apply chunk_counts|]. apply chunks_width; [done|]. simpl. lia.
  - simplify_eq. destruct (Nat.eqb_spec (aged_raw config raws) 0) as [->|Hne]; simpl.
    + by split.
    + split; [unfold sum_counts; simpl; lia|constructor].
Qed.

(** The parts every plan is made of. *)
Record plan_parts (records : list FrameRecord) (p : WindowPlan) (v pc d : nat)
    (produced : list FrameRecord) : Prop := {
  pp_virtuals : count_pooled records = v;
  pp_leading : Forall (fun r => fr_pooled r = true) (take v records);
  pp_raw : Forall (fun r => fr_pooled r = false) (drop v records);
  pp_bound : (v + pc ≤ length records)%nat;
  pp_evicted : (p_evicted_virtual_count p ≤ v)%nat;
  pp_counts : (pooled_raw_count p + dropped_raw_count p = pc)%nat;
  pp_new : p_new_records p =
           drop (p_evicted_virtual_count p) (take v records)
           ++ drop d produced ++ drop (v + pc) records;
  pp_produced : Forall (fun r => fr_pooled r = true) produced;
  pp_width : Forall2 (chunk_width (drop v records)) (poolables (p_raw_chunks p)) (drop d produced)
}.

Lemma plan_shape config records p :
  wf_config config → plan_frame_window records config = Ok (Some p) →
  ∃ pc d produced, plan_parts records p (prefix_len fr_pooled records) pc d produced.
Proof.
  intros Hcfg H. unfold plan_frame_window in H.
  destruct (negb _ || _); [done|].
  destruct (existsb _ _) eqn:Hex; simpl in H; [done|].
  destruct (virtual_region records Hex) as (Hcp & Hvs & Hraw).
  set (v := prefix_len fr_pooled records) in *.
  assert (v ≤ length records)%nat as Hv by apply prefix_len_le.
  destruct (age_raws _ _) as [[pc chunks] produced] eqn:Hage.
  destruct (age_raws_spec _ _ _ _ _ _ Hcfg Hv Hraw Hage) as (Hpc & _ & _ & _ & _ & Hprod).
  destruct (age_raws_shape _ _ _ _ _ Hcfg Hage) as (_ & Hcnt & Hwid).
  set (ev := evict_virtuals _ _) in *. destruct (_ && _); [done|].
  assert (length (take v records) = v) as Hlv by (rewrite length_take; lia).
  rewrite Hlv, drop_app, Hlv, <- app_assoc, drop_drop in H.
  exists pc, (ev - v)%nat, produced.
  destruct (Nat.eqb_spec (ev - v) 0) as [E|E]; injection H as <-; split; simpl;
    unfold pooled_raw_count, dropped_raw_count; simpl; try done; try lia.
  - by rewrite E, drop_0.
  - pose proof (demote_counts (ev - v) chunks). lia.
  - rewrite (drop_ge (take v records) ev), (drop_ge (take v records) v) by lia. done.
  - rewrite poolables_demote. by apply Forall2_drop.
Qed.

Lemma plan_sound config records plan :
  wf_config config →
  plan_frame_window records config = Ok (Some plan) →
  ∃ spans, covered_spans records plan = Ok spans ∧
    ordered_spans 0 spans (length records) ∧
    Forall2 (describes (Z.to_nat (w_pool_ratio config)) records)
      spans (p_new_records plan) ∧
    (p_evicted_virtual_count plan ≤ count_pooled records)%nat.
Proof.
  intros Hcfg H. unfold plan_frame_window in H.
  destruct (negb _ || _); [done|]. set (v := prefix_len _ _) in *.
  destruct (existsb _ _) eqn:Hex; simpl in H; [done|].
  destruct (virtual_region records Hex) as (Hcp & Hvs & Hraw). fold v in Hcp, Hvs, Hraw.
  assert (v ≤ length records)%nat as Hv by apply prefix_len_le.
  destruct (age_raws _ _) as [[pc chunks] produced] eqn:Hage.
  destruct (age_raws_spec _ _ _ _ _ _ Hcfg Hv Hraw Hage)
    as (Hpc & spans & Hsp & Hord & Hdesc & Hprod).
  set (ev := evict_virtuals _ _) in *.
  destruct (_ && _); [done|].
  assert (length (take v records) = v) as Hlv by (rewrite length_take; lia).
  rewrite Hlv, drop_app, Hlv, <- app_assoc, drop_drop in H.
  pose proof (fun e d He => covered_spans_spec _ records v e d pc chunks spans
    produced Hcp He Hpc Hvs Hraw Hprod Hsp Hord Hdesc) as HC. simpl in HC.
  destruct (Nat.eqb_spec (ev - v) 0) as [E|E]; simplify_eq; simpl.
  - destruct (HC ev 0%nat) as (sp & Hc & Ho & Hd); [lia|].
    rewrite demote_0, drop_0 in Hc. rewrite drop_0 in Hd. rewrite E, drop_0.
    exists sp. split_and!; [done|eapply ordered_spans_weaken; [|done]; lia|done|lia].
  - destruct (HC (prefix_len fr_pooled records) (ev - prefix_len fr_pooled records)%nat) as (sp & Hc & Ho & Hd); [lia|].
    rewrite (drop_ge (take _ records) ev) by lia.
    rewrite (drop_ge (take _ records) (prefix_len fr_pooled records)) in Hc, Hd by lia.
    exists sp. split_and!; [done|eapply ordered_spans_weaken; [|done]; lia|done|lia].
Qed.

Lemma plan_removes config records p :
  wf_config config → plan_frame_window records config = Ok (Some p) → removes_frames p = true.
Proof.
  intros Hcfg H. unfold plan_frame_window in H.
  destruct (negb _ || _); [done|].
  destruct (existsb _ _) eqn:Hex; simpl in H; [done|].
  set (v := prefix_len fr_pooled records) in *.
  destruct (age_raws _ _) as [[pc chunks] produced] eqn:Hage.
  destruct (age_raws_shape _ _ _ _ _ Hcfg Hage) as (_ & _ & Hwid).
  set (ev := evict_virtuals config (take v records ++ produced)) in *.
  pose proof (evict_virtuals_lt config (take v records ++ produced)) as Hev. fold ev in Hev.
  assert (length (take v records) = v) as Hlv.
  { rewrite length_take. pose proof (prefix_len_le fr_pooled records). fold v in H0. lia. }
  rewrite length_app, Hlv in Hev. rewrite Hlv in H.
  destruct (Nat.eqb_spec ev 0) as [E0|E0]; simpl in H.
  - destruct (bool_decide_reflect (chunks = [])) as [|Hc]; [done|].
    rewrite E0 in H. simpl in H. injection H as <-. unfold removes_frames. simpl.
    apply negb_true_iff. by apply bool_decide_eq_false.
  - destruct (Nat.eqb_spec (ev - v) 0) as [E|E]; injection H as <-; unfold removes_frames; simpl.
    + by destruct ev.
    + apply orb_true_iff. right. apply negb_true_iff, bool_decide_eq_false. intros Hd.
      assert (chunks = []) as ->.
      { destruct chunks as [|[[? ?] []] ?]; [done| |]; simpl in Hd; destruct (ev - v)%nat; done. }
      inversion Hwid; subst. simpl in Hev. lia.
Qed.

(** ** Properties of a plan *)

(** C18: Every plan the sliding-window planner makes is sound: its surviving spans are ordered,
    disjoint and inside the old records, each new record is either an old record or a virtual
    frame that summarises exactly one full uniform chunk of raw records, and it never evicts
    more virtual frames than there are. *)
Theorem plan_frame_window_sound config records plan :
  wf_config config →
  plan_frame_window records config = Ok (Some plan) →
  ∃ spans, covered_spans records plan = Ok spans ∧
    ordered_spans 0 spans (length records) ∧
    Forall2 (describes (Z.to_nat (w_pool_ratio config)) records)
      spans (p_new_records plan) ∧
    (p_evicted_virtual_count plan ≤ count_pooled records)%nat.
Proof. apply plan_sound. Qed.

(** Planning is settled after one round: the records a plan leaves behind need no further
    round under the same thresholds. *)
Theorem plan_frame_window_idempotent config records plan :
  wf_config config →
  plan_frame_window records config = Ok (Some plan) →
  plan_frame_window (p_new_records plan) config = Ok None.
Proof.
  intros Hcfg H. unfold plan_frame_window in H.
  destruct (negb _ || _); [done|].
  destruct (existsb _ _) eqn:Hex; simpl in H; [done|].
  destruct (virtual_region records Hex) as (_ & Hvs & Hraw).
  destruct (age_raws _ _) as [[pc chunks] produced] eqn:Hage.
  destruct (age_raws_spec _ _ _ _ _ _ Hcfg (prefix_len_le _ _) Hraw Hage)
    as (_ & _ & _ & _ & _ & Hprod).
  destruct (_ && _); [done|].
  assert (p_new_records plan =
    drop (evict_virtuals config (take (prefix_len fr_pooled records) records ++ produced))
      (take (prefix_len fr_pooled records) records ++ produced) ++
    drop pc (drop (prefix_len fr_pooled records) records)) as ->.
  { destruct (_ =? 0)%nat; by simplify_eq. }
  apply plan_frame_window_settled.
  - apply Forall_drop. by apply Forall_app.
  - by apply Forall_drop.
  - apply evict_virtuals_settled.
  - by eapply age_raws_settled.
Qed.

(** The remap of a prefix count: the surviving spans that start before it. *)
Lemma visible_count_remap_Ok n spans K :
  visible_count_remap n spans = Ok K → length K = S n ∧ ∀ c, (c ≤ n)%nat → K !! c = Some (started c spans).
Proof.
  intros H. assert (ordered_spans 0 spans n) as Ho.
  { unfold visible_count_remap in H. apply bind_Ok in H as ([[c' p'] r] & H & _).
    eapply remap_loop_Ok; [|lia|exact H]. rewrite length_replicate. lia. }
  destruct (remap_spec n spans 0 0 (replicate (n + 1) 0%nat) Ho)
    as (c' & p' & r & K' & E & EK & LK & HK); [rewrite length_replicate; lia|].
  unfold visible_count_remap in H. rewrite E in H. simpl in H. rewrite EK in H. injection H as <-.
  split; [done|]. intros c Hc. rewrite HK. rewrite decide_False by lia. by rewrite decide_True.
Qed.

(** The visibility remap is defined exactly for ordered spans, and maps a prefix count [c]
    to the number of surviving spans that start before [c]. *)
Theorem visible_count_remap_correct n spans :
  (is_ok (visible_count_remap n spans) = true ↔ ordered_spans 0 spans n) ∧
  ∀ K, visible_count_remap n spans = Ok K →
    length K = S n ∧
    ∀ c k, K !! c = Some k →
      ∀ j s e, spans !! j = Some (s, e) → (j < k ↔ s < c)%nat.
Proof.
  assert (∀ K, visible_count_remap n spans = Ok K → ordered_spans 0 spans n) as Hok.
  { intros K H. unfold visible_count_remap in H.
    apply bind_Ok in H as ([[c' p'] r] & H & _).
    eapply remap_loop_Ok; [|lia|exact H]. rewrite length_replicate. lia. }
  assert (ordered_spans 0 spans n → ∃ K, visible_count_remap n spans = Ok K ∧
    length K = S n ∧ ∀ c, K !! c = if decide (c ≤ n)%nat
                                   then Some (started c spans) else None) as Hspec.
  { intros Ho. destruct (remap_spec n spans 0 0 (replicate (n + 1) 0%nat) Ho)
      as (c' & p' & r & K & E & EK & LK & HK); [rewrite length_replicate; lia|].
    exists K. unfold visible_count_remap. rewrite E. split_and!; [done..|].
    intros c. by rewrite HK. }
  split.
  - split; [|by intros (K & -> & _)%Hspec].
    destruct (visible_count_remap n spans) as [K|] eqn:E; [|done]. intros _. by eapply Hok.
  - intros K H. pose proof (Hok K H) as Ho.
    destruct (Hspec Ho) as (K' & E & HL & HK). rewrite H in E. simplify_eq.
    split; [done|]. intros c k Hk j s e Hj. rewrite HK in Hk. case_decide; [|done].
    simplify_eq. by eapply started_lookup.
Qed.


(** The newest raw frame survives every round. *)
Theorem plan_keeps_newest_frame config records plan r :
  wf_config config →
  plan_frame_window records config = Ok (Some plan) →
  last records = Some r → fr_pooled r = false → f_finite (fr_timestamp r) = true →
  last (p_new_records plan) = Some r.
Proof.
  intros Hcfg H Hlast Hr Hf. unfold plan_frame_window in H.
  destruct (negb _ || _); [done|].
  destruct (existsb _ _) eqn:Hex; simpl in H; [done|].
  destruct (virtual_region records Hex) as (_ & Hvs & _).
  destruct (age_raws _ _) as [[pc chunks] produced] eqn:Hage.
  destruct (age_raws_count _ _ _ _ _ Hcfg Hage) as [Hpc _].
  set (v := prefix_len fr_pooled records) in *.
  assert (last (drop v records) = Some r) as Hl.
  { rewrite <- (take_drop v records), last_app in Hlast.
    destruct (last (drop v records)) eqn:E; [done|].
    exfalso. apply last_Some_elem_of in Hlast. rewrite Forall_forall in Hvs.
    rewrite (Hvs r Hlast) in Hr. done. }
  assert (pc < length (drop v records))%nat as Hlt.
  { unfold aged_raw in Hpc. rewrite Hl in Hpc.
    eapply Nat.le_lt_trans; [exact Hpc|].
    destruct (Nat.lt_ge_cases (prefix_len (trails (fr_timestamp r) (w_raw_window_s config))
      (drop v records)) (length (drop v records))) as [|Hge]; [done|].
    pose proof (prefix_len_Forall (trails (fr_timestamp r) (w_raw_window_s config))
      (drop v records)) as HF. rewrite take_ge, Forall_forall in HF by done.
    apply last_Some_elem_of in Hl. specialize (HF r Hl). unfold trails in HF.
    rewrite f_sub_self, f_lt_zero in HF by (done || apply Hcfg). done. }
  destruct (_ && _); [done|].
  assert (last (drop pc (drop v records)) = Some r) as Hd by (by rewrite last_drop_lt).
  destruct (_ =? 0)%nat; simplify_eq; simpl; by rewrite last_app, Hd.
Qed.

(** ** Witnesses *)

Definition demo_record (t : Z) : FrameRecord :=
  {| fr_timestamp := f_of_Z t; fr_grid_h := 2; fr_grid_w := 2; fr_slots := 2;
     fr_pooled := false; fr_pooled_sources := 1 |}.
Definition demo_records : list FrameRecord := [demo_record 0; demo_record 10; demo_record 70].

Definition demo_config : WindowConfig :=
  {| w_enabled := true; w_raw_window_s := f_of_Z 60; w_pool_window_s := f_of_Z 240;
     w_pool_ratio := 4; w_pooling_enabled := false |}.

Definition demo_plan : WindowPlan :=
  {| p_evicted_virtual_count := 0; p_raw_chunks := [(0%nat, 1%nat, false)];
     p_new_records := [demo_record 10; demo_record 70] |}.

Lemma demo_planned : plan_frame_window demo_records demo_config = Ok (Some demo_plan).
Proof. vm_compute. reflexivity. Qed.

Lemma demo_config_wf : wf_config demo_config.
Proof. vm_compute. repeat split; discriminate. Qed.

Lemma plan_frame_window_sound_witness :
  ∃ spans, covered_spans demo_records demo_plan = Ok spans ∧ spans = [(1, 2); (2, 3)]%nat.
Proof.
  destruct (plan_frame_window_sound demo_config demo_records demo_plan demo_config_wf demo_planned)
    as (spans & H & _).
  exists spans. split; [exact H|]. vm_compute in H. by injection H as <-.
Defined.

Lemma plan_frame_window_idempotent_witness :
  plan_frame_window [demo_record 10; demo_record 70] demo_config = Ok None.
Proof.
  exact (plan_frame_window_idempotent demo_config demo_records demo_plan demo_config_wf demo_planned).
Defined.

Lemma plan_keeps_newest_frame_witness : last (p_new_records demo_plan) = Some (demo_record 70).
Proof.
  exact (plan_keeps_newest_frame demo_config demo_records demo_plan (demo_record 70)
    demo_config_wf demo_planned eq_refl eq_refl eq_refl).
Defined.
