(* ===== verification/RuntimeState.v ===== *)
(** * Scheduler-owned runtime state and KV-append transactions

    Models [src/sglang_omni/models/moss_vl_realtime/runtime_state.py].  A
    transaction object shares the request's state and the page table with its
    creator; here its operations run on the pair of the transaction and the
    [World] they share.  The allocator behind [release_slots] is a parameter. *)
From S2P Require Import Prelude PyNum Payload Accounting Visibility KVLayout FramePlan.
Local Open Scope Z_scope.

Inductive Phase : Type :=
| WAITING_FOR_EVENT
| EXTENDING
| DECODING
| FINISHED
| ABORTED.

#[global] Instance Phase_eq_dec : EqDecision Phase.
Proof. solve_decision. Defined.

Record RuntimeState : Type := {
  r_request_id : string;
  r_session_id : string;
  r_req_pool_index : option Z;
  r_encoder_length : Z;
  r_decoder_length : Z;
  r_surviving_frame_count : Z;
  r_next_mrope_position : Z;
  r_turn_id : Z;
  r_max_tokens_per_turn : pyfloat;
  r_decode_allowance : option Z;
  r_context_limit : option Z;
  r_next_decode_not_before : pyfloat;
  r_pending_token_id : option Z;
  (** the three rows of the [3 x n] position tensor *)
  r_mrope_positions : option (list Z * list Z * list Z);
  r_visible_frame_counts : option (list Z);
  r_full_grid_thw : option (list (Z * Z * Z));
  r_frame_records : option (list FrameRecord);
  r_evicted_frame_count : Z;
  r_appended_encoder_length : option Z;
  r_phase : Phase;
  r_append_inflight : bool;
  r_accounting : option RealtimeAccounting
}.

#[global] Instance eta_RuntimeState : Eta RuntimeState := fun r =>
  {| r_request_id := r_request_id r; r_session_id := r_session_id r;
     r_req_pool_index := r_req_pool_index r; r_encoder_length :=
     r_encoder_length r; r_decoder_length := r_decoder_length r;
     r_surviving_frame_count := r_surviving_frame_count r;
     r_next_mrope_position := r_next_mrope_position r; r_turn_id :=
     r_turn_id r; r_max_tokens_per_turn := r_max_tokens_per_turn r;
     r_decode_allowance := r_decode_allowance r; r_context_limit :=
     r_context_limit r; r_next_decode_not_before := r_next_decode_not_before
     r; r_pending_token_id := r_pending_token_id r; r_mrope_positions :=
     r_mrope_positions r; r_visible_frame_counts := r_visible_frame_counts
     r; r_full_grid_thw := r_full_grid_thw r; r_frame_records :=
     r_frame_records r; r_evicted_frame_count := r_evicted_frame_count r;
     r_appended_encoder_length := r_appended_encoder_length r; r_phase :=
     r_phase r; r_append_inflight := r_append_inflight r; r_accounting :=
     r_accounting r |}.


(** ** Construction *)

Definition check_natural (name : string) (v : pyval) : result Z :=
  match v with
  | VNum (NInt z) =>
      if z <? 0 then Raise (ValueError (name +:+ " must be a non-negative integer")) else Ok z
  | _ => Raise (ValueError (name +:+ " must be a non-negative integer"))
  end.

Definition check_optional (name : string) (bad : Z → bool) (v : pyval) : result (option Z) :=
  match v with
  | VNone => Ok None
  | VNum (NInt z) => if bad z then Raise (ValueError name) else Ok (Some z)
  | _ => Raise (ValueError name)
  end.

Definition check_finite (name : string) (bad : num → bool) (v : pyval) : result pyfloat :=
  match v with
  | VNum n =>
      finite ← math_isfinite n;
      if negb finite then Raise (ValueError name)
      else if bad n then Raise (ValueError name) else to_float n
  | _ => Raise (ValueError name)
  end.

(** The constructor arguments [__post_init__] validates; the remaining fields
    are plain. *)
Record RuntimeArgs : Type := {
  arg_request_id : string;
  arg_session_id : string;
  arg_req_pool_index : pyval;
  arg_encoder_length : pyval;
  arg_decoder_length : pyval;
  arg_surviving_frame_count : pyval;
  arg_next_mrope_position : pyval;
  arg_turn_id : pyval;
  arg_max_tokens_per_turn : pyval;
  arg_decode_allowance : pyval;
  arg_context_limit : pyval;
  arg_next_decode_not_before : pyval;
  arg_evicted_frame_count : pyval;
  arg_appended_encoder_length : pyval
}.

(** [bind_req_pool_index] as a function on the field. *)
Definition bind_index (current : option Z) (v : pyval) : result Z :=
  match v with
  | VNum (NInt i) =>
      _ ← raise_if (i <? 0) (ValueError "req_pool_index must be non-negative");
      _ ← raise_if (match current with Some j => negb (j =? i) | None => false end)
            (RuntimeError "request KV pool ownership cannot change while live");
      Ok i
  | _ => Raise (TypeError "req_pool_index must be an integer")
  end.

Definition default_max_tokens_per_turn : pyfloat := f_of_Z 86400.

Definition default_args (request_id session_id : string) : RuntimeArgs :=
  {| arg_request_id := request_id; arg_session_id := session_id;
     arg_req_pool_index := VNone; arg_encoder_length := VNum (NInt 0);
     arg_decoder_length := VNum (NInt 0); arg_surviving_frame_count := VNum (NInt 0);
     arg_next_mrope_position := VNum (NInt 0); arg_turn_id := VNum (NInt 0);
     arg_max_tokens_per_turn := VNum (NFloat default_max_tokens_per_turn);
     arg_decode_allowance := VNone; arg_context_limit := VNone;
     arg_next_decode_not_before := VNum (NInt 0);
     arg_evicted_frame_count := VNum (NInt 0); arg_appended_encoder_length := VNone |}.

Definition make_state (a : RuntimeArgs) : result RuntimeState :=
  _ ← raise_if (bool_decide (arg_request_id a = "") || bool_decide (arg_session_id a = ""))
        (ValueError "request_id and session_id must be non-empty");
  enc ← check_natural "encoder_length" (arg_encoder_length a);
  dec ← check_natural "decoder_length" (arg_decoder_length a);
  surviving ← check_natural "surviving_frame_count" (arg_surviving_frame_count a);
  mrope ← check_natural "next_mrope_position" (arg_next_mrope_position a);
  turn ← check_natural "turn_id" (arg_turn_id a);
  evicted ← check_natural "evicted_frame_count" (arg_evicted_frame_count a);
  limit ← check_optional "context_limit must be a positive integer or None"
            (fun z => z <=? 0) (arg_context_limit a);
  allowance ← check_optional "decode_allowance must be a positive integer or None"
            (fun z => z <=? 0) (arg_decode_allowance a);
  index ← match arg_req_pool_index a with
          | VNone => Ok None
          | VNum (NInt i) => j ← bind_index (Some i) (VNum (NInt i)); Ok (Some j)
          | v => j ← bind_index None v; Ok (Some j)
          end;
  tokens ← check_finite "max_tokens_per_turn must be finite and positive"
             (fun n => num_le n (NInt 0)) (arg_max_tokens_per_turn a);
  not_before ← check_finite "next_decode_not_before must be finite and non-negative"
             (fun n => num_lt n (NInt 0)) (arg_next_decode_not_before a);
  appended ← check_optional "appended_encoder_length must be a non-negative integer or None"
             (fun z => z <? 0) (arg_appended_encoder_length a);
  Ok {| r_request_id := arg_request_id a; r_session_id := arg_session_id a;
        r_req_pool_index := index; r_encoder_length := enc; r_decoder_length := dec;
        r_surviving_frame_count := surviving; r_next_mrope_position := mrope;
        r_turn_id := turn; r_max_tokens_per_turn := tokens;
        r_decode_allowance := allowance; r_context_limit := limit;
        r_next_decode_not_before := not_before; r_pending_token_id := None;
        r_mrope_positions := None; r_visible_frame_counts := None;
        r_full_grid_thw := None; r_frame_records := None;
        r_evicted_frame_count := evicted; r_appended_encoder_length := appended;
        r_phase := WAITING_FOR_EVENT; r_append_inflight := false;
        r_accounting := None |}.

(** The state built from the defaults. *)
Definition fresh_state (request_id session_id : string) : RuntimeState :=
  {| r_request_id := request_id; r_session_id := session_id; r_req_pool_index := None;
     r_encoder_length := 0; r_decoder_length := 0; r_surviving_frame_count := 0;
     r_next_mrope_position := 0; r_turn_id := 0;
     r_max_tokens_per_turn := default_max_tokens_per_turn; r_decode_allowance := None;
     r_context_limit := None; r_next_decode_not_before := f_of_Z 0;
     r_pending_token_id := None; r_mrope_positions := None;
     r_visible_frame_counts := None; r_full_grid_thw := None; r_frame_records := None;
     r_evicted_frame_count := 0; r_appended_encoder_length := None;
     r_phase := WAITING_FOR_EVENT; r_append_inflight := false; r_accounting := None |}.

Lemma make_state_default rid sid :
  rid ≠ "" → sid ≠ "" → make_state (default_args rid sid) = Ok (fresh_state rid sid).
Proof.
  intros Hr Hs. unfold make_state. simpl.
  rewrite !bool_decide_eq_false_2 by done. reflexivity.
Qed.

(** ** Methods of the state *)

Definition phase_open (p : Phase) : bool :=
  match p with FINISHED | ABORTED => false | _ => true end.

Definition effective_appended_encoder_length (r : RuntimeState) : Z :=
  match r_appended_encoder_length r with
  | None => r_encoder_length r
  | Some n => n
  end.

Definition bind_req_pool_index (v : pyval) : M RuntimeState unit :=
  r ← get;
  i ← lift (bind_index (r_req_pool_index r) v);
  assign_to r_req_pool_index (Some i).

Definition require_open : M RuntimeState unit :=
  r ← get; guard_raise (negb (phase_open (r_phase r))) (RuntimeError "request is already").

Definition mark_waiting : M RuntimeState unit :=
  _ ← require_open;
  r ← get;
  _ ← guard_raise (r_append_inflight r)
        (RuntimeError "cannot park a request during a KV append");
  assign_to r_phase WAITING_FOR_EVENT.

Definition mark_decoding : M RuntimeState unit :=
  _ ← require_open;
  r ← get;
  _ ← guard_raise (r_append_inflight r)
        (RuntimeError "commit or roll back the KV append first");
  assign_to r_phase DECODING.

Definition finish (aborted : bool) : M RuntimeState unit :=
  r ← get;
  _ ← guard_raise (r_append_inflight r)
        (RuntimeError "cannot finish with an in-flight KV append");
  assign_to r_phase (if aborted then ABORTED else FINISHED).

(** ** KV-append transactions *)

Record Transaction : Type := {
  t_before : KVLayout;
  t_after : KVLayout;
  t_added_frames : Z;
  t_staged_next_mrope_position : Z;
  t_new_slots : list Z;
  t_staged : bool;
  t_closed : bool
}.

#[global] Instance eta_Transaction : Eta Transaction := fun t =>
  {| t_before := t_before t; t_after := t_after t; t_added_frames := t_added_frames t;
     t_staged_next_mrope_position := t_staged_next_mrope_position t;
     t_new_slots := t_new_slots t; t_staged := t_staged t; t_closed := t_closed t |}.

(** [MossVLRealtimeKVAppendTransaction.create]. *)
Definition create (state : RuntimeState) (req_to_token : Table)
    (new_encoder_slots new_decoder_slots : list Z) (added_frames : Z)
    (next_mrope_position : option Z) : result Transaction :=
  _ ← raise_if (added_frames <? 0) (ValueError "added_frames must be non-negative");
  let staged_position := default (r_next_mrope_position state) next_mrope_position in
  _ ← raise_if (staged_position <? r_next_mrope_position state)
        (ValueError "next_mrope_position must be monotonic");
  index ← match r_req_pool_index state with
          | Some i => Ok i
          | None => Raise (AssertionError "")
          end;
  before ← read_req_to_token_layout req_to_token index
             (r_encoder_length state) (r_decoder_length state);
  encoder_layout ← append_encoder new_encoder_slots before;
  after ← append_decoder new_decoder_slots encoder_layout;
  Ok {| t_before := before; t_after := after; t_added_frames := added_frames;
        t_staged_next_mrope_position := staged_position;
        t_new_slots := zdrop (encoder_length before) (encoder_slots encoder_layout)
                       ++ zdrop (decoder_length before) (decoder_slots after);
        t_staged := false; t_closed := false |}.

Section Transactions.
(** The allocator that owns the KV slots, and its [free] as the callback. *)
Context {F : Type} (release_slots : option (list Z → M F unit)).

Record World : Type := { w_state : RuntimeState; w_table : Table; w_pool : F }.

#[global] Instance eta_World : Eta World := fun w =>
  {| w_state := w_state w; w_table := w_table w; w_pool := w_pool w |}.

Definition on_state {A} : M RuntimeState A → M World A := zoom w_state (assign w_state).
Definition on_table {A} : M Table A → M World A := zoom w_table (assign w_table).
Definition on_pool {A} : M F A → M World A := zoom w_pool (assign w_pool).

(** A method of a transaction object. *)
Abbreviation TM := (M (Transaction * World)).
Definition self {A} (m : M Transaction A) : TM A :=
  zoom fst (fun t s => (t, snd s)) m.
Definition world {A} (m : M World A) : TM A :=
  zoom snd (fun w s => (fst s, w)) m.

Definition pool_index : M World Z :=
  w ← get;
  match r_req_pool_index (w_state w) with
  | Some i => mret i
  | None => throw (AssertionError "")
  end.

Definition stage : TM unit :=
  t ← self get;
  _ ← guard_raise (t_closed t || t_staged t)
        (RuntimeError "KV append transaction cannot be staged again");
  index ← world pool_index;
  _ ← world (on_table (write_req_to_token_layout index (t_after t) false));
  _ ← world (on_state (assign_to r_append_inflight true));
  _ ← world (on_state (assign_to r_phase EXTENDING));
  self (assign_to t_staged true).

Definition require_active : TM unit :=
  t ← self get;
  guard_raise (negb (t_staged t) || t_closed t)
    (RuntimeError "KV append transaction is not active").

Definition commit_state (t : Transaction) (r : RuntimeState) : RuntimeState :=
  let appended_baseline := default (encoder_length (t_before t))
                             (r_appended_encoder_length r) in
  r <| r_encoder_length := encoder_length (t_after t) |>
    <| r_decoder_length := decoder_length (t_after t) |>
    <| r_surviving_frame_count := r_surviving_frame_count r + t_added_frames t |>
    <| r_appended_encoder_length :=
         Some (appended_baseline + (encoder_length (t_after t)
                                    - encoder_length (t_before t))) |>
    <| r_next_mrope_position := t_staged_next_mrope_position t |>
    <| r_append_inflight := false |>
    <| r_phase := DECODING |>.

Definition commit_append : TM unit :=
  _ ← require_active;
  t ← self get;
  _ ← world (on_state (modify (commit_state t)));
  self (assign_to t_closed true).

Definition rollback_append : TM unit :=
  _ ← require_active;
  t ← self get;
  index ← world pool_index;
  _ ← world (on_table (write_req_to_token_layout index (t_before t) true));
  try_finally
    (match release_slots with
     | Some release => if bool_decide (t_new_slots t = []) then mret tt
                       else world (on_pool (release (t_new_slots t)))
     | None => mret tt
     end)
    (_ ← world (on_state (assign_to r_append_inflight false));
     _ ← world (on_state (assign_to r_phase WAITING_FOR_EVENT));
     self (assign_to t_closed true)).

(** [with state.begin_kv_append(...) as t: body]. *)
Definition exit_append (failed : bool) : TM unit :=
  t ← self get;
  if t_closed t then mret tt else if failed then rollback_append else commit_append.

Definition with_append {A} (body : TM A) : TM A :=
  _ ← require_active;
  a ← try_except body (fun e => _ ← exit_append true; throw e);
  _ ← exit_append false;
  mret a.

(** Run a method on a fresh object and return the object. *)
Definition on_object (t : Transaction) (m : TM unit) : M World Transaction := fun w =>
  match m (t, w) with
  | (Ok _, (t', w')) => (Ok t', w')
  | (Raise e, (_, w')) => (Raise e, w')
  end.

Definition begin_kv_append (new_encoder_slots new_decoder_slots : list Z)
    (added_frames : Z) (next_mrope_position : option Z) : M World Transaction :=
  _ ← on_state require_open;
  w ← get;
  _ ← guard_raise (bool_decide (r_req_pool_index (w_state w) = None))
        (RuntimeError "bind req_pool_index before appending KV");
  _ ← guard_raise (r_append_inflight (w_state w))
        (RuntimeError "another KV append is already in flight");
  t ← lift (create (w_state w) (w_table w) new_encoder_slots new_decoder_slots
              added_frames next_mrope_position);
  on_object t stage.
End Transactions.

Arguments World F : clear implicits.
Arguments Build_World {F}.
Arguments w_state {F}.
Arguments w_table {F}.
Arguments w_pool {F}.

(** ** What [create] and [begin_kv_append] do *)

Lemma create_Ok st tb enc dec added next t :
  create st tb enc dec added next = Ok t ↔
  ∃ i before,
    r_req_pool_index st = Some i ∧
    read_req_to_token_layout tb i (r_encoder_length st) (r_decoder_length st) = Ok before ∧
    0 ≤ added ∧ r_next_mrope_position st ≤ default (r_next_mrope_position st) next ∧
    wf_layout (t_after t) ∧
    t = {| t_before := before;
           t_after := {| encoder_slots := encoder_slots before ++ enc;
                         decoder_slots := decoder_slots before ++ dec |};
           t_added_frames := added;
           t_staged_next_mrope_position := default (r_next_mrope_position st) next;
           t_new_slots := enc ++ dec; t_staged := false; t_closed := false |}.
Proof.
  unfold create. split.
  - intros H. inv_ok. destruct (r_req_pool_index st) as [i|]; [|done]. inv_ok.
    match goal with
    | He : append_encoder _ _ = _, Hd : append_decoder _ _ = _ |- _ =>
        apply append_encoder_Ok in He as [-> _]; apply append_decoder_Ok in Hd as [-> Hwf]
    end.
    simpl in *. unfold encoder_length, decoder_length. rewrite !zdrop_app.
    eexists _, _. split_and!; try done.
  - intros (i & before & Hi & Hb & Ha & Hn & Hwf & Ht).
    rewrite (proj2 (Z.ltb_ge _ _) Ha), (proj2 (Z.ltb_ge _ _) Hn), Hi. simpl.
    rewrite Hb. simpl.
    subst t. simpl in Hwf.
    pose proof (append_encoder_Ok enc before
      {| encoder_slots := encoder_slots before ++ enc; decoder_slots := decoder_slots before |})
      as [_ He]. rewrite He; clear He.
    2: { split; [done|]. destruct Hwf as [Hp Hd]. unfold as_tuple in *. simpl in *.
         rewrite app_assoc in Hp, Hd. split; [by apply Forall_app in Hp as [? _]|].
         by apply NoDup_app in Hd as [? _]. }
    simpl. pose proof (append_decoder_Ok dec
      {| encoder_slots := encoder_slots before ++ enc; decoder_slots := decoder_slots before |}
      {| encoder_slots := encoder_slots before ++ enc;
         decoder_slots := decoder_slots before ++ dec |}) as [_ Hd].
    rewrite Hd by done. simpl. unfold encoder_length, decoder_length. by rewrite !zdrop_app.
Qed.

(** Evaluate a method that works on the parts of the world. *)
Ltac wrun := unfold self, world, on_state, on_table, on_pool, zoom; mrun.

Section Lemmas.
Context {F : Type} (release_slots : option (list Z → M F unit)).

Lemma stage_Ok t (w : World F) u t' w' :
  stage (t, w) = (Ok u, (t', w')) ↔
  t_closed t = false ∧ t_staged t = false ∧
  (∃ i, r_req_pool_index (w_state w) = Some i ∧
    write_req_to_token_layout i (t_after t) false (w_table w) = (Ok tt, w_table w')) ∧
  t' = t <| t_staged := true |> ∧ w_pool w' = w_pool w ∧
  w_state w' = w_state w <| r_append_inflight := true |> <| r_phase := EXTENDING |>.
Proof.
  destruct w as [st tb pl], w' as [st' tb' pl'], u. unfold stage, pool_index. wrun.
  destruct (t_closed t); simpl; [naive_solver|].
  destruct (t_staged t); simpl; [naive_solver|].
  destruct (r_req_pool_index st) as [i|]; simpl; [|naive_solver].
  destruct (write_req_to_token_layout i (t_after t) false tb) as [[[]|e] tb1] eqn:E; simpl.
  - split.
    + intros [= <- <- <- <-]. eauto 10.
    + intros (_ & _ & (? & [= <-] & E') & -> & -> & ->). rewrite E in E'. by simplify_eq.
  - split; [done|]. intros (_ & _ & (? & [= <-] & E') & _). congruence.
Qed.

Lemma stage_Raise t (w : World F) e t' w' :
  stage (t, w) = (Raise e, (t', w')) → w' = w ∧ t' = t.
Proof.
  destruct w as [st tb pl], w' as [st' tb' pl']. unfold stage, pool_index. wrun.
  destruct (t_closed t || t_staged t); simpl; [naive_solver|].
  destruct (r_req_pool_index st) as [i|]; simpl; [|naive_solver].
  unfold write_req_to_token_layout. mrun.
  destruct (validate_row_arguments _ _ _); simpl; naive_solver.
Qed.

(** A successful [begin_kv_append]. *)
Definition began (enc dec : list Z) (added : Z) (next : option Z) (w : World F)
    (t : Transaction) (w' : World F) : Prop :=
  phase_open (r_phase (w_state w)) = true ∧ r_append_inflight (w_state w) = false ∧
  (∃ t0, create (w_state w) (w_table w) enc dec added next = Ok t0 ∧
     t = t0 <| t_staged := true |>) ∧
  (∃ i, r_req_pool_index (w_state w) = Some i ∧
    write_req_to_token_layout i (t_after t) false (w_table w) = (Ok tt, w_table w')) ∧
  w_pool w' = w_pool w ∧
  w_state w' = w_state w <| r_append_inflight := true |> <| r_phase := EXTENDING |>.

Lemma begin_Ok enc dec added next (w : World F) t w' :
  begin_kv_append enc dec added next w = (Ok t, w') → began enc dec added next w t w'.
Proof.
  destruct w as [st tb pl], w' as [st' tb' pl']. unfold begin_kv_append, require_open, on_object.
  wrun. destruct (phase_open (r_phase st)) eqn:Hp; simpl; [|done].
  destruct (bool_decide _); simpl; [done|].
  destruct (r_append_inflight st) eqn:Hi; simpl; [done|].
  destruct (create st tb enc dec added next) as [t0|] eqn:Hc; simpl; [|done].
  assert (t_closed t0 = false ∧ t_staged t0 = false) as [Hcl Hst].
  { apply create_Ok in Hc as (? & ? & _ & _ & _ & _ & _ & ->). done. }
  destruct (stage _) as [[[]|] [t1 w1]] eqn:E; [|done]. intros [= <- ->].
  apply stage_Ok in E as (_ & _ & (i & Hri & Hw) & -> & Hpl & Hs).
  split_and!; [done|done|by exists t0|by exists i|done|exact Hs].
Qed.

Lemma begin_Raise enc dec added next (w : World F) e w' :
  begin_kv_append enc dec added next w = (Raise e, w') → w' = w.
Proof.
  destruct w as [st tb pl], w' as [st' tb' pl']. unfold begin_kv_append, require_open, on_object.
  wrun. destruct (phase_open (r_phase st)); simpl; [|by intros [= _ <- <- <-]].
  destruct (bool_decide _); simpl; [by intros [= _ <- <- <-]|].
  destruct (r_append_inflight st); simpl; [by intros [= _ <- <- <-]|].
  destruct (create st tb enc dec added next) as [t0|]; simpl; [|by intros [= _ <- <- <-]].
  destruct (stage _) as [[[]|] [t1 w1]] eqn:E; [done|]. intros [= <- ->].
  by apply stage_Raise in E as [-> _].
Qed.

(** The transaction a [begin_kv_append] returns, in terms of the row. *)
Lemma began_layout enc dec added next w t w' :
  began enc dec added next w t w' →
  ∃ i before, r_req_pool_index (w_state w) = Some i ∧
    read_req_to_token_layout (w_table w) i (r_encoder_length (w_state w))
      (r_decoder_length (w_state w)) = Ok before ∧
    t_before t = before ∧
    t_after t = {| encoder_slots := encoder_slots before ++ enc;
                   decoder_slots := decoder_slots before ++ dec |} ∧
    wf_layout (t_after t) ∧ wf_layout before ∧
    t_new_slots t = enc ++ dec ∧ t_staged t = true ∧ t_closed t = false ∧
    t_added_frames t = added ∧ 0 ≤ added ∧
    t_staged_next_mrope_position t = default (r_next_mrope_position (w_state w)) next ∧
    r_next_mrope_position (w_state w) ≤ t_staged_next_mrope_position t ∧
    write_req_to_token_layout i (t_after t) false (w_table w) = (Ok tt, w_table w').
Proof.
  intros (_ & _ & (t0 & Hc & ->) & (i & Hi & Hw) & _).
  apply create_Ok in Hc as (i' & before & Hi' & Hb & Ha & Hn & Hwf & ->).
  rewrite Hi in Hi'. injection Hi' as <-. exists i, before. fields.
  split_and!; try done.
  unfold read_req_to_token_layout in Hb. inv_ok.
  by apply make_layout_Ok in Hb as [-> ?].
Qed.

Lemma read_lengths tb i e d l :
  read_req_to_token_layout tb i e d = Ok l → rectangular tb →
  encoder_length l = e ∧ decoder_length l = d ∧
  0 ≤ i < zlength tb ∧ e + d ≤ row_width tb ∧ 0 ≤ e ∧ 0 ≤ d.
Proof.
  intros H Hr. unfold read_req_to_token_layout in H. inv_ok.
  match goal with Hv : validate_row_arguments _ _ _ = _ |- _ =>
    apply validate_Ok in Hv as [Hi Hw] end.
  apply make_layout_Ok in H as [-> _].
  pose proof (row_at_width tb i Hr Hi) as Hz.
  unfold encoder_length, decoder_length, zslice. simpl.
  rewrite zlength_zdrop, !zlength_ztake; rewrite ?zlength_ztake; lia.
Qed.

Lemma commit_Ok t (w : World F) u t' w' :
  commit_append (t, w) = (Ok u, (t', w')) ↔
  t_staged t = true ∧ t_closed t = false ∧ t' = t <| t_closed := true |> ∧
  w' = w <| w_state := commit_state t (w_state w) |>.
Proof.
  destruct w as [st tb pl], u. unfold commit_append, require_active. wrun.
  destruct (t_staged t), (t_closed t); simpl; naive_solver.
Qed.

Lemma commit_active t (w : World F) :
  t_staged t = true → t_closed t = false →
  commit_append (t, w) =
  (Ok tt, (t <| t_closed := true |>, w <| w_state := commit_state t (w_state w) |>)).
Proof. intros. by apply commit_Ok. Qed.

(** The release callback, applied to the new slots if there are any. *)
Definition release_new (t : Transaction) : M F unit :=
  match release_slots with
  | Some release => if bool_decide (t_new_slots t = []) then mret tt
                    else release (t_new_slots t)
  | None => mret tt
  end.

(** [rollback] always restores the row and closes the transaction; an exception
    of the callback is raised after that. *)
Lemma rollback_active t (w : World F) i tb' :
  t_staged t = true → t_closed t = false → r_req_pool_index (w_state w) = Some i →
  write_req_to_token_layout i (t_before t) true (w_table w) = (Ok tt, tb') →
  rollback_append release_slots (t, w) =
  let '(r, pool) := release_new t (w_pool w) in
  (r, (t <| t_closed := true |>,
       {| w_state := w_state w <| r_append_inflight := false |>
                               <| r_phase := WAITING_FOR_EVENT |>;
          w_table := tb'; w_pool := pool |})).
Proof.
  destruct w as [st tb pl]. intros Hst Hcl Hi Hw. simpl in *.
  unfold rollback_append, require_active, pool_index, try_finally, release_new. wrun.
  rewrite Hst, Hcl, Hi. simpl. rewrite Hw. simpl.
  destruct release_slots as [release|]; [|done].
  destruct (bool_decide _); simpl; [done|].
  by destruct (release (t_new_slots t) pl) as [[] pl'].
Qed.

Lemma write_layout_fits i l b tb :
  0 ≤ i < zlength tb → total_length l ≤ row_width tb →
  write_req_to_token_layout i l b tb =
  (Ok tt, <[Z.to_nat i := write_row (as_tuple l) b (row_at tb i)]> tb).
Proof. intros. by apply write_layout_Ok. Qed.

(** The row a rollback leaves: the old layout, then cleared cells. *)
Lemma rollback_write enc dec added next w t w1 i :
  rectangular (w_table w) → began enc dec added next w t w1 →
  r_req_pool_index (w_state w) = Some i →
  ∃ tb', write_req_to_token_layout i (t_before t) true (w_table w1) = (Ok tt, tb') ∧
    read_req_to_token_layout tb' i (r_encoder_length (w_state w))
      (r_decoder_length (w_state w)) = Ok (t_before t) ∧
    rectangular tb' ∧ zlength tb' = zlength (w_table w) ∧
    row_width tb' = row_width (w_table w) ∧
    ∀ j, 0 ≤ j → j ≠ i → row_at tb' j = row_at (w_table w) j.
Proof.
  intros Ht Hb Hi.
  apply began_layout in Hb as (i' & before & Hi' & Hr & -> & Ha & Hwfa & Hwfb & _ & _ & _
    & _ & _ & _ & _ & Hw).
  rewrite Hi in Hi'. injection Hi' as <-.
  pose proof (read_lengths _ _ _ _ _ Hr Ht) as (He & Hd & Hri & Hfit & _).
  destruct (write_shape _ _ _ _ _ Ht Hw) as (Hz & Hrw & Hrect).
  exists (<[Z.to_nat i := write_row (as_tuple before) true (row_at (w_table w1) i)]> (w_table w1)).
  assert (write_req_to_token_layout i before true (w_table w1) = (Ok tt,
    <[Z.to_nat i := write_row (as_tuple before) true (row_at (w_table w1) i)]> (w_table w1)))
    as Hw2.
  { apply write_layout_fits; [lia|]. unfold total_length. lia. }
  destruct (write_shape _ _ _ _ _ Hrect Hw2) as (Hz2 & Hrw2 & Hrect2).
  split_and!; [done| |done|lia|lia|].
  - rewrite <- He, <- Hd. by apply (write_read _ _ _ _ _ Hrect Hw2).
  - intros j Hj Hne. rewrite (write_other _ _ _ _ _ Hw2 j Hj Hne).
    by apply (write_other _ _ _ _ _ Hw j).
Qed.

End Lemmas.

(** ** Transactions as seen by their caller *)

Section TransactionTheorems.
Context {F : Type}.

(** C22: Beginning a KV append and rolling it back restores the committed layout of the
    request's row, leaves every other row alone, changes only the phase of the state, closes the
    transaction, and hands exactly the new slots to the release callback. *)
Theorem kv_append_rollback_restores release enc dec added next (w w1 : World F) t :
  rectangular (w_table w) →
  begin_kv_append enc dec added next w = (Ok t, w1) →
  ∃ i w2 r, r_req_pool_index (w_state w) = Some i ∧
    rollback_append release (t, w1) = (r, (t <| t_closed := true |>, w2)) ∧
    read_req_to_token_layout (w_table w2) i (r_encoder_length (w_state w))
      (r_decoder_length (w_state w)) =
    read_req_to_token_layout (w_table w) i (r_encoder_length (w_state w))
      (r_decoder_length (w_state w)) ∧
    (∀ j, 0 ≤ j → j ≠ i → row_at (w_table w2) j = row_at (w_table w) j) ∧
    w_state w2 = w_state w <| r_phase := WAITING_FOR_EVENT |> ∧
    (r, w_pool w2) =
      match release with
      | Some f => if decide (enc ++ dec = []) then (Ok tt, w_pool w)
                  else f (enc ++ dec) (w_pool w)
      | None => (Ok tt, w_pool w)
      end.
Proof.
  intros Ht Hb%begin_Ok. pose proof Hb as (_ & Hfl & _ & _ & Hpl & Hst).
  pose proof (began_layout _ _ _ _ _ _ _ Hb) as (i & before & Hi & Hr & Hbe & _ & _ & _
    & Hn & Hsg & Hcl & _).
  destruct (rollback_write _ _ _ _ _ _ _ _ Ht Hb Hi) as (tb' & Hw & Hrd & _ & _ & _ & Ho).
  assert (r_req_pool_index (w_state w1) = Some i) as Hi1 by by rewrite Hst.
  rewrite (rollback_active release t w1 i tb' Hsg Hcl Hi1 Hw), Hst.
  assert (release_new release t (w_pool w1) =
    match release with
    | Some f => if decide (enc ++ dec = []) then (Ok tt, w_pool w)
                else f (enc ++ dec) (w_pool w)
    | None => (Ok tt, w_pool w)
    end) as Er.
  { unfold release_new. rewrite Hn, Hpl. destruct release; [|done].
    by destruct (decide _), (bool_decide_reflect (enc ++ dec = [])). }
  destruct (release_new release t (w_pool w1)) as [r pool].
  eexists i, _, r. split_and!; [done|reflexivity|simpl; congruence|exact Ho| |exact Er].
  simpl. destruct (w_state w). fields. by subst.
Qed.

(** C23: Beginning a KV append and committing it makes the row read back as the old encoder
    slots followed by the new ones and the old decoder slots followed by the new ones, moves all
    lengths by exactly the appended amounts, never moves the position cursor backwards and
    leaves every other row and the allocator alone. *)
Theorem kv_append_commit_installs enc dec added next (w w1 : World F) t :
  rectangular (w_table w) →
  begin_kv_append enc dec added next w = (Ok t, w1) →
  ∃ i old w2, r_req_pool_index (w_state w) = Some i ∧
    read_req_to_token_layout (w_table w) i (r_encoder_length (w_state w))
      (r_decoder_length (w_state w)) = Ok old ∧
    commit_append (t, w1) = (Ok tt, (t <| t_closed := true |>, w2)) ∧
    read_req_to_token_layout (w_table w2) i (r_encoder_length (w_state w2))
      (r_decoder_length (w_state w2)) =
      Ok {| encoder_slots := encoder_slots old ++ enc;
            decoder_slots := decoder_slots old ++ dec |} ∧
    (∀ j, 0 ≤ j → j ≠ i → row_at (w_table w2) j = row_at (w_table w) j) ∧
    r_encoder_length (w_state w2) = r_encoder_length (w_state w) + zlength enc ∧
    r_decoder_length (w_state w2) = r_decoder_length (w_state w) + zlength dec ∧
    effective_appended_encoder_length (w_state w2) =
      effective_appended_encoder_length (w_state w) + zlength enc ∧
    r_surviving_frame_count (w_state w2) = r_surviving_frame_count (w_state w) + added ∧
    r_next_mrope_position (w_state w) ≤ r_next_mrope_position (w_state w2) ∧
    r_phase (w_state w2) = DECODING ∧ r_append_inflight (w_state w2) = false ∧
    w_pool w2 = w_pool w.
Proof.
  intros Ht Hb%begin_Ok. pose proof Hb as (_ & _ & _ & _ & Hpl & Hst).
  pose proof (began_layout _ _ _ _ _ _ _ Hb) as (i & before & Hi & Hr & Hbe & Haf & Hwf & _
    & _ & Hsg & Hcl & Had & _ & Hmr & Hle & Hw).
  pose proof (read_lengths _ _ _ _ _ Hr Ht) as (He & Hd & _).
  rewrite (commit_active t w1 Hsg Hcl).
  eexists i, before, _. split_and!; [done|done|reflexivity|..];
    unfold commit_state, effective_appended_encoder_length; fields.
  - rewrite (write_read _ _ _ _ _ Ht Hw Hwf). by rewrite Haf.
  - intros j Hj Hne. by apply (write_other _ _ _ _ _ Hw).
  - rewrite Haf, <- He. unfold encoder_length. simpl. by rewrite zlength_app.
  - rewrite Haf, <- Hd. unfold decoder_length. simpl. by rewrite zlength_app.
  - rewrite Hst, Haf, Hbe, <- He. simpl. unfold encoder_length. simpl. rewrite zlength_app.
    destruct (r_appended_encoder_length (w_state w)); simpl; lia.
  - by rewrite Hst, Had.
  - done.
  - done.
  - done.
  - done.
Qed.
End TransactionTheorems.

(** ** Arbitrary sequences of calls *)

(** One live request: its world and every transaction begun on it. *)
Record Request (F : Type) : Type := { q_world : World F; q_txns : list Transaction }.
Arguments Build_Request {F}.
Arguments q_world {F}.
Arguments q_txns {F}.

Inductive Call : Type :=
| CBind (v : pyval)
| CMarkWaiting
| CMarkDecoding
| CFinish (aborted : bool)
| CBegin (enc dec : list Z) (added : Z) (next : option Z)
| CCommit (k : nat)
| CRollback (k : nat).

Definition active (t : Transaction) : bool := t_staged t && negb (t_closed t).

Section Calls.
Context {F : Type} (release_slots : option (list Z → M F unit)).

Definition on_txn (k : nat) (m : M (Transaction * World F) unit) (q : Request F) : Request F :=
  match q_txns q !! k with
  | Some t => let '(_, (t', w')) := m (t, q_world q) in
              {| q_world := w'; q_txns := <[k := t']> (q_txns q) |}
  | None => q
  end.

(** Perform a call; its exception, if any, is caught by the caller. *)
Definition call (c : Call) (q : Request F) : Request F :=
  let quiet (m : M RuntimeState unit) :=
    {| q_world := (on_state m (q_world q)).2; q_txns := q_txns q |} in
  match c with
  | CBind v => quiet (bind_req_pool_index v)
  | CMarkWaiting => quiet mark_waiting
  | CMarkDecoding => quiet mark_decoding
  | CFinish b => quiet (finish b)
  | CBegin enc dec added next =>
      match begin_kv_append enc dec added next (q_world q) with
      | (Ok t, w') => {| q_world := w'; q_txns := q_txns q ++ [t] |}
      | (Raise _, w') => {| q_world := w'; q_txns := q_txns q |}
      end
  | CCommit k => on_txn k commit_append q
  | CRollback k => on_txn k (rollback_append release_slots) q
  end.

Definition calls (cs : list Call) (q : Request F) : Request F :=
  foldl (fun q c => call c q) q cs.

(** The committed part of the row can always be read back. *)
Definition readable (w : World F) : Prop :=
  ∀ i, r_req_pool_index (w_state w) = Some i → 0 ≤ i < zlength (w_table w) →
  ∃ l, read_req_to_token_layout (w_table w) i (r_encoder_length (w_state w))
         (r_decoder_length (w_state w)) = Ok l.

Record consistent (q : Request F) : Prop := {
  c_rectangular : rectangular (w_table (q_world q));
  c_lengths : 0 ≤ r_encoder_length (w_state (q_world q)) ∧
              0 ≤ r_decoder_length (w_state (q_world q)) ∧
              0 ≤ r_surviving_frame_count (w_state (q_world q)) ∧
              r_encoder_length (w_state (q_world q)) ≤
                effective_appended_encoder_length (w_state (q_world q));
  c_unbound : r_req_pool_index (w_state (q_world q)) = None →
              r_encoder_length (w_state (q_world q)) = 0 ∧
              r_decoder_length (w_state (q_world q)) = 0;
  c_extending : r_phase (w_state (q_world q)) = EXTENDING ↔
                r_append_inflight (w_state (q_world q)) = true;
  c_inflight : r_append_inflight (w_state (q_world q)) = true ↔
               ∃ k t, q_txns q !! k = Some t ∧ active t = true;
  c_unique : ∀ j k t u, q_txns q !! j = Some t → q_txns q !! k = Some u →
             active t = true → active u = true → j = k;
  c_active : ∀ k t, q_txns q !! k = Some t → active t = true →
    ∃ w0 enc dec added next, began enc dec added next w0 t (q_world q) ∧
      rectangular (w_table w0) ∧ 0 ≤ r_surviving_frame_count (w_state w0);
  c_readable : r_append_inflight (w_state (q_world q)) = false → readable (q_world q)
}.

Lemma commit_inactive t (w : World F) :
  active t = false →
  commit_append (t, w) = (Raise (RuntimeError "KV append transaction is not active"), (t, w)).
Proof.
  destruct w. unfold active, commit_append, require_active. wrun.
  by destruct (t_staged t), (t_closed t).
Qed.

Lemma rollback_inactive t (w : World F) :
  active t = false →
  rollback_append release_slots (t, w) =
  (Raise (RuntimeError "KV append transaction is not active"), (t, w)).
Proof.
  destruct w. unfold active, rollback_append, require_active. wrun.
  by destruct (t_staged t), (t_closed t).
Qed.

Lemma active_flags t : active t = true ↔ t_staged t = true ∧ t_closed t = false.
Proof. unfold active. rewrite andb_true_iff, negb_true_iff. done. Qed.

(** Calls on the state alone change nothing while an append is in flight. *)
Definition quiet_call (c : Call) : M RuntimeState unit :=
  match c with
  | CBind v => bind_req_pool_index v
  | CMarkWaiting => mark_waiting
  | CMarkDecoding => mark_decoding
  | CFinish b => finish b
  | _ => mret tt
  end.

Lemma quiet_inflight c st :
  r_append_inflight st = true → is_Some (r_req_pool_index st) →
  (quiet_call c st).2 = st.
Proof.
  intros Hf [i Hi]. destruct c as [v| | | | | |]; try done;
    cbn [quiet_call]; unfold bind_req_pool_index, mark_waiting, mark_decoding, finish,
      require_open; mrun.
  - destruct (bind_index _ v) as [j|e] eqn:E; [|done]. simpl.
    unfold bind_index in E. destruct v as [|b|[z|f]|s|]; try done. inv_ok.
    rewrite Hi in *. inv_ok. subst. destruct st; simpl in *. by subst.
  - destruct (negb _); simpl; [done|]. by rewrite Hf.
  - destruct (negb _); simpl; [done|]. by rewrite Hf.
  - by rewrite Hf.
Qed.

(** With no append in flight they touch the phase and the pool index only. *)
Lemma quiet_idle c st :
  r_append_inflight st = false →
  let st' := (quiet_call c st).2 in
  (r_phase st' = r_phase st ∨ r_phase st' ∈ [WAITING_FOR_EVENT; DECODING; FINISHED; ABORTED]) ∧
  (is_Some (r_req_pool_index st) → r_req_pool_index st' = r_req_pool_index st) ∧
  st' = st <| r_req_pool_index := r_req_pool_index st' |> <| r_phase := r_phase st' |>.
Proof.
  intros Hf. destruct c as [v| |  |b| | |]; try (destruct st; naive_solver);
    cbn [quiet_call]; unfold bind_req_pool_index, mark_waiting, mark_decoding, finish,
      require_open; mrun.
  - destruct (bind_index _ v) as [j|e] eqn:E; [|destruct st; naive_solver]. simpl.
    unfold bind_index in E. destruct v as [|b|[z|f]|s|]; try done. inv_ok.
    fields. split_and!; [by left| |by destruct st].
    intros [i Hi]. rewrite Hi in *. inv_ok. by subst.
  - destruct (negb _); simpl; [destruct st; naive_solver|]. rewrite Hf. simpl. fields.
    split_and!; [right; set_solver|done|by destruct st].
  - destruct (negb _); simpl; [destruct st; naive_solver|]. rewrite Hf. simpl. fields.
    split_and!; [right; set_solver|done|by destruct st].
  - rewrite Hf. simpl. fields.
    split_and!; [right; destruct b; set_solver|done|by destruct st].
Qed.
Lemma consistent_idle q k t :
  consistent q → r_append_inflight (w_state (q_world q)) = false →
  q_txns q !! k = Some t → active t = false.
Proof.
  intros Hq Hf Hk. destruct (active t) eqn:E; [|done].
  assert (r_append_inflight (w_state (q_world q)) = true); [|congruence].
  apply (c_inflight _ Hq). by exists k, t.
Qed.

Lemma consistent_inflight q :
  consistent q → r_append_inflight (w_state (q_world q)) = true →
  is_Some (r_req_pool_index (w_state (q_world q))).
Proof.
  intros Hq Hf. apply (c_inflight _ Hq) in Hf as (k & t & Hk & Ht).
  destruct (c_active _ Hq k t Hk Ht) as (w0 & enc & dec & added & next & Hb & _).
  pose proof (began_layout _ _ _ _ _ _ _ Hb) as (i & _ & Hi & _).
  destruct Hb as (_ & _ & _ & _ & _ & Hst). exists i. by rewrite Hst.
Qed.

Lemma quiet_preserves c q :
  consistent q →
  consistent {| q_world := (on_state (quiet_call c) (q_world q)).2; q_txns := q_txns q |}.
Proof.
  intros Hq. destruct q as [[st tb pl] txns]. unfold on_state, zoom. simpl.
  destruct (r_append_inflight st) eqn:Hf.
  - pose proof (consistent_inflight _ Hq Hf) as Hi. simpl in Hi.
    pose proof (quiet_inflight c st Hf Hi) as E.
    destruct (quiet_call c st) as [r st']. simpl in E. subst. exact Hq.
  - pose proof (quiet_idle c st Hf) as (Hp & Hi & Hst). cbv zeta in *.
    destruct (quiet_call c st) as [r st']. simpl in *.
    pose proof (fun k t => consistent_idle _ k t Hq Hf) as Hidle. simpl in Hidle.
    destruct Hq as [Hrect Hlen Hun Hext _ Huniq _ Hread]. simpl in *.
    rewrite Hst. unfold effective_appended_encoder_length in *.
    split; unfold effective_appended_encoder_length; fields; auto.
    + intros Hn. apply Hun. destruct (r_req_pool_index st) eqn:E; [|done].
      rewrite Hi in Hn by done. done.
    + rewrite Hf in *. split; [|done]. intros Hx. rewrite Hx in Hp.
      destruct Hp as [Hp|Hp]; [by apply Hext|set_solver].
    + rewrite Hf. split; [done|]. intros (k & t & Hk & Ha).
      by rewrite (Hidle k t Hk) in Ha.
    + intros k t Hk Ha. by rewrite (Hidle k t Hk) in Ha.
    + intros _ i Hi' Hr. fields. destruct (r_req_pool_index st) as [i0|] eqn:E.
      * rewrite Hi in Hi' by done. simplify_eq. by apply (Hread Hf i).
      * destruct (Hun eq_refl) as [-> ->].
        exists {| encoder_slots := []; decoder_slots := [] |}.
        unfold read_req_to_token_layout.
        rewrite (proj2 (validate_Ok tb i (0 + 0) tt)).
        -- done.
        -- unfold row_width. destruct tb as [|row tb]; [unfold zlength in Hr; simpl in Hr; lia|].
           pose proof (zlength_nonneg row). lia.
Qed.

Lemma begin_preserves enc dec added next q :
  consistent q → consistent (call (CBegin enc dec added next) q).
Proof.
  intros Hq. destruct q as [w txns]. simpl.
  destruct (begin_kv_append enc dec added next w) as [[t|e] w'] eqn:E.
  2: { by apply begin_Raise in E as ->. }
  apply begin_Ok in E. pose proof E as (_ & Hf & _ & _ & Hpl & Hst).
  pose proof (began_layout _ _ _ _ _ _ _ E) as
    (i & before & Hi & _ & _ & _ & _ & _ & _ & Hsg & Hcl & _ & _ & _ & _ & Hw).
  pose proof (fun k t => consistent_idle _ k t Hq Hf) as Hidle. simpl in Hidle.
  assert (active t = true) as Hact by by apply active_flags.
  assert (∀ k u, (txns ++ [t]) !! k = Some u → active u = true →
    k = length txns ∧ u = t) as Hl.
  { intros k u Hk Ha. apply lookup_app_Some in Hk as [Hk|[Hk Hu]].
    - by rewrite (Hidle k u Hk) in Ha.
    - apply list_lookup_singleton_Some in Hu as [? <-]. split; [lia|done]. }
  destruct Hq as [Hrect Hlen Hun Hext _ Huniq _ Hread]. simpl in *.
  unfold effective_appended_encoder_length in *.
  split; unfold effective_appended_encoder_length; simpl; try rewrite !Hst; fields.
  - by destruct (write_shape _ _ _ _ _ Hrect Hw) as (_ & _ & ?).
  - done.
  - done.
  - done.
  - split; [|done]. intros _. exists (length txns), t. split; [|done].
    apply list_lookup_middle. done.
  - intros j k u v Hj Hk Hu Hv. destruct (Hl j u Hj Hu), (Hl k v Hk Hv). congruence.
  - intros k u Hk Hu. destruct (Hl k u Hk Hu) as [_ ->].
    exists w, enc, dec, added, next. split_and!; [done|done|lia].
  - done.
Qed.
(** Closing the one active transaction leaves a consistent request. *)
Lemma close_preserves k t q (w' : World F) :
  consistent q → q_txns q !! k = Some t → active t = true →
  rectangular (w_table w') →
  (0 ≤ r_encoder_length (w_state w') ∧ 0 ≤ r_decoder_length (w_state w') ∧
   0 ≤ r_surviving_frame_count (w_state w') ∧
   r_encoder_length (w_state w') ≤ effective_appended_encoder_length (w_state w')) →
  is_Some (r_req_pool_index (w_state w')) →
  r_phase (w_state w') ≠ EXTENDING → r_append_inflight (w_state w') = false →
  readable w' →
  consistent {| q_world := w'; q_txns := <[k := t <| t_closed := true |>]> (q_txns q) |}.
Proof.
  intros Hq Hk Ht Hrect Hlen [i Hi] Hph Hfl Hread.
  assert (∀ j u, <[k := t <| t_closed := true |>]> (q_txns q) !! j = Some u →
    active u = false) as Hnone.
  { intros j u Hj. destruct (decide (j = k)) as [->|Hne].
    - rewrite list_lookup_insert_eq in Hj by (eapply lookup_lt_Some; exact Hk).
      injection Hj as <-. unfold active. fields. by rewrite andb_false_r.
    - rewrite list_lookup_insert_ne in Hj by done.
      destruct (active u) eqn:Hu; [|done].
      by destruct (c_unique _ Hq j k u t Hj Hk Hu Ht). }
  split; simpl; try done.
  - congruence.
  - split; [done|congruence].
  - split; [congruence|]. intros (j & u & Hj & Hu). by rewrite (Hnone j u Hj) in Hu.
  - intros j j' u u' Hj _ Hu. by rewrite (Hnone j u Hj) in Hu.
  - intros j u Hj Hu. by rewrite (Hnone j u Hj) in Hu.
Qed.

Lemma commit_preserves k t q :
  consistent q → q_txns q !! k = Some t → active t = true →
  consistent {| q_world := q_world q <| w_state := commit_state t (w_state (q_world q)) |>;
                q_txns := <[k := t <| t_closed := true |>]> (q_txns q) |}.
Proof.
  intros Hq Hk Ht. destruct (c_active _ Hq k t Hk Ht) as
    (w0 & enc & dec & added & next & Hb & Hr0 & Hs0).
  pose proof (began_layout _ _ _ _ _ _ _ Hb) as
    (i & before & Hi & Hrd & Hbe & Haf & Hwf & _ & _ & _ & _ & Had & Hadd & _ & _ & Hw).
  destruct Hb as (_ & _ & _ & _ & _ & Hst).
  pose proof (read_lengths _ _ _ _ _ Hrd Hr0) as (He & Hd & _).
  pose proof (c_lengths _ Hq) as (_ & _ & _ & Happ).
  pose proof (zlength_nonneg enc). pose proof (zlength_nonneg (encoder_slots before)).
  apply close_preserves; try done; simpl.
  - apply (c_rectangular _ Hq).
  - unfold effective_appended_encoder_length, commit_state in *. fields.
    rewrite Hst in *. fields. rewrite Haf, Hbe in *. unfold encoder_length, decoder_length in *.
    simpl. rewrite zlength_app.
    pose proof (zlength_nonneg (decoder_slots before ++ dec)).
    destruct (r_appended_encoder_length (w_state w0)); simpl; lia.
  - unfold commit_state. fields. rewrite Hst. fields. by exists i.
  - intros j Hj _. unfold commit_state in *. fields. rewrite Hst in Hj. fields.
    rewrite Hi in Hj. injection Hj as <-. exists (t_after t).
    by apply (write_read _ _ _ _ _ Hr0 Hw).
Qed.

Lemma rollback_preserves k t q :
  consistent q → q_txns q !! k = Some t → active t = true →
  consistent (on_txn k (rollback_append release_slots) q).
Proof.
  intros Hq Hk Ht. destruct (c_active _ Hq k t Hk Ht) as
    (w0 & enc & dec & added & next & Hb & Hr0 & Hs0).
  pose proof (began_layout _ _ _ _ _ _ _ Hb) as (i & _ & Hi & _).
  destruct (rollback_write _ _ _ _ _ _ _ _ Hr0 Hb Hi)
    as (tb' & Hw & Hrd & Hrect & _ & _ & _).
  pose proof (c_lengths _ Hq) as Hlen.
  destruct Hb as (_ & _ & _ & _ & _ & Hst).
  pose proof Ht as [Hsg Hcl]%active_flags.
  unfold on_txn. rewrite Hk.
  rewrite (rollback_active release_slots t (q_world q) i tb' Hsg Hcl) by (done || by rewrite Hst; fields).
  destruct (release_new release_slots t (w_pool (q_world q))) as [r pool].
  unfold effective_appended_encoder_length in Hlen.
  apply close_preserves; simpl; try done;
    unfold effective_appended_encoder_length; fields; try done.
  - rewrite Hst. fields. by exists i.
  - intros j Hj _. fields. rewrite Hst in *. fields. rewrite Hi in Hj. injection Hj as <-.
    by exists (t_before t).
Qed.

Lemma call_preserves c q : consistent q → consistent (call c q).
Proof.
  intros Hq. destruct c as [v| | |b|enc dec added next|k|k].
  1-4: by apply (quiet_preserves (CBind v) q Hq) || apply (quiet_preserves CMarkWaiting q Hq)
    || apply (quiet_preserves CMarkDecoding q Hq) || apply (quiet_preserves (CFinish b) q Hq).
  - by apply begin_preserves.
  - simpl. unfold on_txn. destruct (q_txns q !! k) as [t|] eqn:Hk; [|done].
    destruct (active t) eqn:Ht.
    + pose proof Ht as [Hsg Hcl]%active_flags. rewrite commit_active by done.
      by apply commit_preserves.
    + rewrite commit_inactive by done. rewrite list_insert_id by done. by destruct q.
  - destruct (q_txns q !! k) as [t|] eqn:Hk.
    + destruct (active t) eqn:Ht; [by eapply rollback_preserves|].
      simpl. unfold on_txn. rewrite Hk, rollback_inactive by done.
      rewrite list_insert_id by done. by destruct q.
    + simpl. unfold on_txn. by rewrite Hk.
Qed.

Lemma calls_preserve cs q : consistent q → consistent (calls cs q).
Proof.
  revert q. induction cs as [|c cs IH]; intros q Hq; simpl; [done|].
  by apply IH, call_preserves.
Qed.
(** ** The ledger of a request *)

(** What was committed, from the calls alone: a commit of the open append adds its slots, a
    rollback drops them. *)
Record Ledger : Type := { lg_layout : KVLayout; lg_open : option (nat * (list Z * list Z)) }.

Definition extended (l : KVLayout) (enc dec : list Z) : KVLayout :=
  {| encoder_slots := encoder_slots l ++ enc; decoder_slots := decoder_slots l ++ dec |}.

Definition ledger_call (c : Call) (q : Request F) (l : Ledger) : Ledger :=
  match c, lg_open l with
  | CBegin enc dec added next, None =>
      match (begin_kv_append enc dec added next (q_world q)).1 with
      | Ok _ => {| lg_layout := lg_layout l; lg_open := Some (length (q_txns q), (enc, dec)) |}
      | Raise _ => l
      end
  | CCommit k, Some (k', (enc, dec)) =>
      if (k =? k')%nat then {| lg_layout := extended (lg_layout l) enc dec; lg_open := None |} else l
  | CRollback k, Some (k', _) =>
      if (k =? k')%nat then {| lg_layout := lg_layout l; lg_open := None |} else l
  | _, _ => l
  end.

Fixpoint ledger (cs : list Call) (q : Request F) (l : Ledger) : Ledger :=
  match cs with
  | [] => l
  | c :: cs' => ledger cs' (call c q) (ledger_call c q l)
  end.

(** The row of the request holds what the ledger says, and, while an append is open, its slots
    behind. *)
Record agrees (q : Request F) (l : Ledger) : Prop := {
  ag_lengths : r_encoder_length (w_state (q_world q)) = encoder_length (lg_layout l) ∧
               r_decoder_length (w_state (q_world q)) = decoder_length (lg_layout l);
  ag_open : r_append_inflight (w_state (q_world q)) = true ↔ is_Some (lg_open l);
  ag_row : ∀ i, r_req_pool_index (w_state (q_world q)) = Some i → 0 ≤ i < zlength (w_table (q_world q)) →
    let L := match lg_open l with Some (_, (enc, dec)) => extended (lg_layout l) enc dec | None => lg_layout l end in
    read_req_to_token_layout (w_table (q_world q)) i (encoder_length L) (decoder_length L) = Ok L
}.

(** The open append of the ledger is the active one. *)
Definition open_at (q : Request F) (l : Ledger) : Prop :=
  ∀ k enc dec, lg_open l = Some (k, (enc, dec)) →
    ∃ t w0 added next, q_txns q !! k = Some t ∧ active t = true ∧ began enc dec added next w0 t (q_world q) ∧
      rectangular (w_table w0) ∧ t_before t = lg_layout l.

Lemma quiet_agrees c q l :
  consistent q → agrees q l → open_at q l →
  let q' := {| q_world := (on_state (quiet_call c) (q_world q)).2; q_txns := q_txns q |} in
  agrees q' l ∧ open_at q' l.
Proof.
  intros Hq Ha Hop. cbv zeta. destruct q as [[st tb pl] txns]. unfold on_state, zoom. simpl in *.
  destruct (r_append_inflight st) eqn:Hf.
  - pose proof (quiet_inflight c st Hf (consistent_inflight _ Hq Hf)) as E.
    destruct (quiet_call c st) as [r st']. simpl in E. by subst.
  - pose proof (quiet_idle c st Hf) as (_ & Hi & Hst). cbv zeta in *. destruct (quiet_call c st) as [r st']. simpl in *.
    destruct Ha as [[Hle Hld] Hopen Hrow]. simpl in *.
    assert (lg_open l = None) as Hno.
    { destruct (lg_open l); [|done]. rewrite (proj2 Hopen) in Hf by by eexists. done. }
    rewrite Hno in Hrow. rewrite Hst. split; [|intros k enc dec E; congruence]. constructor; fields; rewrite ?Hno; try done.
    { rewrite Hf. split; [done|by intros [? ?]]. }
    intros i Hi' Hr. destruct (r_req_pool_index st) as [i0|] eqn:Ei.
    { rewrite Hi in Hi' by done. simplify_eq. by apply Hrow. }
    destruct (c_unbound _ Hq Ei) as [He Hd]. simpl in He, Hd. rewrite Hle in He. rewrite Hld in Hd.
    destruct (lg_layout l) as [[|] [|]]; try (unfold encoder_length, decoder_length, zlength in *; simpl in *; lia).
    unfold read_req_to_token_layout, encoder_length, decoder_length. simpl. change (@zlength Z []) with 0. rewrite (proj2 (validate_Ok tb i (0 + 0) tt)); [done|].
    split; [done|]. unfold row_width. destruct tb as [|row tb]; [unfold zlength in Hr; simpl in Hr; lia|].
    pose proof (zlength_nonneg row). lia.
Qed.

Lemma begin_agrees enc dec added next q l :
  consistent q → agrees q l → open_at q l →
  agrees (call (CBegin enc dec added next) q) (ledger_call (CBegin enc dec added next) q l) ∧
  open_at (call (CBegin enc dec added next) q) (ledger_call (CBegin enc dec added next) q l).
Proof.
  intros Hq Ha Hop. destruct q as [w txns]. simpl.
  destruct (begin_kv_append enc dec added next w) as [[t|e] w'] eqn:E.
  2: { apply begin_Raise in E as ->. simpl. by destruct (lg_open l). }
  apply begin_Ok in E. pose proof E as (_ & Hf & _ & _ & _ & Hst).
  pose proof (began_layout _ _ _ _ _ _ _ E) as
    (i & before & Hi & Hrd & Hbe & Haf & Hwf & _ & _ & Hsg & Hcl & _ & _ & _ & _ & Hw).
  destruct Ha as [[Hle Hld] Hopen Hrow]. simpl in *.
  assert (lg_open l = None) as Hno.
    { destruct (lg_open l); [|done]. rewrite (proj2 Hopen) in Hf by by eexists. done. }
  pose proof (c_rectangular _ Hq) as Hrect. simpl in Hrect.
  pose proof (read_lengths _ _ _ _ _ Hrd Hrect) as (_ & _ & Hrange & _).
  assert (before = lg_layout l) as ->.
  { specialize (Hrow i Hi Hrange). rewrite Hno in Hrow. cbv zeta in Hrow. rewrite <- Hle, <- Hld, Hrd in Hrow. by injection Hrow. }
  rewrite Hno. split.
  - constructor; simpl; rewrite ?Hst; fields; try done.
    intros j Hj _. rewrite Hi in Hj. injection Hj as <-. fold (extended (lg_layout l) enc dec) in Haf. rewrite <- Haf.
    by apply (write_read _ _ _ _ _ Hrect Hw).
  - intros k enc' dec' [= <- <- <-]. exists t, w, added, next.
    split_and!; [by apply list_lookup_middle|by apply active_flags|exact E|done|done].
Qed.

Lemma commit_agrees k q l :
  consistent q → agrees q l → open_at q l →
  agrees (call (CCommit k) q) (ledger_call (CCommit k) q l) ∧ open_at (call (CCommit k) q) (ledger_call (CCommit k) q l).
Proof.
  intros Hq Ha Hop. simpl. unfold on_txn. destruct (lg_open l) as [[k' [enc dec]]|] eqn:Eo.
  - destruct (Hop k' enc dec Eo) as (t & w0 & added & next & Hk' & Ht & Hb & Hr0 & Hbe).
    destruct (Nat.eqb_spec k k') as [->|Hne].
    + rewrite Hk'. pose proof Ht as [Hsg Hcl]%active_flags. rewrite commit_active by done. split; [|done].
      pose proof (began_layout _ _ _ _ _ _ _ Hb) as (i & before & Hi & _ & Hbe' & Haf & _).
      destruct Hb as (_ & _ & _ & _ & _ & Hst). rewrite Hbe in Hbe'. subst before.
      fold (extended (lg_layout l) enc dec) in Haf. destruct Ha as [_ _ Hrow]. rewrite Eo in Hrow.
      constructor; simpl; unfold commit_state; fields; [by rewrite Haf|split; [done|by intros [? ?]]|]. exact Hrow.
    + destruct (q_txns q !! k) as [u|] eqn:Hk; [|done].
      destruct (active u) eqn:Hu; [by destruct Hne; eapply (c_unique _ Hq)|].
      rewrite commit_inactive by done. rewrite list_insert_id by done. by destruct q.
  - destruct (q_txns q !! k) as [u|] eqn:Hk; [|done].
    assert (active u = false) as Hu.
    { eapply consistent_idle; [exact Hq| |exact Hk]. destruct (r_append_inflight _) eqn:Ef; [|done].
      destruct (proj1 (ag_open _ _ Ha) Ef); congruence. }
    rewrite commit_inactive by done. rewrite list_insert_id by done. by destruct q.
Qed.

Lemma rollback_agrees k q l :
  consistent q → agrees q l → open_at q l →
  agrees (call (CRollback k) q) (ledger_call (CRollback k) q l) ∧ open_at (call (CRollback k) q) (ledger_call (CRollback k) q l).
Proof.
  intros Hq Ha Hop. simpl. unfold on_txn. destruct (lg_open l) as [[k' [enc dec]]|] eqn:Eo.
  - destruct (Hop k' enc dec Eo) as (t & w0 & added & next & Hk' & Ht & Hb & Hr0 & Hbe).
    destruct (Nat.eqb_spec k k') as [->|Hne].
    + rewrite Hk'. pose proof Ht as [Hsg Hcl]%active_flags.
      pose proof (began_layout _ _ _ _ _ _ _ Hb) as (i & _ & Hi & _).
      destruct (rollback_write _ _ _ _ _ _ _ _ Hr0 Hb Hi) as (tb' & Hw & Hrd & _ & _ & _ & _).
      destruct Hb as (_ & _ & _ & _ & _ & Hst). destruct (ag_lengths _ _ Ha) as [Hle Hld].
      rewrite (rollback_active release_slots t (q_world q) i tb' Hsg Hcl) by (done || by rewrite Hst; fields).
      destruct (release_new release_slots t (w_pool (q_world q))) as [r pool]. split; [|done].
      constructor; simpl; fields; [done|split; [done|by intros [? ?]]|]. intros j Hj _.
      rewrite Hst in Hj, Hle, Hld. fields. rewrite Hi in Hj. injection Hj as <-. by rewrite <- Hle, <- Hld, <- Hbe.
    + destruct (q_txns q !! k) as [u|] eqn:Hk; [|done].
      destruct (active u) eqn:Hu; [by destruct Hne; eapply (c_unique _ Hq)|].
      rewrite rollback_inactive by done. rewrite list_insert_id by done. by destruct q.
  - destruct (q_txns q !! k) as [u|] eqn:Hk; [|done].
    assert (active u = false) as Hu.
    { eapply consistent_idle; [exact Hq| |exact Hk]. destruct (r_append_inflight _) eqn:Ef; [|done].
      destruct (proj1 (ag_open _ _ Ha) Ef); congruence. }
    rewrite rollback_inactive by done. rewrite list_insert_id by done. by destruct q.
Qed.

Lemma calls_agree cs : ∀ q l, consistent q → agrees q l → open_at q l → agrees (calls cs q) (ledger cs q l).
Proof.
  induction cs as [|c cs IH]; intros q l Hq Ha Ho; [done|]. simpl.
  assert (agrees (call c q) (ledger_call c q l) ∧ open_at (call c q) (ledger_call c q l)) as [Ha' Ho'].
  { destruct c as [v| | |b|enc dec added next|k|k].
    1-4: destruct (lg_open l); by apply (quiet_agrees (CBind v)) || apply (quiet_agrees CMarkWaiting)
      || apply (quiet_agrees CMarkDecoding) || apply (quiet_agrees (CFinish b)).
    - by apply begin_agrees.
    - by apply commit_agrees.
    - by apply rollback_agrees. }
  apply IH; [by apply call_preserves|done|done].
Qed.
End Calls.

Section CallTheorems.
Context {F : Type} (release_slots : option (list Z → M F unit)).

Definition new_request (st : RuntimeState) (tb : Table) (pool : F) : Request F :=
  {| q_world := {| w_state := st; w_table := tb; w_pool := pool |}; q_txns := [] |}.

Lemma new_request_consistent rid sid st tb pool :
  rectangular tb → make_state (default_args rid sid) = Ok st →
  consistent (new_request st tb pool).
Proof.
  intros Ht H. unfold make_state, default_args in H. simpl in H. inv_ok.
  split; simpl; try done.
  split; [done|]. by intros (k & t & Hk & _).
Qed.

Definition empty_layout : KVLayout := {| encoder_slots := []; decoder_slots := [] |}.

Lemma new_request_agrees rid sid st tb pool :
  make_state (default_args rid sid) = Ok st → agrees (new_request st tb pool) {| lg_layout := empty_layout; lg_open := None |}.
Proof.
  intros H. unfold make_state, default_args in H. simpl in H. inv_ok.
  constructor; simpl; [done|split; [done|by intros [? ?]]|done].
Qed.

(** C4: From a fresh request, every sequence of calls to the runtime state and its transactions
    (bind, phase changes, begin, commit, rollback, finish, failing or not) keeps it consistent -
    at most one append is active, it is the one the in-flight flag announces, and the lengths
    stay non-negative - and in agreement with a ledger that only records the successful calls:
    the row reads back exactly the slots the committed appends put there, followed by those of
    the open append while there is one, so that a rollback restores the row. *)
Theorem kv_calls_consistent rid sid st tb pool cs :
  rectangular tb → make_state (default_args rid sid) = Ok st →
  let q := new_request st tb pool in
  consistent (calls release_slots cs q) ∧
  agrees (calls release_slots cs q) (ledger release_slots cs q {| lg_layout := empty_layout; lg_open := None |}).
Proof.
  intros Ht Hst. cbv zeta. pose proof (new_request_consistent rid sid st tb pool Ht Hst) as Hq.
  split; [by apply calls_preserve|]. apply calls_agree; [done|by eapply new_request_agrees|done].
Qed.

Definition terminal (p : Phase) : Prop := p = FINISHED ∨ p = ABORTED.

Lemma terminal_call c (q : Request F) :
  consistent q → terminal (r_phase (w_state (q_world q))) →
  terminal (r_phase (w_state (q_world (call release_slots c q)))) ∧
  w_table (q_world (call release_slots c q)) = w_table (q_world q) ∧
  w_pool (q_world (call release_slots c q)) = w_pool (q_world q) ∧
  q_txns (call release_slots c q) = q_txns q.
Proof.
  intros Hq Hterm.
  assert (r_append_inflight (w_state (q_world q)) = false) as Hf.
  { destruct (r_append_inflight _) eqn:E; [|done].
    apply (c_extending _ Hq) in E. destruct Hterm; congruence. }
  assert (phase_open (r_phase (w_state (q_world q))) = false) as Hop
    by (by destruct Hterm as [-> | ->]).
  destruct q as [[st tb pl] txns]. simpl in *.
  destruct c as [v| | |b|enc dec added next|k|k]; simpl.
  - unfold bind_req_pool_index, on_state, zoom. mrun.
    by destruct (bind_index _ v).
  - unfold mark_waiting, require_open, on_state, zoom. mrun. by rewrite Hop.
  - unfold mark_decoding, require_open, on_state, zoom. mrun. by rewrite Hop.
  - unfold finish, on_state, zoom. mrun. rewrite Hf. simpl.
    split_and!; [|done..]. fields. destruct b; [by right|by left].
  - destruct (begin_kv_append _ _ _ _ _) as [[t|e] w'] eqn:E.
    + apply begin_Ok in E as (Hp & _). simpl in Hp. congruence.
    + by apply begin_Raise in E as ->.
  - unfold on_txn. simpl. destruct (txns !! k) as [t|] eqn:Hk; [|done].
    rewrite commit_inactive by (by eapply (consistent_idle _ k t Hq)). simpl.
    by rewrite list_insert_id.
  - unfold on_txn. simpl. destruct (txns !! k) as [t|] eqn:Hk; [|done].
    rewrite rollback_inactive by (by eapply (consistent_idle _ k t Hq)). simpl.
    by rewrite list_insert_id.
Qed.

(** A finished or aborted request stays so under every sequence of calls, and none of them
    touches its row, the allocator or opens a transaction. *)
Theorem terminal_phase_absorbing (q : Request F) cs :
  consistent q → terminal (r_phase (w_state (q_world q))) →
  let q' := calls release_slots cs q in
  terminal (r_phase (w_state (q_world q'))) ∧
  w_table (q_world q') = w_table (q_world q) ∧ w_pool (q_world q') = w_pool (q_world q) ∧
  q_txns q' = q_txns q.
Proof.
  cbv zeta. revert q. induction cs as [|c cs IH]; intros q Hq Ht; simpl; [done|].
  destruct (terminal_call c q Hq Ht) as (Ht' & E1 & E2 & E3).
  destruct (IH (call release_slots c q)) as (? & ? & ? & ?);
    [by apply call_preserves|done|].
  split_and!; [done|congruence..].
Qed.
End CallTheorems.

(** ** Witnesses *)

Definition demo_world : World (list Z) :=
  {| w_state := fresh_state "r" "s" <| r_req_pool_index := Some 1 |>
                  <| r_encoder_length := 2 |> <| r_decoder_length := 1 |>;
     w_table := [[0; 0; 0; 0; 0; 0]; [4; 5; 6; 0; 0; 0]];
     w_pool := [9] |}.

(** An allocator whose [free] returns the slots to a free list. *)
Definition free_list (slots : list Z) : M (list Z) unit := modify (fun l => slots ++ l).

Lemma demo_rectangular : rectangular (w_table demo_world).
Proof.
  intros r Hr. simpl in Hr.
  repeat (apply elem_of_cons in Hr as [->|Hr]; [reflexivity|]). by apply elem_of_nil in Hr.
Defined.

Definition demo_begin : result Transaction * World (list Z) :=
  begin_kv_append [7; 8] [2] 1 (Some 5) demo_world.

Lemma kv_append_rollback_restores_witness :
  ∃ t w1 w2, demo_begin = (Ok t, w1) ∧
    rollback_append (Some free_list) (t, w1) = (Ok tt, (t <| t_closed := true |>, w2)) ∧
    w_pool w2 = [7; 8; 2; 9].
Proof.
  destruct demo_begin as [[t|e] w1] eqn:E; [|vm_compute in E; discriminate E].
  pose proof E as E'. vm_compute in E'. injection E' as Et Ew.
  destruct (kv_append_rollback_restores (Some free_list) _ _ _ _ _ _ _ demo_rectangular E)
    as (i & w2 & r & _ & Hr & _ & _ & _ & Hp).
  exists t, w1, w2. vm_compute in Hp. injection Hp as -> Hp. split_and!; done.
Defined.

Lemma kv_append_commit_installs_witness :
  ∃ t w1 w2, demo_begin = (Ok t, w1) ∧
    commit_append (t, w1) = (Ok tt, (t <| t_closed := true |>, w2)) ∧
    r_encoder_length (w_state w2) = 4 ∧ r_decoder_length (w_state w2) = 2.
Proof.
  destruct demo_begin as [[t|e] w1] eqn:E; [|vm_compute in E; discriminate E].
  destruct (kv_append_commit_installs _ _ _ _ _ _ _ demo_rectangular E)
    as (i & old & w2 & _ & _ & Hc & _ & _ & He & Hd & _).
  exists t, w1, w2. split_and!; [done|done|rewrite He; reflexivity|rewrite Hd; reflexivity].
Defined.

(** An append that is committed although [finish] was refused, and one that is rolled back. *)
Definition demo_calls : list Call :=
  [CBind (VNum (NInt 1)); CBegin [7; 8] [2] 1 (Some 5); CFinish true; CCommit 0; CBegin [] [3] 0 None; CRollback 1].

Lemma kv_calls_consistent_witness :
  agrees (calls (Some free_list) demo_calls (new_request (fresh_state "r" "s") (w_table demo_world) []))
    {| lg_layout := {| encoder_slots := [7; 8]; decoder_slots := [2] |}; lg_open := None |}.
Proof.
  destruct (kv_calls_consistent (Some free_list) "r" "s" (fresh_state "r" "s") (w_table demo_world) [] demo_calls) as [_ H].
  - apply demo_rectangular.
  - vm_compute. reflexivity.
  - exact H.
Defined.

Lemma terminal_phase_absorbing_witness :
  let q := calls (Some free_list) [CBind (VNum (NInt 1)); CFinish false]
             (new_request (fresh_state "r" "s") (w_table demo_world) []) in
  q_txns (calls (Some free_list) [CBegin [7] [] 1 None; CFinish true] q) = [].
Proof.
  cbv zeta.
  destruct (terminal_phase_absorbing (Some free_list)
    (calls (Some free_list) [CBind (VNum (NInt 1)); CFinish false]
       (new_request (fresh_state "r" "s") (w_table demo_world) []))
    [CBegin [7] [] 1 None; CFinish true]) as (_ & _ & _ & ->).
  - apply calls_preserve. apply (new_request_consistent "r" "s"); [apply demo_rectangular|vm_compute; reflexivity].
  - left. vm_compute. reflexivity.
  - vm_compute. reflexivity.
Defined.
