(* ===== verification/FrameStore.v ===== *)
(** * Shared-memory frame transport

    Models [src/sglang_omni/models/moss_vl_realtime/frame_store.py].  The
    operating system's segments are a map from their names to their bytes; the
    store keeps the names each request has not consumed.  Strings are ASCII.
    Segment naming, image decoding and the IPv6-literal check of [urllib] are
    parameters. *)
From S2P Require Import Prelude.
From Stdlib Require Import Ascii.

Abbreviation bytes := (list Z).

Definition MAX_FRAME_BYTES : Z := 32 * 1024 * 1024.

(** ** [urlparse], as far as the code reads its result *)

Definition chars (s : string) : list ascii := String.list_ascii_of_string s.
Definition of_chars (l : list ascii) : string := String.string_of_list_ascii l.

Fixpoint drop_while {A} (f : A → bool) (l : list A) : list A :=
  match l with [] => [] | x :: l' => if f x then drop_while f l' else l end.
Fixpoint take_while {A} (f : A → bool) (l : list A) : list A :=
  match l with [] => [] | x :: l' => if f x then x :: take_while f l' else [] end.

Definition code (c : ascii) : nat := nat_of_ascii c.
Definition is_in (s : string) (c : ascii) : bool := bool_decide (c ∈ chars s).
Definition is_upper (c : ascii) : bool := (65 <=? code c)%nat && (code c <=? 90)%nat.
Definition is_lower (c : ascii) : bool := (97 <=? code c)%nat && (code c <=? 122)%nat.
Definition is_digit (c : ascii) : bool := (48 <=? code c)%nat && (code c <=? 57)%nat.
Definition is_alpha (c : ascii) : bool := is_upper c || is_lower c.
Definition scheme_char (c : ascii) : bool := is_alpha c || is_digit c || is_in "+-." c.
Definition lower (c : ascii) : ascii :=
  if is_upper c then ascii_of_nat (code c + 32) else c.

(** Leading control characters and spaces are stripped; tabs and newlines are
    removed everywhere. *)
Definition url_clean (s : list ascii) : list ascii :=
  List.filter (fun c => negb (bool_decide (code c ∈ [9; 10; 13])))
    (drop_while (fun c => (code c <=? 32)%nat) s).

(** [(scheme, rest)]. *)
Definition split_scheme (url : list ascii) : list ascii * list ascii :=
  let prefix := take_while (fun c => negb (bool_decide (c = ":"%char))) url in
  match drop (length prefix) url, prefix with
  | _ :: rest, c0 :: _ =>
      if is_alpha c0 && forallb scheme_char prefix then (map lower prefix, rest) else ([], url)
  | _, _ => ([], url)
  end.

Definition before (stop : string) (l : list ascii) : list ascii :=
  take_while (fun c => negb (is_in stop c)) l.

Section Store.
Context (bracketed_ok : list ascii → bool).

(** [(scheme, netloc, path)]. *)
Definition urlparse (s : string) : result (list ascii * list ascii * list ascii) :=
  let '(scheme, rest) := split_scheme (url_clean (chars s)) in
  '(netloc, rest) ←
    match rest with
    | "/"%char :: "/"%char :: tail =>
        let netloc := before "/?#" tail in
        let opened := existsb (is_in "[") netloc in
        let closed := existsb (is_in "]") netloc in
        _ ← raise_if (xorb opened closed) (ValueError "Invalid IPv6 URL");
        _ ← raise_if (opened && closed && negb (bracketed_ok netloc))
              (ValueError "Invalid IPv6 URL");
        Ok (netloc, drop (length netloc) tail)
    | _ => Ok ([], rest)
    end;
  Ok (scheme, netloc, before "?#" rest).

Definition shared_memory_name (frame_ref : string) : result string :=
  '(scheme, netloc, path) ← urlparse frame_ref;
  _ ← raise_if (negb (bool_decide (scheme = chars "shm")))
        (ValueError "frame_ref must use shm://");
  let name := match netloc with
              | [] => drop_while (is_in "/") path
              | _ => netloc
              end in
  _ ← raise_if (bool_decide (name = []) || existsb (is_in "/\") name)
        (ValueError "invalid shared-memory frame name");
  Ok (of_chars name).

(** ** The store *)

Record Store : Type := {
  max_frame_bytes : Z;
  names_by_request : gmap string (gset string);
  segments : gmap string bytes
}.

#[global] Instance eta_Store : Eta Store := fun s =>
  {| max_frame_bytes := max_frame_bytes s; names_by_request := names_by_request s;
     segments := segments s |}.

Definition make_store (limit : Z) (env : gmap string bytes) : result Store :=
  _ ← raise_if (limit <=? 0)%Z (ValueError "max_frame_bytes must be positive");
  Ok {| max_frame_bytes := limit; names_by_request := ∅; segments := env |}.

(** The name the operating system gives a new segment, or its failure. *)
Context (new_name : gmap string bytes → result string).

Definition put_frame (request_id : string) (data : bytes) : M Store string :=
  s ← get;
  _ ← guard_raise (bool_decide (request_id = "")) (ValueError "request_id must be non-empty");
  _ ← guard_raise (bool_decide (data = [])) (ValueError "frame payload must be non-empty");
  _ ← guard_raise (max_frame_bytes s <? zlength data)%Z
        (ValueError "frame payload exceeds the byte limit");
  name ← lift (new_name (segments s));
  _ ← assign_to segments (<[name := data]> (segments s));
  _ ← modify (fun s => s <| names_by_request :=
        <[request_id := {[name]} ∪ default ∅ (names_by_request s !! request_id)]>
          (names_by_request s) |>);
  mret ("shm://" +:+ name).

Definition unlink_if_present (name : string) : M Store unit :=
  modify (fun s => s <| segments := delete name (segments s) |>).

(** Drop one name of a request, and the request with its last name. *)
Definition forget_name (request_id name : string) : M Store unit :=
  modify (fun s =>
    match names_by_request s !! request_id with
    | None => s
    | Some names =>
        let names' := names ∖ {[name]} in
        s <| names_by_request :=
          if decide (names' = ∅) then delete request_id (names_by_request s)
          else <[request_id := names']> (names_by_request s) |>
    end).

Definition discard (request_id frame_ref : string) : M Store unit :=
  name ← lift (shared_memory_name frame_ref);
  _ ← forget_name request_id name;
  unlink_if_present name.

Definition forget (request_id frame_ref : string) : M Store unit :=
  name ← lift (shared_memory_name frame_ref);
  forget_name request_id name.

Definition cleanup (request_id : string) : M Store unit :=
  s ← get;
  let names := default ∅ (names_by_request s !! request_id) in
  _ ← assign_to names_by_request (delete request_id (names_by_request s));
  mforeach unlink_if_present (elements names).

Definition close_store : M Store unit :=
  s ← get;
  mforeach cleanup (elements (dom (names_by_request s))).

(** The consumer: open, check, decode and unlink. *)
Definition resolve_shared_memory_frame {Image} (decode : bytes → result Image)
    (limit : Z) (frame_ref : string) : M Store Image :=
  name ← lift (shared_memory_name frame_ref);
  s ← get;
  match segments s !! name with
  | None => throw (FileNotFoundError name)
  | Some data =>
      try_finally
        (_ ← guard_raise ((zlength data <=? 0) || (limit <? zlength data))%Z
               (ValueError "shared-memory frame has invalid size");
         lift (decode data))
        (unlink_if_present name)
  end.
End Store.

#[global] Arguments forget_name : simpl never.
#[global] Arguments unlink_if_present : simpl never.
#[global] Arguments cleanup : simpl never.

(** ** Frame references *)

(** The characters of a segment name the operating system hands out. *)
Definition name_char (c : ascii) : bool := is_alpha c || is_digit c || is_in "_-" c.
Definition safe_name (name : string) : Prop :=
  chars name ≠ [] ∧ Forall (fun c => name_char c = true) (chars name).

Lemma name_char_plain c :
  name_char c = true →
  bool_decide (code c ∈ [9; 10; 13]) = false ∧ is_in "/?#" c = false ∧
  is_in "[" c = false ∧ is_in "]" c = false ∧ is_in "?#" c = false ∧ is_in "/\" c = false.
Proof.
  destruct c as [b0 b1 b2 b3 b4 b5 b6 b7].
  destruct b0, b1, b2, b3, b4, b5, b6, b7; intros H;
    first [vm_compute in H; discriminate H | vm_compute; repeat split; reflexivity].
Qed.

Lemma take_while_all {A} (f : A → bool) l :
  Forall (fun x => f x = true) l → take_while f l = l.
Proof. induction 1 as [|x l Hx _ IH]; simpl; [done|]. by rewrite Hx, IH. Qed.

Lemma filter_true_all {A} (f : A → bool) l :
  Forall (fun x => f x = true) l → List.filter f l = l.
Proof. induction 1 as [|x l Hx _ IH]; simpl; [done|]. by rewrite Hx, IH. Qed.

Lemma existsb_none {A} (f : A → bool) l :
  Forall (fun x => f x = false) l → existsb f l = false.
Proof. apply existsb_false_Forall. Qed.

Lemma chars_app s t : chars (s +:+ t) = chars s ++ chars t.
Proof.
  unfold chars. induction s as [|c s IH]; [done|]. simpl. by rewrite <- IH.
Qed.

Lemma of_chars_chars s : of_chars (chars s) = s.
Proof. apply String.string_of_list_ascii_of_string. Qed.

Lemma shared_memory_name_ref bracketed_ok name :
  safe_name name → shared_memory_name bracketed_ok ("shm://" +:+ name) = Ok name.
Proof.
  intros [Hne Hs].
  assert (∀ P : ascii → Prop, (∀ c, name_char c = true → P c) → Forall P (chars name)) as HF.
  { intros P HP. eapply Forall_impl; [exact Hs|exact HP]. }
  unfold shared_memory_name, urlparse. rewrite chars_app.
  replace (url_clean (chars "shm://" ++ chars name)) with (chars "shm://" ++ chars name).
  2: { symmetry. unfold url_clean.
       change (drop_while _ (chars "shm://" ++ chars name)) with (chars "shm://" ++ chars name).
       apply filter_true_all. apply Forall_app. split; [by repeat constructor|].
       apply HF. intros c Hc. by destruct (name_char_plain c Hc) as (-> & _). }
  change (split_scheme (chars "shm://" ++ chars name))
    with (chars "shm", "/"%char :: "/"%char :: chars name).
  cbv beta iota zeta. unfold before.
  rewrite take_while_all.
  2: { apply HF. intros c Hc. by destruct (name_char_plain c Hc) as (_ & -> & _). }
  rewrite !existsb_none.
  2: { apply HF. intros c Hc. by destruct (name_char_plain c Hc) as (_ & _ & _ & -> & _). }
  2: { apply HF. intros c Hc. by destruct (name_char_plain c Hc) as (_ & _ & -> & _). }
  simpl. destruct (chars name) as [|c l] eqn:E; [done|]. rewrite <- E.
  rewrite existsb_none.
  2: { rewrite <- E in HF. apply HF. intros x Hx. by destruct (name_char_plain x Hx) as (_ & _ & _ & _ & _ & ->). }
  rewrite bool_decide_eq_false_2 by (rewrite E; done). simpl. by rewrite of_chars_chars.
Qed.

(** ** No segment leaks *)

Section Leaks.
Context (bracketed_ok : list ascii → bool) (new_name : gmap string bytes → result string).

(** A segment gets a name no live segment has, made of plain characters. *)
Context (Hnew : ∀ env name, new_name env = Ok name → env !! name = None ∧ safe_name name).

Definition tracked (s : Store) (name : string) : Prop :=
  ∃ rid names, names_by_request s !! rid = Some names ∧ name ∈ names.

(** Not the store's to remove: there before it, or forgotten while it was there. *)
Definition foreign (env0 : gmap string bytes) (leaked : gset string) (name : string) : Prop :=
  is_Some (env0 !! name) ∨ name ∈ leaked.

(** Every other segment is tracked. *)
Definition no_stray (env0 : gmap string bytes) (leaked : gset string) (s : Store) : Prop :=
  ∀ name, is_Some (segments s !! name) → foreign env0 leaked name ∨ tracked s name.

Lemma unlink_all l s :
  ∃ env, mforeach unlink_if_present l s = (Ok tt, s <| segments := env |>) ∧
    ∀ n, env !! n = if decide (n ∈ l) then None else segments s !! n.
Proof.
  revert s. induction l as [|x l IH]; intros s.
  - exists (segments s). split; [by destruct s|done].
  - simpl. unfold mbind, M_bind.
    change (unlink_if_present x s) with (Ok tt, s <| segments := delete x (segments s) |>).
    cbv beta iota.
    destruct (IH (s <| segments := delete x (segments s) |>)) as (env & E & Henv).
    rewrite E. exists env. split; [done|]. intros n. rewrite Henv. fields.
    destruct (decide (n = x)) as [->|Hne].
    + rewrite lookup_delete_eq, (decide_True (P := x ∈ x :: l)) by set_solver. by case_decide.
    + rewrite lookup_delete_ne by done.
      destruct (decide (n ∈ l)); [rewrite decide_True by set_solver; done|].
      by rewrite decide_False by set_solver.
Qed.

Lemma cleanup_spec rid s :
  ∃ s', cleanup rid s = (Ok tt, s') ∧
    names_by_request s' = delete rid (names_by_request s) ∧
    ∀ n, segments s' !! n =
      if decide (n ∈ default ∅ (names_by_request s !! rid)) then None else segments s !! n.
Proof.
  unfold cleanup. mrun.
  destruct (unlink_all (elements (default ∅ (names_by_request s !! rid)))
    (s <| names_by_request := delete rid (names_by_request s) |>)) as (env & E & Henv).
  eexists. split; [exact E|]. fields. split; [done|]. intros n. rewrite Henv.
  by repeat case_decide; set_unfold; try (done || set_solver).
Qed.

Lemma cleanup_all ks s :
  ∃ s', mforeach cleanup ks s = (Ok tt, s') ∧
    (∀ r, names_by_request s' !! r =
       if decide (r ∈ ks) then None else names_by_request s !! r) ∧
    (∀ n, is_Some (segments s' !! n) → is_Some (segments s !! n) ∧
       ∀ r names, r ∈ ks → names_by_request s !! r = Some names → n ∉ names).
Proof.
  revert s. induction ks as [|k ks IH]; intros s; simpl.
  - exists s. split_and!; [done|done|]. intros n Hn. split; [done|]. set_solver.
  - mrun. destruct (cleanup_spec k s) as (s1 & E1 & Hn1 & Hs1). rewrite E1.
    destruct (IH s1) as (s2 & E2 & Hn2 & Hs2). exists s2. split_and!; [done| |].
    + intros r. rewrite Hn2, Hn1. destruct (decide (r = k)) as [->|Hne].
      * rewrite lookup_delete_eq, (decide_True (P := k ∈ k :: ks)) by set_solver.
        by case_decide.
      * rewrite lookup_delete_ne by done.
        destruct (decide (r ∈ ks)); [by rewrite decide_True by set_solver|].
        by rewrite decide_False by set_solver.
    + intros n Hn. apply Hs2 in Hn as [Hseg Hfree]. rewrite Hs1 in Hseg.
      case_decide as Hk; [by destruct Hseg|]. split; [done|].
      intros r names Hr Hnames. destruct (decide (r = k)) as [->|Hne].
      * by rewrite Hnames in Hk.
      * apply (Hfree r); [set_solver|]. rewrite Hn1. by rewrite lookup_delete_ne.
Qed.
Lemma forget_name_spec rid name s :
  ∃ s', forget_name rid name s = (Ok tt, s') ∧ segments s' = segments s ∧
    ∀ n, n ≠ name → tracked s n → tracked s' n.
Proof.
  unfold forget_name. mrun. eexists. split; [done|].
  destruct (names_by_request s !! rid) as [names|] eqn:E; [|done].
  fields. split; [done|]. intros n Hne (r & ns & Hr & Hn).
  destruct (decide (r = rid)) as [->|Hr'].
  - rewrite E in Hr. injection Hr as <-.
    exists rid, (names ∖ {[name]}). fields. rewrite decide_False by set_solver.
    rewrite lookup_insert_eq. split; [done|set_solver].
  - exists r, ns. fields. split; [|done].
    destruct (decide _); [by rewrite lookup_delete_ne|by rewrite lookup_insert_ne].
Qed.

Lemma put_no_stray env0 leaked rid data s r s' :
  no_stray env0 leaked s → put_frame new_name rid data s = (r, s') → no_stray env0 leaked s'.
Proof.
  intros Hs H. unfold put_frame in H. mrun in H.
  destruct (bool_decide (rid = "")); [by simplify_eq/=|].
  destruct (bool_decide (data = [])); [by simplify_eq/=|].
  destruct (_ <? _)%Z; [by simplify_eq/=|].
  destruct (new_name (segments s)) as [name|]; simpl in H; [|by simplify_eq/=].
  injection H as <- <-. intros n. fields. intros Hn.
  destruct (decide (n = name)) as [->|Hne].
  - right. eexists rid, _. fields. rewrite lookup_insert_eq. split; [done|set_solver].
  - rewrite lookup_insert_ne in Hn by done. destruct (Hs n Hn) as [?|(r & ns & Hr & Hin)]; [by left|].
    right. destruct (decide (r = rid)) as [->|].
    + eexists rid, _. fields. rewrite lookup_insert_eq, Hr. split; [done|set_solver].
    + exists r, ns. fields. by rewrite lookup_insert_ne.
Qed.

Lemma delete_no_stray env0 leaked s name s' :
  no_stray env0 leaked s →
  segments s' = delete name (segments s) →
  (∀ n, n ≠ name → tracked s n → tracked s' n) → no_stray env0 leaked s'.
Proof.
  intros Hs He Ht n Hn. rewrite He in Hn.
  destruct (decide (n = name)) as [->|Hne].
  - rewrite lookup_delete_eq in Hn. by destruct Hn.
  - rewrite lookup_delete_ne in Hn by done. destruct (Hs n Hn); [by left|right; auto].
Qed.

(** The segment a reference names, if it is still there. *)
Definition live_segment (ref : string) (s : Store) : gset string :=
  match shared_memory_name bracketed_ok ref with
  | Ok name => if decide (is_Some (segments s !! name)) then {[name]} else ∅
  | Raise _ => ∅
  end.

(** The uses of a store, beside an account of the segments that were forgotten while they were
    still there: their consumer, which may be another process, has to unlink them. *)
Inductive store_step {Image} (decode : bytes → result Image) :
    gset string * Store → gset string * Store → Prop :=
| step_put leaked rid data s r s' :
    put_frame new_name rid data s = (r, s') → store_step decode (leaked, s) (leaked, s')
| step_discard leaked rid ref s r s' :
    discard bracketed_ok rid ref s = (r, s') → store_step decode (leaked, s) (leaked, s')
| step_forget leaked rid ref s r s' :
    forget bracketed_ok rid ref s = (r, s') →
    store_step decode (leaked, s) (leaked ∪ live_segment ref s, s')
| step_resolve leaked limit ref s r s' :
    resolve_shared_memory_frame bracketed_ok decode limit ref s = (r, s') →
    store_step decode (leaked, s) (leaked, s')
| step_cleanup leaked rid s r s' :
    cleanup rid s = (r, s') → store_step decode (leaked, s) (leaked, s').

Lemma store_step_no_stray {Image} (decode : bytes → result Image) env0 p p' :
  no_stray env0 p.1 p.2 → store_step decode p p' → no_stray env0 p'.1 p'.2.
Proof.
  intros Hs Hstep. destruct Hstep as [leaked rid data s r s' H|leaked rid ref s r s' H
    |leaked rid ref s r s' H|leaked limit ref s r s' H|leaked rid s r s' H]; cbn [fst snd] in *.
  - by eapply put_no_stray.
  - unfold discard, lift, mbind, M_bind in H.
    destruct (shared_memory_name _ ref) as [name|]; [|by simplify_eq].
    destruct (forget_name_spec rid name s) as (s1 & E & He & Ht). rewrite E in H.
    unfold unlink_if_present in H. mrun in H. injection H as <- <-.
    apply (delete_no_stray _ _ s name); [done|by fields; rewrite He|].
    intros n Hne Hn. destruct (Ht n Hne Hn) as (r0 & ns & ? & ?). exists r0, ns. by fields.
  - unfold forget, lift, mbind, M_bind in H. unfold live_segment.
    destruct (shared_memory_name _ ref) as [name|].
    2:{ simplify_eq. intros n Hn. destruct (Hs n Hn) as [[?|?]|?]; [by left; left|left; right; set_solver|by right]. }
    destruct (forget_name_spec rid name s) as (s1 & E & He & Ht). rewrite E in H.
    injection H as <- <-. intros n Hn. rewrite He in Hn.
    destruct (decide (n = name)) as [->|Hne].
    + left; right. rewrite decide_True by done. set_solver.
    + destruct (Hs n Hn) as [[?|?]|?]; [by left; left|left; right; set_solver|right; by apply Ht].
  - unfold resolve_shared_memory_frame in H. mrun in H.
    destruct (shared_memory_name _ ref) as [name|]; simpl in H; [|by simplify_eq].
    destruct (segments s !! name) as [data|]; [|by simplify_eq].
    unfold try_finally, unlink_if_present in H. mrun in H.
    assert (s' = s <| segments := delete name (segments s) |>) as ->.
    { by destruct (_ || _); [|destruct (decode data)]; simplify_eq/=. }
    apply (delete_no_stray _ _ s name); [done..|].
    intros n _ (r0 & ns & ? & ?). exists r0, ns. by fields.
  - destruct (cleanup_spec rid s) as (s1 & E & Hn1 & Hs1). rewrite E in H. simplify_eq.
    intros n Hn. rewrite Hs1 in Hn. case_decide as Hin; [by destruct Hn|].
    destruct (Hs n Hn) as [|(r0 & ns & Hr & Hns)]; [by left|]. right.
    exists r0, ns. rewrite Hn1, lookup_delete_ne; [done|]. intros ->. by rewrite Hr in Hin.
Qed.

(** Whatever was put, resolved and forgotten before, closing the store leaves no segment that
    was not there before the store was made, except those whose reference was forgotten while
    they were still linked. *)
Theorem store_close_leaves_nothing {Image} (decode : bytes → result Image) limit env0 s0 leaked s :
  make_store limit env0 = Ok s0 → rtc (store_step decode) (∅, s0) (leaked, s) →
  ∃ s', close_store s = (Ok tt, s') ∧ names_by_request s' = ∅ ∧
    ∀ name, is_Some (segments s' !! name) → is_Some (env0 !! name) ∨ name ∈ leaked.
Proof.
  intros H0 Hrun.
  assert (no_stray env0 leaked s) as Hs.
  { assert (no_stray env0 ((∅ : gset string), s0).1 ((∅ : gset string), s0).2) as Hs0.
    { unfold make_store in H0. inv_ok. intros n Hn. by left; left. }
    clear H0. change (no_stray env0 (leaked, s).1 (leaked, s).2).
    induction Hrun as [|p0 p1 p Hstep _ IH]; [done|]. apply IH. by eapply store_step_no_stray. }
  unfold close_store. mrun.
  destruct (cleanup_all (elements (dom (names_by_request s))) s) as (s' & E & Hn & Hseg).
  exists s'. split_and!; [done| |].
  - apply map_empty. intros r. rewrite Hn. case_decide as Hr; [done|].
    rewrite elem_of_elements in Hr. by apply not_elem_of_dom.
  - intros n Hn'. apply Hseg in Hn' as [Hin Hfree].
    destruct (Hs n Hin) as [|(r & ns & Hr & Hns)]; [done|]. exfalso.
    apply (Hfree r ns); [|done|done]. apply elem_of_elements. by eapply elem_of_dom_2.
Qed.

(** What [put] stores is what the one consumer reads: the reference it returns resolves to
    the decoded bytes, and resolving unlinks the segment. *)
Theorem put_then_resolve {Image} (decode : bytes → result Image) rid data s ref s1 :
  put_frame new_name rid data s = (Ok ref, s1) →
  ∃ name s2, ref = "shm://" +:+ name ∧ segments s !! name = None ∧ tracked s1 name ∧
    resolve_shared_memory_frame bracketed_ok decode (max_frame_bytes s) ref s1 =
      (decode data, s2) ∧ segments s2 = segments s.
Proof.
  intros H. unfold put_frame in H. mrun in H.
  destruct (bool_decide (rid = "")); [done|].
  destruct (bool_decide_reflect (data = [])) as [|Hdata]; [done|].
  destruct (_ <? _)%Z eqn:Hlim; [done|].
  destruct (new_name (segments s)) as [name|] eqn:Hname; [|done]. simpl in H.
  injection H as <- <-. destruct (Hnew _ _ Hname) as [Hfresh Hsafe].
  eexists name, _. split_and!; [done|done| | |].
  - eexists rid, _. fields. rewrite lookup_insert_eq. split; [done|set_solver].
  - unfold resolve_shared_memory_frame. rewrite shared_memory_name_ref by done. mrun.
    fields. rewrite lookup_insert_eq. unfold try_finally, unlink_if_present. mrun.
    assert ((zlength data <=? 0) || (max_frame_bytes s <? zlength data) = false)%Z as ->.
    { apply orb_false_iff. split; [|done]. apply Z.leb_gt.
      destruct data; [done|]. unfold zlength. simpl. lia. }
    simpl. by destruct (decode data).
  - fields. by rewrite delete_insert_eq, delete_id.
Qed.
End Leaks.

(** ** Witnesses *)

Definition demo_name (env : gmap string bytes) : result string :=
  match env !! "psm_1" with None => Ok "psm_1" | Some _ => Raise (OtherError "no name") end.

Lemma demo_name_new env name : demo_name env = Ok name → env !! name = None ∧ safe_name name.
Proof.
  unfold demo_name. destruct (env !! "psm_1") eqn:E; [done|]. intros [= <-].
  split; [done|]. split; [done|]. repeat constructor.
Defined.

Definition demo_store : Store :=
  {| max_frame_bytes := 4; names_by_request := ∅; segments := {["other" := [1%Z]]} |}.

Lemma put_then_resolve_witness :
  ∃ name s2, resolve_shared_memory_frame (fun _ => true) (fun b => Ok (length b)) 4
    "shm://psm_1" (put_frame demo_name "r" [5; 6; 7]%Z demo_store).2 = (Ok 3, s2) ∧
    tracked (put_frame demo_name "r" [5; 6; 7]%Z demo_store).2 name.
Proof.
  destruct (put_frame demo_name "r" [5; 6; 7]%Z demo_store) as [[ref|] s1] eqn:E;
    [|vm_compute in E; discriminate E].
  pose proof E as E'. vm_compute in E'. injection E' as Er _.
  destruct (put_then_resolve (fun _ => true) demo_name demo_name_new
    (fun b => Ok (length b)) _ _ _ _ _ E) as (name & s2 & _ & _ & Ht & Hr & _).
  rewrite <- Er in Hr. exists name, s2. split; [exact Hr|exact Ht].
Defined.

Lemma store_close_leaves_nothing_witness :
  ∃ s', close_store (put_frame demo_name "r" [5; 6; 7]%Z demo_store).2 = (Ok tt, s') ∧
    names_by_request s' = ∅.
Proof.
  destruct (store_close_leaves_nothing (fun _ => true) demo_name demo_name_new
    (fun b => Ok (length b)) 4 {["other" := [1%Z]]} demo_store
    ∅ (put_frame demo_name "r" [5; 6; 7]%Z demo_store).2) as (s' & E & Hn & _).
  - reflexivity.
  - apply rtc_once. eapply step_put. apply surjective_pairing.
  - exists s'. split; [exact E|exact Hn].
Defined.
