(* ===== verification/Segment.v ===== *)
(** * Incremental multimodal segments

    Models the position computation of
    [src/sglang_omni/models/moss_vl_realtime/model_step.py]
    ([compute_realtime_mrope_for_segment]), the segment builder of
    [src/sglang_omni/models/moss_vl_realtime/segment.py] and
    [stage_segment_frame_records] of [frame_window.py].  The processor, the
    tokenizer, the digest and the pad value of an item are parameters. *)
From Stdlib Require Import Sorting.Sorted.
From S2P Require Import Prelude PyNum Payload Visibility FramePlan.
Local Open Scope Z_scope.

Abbreviation Grid := (Z * Z * Z)%type.

(** ** MRoPE positions of one segment *)

(** Row-major positions of one frame followed by its separator. *)
Definition frame_positions (cur mh mw : Z) : list (Z * Z * Z) :=
  flat_map (fun y => map (fun x => (cur, cur + y, cur + x)) (seqZ 0 mw)) (seqZ 0 mh)
  ++ [(cur + Z.max mh mw, cur + Z.max mh mw, cur + Z.max mh mw)].

(** One frame token: the merged height and width of its grid. *)
Definition frame_extent (merge : Z) (g : Grid) : result (Z * Z) :=
  let '(t, h, w) := g in
  _ ← raise_if (negb (t =? 1))
        (ValueError "realtime frame events must contain exactly one frame");
  _ ← raise_if (negb (h mod merge =? 0) || negb (w mod merge =? 0))
        (ValueError "frame grid must be divisible by merge_size");
  (* [torch.arange] of a negative bound *)
  _ ← raise_if ((h / merge <? 0) || (w / merge <? 0))
        (RuntimeError "upper bound and lower bound inconsistent with step sign");
  Ok (h / merge, w / merge).

(** The loop over the token ids: text positions (the three rows are equal),
    vision positions, the grids left and the next position. *)
Fixpoint mrope_loop (image merge : Z) (ids : list Z) (grids : list Grid) (cur : Z)
  : result (list Z * list (Z * Z * Z) * list Grid * Z) :=
  match ids with
  | [] => Ok ([], [], grids, cur)
  | x :: ids' =>
      if negb (x =? image) then
        '(text, vision, rest, next) ← mrope_loop image merge ids' grids (cur + 1);
        Ok (cur :: text, vision, rest, next)
      else
        match grids with
        | [] => Raise (ValueError "image token has no aligned frame grid")
        | g :: grids' =>
            '(mh, mw) ← frame_extent merge g;
            let sep := cur + Z.max mh mw in
            '(text, vision, rest, next) ← mrope_loop image merge ids' grids' (sep + 1);
            Ok (sep :: text, frame_positions cur mh mw ++ vision, rest, next)
        end
  end.

Definition compute_realtime_mrope_for_segment (new_input_ids : tensor)
    (new_grid_thw : option (list Grid)) (start_position image_token_id merge_size : Z)
  : result (list Z * option (list (Z * Z * Z)) * Z) :=
  ids ← match new_input_ids with
        | T2 [row] => Ok row
        | _ => Raise (ValueError "new_input_ids must have shape (1, sequence_length)")
        end;
  _ ← raise_if (start_position <? 0) (ValueError "start_position must be non-negative");
  _ ← raise_if (merge_size <=? 0) (ValueError "merge_size must be positive");
  '(text, vision, rest, next) ←
     mrope_loop image_token_id merge_size ids (default [] new_grid_thw) start_position;
  _ ← raise_if (negb (bool_decide (rest = [])))
        (ValueError "received frame grids but found fewer image tokens");
  Ok (text, if bool_decide (vision = []) then None else Some vision, next).

(** ** The segment builder *)

Abbreviation Positions := (list Z * list Z * list Z)%type.

Definition encoder_length_of (grid : list Grid) (merge_size : Z) : result Z :=
  let divisible (g : Grid) :=
    (g.1.2 mod merge_size =? 0) && (g.2 mod merge_size =? 0) in
  _ ← raise_if (negb (forallb divisible grid))
        (ValueError "frame grid must be divisible by merge_size");
  Ok (foldr (fun (g : Grid) n =>
        let '(t, h, w) := g in t * h * w / (merge_size ^ 2) + t + n) 0 grid).

(** A 2-D tensor with three columns; a 1-D one gains a leading dimension. *)
Definition grid_row_of (row : list Z) : option Grid :=
  match row with [t; h; w] => Some (t, h, w) | _ => None end.
Definition grid_of (t : tensor) : result (list Grid) :=
  let rows := match t with T1 l => Some [l] | T2 rows => Some rows | _ => None end in
  match rows ≫= mapM grid_row_of with
  | Some g => Ok g
  | None => Raise (ValueError "processor grid_thw must have shape (frames, 3)")
  end.

Definition append_positions (previous : option Positions) (new : list Z) : Positions :=
  match previous with
  | None => (new, new, new)
  | Some (a, b, c) => (a ++ new, b ++ new, c ++ new)
  end.

Definition positions_length (p : option Positions) : Z :=
  match p with None => 0 | Some (a, _, _) => zlength a end.

Record Processed (Pixels : Type) : Type := {
  pd_pixel_values : Pixels;
  pd_grid_thw : tensor;
  pd_input_ids : tensor
}.
Arguments Build_Processed {Pixels}.
Arguments pd_pixel_values {Pixels}.
Arguments pd_grid_thw {Pixels}.
Arguments pd_input_ids {Pixels}.

(** The one multimodal item of a segment with frames. *)
Record MMItem (Pixels : Type) : Type := {
  mm_hash : Z;
  mm_feature : Pixels;
  mm_grid_thw : list Grid;
  mm_full_grid_thw : list Grid;
  mm_added_frames : Z
}.
Arguments Build_MMItem {Pixels}.
Arguments mm_hash {Pixels}.
Arguments mm_feature {Pixels}.
Arguments mm_grid_thw {Pixels}.
Arguments mm_full_grid_thw {Pixels}.
Arguments mm_added_frames {Pixels}.

Record Segment (Pixels : Type) : Type := {
  sg_events : list FramePromptEvent;
  sg_event_input_ids : list Z;
  sg_encoder_pad_ids : list Z;
  sg_encoder_delta_length : Z;
  sg_next_mrope_position : Z;
  sg_full_grid_thw : list Grid;
  (** [multimodal_inputs] *)
  sg_mm_items : list (MMItem Pixels);
  sg_num_image_tokens : Z;
  sg_mrope_positions : Positions;
  sg_mrope_position_delta : Z;
  sg_vision_position_ids : option (list (Z * Z * Z));
  sg_media_nums_per_sample : Z;
  sg_visible_frame_counts : list Z
}.
Arguments Build_Segment {Pixels}.
Arguments sg_events {Pixels}.
Arguments sg_event_input_ids {Pixels}.
Arguments sg_encoder_pad_ids {Pixels}.
Arguments sg_encoder_delta_length {Pixels}.
Arguments sg_next_mrope_position {Pixels}.
Arguments sg_full_grid_thw {Pixels}.
Arguments sg_mm_items {Pixels}.
Arguments sg_num_image_tokens {Pixels}.
Arguments sg_mrope_positions {Pixels}.
Arguments sg_mrope_position_delta {Pixels}.
Arguments sg_vision_position_ids {Pixels}.
Arguments sg_media_nums_per_sample {Pixels}.
Arguments sg_visible_frame_counts {Pixels}.

Definition raw_append_ids {Pixels} (s : Segment Pixels) : list Z :=
  sg_encoder_pad_ids s ++ sg_event_input_ids s.

Definition nul : string := String (Ascii.ascii_of_nat 0) "".

Definition event_key (e : FramePromptEvent) : result string :=
  match ev_fingerprint e with
  | Some fp => if String.eqb fp "" then
                 f ← to_float (ev_timestamp e);
                 Ok (default "None" (ev_frame_ref e) +:+ nul +:+ format_fixed 9 f)
               else Ok fp
  | None => f ← to_float (ev_timestamp e);
            Ok (default "None" (ev_frame_ref e) +:+ nul +:+ format_fixed 9 f)
  end.

Definition events_hash (digest : string → Z) (frame_events : list FramePromptEvent)
  : result Z :=
  _ ← raise_if (bool_decide (frame_events = []))
        (ValueError "text-only segments do not have a media hash");
  keys ← rmapM event_key frame_events;
  Ok (digest (String.concat nul keys)).

Definition sort_frames {A} (key : A → FramePromptEvent) (l : list A) : list A :=
  stable_sort (fun a b => num_lt (ev_timestamp (key a)) (ev_timestamp (key b))) l.

(** The history a build continues. *)
Record History : Type := {
  h_mrope_positions : option Positions;
  h_visible_counts : option (list Z);
  h_grid_thw : option (list Grid);
  h_next_mrope_position : Z;
  h_committed_encoder_length : Z;
  h_committed_decoder_length : option Z;
  h_pending_text_tokens : Z
}.

Section Builder.
Context {Image Pixels : Type}.
Context (processor : string → list Image → result (Processed Pixels)).
Context (tokenizer : string → result tensor).
Context (digest : string → Z) (pad_value : Z → Z).
Context (image_token_id merge_size : Z).

(** The processor call of a segment with frames, or the tokenizer call. *)
Definition encode_inputs (append_text : string) (images : list Image)
  : result (option (Pixels * list Grid) * tensor) :=
  if bool_decide (images = []) then
    ids ← tokenizer append_text; Ok (None, ids)
  else
    processed ← processor append_text images;
    grid ← grid_of (pd_grid_thw processed);
    _ ← raise_if (negb (zlength grid =? zlength images))
          (ValueError "processor grid rows must match the frame count");
    Ok (Some (pd_pixel_values processed, grid), pd_input_ids processed).

(** Positions of the committed and pending tokens the history lacks, then of
    the event. *)
Definition segment_positions (h : History) (ids : list Z) (grid : option (list Grid))
  : result (list Z * option (list (Z * Z * Z)) * Z * Z) :=
  let previous_length := positions_length (h_mrope_positions h) in
  let committed := default previous_length (h_committed_decoder_length h) in
  _ ← raise_if (committed <? previous_length)
        (ValueError "committed_decoder_length cannot be shorter than MRoPE history");
  let missing := committed - previous_length in
  _ ← raise_if (h_next_mrope_position h <? missing)
        (ValueError "next_mrope_position is inconsistent with decoder length");
  let start := h_next_mrope_position h + h_pending_text_tokens h in
  '(event_positions, vision_positions, next_position) ←
     compute_realtime_mrope_for_segment (T2 [ids]) grid start image_token_id merge_size;
  let generated := seqZ (h_next_mrope_position h - missing)
                     (missing + h_pending_text_tokens h) in
  Ok (generated ++ event_positions, vision_positions, next_position,
      missing + h_pending_text_tokens h).

Definition build (events : list FramePromptEvent) (images : list Image) (h : History)
  : result (Segment Pixels) :=
  _ ← raise_if (bool_decide (events = []))
        (ValueError "realtime segment requires at least one event");
  _ ← raise_if (h_pending_text_tokens h <? 0)
        (ValueError "pending_text_tokens must be non-negative");
  let frame_events := List.filter has_frame events in
  _ ← raise_if (negb (length images =? length frame_events)%nat)
        (ValueError "images must align with the frame events");
  let ordered_frames := sort_frames fst (zip frame_events images) in
  timestamps ← rmapM (fun p => f ← to_float (ev_timestamp p.1); Ok (VNum (NFloat f)))
                 ordered_frames;
  append_text ← build_realtime_append_text (map VStr (omap ev_prompt events)) timestamps;
  '(media, ids_tensor) ← encode_inputs append_text (map snd ordered_frames);
  ids ← match ids_tensor with
        | T2 [row] => Ok row
        | _ => Raise (ValueError "processor input_ids must have shape (1, sequence_length)")
        end;
  '(new_positions, vision_positions, next_position, generated) ←
     segment_positions h ids (option_map snd media);
  let full_positions := append_positions (h_mrope_positions h) new_positions in
  full_visible_counts ←
    append_visible_frame_counts (option_map T1 (h_visible_counts h))
      (T1 (replicate (Z.to_nat generated) (-1) ++ ids)) (VNum (NInt image_token_id));
  let full_grid := default [] (h_grid_thw h) ++ default [] (option_map snd media) in
  '(delta, items, pads) ←
     match media with
     | Some (pixels, grid) =>
         delta ← encoder_length_of grid merge_size;
         hash ← events_hash digest (map fst ordered_frames);
         Ok (delta,
             [{| mm_hash := hash; mm_feature := pixels; mm_grid_thw := grid;
                 mm_full_grid_thw := full_grid;
                 mm_added_frames := zlength ordered_frames |}],
             replicate (Z.to_nat delta) (pad_value hash))
     | None => Ok (0, [], [])
     end;
  Ok {| sg_events := events; sg_event_input_ids := ids; sg_encoder_pad_ids := pads;
        sg_encoder_delta_length := delta; sg_next_mrope_position := next_position;
        sg_full_grid_thw := full_grid; sg_mm_items := items;
        sg_num_image_tokens := h_committed_encoder_length h + delta;
        sg_mrope_positions := full_positions;
        sg_mrope_position_delta := next_position - positions_length (Some full_positions);
        sg_vision_position_ids := vision_positions;
        sg_media_nums_per_sample := zlength full_grid;
        sg_visible_frame_counts := full_visible_counts |}.
End Builder.

(** ** Records of the frames of a segment *)

Fixpoint stage_records (merge_size : Z) (l : list (FramePromptEvent * Grid))
  : result (list FrameRecord) :=
  match l with
  | [] => Ok []
  | (e, (t, h, w)) :: l' =>
      _ ← raise_if (negb (t =? 1)) (RuntimeError "realtime frame records require T == 1");
      _ ← raise_if (negb ((h * w) mod (merge_size ^ 2) =? 0))
            (RuntimeError "frame grid must be divisible by merge_size");
      f ← to_float (ev_timestamp e);
      slots ← encoder_length_of [(t, h, w)] merge_size;
      rs ← stage_records merge_size l';
      Ok ({| fr_timestamp := f; fr_grid_h := h; fr_grid_w := w; fr_slots := slots;
             fr_pooled := false; fr_pooled_sources := 1 |} :: rs)
  end.

Definition stage_segment_frame_records {Pixels} (segment : Segment Pixels) (merge_size : Z)
  : result (option (list FrameRecord)) :=
  let frame_events := sort_frames id (List.filter has_frame (sg_events segment)) in
  if bool_decide (frame_events = []) then Ok None else
  let grid := sg_full_grid_thw segment in
  _ ← raise_if (length grid <? length frame_events)%nat
        (RuntimeError "segment grid history is shorter than its frame count");
  let delta_rows := drop (length grid - length frame_events) grid in
  _ ← raise_if (merge_size ^ 2 <=? 0) (ValueError "merge_size must be positive");
  rs ← stage_records merge_size (zip frame_events delta_rows);
  Ok (Some rs).

(** ** Facts about the position loop *)

Lemma frame_positions_length cur mh mw :
  0 ≤ mh → 0 ≤ mw → zlength (frame_positions cur mh mw) = mh * mw + 1.
Proof.
  intros Hh Hw. unfold frame_positions. rewrite zlength_app. unfold zlength at 1.
  rewrite (List.flat_map_constant_length (c := Z.to_nat mw)).
  - rewrite length_seqZ. change (zlength [_]) with 1. lia.
  - intros y _. by rewrite length_map, length_seqZ.
Qed.

Definition within (lo hi : Z) (p : Z * Z * Z) : Prop :=
  lo ≤ p.1.1 < hi ∧ lo ≤ p.1.2 < hi ∧ lo ≤ p.2 < hi.

Lemma frame_positions_within cur mh mw :
  0 ≤ mh → 0 ≤ mw →
  Forall (within cur (cur + Z.max mh mw + 1)) (frame_positions cur mh mw).
Proof.
  intros Hh Hw. unfold frame_positions. apply Forall_app. split.
  - apply Forall_forall. intros p Hp. apply list_elem_of_In, List.in_flat_map in Hp.
    destruct Hp as (y & Hy%list_elem_of_In & Hp).
    apply list_elem_of_In, list_elem_of_fmap in Hp.
    destruct Hp as (x & -> & Hx). apply elem_of_seqZ in Hy, Hx.
    unfold within. simpl. lia.
  - constructor; [|constructor]. unfold within. simpl. lia.
Qed.

(** Grids the position loop accepts. *)
Definition frame_grid (merge : Z) (g : Grid) : Prop :=
  ∃ a b, g = (1, merge * a, merge * b) ∧ 0 ≤ a ∧ 0 ≤ b.

Lemma frame_extent_Ok merge g mh mw :
  0 < merge → frame_extent merge g = Ok (mh, mw) →
  g = (1, merge * mh, merge * mw) ∧ 0 ≤ mh ∧ 0 ≤ mw.
Proof.
  intros Hm H. destruct g as [[t h] w]. unfold frame_extent in H.
  apply bind_Ok in H as (_ & Ht%raise_if_Ok & H).
  apply bind_Ok in H as (_ & Hd%raise_if_Ok & H).
  apply bind_Ok in H as (_ & Hn%raise_if_Ok & H). injection H as <- <-.
  reflect_bool. subst.
  rewrite <- (proj2 (Z.div_exact h merge ltac:(lia))), <- (proj2 (Z.div_exact w merge ltac:(lia)))
    by done. done.
Qed.

Definition grid_slots (merge : Z) (g : Grid) : Z :=
  let '(t, h, w) := g in t * h * w / (merge ^ 2) + t.

Lemma frame_grid_slots merge a b :
  0 < merge → grid_slots merge (1, merge * a, merge * b) = a * b + 1.
Proof.
  intros Hm. unfold grid_slots. f_equal.
  replace (1 * (merge * a) * (merge * b)) with (a * b * merge ^ 2) by ring.
  apply Z.div_mul. nia.
Qed.

Definition slots_of (merge : Z) (grid : list Grid) : Z :=
  foldr (fun g n => grid_slots merge g + n) 0 grid.

Lemma slots_of_app merge l k : slots_of merge (l ++ k) = slots_of merge l + slots_of merge k.
Proof. induction l as [|g l IH]; simpl; [done|]. rewrite IH. lia. Qed.

Lemma encoder_length_frames merge grid :
  0 < merge → Forall (frame_grid merge) grid →
  encoder_length_of grid merge = Ok (slots_of merge grid).
Proof.
  intros Hm Hg. unfold encoder_length_of.
  assert (forallb (fun g : Grid => (g.1.2 mod merge =? 0) && (g.2 mod merge =? 0)) grid = true)
    as ->.
  { apply forallb_forall. intros g Hin%list_elem_of_In. rewrite Forall_forall in Hg.
    destruct (Hg g Hin) as (a & b & -> & _). simpl.
    rewrite !(Z.mul_comm merge), !Z.mod_mul by lia. done. }
  simpl. f_equal. unfold slots_of. clear. induction grid as [|[[t h] w] grid IH]; [done|].
  simpl. rewrite IH. unfold grid_slots. lia.
Qed.

(** What the loop consumes and produces. *)
Lemma mrope_loop_spec image merge ids grids cur text vision rest next :
  0 < merge →
  mrope_loop image merge ids grids cur = Ok (text, vision, rest, next) →
  zlength text = zlength ids ∧ StronglySorted Z.lt text ∧
  Forall (fun p => cur ≤ p < next) text ∧ cur + zlength ids ≤ next ∧
  Forall (within cur next) vision ∧
  ∃ used, grids = used ++ rest ∧ zlength used = count_images image ids ∧
    Forall (frame_grid merge) used ∧ zlength vision = slots_of merge used.
Proof.
  intros Hm. revert grids cur text vision rest next.
  induction ids as [|x ids IH]; intros grids cur text vision rest next H; simpl in H.
  - injection H as <- <- <- <-. rewrite zlength_nil, Z.add_0_r.
    split_and!; try constructor; [done|]. by exists [].
  - destruct (Z.eqb_spec x image) as [->|Hx]; simpl in H.
    + destruct grids as [|g grids]; [done|].
      apply bind_Ok in H as ([mh mw] & He & H).
      apply frame_extent_Ok in He as (-> & Hh & Hw); [|done].
      apply bind_Ok in H as ([[[text' vision'] rest'] next'] & E & H).
      injection H as <- <- <- <-.
      destruct (IH _ _ _ _ _ _ E) as (Hl & Hs & Hr & Hn & Hv & used & -> & Hu & Hg & Hz).
      pose proof (zlength_nonneg ids). rewrite !zlength_cons.
      split_and!; [lia| | |lia| |].
      * constructor; [done|]. eapply Forall_impl; [exact Hr|]. simpl. lia.
      * constructor; [lia|]. eapply Forall_impl; [exact Hr|]. simpl. lia.
      * apply Forall_app. split.
        -- eapply Forall_impl; [by apply frame_positions_within|]. unfold within. lia.
        -- eapply Forall_impl; [exact Hv|]. unfold within. lia.
      * exists ((1, merge * mh, merge * mw) :: used). split_and!; [done| | |].
        -- rewrite zlength_cons, Hu, count_images_cons, Z.eqb_refl. lia.
        -- constructor; [by exists mh, mw|done].
        -- rewrite zlength_app, frame_positions_length, Hz by done.
           cbn [slots_of foldr]. fold (slots_of merge used).
           rewrite frame_grid_slots by done. lia.
    + apply bind_Ok in H as ([[[text' vision'] rest'] next'] & E & H).
      injection H as <- <- <- <-.
      destruct (IH _ _ _ _ _ _ E) as (Hl & Hs & Hr & Hn & Hv & used & -> & Hu & Hg & Hz).
      pose proof (zlength_nonneg ids). rewrite !zlength_cons.
      split_and!; [lia| | |lia| |].
      * constructor; [done|]. eapply Forall_impl; [exact Hr|]. simpl. lia.
      * constructor; [lia|]. eapply Forall_impl; [exact Hr|]. simpl. lia.
      * eapply Forall_impl; [exact Hv|]. unfold within. lia.
      * exists used. split_and!; [done| |done|done].
        rewrite count_images_cons. rewrite (proj2 (Z.eqb_neq _ _) Hx). lia.
Qed.

Lemma compute_mrope_Ok t grid start image merge text vision next :
  compute_realtime_mrope_for_segment t grid start image merge = Ok (text, vision, next) →
  0 < merge ∧ 0 ≤ start ∧ ∃ ids, t = T2 [ids] ∧
  zlength text = zlength ids ∧ StronglySorted Z.lt text ∧
  Forall (fun p => start ≤ p < next) text ∧ start + zlength ids ≤ next ∧
  Forall (within start next) (default [] vision) ∧
  count_images image ids = zlength (default [] grid) ∧
  Forall (frame_grid merge) (default [] grid) ∧
  zlength (default [] vision) = slots_of merge (default [] grid).
Proof.
  unfold compute_realtime_mrope_for_segment. intros H.
  apply bind_Ok in H as (ids & Hids & H).
  assert (t = T2 [ids]) as ->.
  { destruct t as [|[|r [|]]| |]; try done. by injection Hids as ->. }
  apply bind_Ok in H as (_ & Hs%raise_if_Ok & H).
  apply bind_Ok in H as (_ & Hm%raise_if_Ok & H).
  apply bind_Ok in H as ([[[text' vision'] rest'] next'] & Hl & H).
  apply bind_Ok in H as (_ & Hr%raise_if_Ok & H). injection H as -> <- ->.
  reflect_bool. subst.
  assert (default [] (if bool_decide (vision' = []) then None else Some vision') = vision') as ->
    by (by case_bool_decide).
  apply mrope_loop_spec in Hl as (? & ? & ? & ? & ? & used & Hg & ? & ? & ?); [|done].
  rewrite app_nil_r in Hg. rewrite Hg. split_and!; try done. exists ids. by split_and!.
Qed.

Lemma append_visible_Ok prev seg image c :
  append_visible_frame_counts (option_map T1 prev) (T1 seg) (VNum (NInt image)) = Ok c →
  ∃ new, c = default [] prev ++ new ∧ zlength new = zlength seg.
Proof.
  unfold append_visible_frame_counts. intros H.
  apply bind_Ok in H as (p & Hp & H).
  assert (p = default [] prev) as -> by (by destruct prev; injection Hp as <-).
  apply bind_Ok in H as (new & Hn & H). injection H as <-. exists new. split; [done|].
  unfold compute_visible_frame_counts in Hn. simpl in Hn.
  destruct (_ <? 0); [done|]. injection Hn as <-.
  unfold zlength. by rewrite visible_counts_length.
Qed.

Lemma append_positions_length p new :
  positions_length (Some (append_positions p new)) = positions_length p + zlength new.
Proof. destruct p as [[[a b] c]|]; simpl; [apply zlength_app|lia]. Qed.

(** ** What a built segment guarantees *)

Section BuilderLemmas.
Context {Image Pixels : Type}.
Context (processor : string → list Image → result (Processed Pixels)).
Context (tokenizer : string → result tensor).
Context (digest : string → Z) (pad_value : Z → Z).
Context (image_token_id merge_size : Z).
Local Abbreviation build := (build processor tokenizer digest pad_value image_token_id merge_size).

Definition frames_of (events : list FramePromptEvent) : list FramePromptEvent :=
  sort_frames id (List.filter has_frame events).

Definition committed_length (h : History) : Z :=
  default (positions_length (h_mrope_positions h)) (h_committed_decoder_length h).

(** The facts a successful build establishes, in the order it checks them. *)
Record built (events : list FramePromptEvent) (h : History) (s : Segment Pixels)
    (grid : list Grid) (new : list Z) : Prop := {
  b_events : sg_events s = events;
  b_merge : 0 < merge_size;
  b_frames : zlength grid = zlength (frames_of events);
  b_timestamps : Forall (fun e => is_ok (to_float (ev_timestamp e)) = true) (frames_of events);
  b_grid : sg_full_grid_thw s = default [] (h_grid_thw h) ++ grid;
  b_grids : Forall (frame_grid merge_size) grid;
  b_delta : sg_encoder_delta_length s = slots_of merge_size grid;
  b_pads : zlength (sg_encoder_pad_ids s) = slots_of merge_size grid;
  b_vision : zlength (default [] (sg_vision_position_ids s)) = slots_of merge_size grid;
  b_images : count_images image_token_id (sg_event_input_ids s) = zlength grid;
  b_positions : sg_mrope_positions s = append_positions (h_mrope_positions h) new;
  b_new : positions_length (h_mrope_positions h) + zlength new =
          committed_length h + h_pending_text_tokens h + zlength (sg_event_input_ids s);
  b_visible : ∃ counts, sg_visible_frame_counts s = default [] (h_visible_counts h) ++ counts ∧
              zlength counts = zlength new;
  b_next : h_next_mrope_position h + h_pending_text_tokens h
           + zlength (sg_event_input_ids s) ≤ sg_next_mrope_position s;
  b_tokens : sg_num_image_tokens s = h_committed_encoder_length h + slots_of merge_size grid
}.

Lemma sort_frames_fst (evs : list FramePromptEvent) (images : list Image) :
  length images = length evs →
  map fst (sort_frames fst (zip evs images)) = sort_frames id evs.
Proof.
  intros H. unfold sort_frames. cbn [id].
  rewrite (stable_sort_map fst (fun a b => num_lt (ev_timestamp a) (ev_timestamp b))).
  by rewrite map_fst_zip_eq.
Qed.

Lemma encode_inputs_Ok text (images : list Image) media t :
  encode_inputs processor tokenizer text images = Ok (media, t) →
  zlength (default [] (option_map snd media)) = zlength images ∧
  (media = None ↔ images = []).
Proof.
  unfold encode_inputs. case_bool_decide as Hi.
  - intros H. apply bind_Ok in H as (ids & _ & H). injection H as <- <-. subst. done.
  - intros H. apply bind_Ok in H as (pd & _ & H). apply bind_Ok in H as (g & _ & H).
    apply bind_Ok in H as (_ & Hg%raise_if_Ok & H). injection H as <- <-.
    reflect_bool. done.
Qed.

Lemma segment_positions_Ok h ids grid new vision next generated :
  segment_positions image_token_id merge_size h ids grid = Ok (new, vision, next, generated) →
  0 ≤ h_pending_text_tokens h →
  0 < merge_size ∧ generated = committed_length h - positions_length (h_mrope_positions h)
                               + h_pending_text_tokens h ∧ 0 ≤ generated ∧
  zlength new = generated + zlength ids ∧
  h_next_mrope_position h + h_pending_text_tokens h + zlength ids ≤ next ∧
  count_images image_token_id ids = zlength (default [] grid) ∧
  Forall (frame_grid merge_size) (default [] grid) ∧
  zlength (default [] vision) = slots_of merge_size (default [] grid).
Proof.
  unfold segment_positions. fold (committed_length h). intros H Hp.
  apply bind_Ok in H as (_ & Hc%raise_if_Ok & H).
  apply bind_Ok in H as (_ & Hn%raise_if_Ok & H).
  apply bind_Ok in H as ([[ev vis] nx] & Hm & H). injection H as <- <- <- <-.
  reflect_bool.
  apply compute_mrope_Ok in Hm as (Hms & Hst & ids' & [= <-] & Hl & _ & _ & Hle & _ & Hi & Hg & Hv).
  split_and!; try done; [lia|].
  rewrite zlength_app. unfold zlength at 1. rewrite length_seqZ. lia.
Qed.

Lemma slots_of_nonneg m grid : 0 < m → Forall (frame_grid m) grid → 0 ≤ slots_of m grid.
Proof.
  intros Hm. induction 1 as [|g grid (a & b & -> & Ha & Hb) _ IH]; [done|].
  cbn [slots_of foldr]. fold (slots_of m grid). rewrite frame_grid_slots by done. nia.
Qed.

Lemma build_Ok events images h s :
  build events images h = Ok s → ∃ grid new, built events h s grid new.
Proof.
  unfold Segment.build. intros H.
  apply bind_Ok in H as (_ & _ & H). apply bind_Ok in H as (_ & Hp%raise_if_Ok & H).
  apply bind_Ok in H as (_ & Hi%raise_if_Ok & H). cbv zeta in H.
  set (ordered := sort_frames fst _) in H.
  apply bind_Ok in H as (ts & Hts & H). apply bind_Ok in H as (text & _ & H).
  apply bind_Ok in H as ([media tens] & Henc & H).
  apply bind_Ok in H as (ids & _ & H).
  apply bind_Ok in H as ([[[new vis] next] gen] & Hpos & H).
  apply bind_Ok in H as (counts & Hvis & H).
  apply bind_Ok in H as ([[delta items] pads] & Hmedia & H). injection H as <-.
  apply Z.ltb_ge in Hp. apply negb_false_iff, Nat.eqb_eq in Hi.
  assert (map fst ordered = frames_of events) as Hord by by apply sort_frames_fst.
  apply segment_positions_Ok in Hpos as (Hm & -> & Hgen & Hnew & Hnext & Him & Hg & Hv); [|done].
  apply encode_inputs_Ok in Henc as [Hlen Hnone].
  apply append_visible_Ok in Hvis as (cs & -> & Hcs).
  apply rmapM_Ok_Forall in Hts as [Hts _].
  set (grid := default [] (option_map snd media)) in *.
  pose proof (slots_of_nonneg _ _ Hm Hg) as Hnn.
  assert (delta = slots_of merge_size grid ∧ zlength pads = slots_of merge_size grid) as [-> Hpads].
  { destruct media as [[px g]|]; simpl in Hmedia.
    - rewrite encoder_length_frames in Hmedia by done. simpl in Hmedia.
      apply bind_Ok in Hmedia as (hash & _ & Hmedia). injection Hmedia as <- <- <-.
      split; [done|]. unfold zlength. rewrite length_replicate. by apply Z2Nat.id.
    - by injection Hmedia as <- <- <-. }
  assert (zlength ordered = zlength (frames_of events)) as Hol.
  { rewrite <- Hord. unfold zlength. by rewrite length_map. }
  exists grid, new. split; simpl; try done.
  - rewrite Hlen, <- Hol. unfold zlength. by rewrite length_map.
  - rewrite <- Hord. apply Forall_map. eapply Forall_impl; [exact Hts|].
    intros [e i]. simpl. by destruct (to_float (ev_timestamp e)).
  - lia.
  - exists cs. split; [done|]. rewrite Hcs, zlength_app. unfold zlength at 1.
    rewrite length_replicate. lia.
Qed.
End BuilderLemmas.

(** ** Staged records *)

Lemma encoder_length_single merge g :
  0 < merge → frame_grid merge g → encoder_length_of [g] merge = Ok (grid_slots merge g).
Proof.
  intros Hm Hg. rewrite encoder_length_frames by (done || by constructor).
  simpl. f_equal. lia.
Qed.

Lemma stage_records_Ok merge (l : list (FramePromptEvent * Grid)) :
  0 < merge → Forall (frame_grid merge) (map snd l) →
  Forall (fun e => is_ok (to_float (ev_timestamp e)) = true) (map fst l) →
  ∃ rs, stage_records merge l = Ok rs ∧ length rs = length l ∧
    sum_slots rs = slots_of merge (map snd l) ∧ map grid_row rs = map snd l ∧
    Forall (fun r => fr_pooled r = false) rs.
Proof.
  intros Hm. induction l as [|[e g] l IH]; cbn [map fst snd];
    [exists []; by split_and!|intros [Hg Hgs]%Forall_cons [He Hes]%Forall_cons].
  destruct (IH Hgs Hes) as (rs & E & Hlen & Hsum & Hrow & Hraw).
  pose proof (encoder_length_single merge g Hm Hg) as Henc.
  destruct Hg as (a & b & -> & Ha & Hb). simpl.
  assert ((merge * a * (merge * b)) mod (merge ^ 2) = 0) as Hmod.
  { replace (merge * a * (merge * b)) with (a * b * merge ^ 2) by ring.
    apply Z.mod_mul. nia. }
  rewrite Hmod. simpl. destruct (to_float (ev_timestamp e)) as [f|]; [|done]. simpl.
  rewrite Henc. simpl. rewrite E. simpl. eexists. split; [done|]. simpl.
  split_and!; [by rewrite Hlen| |by rewrite Hrow|by constructor].
  fold (sum_slots rs). by rewrite Hsum.
Qed.

(** ** Properties of segments *)

(** The positions of a segment are causal: text positions strictly increase from the start,
    text and vision positions lie below the returned cursor, and there is one grid row per image
    token and one vision position per encoder slot. *)
Theorem mrope_positions_causal t grid start image merge text vision next :
  compute_realtime_mrope_for_segment t grid start image merge = Ok (text, vision, next) →
  ∃ ids, t = T2 [ids] ∧ zlength text = zlength ids ∧ StronglySorted Z.lt text ∧
    Forall (fun p => start ≤ p < next) text ∧
    Forall (within start next) (default [] vision) ∧
    count_images image ids = zlength (default [] grid) ∧
    encoder_length_of (default [] grid) merge = Ok (zlength (default [] vision)).
Proof.
  intros H. apply compute_mrope_Ok in H as
    (Hm & _ & ids & -> & Hl & Hs & Hr & _ & Hv & Hi & Hg & Hz).
  exists ids. split_and!; try done. rewrite encoder_length_frames by done. by rewrite Hz.
Qed.

Section SegmentTheorems.
Context {Image Pixels : Type}.
Context (processor : string → list Image → result (Processed Pixels)).
Context (tokenizer : string → result tensor).
Context (digest : string → Z) (pad_value : Z → Z).
Context (image_token_id merge_size : Z).
Local Abbreviation build := (build processor tokenizer digest pad_value image_token_id merge_size).

(** C27: A built segment keeps every per-token and per-slot sequence aligned: positions and
    visibility counts cover the committed history, the pending tokens and the event tokens; pad
    ids and vision positions count the encoder delta; one grid row is added per frame event; the
    position cursor never moves backwards. *)
Theorem build_segment_aligned events images h s :
  zlength (default [] (h_visible_counts h)) = positions_length (h_mrope_positions h) →
  build events images h = Ok s →
  positions_length (Some (sg_mrope_positions s)) =
    committed_length h + h_pending_text_tokens h + zlength (sg_event_input_ids s) ∧
  zlength (sg_visible_frame_counts s) = positions_length (Some (sg_mrope_positions s)) ∧
  zlength (sg_encoder_pad_ids s) = sg_encoder_delta_length s ∧
  zlength (default [] (sg_vision_position_ids s)) = sg_encoder_delta_length s ∧
  sg_num_image_tokens s = h_committed_encoder_length h + sg_encoder_delta_length s ∧
  zlength (sg_full_grid_thw s) =
    zlength (default [] (h_grid_thw h)) + zlength (List.filter has_frame events) ∧
  h_next_mrope_position h ≤ sg_next_mrope_position s.
Proof.
  intros Hh H. pose proof (build_Ok _ _ _ _ _ _ _ _ _ _ H) as (grid & new & B).
  assert (0 ≤ h_pending_text_tokens h) as Hp.
  { unfold Segment.build in H. apply bind_Ok in H as (_ & _ & H).
    by apply bind_Ok in H as (_ & Hp%raise_if_Ok%Z.ltb_ge & _). }
  destruct B as [He Hm Hf Hts Hg Hgs Hd Hpd Hv Hi Hpos Hnew (cs & Hvis & Hcs) Hnx Htk].
  rewrite Hpos, append_positions_length, Hvis, zlength_app, Hg, zlength_app, Hd.
  pose proof (zlength_nonneg (sg_event_input_ids s)).
  assert (zlength (frames_of events) = zlength (List.filter has_frame events)) as Hfl.
  { unfold zlength, frames_of, sort_frames. by rewrite stable_sort_length. }
  split_and!; (done || lia).
Qed.

(** The frame records staged for a built segment are one raw record per frame event, their
    slots sum to the segment's encoder delta and their grid rows extend the history's. *)
Theorem staged_records_match_segment events images h s :
  build events images h = Ok s →
  (List.filter has_frame events = [] ∧
   stage_segment_frame_records s merge_size = Ok None ∧ sg_encoder_delta_length s = 0) ∨
  (∃ rs, stage_segment_frame_records s merge_size = Ok (Some rs) ∧
     zlength rs = zlength (List.filter has_frame events) ∧
     sum_slots rs = sg_encoder_delta_length s ∧
     default [] (h_grid_thw h) ++ map grid_row rs = sg_full_grid_thw s ∧
     Forall (fun r => fr_pooled r = false) rs).
Proof.
  intros H. pose proof (build_Ok _ _ _ _ _ _ _ _ _ _ H) as (grid & new & B).
  destruct B as [He Hm Hf Hts Hg Hgs Hd _ _ _ _ _ _ _ _].
  unfold stage_segment_frame_records. rewrite He. fold (frames_of events).
  assert (length (frames_of events) = length (List.filter has_frame events)) as Hfl
    by apply stable_sort_length.
  assert (length grid = length (frames_of events)) as Hgl by (unfold zlength in Hf; lia).
  case_bool_decide as Hno.
  - left. rewrite Hno in Hgl, Hfl. destruct grid; [|done].
    split_and!; [by destruct (List.filter has_frame events)|done|by rewrite Hd].
  - right. rewrite Hg.
    rewrite (proj2 (Nat.ltb_ge _ _)) by (rewrite length_app; lia).
    rewrite (proj2 (Z.leb_gt _ _)) by nia. simpl.
    rewrite length_app, Hgl, Nat.add_sub, drop_app_length.
    destruct (stage_records_Ok merge_size (zip (frames_of events) grid)) as
      (rs & E & Hlen & Hsum & Hrow & Hraw); [done| | |].
    + change (map snd) with (fmap (M:=list) (snd (A:=FramePromptEvent) (B:=Grid))).
      rewrite snd_zip by lia. done.
    + change (map fst) with (fmap (M:=list) (fst (A:=FramePromptEvent) (B:=Grid))).
      rewrite fst_zip by lia. done.
    + rewrite E. exists rs.
      change (map snd) with (fmap (M:=list) (snd (A:=FramePromptEvent) (B:=Grid))) in Hsum, Hrow.
      rewrite snd_zip in Hsum, Hrow by lia. rewrite length_zip_with in Hlen.
      split_and!; [done| |by rewrite Hd|by rewrite Hrow|done].
      unfold zlength. lia.
Qed.
End SegmentTheorems.

(** ** Witnesses *)

Definition demo_event : FramePromptEvent :=
  {| ev_request_id := "r"; ev_session_id := "s"; ev_seq_no := 0;
     ev_timestamp := NInt 3; ev_frame_ref := Some "shm://a"; ev_prompt := None;
     ev_final := false; ev_fingerprint := Some "f" |}.

(** A processor that maps each image to one placeholder with a 4x4 grid. *)
Definition demo_processor (text : string) (images : list unit) : result (Processed unit) :=
  Ok {| pd_pixel_values := tt; pd_grid_thw := T2 (map (fun _ => [1; 4; 4]) images);
        pd_input_ids := T2 [[5] ++ map (fun _ => 9) images ++ [6]] |}.
Definition demo_tokenizer (text : string) : result tensor := Ok (T2 [[5; 6]]).

Definition demo_history : History :=
  {| h_mrope_positions := Some ([0; 1], [0; 1], [0; 1]); h_visible_counts := Some [0; 0];
     h_grid_thw := None; h_next_mrope_position := 2; h_committed_encoder_length := 0;
     h_committed_decoder_length := None; h_pending_text_tokens := 1 |}.

Definition demo_segment : result (Segment unit) :=
  build demo_processor demo_tokenizer (fun _ => 17) (fun h => h + 1) 9 2
    [demo_event] [tt] demo_history.

Lemma mrope_positions_causal_witness :
  compute_realtime_mrope_for_segment (T2 [[5; 9; 6]]) (Some [(1, 4, 4)]) 7 9 2 =
    Ok ([7; 10; 11],
        Some [(8, 8, 8); (8, 8, 9); (8, 9, 8); (8, 9, 9); (10, 10, 10)], 12) ∧
  StronglySorted Z.lt [7; 10; 11].
Proof.
  assert (compute_realtime_mrope_for_segment (T2 [[5; 9; 6]]) (Some [(1, 4, 4)]) 7 9 2 =
    Ok ([7; 10; 11],
        Some [(8, 8, 8); (8, 8, 9); (8, 9, 8); (8, 9, 9); (10, 10, 10)], 12)) as H
    by (vm_compute; reflexivity).
  split; [exact H|].
  destruct (mrope_positions_causal _ _ _ _ _ _ _ _ H) as (ids & _ & _ & Hs & _). exact Hs.
Defined.

Lemma build_segment_aligned_witness :
  ∃ s, demo_segment = Ok s ∧ zlength (sg_visible_frame_counts s) = 6.
Proof.
  destruct demo_segment as [s|] eqn:E; [|vm_compute in E; discriminate E].
  exists s. split; [reflexivity|].
  destruct (build_segment_aligned demo_processor demo_tokenizer (fun _ => 17)
    (fun h => h + 1) 9 2 [demo_event] [tt] demo_history s eq_refl E) as (Hl & Hv & _).
  rewrite Hv, Hl. vm_compute in E. injection E as <-. reflexivity.
Defined.

Lemma staged_records_match_segment_witness :
  ∃ s rs, demo_segment = Ok s ∧ stage_segment_frame_records s 2 = Ok (Some rs) ∧
    sum_slots rs = 5.
Proof.
  destruct demo_segment as [s|] eqn:E; [|vm_compute in E; discriminate E].
  destruct (staged_records_match_segment demo_processor demo_tokenizer (fun _ => 17)
    (fun h => h + 1) 9 2 [demo_event] [tt] demo_history s E)
    as [(Hn & _)|(rs & Hrs & _ & Hsum & _)]; [discriminate Hn|].
  exists s, rs. split; [reflexivity|]. split; [exact Hrs|].
  rewrite Hsum. vm_compute in E. injection E as <-. reflexivity.
Defined.
