(* ===== verification/FrameApply.v ===== *)
(** * Applying one round of the vision sliding window

    Models the half of
    [src/sglang_omni/models/moss_vl_realtime/frame_window.py] that rewrites a
    request: pooling into fresh slots, the page-row rewrite, the release of the
    old slots and the metadata update.  The slot allocator is an interface with
    an implementation as a free list; the mean over a group of KV cells is a
    parameter. *)
From S2P Require Import Prelude PyNum Payload Visibility KVLayout FramePlan RuntimeState.
Local Open Scope Z_scope.

(** ** The slot allocator *)

(** [alloc(n)] returns [None] under pressure; [available_size] is optional. *)
Class Allocator (A : Type) := {
  alloc : Z → M A (option (list Z));
  free : list Z → M A unit;
  available_size : A → option Z;
  free_slots : A → gset Z
}.

(** Slots are handed out from the free set and returned to it. *)
Class AllocatorLaws (A : Type) `{Allocator A} := {
  alloc_law n a :
    match alloc n a with
    | (Ok (Some l), a') => zlength l = n ∧ NoDup l ∧ Forall (fun s => 0 < s) l ∧
        list_to_set l ⊆ free_slots a ∧ free_slots a' = free_slots a ∖ list_to_set l
    | (_, a') => free_slots a' = free_slots a
    end;
  free_law l a : Forall (fun s => 0 < s) l → NoDup l → list_to_set l ## free_slots a →
    ∃ a', free l a = (Ok tt, a') ∧ free_slots a' = free_slots a ∪ list_to_set l
}.

(** The free set itself as an allocator. *)
Definition positive_part (a : gset Z) : gset Z := filter (fun s => 0 < s) a.

#[global] Instance gset_allocator : Allocator (gset Z) := {
  alloc n := fun a =>
    let l := ztake n (elements (positive_part a)) in
    if (n <? 0) || (zlength (elements (positive_part a)) <? n) then (Ok None, a)
    else (Ok (Some l), a ∖ list_to_set l);
  free l := modify (fun a => a ∪ list_to_set l);
  available_size a := Some (Z.of_nat (size (positive_part a)));
  free_slots := positive_part
}.

#[global] Instance gset_allocator_laws : AllocatorLaws (gset Z).
Proof.
  split.
  - intros n a. simpl. destruct (Z.ltb_spec n 0); simpl; [done|].
    destruct (Z.ltb_spec (zlength (elements (positive_part a))) n); [done|].
    set (all := elements (positive_part a)) in *.
    assert (∀ x, x ∈ ztake n all → x ∈ positive_part a) as Hin.
    { intros x Hx. apply elem_of_elements. unfold ztake in Hx. fold all.
      by eapply elem_of_take in Hx as (k & Hk & _); eapply list_elem_of_lookup_2. }
    split_and!.
    + apply zlength_ztake. lia.
    + pose proof (NoDup_elements (positive_part a)) as Hn. fold all in Hn.
      rewrite <- (ztake_zdrop n all) in Hn. by apply NoDup_app in Hn as [? _].
    + apply Forall_forall. intros x Hx%Hin. unfold positive_part in Hx. set_solver.
    + intros x. rewrite elem_of_list_to_set. apply Hin.
    + unfold positive_part. set_solver.
  - intros l a Hp Hn Hd. eexists. split; [done|]. simpl. unfold positive_part.
    apply set_eq. intros x. rewrite Forall_forall in Hp. specialize (Hp x). set_solver.
Qed.

(** ** The KV pool *)

Section Pool.
Context {V : Type} (mean : list V → V).

Record KVPool : Type := { k_buffer : list (list V); v_buffer : list (list V) }.

Definition index_select (buf : list V) (src : list Z) : result (list V) :=
  match mapM (fun s => if s <? 0 then None else buf !! Z.to_nat s) src with
  | Some l => Ok l
  | None => Raise (IndexError "index out of range in self")
  end.

Fixpoint index_copy (dst : list Z) (vals : list V) (buf : list V) : result (list V) :=
  match dst, vals with
  | s :: dst', v :: vals' =>
      if (s <? 0) || (zlength buf <=? s)
      then Raise (IndexError "index out of range in self")
      else index_copy dst' vals' (<[Z.to_nat s := v]> buf)
  | _, _ => Ok buf
  end.

(** The mean at each of the [width] positions over the rows of the members. *)
Definition pooled_rows (buf : list V) (member_runs : list (list Z)) (width : nat)
  : result (list V) :=
  rows ← rmapM (index_select buf) member_runs;
  Ok (map (fun j => mean (omap (fun row : list V => row !! j) rows)) (seq 0 width)).

(** Each layer in turn; a failure keeps the layers already written. *)
Fixpoint pool_layers (member_runs : list (list Z)) (width : nat) (dst : list Z)
    (ks vs : list (list V)) : result unit * (list (list V) * list (list V)) :=
  match ks, vs with
  | [], [] => (Ok tt, ([], []))
  | k :: ks', v :: vs' =>
      match pooled_rows k member_runs width, pooled_rows v member_runs width with
      | Ok pk, Ok pv =>
          match index_copy dst pk k with
          | Raise e => (Raise e, (ks, vs))
          | Ok k' =>
              match index_copy dst pv v with
              | Raise e => (Raise e, (k' :: ks', vs))
              | Ok v' =>
                  let '(r, (ks2, vs2)) := pool_layers member_runs width dst ks' vs' in
                  (r, (k' :: ks2, v' :: vs2))
              end
          end
      | Raise e, _ => (Raise e, (ks, vs))
      | _, Raise e => (Raise e, (ks, vs))
      end
  | _, _ => (Raise (ValueError "zip() arguments have different lengths"), (ks, vs))
  end.

Definition pool_all (member_runs : list (list Z)) (width : nat) (dst : list Z)
  : M KVPool unit := fun p =>
  let '(r, (ks, vs)) := pool_layers member_runs width dst (k_buffer p) (v_buffer p) in
  (r, {| k_buffer := ks; v_buffer := vs |}).

Definition pool_group_into_slots (member_runs : list (list Z)) (dst : list Z)
  : M KVPool unit :=
  match member_runs with
  | [] => throw (IndexError "list index out of range")
  | run :: _ =>
      _ ← guard_raise (existsb (fun r => negb (length r =? length run)%nat) member_runs)
            (RuntimeError "pool chunks require uniform member slot widths");
      pool_all member_runs (length run) dst
  end.
End Pool.
Arguments KVPool V : clear implicits.

(** ** The request's other views of the encoder region *)

Record MMInputs : Type := {
  i_num_image_tokens : Z;
  i_media_nums_per_sample : option (list Z);
  i_visible_frame_counts : option (list Z);
  (** the grid stored with each item *)
  i_item_grids : list (option (list (Z * Z * Z)))
}.

#[global] Instance eta_MMInputs : Eta MMInputs := fun i =>
  {| i_num_image_tokens := i_num_image_tokens i;
     i_media_nums_per_sample := i_media_nums_per_sample i;
     i_visible_frame_counts := i_visible_frame_counts i; i_item_grids := i_item_grids i |}.

(** [None] where the request lacks the attribute. *)
Record ReqView : Type := {
  v_multimodal_inputs : option MMInputs;
  v_kv_allocated_len : option Z;
  v_kv_committed_len : option Z
}.

#[global] Instance eta_ReqView : Eta ReqView := fun v =>
  {| v_multimodal_inputs := v_multimodal_inputs v; v_kv_allocated_len := v_kv_allocated_len v;
     v_kv_committed_len := v_kv_committed_len v |}.

(** The live decode batch: the position of the request in it, if any. *)
Record BatchView : Type := {
  b_index : option nat;
  b_encoder_lens_cpu : option (list Z);
  b_encoder_lens : option (list Z)
}.

Record FrameWindowEvent : Type := {
  fe_evicted_virtual_frames : nat;
  fe_pooled_raw_frames : nat;
  fe_produced_virtual_frames : nat;
  fe_dropped_raw_frames : nat;
  fe_encoder_length_before : Z;
  fe_encoder_length_after : Z;
  fe_surviving_frame_count : Z;
  fe_pool_free_slots : option Z
}.

(** ** Preparing the metadata *)

(** [remap[min(v, len(records))]], negative indices from the end. *)
Definition remap_count (remap : list nat) (v : Z) : result Z :=
  let i := Z.min v (zlength remap - 1) in
  let j := if i <? 0 then i + zlength remap else i in
  match (if j <? 0 then None else remap !! Z.to_nat j) with
  | Some k => Ok (Z.of_nat k)
  | None => Raise (IndexError "list index out of range")
  end.

Definition remap_counts (remap : list nat) (counts : option (list Z))
  : result (option (list Z)) :=
  match counts with
  | None => Ok None
  | Some l => l' ← rmapM (remap_count remap) l; Ok (Some l')
  end.

(** The tensors of the state and of the request are looked up by identity; a
    shared tensor is replaced by one value in both places. *)
Record PreparedUpdate : Type := {
  pu_dropped_units : Z;
  pu_full_grid_thw : option (list (Z * Z * Z));
  pu_state_counts : option (list Z);
  pu_input_counts : option (list Z)
}.

Definition prepare_metadata_update (req : ReqView) (state : RuntimeState)
    (records : list FrameRecord) (plan : WindowPlan) : result PreparedUpdate :=
  spans ← covered_spans records plan;
  remap ← visible_count_remap (length records) spans;
  let grid := match r_full_grid_thw state with
              | Some _ => Some (map grid_row (p_new_records plan))
              | None => None
              end in
  state_counts ← remap_counts remap (r_visible_frame_counts state);
  input_counts ← remap_counts remap
    (match v_multimodal_inputs req with Some i => i_visible_frame_counts i | None => None end);
  Ok {| pu_dropped_units := Z.of_nat (dropped_raw_count plan) +
          foldr (fun r n => fr_pooled_sources r + n) 0
            (take (p_evicted_virtual_count plan) records);
        pu_full_grid_thw := grid; pu_state_counts := state_counts;
        pu_input_counts := input_counts |}.

(** ** Committing the metadata *)

Definition commit_state_metadata (u : PreparedUpdate) (plan : WindowPlan)
    (s : RuntimeState) : RuntimeState :=
  s <| r_frame_records := Some (p_new_records plan) |>
    <| r_evicted_frame_count := r_evicted_frame_count s + pu_dropped_units u |>
    <| r_surviving_frame_count := zlength (p_new_records plan) |>
    <| r_full_grid_thw :=
         match r_full_grid_thw s with Some _ => pu_full_grid_thw u | None => None end |>
    <| r_visible_frame_counts := pu_state_counts u |>.

(** [grid] is the state's grid after its update. *)
Definition commit_inputs (u : PreparedUpdate) (grid : option (list (Z * Z * Z)))
    (encoder_len : Z) (i : MMInputs) : MMInputs :=
  i <| i_visible_frame_counts := pu_input_counts u |>
    <| i_num_image_tokens := encoder_len |>
    <| i_media_nums_per_sample :=
         match i_media_nums_per_sample i, grid with
         | Some _, Some g => Some [zlength g]
         | o, _ => o
         end |>
    <| i_item_grids :=
         match i_item_grids i, grid with
         | _ :: rest, Some g => Some g :: rest
         | l, _ => l
         end |>.

Definition commit_request (u : PreparedUpdate) (grid : option (list (Z * Z * Z)))
    (encoder_len decoder_len : Z) (v : ReqView) : ReqView :=
  let total := encoder_len + decoder_len in
  v <| v_multimodal_inputs :=
         option_map (commit_inputs u grid encoder_len) (v_multimodal_inputs v) |>
    <| v_kv_allocated_len := option_map (fun _ => total) (v_kv_allocated_len v) |>
    <| v_kv_committed_len := option_map (fun _ => total) (v_kv_committed_len v) |>.

Definition set_nth (i : nat) (x : Z) (l : list Z) : result (list Z) :=
  if (i <? length l)%nat then Ok (<[i := x]> l)
  else Raise (IndexError "list assignment index out of range").

Definition update_batch (encoder_len : Z) : M (option BatchView) unit :=
  b ← get;
  match b with
  | None => mret tt
  | Some b =>
      match b_index b with
      | None => mret tt
      | Some i =>
          cpu ← lift (match b_encoder_lens_cpu b with
                      | Some l => l' ← set_nth i encoder_len l; Ok (Some l')
                      | None => Ok None
                      end);
          _ ← put (Some {| b_index := Some i; b_encoder_lens_cpu := cpu;
                           b_encoder_lens := b_encoder_lens b |});
          lens ← lift (match b_encoder_lens b with
                       | Some l => l' ← set_nth i encoder_len l; Ok (Some l')
                       | None => Ok None
                       end);
          put (Some {| b_index := Some i; b_encoder_lens_cpu := cpu; b_encoder_lens := lens |})
      end
  end.

(** ** [apply_frame_window_plan] *)

Section Apply.
Context {A V : Type} `{Allocator A} (mean : list V → V).

Record Window : Type := {
  fw_world : World A;
  fw_kv : KVPool V;
  fw_req : ReqView;
  fw_batch : option BatchView
}.

#[global] Instance eta_Window : Eta Window := fun w =>
  {| fw_world := fw_world w; fw_kv := fw_kv w; fw_req := fw_req w; fw_batch := fw_batch w |}.

Definition on_world {B} : M (World A) B → M Window B := zoom fw_world (assign fw_world).
Definition on_kv {B} : M (KVPool V) B → M Window B := zoom fw_kv (assign fw_kv).
Definition on_batch {B} : M (option BatchView) B → M Window B :=
  zoom fw_batch (assign fw_batch).

Definition run_at (runs : list (list Z)) (i : nat) : result (list Z) :=
  match runs !! i with
  | Some r => Ok r
  | None => Raise (IndexError "list index out of range")
  end.

Definition poolable (c : Chunk) : bool := c.2.
Definition poolable_chunks (plan : WindowPlan) : list Chunk :=
  List.filter poolable (p_raw_chunks plan).

Definition sum_nat_Z (l : list nat) : Z := Z.of_nat (sum_list l).

(** Allocate the pooled slots, or degrade the round to pure eviction. *)
Definition choose_slots (runs : list (list Z)) (ov : nat) (records : list FrameRecord)
    (plan : WindowPlan) (kv_pool_provider : result bool)
  : M Window (WindowPlan * list nat * option (list Z)) :=
  if bool_decide (poolable_chunks plan = []) then mret (plan, [], None) else
  widths ← lift (rmapM (fun c : Chunk => r ← run_at runs (ov + c.1.1); Ok (length r))
                   (poolable_chunks plan));
  present ← lift kv_pool_provider;
  dst ← (if (present : bool) then on_world (on_pool (alloc (sum_nat_Z widths)))
         else mret None);
  match dst with
  | Some l => mret (plan, widths, Some l)
  | None => mret (degrade records plan, [], None)
  end.

(** Pool each chunk into its share of the new slots. *)
Fixpoint pool_chunks (runs : list (list Z)) (ov : nat) (chunks : list Chunk)
    (widths : list nat) (dst : list Z) : M Window (list (list Z)) :=
  match chunks, widths with
  | [], [] => mret []
  | (start, count, _) :: chunks', width :: widths' =>
      member_runs ← lift (rmapM (fun j => run_at runs (ov + start + j)) (seq 0 count));
      _ ← on_kv (pool_group_into_slots mean member_runs (take width dst));
      rest ← pool_chunks runs ov chunks' widths' (drop width dst);
      mret (take width dst :: rest)
  | _, _ => throw (ValueError "zip() arguments have different lengths")
  end.

(** The fallible part, up to and including the page-row rewrite. *)
Definition rewrite_row (layout : KVLayout) (index : Z) (runs : list (list Z)) (ov : nat)
    (records : list FrameRecord) (plan : WindowPlan) (widths : list nat)
    (dst : option (list Z)) : M Window (PreparedUpdate * list (list Z) * list Z) :=
  w ← get;
  prepared ← lift (prepare_metadata_update (fw_req w) (w_state (fw_world w)) records plan);
  produced_runs ←
    match poolable_chunks plan, dst with
    | [], _ => mret []
    | _, None => throw (RuntimeError "pooling slots were not allocated")
    | chunks, Some d => pool_chunks runs ov chunks widths d
    end;
  let aged := (pooled_raw_count plan + dropped_raw_count plan)%nat in
  let new_encoder_slots :=
    concat (drop (p_evicted_virtual_count plan) (take ov runs) ++ produced_runs
            ++ drop (ov + aged) runs) in
  new_layout ← lift (make_layout new_encoder_slots (decoder_slots layout));
  _ ← on_world (on_table (write_req_to_token_layout index new_layout true));
  mret (prepared, produced_runs, new_encoder_slots).

Definition free_new (dst : option (list Z)) : M Window unit :=
  match dst with
  | Some (s :: l) => on_world (on_pool (free (s :: l)))
  | _ => mret tt
  end.

(** Release the old slots and assign the prepared metadata. *)
Definition complete_round (state : RuntimeState) (runs : list (list Z)) (ov : nat)
    (plan : WindowPlan) (prepared : PreparedUpdate) (produced_runs : list (list Z))
    (new_encoder_slots : list Z) : M Window FrameWindowEvent :=
  let aged := (pooled_raw_count plan + dropped_raw_count plan)%nat in
  let freed := concat (take (p_evicted_virtual_count plan) runs)
               ++ concat (take aged (drop ov runs)) in
  _ ← (if bool_decide (freed = []) then mret tt else on_world (on_pool (free freed)));
  let encoder_len := zlength new_encoder_slots in
  _ ← on_world (on_state (modify (commit_state_metadata prepared plan)));
  w ← get;
  _ ← assign_to fw_req
        (commit_request prepared (r_full_grid_thw (w_state (fw_world w))) encoder_len
           (r_decoder_length state) (fw_req w));
  _ ← on_batch (update_batch encoder_len);
  w ← get;
  _ ← on_world (on_state (assign_to r_encoder_length encoder_len));
  mret {| fe_evicted_virtual_frames := p_evicted_virtual_count plan;
          fe_pooled_raw_frames := pooled_raw_count plan;
          fe_produced_virtual_frames := length produced_runs;
          fe_dropped_raw_frames := dropped_raw_count plan;
          fe_encoder_length_before := r_encoder_length state;
          fe_encoder_length_after := encoder_len;
          fe_surviving_frame_count := zlength (p_new_records plan);
          fe_pool_free_slots := available_size (w_pool (fw_world w)) |}.

Definition apply_frame_window_plan (plan : WindowPlan) (records : list FrameRecord)
    (kv_pool_provider : result bool) : M Window FrameWindowEvent :=
  _ ← guard_raise (negb (removes_frames plan))
        (ValueError "refusing to apply an empty frame window plan");
  w ← get;
  let state := w_state (fw_world w) in
  index ← lift (match r_req_pool_index state with
                | Some i => Ok i
                | None => Raise (RuntimeError "frame window requires a bound page-table row")
                end);
  layout ← lift (read_req_to_token_layout (w_table (fw_world w)) index
                   (r_encoder_length state) (r_decoder_length state));
  runs ← lift (record_slot_runs records (encoder_slots layout));
  let ov := count_pooled records in
  '(plan, widths, dst) ← choose_slots runs ov records plan kv_pool_provider;
  '(prepared, produced_runs, new_encoder_slots) ←
    try_except (rewrite_row layout index runs ov records plan widths dst)
      (fun e => _ ← free_new dst; throw e);
  complete_round state runs ov plan prepared produced_runs new_encoder_slots.
End Apply.

(** ** Slots of the records *)

Lemma sum_slots_app l k : sum_slots (l ++ k) = sum_slots l + sum_slots k.
Proof. unfold sum_slots. induction l as [|r l IH]; simpl; [done|]. rewrite IH. lia. Qed.

Definition sized (records : list FrameRecord) : Prop := Forall (fun r => 0 ≤ fr_slots r) records.

Lemma sum_slots_nonneg l : sized l → 0 ≤ sum_slots l.
Proof. induction 1 as [|r l Hr _ IH]; [done|]. unfold sum_slots in *. simpl. lia. Qed.

Lemma slot_runs_spec records slots :
  sized records → sum_slots records = zlength slots →
  concat (slot_runs records slots) = slots ∧
  Forall2 (fun r run => zlength run = fr_slots r) records (slot_runs records slots).
Proof.
  intros Hs. revert slots. induction Hs as [|r records Hr Hs IH]; intros slots H; simpl.
  - unfold sum_slots, zlength in H. simpl in H. destruct slots; [by split|simpl in H; lia].
  - pose proof (sum_slots_nonneg _ Hs) as Hn. unfold sum_slots in *. simpl in H.
    destruct (IH (zdrop (fr_slots r) slots)) as [Hc Hf]; [rewrite zlength_zdrop; lia|].
    rewrite Hc. split; [apply ztake_zdrop|]. constructor; [|done]. apply zlength_ztake. lia.
Qed.

Lemma slot_runs_length records slots : length (slot_runs records slots) = length records.
Proof. revert slots. induction records; intros; simpl; auto. Qed.

Lemma record_slot_runs_Ok records slots runs :
  record_slot_runs records slots = Ok runs ↔
  sum_slots records = zlength slots ∧ runs = slot_runs records slots.
Proof.
  unfold record_slot_runs. destruct (Z.eqb_spec (sum_slots records) (zlength slots)); simpl;
    naive_solver.
Qed.

(** Evicted, kept, consumed and kept again: the runs of a round. *)
Lemma runs_split {B} (e v a : nat) (runs : list B) :
  (e ≤ v)%nat →
  runs = take e runs ++ drop e (take v runs) ++ take a (drop v runs) ++ drop (v + a) runs.
Proof.
  intros He. rewrite <- (take_drop v runs) at 1.
  rewrite <- (take_drop e (take v runs)) at 1. rewrite take_take, Nat.min_l by done.
  rewrite <- (take_drop a (drop v runs)) at 1. by rewrite drop_drop, <- !app_assoc.
Qed.

Lemma sum_counts_degrade chunks :
  sum_counts true (map (fun c : Chunk => (c.1.1, c.1.2, false)) chunks) = 0%nat ∧
  sum_counts false (map (fun c : Chunk => (c.1.1, c.1.2, false)) chunks) =
    (sum_counts true chunks + sum_counts false chunks)%nat.
Proof.
  unfold sum_counts. induction chunks as [|[[s k] []] chunks [IH1 IH2]]; simpl in *; lia.
Qed.

(** ** Allocation and release *)

Section ApplyLemmas.
Context {A V : Type} `{HA : Allocator A} {HL : AllocatorLaws A} (mean : list V → V).
Local Abbreviation Win := (@Window A V).

(** The parts a round must not change when it fails. *)
Definition same_request (w w' : Win) : Prop :=
  w_state (fw_world w') = w_state (fw_world w) ∧
  w_table (fw_world w') = w_table (fw_world w) ∧
  fw_req w' = fw_req w ∧ fw_batch w' = fw_batch w.

Definition free_of (w : Win) : gset Z := free_slots (w_pool (fw_world w)).

(** The slots the poolable chunks need, one run each. *)
Definition chunks_width (runs : list (list Z)) (ov : nat) (chunks : list Chunk) : Z :=
  foldr (fun (c : Chunk) n => zlength (default [] (runs !! (ov + c.1.1)%nat)) + n) 0 chunks.

Lemma widths_sum runs ov chunks widths :
  rmapM (fun c : Chunk => r ← run_at runs (ov + c.1.1); Ok (length r)) chunks = Ok widths →
  sum_nat_Z widths = chunks_width runs ov chunks.
Proof.
  unfold sum_nat_Z. revert widths. induction chunks as [|c chunks IH]; intros widths H; simpl in H.
  - by injection H as <-.
  - destruct (run_at runs (ov + c.1.1)) as [run|] eqn:Er; [|done]. simpl in H.
    assert (runs !! (ov + c.1.1)%nat = Some run) as Hrun.
    { unfold run_at in Er. by destruct (runs !! _); simplify_eq. }
    cbn [chunks_width foldr]. fold (chunks_width runs ov chunks). rewrite Hrun. simpl.
    destruct (rmapM _ chunks) as [ws|]; [|done]. injection H as <-.
    rewrite <- (IH ws eq_refl). simpl. unfold zlength. lia.
Qed.

(** What the slot choice leaves: the plan as it is with its slots taken from
    the free set, or a plan without pooling. *)
Definition chosen (runs : list (list Z)) (ov : nat) (records : list FrameRecord) (plan : WindowPlan) (w w' : Win)
    (plan' : WindowPlan) (widths : list nat) (dst : option (list Z)) : Prop :=
  match dst with
  | Some d => plan' = plan ∧ poolable_chunks plan ≠ [] ∧ zlength d = sum_nat_Z widths ∧
      sum_nat_Z widths = chunks_width runs ov (poolable_chunks plan) ∧ NoDup d ∧
      Forall (fun s => 0 < s) d ∧ list_to_set d ⊆ free_of w ∧
      free_of w' = free_of w ∖ list_to_set d
  | None => (plan' = plan ∨ plan' = degrade records plan) ∧
      poolable_chunks plan' = [] ∧ free_of w' = free_of w
  end.

Lemma poolable_degrade records plan : poolable_chunks (degrade records plan) = [].
Proof.
  unfold poolable_chunks. simpl. induction (p_raw_chunks plan) as [|c l IH]; [done|].
  exact IH.
Qed.

Lemma choose_slots_spec runs ov records plan prov (w : Win) r w' :
  choose_slots runs ov records plan prov w = (r, w') →
  same_request w w' ∧ fw_kv w' = fw_kv w ∧
  match r with
  | Ok (plan', widths, dst) => chosen runs ov records plan w w' plan' widths dst
  | Raise _ => free_of w' = free_of w
  end.
Proof.
  unfold choose_slots, free_of. case_bool_decide as Hp.
  - intros [= <- <-]. split_and!; try done. simpl. by split_and!; [left| |].
  - destruct w as [[st tb pl] kv rq bt].
    unfold lift, mbind, M_bind, on_world, on_pool, zoom.
    destruct (rmapM _ (poolable_chunks plan)) as [widths|e] eqn:Ew; [|by intros [= <- <-]].
    apply widths_sum in Ew.
    destruct prov as [[]|e]; [| |by intros [= <- <-]].
    + cbn [fw_world w_pool].
      pose proof (alloc_law (sum_nat_Z widths) pl) as Hl.
      destruct (alloc (sum_nat_Z widths) pl) as [[[d|]|e] pl']; intros [= <- <-].
      * split_and!; try done. simpl. destruct_and!. by split_and!.
      * split_and!; try done. simpl. split_and!; [by right|apply poolable_degrade|done].
      * split_and!; try done.
    + intros [= <- <-]. split_and!; try done. simpl.
      split_and!; [by right|apply poolable_degrade|done].
Qed.

Lemma pool_chunks_spec runs ov chunks widths d (w : Win) r w' :
  pool_chunks mean runs ov chunks widths d w = (r, w') →
  w' = w <| fw_kv := fw_kv w' |> ∧
  ∀ produced, r = Ok produced →
    length produced = length chunks ∧
    (zlength d = sum_nat_Z widths → concat produced = d).
Proof.
  revert widths d w r w'. induction chunks as [|[[start count] b] chunks IH];
    intros widths d w r w' H; destruct widths as [|width widths]; simpl in H.
  - injection H as <- <-. split; [by destruct w|]. intros p [= <-]. split; [done|].
    unfold sum_nat_Z. simpl. intros Hd. destruct d; [done|]. unfold zlength in Hd. simpl in Hd. lia.
  - injection H as <- <-. split; [by destruct w|done].
  - injection H as <- <-. split; [by destruct w|done].
  - unfold lift, on_kv, zoom, mbind, M_bind in H.
    destruct (rmapM _ (seq 0 count)) as [ms|e]; [|injection H as <- <-; split; [by destruct w|done]].
    destruct (pool_group_into_slots mean ms (take width d) (fw_kv w)) as [[[]|e] kv'];
      [|injection H as <- <-; split; [by destruct w|done]].
    destruct (pool_chunks mean runs ov chunks widths (drop width d) _) as [[rest|e] w2] eqn:E.
    + injection H as <- <-. apply IH in E as [Hw Hr]. split.
      * rewrite Hw. by destruct w.
      * intros p [= <-]. destruct (Hr rest eq_refl) as [Hl Hc]. split; [simpl; by rewrite Hl|].
        intros Hd. simpl. unfold sum_nat_Z, zlength in *. simpl in Hd.
        rewrite Hc; [apply take_drop|]. rewrite length_drop. lia.
    + injection H as <- <-. apply IH in E as [Hw _]. split; [|done].
      rewrite Hw. by destruct w.
Qed.

Definition aged_count (plan : WindowPlan) : nat :=
  (pooled_raw_count plan + dropped_raw_count plan)%nat.

(** The encoder region a round leaves. *)
Definition compacted (runs produced : list (list Z)) (ov : nat) (plan : WindowPlan) : list Z :=
  concat (drop (p_evicted_virtual_count plan) (take ov runs) ++ produced
          ++ drop (ov + aged_count plan) runs).

Lemma rewrite_row_spec layout index runs ov records plan widths dst (w : Win) r w' :
  rewrite_row mean layout index runs ov records plan widths dst w = (r, w') →
  match r with
  | Raise _ => w' = w <| fw_kv := fw_kv w' |>
  | Ok (prepared, produced, enc) =>
      prepare_metadata_update (fw_req w) (w_state (fw_world w)) records plan = Ok prepared ∧
      length produced = length (poolable_chunks plan) ∧
      (poolable_chunks plan = [] → produced = []) ∧
      (∀ d, dst = Some d → poolable_chunks plan ≠ [] → zlength d = sum_nat_Z widths →
         concat produced = d) ∧
      enc = compacted runs produced ov plan ∧
      wf_layout {| encoder_slots := enc; decoder_slots := decoder_slots layout |} ∧
      ∃ tb, write_req_to_token_layout index
          {| encoder_slots := enc; decoder_slots := decoder_slots layout |} true
          (w_table (fw_world w)) = (Ok tt, tb) ∧
        w' = w <| fw_kv := fw_kv w' |> <| fw_world := fw_world w <| w_table := tb |> |>
  end.
Proof.
  unfold rewrite_row. intros H. unfold get, mbind, M_bind, lift in H.
  destruct (prepare_metadata_update _ _ _ _) as [prepared|e];
    [|injection H as <- <-; by destruct w].
  match type of H with context [match ?m with (_, _) => _ end = _] => set (pool := m) in H end.
  assert (pool.2 = w <| fw_kv := fw_kv pool.2 |> ∧ ∀ produced, pool.1 = Ok produced →
    length produced = length (poolable_chunks plan) ∧
    (poolable_chunks plan = [] → produced = []) ∧
    ∀ d, dst = Some d → poolable_chunks plan ≠ [] → zlength d = sum_nat_Z widths →
      concat produced = d) as [Hw Hprod].
  { unfold pool. destruct (poolable_chunks plan) as [|c cs] eqn:Ec.
    - split; [by destruct w|]. intros produced [= <-]. by split_and!.
    - destruct dst as [d|]; [|split; [by destruct w|done]].
      destruct (pool_chunks mean runs ov (c :: cs) widths d w) as [r0 w0] eqn:E.
      apply pool_chunks_spec in E as [E1 E2]. split; [exact E1|].
      intros produced Hr. simpl in Hr. destruct (E2 _ Hr) as [E3 E4].
      split_and!; [done|done|]. intros d' [= <-] _. exact E4. }
  destruct pool as [[produced|e] w1]; [|by injection H as <- <-].
  destruct (Hprod produced eq_refl) as (Hl & Hnil & Hc). simpl in Hw.
  fold (aged_count plan) in H. fold (compacted runs produced ov plan) in H.
  destruct (make_layout _ _) as [nl|e] eqn:Enl; [|by injection H as <- <-].
  apply make_layout_Ok in Enl as [-> Hwf].
  unfold on_world, on_table, zoom in H.
  destruct (write_req_to_token_layout index _ true _) as [[[]|e] tb] eqn:Ew.
  - injection H as <- <-. split_and!; try done.
    exists tb. rewrite Hw in Ew. split; [exact Ew|]. rewrite Hw. by destruct w as [[]].
  - injection H as <- <-.
    assert (tb = w_table (fw_world w1)) as ->.
    { revert Ew. unfold write_req_to_token_layout. mrun.
      destruct (validate_row_arguments _ _ _); [done|]. by intros [= _ <-]. }
    rewrite Hw. by destruct w as [[]].
Qed.

Definition batch_ok (b : option BatchView) : Prop :=
  ∀ b' k, b = Some b' → b_index b' = Some k →
    (∀ l, b_encoder_lens_cpu b' = Some l → k < length l)%nat ∧
    (∀ l, b_encoder_lens b' = Some l → k < length l)%nat.

Lemma update_batch_Ok n b : batch_ok b → ∃ b', update_batch n b = (Ok tt, b').
Proof.
  intros Hb. unfold update_batch. destruct b as [[[k|] cpu lens]|]; mrun; [|by eexists..].
  destruct (Hb _ k eq_refl eq_refl) as [Hc Hl]. simpl in *.
  unfold set_nth. destruct cpu as [c|]; simpl.
  - rewrite (proj2 (Nat.ltb_lt _ _)) by (by apply Hc). simpl.
    destruct lens as [l|]; simpl; [|by eexists].
    rewrite (proj2 (Nat.ltb_lt _ _)) by (by apply Hl). by eexists.
  - destruct lens as [l|]; simpl; [|by eexists].
    rewrite (proj2 (Nat.ltb_lt _ _)) by (by apply Hl). by eexists.
Qed.

(** ** What a frame count becomes *)

Definition nonneg_counts (counts : option (list Z)) : Prop :=
  Forall (fun v => 0 ≤ v) (default [] counts).

(** Of the [v] first old frames, those whose span survives, among [n] old records. *)
Definition frames_seen (n : nat) (spans : list (nat * nat)) (v : Z) : Z :=
  Z.of_nat (started (Z.to_nat (Z.min v (Z.of_nat n))) spans).

Definition remapped (n : nat) (spans : list (nat * nat)) (counts counts' : option (list Z)) : Prop :=
  nonneg_counts counts → counts' = option_map (map (frames_seen n spans)) counts.

Lemma remap_counts_seen n spans K counts counts' :
  visible_count_remap n spans = Ok K → remap_counts K counts = Ok counts' → remapped n spans counts counts'.
Proof.
  intros [Hlen HK]%visible_count_remap_Ok H Hn. destruct counts as [l|]; [|by injection H as <-].
  unfold remap_counts in H. apply bind_Ok in H as (l' & H & [= <-]). simpl. f_equal. unfold nonneg_counts in Hn. simpl in Hn.
  revert l' H. induction Hn as [|v l Hv _ IH]; intros l' H; [by injection H as <-|].
  cbn [rmapM] in H. apply bind_Ok in H as (k & Hk & H). apply bind_Ok in H as (ks & Hks & [= <-]). simpl. f_equal; [|by apply IH].
  unfold remap_count, zlength in Hk. rewrite Hlen in Hk. replace (Z.of_nat (S n) - 1) with (Z.of_nat n) in Hk by lia.
  replace (Z.min v (Z.of_nat n) <? 0) with false in Hk by (symmetry; apply Z.ltb_ge; lia). rewrite HK in Hk by lia.
  cbv beta iota zeta in Hk. rewrite (proj2 (Z.ltb_ge _ _)) in Hk by lia. by injection Hk as <-.
Qed.

(** A request a round may be applied to. *)
Record ready (w : Win) (records : list FrameRecord) (plan : WindowPlan) (i : Z)
    (L : KVLayout) : Prop := {
  rd_rect : rectangular (w_table (fw_world w));
  rd_index : r_req_pool_index (w_state (fw_world w)) = Some i;
  rd_read : read_req_to_token_layout (w_table (fw_world w)) i
              (r_encoder_length (w_state (fw_world w)))
              (r_decoder_length (w_state (fw_world w))) = Ok L;
  rd_sized : sized records;
  rd_free : list_to_set (as_tuple L) ## free_of w;
  rd_evict : (p_evicted_virtual_count plan ≤ count_pooled records)%nat;
  rd_batch : batch_ok (fw_batch w)
}.

(** Slot accounting of a round, over the four parts of the old region. *)
Lemma slots_conserved (E K C R d : list Z) (f : gset Z) :
  NoDup (E ++ K ++ C ++ R) → list_to_set (E ++ K ++ C ++ R) ## f →
  list_to_set d ⊆ f →
  let f' := (f ∖ list_to_set d) ∪ list_to_set (E ++ C) in
  NoDup (E ++ C) ∧ list_to_set (E ++ C) ## f ∖ list_to_set d ∧
  list_to_set (K ++ d ++ R) ∪ f' = list_to_set (E ++ K ++ C ++ R) ∪ f ∧
  list_to_set (K ++ d ++ R) ## f'.
Proof.
  intros Hn Hd Hs. apply NoDup_app in Hn as (HE & HEx & Hn).
  apply NoDup_app in Hn as (HK & HKx & Hn). apply NoDup_app in Hn as (HC & HCx & HR).
  split_and!.
  - apply NoDup_app. split_and!; [done| |done]. intros x Hx. specialize (HEx x Hx). set_solver.
  - set_solver.
  - apply set_eq. intros x. destruct (decide (x ∈ d)); set_solver.
  - rewrite !list_to_set_app_L in *. apply elem_of_disjoint. intros x Hx Hf.
    rewrite !elem_of_union, elem_of_difference, !elem_of_list_to_set in *.
    specialize (HEx x). specialize (HKx x). specialize (HCx x). specialize (Hs x).
    specialize (Hd x). rewrite ?elem_of_union, ?elem_of_list_to_set, ?elem_of_app in *. tauto.
Qed.

(** A write of an encoder region no wider than the old one fits and reads back. *)
Lemma old_region w records plan i L :
  ready w records plan i L →
  wf_layout L ∧ zlength (encoder_slots L) = r_encoder_length (w_state (fw_world w)) ∧
  zlength (decoder_slots L) = r_decoder_length (w_state (fw_world w)).
Proof.
  intros Hr. pose proof (rd_read _ _ _ _ _ Hr) as H.
  pose proof (read_lengths _ _ _ _ _ H (rd_rect _ _ _ _ _ Hr)) as (He & Hd & _).
  split_and!; [|done|done].
  unfold read_req_to_token_layout in H. apply bind_Ok in H as (_ & _ & H).
  apply bind_Ok in H as (_ & _ & H). by apply make_layout_Ok in H as [-> ?].
Qed.

(** The retained slots of an encoder region: its virtual frames less the evicted ones, and its
    raw frames less the aged ones. *)
Definition retained_virtual (records : list FrameRecord) (plan : WindowPlan) (slots : list Z) : list Z :=
  concat (drop (p_evicted_virtual_count plan) (take (count_pooled records) (slot_runs records slots))).
Definition retained_raw (records : list FrameRecord) (plan : WindowPlan) (slots : list Z) : list Z :=
  concat (drop (count_pooled records + aged_count plan) (slot_runs records slots)).

(** What a completed round leaves. *)
Record applied (w w' : Win) (i : Z) (L : KVLayout) (records : list FrameRecord) (enc : list Z) (plan' : WindowPlan)
    (ev : FrameWindowEvent) : Prop := {
  ap_encoder : ∃ new, list_to_set new ⊆ free_of w ∧
               enc = retained_virtual records plan' (encoder_slots L) ++ new ++
                     retained_raw records plan' (encoder_slots L);
  ap_counts : ∃ spans, covered_spans records plan' = Ok spans ∧
              remapped (length records) spans (r_visible_frame_counts (w_state (fw_world w)))
                (r_visible_frame_counts (w_state (fw_world w'))) ∧
              match v_multimodal_inputs (fw_req w), v_multimodal_inputs (fw_req w') with
              | Some inputs, Some inputs' =>
                  remapped (length records) spans (i_visible_frame_counts inputs) (i_visible_frame_counts inputs') ∧
                  i_num_image_tokens inputs' = zlength enc
              | None, None => True
              | _, _ => False
              end;
  ap_read : read_req_to_token_layout (w_table (fw_world w')) i
              (r_encoder_length (w_state (fw_world w')))
              (r_decoder_length (w_state (fw_world w'))) =
            Ok {| encoder_slots := enc; decoder_slots := decoder_slots L |};
  ap_other : ∀ j, 0 ≤ j → j ≠ i →
             row_at (w_table (fw_world w')) j = row_at (w_table (fw_world w)) j;
  ap_slots : list_to_set enc ∪ free_of w' =
             list_to_set (encoder_slots L) ∪ free_of w ∧ list_to_set enc ## free_of w';
  ap_length : r_encoder_length (w_state (fw_world w')) = zlength enc ∧
              fe_encoder_length_after ev = zlength enc ∧
              v_kv_committed_len (fw_req w') =
                option_map (fun _ => zlength enc + zlength (decoder_slots L))
                  (v_kv_committed_len (fw_req w)) ∧
              v_kv_allocated_len (fw_req w') =
                option_map (fun _ => zlength enc + zlength (decoder_slots L))
                  (v_kv_allocated_len (fw_req w));
  ap_records : r_frame_records (w_state (fw_world w')) = Some (p_new_records plan') ∧
               r_surviving_frame_count (w_state (fw_world w')) = zlength (p_new_records plan')
}.

Lemma free_new_law dst (w : Win) :
  (∀ d, dst = Some d → Forall (fun s => 0 < s) d ∧ NoDup d ∧ list_to_set d ## free_of w) →
  ∃ w', free_new dst w = (Ok tt, w') ∧ same_request w w' ∧
    free_of w' = free_of w ∪ list_to_set (default [] dst).
Proof.
  intros Hd. unfold free_new, on_world, on_pool, zoom. destruct dst as [[|s l]|].
  - exists w. split_and!; try done. set_solver.
  - destruct (Hd _ eq_refl) as (Hp & Hn & Hx).
    destruct (free_law (s :: l) (w_pool (fw_world w)) Hp Hn Hx) as (pl & E & Hf).
    rewrite E. eexists. split_and!; [done|by destruct w as [[]]..|]. exact Hf.
  - exists w. split_and!; try done. set_solver.
Qed.

(** The state of the pooled slots just before the fallible part. *)
Lemma chosen_dst runs ov records plan w w' plan' widths dst :
  chosen runs ov records plan w w' plan' widths dst →
  (∀ d, dst = Some d → Forall (fun s => 0 < s) d ∧ NoDup d ∧ list_to_set d ## free_of w') ∧
  free_of w' = free_of w ∖ list_to_set (default [] dst) ∧
  (list_to_set (default [] dst) ⊆ free_of w) ∧
  (p_evicted_virtual_count plan' = p_evicted_virtual_count plan) ∧
  (∀ produced, (poolable_chunks plan' = [] → produced = []) →
    (∀ d, dst = Some d → poolable_chunks plan' ≠ [] → zlength d = sum_nat_Z widths →
       concat produced = d) → concat produced = default [] dst) ∧
  zlength (default [] dst) = chunks_width runs ov (poolable_chunks plan').
Proof.
  unfold chosen. destruct dst as [d|]; simpl.
  - intros (-> & Hne & Hl & Hw & Hn & Hps & Hs & ->). split_and!; try done; [| |by rewrite Hl].
    + intros d' [= <-]. split_and!; [done|done|set_solver].
    + intros produced _ Hc. by apply Hc.
  - intros (Hp & Hnil & ->). split_and!; [done|set_solver|set_solver|by destruct Hp as [-> | ->]| |by rewrite Hnil].
    intros produced Hc _. by rewrite Hc.
Qed.

Definition freed_slots (runs : list (list Z)) (ov : nat) (plan : WindowPlan) : list Z :=
  concat (take (p_evicted_virtual_count plan) runs)
  ++ concat (take (aged_count plan) (drop ov runs)).

(** Everything after the row rewrite succeeds. *)
Lemma complete_round_spec state runs ov plan prepared produced enc (w : Win) :
  Forall (fun s => 0 < s) (freed_slots runs ov plan) → NoDup (freed_slots runs ov plan) →
  list_to_set (freed_slots runs ov plan) ## free_of w → batch_ok (fw_batch w) →
  ∃ ev w', complete_round state runs ov plan prepared produced enc w = (Ok ev, w') ∧
    free_of w' = free_of w ∪ list_to_set (freed_slots runs ov plan) ∧
    w_table (fw_world w') = w_table (fw_world w) ∧
    w_state (fw_world w') =
      commit_state_metadata prepared plan (w_state (fw_world w))
        <| r_encoder_length := zlength enc |> ∧
    (∃ g, fw_req w' = commit_request prepared g (zlength enc) (r_decoder_length state) (fw_req w)) ∧
    fe_encoder_length_after ev = zlength enc.
Proof.
  intros Hp Hn Hd Hb. destruct w as [[st tb pl] kv rq bt]. unfold free_of in *. simpl in *.
  unfold complete_round. fold (aged_count plan). fold (freed_slots runs ov plan).
  destruct (update_batch_Ok (zlength enc) bt Hb) as [bt' Ebt].
  assert (∃ pl', (if bool_decide (freed_slots runs ov plan = []) then (Ok tt, pl)
      else free (freed_slots runs ov plan) pl) = (Ok tt, pl') ∧
    free_slots pl' = free_slots pl ∪ list_to_set (freed_slots runs ov plan)) as (pl' & Epl & Hpl).
  { case_bool_decide as Hf; [exists pl; rewrite Hf; split; [done|set_solver]|].
    by apply free_law. }
  unfold on_world, on_batch, on_pool, on_state, zoom. mrun.
  destruct (bool_decide (freed_slots runs ov plan = [])); simpl.
  - injection Epl as <-. rewrite Ebt. simpl. eexists _, _. split; [done|]. simpl.
    split_and!; try done. by eexists.
  - rewrite Epl. simpl. rewrite Ebt. simpl. eexists _, _. split; [done|]. simpl.
    split_and!; try done. by eexists.
Qed.

Lemma apply_atomic plan records prov (w w' : Win) i L r :
  ready w records plan i L →
  apply_frame_window_plan mean plan records prov w = (r, w') →
  match r with
  | Raise _ => same_request w w' ∧ free_of w' = free_of w
  | Ok ev => ∃ enc plan' produced,
      applied w w' i L records enc plan' ev ∧ (plan' = plan ∨ plan' = degrade records plan) ∧
      is_ok (covered_spans records plan') = true ∧
      length produced = length (poolable_chunks plan') ∧
      zlength (concat produced) = chunks_width (slot_runs records (encoder_slots L))
        (count_pooled records) (poolable_chunks plan') ∧
      enc = compacted (slot_runs records (encoder_slots L)) produced (count_pooled records) plan'
  end.
Proof.
  intros Hrd H. destruct (old_region _ _ _ _ _ Hrd) as (HwfL & HeL & HdL).
  destruct Hrd as [Hrect Hidx Hread Hsz Hfree Hev Hbat].
  unfold apply_frame_window_plan in H. mrun in H.
  destruct (negb (removes_frames plan)); simpl in H; [by injection H as <- <-|].
  rewrite Hidx in H. simpl in H. rewrite Hread in H. simpl in H.
  destruct (record_slot_runs records (encoder_slots L)) as [runs|e] eqn:Hruns;
    simpl in H; [|by injection H as <- <-].
  apply record_slot_runs_Ok in Hruns as [Hsum ->].
  destruct (slot_runs_spec _ _ Hsz Hsum) as [Hconc Hlens].
  set (runs := slot_runs records (encoder_slots L)) in *.
  destruct (choose_slots runs (count_pooled records) records plan prov w)
    as [[[[plan' widths] dst]|e] w1] eqn:Hch;
    apply choose_slots_spec in Hch as (Hsame & Hkv & Hcho); simpl in H.
  2: { injection H as <- <-. done. }
  destruct (chosen_dst _ _ _ _ _ _ _ _ _ Hcho) as (Hdst & Hf1 & Hsub & Hev' & Hcat & Hwid).
  destruct Hsame as (Hst & Htb & Hrq & Hbt).
  unfold try_except in H.
  assert (free_of w1 = free_of w ∖ list_to_set (default [] dst)) as Hf1' by exact Hf1.
  destruct (rewrite_row mean L i runs (count_pooled records) records plan' widths dst w1)
    as [[[[prepared produced] enc]|e] w2] eqn:Hrw; apply rewrite_row_spec in Hrw; simpl in H.
  2: { (* the new slots go back *)
    destruct (free_new_law dst w2) as (w3 & E3 & (S1 & S2 & S3 & S4) & F3).
    { intros d Hd. rewrite Hrw. by apply Hdst. }
    unfold mbind, M_bind, throw in H. rewrite E3 in H. injection H as <- <-.
    rewrite Hrw in S1, S2, S3, S4, F3. simpl in *.
    split; [split_and!; congruence|]. rewrite F3.
    change (free_of (w1 <| fw_kv := fw_kv w2 |>)) with (free_of w1). rewrite Hf1'.
    apply set_eq. intros x. destruct (decide (x ∈ default [] dst)); set_solver. }
  destruct Hrw as (Hprep & Hlp & Hnil & Hcd & Henc & Hwf & tb & Hw & Hw2).
  rewrite Htb in Hw.
  (* the four parts of the old region *)
  pose proof (runs_split (p_evicted_virtual_count plan') (count_pooled records)
    (aged_count plan') runs ltac:(lia)) as Hsplit.
  set (E := concat (take (p_evicted_virtual_count plan') runs)).
  set (K := concat (drop (p_evicted_virtual_count plan') (take (count_pooled records) runs))).
  set (C := concat (take (aged_count plan') (drop (count_pooled records) runs))).
  set (R := concat (drop (count_pooled records + aged_count plan') runs)).
  assert (encoder_slots L = E ++ K ++ C ++ R) as Hold.
  { rewrite <- Hconc, Hsplit, !concat_app. done. }
  assert (enc = K ++ default [] dst ++ R) as Hnew.
  { rewrite Henc. unfold compacted. rewrite !concat_app. fold K R.
    by rewrite (Hcat produced Hnil Hcd). }
  assert (NoDup (E ++ K ++ C ++ R)) as HnoE.
  { rewrite <- Hold. destruct HwfL as [_ Hn]. by apply NoDup_app in Hn as [? _]. }
  assert (list_to_set (E ++ K ++ C ++ R) ## free_of w) as HdE.
  { rewrite <- Hold. unfold as_tuple in Hfree. set_solver. }
  destruct (slots_conserved E K C R (default [] dst) (free_of w) HnoE HdE Hsub)
    as (Hc1 & Hc2 & Hc3 & Hc4).
  destruct (complete_round_spec (w_state (fw_world w)) runs (count_pooled records) plan'
    prepared produced enc w2) as (ev & w3 & E3 & F3 & T3 & S3 & (g & R3) & L3).
  { destruct HwfL as [Hpos _]. unfold as_tuple in Hpos. rewrite Hold, !Forall_app in Hpos.
    unfold freed_slots. fold E C. apply Forall_app. naive_solver. }
  { exact Hc1. }
  { rewrite Hw2. change (free_of (w1 <| fw_kv := fw_kv w2 |>
      <| fw_world := fw_world w1 <| w_table := tb |> |>)) with (free_of w1).
    rewrite Hf1'. exact Hc2. }
  { rewrite Hw2. change (batch_ok (fw_batch w1)). by rewrite Hbt. }
  rewrite E3 in H. injection H as <- <-.
  exists enc, plan', produced.
  assert (r_decoder_length (w_state (fw_world w3)) = r_decoder_length (w_state (fw_world w))) as Hdl.
  { rewrite S3, Hw2. unfold commit_state_metadata. fields. by rewrite Hst. }
  split_and!; [split|..].
  - exists (default [] dst). split; [exact Hsub|]. rewrite Hnew. reflexivity.
  - unfold prepare_metadata_update in Hprep. apply bind_Ok in Hprep as (spans & Hsp & Hprep).
    apply bind_Ok in Hprep as (K' & HK & Hprep). apply bind_Ok in Hprep as (k1 & Hk1 & Hprep').
    apply bind_Ok in Hprep' as (k2 & Hk2 & [= <-]). exists spans. split; [done|].
    rewrite Hst in Hk1. rewrite Hrq in Hk2. split.
    + rewrite S3. unfold commit_state_metadata. fields. by eapply remap_counts_seen.
    + rewrite R3, Hw2. unfold commit_request. fields. rewrite Hrq.
      destruct (v_multimodal_inputs (fw_req w)) as [inputs|]; [|done]. simpl. split; [by eapply remap_counts_seen|done].
  - rewrite T3, S3, Hw2. unfold commit_state_metadata. fields. rewrite Hst, <- HdL.
    by apply (write_read _ _ _ _ _ Hrect Hw).
  - intros j Hj Hne. rewrite T3, Hw2. simpl. by apply (write_other _ _ _ _ _ Hw).
  - assert (free_of w3 = (free_of w ∖ list_to_set (default [] dst)) ∪ list_to_set (E ++ C)) as ->.
    { rewrite F3, Hw2. change (free_of (w1 <| fw_kv := fw_kv w2 |>
        <| fw_world := fw_world w1 <| w_table := tb |> |>)) with (free_of w1).
      by rewrite Hf1'. }
    rewrite Hnew, Hold. split; [exact Hc3|exact Hc4].
  - rewrite S3, R3, Hw2. unfold commit_request. fields. rewrite Hrq, HdL.
    split_and!; try done; by destruct (fw_req w).
  - rewrite S3. unfold commit_state_metadata. by fields.
  - unfold chosen in Hcho. destruct dst; [left; apply Hcho|apply Hcho].
  - unfold prepare_metadata_update in Hprep.
    by destruct (covered_spans records plan').
  - done.
  - by rewrite (Hcat produced Hnil Hcd).
  - done.
Qed.
End ApplyLemmas.

(** ** A planned round keeps records and slots in step *)

Definition matches_run (r : FrameRecord) (run : list Z) : Prop := zlength run = fr_slots r.

Lemma concat_matches l runs : Forall2 matches_run l runs → zlength (concat runs) = sum_slots l.
Proof.
  induction 1 as [|r run l runs Hr _ IH]; [done|]. simpl. rewrite zlength_app, Hr, IH. done.
Qed.

Lemma chunks_width_matches records runs v chunks produced :
  Forall2 matches_run records runs →
  Forall2 (chunk_width (drop v records)) chunks produced →
  chunks_width runs v chunks = sum_slots produced ∧
  (sized records → sized produced).
Proof.
  intros Hm. induction 1 as [|c r chunks produced (m & Hlk & Hs) _ [IH1 IH2]];
    [by split; [|constructor]|].
  cbn [chunks_width foldr]. fold (chunks_width runs v chunks).
  rewrite lookup_drop in Hlk.
  destruct (Forall2_lookup_l _ _ _ _ _ Hm Hlk) as (run & Hrun & Hlen).
  rewrite Hrun. simpl. rewrite IH1. unfold matches_run in Hlen. split; [by rewrite Hlen, Hs|].
  intros Hsz. constructor; [|by apply IH2]. rewrite Hs.
  by apply (Forall_lookup_1 _ _ _ _ Hsz Hlk).
Qed.

Definition well_ordered (records : list FrameRecord) : Prop :=
  existsb fr_pooled (drop (prefix_len fr_pooled records) records) = false.

Lemma well_ordered_app vs raws :
  Forall (fun r => fr_pooled r = true) vs → Forall (fun r => fr_pooled r = false) raws →
  well_ordered (vs ++ raws).
Proof.
  intros Hv Hr. unfold well_ordered. rewrite virtual_region_app, drop_app_length by done.
  by apply existsb_false_Forall.
Qed.

(** The records of the effective plan describe the compacted region. *)
Lemma compacted_described config records plan plan' slots produced :
  wf_config config → plan_frame_window records config = Ok (Some plan) →
  (plan' = plan ∨ plan' = degrade records plan) →
  sized records → sum_slots records = zlength slots →
  let runs := slot_runs records slots in
  zlength (concat produced) = chunks_width runs (count_pooled records) (poolable_chunks plan') →
  zlength (compacted runs produced (count_pooled records) plan') = sum_slots (p_new_records plan') ∧
  sized (p_new_records plan') ∧ well_ordered (p_new_records plan').
Proof.
  intros Hcfg Hp Hp' Hsz Hsum runs Hprod.
  destruct (slot_runs_spec _ _ Hsz Hsum) as [_ Hm]. fold runs in Hm.
  change (Forall2 matches_run records runs) in Hm.
  destruct (plan_shape _ _ _ Hcfg Hp) as (pc & d & vs & Hparts).
  set (v := prefix_len fr_pooled records) in *.
  destruct Hparts as [Hv Hlead Hraw Hbound Hev Hcnt Hnew Hpv Hwid].
  unfold compacted. rewrite !concat_app, !zlength_app, Hprod. rewrite Hv.
  assert (p_evicted_virtual_count plan' = p_evicted_virtual_count plan ∧ aged_count plan' = pc)
    as [-> ->].
  { unfold aged_count, pooled_raw_count, dropped_raw_count in *.
    destruct Hp' as [-> | ->]; [done|]. simpl.
    pose proof (sum_counts_degrade (p_raw_chunks plan)). simpl in *. lia. }
  set (e := p_evicted_virtual_count plan) in *.
  rewrite (concat_matches (drop e (take v records))) by (by apply Forall2_drop, Forall2_take).
  rewrite (concat_matches (drop (v + pc) records)) by (by apply Forall2_drop).
  assert (sized (drop e (take v records)) ∧ sized (drop (v + pc) records)) as [Hs1 Hs2].
  { split; [by apply Forall_drop, Forall_take|by apply Forall_drop]. }
  assert (Forall (fun r => fr_pooled r = true) (drop e (take v records))) as Ho1
    by by apply Forall_drop.
  assert (Forall (fun r => fr_pooled r = false) (drop (v + pc) records)) as Ho2.
  { rewrite <- drop_drop. by apply Forall_drop. }
  destruct Hp' as [-> | ->].
  - rewrite Hnew. fold e.
    destruct (chunks_width_matches _ _ _ _ _ Hm Hwid) as [Hw1 Hw2].
    rewrite !sum_slots_app. unfold poolable_chunks. change poolable with (fun c : Chunk => c.2).
    fold (poolables (p_raw_chunks plan)). rewrite Hw1. split_and!; [done| |].
    + apply Forall_app. split; [done|]. apply Forall_app. split; [by apply Hw2|done].
    + rewrite app_assoc. apply well_ordered_app; [|done].
      apply Forall_app. split; [done|by apply Forall_drop].
  - rewrite poolable_degrade. cbn [chunks_width foldr degrade p_new_records].
    unfold degraded_new_records. rewrite Hv, Hcnt. fold e.
    rewrite sum_slots_app. split_and!; [lia| |by apply well_ordered_app].
    apply Forall_app. by split.
Qed.

(** ** A round without pooling always completes *)

Lemma remap_count_Ok n K v : length K = S n → 0 ≤ v → ∃ k, remap_count K v = Ok k.
Proof.
  intros Hl Hv. unfold remap_count, zlength. rewrite Hl.
  replace (Z.min v (Z.of_nat (S n) - 1) <? 0) with false by (symmetry; apply Z.ltb_ge; lia).
  replace (Z.min v (Z.of_nat (S n) - 1) <? 0) with false by (symmetry; apply Z.ltb_ge; lia).
  destruct (lookup_lt_is_Some_2 K (Z.to_nat (Z.min v (Z.of_nat (S n) - 1)))) as [k Hk]; [lia|].
  rewrite Hk. by eexists.
Qed.

Lemma remap_counts_Ok n K counts :
  length K = S n → nonneg_counts counts → ∃ counts', remap_counts K counts = Ok counts'.
Proof.
  intros Hl Hc. destruct counts as [l|]; [|by eexists].
  assert (∃ l', rmapM (remap_count K) l = Ok l') as [l' E].
  { unfold nonneg_counts in Hc. simpl in Hc.
    induction Hc as [|v l0 Hv _ [l' IH]]; [by eexists|].
    destruct (remap_count_Ok n K v Hl Hv) as [k Ek].
    exists (k :: l'). cbn [rmapM]. rewrite Ek, IH. done. }
  unfold remap_counts. rewrite E. by eexists.
Qed.

Lemma prepare_Ok config records plan req st :
  wf_config config → plan_frame_window records config = Ok (Some plan) →
  nonneg_counts (r_visible_frame_counts st) →
  (∀ i, v_multimodal_inputs req = Some i → nonneg_counts (i_visible_frame_counts i)) →
  ∃ u, prepare_metadata_update req st records plan = Ok u.
Proof.
  intros Hcfg Hp Hs Hi. destruct (plan_sound _ _ _ Hcfg Hp) as (spans & Hc & Ho & _).
  unfold prepare_metadata_update. rewrite Hc. simpl.
  destruct (remap_spec (length records) spans 0 0 (replicate (length records + 1) 0%nat) Ho) as
    (c' & p' & r' & K & E & EK & LK & _); [rewrite length_replicate; lia|].
  assert (visible_count_remap (length records) spans = Ok K) as HK.
  { unfold visible_count_remap. rewrite E. exact EK. }
  rewrite HK. simpl.
  destruct (remap_counts_Ok _ _ _ LK Hs) as [c1 ->]. simpl.
  assert (nonneg_counts match v_multimodal_inputs req with
    | Some i => i_visible_frame_counts i | None => None end) as Hi'.
  { destruct (v_multimodal_inputs req); [by apply Hi|constructor]. }
  destruct (remap_counts_Ok _ _ _ LK Hi') as [c2 ->]. simpl. by eexists.
Qed.

Lemma no_pooling_chunks config records plan :
  w_pooling_enabled config = false → plan_frame_window records config = Ok (Some plan) →
  poolable_chunks plan = [].
Proof.
  intros Hpool H. unfold plan_frame_window in H.
  destruct (negb _ || _); [done|]. destruct (existsb _ _); simpl in H; [done|].
  destruct (age_raws _ _) as [[pc chunks] produced] eqn:Hage.
  assert (poolables chunks = []) as Hch.
  { unfold age_raws in Hage. rewrite Hpool in Hage. clear H.
    injection Hage as _ <- _. by case_match. }
  destruct (_ && _); [done|]. change (poolables (p_raw_chunks plan) = []).
  destruct (_ =? 0)%nat; injection H as <-; simpl; [done|].
  by rewrite poolables_demote, Hch, drop_nil.
Qed.

Section RawRound.
Context {A V : Type} `{HA : Allocator A} {HL : AllocatorLaws A} (mean : list V → V).
Local Abbreviation Win := (@Window A V).

Lemma rewrite_row_raw layout index runs ov records plan u (w : Win) :
  poolable_chunks plan = [] →
  prepare_metadata_update (fw_req w) (w_state (fw_world w)) records plan = Ok u →
  let enc := compacted runs [] ov plan in
  wf_layout {| encoder_slots := enc; decoder_slots := decoder_slots layout |} →
  0 ≤ index < zlength (w_table (fw_world w)) →
  zlength enc + zlength (decoder_slots layout) ≤ row_width (w_table (fw_world w)) →
  ∃ w', rewrite_row mean layout index runs ov records plan [] None w = (Ok (u, [], enc), w').
Proof.
  intros Hn Hu enc Hwf Hi Hw. unfold rewrite_row. unfold get, mbind, M_bind, lift, mret, M_ret.
  rewrite Hu, Hn. fold (aged_count plan). fold (compacted runs [] ov plan). fold enc.
  rewrite make_layout_wf by done. unfold on_world, on_table, zoom.
  rewrite write_layout_fits by done. by eexists.
Qed.

(** The rows kept by a round without pooling. *)
Lemma compacted_raw_slots records slots plan :
  sized records → sum_slots records = zlength slots → NoDup slots →
  (p_evicted_virtual_count plan ≤ count_pooled records)%nat →
  let runs := slot_runs records slots in
  let enc := compacted runs [] (count_pooled records) plan in
  let freed := freed_slots runs (count_pooled records) plan in
  slots ≡ₚ freed ++ enc.
Proof.
  intros Hsz Hsum Hn Hev runs enc freed.
  destruct (slot_runs_spec _ _ Hsz Hsum) as [Hconc _]. fold runs in Hconc.
  rewrite <- Hconc. unfold enc, freed, compacted, freed_slots.
  rewrite (runs_split (p_evicted_virtual_count plan) (count_pooled records)
    (aged_count plan) runs) at 1 by done.
  rewrite !concat_app. simpl. rewrite <- !app_assoc. apply Permutation_app_head. apply Permutation_app_swap_app.
Qed.

Lemma raw_round_Ok plan records prov u (w : Win) i L :
  removes_frames plan = true → poolable_chunks plan = [] →
  prepare_metadata_update (fw_req w) (w_state (fw_world w)) records plan = Ok u →
  ready w records plan i L → sum_slots records = zlength (encoder_slots L) →
  ∃ ev w', apply_frame_window_plan mean plan records prov w = (Ok ev, w').
Proof.
  intros Hrm Hn Hu Hrd Hsum.
  destruct (old_region _ _ _ _ _ Hrd) as ([Hpos Hnd] & HeL & HdL).
  destruct Hrd as [Hrect Hidx Hread Hsz Hfree Hev Hbat].
  pose proof (read_lengths _ _ _ _ _ Hread Hrect) as (_ & _ & Hi & Hfit & _ & _).
  unfold as_tuple in *. apply NoDup_app in Hnd as (HnE & HnX & HnD).
  pose proof (compacted_raw_slots records (encoder_slots L) plan Hsz Hsum HnE Hev) as Hperm.
  set (runs := slot_runs records (encoder_slots L)) in *. cbv zeta in Hperm.
  set (enc := compacted runs [] (count_pooled records) plan) in *.
  set (freed := freed_slots runs (count_pooled records) plan) in *.
  rewrite Hperm in HnE. apply NoDup_app in HnE as (HnF & HFx & HnC).
  rewrite Forall_app, Hperm, Forall_app in Hpos. destruct Hpos as [[HpF HpC] HpD].
  unfold apply_frame_window_plan. mrun. rewrite Hrm. simpl. rewrite Hidx. simpl.
  rewrite Hread. simpl.
  rewrite (proj2 (record_slot_runs_Ok _ _ runs)) by done. simpl.
  unfold choose_slots. rewrite Hn. simpl. unfold mret, M_ret, try_except.
  destruct (rewrite_row_raw L i runs (count_pooled records) records plan u w Hn Hu) as [w2 Hrw].
  - unfold wf_layout, as_tuple. simpl. fold enc. split; [by apply Forall_app|].
    apply NoDup_app. split_and!; [done| |done]. intros x Hx. apply HnX.
    rewrite Hperm, elem_of_app. auto.
  - done.
  - fold enc. assert (zlength enc ≤ zlength (encoder_slots L)); [|lia].
    unfold zlength. rewrite Hperm, length_app. lia.
  - rewrite Hrw. apply rewrite_row_spec in Hrw as (_ & _ & _ & _ & _ & _ & tb & _ & ->).
    destruct (complete_round_spec (w_state (fw_world w)) runs (count_pooled records) plan u []
      (compacted runs [] (count_pooled records) plan)
      (w <| fw_kv := fw_kv w2 |> <| fw_world := fw_world w <| w_table := tb |> |>))
      as (ev & w3 & E3 & _); try done.
    + change (list_to_set freed ## free_of w).
      intros x Hx%elem_of_list_to_set. apply Hfree. apply elem_of_list_to_set.
      rewrite Hperm, !elem_of_app. auto.
    + rewrite E3. by eexists _, _.
Qed.
End RawRound.

(** ** Properties of a round *)

Section ApplyTheorems.
Context {A V : Type} `{HA : Allocator A} {HL : AllocatorLaws A} (mean : list V → V).
Local Abbreviation Win := (@Window A V).

(** C1: A sliding-window round over a live request is atomic: when [apply_frame_window_plan]
    raises, the page-table row, the request, its bookkeeping and the allocator's free set are
    what they were. When it succeeds, the request's row, lengths, records and allocated lengths
    are those of the plan (or of its drop-only degradation): the encoder part of the row holds
    the slots of the retained virtual frames, the newly placed ones, taken from the free set,
    and those of the retained raw frames, in this order; the visible frame counts of the state
    and of the inputs are the number of surviving spans each token saw; and every slot is either
    retained, newly placed or returned to the allocator, exactly once. *)
Theorem window_round_atomic plan records prov (w w' : Win) i L r :
  ready w records plan i L →
  apply_frame_window_plan mean plan records prov w = (r, w') →
  match r with
  | Raise _ => same_request w w' ∧ free_of w' = free_of w
  | Ok ev => ∃ enc plan', applied w w' i L records enc plan' ev ∧
      (plan' = plan ∨ plan' = degrade records plan)
  end.
Proof.
  intros Hrd H. pose proof (apply_atomic mean _ _ _ _ _ _ _ _ Hrd H) as Ha.
  destruct r as [ev|]; [|done]. destruct Ha as (enc & plan' & produced & Ha & Hp & _).
  by exists enc, plan'.
Qed.

(** C28: After a successful round of a planned window update the committed records still
    describe the encoder region: their slots sum to the encoder length, their number is the
    surviving frame count, each is well sized and virtual frames precede raw ones. *)
Theorem window_round_described config plan records prov (w w' : Win) i L ev :
  wf_config config → plan_frame_window records config = Ok (Some plan) →
  ready w records plan i L →
  apply_frame_window_plan mean plan records prov w = (Ok ev, w') →
  ∃ recs, r_frame_records (w_state (fw_world w')) = Some recs ∧
    sum_slots recs = r_encoder_length (w_state (fw_world w')) ∧
    r_surviving_frame_count (w_state (fw_world w')) = zlength recs ∧
    sized recs ∧ well_ordered recs.
Proof.
  intros Hcfg Hp Hrd H. pose proof (apply_atomic mean _ _ _ _ _ _ _ _ Hrd H) as
    (enc & plan' & produced & Ha & Hp' & Hcov & _ & Hcw & Henc).
  destruct (ap_records _ _ _ _ _ _ _ _ Ha) as [Hr Hs].
  destruct (ap_length _ _ _ _ _ _ _ _ Ha) as [Hl _].
  pose proof (old_region _ _ _ _ _ Hrd) as (_ & _ & _).
  assert (sum_slots records = zlength (encoder_slots L)) as Hsum.
  { destruct (old_region _ _ _ _ _ Hrd) as (_ & HeL & _). revert H.
    unfold apply_frame_window_plan. mrun. destruct (negb (removes_frames plan)); [done|]. simpl.
    rewrite (rd_index _ _ _ _ _ Hrd). simpl. rewrite (rd_read _ _ _ _ _ Hrd). simpl.
    destruct (record_slot_runs records (encoder_slots L)) as [runs|] eqn:E; [|done].
    intros _. by apply record_slot_runs_Ok in E as [? _]. }
  destruct (compacted_described _ _ _ _ _ produced Hcfg Hp Hp' (rd_sized _ _ _ _ _ Hrd) Hsum Hcw)
    as (Hc & Hsz & Ho).
  exists (p_new_records plan'). rewrite Hl, Henc, Hs. by split_and!.
Qed.

(** A planned round without pooling always completes on a request whose records describe
    its encoder region, and the encoder length becomes the sum of the surviving records. *)
Theorem raw_window_round_completes config plan records prov (w : Win) i L :
  wf_config config → plan_frame_window records config = Ok (Some plan) →
  w_pooling_enabled config = false →
  ready w records plan i L → sum_slots records = zlength (encoder_slots L) →
  nonneg_counts (r_visible_frame_counts (w_state (fw_world w))) →
  (∀ inputs, v_multimodal_inputs (fw_req w) = Some inputs →
     nonneg_counts (i_visible_frame_counts inputs)) →
  ∃ ev w', apply_frame_window_plan mean plan records prov w = (Ok ev, w') ∧
    r_encoder_length (w_state (fw_world w')) = sum_slots (p_new_records plan).
Proof.
  intros Hcfg Hp Hpool Hrd Hsum Hc1 Hc2.
  assert (poolable_chunks plan = []) as Hnone by by eapply no_pooling_chunks.
  destruct (prepare_Ok _ _ _ (fw_req w) _ Hcfg Hp Hc1 Hc2) as [u Hu].
  destruct (plan_shape _ _ _ Hcfg Hp) as (pc & d & vs & Hparts).
  assert (∃ ev w', apply_frame_window_plan mean plan records prov w = (Ok ev, w')) as (ev & w' & E).
  { eapply raw_round_Ok; try done. by eapply plan_removes. }
  exists ev, w'. split; [done|].
  pose proof (apply_atomic mean _ _ _ _ _ _ _ _ Hrd E) as
    (enc & plan' & produced & Ha & Hp' & _ & _ & Hcw & Henc).
  destruct (ap_length _ _ _ _ _ _ _ _ Ha) as [Hl _].
  destruct (compacted_described _ _ _ _ _ produced Hcfg Hp Hp' (rd_sized _ _ _ _ _ Hrd) Hsum Hcw)
    as (Hc & _ & _).
  rewrite Hl, Henc, Hc. destruct Hp' as [-> | ->]; [done|]. simpl.
  destruct Hparts as [Hv _ _ _ _ Hcnt Hnew _ Hwid].
  unfold degraded_new_records. rewrite Hnew, Hv, Hcnt.
  change (poolables (p_raw_chunks plan) = []) in Hnone. rewrite Hnone in Hwid.
  inversion Hwid as [Hd|]; subst. done.
Qed.
End ApplyTheorems.

(** ** Witnesses *)

Definition demo_layout : KVLayout :=
  {| encoder_slots := [1; 2; 3; 4; 5; 6]; decoder_slots := [7; 8] |}.

Definition demo_window : @Window (gset Z) Z :=
  {| fw_world := {| w_state := fresh_state "r" "s" <| r_req_pool_index := Some 0 |>
                                <| r_encoder_length := 6 |> <| r_decoder_length := 2 |>
                                <| r_visible_frame_counts := Some [1; 3] |>;
                    w_table := [[1; 2; 3; 4; 5; 6; 7; 8; 0; 0]]; w_pool := {[20; 21]} |};
     fw_kv := {| k_buffer := []; v_buffer := [] |};
     fw_req := {| v_multimodal_inputs := None; v_kv_allocated_len := Some 8;
                  v_kv_committed_len := Some 8 |};
     fw_batch := None |}.

Lemma demo_ready : ready demo_window demo_records demo_plan 0 demo_layout.
Proof.
  split.
  - intros r Hr. simpl in Hr. apply elem_of_cons in Hr as [->|Hr]; [reflexivity|].
    by apply elem_of_nil in Hr.
  - reflexivity.
  - vm_compute. reflexivity.
  - repeat constructor; simpl; lia.
  - intros x Hx Hf. unfold free_of in Hf. simpl in Hf. unfold positive_part in Hf.
    set_unfold. lia.
  - simpl. lia.
  - intros b k Hb. discriminate Hb.
Qed.

Definition demo_round : result FrameWindowEvent * @Window (gset Z) Z :=
  apply_frame_window_plan (default 0 ∘ head) demo_plan demo_records (Ok false) demo_window.

Lemma window_round_atomic_witness :
  ∃ ev enc plan', demo_round.1 = Ok ev ∧
    applied demo_window demo_round.2 0 demo_layout demo_records enc plan' ev.
Proof.
  unfold demo_round. destruct (apply_frame_window_plan _ _ _ _ _) as [r w'] eqn:E.
  pose proof (window_round_atomic (default 0 ∘ head) demo_plan demo_records (Ok false)
    demo_window w' 0 demo_layout r demo_ready E) as H.
  destruct r as [ev|e].
  - destruct H as (enc & plan' & H & _). exists ev, enc, plan'. split; [reflexivity|exact H].
  - vm_compute in E. discriminate E.
Defined.

Lemma window_round_described_witness :
  ∃ recs, r_frame_records (w_state (fw_world demo_round.2)) = Some recs ∧ sum_slots recs = 4.
Proof.
  unfold demo_round.
  destruct (apply_frame_window_plan _ _ _ _ _) as [[ev|e] w'] eqn:E; [|vm_compute in E; discriminate E].
  destruct (window_round_described (default 0 ∘ head) demo_config demo_plan demo_records
    (Ok false) demo_window w' 0 demo_layout ev demo_config_wf demo_planned demo_ready E) as (recs & Hr & Hs & _).
  exists recs. split; [exact Hr|]. rewrite Hs. vm_compute in E. injection E as _ <-. reflexivity.
Defined.

Lemma raw_window_round_completes_witness :
  ∃ ev w', demo_round = (Ok ev, w') ∧ r_encoder_length (w_state (fw_world w')) = 4.
Proof.
  apply (raw_window_round_completes (default 0 ∘ head) demo_config demo_plan demo_records
    (Ok false) demo_window 0 demo_layout demo_config_wf demo_planned eq_refl demo_ready eq_refl).
  - vm_compute. repeat constructor; discriminate.
  - intros inputs H. discriminate H.
Defined.
