(* ===== verification/BatchAdapter.v ===== *)
(** * Extend and decode batches with incremental vision KV

    Models [src/sglang_omni/models/moss_vl_realtime/batch_adapter.py].  A batch
    holds its requests, the page table they share and the slot allocator.  The
    upstream scheduler steps the adapter wraps ([prepare_for_decode] of
    [ScheduleBatch]) are parameters. *)
From S2P Require Import Prelude PyNum Payload Visibility KVLayout FramePlan RuntimeState Segment.
From S2P Require Import FrameApply.
Local Open Scope Z_scope.

(** ** Requests and batches *)

Record BatchInputs : Type := {
  bi_num_image_tokens : option Z;
  bi_items_added_frames : list pyval;
  bi_mrope_positions : option Positions
}.

Record BReq : Type := {
  q_id : nat;
  q_state : RuntimeState;
  q_req_pool_idx : option Z;
  q_inputs : option BatchInputs;
  q_prefix_length : Z;
  q_extend_start : Z;
  q_extend_end : Z;
  q_logprob_start_len : Z;
  (** [req.kv.kv_allocated_len], [None] without [req.kv] *)
  q_kv_allocated_len : option Z;
  q_kv_committed_len : Z;
  q_transaction : option Transaction
}.

#[global] Instance eta_BReq : Eta BReq := fun q =>
  {| q_id := q_id q; q_state := q_state q; q_req_pool_idx := q_req_pool_idx q;
     q_inputs := q_inputs q; q_prefix_length := q_prefix_length q;
     q_extend_start := q_extend_start q; q_extend_end := q_extend_end q;
     q_logprob_start_len := q_logprob_start_len q;
     q_kv_allocated_len := q_kv_allocated_len q;
     q_kv_committed_len := q_kv_committed_len q; q_transaction := q_transaction q |}.

Record DecodeAllocation : Type := {
  d_reqs : list nat;
  d_positions : list Z;
  d_committed_lengths : list Z;
  d_pool_indices : list Z;
  d_slots : option (list Z);
  d_committed : bool;
  d_released : bool
}.

#[global] Instance eta_DecodeAllocation : Eta DecodeAllocation := fun d =>
  {| d_reqs := d_reqs d; d_positions := d_positions d;
     d_committed_lengths := d_committed_lengths d; d_pool_indices := d_pool_indices d;
     d_slots := d_slots d; d_committed := d_committed d; d_released := d_released d |}.

(** What the model forward reads from an extend batch. *)
Record BatchMeta : Type := {
  m_encoder_lens : list Z;
  m_encoder_cached : list bool;
  m_encoder_out_cache_loc : list Z;
  m_out_cache_loc : list Z;
  m_extend_lens : list Z;
  m_prefix_lens : list Z;
  m_extend_num_tokens : Z;
  m_seq_lens : list Z;
  m_seq_lens_sum : Z;
  m_prefill_input_ids : list Z
}.

Record Batch (A : Type) : Type := {
  bt_reqs : list BReq;
  bt_table : Table;
  bt_allocator : A;
  bt_page_size : Z;
  bt_return_logprob : bool;
  bt_out_cache_loc : option (list Z);
  (** [None] when the attribute is absent *)
  bt_allocated_slots : option (option (list Z));
  bt_released : bool;
  bt_committed : bool;
  bt_decode : option DecodeAllocation;
  bt_meta : option BatchMeta
}.
Arguments bt_reqs {A}.
Arguments bt_table {A}.
Arguments bt_allocator {A}.
Arguments bt_page_size {A}.
Arguments bt_return_logprob {A}.
Arguments bt_out_cache_loc {A}.
Arguments bt_allocated_slots {A}.
Arguments bt_released {A}.
Arguments bt_committed {A}.
Arguments bt_decode {A}.
Arguments bt_meta {A}.

#[global] Instance eta_Batch {A} : Eta (Batch A) := fun b =>
  {| bt_reqs := bt_reqs b; bt_table := bt_table b; bt_allocator := bt_allocator b;
     bt_page_size := bt_page_size b; bt_return_logprob := bt_return_logprob b;
     bt_out_cache_loc := bt_out_cache_loc b; bt_allocated_slots := bt_allocated_slots b;
     bt_released := bt_released b; bt_committed := bt_committed b; bt_decode := bt_decode b;
     bt_meta := bt_meta b |}.

(** ** Decode capacity *)

Definition committed_kv (s : RuntimeState) : Z := r_encoder_length s + r_decoder_length s.

(** [state.context_limit or width]. *)
Definition limit_or (limit : option Z) (width : Z) : Z :=
  match limit with Some l => if l =? 0 then width else l | None => width end.

(** [(projected token positions, limit, KV positions, width)] of the error. *)
Definition realtime_decode_capacity_error (state : RuntimeState) (kv_allocated : option Z)
    (width : Z) : option (Z * Z * Z * Z) :=
  let limit := limit_or (r_context_limit state) width in
  let committed := committed_kv state in
  let allocated := Z.max committed (default committed kv_allocated) in
  let logical := effective_appended_encoder_length state + allocated - r_encoder_length state in
  if (width <? allocated + 1) || (limit <? logical + 2)
  then Some (logical + 2, limit, allocated + 1, width) else None.

Section Batches.
Context {A : Type} `{Allocator A}.
Abbreviation BM := (M (Batch A)).

(** ** Access to one request of the batch *)

Definition upd_req (k : nat) (f : BReq → BReq) : BM unit :=
  modify (fun b => b <| bt_reqs := alter f k (bt_reqs b) |>).

Definition clear_range (row : Row) (lo hi : Z) : Row :=
  imap (fun i x => if (lo <=? Z.of_nat i) && (Z.of_nat i <? hi) then 0 else x) row.

(** [table[index, lo:hi] = 0]. *)
Definition zero_range (index lo hi : Z) : BM unit :=
  b ← get;
  _ ← guard_raise ((index <? 0) || (zlength (bt_table b) <=? index))
        (IndexError "index is out of bounds");
  assign_to bt_table
    (<[Z.to_nat index := clear_range (row_at (bt_table b) index) lo hi]> (bt_table b)).

Definition begin_allocation : BM unit :=
  _ ← assign_to bt_out_cache_loc None;
  _ ← assign_to bt_allocated_slots (Some None);
  _ ← assign_to bt_committed false;
  _ ← assign_to bt_released false;
  assign_to bt_decode None.

(** ** Decode steps *)

Definition commit_moss_vl_realtime_decode : BM unit :=
  modify (fun b => b <| bt_decode := option_map (fun d => d <| d_committed := true |>)
                                       (bt_decode b) |>).

Definition find_req (id : nat) (reqs : list BReq) : option (nat * BReq) :=
  list_find (fun q => q_id q = id) reqs.

(** The entries [i] of the record whose request this step still owns. *)
Fixpoint rollback_indices (i : nat) (ids : list nat) (d : DecodeAllocation)
    (reqs : list BReq) : result (list nat) :=
  match ids with
  | [] => Ok []
  | id :: ids' =>
      let skip := rollback_indices (S i) ids' d reqs in
      match find_req id reqs with
      | None => skip
      | Some (_, q) =>
          let position := default 0 (d_positions d !! i) in
          if negb (bool_decide (q_req_pool_idx q = d_pool_indices d !! i))
             || bool_decide (q_kv_allocated_len q = None) then skip
          else if position <? committed_kv (q_state q) then skip
          else if position + 1 <? default 0 (q_kv_allocated_len q)
          then Raise (RuntimeError "resolve newer decode allocations before rolling back this step")
          else rest ← skip; Ok (i :: rest)
      end
  end.

(** Restore the bookkeeping of one entry and clear its cell.  The step being undone wrote that
    cell, so it is inside the table; torch would raise beyond a row and wrap a negative index. *)
Definition restore_decode (d : DecodeAllocation) (i : nat) : BM unit :=
  b ← get;
  match d_reqs d !! i ≫= fun id => find_req id (bt_reqs b) with
  | None => mret tt
  | Some (k, _) =>
      let position := default 0 (d_positions d !! i) in
      _ ← upd_req k (fun q => q <| q_kv_allocated_len := Some position |>
                  <| q_kv_committed_len := default 0 (d_committed_lengths d !! i) |>);
      zero_range (default 0 (d_pool_indices d !! i)) position (position + 1)
  end.

Definition set_decode (d : DecodeAllocation) : BM unit := assign_to bt_decode (Some d).

Definition on_allocator {B} : M A B → BM B := zoom bt_allocator (assign bt_allocator).

Definition pick (slots : list Z) (i : nat) : result Z :=
  match slots !! i with
  | Some s => Ok s
  | None => Raise (IndexError "index is out of bounds")
  end.

Definition rollback_decode (d : DecodeAllocation) : BM unit :=
  if d_committed d || d_released d then mret tt
  else match d_slots d with
  | None => set_decode (d <| d_released := true |>)
  | Some slots =>
      b ← get;
      indices ← lift (rollback_indices 0 (d_reqs d) d (bt_reqs b));
      _ ← (if bool_decide (indices = []) then mret tt
           else picked ← lift (rmapM (pick slots) indices);
                _ ← on_allocator (free picked);
                mforeach (restore_decode d) indices);
      set_decode (d <| d_released := true |>)
  end.

(** ** Rolling back an extend step *)

(** Run a method of request [k]'s transaction. *)
Definition on_transaction (k : nat) (q : BReq) (t : Transaction)
    (m : M (Transaction * World unit) unit) : BM unit := fun b =>
  match m (t, {| w_state := q_state q; w_table := bt_table b; w_pool := tt |}) with
  | (r, (t', w')) =>
      (r, b <| bt_table := w_table w' |>
            <| bt_reqs := <[k := q <| q_state := w_state w' |>
                                   <| q_transaction := Some t' |>]> (bt_reqs b) |>)
  end.

Definition drop_transaction (k : nat) : BM unit :=
  upd_req k (fun q => q <| q_transaction := None |>).

(** Roll back the transaction of one request; [true] when it had one. *)
Definition rollback_req (k : nat) : BM bool :=
  b ← get;
  match bt_reqs b !! k with
  | Some q =>
      match q_transaction q with
      | None => mret false
      | Some t => _ ← on_transaction k q t (rollback_append None);
                  _ ← drop_transaction k;
                  mret true
      end
  | None => mret false
  end.

Fixpoint rollback_reqs (ks : list nat) : BM bool :=
  match ks with
  | [] => mret false
  | k :: ks' => found ← rollback_req k; rest ← rollback_reqs ks'; mret (found || rest)
  end.

Definition restore_req (k : nat) : BM unit :=
  b ← get;
  match bt_reqs b !! k with
  | None => mret tt
  | Some q =>
      let committed := committed_kv (q_state q) in
      let allocated := default committed (q_kv_allocated_len q) in
      _ ← upd_req k (fun q => q <| q_kv_committed_len := committed |>
            <| q_kv_allocated_len := option_map (fun _ => committed) (q_kv_allocated_len q) |>);
      match q_req_pool_idx q with
      | Some index => if committed <? allocated then zero_range index committed allocated
                      else mret tt
      | None => mret tt
      end
  end.

Definition restore_request_kv_bookkeeping : BM unit :=
  b ← get; mforeach restore_req (seq 0 (length (bt_reqs b))).

Definition release_allocated_slots : BM unit :=
  b ← get;
  if bt_released b then mret tt else
  _ ← guard_raise (negb (bt_page_size b =? 1))
        (RuntimeError "MOSS-VL realtime rollback requires page_size == 1");
  _ ← (match default (bt_out_cache_loc b) (bt_allocated_slots b) with
       | Some (s :: l) => on_allocator (free (s :: l))
       | _ => mret tt
       end);
  assign_to bt_released true.

Definition rollback_moss_vl_realtime_batch : BM unit :=
  b ← get;
  match bt_decode b with
  | Some d => rollback_decode d
  | None =>
      if bt_released b then mret tt
      else if bt_committed b then mret tt
      else
        _ ← rollback_reqs (rev (seq 0 (length (bt_reqs b))));
        _ ← restore_request_kv_bookkeeping;
        release_allocated_slots
  end.

(** ** Decode preparation *)

Context (super_prepare_for_decode : BM unit).

Definition missing_kv : pyexn := OtherError "AttributeError".

Definition decode_record (reqs : list BReq) : result DecodeAllocation :=
  positions ← rmapM (fun q => match q_kv_allocated_len q with
                              | Some n => Ok n | None => Raise missing_kv end) reqs;
  indices ← rmapM (fun q => match q_req_pool_idx q with
                            | Some i => Ok i | None => Raise (TypeError "int()") end) reqs;
  Ok {| d_reqs := map q_id reqs; d_positions := positions;
        d_committed_lengths := map q_kv_committed_len reqs; d_pool_indices := indices;
        d_slots := None; d_committed := false; d_released := false |}.

Definition record_slots : BM unit :=
  modify (fun b => b <| bt_decode :=
    option_map (fun d => d <| d_slots := bt_out_cache_loc b |>) (bt_decode b) |>).

Context (super_prepare_for_extend : BM unit).

Definition prepare_for_extend : BM unit :=
  _ ← begin_allocation;
  try_except super_prepare_for_extend
    (fun e => _ ← rollback_moss_vl_realtime_batch; throw e).

Definition prepare_for_decode : BM unit :=
  b ← get;
  _ ← guard_raise
        (existsb (fun q => match realtime_decode_capacity_error (q_state q)
                                   (q_kv_allocated_len q) (row_width (bt_table b)) with
                           | Some _ => true | None => false end) (bt_reqs b))
        (ContextExhaustedError "realtime request exhausted the context length before decode");
  d ← lift (decode_record (bt_reqs b));
  _ ← begin_allocation;
  _ ← set_decode d;
  _ ← try_except super_prepare_for_decode
        (fun e => _ ← record_slots; _ ← rollback_moss_vl_realtime_batch; throw e);
  record_slots.

(** ** Extend preparation *)

Record ExtendPlan : Type := {
  pl_raw_input_ids : list Z;
  pl_new_encoder_slots : list Z;
  pl_new_decoder_slots : list Z;
  pl_total_encoder_length : Z;
  pl_total_decoder_length : Z;
  pl_decoder_extend_length : Z;
  pl_leading_decoder_length : Z
}.

Definition on_req_state {B} (k : nat) (q : BReq) (m : M RuntimeState B) : BM B := fun b =>
  let '(r, st) := m (q_state q) in
  (r, b <| bt_reqs := <[k := q <| q_state := st |>]> (bt_reqs b) |>).

Definition total_encoder (q : BReq) : Z :=
  match q_inputs q with
  | Some i => default 0 (bi_num_image_tokens i)
  | None => r_encoder_length (q_state q)
  end.

(** The first text-only prefill adopts the committed prefix. *)
Definition bootstrap (q : BReq) : BReq :=
  let s := q_state q in
  if (r_encoder_length s =? 0) && (r_decoder_length s =? 0)
     && bool_decide (q_inputs q = None) && bool_decide (r_pending_token_id s = None)
     && (0 <? q_prefix_length q)
  then q <| q_state := s <| r_decoder_length := q_prefix_length q |>
                         <| r_next_mrope_position := q_prefix_length q |> |>
  else q.

(** The checks of one request once its state is bound, and its plan. *)
Definition extend_plan (table : Table) (index : Z) (q : BReq) (total : Z)
    (raw_input_ids : list Z) (seq_len : Z) (new_slots : list Z) : result ExtendPlan :=
  let s := q_state q in
  let delta := total - r_encoder_length s in
  _ ← raise_if (delta <? 0) (RuntimeError "total encoder length moved backwards");
  let raw_extend := q_extend_end q - q_extend_start q in
  let dec_extend := raw_extend - delta in
  _ ← raise_if (dec_extend <=? 0)
        (RuntimeError "realtime extend must contain at least one text token");
  _ ← raise_if (negb (zlength raw_input_ids =? raw_extend))
        (RuntimeError "raw extend input length does not match request range");
  let history := effective_appended_encoder_length s in
  _ ← raise_if (negb (q_prefix_length q =? history + r_decoder_length s))
        (RuntimeError "cached prefix does not match committed realtime KV lengths");
  _ ← raise_if (zlength table <=? index) (IndexError "index is out of bounds");
  _ ← raise_if (existsb (fun v => v <=? 0) (ztake (committed_kv s) (row_at table index)))
        (RuntimeError "SGLang extend allocation corrupted the committed KV prefix");
  _ ← raise_if (negb (seq_len =? history + delta + r_decoder_length s + dec_extend))
        (RuntimeError "raw sequence length is inconsistent with runtime state");
  let slots := ztake raw_extend new_slots in
  _ ← raise_if (negb (zlength slots =? raw_extend))
        (RuntimeError "allocated KV slots are not request aligned");
  let leading := match r_pending_token_id s with Some _ => 1 | None => 0 end in
  Ok {| pl_raw_input_ids := raw_input_ids;
        pl_new_encoder_slots := zslice leading (leading + delta) slots;
        pl_new_decoder_slots := ztake leading slots ++ zdrop (leading + delta) slots;
        pl_total_encoder_length := total;
        pl_total_decoder_length := r_decoder_length s + dec_extend;
        pl_decoder_extend_length := dec_extend;
        pl_leading_decoder_length := leading |}.

(** [_build_plans]: requests in order, each taking its share of the slots. *)
Fixpoint build_plans (k : nat) (input_ids : list (list Z)) (seq_lens : list Z)
    (new_slots : list Z) : BM (list ExtendPlan) :=
  match input_ids, seq_lens with
  | ids :: input_ids', n :: seq_lens' =>
      b ← get;
      match bt_reqs b !! k with
      | None => throw (IndexError "list index out of range")
      | Some q =>
          index ← lift (match q_req_pool_idx q with
                        | Some i => Ok i
                        | None => Raise (TypeError "req_pool_idx must be an integer")
                        end);
          _ ← on_req_state k q (bind_req_pool_index (VNum (NInt index)));
          let q := q <| q_state := q_state q <| r_req_pool_index := Some index |> |> in
          let total := total_encoder q in
          let q := bootstrap q in
          _ ← upd_req k (fun _ => q);
          plan ← lift (extend_plan (bt_table b) index q total ids n new_slots);
          rest ← build_plans (S k) input_ids' seq_lens'
                   (zdrop (q_extend_end q - q_extend_start q) new_slots);
          mret (plan :: rest)
      end
  | _, _ =>
      _ ← guard_raise (negb (bool_decide (new_slots = [])))
            (RuntimeError "allocated KV slots contain an unclaimed tail");
      mret []
  end.

Definition added_frames (plan : ExtendPlan) (q : BReq) : result Z :=
  if bool_decide (pl_new_encoder_slots plan = []) then Ok 0
  else match q_inputs q with
       | Some {| bi_items_added_frames := added :: _ |} =>
           match added with
           | VNum (NInt n) =>
               if n <=? 0
               then Raise (RuntimeError "realtime media item is missing the added-frame count")
               else Ok n
           (* [isinstance(True, int)] holds and [True > 0], but the transaction wants an integer *)
           | VBool true => Raise (TypeError "added_frames must be an integer")
           | _ => Raise (RuntimeError "realtime media item is missing the added-frame count")
           end
       | _ => Raise (RuntimeError "realtime extend with encoder slots has no media item")
       end.

Definition positions_max (p : Positions) : option Z :=
  let '(a, b, c) := p in
  match a ++ b ++ c with [] => None | x :: l => Some (foldr Z.max x l) end.

Definition next_mrope_position (plan : ExtendPlan) (q : BReq) : Z :=
  let positions := match q_inputs q with
                   | Some i => match bi_mrope_positions i with
                               | Some p => positions_max p
                               | None => None
                               end
                   | None => None
                   end in
  match positions with
  | Some m => Z.max (r_next_mrope_position (q_state q)) (m + 1)
  | None => Z.max (r_next_mrope_position (q_state q)) (pl_total_decoder_length plan)
  end.

(** [plan.state.begin_kv_append(...)] and the attribute that keeps it. *)
Definition begin_transaction (k : nat) (q : BReq) (plan : ExtendPlan) (added : Z)
  : BM unit := fun b =>
  match begin_kv_append (pl_new_encoder_slots plan) (pl_new_decoder_slots plan) added
          (Some (next_mrope_position plan q))
          {| w_state := q_state q; w_table := bt_table b; w_pool := tt |} with
  | (Ok t, w') =>
      (Ok tt, b <| bt_table := w_table w' |>
                <| bt_reqs := <[k := q <| q_state := w_state w' |>
                                       <| q_transaction := Some t |>]> (bt_reqs b) |>)
  | (Raise e, w') =>
      (Raise e, b <| bt_table := w_table w' |>
                  <| bt_reqs := <[k := q <| q_state := w_state w' |>]> (bt_reqs b) |>)
  end.

Definition begin_req (k : nat) (plan : ExtendPlan) : BM unit :=
  b ← get;
  match bt_reqs b !! k with
  | None => mret tt
  | Some q => added ← lift (added_frames plan q); begin_transaction k q plan added
  end.

Fixpoint begin_reqs (k : nat) (plans : list ExtendPlan) : BM unit :=
  match plans with
  | [] => mret tt
  | plan :: plans' => _ ← begin_req k plan; begin_reqs (S k) plans'
  end.

Definition install_req (k : nat) (plan : ExtendPlan) : BM unit :=
  upd_req k (fun q =>
    q <| q_extend_start := q_extend_start q + zlength (pl_new_encoder_slots plan) |>
      <| q_logprob_start_len := Z.max (q_logprob_start_len q) (pl_total_encoder_length plan) |>).

Definition decoder_inputs (plan : ExtendPlan) : list Z :=
  ztake (pl_leading_decoder_length plan) (pl_raw_input_ids plan)
  ++ zdrop (pl_leading_decoder_length plan + zlength (pl_new_encoder_slots plan))
       (pl_raw_input_ids plan).

Definition sum_Z (l : list Z) : Z := foldr Z.add 0 l.

Definition batch_meta (plans : list ExtendPlan) (reqs : list BReq) : BatchMeta :=
  {| m_encoder_lens := map pl_total_encoder_length plans;
     m_encoder_cached := map (fun p => bool_decide (pl_new_encoder_slots p = [])) plans;
     m_encoder_out_cache_loc := concat (map pl_new_encoder_slots plans);
     m_out_cache_loc := concat (map pl_new_decoder_slots plans);
     m_extend_lens := map pl_decoder_extend_length plans;
     m_prefix_lens := map (fun q => r_decoder_length (q_state q)) reqs;
     m_extend_num_tokens := sum_Z (map pl_decoder_extend_length plans);
     m_seq_lens := map pl_total_decoder_length plans;
     m_seq_lens_sum := sum_Z (map pl_total_decoder_length plans);
     m_prefill_input_ids := concat (map decoder_inputs plans) |}.

Fixpoint install_reqs (k : nat) (plans : list ExtendPlan) : BM unit :=
  match plans with
  | [] => mret tt
  | plan :: plans' => _ ← install_req k plan; install_reqs (S k) plans'
  end.

Definition install_batch_metadata (plans : list ExtendPlan) : BM unit :=
  b ← get;
  let meta := batch_meta plans (bt_reqs b) in
  _ ← assign_to bt_meta (Some meta);
  _ ← assign_to bt_out_cache_loc (Some (m_out_cache_loc meta));
  install_reqs 0 plans.

Definition prepare_moss_vl_realtime_encoder_info_extend (input_ids : list (list Z))
    (seq_lens : list Z) : BM unit :=
  b ← get;
  _ ← guard_raise (bool_decide (bt_reqs b = []))
        (TypeError "batch does not contain only MOSS-VL realtime requests");
  _ ← guard_raise (negb (length input_ids =? length (bt_reqs b))%nat
                   || negb (length seq_lens =? length (bt_reqs b))%nat)
        (ValueError "input_ids and seq_lens must be request aligned");
  _ ← guard_raise (bt_return_logprob b)
        (ValueError "MOSS-VL realtime does not support prompt logprobs");
  slots ← lift (match bt_out_cache_loc b with
                | Some l => Ok l | None => Raise missing_kv end);
  _ ← assign_to bt_allocated_slots (Some (Some slots));
  _ ← assign_to bt_released false;
  _ ← assign_to bt_committed false;
  _ ← assign_to bt_decode None;
  plans ← try_except
    (plans ← build_plans 0 input_ids seq_lens slots;
     _ ← begin_reqs 0 plans;
     mret plans)
    (fun e => _ ← rollback_moss_vl_realtime_batch; throw e);
  install_batch_metadata plans.

(** ** Committing an extend step *)

Definition reconcile (k : nat) : BM unit :=
  b ← get;
  match bt_reqs b !! k with
  | None => mret tt
  | Some q =>
      let s := q_state q in
      let kv_total := committed_kv s in
      let token_total := effective_appended_encoder_length s + r_decoder_length s in
      _ ← upd_req k (fun q =>
            q <| q_kv_allocated_len := option_map (fun _ => kv_total) (q_kv_allocated_len q) |>
              <| q_kv_committed_len := kv_total |>);
      match r_req_pool_index s with
      | Some index => if kv_total <? token_total then zero_range index kv_total token_total
                      else mret tt
      | None => mret tt
      end
  end.

Definition commit_req (k : nat) : BM unit :=
  b ← get;
  match bt_reqs b !! k with
  | Some q =>
      match q_transaction q with
      | None => mret tt
      | Some t => _ ← on_transaction k q t commit_append;
                  _ ← drop_transaction k;
                  reconcile k
      end
  | None => mret tt
  end.

Definition clear_allocation_rollback_metadata : BM unit :=
  _ ← assign_to bt_allocated_slots None; assign_to bt_released false.

Definition commit_moss_vl_realtime_batch : BM unit :=
  b ← get;
  _ ← mforeach commit_req (seq 0 (length (bt_reqs b)));
  _ ← assign_to bt_committed true;
  clear_allocation_rollback_metadata.
End Batches.

#[global] Arguments zero_range : simpl never.
#[global] Arguments upd_req : simpl never.

(** ** Rows under a failing extend step *)

Definition row_ok (table0 table : Table) (q : BReq) (i : Z) : Prop :=
  let c := committed_kv (q_state q) in
  match q_transaction q with
  | None => r_append_inflight (q_state q) = false ∧
            (r_req_pool_index (q_state q) = None ∨ r_req_pool_index (q_state q) = Some i) ∧
            ztake c (row_at table i) = ztake c (row_at table0 i)
  | Some t => t_staged t = true ∧ t_closed t = false ∧
              r_req_pool_index (q_state q) = Some i ∧
              as_tuple (t_before t) = ztake c (row_at table0 i) ∧
              zlength (as_tuple (t_before t)) = c ∧ c ≤ row_width table0
  end.

(** The row of a request and the length of its committed prefix. *)
Definition layout_of (q : BReq) : option Z * Z := (q_req_pool_idx q, committed_kv (q_state q)).
Definition layouts {A} (b : Batch A) : list (option Z * Z) := map layout_of (bt_reqs b).

(** The bookkeeping of a request agrees with its committed layout. *)
Definition booked (q : BReq) : Prop :=
  q_kv_committed_len q = committed_kv (q_state q) ∧
  (q_kv_allocated_len q = None ∨ q_kv_allocated_len q = Some (committed_kv (q_state q))).

(** Distinct rows; each request idle on its old prefix or in a transaction that
    remembers it; [cs] are the rows and committed lengths. *)
Record restorable {A} (table0 : Table) (cs : list (option Z * Z)) (b : Batch A) : Prop := {
  rs_committed : layouts b = cs;
  rs_rect : rectangular (bt_table b);
  rs_rows : zlength (bt_table b) = zlength table0;
  rs_width : row_width (bt_table b) = row_width table0;
  rs_distinct : NoDup (map q_req_pool_idx (bt_reqs b));
  rs_reqs : ∀ k q, bt_reqs b !! k = Some q →
    ∃ i, q_req_pool_idx q = Some i ∧ 0 ≤ i < zlength table0 ∧ row_ok table0 (bt_table b) q i
}.

Lemma clear_range_length row lo hi : length (clear_range row lo hi) = length row.
Proof. apply length_imap. Qed.

Lemma clear_range_prefix row lo hi c : c ≤ lo → ztake c (clear_range row lo hi) = ztake c row.
Proof.
  intros Hc. apply list_eq. intros j. unfold ztake. rewrite !lookup_take.
  case_decide as Hj; [|done]. unfold clear_range. rewrite list_lookup_imap.
  destruct (row !! j); [|done]. simpl.
  rewrite (proj2 (Z.leb_gt _ _)); [done|]. lia.
Qed.

(** The layout a read returns is the row's prefix. *)
Lemma read_as_tuple tb i e d l c :
  read_req_to_token_layout tb i e d = Ok l → 0 ≤ e → c = e + d →
  as_tuple l = ztake c (row_at tb i).
Proof.
  intros H He ->. unfold read_req_to_token_layout in H.
  apply bind_Ok in H as (_ & _ & H). apply bind_Ok in H as (_ & Hn%raise_if_Ok & H).
  apply orb_false_iff in Hn as [_ Hd%Z.ltb_ge].
  apply make_layout_Ok in H as [-> _]. unfold as_tuple, zslice. simpl.
  replace (ztake e (row_at tb i)) with (ztake e (ztake (e + d) (row_at tb i))).
  - apply ztake_zdrop.
  - unfold ztake. rewrite take_take. f_equal. lia.
Qed.

Section Restore.
Context {A : Type} `{HA : Allocator A} {HL : AllocatorLaws A}.

(** Changing one request and its own row. *)
Lemma restorable_update table0 cs (b : Batch A) k q q' i table' :
  restorable table0 cs b → bt_reqs b !! k = Some q → q_req_pool_idx q = Some i →
  q_req_pool_idx q' = q_req_pool_idx q →
  committed_kv (q_state q') = committed_kv (q_state q) →
  rectangular table' → zlength table' = zlength table0 → row_width table' = row_width table0 →
  (∀ j, 0 ≤ j → j ≠ i → row_at table' j = row_at (bt_table b) j) →
  row_ok table0 table' q' i →
  restorable table0 cs (b <| bt_table := table' |> <| bt_reqs := <[k := q']> (bt_reqs b) |>).
Proof.
  intros [Hcs Hr Hz Hw Hd Hq] Hk Hi Hi' Hcq Hr' Hz' Hw' Hrows Hok.
  assert (map q_req_pool_idx (<[k := q']> (bt_reqs b)) = map q_req_pool_idx (bt_reqs b)) as Hm.
  { rewrite list_fmap_insert. apply list_insert_id. rewrite list_lookup_fmap, Hk. simpl.
    by rewrite Hi'. }
  assert (layouts (b <| bt_table := table' |> <| bt_reqs := <[k := q']> (bt_reqs b) |>) = layouts b)
    as Hls.
  { unfold layouts. fields. rewrite list_fmap_insert. apply list_insert_id.
    rewrite list_lookup_fmap, Hk. simpl. unfold layout_of. by rewrite Hcq, Hi'. }
  split; [congruence|..]; fields; try done; [by rewrite Hm|].
  intros j p Hj. destruct (decide (j = k)) as [->|Hne].
  - rewrite list_lookup_insert_eq in Hj by (eapply lookup_lt_Some; exact Hk).
    injection Hj as <-. exists i. rewrite Hi'.
    destruct (Hq k q Hk) as (i' & Hi2 & Hrange & _). rewrite Hi in Hi2. injection Hi2 as <-.
    split; [done|]. split; [done|exact Hok].
  - rewrite list_lookup_insert_ne in Hj by done.
    destruct (Hq j p Hj) as (i' & Hpi & Hrange & Hpok). exists i'. split; [done|]. split; [done|].
    assert (i' ≠ i) as Hii.
    { intros ->. apply Hne. eapply (NoDup_lookup _ _ _ (Some i) Hd);
        rewrite list_lookup_fmap; [by rewrite Hj; simpl; rewrite Hpi|].
      by rewrite Hk; simpl; rewrite Hi. }
    unfold row_ok in *. rewrite Hrows by lia. done.
Qed.

Lemma alter_insert_same {B} (f : B → B) k x (l : list B) :
  alter f k (<[k := x]> l) = <[k := f x]> l.
Proof. revert k. induction l as [|y l IH]; intros [|k]; simpl; [done..|].
  f_equal. apply IH.
Qed.

Lemma alter_as_insert {B} (f : B → B) k x (l : list B) :
  l !! k = Some x → alter f k l = <[k := f x]> l.
Proof.
  revert k. induction l as [|y l IH]; intros [|k] H; simplify_eq/=; [done|].
  f_equal. by apply IH.
Qed.

(** The batch fields that hold the allocation of this step. *)
Definition allocation (b : Batch A) : A * Z * option (option (list Z)) * bool * bool *
    option DecodeAllocation * option (list Z) :=
  (bt_allocator b, bt_page_size b, bt_allocated_slots b, bt_released b, bt_committed b,
   bt_decode b, bt_out_cache_loc b).

Lemma rollback_req_spec table0 cs (b : Batch A) k :
  restorable table0 cs b →
  ∃ r b', rollback_req k b = (Ok r, b') ∧ restorable table0 cs b' ∧
    allocation b' = allocation b ∧
    (∀ q, bt_reqs b' !! k = Some q → q_transaction q = None) ∧
    (∀ j, j ≠ k → bt_reqs b' !! j = bt_reqs b !! j) ∧
    length (bt_reqs b') = length (bt_reqs b).
Proof.
  intros Hb. unfold rollback_req. mrun. destruct (bt_reqs b !! k) as [q|] eqn:Hk.
  2: { exists false, b. split_and!; try done. by rewrite Hk. }
  destruct (q_transaction q) as [t|] eqn:Ht.
  2: { exists false, b. split_and!; try done. rewrite Hk. by intros q' [= <-]. }
  destruct (rs_reqs _ _ _ Hb k q Hk) as (i & Hqi & Hi & Hok).
  unfold row_ok in Hok. rewrite Ht in Hok. cbv zeta in Hok.
  destruct Hok as (Hs & Hc & Hri & Hbef & Hlen & Hle).
  destruct Hb as [Hcs Hr Hz Hw Hd Hq].
  assert (total_length (t_before t) ≤ row_width (bt_table b)) as Hfit.
  { rewrite <- as_tuple_length, Hw. lia. }
  pose proof (write_layout_fits i (t_before t) true (bt_table b) ltac:(lia) Hfit) as Hwr.
  set (tb' := <[Z.to_nat i := _]> _) in Hwr. clearbody tb'.
  destruct (write_shape _ _ _ _ _ Hr Hwr) as (Hz' & Hw' & Hr').
  unfold on_transaction.
  rewrite (rollback_active None t {| w_state := q_state q; w_table := bt_table b; w_pool := tt |}
    i tb' Hs Hc Hri Hwr). simpl. unfold drop_transaction, upd_req, modify. 
  eexists true, _. split; [done|]. fields. rewrite alter_insert_same.
  split_and!.
  - pose proof (restorable_update table0 cs b k q
      (q <| q_state := q_state q <| r_append_inflight := false |>
                         <| r_phase := WAITING_FOR_EVENT |> |>
         <| q_transaction := Some (t <| t_closed := true |>) |>
         <| q_transaction := None |>) i tb') as Hu.
    apply Hu; [by split|done|done|done|done|done|congruence|congruence|..].
    + intros j Hj Hne. by apply (write_other _ _ _ _ _ Hwr).
    + unfold row_ok. fields. split; [done|]. split; [by right|].
      change (committed_kv (q_state q <| r_append_inflight := false |>
        <| r_phase := WAITING_FOR_EVENT |>)) with (committed_kv (q_state q)).
      rewrite (write_row_at _ _ _ _ _ Hwr), <- Hbef, <- Hlen.
      unfold write_row. apply ztake_app.
  - done.
  - intros q'. rewrite list_lookup_insert_eq by (eapply lookup_lt_Some; exact Hk).
    by intros [= <-].
  - intros j Hj. by rewrite list_lookup_insert_ne.
  - by rewrite length_insert.
Qed.

Lemma rollback_reqs_spec table0 cs ks (b : Batch A) :
  restorable table0 cs b →
  ∃ r b', rollback_reqs ks b = (Ok r, b') ∧ restorable table0 cs b' ∧
    allocation b' = allocation b ∧ length (bt_reqs b') = length (bt_reqs b) ∧
    ∀ k q, bt_reqs b' !! k = Some q →
      (k ∈ ks → q_transaction q = None) ∧ (k ∉ ks → bt_reqs b !! k = Some q).
Proof.
  revert b. induction ks as [|k ks IH]; intros b Hb.
  - exists false, b. split_and!; try done. intros k q Hk. split; [set_solver|done].
  - destruct (rollback_req_spec table0 cs b k Hb) as (r1 & b1 & E1 & R1 & A1 & N1 & O1 & L1).
    destruct (IH b1 R1) as (r2 & b2 & E2 & R2 & A2 & L2 & N2).
    exists (r1 || r2), b2. split_and!; [|done|congruence|congruence|].
    + cbn [rollback_reqs]. unfold mbind, M_bind. by rewrite E1, E2.
    + intros j q Hj. destruct (N2 j q Hj) as [Hin Hout]. split.
      * intros [->|Hj']%elem_of_cons; [|by apply Hin].
        destruct (decide (k ∈ ks)) as [Hk|Hk]; [by apply Hin|]. by apply N1, Hout.
      * intros Hn. rewrite <- O1 by set_solver. apply Hout. set_solver.
Qed.

Lemma zero_range_Ok i lo hi (b : Batch A) :
  0 ≤ i < zlength (bt_table b) →
  zero_range i lo hi b =
  (Ok tt, b <| bt_table :=
     <[Z.to_nat i := clear_range (row_at (bt_table b) i) lo hi]> (bt_table b) |>).
Proof.
  intros Hi. unfold zero_range. mrun.
  rewrite (proj2 (Z.ltb_ge _ _)), (proj2 (Z.leb_gt _ _)) by lia. done.
Qed.

(** Clearing part of a row keeps the table's shape and the other rows. *)
Lemma cleared_row tb i lo hi :
  rectangular tb → 0 ≤ i < zlength tb →
  let tb' := <[Z.to_nat i := clear_range (row_at tb i) lo hi]> tb in
  rectangular tb' ∧ zlength tb' = zlength tb ∧ row_width tb' = row_width tb ∧
  row_at tb' i = clear_range (row_at tb i) lo hi ∧
  ∀ j, 0 ≤ j → j ≠ i → row_at tb' j = row_at tb j.
Proof.
  intros Hr Hi tb'.
  assert (Z.to_nat i < length tb)%nat as Hlt by (unfold zlength in Hi; lia).
  assert (zlength (clear_range (row_at tb i) lo hi) = row_width tb) as Hw.
  { rewrite <- (row_at_width tb i) by done. unfold zlength. by rewrite clear_range_length. }
  split_and!.
  - by apply rectangular_insert.
  - unfold zlength, tb'. by rewrite length_insert.
  - by apply row_width_insert.
  - unfold row_at at 1, tb'. by rewrite list_lookup_insert_eq.
  - intros j Hj Hne. unfold row_at, tb'. rewrite list_lookup_insert_ne; [done|lia].
Qed.

Definition all_idle (b : Batch A) : Prop :=
  ∀ k q, bt_reqs b !! k = Some q → q_transaction q = None.

Lemma restore_req_spec table0 cs (b : Batch A) k :
  restorable table0 cs b → all_idle b →
  ∃ b', restore_req k b = (Ok tt, b') ∧ restorable table0 cs b' ∧ all_idle b' ∧
    allocation b' = allocation b ∧
    (∀ q, bt_reqs b' !! k = Some q → booked q) ∧
    (∀ j, j ≠ k → bt_reqs b' !! j = bt_reqs b !! j) ∧
    length (bt_reqs b') = length (bt_reqs b).
Proof.
  intros Hb Hn. unfold restore_req. unfold get, mbind, M_bind.
  destruct (bt_reqs b !! k) as [q|] eqn:Hk.
  2: { exists b. split_and!; try done. by rewrite Hk. }
  destruct (rs_reqs _ _ _ Hb k q Hk) as (i & Hqi & Hi & Hok).
  rewrite Hqi. unfold upd_req, modify.
  set (c := committed_kv (q_state q)) in *.
  rewrite (alter_as_insert _ _ _ _ Hk).
  set (q' := q <| q_kv_committed_len := c |>
               <| q_kv_allocated_len := option_map (fun _ => c) (q_kv_allocated_len q) |>).
  assert (k < length (bt_reqs b))%nat as Hlt by (eapply lookup_lt_Some; exact Hk).
  assert (q_transaction q' = None) as Hq' by (unfold q'; fields; by apply (Hn k)).
  set (upd := fun tb => b <| bt_table := tb |> <| bt_reqs := <[k := q']> (bt_reqs b) |>).
  assert (∀ tb, all_idle (upd tb) ∧ allocation (upd tb) = allocation b ∧
    (∀ q0, bt_reqs (upd tb) !! k = Some q0 → booked q0) ∧
    (∀ j, j ≠ k → bt_reqs (upd tb) !! j = bt_reqs b !! j) ∧
    length (bt_reqs (upd tb)) = length (bt_reqs b)) as Hkeep.
  { intros tb. unfold upd. split_and!; [|done|..].
    - intros j p Hj. fields. destruct (decide (j = k)) as [->|Hne].
      + rewrite list_lookup_insert_eq in Hj by done. by simplify_eq.
      + rewrite list_lookup_insert_ne in Hj by done. by apply (Hn j).
    - intros q0. fields. rewrite list_lookup_insert_eq by done. intros [= <-].
      unfold booked, q'. fields. split; [done|]. destruct (q_kv_allocated_len q); [by right|by left].
    - intros j Hj. fields. by rewrite list_lookup_insert_ne.
    - fields. by rewrite length_insert. }
  pose proof Hb as [Hcs Hr Hz Hw Hd Hq].
  assert (∀ tb, rectangular tb → zlength tb = zlength table0 → row_width tb = row_width table0 →
    (∀ j, 0 ≤ j → j ≠ i → row_at tb j = row_at (bt_table b) j) →
    ztake c (row_at tb i) = ztake c (row_at (bt_table b) i) →
    restorable table0 cs (upd tb)) as Hupd.
  { intros tb H1 H2 H3 H4 H5. apply (restorable_update table0 cs b k q q' i tb); try done.
    unfold row_ok in *. rewrite Hq'. rewrite (Hn k q Hk) in Hok. destruct Hok as (Hf & Hx & Hp).
    unfold q'. fields. fold c. split; [done|]. split; [done|]. rewrite H5. exact Hp. }
  destruct (c <? default c (q_kv_allocated_len q)).
  - rewrite zero_range_Ok by (fields; lia). fields.
    destruct (cleared_row (bt_table b) i c (default c (q_kv_allocated_len q)) Hr ltac:(lia))
      as (C1 & C2 & C3 & C4 & C5).
    eexists. split; [done|]. split; [|apply Hkeep].
    apply (Hupd _ C1); [congruence|congruence|done|]. rewrite C4. by apply clear_range_prefix.
  - eexists. split; [done|]. split; [by apply (Hupd (bt_table b))|apply (Hkeep (bt_table b))].
Qed.

Lemma restore_all_spec table0 cs ks (b : Batch A) :
  restorable table0 cs b → all_idle b →
  ∃ b', mforeach restore_req ks b = (Ok tt, b') ∧ restorable table0 cs b' ∧ all_idle b' ∧
    allocation b' = allocation b ∧ length (bt_reqs b') = length (bt_reqs b) ∧
    ∀ k q, bt_reqs b' !! k = Some q →
      (k ∈ ks → booked q) ∧ (k ∉ ks → bt_reqs b !! k = Some q).
Proof.
  revert b. induction ks as [|k ks IH]; intros b Hb Hn.
  - exists b. split_and!; try done. intros k q Hk. split; [set_solver|done].
  - destruct (restore_req_spec table0 cs b k Hb Hn) as (b1 & E1 & R1 & N1 & A1 & K1 & O1 & L1).
    destruct (IH b1 R1 N1) as (b2 & E2 & R2 & N2 & A2 & L2 & K2). exists b2.
    cbn [mforeach]. unfold mbind, M_bind. rewrite E1, E2.
    split_and!; [done..|congruence|congruence|].
    intros j q Hj. destruct (K2 j q Hj) as [Hin Hout]. split.
    + intros [->|Hj']%elem_of_cons; [|by apply Hin].
      destruct (decide (k ∈ ks)) as [Hk|Hk]; [by apply Hin|]. by apply K1, Hout.
    + intros Hnk. rewrite <- O1 by set_solver. apply Hout. set_solver.
Qed.

Definition alloc_flags (b : Batch A) (slots : list Z) : Prop :=
  bt_page_size b = 1 ∧ default (bt_out_cache_loc b) (bt_allocated_slots b) = Some slots ∧
  bt_released b = false ∧ bt_committed b = false ∧ bt_decode b = None.

Definition owned_slots (b : Batch A) (slots : list Z) : Prop :=
  Forall (fun s => 0 < s) slots ∧ NoDup slots ∧
  list_to_set slots ## free_slots (bt_allocator b).

Lemma allocation_eq (b b' : Batch A) slots :
  allocation b' = allocation b →
  (alloc_flags b slots → alloc_flags b' slots) ∧ (owned_slots b slots → owned_slots b' slots) ∧
  bt_allocator b' = bt_allocator b.
Proof.
  intros E. unfold allocation in E. injection E as E1 E2 E3 E4 E5 E6 E7.
  unfold alloc_flags, owned_slots. rewrite E1, E2, E3, E4, E5, E6, E7. done.
Qed.

Lemma release_spec (b : Batch A) slots :
  alloc_flags b slots → owned_slots b slots →
  ∃ pl, release_allocated_slots b =
    (Ok tt, b <| bt_allocator := pl |> <| bt_released := true |>) ∧
    free_slots pl = free_slots (bt_allocator b) ∪ list_to_set slots.
Proof.
  intros (Hp & Hs & Hr & _) (Hpos & Hnd & Hdj). unfold release_allocated_slots. mrun.
  rewrite Hr, Hp. simpl. rewrite Hs. destruct slots as [|s l].
  - exists (bt_allocator b). split; [by destruct b|]. set_solver.
  - destruct (free_law (s :: l) (bt_allocator b) Hpos Hnd Hdj) as (pl & E & Hf).
    unfold on_allocator, zoom. rewrite E. by exists pl.
Qed.

(** Rolling an extend step back. *)
Lemma rollback_batch_spec table0 cs (b : Batch A) slots :
  restorable table0 cs b → alloc_flags b slots → owned_slots b slots →
  ∃ b', rollback_moss_vl_realtime_batch b = (Ok tt, b') ∧ restorable table0 cs b' ∧
    all_idle b' ∧ Forall booked (bt_reqs b') ∧
    bt_released b' = true ∧ bt_committed b' = false ∧ bt_decode b' = None ∧
    free_slots (bt_allocator b') = free_slots (bt_allocator b) ∪ list_to_set slots.
Proof.
  intros Hb Hfl Hown. unfold rollback_moss_vl_realtime_batch. unfold get, mbind, M_bind.
  pose proof Hfl as (_ & _ & Hr & Hc & Hd). rewrite Hd, Hr, Hc.
  destruct (rollback_reqs_spec table0 cs (rev (seq 0 (length (bt_reqs b)))) b Hb)
    as (r & b1 & E1 & R1 & A1 & L1 & N1). rewrite E1.
  assert (all_idle b1) as Hidle.
  { intros k q Hk. destruct (N1 k q Hk) as [Hin _]. apply Hin.
    rewrite <- L1. apply lookup_lt_Some in Hk.
    rewrite list_elem_of_In, <- in_rev, <- list_elem_of_In, elem_of_seq. lia. }
  unfold restore_request_kv_bookkeeping. unfold get, mbind, M_bind.
  destruct (restore_all_spec table0 cs (seq 0 (length (bt_reqs b1))) b1 R1 Hidle)
    as (b2 & E2 & R2 & N2 & A2 & L2 & K2). rewrite E2.
  assert (allocation b2 = allocation b) as A3 by congruence.
  destruct (allocation_eq b b2 slots A3) as (F1 & F2 & F3).
  destruct (release_spec b2 slots (F1 Hfl) (F2 Hown)) as (pl & E3 & Hpl). rewrite E3.
  destruct (F1 Hfl) as (_ & _ & _ & Hc2 & Hd2).
  eexists. split; [done|]. fields. split_and!; try done.
  - destruct R2. by split.
  - apply Forall_lookup. intros k q Hk. apply (K2 k q Hk).
    rewrite <- L2. apply lookup_lt_Some in Hk. rewrite elem_of_seq. lia.
  - by rewrite Hpl, F3.
Qed.

(** A request no append is staged for. *)
Definition idle_req (table0 : Table) (q : BReq) : Prop :=
  q_transaction q = None ∧ r_append_inflight (q_state q) = false ∧
  ∃ i, q_req_pool_idx q = Some i ∧ 0 ≤ i < zlength table0 ∧
    (r_req_pool_index (q_state q) = None ∨ r_req_pool_index (q_state q) = Some i).

Record idle_batch (b : Batch A) : Prop := {
  ib_rect : rectangular (bt_table b);
  ib_distinct : NoDup (map q_req_pool_idx (bt_reqs b));
  ib_reqs : Forall (idle_req (bt_table b)) (bt_reqs b)
}.

Lemma idle_restorable b : idle_batch b → restorable (bt_table b) (layouts b) b.
Proof.
  intros [Hr Hd Hq]. split; try done. intros k q Hk.
  destruct (Forall_lookup_1 _ _ _ _ Hq Hk) as (Ht & Hf & i & Hi & Hrange & Hx).
  exists i. split_and!; [done|lia|lia|]. unfold row_ok. by rewrite Ht.
Qed.

(** The committed prefix may be adopted, never dropped. *)
Definition adopts (q q' : BReq) : Prop :=
  q_req_pool_idx q' = q_req_pool_idx q ∧ committed_kv (q_state q) ≤ committed_kv (q_state q').

#[local] Instance adopts_preorder : PreOrder adopts.
Proof.
  split; [by intros q|]. intros q1 q2 q3 [H1 H2] [H3 H4]. split; [congruence|lia].
Qed.

Lemma bootstrap_adopts q : adopts q (bootstrap q).
Proof.
  unfold bootstrap. cbv zeta. destruct (_ && (0 <? q_prefix_length q)) eqn:E; [|done].
  reflect_bool. split; fields; [done|]. unfold committed_kv. fields. lia.
Qed.

Lemma adopts_insert k q q' (l : list BReq) :
  l !! k = Some q → adopts q q' → Forall2 adopts l (<[k := q']> l).
Proof.
  intros Hk Hq. rewrite <- (list_insert_id l k q Hk) at 1. apply Forall2_insert; [|done].
  by apply Forall_Forall2_diag, Forall_true.
Qed.

Lemma bootstrap_keeps q :
  q_transaction (bootstrap q) = q_transaction q ∧
  r_append_inflight (q_state (bootstrap q)) = r_append_inflight (q_state q) ∧
  q_req_pool_idx (bootstrap q) = q_req_pool_idx q ∧
  r_req_pool_index (q_state (bootstrap q)) = r_req_pool_index (q_state q).
Proof. unfold bootstrap. cbv zeta. by destruct (_ && (0 <? q_prefix_length q)). Qed.

Lemma bind_state i st r st' :
  bind_req_pool_index (VNum (NInt i)) st = (r, st') →
  st' = st ∨ st' = st <| r_req_pool_index := Some i |>.
Proof.
  unfold bind_req_pool_index, get, modify, lift, mbind, M_bind.
  destruct (bind_index _ _) as [j|e] eqn:E; intros [= <- <-]; [right|by left].
  unfold bind_index in E. inv_ok. done.
Qed.

(** Planning binds and bootstraps the states, nothing else. *)
Lemma build_plans_spec k ids seqs slots b r b' :
  idle_batch b → build_plans k ids seqs slots b = (r, b') →
  idle_batch b' ∧ bt_table b' = bt_table b ∧ allocation b' = allocation b ∧
  Forall2 adopts (bt_reqs b) (bt_reqs b').
Proof.
  revert k seqs slots b r b'. induction ids as [|id ids IH]; intros k seqs slots b r b' Hb H;
    [|destruct seqs as [|n seqs]]; cbn [build_plans] in H.
  1,2: unfold guard_raise, lift, mbind, M_bind in H;
    destruct (raise_if _ _); injection H as <- <-; done.
  unfold get, lift, mbind, M_bind in H.
  destruct (bt_reqs b !! k) as [q|] eqn:Hk; [|by injection H as <- <-].
  destruct (Forall_lookup_1 _ _ _ _ (ib_reqs _ Hb) Hk) as (Ht & Hf & i & Hi & Hrange & Hbound).
  rewrite Hi in H. unfold on_req_state in H.
  destruct (bind_req_pool_index (VNum (NInt i)) (q_state q)) as [rb st] eqn:Eb.
  assert (st = q_state q ∨ st = q_state q <| r_req_pool_index := Some i |>) as Hst.
  { by eapply bind_state. }
  assert (∀ q' b0, b0 = b <| bt_reqs := <[k := q']> (bt_reqs b) |> →
    q_transaction q' = None → r_append_inflight (q_state q') = false →
    q_req_pool_idx q' = Some i →
    (r_req_pool_index (q_state q') = None ∨ r_req_pool_index (q_state q') = Some i) →
    idle_batch b0) as Hkeep.
  { intros q' b0 -> H1 H2 H3 H4. destruct Hb as [Hr Hd Hq]. split; fields; [done| |].
    - rewrite list_fmap_insert, list_insert_id; [done|]. rewrite list_lookup_fmap, Hk. simpl.
      by rewrite H3, Hi.
    - apply Forall_insert; [done|]. split_and!; [done|done|by exists i]. }
  assert (∀ q', allocation (b <| bt_reqs := <[k := q']> (bt_reqs b) |>) = allocation b) as Hal
    by done.
  destruct rb as [[]|e].
  2: { injection H as <- <-. split_and!; [|done|done|].
       2: { fields. eapply adopts_insert; [exact Hk|]. by destruct Hst as [-> | ->]. }
       eapply (Hkeep (q <| q_state := st |>)); fields; try done; destruct Hst as [-> | ->]; [done|done|done|by right]. }
  match type of H with context [upd_req k (fun _ => ?q0)] => set (q2 := q0) in H end.
  assert (q_transaction q2 = None ∧ r_append_inflight (q_state q2) = false ∧
    q_req_pool_idx q2 = Some i ∧ r_req_pool_index (q_state q2) = Some i)
    as (Q1 & Q2 & Q3 & Q4).
  { unfold q2. by destruct (bootstrap_keeps (q <| q_state := q_state q
      <| r_req_pool_index := Some i |> |>)) as (-> & -> & -> & ->). }
  unfold upd_req, modify in H. fields. rewrite alter_insert_same in H.
  set (b1 := b <| bt_reqs := <[k := q2]> (bt_reqs b) |>) in *.
  change (b <| bt_reqs := <[k:=q <| q_state := st |>]> (bt_reqs b) |>
    <| bt_reqs := <[k := q2]> (bt_reqs b) |>) with b1 in H.
  assert (idle_batch b1) as Hb1 by by apply (Hkeep q2); [..|right].
  assert (Forall2 adopts (bt_reqs b) (bt_reqs b1)) as Hl1.
  { unfold b1. fields. eapply adopts_insert; [exact Hk|].
    by etrans; [|apply bootstrap_adopts]. }
  destruct (extend_plan _ _ _ _ _ _ _) as [plan|e]; [|by injection H as <- <-].
  destruct (build_plans (S k) ids seqs _ b1) as [[rest|e] b2] eqn:E2;
    apply IH in E2 as (I2 & T2 & A2 & L2); try done; injection H as <- <-;
    (split_and!; [done|by rewrite T2|by rewrite A2|by etrans]).
Qed.

Lemma begin_req_spec table0 cs (b : Batch A) k plan r b' :
  restorable table0 cs b →
  (∀ q, bt_reqs b !! k = Some q → q_transaction q = None) →
  begin_req k plan b = (r, b') →
  restorable table0 cs b' ∧ allocation b' = allocation b ∧
  ∀ j, j ≠ k → bt_reqs b' !! j = bt_reqs b !! j.
Proof.
  intros Hb Hn H. unfold begin_req in H. unfold get, lift, mbind, M_bind in H.
  destruct (bt_reqs b !! k) as [q|] eqn:Hk; [|by injection H as <- <-].
  destruct (added_frames plan q) as [added|e]; [|by injection H as <- <-].
  destruct (rs_reqs _ _ _ Hb k q Hk) as (i & Hi & Hrange & Hok).
  pose proof (Hn q eq_refl) as Hq. unfold row_ok in Hok. rewrite Hq in Hok.
  destruct Hok as (Hf & Hx & Hp). pose proof Hb as [Hcs Hr Hz Hw Hd Hqs].
  unfold begin_transaction in H.
  destruct (begin_kv_append _ _ _ _ _) as [[t|e] w'] eqn:E.
  - apply begin_Ok in E. pose proof (began_layout _ _ _ _ _ _ _ E) as
      (i' & before & Hi' & Hrd & Hbe & _ & _ & _ & _ & Hs & Hc & _ & _ & _ & _ & Hwr).
    destruct E as (_ & _ & _ & _ & _ & Hst). simpl in *.
    assert (i' = i) as -> by (destruct Hx; congruence).
    destruct (write_shape _ _ _ _ _ Hr Hwr) as (Hz' & Hw' & Hr').
    injection H as <- <-. split_and!; [|done|].
    + apply (restorable_update table0 cs b k q _ i); try done; [by fields; rewrite Hst|congruence|congruence|..].
      * intros j Hj Hne. by apply (write_other _ _ _ _ _ Hwr).
      * unfold row_ok. fields. rewrite Hst. fields.
        change (committed_kv (q_state q <| r_append_inflight := true |>
          <| r_phase := EXTENDING |>)) with (committed_kv (q_state q)).
        pose proof (read_lengths _ _ _ _ _ Hrd Hr) as (He & Hdl & _ & Hfit & Hpe & Hpd).
        split; [done|]. split; [done|]. split; [done|]. split.
        { rewrite <- Hp, Hbe. eapply read_as_tuple; [exact Hrd|lia|done]. }
        split; [rewrite as_tuple_length, Hbe; unfold total_length, committed_kv; lia|].
        rewrite <- Hw. unfold committed_kv. lia.
    + intros j Hj. fields. by rewrite list_lookup_insert_ne.
  - apply begin_Raise in E as ->. injection H as <- <-. simpl.
    assert (<[k := q <| q_state := q_state q |>]> (bt_reqs b) = bt_reqs b) as Hsame.
    { rewrite list_insert_id; [done|]. rewrite Hk. by destruct q. }
    rewrite Hsame. split_and!; [by destruct b|done|done].
Qed.

Lemma begin_reqs_spec table0 cs plans k (b : Batch A) r b' :
  restorable table0 cs b →
  (∀ j q, (k ≤ j)%nat → bt_reqs b !! j = Some q → q_transaction q = None) →
  begin_reqs k plans b = (r, b') → restorable table0 cs b' ∧ allocation b' = allocation b.
Proof.
  revert k b. induction plans as [|plan plans IH]; intros k b Hb Hn H; cbn [begin_reqs] in H.
  - by injection H as <- <-.
  - unfold mbind, M_bind in H. destruct (begin_req k plan b) as [[[]|e] b1] eqn:E1.
    + apply (begin_req_spec table0 cs) in E1 as (R1 & A1 & O1); [|done|intros q; by apply Hn].
      apply IH in H as [R2 A2]; [split; [done|congruence]|done|].
      intros j q Hj Hq. apply (Hn j); [lia|]. rewrite <- O1 by lia. done.
    + injection H as <- <-.
      apply (begin_req_spec table0 cs) in E1 as (R1 & A1 & _); [done|done|intros q; by apply Hn].
Qed.

(** A batch whose failed extend step is undone. *)
Definition undone (b b' : Batch A) (slots : list Z) : Prop :=
  length (bt_reqs b') = length (bt_reqs b) ∧
  (∀ k q', bt_reqs b' !! k = Some q' → ∃ q i,
    bt_reqs b !! k = Some q ∧ adopts q q' ∧ q_req_pool_idx q' = Some i ∧
    q_transaction q' = None ∧ r_append_inflight (q_state q') = false ∧ booked q' ∧
    ztake (committed_kv (q_state q')) (row_at (bt_table b') i)
    = ztake (committed_kv (q_state q')) (row_at (bt_table b) i)) ∧
  bt_released b' = true ∧
  free_slots (bt_allocator b') = free_slots (bt_allocator b) ∪ list_to_set slots ∧
  rollback_moss_vl_realtime_batch b' = (Ok tt, b').

Lemma Forall2_adopts_length l l' : Forall2 adopts l l' → length l' = length l.
Proof. intros E. symmetry. by eapply Forall2_length. Qed.

Lemma layouts_lookup (b1 b2 : Batch A) k q :
  layouts b2 = layouts b1 → bt_reqs b2 !! k = Some q →
  ∃ q1, bt_reqs b1 !! k = Some q1 ∧ layout_of q = layout_of q1.
Proof.
  intros E Hk. assert (layouts b1 !! k = Some (layout_of q)) as Hl.
  { rewrite <- E. unfold layouts. by rewrite list_lookup_fmap, Hk. }
  unfold layouts in Hl. rewrite list_lookup_fmap in Hl.
  destruct (bt_reqs b1 !! k) as [q1|]; [|done]. exists q1. split; [done|]. symmetry. exact (Some_inj _ _ Hl).
Qed.

(** Rolling back what planning and staging did undoes the step. *)
Lemma rolled_back_undone (b b0 b1 b2 : Batch A) slots :
  idle_batch b1 → Forall2 adopts (bt_reqs b) (bt_reqs b1) → bt_table b1 = bt_table b →
  bt_allocator b0 = bt_allocator b → allocation b2 = allocation b0 →
  alloc_flags b0 slots → owned_slots b0 slots →
  restorable (bt_table b1) (layouts b1) b2 →
  ∃ b3, rollback_moss_vl_realtime_batch b2 = (Ok tt, b3) ∧ undone b b3 slots.
Proof.
  intros Hidle Ha Ht Hal0 Hal Hfl Hown Hr.
  destruct (allocation_eq b0 b2 slots Hal) as (F1 & F2 & F3).
  destruct (rollback_batch_spec _ _ b2 slots Hr (F1 Hfl) (F2 Hown))
    as (b3 & E & R & N & K & Hrel & Hcm & Hd & Hf).
  exists b3. split; [done|]. unfold undone.
  assert (length (bt_reqs b3) = length (bt_reqs b1)) as Hlen.
  { pose proof (rs_committed _ _ _ R) as Hc. apply (f_equal length) in Hc.
    unfold layouts in Hc. by rewrite !length_map in Hc. }
  split_and!; [|..|done| |].
  - rewrite Hlen. by apply Forall2_adopts_length.
  - intros k q3 Hk.
    destruct (layouts_lookup b1 b3 k q3 (rs_committed _ _ _ R) Hk) as (q1 & Hk1 & El).
    destruct (Forall2_lookup_r _ _ _ _ _ Ha Hk1) as (q & Hkb & Haq).
    destruct (rs_reqs _ _ _ R k q3 Hk) as (i & Hi & _ & Hok).
    injection El as El1 El2.
    unfold row_ok in Hok. rewrite (N k q3 Hk) in Hok. destruct Hok as (Hinf & _ & Hp).
    exists q, i. split_and!; try done; [|by apply (N k)| |by rewrite Hp, Ht].
    + destruct Haq as [H1 H2]. split; [congruence|lia].
    + by apply (Forall_lookup_1 _ _ _ _ K Hk).
  - by rewrite Hf, F3, Hal0.
  - unfold rollback_moss_vl_realtime_batch. unfold get, mbind, M_bind. by rewrite Hd, Hrel.
Qed.

Lemma extend_failure (b b' : Batch A) slots input_ids seq_lens e :
  idle_batch b → bt_page_size b = 1 → bt_out_cache_loc b = Some slots →
  owned_slots b slots →
  prepare_moss_vl_realtime_encoder_info_extend input_ids seq_lens b = (Raise e, b') →
  b' = b ∨ undone b b' slots.
Proof.
  intros Hi Hp Ho Hown H. unfold prepare_moss_vl_realtime_encoder_info_extend in H.
  unfold get, guard_raise, lift, mbind at 1 2 3 4 5, M_bind at 1 2 3 4 5 in H.
  repeat (destruct (raise_if _ _); [|left; by injection H as _ <-]).
  rewrite Ho in H. unfold modify, mbind at 1 2 3 4, M_bind at 1 2 3 4 in H.
  set (b0 := b <| bt_allocated_slots := _ |> <| bt_released := _ |> <| bt_committed := _ |>
               <| bt_decode := _ |>) in H.
  assert (idle_batch b0) as Hi0 by (destruct Hi; by split).
  assert (alloc_flags b0 slots) as Hfl by done.
  assert (owned_slots b0 slots) as Hown0 by done.
  right. unfold mbind at 1, M_bind at 1, try_except in H.
  match type of H with context [match ?m b0 with _ => _ end] =>
    destruct (m b0) as [[plans|e0] b2] eqn:E end.
  { exfalso. unfold install_batch_metadata in H. unfold get, modify, mbind, M_bind in H.
    revert H. generalize 0%nat. match goal with |- ∀ n, install_reqs n _ ?x = _ → _ =>
      generalize x end. clear. induction plans as [|pl pls IH]; intros x n H; [done|].
    cbn [install_reqs] in H. unfold mbind, M_bind, install_req, upd_req, modify in H.
    by apply IH in H. }
  assert (∃ b1, idle_batch b1 ∧ Forall2 adopts (bt_reqs b) (bt_reqs b1) ∧
    bt_table b1 = bt_table b ∧ allocation b2 = allocation b0 ∧
    restorable (bt_table b1) (layouts b1) b2) as (b1 & I1 & A1 & T1 & L2 & R2).
  { unfold mbind, M_bind in E.
    destruct (build_plans 0 input_ids seq_lens slots b0) as [[pls|e1] b1] eqn:E1.
    - apply build_plans_spec in E1 as (I1 & T1 & L1 & A1); [|done]. exists b1.
      destruct (begin_reqs 0 pls b1) as [[[]|e1] b2'] eqn:E2; [done|]. injection E as <- <-.
      apply (begin_reqs_spec (bt_table b1) (layouts b1)) in E2 as [R2 L2].
      + split_and!; try done. congruence.
      + by apply idle_restorable.
      + intros j q _ Hj. apply (Forall_lookup_1 _ _ _ _ (ib_reqs _ I1) Hj).
    - injection E as <- <-. apply build_plans_spec in E1 as (I1 & T1 & L1 & A1); [|done].
      exists b1. split_and!; try done. by apply idle_restorable. }
  destruct (rolled_back_undone b b0 b1 b2 slots) as (b3 & E3 & U); try done.
  unfold mbind, M_bind in H. rewrite E3 in H. unfold throw in H.
  injection H as <- <-. exact U.
Qed.
End Restore.

(** ** What an extend step hands to the model *)

Lemma split_slots {B} lead delta (l : list B) :
  0 ≤ lead → 0 ≤ delta → lead + delta ≤ zlength l →
  zslice lead (lead + delta) l ++ ztake lead l ++ zdrop (lead + delta) l ≡ₚ l ∧
  zlength (zslice lead (lead + delta) l) = delta ∧
  zlength (ztake lead l ++ zdrop (lead + delta) l) = zlength l - delta.
Proof.
  intros H1 H2 H3. unfold zslice.
  assert (ztake lead l = ztake lead (ztake (lead + delta) l)) as E.
  { unfold ztake. rewrite take_take. f_equal. lia. }
  split_and!.
  - rewrite E, app_assoc, (Permutation_app_comm (zdrop _ _)), ztake_zdrop. by rewrite ztake_zdrop.
  - rewrite zlength_zdrop, zlength_ztake; rewrite ?zlength_ztake; lia.
  - rewrite zlength_app, zlength_ztake, zlength_zdrop; lia.
Qed.

(** A plan splits its share of slots and its input tokens the same way. *)
Definition plan_splits (pl : ExtendPlan) (share : list Z) : Prop :=
  pl_new_encoder_slots pl ++ pl_new_decoder_slots pl ≡ₚ share ∧
  zlength (pl_new_decoder_slots pl) = pl_decoder_extend_length pl ∧
  zlength (decoder_inputs pl) = pl_decoder_extend_length pl ∧
  0 < pl_decoder_extend_length pl.

(** The first text-only prefill, which adopts a cached prefix. *)
Definition adopting (q : BReq) : Prop :=
  r_encoder_length (q_state q) = 0 ∧ r_decoder_length (q_state q) = 0 ∧ q_inputs q = None ∧
  r_pending_token_id (q_state q) = None ∧ 0 < q_prefix_length q.

(** The decoder tokens in the cache before the extend. *)
Definition prior_length (q : BReq) (n : Z) : Prop :=
  (adopting q ∧ n = q_prefix_length q) ∨ (¬ adopting q ∧ n = r_decoder_length (q_state q)).

Lemma bootstrap_prior q : prior_length q (r_decoder_length (q_state (bootstrap q))).
Proof.
  unfold bootstrap, prior_length. cbv zeta.
  destruct (_ && (0 <? q_prefix_length q)) eqn:E.
  - left. rewrite !andb_true_iff, !Z.eqb_eq, Z.ltb_lt, !bool_decide_eq_true in E. split; [|done].
    unfold adopting. naive_solver.
  - right. split; [|done]. intros (H1 & H2 & H3 & H4 & H5).
    rewrite H1, H2, H3, H4, (proj2 (Z.ltb_lt _ _) H5) in E. discriminate E.
Qed.

(** The plan of a request: its encoder part brings what its images add, its decoder part the
    rest of its range. *)
Record plan_of (q : BReq) (prior : Z) (pl : ExtendPlan) : Prop := {
  po_seq : pl_total_decoder_length pl = prior + pl_decoder_extend_length pl;
  po_encoder : pl_total_encoder_length pl = total_encoder q;
  po_grows : zlength (pl_new_encoder_slots pl) = total_encoder q - r_encoder_length (q_state q);
  po_range : zlength (pl_new_encoder_slots pl) + pl_decoder_extend_length pl =
    q_extend_end q - q_extend_start q
}.

Lemma extend_plan_splits table index q total ids n slots pl :
  extend_plan table index q total ids n slots = Ok pl →
  plan_splits pl (ztake (q_extend_end q - q_extend_start q) slots) ∧
  (total = total_encoder q → plan_of q (r_decoder_length (q_state q)) pl).
Proof.
  intros H. unfold extend_plan in H. cbv zeta in H. inv_ok.
  set (raw := q_extend_end q - q_extend_start q) in *.
  set (delta := total - r_encoder_length (q_state q)) in *.
  set (lead := match r_pending_token_id (q_state q) with Some _ => 1 | None => 0 end).
  assert (0 ≤ lead ≤ 1) as Hl by (unfold lead; destruct (r_pending_token_id _); lia).
  destruct (split_slots lead delta (ztake raw slots)) as (P1 & P2 & P3); [lia..|].
  destruct (split_slots lead delta ids) as (_ & Q2 & Q3); [lia..|].
  split; [|intros ->; constructor; simpl; fold lead; [done|done|exact P2|rewrite P2; unfold delta; lia]].
  unfold plan_splits, decoder_inputs. simpl. fold lead.
  split_and!; [done|lia| |lia]. rewrite P2, Q3. lia.
Qed.

Lemma app_swap_perm {B} (e1 d1 e2 d2 : list B) :
  (e1 ++ e2) ++ d1 ++ d2 ≡ₚ (e1 ++ d1) ++ e2 ++ d2.
Proof.
  rewrite <- !app_assoc. apply Permutation_app_head.
  rewrite !app_assoc. apply Permutation_app_tail, Permutation_app_comm.
Qed.

Section Metadata.
Context {A : Type} `{HA : Allocator A}.

Lemma build_plans_parts k ids seqs slots (b : Batch A) plans b' :
  build_plans k ids seqs slots b = (Ok plans, b') →
  concat (map pl_new_encoder_slots plans) ++ concat (map pl_new_decoder_slots plans) ≡ₚ slots ∧
  Forall (fun pl => ∃ share, plan_splits pl share) plans ∧
  (∀ j, (j < k)%nat → bt_reqs b' !! j = bt_reqs b !! j) ∧
  (∀ j pl, plans !! j = Some pl → ∃ q q', bt_reqs b !! (k + j)%nat = Some q ∧
    bt_reqs b' !! (k + j)%nat = Some q' ∧ prior_length q (r_decoder_length (q_state q')) ∧
    plan_of q (r_decoder_length (q_state q')) pl) ∧
  length plans = (length ids `min` length seqs)%nat ∧
  length (bt_reqs b') = length (bt_reqs b).
Proof.
  revert k seqs slots b plans b'. induction ids as [|id ids IH]; intros k seqs slots b plans b' H;
    [|destruct seqs as [|n seqs]]; cbn [build_plans] in H.
  1,2: inv_ok; subst; (split_and!; [done|by constructor|done|done|done|done]).
  unfold get, lift, mbind, M_bind, mret, M_ret in H.
  destruct (bt_reqs b !! k) as [q|] eqn:Hk; [|done].
  destruct (q_req_pool_idx q) as [i|]; [|done]. unfold on_req_state in H.
  destruct (bind_req_pool_index _ _) as [[[]|e] st]; [|done].
  match type of H with context [upd_req k (fun _ => ?q0)] => set (q2 := q0) in H end.
  assert (prior_length q (r_decoder_length (q_state q2))) as Hprior.
  { pose proof (bootstrap_prior (q <| q_state := q_state q <| r_req_pool_index := Some i |> |>)) as Hx.
    fold q2 in Hx. unfold prior_length, adopting in *. exact Hx. }
  assert (total_encoder q2 = total_encoder q ∧ r_encoder_length (q_state q2) = r_encoder_length (q_state q) ∧
    q_extend_end q2 = q_extend_end q ∧ q_extend_start q2 = q_extend_start q) as (Ht2 & He2 & Hend & Hstart).
  { unfold q2, bootstrap, total_encoder. cbv zeta. by destruct (_ && (0 <? _)). }
  unfold upd_req, modify in H. fields. rewrite alter_insert_same in H.
  assert (k < length (bt_reqs b))%nat as Hlt by (eapply lookup_lt_Some; exact Hk).
  destruct (extend_plan _ _ _ _ _ _ _) as [pl|e] eqn:Ep; [|done].
  destruct (build_plans (S k) ids seqs _ _) as [[rest|e] b2] eqn:E2; [|done].
  injection H as <- <-. apply IH in E2 as (P2 & S2 & O2 & T2 & N2 & L2). fields.
  apply extend_plan_splits in Ep as (Sp & Tp).
  split_and!.
  - cbn [map concat]. rewrite app_swap_perm, P2. destruct Sp as (-> & _).
    unfold q2. destruct (bootstrap_keeps q); unfold bootstrap; cbv zeta.
    destruct (_ && _); fields; by rewrite ztake_zdrop.
  - constructor; [by eexists|done].
  - intros j Hj. rewrite O2 by lia. rewrite list_lookup_insert_ne by lia. done.
  - intros [|j] pl' Hj.
    + injection Hj as <-. exists q, q2. rewrite Nat.add_0_r, O2 by lia.
      split; [done|]. split; [by rewrite list_lookup_insert_eq|]. split; [done|].
      destruct Tp as [T3 T4 T5 T6]; [by rewrite Ht2|].
      rewrite Ht2, He2, Hend, Hstart in *. by constructor.
    + destruct (T2 j pl' Hj) as (q' & q'' & Hq' & Hq'' & Ht). exists q', q''.
      replace (k + S j)%nat with (S k + j)%nat by lia.
      rewrite list_lookup_insert_ne in Hq' by lia. done.
  - simpl. by rewrite N2.
  - by rewrite L2, length_insert.
Qed.

Definition decoder_lengths (b : Batch A) : list Z :=
  map (fun q => r_decoder_length (q_state q)) (bt_reqs b).

(** Staging leaves the decoder lengths alone. *)
Lemma begin_reqs_decoder_lengths plans k (b : Batch A) r b' :
  begin_reqs k plans b = (r, b') → decoder_lengths b' = decoder_lengths b.
Proof.
  revert k b. induction plans as [|pl plans IH]; intros k b H; cbn [begin_reqs] in H.
  { by injection H as <- <-. }
  unfold mbind, M_bind in H. destruct (begin_req k pl b) as [r1 b1] eqn:E1.
  assert (decoder_lengths b1 = decoder_lengths b) as Hb1.
  { unfold begin_req in E1. unfold get, lift, mbind, M_bind in E1.
    destruct (bt_reqs b !! k) as [q|] eqn:Hk; [|by injection E1 as <- <-].
    destruct (added_frames pl q) as [added|e]; [|by injection E1 as <- <-].
    unfold begin_transaction in E1. destruct (begin_kv_append _ _ _ _ _) as [[t|e] w'] eqn:E;
      injection E1 as <- <-; unfold decoder_lengths; fields;
      rewrite list_fmap_insert; apply list_insert_id; rewrite list_lookup_fmap, Hk; simpl.
    - apply begin_Ok in E as (_ & _ & _ & _ & _ & ->). done.
    - apply begin_Raise in E as ->. done. }
  destruct r1 as [[]|e]; [|injection H as <- <-; done].
  rewrite <- Hb1. by eapply IH.
Qed.

Lemma install_reqs_keep plans k (b : Batch A) r b' :
  install_reqs k plans b = (r, b') →
  bt_meta b' = bt_meta b ∧ bt_out_cache_loc b' = bt_out_cache_loc b.
Proof.
  revert k b. induction plans as [|pl plans IH]; intros k b H; cbn [install_reqs] in H.
  { by injection H as <- <-. }
  unfold mbind, M_bind, install_req, upd_req, modify in H. by apply IH in H.
Qed.

Lemma sum_Z_concat {B} (f : B → list Z) (g : B → Z) (l : list B) :
  Forall (fun x => zlength (f x) = g x) l → zlength (concat (map f l)) = sum_Z (map g l).
Proof.
  induction 1 as [|x l Hx _ IH]; [done|]. cbn [map concat]. rewrite zlength_app, IH, Hx. done.
Qed.

(** What the metadata says of one request. *)
Record handed_request (meta : BatchMeta) (i : nat) (q : BReq) : Prop := {
  hq_prior : ∃ prior, prior_length q prior ∧ m_prefix_lens meta !! i = Some prior;
  hq_encoder : m_encoder_lens meta !! i = Some (total_encoder q);
  hq_extend : m_extend_lens meta !! i =
    Some (q_extend_end q - q_extend_start q - (total_encoder q - r_encoder_length (q_state q)))
}.

(** A batch of encoder and decoder slots the model can run. *)
Record handed_over (reqs : list BReq) (meta : BatchMeta) (slots : list Z) : Prop := {
  ho_requests : ∀ i q, reqs !! i = Some q → handed_request meta i q;
  ho_encoder : zlength (m_encoder_out_cache_loc meta) =
    sum_Z (map (fun q => total_encoder q - r_encoder_length (q_state q)) reqs);
  ho_slots : m_encoder_out_cache_loc meta ++ m_out_cache_loc meta ≡ₚ slots;
  ho_out : zlength (m_out_cache_loc meta) = m_extend_num_tokens meta;
  ho_inputs : zlength (m_prefill_input_ids meta) = m_extend_num_tokens meta;
  ho_sum : m_extend_num_tokens meta = sum_Z (m_extend_lens meta);
  ho_positive : Forall (fun n => 0 < n) (m_extend_lens meta);
  ho_seq : m_seq_lens meta = zip_with Z.add (m_prefix_lens meta) (m_extend_lens meta);
  ho_seq_sum : m_seq_lens_sum meta = sum_Z (m_seq_lens meta)
}.

Lemma seq_lens_added (plans : list ExtendPlan) (priors : list Z) :
  length plans = length priors →
  (∀ j pl, plans !! j = Some pl → ∃ n, priors !! j = Some n ∧
    pl_total_decoder_length pl = n + pl_decoder_extend_length pl) →
  map pl_total_decoder_length plans
  = zip_with Z.add priors (map pl_decoder_extend_length plans).
Proof.
  revert priors. induction plans as [|pl plans IH]; intros [|n priors] Hl H; try done.
  simpl. f_equal.
  - destruct (H 0%nat pl eq_refl) as (q' & [= <-] & E). done.
  - apply IH; [by injection Hl|]. intros j pl' Hj. by apply (H (S j)).
Qed.

(** The metadata of the plans, request by request. *)
Lemma batch_meta_requests plans (reqs reqs' : list BReq) :
  length plans = length reqs →
  (∀ j pl, plans !! j = Some pl → ∃ q q', reqs !! j = Some q ∧ reqs' !! j = Some q' ∧
    prior_length q (r_decoder_length (q_state q')) ∧ plan_of q (r_decoder_length (q_state q')) pl) →
  ∀ i q, reqs !! i = Some q → handed_request (batch_meta plans reqs') i q.
Proof.
  intros Hl Hp i q Hq. destruct (lookup_lt_is_Some_2 plans i) as [pl Hpl].
  { rewrite Hl. by eapply lookup_lt_Some. }
  destruct (Hp i pl Hpl) as (q0 & q' & Hq0 & Hq' & Hprior & [P1 P2 P3 P4]). replace q0 with q in * by congruence.
  constructor; simpl; rewrite ?list_lookup_fmap, ?Hpl, ?Hq'; simpl.
  - by eexists.
  - by rewrite P2.
  - f_equal. lia.
Qed.

Lemma encoder_slots_count (plans : list ExtendPlan) (reqs : list BReq) :
  length plans = length reqs →
  (∀ j pl q, plans !! j = Some pl → reqs !! j = Some q →
    zlength (pl_new_encoder_slots pl) = total_encoder q - r_encoder_length (q_state q)) →
  zlength (concat (map pl_new_encoder_slots plans)) =
    sum_Z (map (fun q => total_encoder q - r_encoder_length (q_state q)) reqs).
Proof.
  revert reqs. induction plans as [|pl plans IH]; intros [|q reqs] Hl H; try done.
  cbn [map concat]. rewrite zlength_app. unfold sum_Z in *. cbn [foldr]. f_equal.
  - by apply (H 0%nat).
  - apply IH; [by injection Hl|]. intros j pl' q' Hj. by apply (H (S j)).
Qed.

(** The metadata of plans that split the slots. *)
Lemma plans_handed_over plans (reqs reqs' : list BReq) slots :
  length plans = length reqs → length reqs' = length reqs →
  concat (map pl_new_encoder_slots plans) ++ concat (map pl_new_decoder_slots plans) ≡ₚ slots →
  Forall (fun pl => ∃ share, plan_splits pl share) plans →
  (∀ j pl, plans !! j = Some pl → ∃ q q', reqs !! j = Some q ∧ reqs' !! j = Some q' ∧
    prior_length q (r_decoder_length (q_state q')) ∧ plan_of q (r_decoder_length (q_state q')) pl) →
  handed_over reqs (batch_meta plans reqs') slots.
Proof.
  intros Hl Hl' P1 S1 T1. constructor.
  - by apply batch_meta_requests.
  - apply encoder_slots_count; [done|]. intros j pl q Hj Hq.
    destruct (T1 j pl Hj) as (q0 & q' & Hq0 & _ & _ & Hpo).
    replace q with q0 by congruence. apply Hpo.
  - exact P1.
  - apply sum_Z_concat. eapply Forall_impl; [exact S1|]. by intros pl (share & _ & ? & _).
  - apply sum_Z_concat. eapply Forall_impl; [exact S1|]. by intros pl (share & _ & _ & ? & _).
  - done.
  - apply Forall_map. eapply Forall_impl; [exact S1|]. by intros pl (share & _ & _ & _ & ?).
  - apply seq_lens_added.
    + simpl. by rewrite length_map, Hl'.
    + intros j pl Hj. destruct (T1 j pl Hj) as (q0 & q' & _ & Hq' & _ & Hpo).
      exists (r_decoder_length (q_state q')). split; [|apply Hpo].
      simpl. by rewrite list_lookup_fmap, Hq'.
  - done.
Qed.

Lemma extend_handover (b b' : Batch A) slots input_ids seq_lens :
  bt_out_cache_loc b = Some slots →
  prepare_moss_vl_realtime_encoder_info_extend input_ids seq_lens b = (Ok tt, b') →
  ∃ meta, bt_meta b' = Some meta ∧ bt_out_cache_loc b' = Some (m_out_cache_loc meta) ∧
    handed_over (bt_reqs b) meta slots.
Proof.
  intros Ho H. unfold prepare_moss_vl_realtime_encoder_info_extend in H.
  unfold get, guard_raise, lift, mbind at 1 2 3 4 5, M_bind at 1 2 3 4 5 in H.
  destruct (raise_if _ _); [|done]. destruct (raise_if _ _) eqn:Hlen; [|done].
  apply raise_if_Ok, orb_false_iff in Hlen as [Hl1 Hl2]. destruct (raise_if _ _); [|done].
  apply negb_false_iff, Nat.eqb_eq in Hl1. apply negb_false_iff, Nat.eqb_eq in Hl2.
  rewrite Ho in H. unfold modify, mbind at 1 2 3 4, M_bind at 1 2 3 4 in H.
  unfold mbind at 1, M_bind at 1, try_except in H.
  match type of H with context [match ?m ?x with _ => _ end] =>
    set (b0 := x) in H; destruct (m b0) as [[plans|e0] b2] eqn:E end.
  2: { unfold mbind, M_bind in H. by destruct (rollback_moss_vl_realtime_batch b2) as [[]]. }
  unfold mbind, M_bind in E.
  destruct (build_plans 0 input_ids seq_lens slots b0) as [[pls|e1] b1] eqn:E1; [|done].
  destruct (begin_reqs 0 pls b1) as [[[]|e1] b2'] eqn:E2; [|done]. injection E as <- <-.
  apply build_plans_parts in E1 as (P1 & S1 & _ & T1 & N1 & L1).
  apply begin_reqs_decoder_lengths in E2.
  unfold install_batch_metadata in H. unfold get, modify, mbind, M_bind in H.
  apply install_reqs_keep in H as [Hm Hout]. fields. eexists. split; [exact Hm|].
  split; [exact Hout|]. change (bt_reqs b0) with (bt_reqs b) in L1.
  assert (batch_meta pls (bt_reqs b2') = batch_meta pls (bt_reqs b1)) as ->.
  { unfold decoder_lengths in E2. unfold batch_meta. by rewrite E2. }
  apply plans_handed_over; [lia|exact L1|exact P1|exact S1|exact T1].
Qed.
End Metadata.

(** ** Undoing a decode step *)

Section DecodeRollback.
Context {A : Type} `{HA : Allocator A} {HL : AllocatorLaws A}.

Definition restored (d : DecodeAllocation) (i : nat) (q : BReq) : BReq :=
  q <| q_kv_allocated_len := Some (default 0 (d_positions d !! i)) |>
    <| q_kv_committed_len := default 0 (d_committed_lengths d !! i) |>.

(** Request [i] is the one recorded and took exactly one slot since. *)
Definition live_entry (d : DecodeAllocation) (rows : Z) (i : nat) (q : BReq) : Prop :=
  d_reqs d !! i = Some (q_id q) ∧
  ∃ n p, d_positions d !! i = Some n ∧ d_pool_indices d !! i = Some p ∧
    q_req_pool_idx q = Some p ∧ 0 ≤ p < rows ∧
    q_kv_allocated_len q = Some (n + 1) ∧ committed_kv (q_state q) ≤ n.

Record decode_step (d : DecodeAllocation) (slots : list Z) (b : Batch A) : Prop := {
  ds_open : d_committed d = false ∧ d_released d = false ∧ d_slots d = Some slots;
  ds_ids : NoDup (map q_id (bt_reqs b));
  ds_rows : NoDup (map q_req_pool_idx (bt_reqs b));
  ds_aligned : length (d_reqs d) = length (bt_reqs b) ∧ length slots = length (bt_reqs b);
  ds_live : ∀ i q, bt_reqs b !! i = Some q → live_entry d (zlength (bt_table b)) i q;
  ds_slots : owned_slots b slots
}.

Lemma find_req_at (reqs : list BReq) i q :
  NoDup (map q_id reqs) → reqs !! i = Some q → find_req (q_id q) reqs = Some (i, q).
Proof.
  intros Hnd Hi. unfold find_req. apply list_find_Some. split_and!; [done|done|].
  intros j q' Hj Hlt E. assert (j = i); [|lia].
  eapply (NoDup_lookup _ _ _ (q_id q) Hnd); rewrite list_lookup_fmap; [by rewrite Hj; simpl; f_equal|].
  by rewrite Hi.
Qed.

Lemma rollback_indices_all d rows (reqs : list BReq) i ids :
  NoDup (map q_id reqs) →
  (∀ j q, reqs !! j = Some q → live_entry d rows j q) →
  (∀ j id, ids !! j = Some id → ∃ q, reqs !! (i + j)%nat = Some q ∧ q_id q = id) →
  rollback_indices i ids d reqs = Ok (seq i (length ids)).
Proof.
  intros Hnd Hl. revert i. induction ids as [|id ids IH]; intros i Hids; [done|].
  destruct (Hids 0%nat id eq_refl) as (q & Hq & <-). rewrite Nat.add_0_r in Hq.
  cbn [rollback_indices]. rewrite (find_req_at reqs i q Hnd Hq). cbv zeta.
  destruct (Hl i q Hq) as (_ & n & p & -> & Hp & -> & _ & Ha & Hc). rewrite Ha, Hp. simpl default.
  rewrite bool_decide_true by done. rewrite bool_decide_false by done. simpl.
  rewrite (proj2 (Z.ltb_ge n _)), (proj2 (Z.ltb_ge (n + 1) (n + 1))) by lia.
  rewrite IH; [done|]. intros j id' Hj. destruct (Hids (S j) id' Hj) as (q' & Hq' & E).
  exists q'. split; [|done]. by replace (S i + j)%nat with (i + S j)%nat by lia.
Qed.

Lemma pick_all (slots : list Z) : rmapM (pick slots) (seq 0 (length slots)) = Ok slots.
Proof.
  assert (∀ k l, drop k slots = l → rmapM (pick slots) (seq k (length l)) = Ok l) as Hg.
  { intros k l. revert k. induction l as [|x l IH]; intros k E; [done|]. simpl.
    assert (slots !! k = Some x) as Hx.
    { rewrite <- (Nat.add_0_r k), <- lookup_drop. by rewrite E. }
    assert (pick slots k = Ok x) as -> by (unfold pick; by rewrite Hx).
    simpl. rewrite (IH (S k)); [done|].
    replace (S k) with (k + 1)%nat by lia. by rewrite <- drop_drop, E. }
  by apply (Hg 0%nat).
Qed.

Lemma restore_decode_step d k (b : Batch A) q n p :
  NoDup (map q_id (bt_reqs b)) → bt_reqs b !! k = Some q →
  d_reqs d !! k = Some (q_id q) → d_positions d !! k = Some n →
  d_pool_indices d !! k = Some p → 0 ≤ p < zlength (bt_table b) →
  restore_decode d k b =
  (Ok tt, b <| bt_reqs := <[k := restored d k q]> (bt_reqs b) |>
            <| bt_table := <[Z.to_nat p := clear_range (row_at (bt_table b) p) n (n + 1)]>
                 (bt_table b) |>).
Proof.
  intros Hid Hq Hd Hn Hp Hrange. unfold restore_decode. unfold get, mbind, M_bind.
  rewrite Hd. simpl. rewrite (find_req_at _ k q Hid Hq). cbv zeta. unfold upd_req, modify.
  rewrite Hp. simpl. rewrite zero_range_Ok by (fields; lia). fields.
  rewrite (alter_as_insert _ _ _ _ Hq), Hn. unfold restored. by rewrite Hn.
Qed.

(** What restoring the entries [ks] does. *)
Lemma restore_decodes_spec d ks (b : Batch A) :
  NoDup ks → NoDup (map q_id (bt_reqs b)) → NoDup (map q_req_pool_idx (bt_reqs b)) →
  (∀ i, i ∈ ks → ∃ q, bt_reqs b !! i = Some q ∧ live_entry d (zlength (bt_table b)) i q) →
  ∃ b', mforeach (restore_decode d) ks b = (Ok tt, b') ∧
    bt_allocator b' = bt_allocator b ∧
    (∀ i q, bt_reqs b !! i = Some q →
      bt_reqs b' !! i = Some (if decide (i ∈ ks) then restored d i q else q)) ∧
    (∀ i q p, bt_reqs b !! i = Some q → q_req_pool_idx q = Some p → 0 ≤ p →
      row_at (bt_table b') p =
      if decide (i ∈ ks) then
        let n := default 0 (d_positions d !! i) in
        clear_range (row_at (bt_table b) p) n (n + 1)
      else row_at (bt_table b) p).
Proof.
  revert b. induction ks as [|k ks IH]; intros b Hks Hid Hrow Hl.
  { exists b. split_and!; done. }
  apply NoDup_cons in Hks as [Hk Hks].
  destruct (Hl k) as (q & Hq & Hd & n & p & Hn & Hp & Hqp & Hrange & Ha & Hc); [set_solver|].
  cbn [mforeach]. unfold mbind, M_bind.
  rewrite (restore_decode_step d k b q n p Hid Hq Hd Hn Hp Hrange).
  set (b1 := _ <| bt_table := _ |>).
  assert (map q_id (bt_reqs b1) = map q_id (bt_reqs b)) as E1.
  { unfold b1. fields. rewrite list_fmap_insert. apply list_insert_id.
    by rewrite list_lookup_fmap, Hq. }
  assert (map q_req_pool_idx (bt_reqs b1) = map q_req_pool_idx (bt_reqs b)) as E2.
  { unfold b1. fields. rewrite list_fmap_insert. apply list_insert_id.
    by rewrite list_lookup_fmap, Hq. }
  assert (zlength (bt_table b1) = zlength (bt_table b)) as E3.
  { unfold b1. fields. unfold zlength. by rewrite length_insert. }
  assert (∀ i, i ≠ k → bt_reqs b1 !! i = bt_reqs b !! i) as E4.
  { intros i Hi. unfold b1. fields. by rewrite list_lookup_insert_ne. }
  assert (bt_reqs b1 !! k = Some (restored d k q)) as E5.
  { unfold b1. fields. apply list_lookup_insert_eq. eapply lookup_lt_Some; exact Hq. }
  destruct (IH b1) as (b2 & R1 & R2 & R3 & R4); [done|by rewrite E1|by rewrite E2|..].
  { intros i Hi. rewrite E4 by (intros ->; done). rewrite E3. apply Hl. set_solver. }
  exists b2. split_and!; [exact R1|by rewrite R2| |].
  - intros i q' Hi. destruct (decide (i = k)) as [->|Hne].
    + rewrite Hq in Hi. injection Hi as <-. rewrite (R3 k _ E5).
      rewrite decide_False by done. rewrite decide_True by set_solver. done.
    + rewrite (R3 i q') by by rewrite E4. f_equal. apply decide_ext. set_solver.
  - intros i q' p' Hi Hp' H0. assert (Z.to_nat p < length (bt_table b))%nat as Hlt
      by (unfold zlength in Hrange; lia).
    destruct (decide (i = k)) as [->|Hne].
    + rewrite Hq in Hi. injection Hi as <-. rewrite Hqp in Hp'. injection Hp' as <-.
      rewrite (R4 k _ p E5 Hqp H0). rewrite decide_False by done.
      rewrite decide_True by set_solver. unfold b1. fields. rewrite Hn. simpl.
      unfold row_at at 1. by rewrite list_lookup_insert_eq.
    + rewrite (R4 i q' p') by (rewrite ?E4; done).
      assert (row_at (bt_table b1) p' = row_at (bt_table b) p') as ->.
      { assert (p' ≠ p) as Hpp.
        { intros ->. apply Hne. eapply (NoDup_lookup _ _ _ (Some p) Hrow);
            rewrite list_lookup_fmap; [by rewrite Hi; simpl; rewrite Hp'|].
          by rewrite Hq; simpl; rewrite Hqp. }
        unfold b1. fields. unfold row_at. rewrite list_lookup_insert_ne; [done|lia]. }
      by destruct (decide (i ∈ ks)), (decide (i ∈ k :: ks)); set_solver.
Qed.

(** A decode step taken back. *)
Definition decode_undone (d : DecodeAllocation) (slots : list Z) (b b' : Batch A) : Prop :=
  (∀ i q, bt_reqs b !! i = Some q → bt_reqs b' !! i = Some (restored d i q)) ∧
  (∀ i q p n, bt_reqs b !! i = Some q → q_req_pool_idx q = Some p → d_positions d !! i = Some n →
     row_at (bt_table b') p = clear_range (row_at (bt_table b) p) n (n + 1)) ∧
  free_slots (bt_allocator b') = free_slots (bt_allocator b) ∪ list_to_set slots ∧
  rollback_moss_vl_realtime_batch b' = (Ok tt, b').

Lemma decode_rollback (b : Batch A) d slots :
  bt_decode b = Some d → decode_step d slots b →
  ∃ b', rollback_moss_vl_realtime_batch b = (Ok tt, b') ∧ decode_undone d slots b b'.
Proof.
  intros Hd [(Ho1 & Ho2 & Ho3) Hid Hrow [La Ls] Hl (S1 & S2 & S3)].
  unfold rollback_moss_vl_realtime_batch at 1. unfold get, mbind, M_bind. rewrite Hd.
  unfold rollback_decode. rewrite Ho1, Ho2, Ho3. cbn [orb].
  unfold get, lift, mbind, M_bind.
  assert (∀ j id, d_reqs d !! j = Some id → ∃ q, bt_reqs b !! (0 + j)%nat = Some q ∧ q_id q = id)
    as Hids.
  { intros j id Hj. destruct (lookup_lt_is_Some_2 (bt_reqs b) j) as [q Hq].
    - rewrite <- La. eapply lookup_lt_Some; exact Hj.
    - exists q. split; [done|]. destruct (Hl j q Hq) as [E _]. congruence. }
  rewrite (rollback_indices_all d _ (bt_reqs b) 0 (d_reqs d) Hid Hl Hids), La, <- Ls, pick_all.
  destruct (free_law slots (bt_allocator b) S1 S2 S3) as (pl & Ef & Hf).
  assert (∀ b1, bt_allocator b1 = pl → bt_reqs b1 = bt_reqs b → bt_table b1 = bt_table b →
    ∃ b2, mforeach (restore_decode d) (seq 0 (length slots)) b1 = (Ok tt, b2) ∧
      decode_undone d slots b (b2 <| bt_decode := Some (d <| d_released := true |>) |>)) as Hgo.
  { intros b1 E1 E2 E3.
    destruct (restore_decodes_spec d (seq 0 (length slots)) b1) as (b2 & R1 & R2 & R3 & R4);
      [apply NoDup_seq|by rewrite E2|by rewrite E2|..].
    { intros i Hi%elem_of_seq. destruct (lookup_lt_is_Some_2 (bt_reqs b) i) as [q Hq]; [lia|].
      exists q. rewrite E2, E3. split; [done|by apply Hl]. }
    exists b2. split; [done|]. rewrite E2 in R3, R4. rewrite E3 in R4.
    assert (∀ i q, bt_reqs b !! i = Some q → i ∈ seq 0 (length slots)) as Hin.
    { intros i q Hi. apply elem_of_seq. apply lookup_lt_Some in Hi. lia. }
    unfold decode_undone. fields. split_and!.
    - intros i q Hi. rewrite (R3 i q Hi), decide_True; [done|by eapply Hin].
    - intros i q p n Hi Hp Hn. destruct (Hl i q Hi) as (_ & n' & p' & _ & _ & Hq & Hr & _).
      rewrite Hp in Hq. injection Hq as <-.
      rewrite (R4 i q p Hi Hp), decide_True; [by rewrite Hn|by eapply Hin|lia].
    - by rewrite R2, E1, Hf.
    - unfold rollback_moss_vl_realtime_batch. unfold get, mbind, M_bind. fields.
      unfold rollback_decode. fields. rewrite orb_true_r. done. }
  destruct (Hgo (b <| bt_allocator := pl |>)) as (b2 & R1 & R2); [done..|].
  destruct (bool_decide (seq 0 (length slots) = [])) eqn:Eb.
  - apply bool_decide_eq_true in Eb. rewrite Eb in R1. injection R1 as <-.
    assert (slots = []) as -> by (destruct slots; [done|discriminate Eb]).
    eexists. split; [done|]. destruct R2 as (R3 & R4 & R5 & R6). split_and!; try done.
    + fields. set_solver.
    + unfold rollback_moss_vl_realtime_batch. unfold get, mbind, M_bind. fields.
      unfold rollback_decode. fields. rewrite orb_true_r. done.
  - unfold on_allocator, zoom. rewrite Ef. rewrite R1. eexists. split; [done|]. exact R2.
Qed.
End DecodeRollback.

(** ** Properties *)

(** C2: When extend preparation raises after allocation - while planning, or after the page-
    table transactions of some requests are staged - the batch is undone: no transaction stays
    open, the bookkeeping of every request agrees with its committed lengths, its committed
    prefix of the page table holds the slots it held, the slots allocated for the step are
    returned exactly once, and rolling back again does nothing. *)
Theorem extend_failure_restores {A} `{HA : Allocator A} {HL : AllocatorLaws A}
    (b b' : Batch A) slots input_ids seq_lens e :
  idle_batch b → bt_page_size b = 1 → bt_out_cache_loc b = Some slots → owned_slots b slots →
  prepare_moss_vl_realtime_encoder_info_extend input_ids seq_lens b = (Raise e, b') →
  b' = b ∨ undone b b' slots.
Proof. apply extend_failure. Qed.

(** C24: A successful extend preparation splits the allocated slots, without loss or reuse, into
    encoder slots, as many as the images of the requests add, and decoder slots; the decoder
    slots, the prefill tokens and the extend lengths count the same tokens; and for every
    request the encoder length is that of its images, the prefix length is its committed decoder
    length (the cached prefix it adopts, for a first text-only prefill), the extend length, at
    least one, is the rest of its range, and the sequence length is their sum. *)
Theorem extend_hands_over_all_slots {A} `{HA : Allocator A} (b b' : Batch A) slots input_ids seq_lens :
  bt_out_cache_loc b = Some slots →
  prepare_moss_vl_realtime_encoder_info_extend input_ids seq_lens b = (Ok tt, b') →
  ∃ meta, bt_meta b' = Some meta ∧ bt_out_cache_loc b' = Some (m_out_cache_loc meta) ∧
    handed_over (bt_reqs b) meta slots.
Proof. apply extend_handover. Qed.

(** C25: Rolling back an uncommitted decode step gives every request its recorded allocated and
    committed lengths, clears exactly the cell it wrote, returns the slots of the step to the
    allocator, and is idempotent. *)
Theorem decode_rollback_restores {A} `{HA : Allocator A} {HL : AllocatorLaws A}
    (b : Batch A) d slots :
  bt_decode b = Some d → decode_step d slots b →
  ∃ b', rollback_moss_vl_realtime_batch b = (Ok tt, b') ∧ decode_undone d slots b b'.
Proof. apply decode_rollback. Qed.

(** ** Witnesses *)

Definition demo_req (id : nat) (row : Z) (inputs : option BatchInputs) : BReq :=
  {| q_id := id; q_state := fresh_state "r" "s"; q_req_pool_idx := Some row;
     q_inputs := inputs; q_prefix_length := 0; q_extend_start := 0; q_extend_end := 2;
     q_logprob_start_len := 0; q_kv_allocated_len := Some 2; q_kv_committed_len := 2;
     q_transaction := None |}.

Definition demo_inputs (added : list pyval) : BatchInputs :=
  {| bi_num_image_tokens := Some 1; bi_items_added_frames := added; bi_mrope_positions := None |}.

(** Two requests of two tokens each; the second one brings an image token. *)
Definition demo_batch (added : list pyval) : Batch (gset Z) :=
  {| bt_reqs := [demo_req 0 0 None; demo_req 1 1 (Some (demo_inputs added))];
     bt_table := [[5; 6; 0; 0]; [7; 8; 0; 0]]; bt_allocator := {[9]}; bt_page_size := 1;
     bt_return_logprob := false; bt_out_cache_loc := Some [5; 6; 7; 8];
     bt_allocated_slots := None; bt_released := false; bt_committed := false;
     bt_decode := None; bt_meta := None |}.

Lemma demo_idle added : idle_batch (demo_batch added).
Proof.
  split.
  - intros r Hr. simpl in Hr.
    repeat (apply elem_of_cons in Hr as [->|Hr]; [reflexivity|]). by apply elem_of_nil in Hr.
  - apply (bool_decide_unpack _). vm_compute. exact I.
  - repeat constructor; (eexists; split; [reflexivity|]; split; [vm_compute; by split|by left]).
Defined.

Lemma demo_owned added : owned_slots (demo_batch added) [5; 6; 7; 8].
Proof.
  split_and!; [repeat constructor; lia|apply (bool_decide_unpack _); vm_compute; exact I|].
  apply (bool_decide_unpack _). vm_compute. exact I.
Defined.

(** The second request's media item carries no added-frame count. *)
Lemma extend_failure_restores_witness :
  ∃ e b', prepare_moss_vl_realtime_encoder_info_extend [[1; 2]; [3; 4]] [2; 2] (demo_batch [])
    = (Raise e, b') ∧ bt_released b' = true ∧ free_slots (bt_allocator b') = {[5; 6; 7; 8; 9]}.
Proof.
  destruct (prepare_moss_vl_realtime_encoder_info_extend [[1; 2]; [3; 4]] [2; 2] (demo_batch []))
    as [[u|e] b'] eqn:E; [vm_compute in E; discriminate E|].
  exists e, b'. split; [reflexivity|].
  destruct (extend_failure_restores _ _ [5; 6; 7; 8] _ _ _ (demo_idle []) eq_refl eq_refl
    (demo_owned []) E) as [->|(_ & _ & Hr & Hf & _)].
  - exfalso. vm_compute in E. discriminate E.
  - split; [exact Hr|]. rewrite Hf. apply (bool_decide_unpack _). vm_compute. exact I.
Defined.

Lemma extend_hands_over_all_slots_witness :
  ∃ b' meta, prepare_moss_vl_realtime_encoder_info_extend [[1; 2]; [3; 4]] [2; 2]
      (demo_batch [VNum (NInt 1)]) = (Ok tt, b') ∧ bt_meta b' = Some meta ∧
    m_encoder_out_cache_loc meta ++ m_out_cache_loc meta ≡ₚ [5; 6; 7; 8] ∧
    m_encoder_out_cache_loc meta = [7].
Proof.
  destruct (prepare_moss_vl_realtime_encoder_info_extend [[1; 2]; [3; 4]] [2; 2]
    (demo_batch [VNum (NInt 1)])) as [[[]|e] b'] eqn:E; [|vm_compute in E; discriminate E].
  destruct (extend_hands_over_all_slots (demo_batch [VNum (NInt 1)]) b' [5; 6; 7; 8] _ _ eq_refl E)
    as (meta & Hm & _ & Hh).
  exists b', meta. split_and!; [reflexivity|exact Hm|exact (ho_slots _ _ _ Hh)|].
  vm_compute in E. injection E as <-. injection Hm as <-. reflexivity.
Defined.

Definition demo_decode : DecodeAllocation :=
  {| d_reqs := [0%nat; 1%nat]; d_positions := [1; 1]; d_committed_lengths := [0; 0];
     d_pool_indices := [0; 1]; d_slots := Some [6; 8]; d_committed := false;
     d_released := false |}.

Definition demo_decoding : Batch (gset Z) := demo_batch [] <| bt_decode := Some demo_decode |>.

Lemma demo_decode_step : decode_step demo_decode [6; 8] demo_decoding.
Proof.
  split; [done|apply (bool_decide_unpack _); vm_compute; exact I
    |apply (bool_decide_unpack _); vm_compute; exact I|done|..].
  - intros [|[|i]] q [= <-]; (split; [done|]); [exists 1, 0|exists 1, 1];
      (split_and!; try reflexivity; vm_compute; done).
  - split_and!; [repeat constructor; lia|apply (bool_decide_unpack _); vm_compute; exact I|].
    apply (bool_decide_unpack _). vm_compute. exact I.
Defined.

Lemma decode_rollback_restores_witness :
  ∃ b', rollback_moss_vl_realtime_batch demo_decoding = (Ok tt, b') ∧
    row_at (bt_table b') 1 = [7; 0; 0; 0].
Proof.
  destruct (decode_rollback_restores demo_decoding demo_decode [6; 8] eq_refl demo_decode_step)
    as (b' & E & _ & Hr & _).
  exists b'. split; [exact E|]. exact (Hr 1%nat _ 1 1 eq_refl eq_refl eq_refl).
Defined.
