(* ===== verification/Extend.v ===== *)
(** * Turning a decoding request into an extend request and back

    Models the request-level half of
    [src/sglang_omni/models/moss_vl_realtime/scheduler.py]: the context guard, the page
    row binding, [_append_segment_to_request], [_decode_allowance] and
    [_undo_appended_segment].  The upstream request's [_refresh_fill_ids] and
    [set_extend_range] are parameters: the fill ids as a function of the prompt and
    the output, and the range value built from its bounds. *)
From S2P Require Import Prelude PyNum Payload KVLayout FramePlan RuntimeState Segment BatchAdapter.
Local Open Scope Z_scope.

(** ** What a request carries between an extend and its commit *)

Abbreviation EventDict := (gmap string pyval).

Record TurnTransition : Type := {
  tr_interrupted_turn_id : Z;
  tr_turn_id : Z;
  tr_prompt_seq_nos : list Z
}.

(** The [_moss_vl_realtime_staged_*] attributes; [None] when absent. *)
Record Staging : Type := {
  g_events : option (list EventDict);
  g_transition : option TurnTransition;
  g_mrope_positions : option Positions;
  g_visible_frame_counts : option (list Z);
  g_full_grid_thw : option (list Grid);
  g_frame_records : option (list FrameRecord)
}.

#[global] Instance eta_Staging : Eta Staging := fun g =>
  {| g_events := g_events g; g_transition := g_transition g;
     g_mrope_positions := g_mrope_positions g;
     g_visible_frame_counts := g_visible_frame_counts g;
     g_full_grid_thw := g_full_grid_thw g; g_frame_records := g_frame_records g |}.

Definition no_staging : Staging :=
  {| g_events := None; g_transition := None; g_mrope_positions := None;
     g_visible_frame_counts := None; g_full_grid_thw := None; g_frame_records := None |}.

(** The five [_moss_vl_realtime_previous_*] attributes. *)
Record Previous (Inputs Range : Type) : Type := {
  pv_mm_inputs : option Inputs;
  pv_extend_range : Range;
  pv_prefix_indices : list Z;
  pv_skip_radix_cache_insert : bool;
  pv_max_new_tokens : Z
}.
Arguments Build_Previous {Inputs Range}.
Arguments pv_mm_inputs {Inputs Range}.
Arguments pv_extend_range {Inputs Range}.
Arguments pv_prefix_indices {Inputs Range}.
Arguments pv_skip_radix_cache_insert {Inputs Range}.
Arguments pv_max_new_tokens {Inputs Range}.

Record Req (Inputs Range : Type) : Type := {
  x_rid : string;
  x_state : RuntimeState;
  x_origin_input_ids : list Z;
  x_output_ids : list Z;
  x_fill_ids : list Z;
  x_max_new_tokens : Z;
  x_ignore_eos : bool;
  x_multimodal_inputs : option Inputs;
  x_extend_range : Range;
  x_prefix_indices : list Z;
  x_skip_radix_cache_insert : bool;
  x_page_row : option Row;
  x_previous : option (Previous Inputs Range);
  x_staging : Staging;
  x_final_extend : bool
}.
Arguments Build_Req {Inputs Range}.
Arguments x_rid {Inputs Range}.
Arguments x_state {Inputs Range}.
Arguments x_origin_input_ids {Inputs Range}.
Arguments x_output_ids {Inputs Range}.
Arguments x_fill_ids {Inputs Range}.
Arguments x_max_new_tokens {Inputs Range}.
Arguments x_ignore_eos {Inputs Range}.
Arguments x_multimodal_inputs {Inputs Range}.
Arguments x_extend_range {Inputs Range}.
Arguments x_prefix_indices {Inputs Range}.
Arguments x_skip_radix_cache_insert {Inputs Range}.
Arguments x_page_row {Inputs Range}.
Arguments x_previous {Inputs Range}.
Arguments x_staging {Inputs Range}.
Arguments x_final_extend {Inputs Range}.

#[global] Instance eta_Req {I R} : Eta (Req I R) := fun r =>
  {| x_rid := x_rid r; x_state := x_state r; x_origin_input_ids := x_origin_input_ids r;
     x_output_ids := x_output_ids r; x_fill_ids := x_fill_ids r;
     x_max_new_tokens := x_max_new_tokens r; x_ignore_eos := x_ignore_eos r;
     x_multimodal_inputs := x_multimodal_inputs r; x_extend_range := x_extend_range r;
     x_prefix_indices := x_prefix_indices r;
     x_skip_radix_cache_insert := x_skip_radix_cache_insert r; x_page_row := x_page_row r;
     x_previous := x_previous r; x_staging := x_staging r;
     x_final_extend := x_final_extend r |}.

(** ** Context guard *)

Definition token_total (s : RuntimeState) : Z :=
  effective_appended_encoder_length s + r_decoder_length s.

Definition guard_realtime_context_capacity (s : RuntimeState) (append_length width : Z)
  : result unit :=
  let context_length := limit_or (r_context_limit s) width in
  let projected_kv := committed_kv s + append_length + 1 in
  let projected_total := token_total s + append_length + 2 in
  raise_if ((context_length <? projected_total) || (width <? projected_kv))
    (ContextExhaustedError "realtime request exhausted the context length").

Section Requests.
Context {Pixels Range : Type}.
Abbreviation SReq := (Req (Segment Pixels) Range).
Context (fill_ids : list Z → list Z → list Z) (extend_range : Z → Z → Range).

Definition absent : pyexn := OtherError "AttributeError".

Definition refresh_fill_ids : M SReq unit :=
  modify (fun r => r <| x_fill_ids := fill_ids (x_origin_input_ids r) (x_output_ids r) |>).

(** [req._moss_vl_realtime_page_row = req_to_token[req_pool_index]]. *)
Definition bind_realtime_page_row (index : option Z) (table : Table) : M SReq unit :=
  i ← lift (match index with Some i => Ok i | None => Raise (TypeError "int()") end);
  _ ← guard_raise ((i <? 0) || (zlength table <=? i)) (IndexError "index is out of bounds");
  assign_to x_page_row (Some (row_at table i)).

Definition page_row : M SReq Row :=
  r ← get;
  lift (match x_page_row r with Some row => Ok row | None => Raise absent end).

(** [_decode_allowance]. *)
Definition decode_allowance : M SReq Z :=
  r ← get;
  match r_decode_allowance (x_state r) with
  | Some a => mret a
  | None =>
      let a := x_max_new_tokens r - zlength (x_output_ids r) in
      _ ← guard_raise (a <=? 0) (ValueError "realtime request has no decode allowance left");
      _ ← assign_to x_state (x_state r <| r_decode_allowance := Some a |>);
      mret a
  end.

(** ** [_append_segment_to_request] *)

Definition remember_previous : M SReq unit :=
  modify (fun r => r <| x_previous := Some
    {| pv_mm_inputs := x_multimodal_inputs r; pv_extend_range := x_extend_range r;
       pv_prefix_indices := x_prefix_indices r;
       pv_skip_radix_cache_insert := x_skip_radix_cache_insert r;
       pv_max_new_tokens := x_max_new_tokens r |} |>).

Definition stage_with (f : Staging → Staging) : M SReq unit :=
  modify (fun r => r <| x_staging := f (x_staging r) |>).

(** The turn boundaries its prompts cross. *)
Definition transition_of (turn_id : Z) (events : list FramePromptEvent) : option TurnTransition :=
  let prompt_seq_nos := map ev_seq_no (List.filter
    (fun e => match ev_prompt e with Some _ => true | None => false end) events) in
  if bool_decide (prompt_seq_nos = []) then None
  else Some {| tr_interrupted_turn_id := turn_id;
               tr_turn_id := turn_id + zlength prompt_seq_nos;
               tr_prompt_seq_nos := prompt_seq_nos |}.

Definition stage_segment (segment : Segment Pixels) : M SReq unit :=
  _ ← stage_with (assign g_mrope_positions (Some (sg_mrope_positions segment)));
  _ ← stage_with (assign g_visible_frame_counts (Some (sg_visible_frame_counts segment)));
  _ ← stage_with (assign g_full_grid_thw (Some (sg_full_grid_thw segment)));
  dicts ← lift (rmapM to_dict (sg_events segment));
  _ ← stage_with (assign g_events (Some dicts));
  r ← get;
  match transition_of (r_turn_id (x_state r)) (sg_events segment) with
  | Some t => stage_with (assign g_transition (Some t))
  | None => mret tt
  end.

(** The pending token and the committed prefix of the row must be there. *)
Definition check_pending : M SReq unit :=
  r ← get;
  let total := token_total (x_state r) in
  _ ← refresh_fill_ids;
  r ← get;
  _ ← guard_raise (negb (zlength (x_fill_ids r) =? total + 1))
        (RuntimeError "request does not have exactly one pending sampled token");
  pending ← lift (match last (x_fill_ids r) with
                  | Some t => Ok t | None => Raise (IndexError "list index out of range") end);
  _ ← assign_to x_state (x_state r <| r_pending_token_id := Some pending |>);
  row ← page_row;
  guard_raise (existsb (fun v => v <=? 0) (ztake (committed_kv (x_state r)) row))
    (RuntimeError "realtime committed KV prefix contains empty slots").

Definition append_segment_to_request (segment : Segment Pixels) : M SReq unit :=
  _ ← check_pending;
  _ ← remember_previous;
  _ ← assign_to x_skip_radix_cache_insert true;
  _ ← stage_segment segment;
  _ ← (if existsb ev_final (sg_events segment) then assign_to x_final_extend true else mret tt);
  allowance ← decode_allowance;
  _ ← modify (fun r => r <| x_output_ids := x_output_ids r ++ raw_append_ids segment |>);
  row ← page_row;
  r ← get;
  let limit := limit_or (r_context_limit (x_state r)) (zlength row) in
  _ ← assign_to x_max_new_tokens
        (Z.min (zlength (x_output_ids r) + allowance)
           (Z.max 0 (limit - zlength (x_origin_input_ids r))));
  _ ← assign_to x_multimodal_inputs (Some segment);
  _ ← refresh_fill_ids;
  r ← get;
  let total := token_total (x_state r) in
  _ ← assign_to x_prefix_indices (ztake total row);
  assign_to x_extend_range (extend_range total (zlength (x_fill_ids r))).

(** The frame records of the segment, staged when the window is on. *)
Definition stage_frame_records (records : option (list FrameRecord)) : M SReq unit :=
  match records with
  | Some rs => stage_with (assign g_frame_records (Some rs))
  | None => mret tt
  end.

(** ** [_undo_appended_segment] *)

Definition is_absent {B} (o : option B) : bool := match o with None => true | Some _ => false end.

Definition undo_appended_segment (segment : Segment Pixels) : M SReq unit :=
  let count := length (raw_append_ids segment) in
  _ ← modify (fun r => r <| x_output_ids :=
        take (length (x_output_ids r) - count) (x_output_ids r) |>);
  r ← get;
  match x_previous r with
  | None => throw absent
  | Some p =>
      _ ← assign_to x_max_new_tokens (pv_max_new_tokens p);
      _ ← assign_to x_multimodal_inputs (pv_mm_inputs p);
      _ ← assign_to x_extend_range (pv_extend_range p);
      _ ← assign_to x_prefix_indices (pv_prefix_indices p);
      _ ← assign_to x_skip_radix_cache_insert (pv_skip_radix_cache_insert p);
      _ ← assign_to x_previous None;
      r ← get;
      let g := x_staging r in
      _ ← guard_raise (is_absent (g_mrope_positions g)) absent;
      _ ← stage_with (assign g_mrope_positions None);
      _ ← guard_raise (is_absent (g_visible_frame_counts g)) absent;
      _ ← stage_with (assign g_visible_frame_counts None);
      _ ← guard_raise (is_absent (g_full_grid_thw g)) absent;
      _ ← stage_with (assign g_full_grid_thw None);
      _ ← guard_raise (is_absent (g_events g)) absent;
      _ ← stage_with (assign g_events None);
      _ ← stage_with (assign g_frame_records None);
      _ ← stage_with (assign g_transition None);
      _ ← assign_to x_final_extend false;
      _ ← refresh_fill_ids;
      modify (fun r => r <| x_state := x_state r <| r_pending_token_id := None |> |>)
  end.
End Requests.

(** ** Undoing an append *)

Section Undo.
Context {Pixels Range : Type}.
Abbreviation SReq := (Req (Segment Pixels) Range).
Context (fill_ids : list Z → list Z → list Z) (extend_range : Z → Z → Range).

(** Nothing is left over from an earlier extend. *)
Definition clean (r : SReq) : Prop :=
  x_previous r = None ∧ x_staging r = no_staging ∧ x_final_extend r = false ∧
  r_pending_token_id (x_state r) = None.

Definition refreshed (r : SReq) : SReq :=
  r <| x_fill_ids := fill_ids (x_origin_input_ids r) (x_output_ids r) |>.

Lemma check_pending_Ok (r r1 : SReq) :
  check_pending fill_ids r = (Ok tt, r1) →
  ∃ t, r1 = refreshed r <| x_state := x_state r <| r_pending_token_id := Some t |> |> ∧
    zlength (x_fill_ids r1) = token_total (x_state r) + 1.
Proof.
  intros H. unfold check_pending, refresh_fill_ids, page_row in H. inv_ok. fields.
  destruct (last _) as [t|] eqn:Hl; [|done]. inv_ok. by eexists.
Qed.

Lemma decode_allowance_Ok (r r1 : SReq) a :
  decode_allowance r = (Ok a, r1) →
  r1 = r <| x_state := x_state r <| r_decode_allowance := Some a |> |> ∧
  match r_decode_allowance (x_state r) with
  | Some a' => a' = a
  | None => a = x_max_new_tokens r - zlength (x_output_ids r) ∧ 0 < a
  end.
Proof.
  intros H. unfold decode_allowance in H. unfold get, mbind at 1, M_bind at 1 in H.
  destruct (r_decode_allowance (x_state r)) as [a'|] eqn:E.
  - injection H as -> <-. split; [|done]. destruct r as [? st]. simpl in *.
    destruct st. simpl in E. subst. reflexivity.
  - inv_ok. split; [done|]. split; [done|]. lia.
Qed.

Lemma stage_segment_Ok (segment : Segment Pixels) (r r1 : SReq) :
  x_staging r = no_staging → stage_segment segment r = (Ok tt, r1) →
  ∃ dicts, rmapM to_dict (sg_events segment) = Ok dicts ∧
    r1 = r <| x_staging := {| g_events := Some dicts;
      g_transition := transition_of (r_turn_id (x_state r)) (sg_events segment);
      g_mrope_positions := Some (sg_mrope_positions segment);
      g_visible_frame_counts := Some (sg_visible_frame_counts segment);
      g_full_grid_thw := Some (sg_full_grid_thw segment); g_frame_records := None |} |>.
Proof.
  intros Hn H. unfold stage_segment, stage_with in H. inv_ok.
  destruct r. simpl in Hn. subst.
  match goal with H : rmapM to_dict _ = Ok ?d |- _ => exists d; split; [exact H|] end.
  fields. destruct (transition_of _ _) eqn:Et; inv_ok; reflexivity.
Qed.

(** The request an append leaves. *)
Lemma append_Ok (segment : Segment Pixels) (r r1 : SReq) :
  clean r → append_segment_to_request fill_ids extend_range segment r = (Ok tt, r1) →
  ∃ t dicts a row,
    x_page_row r = Some row ∧
    zlength (fill_ids (x_origin_input_ids r) (x_output_ids r)) = token_total (x_state r) + 1 ∧
    rmapM to_dict (sg_events segment) = Ok dicts ∧
    match r_decode_allowance (x_state r) with
    | Some a' => a' = a
    | None => a = x_max_new_tokens r - zlength (x_output_ids r) ∧ 0 < a
    end ∧
    let st := x_state r <| r_pending_token_id := Some t |> <| r_decode_allowance := Some a |> in
    let out := x_output_ids r ++ raw_append_ids segment in
    let fill := fill_ids (x_origin_input_ids r) out in
    r1 = {| x_rid := x_rid r; x_state := st; x_origin_input_ids := x_origin_input_ids r;
      x_output_ids := out; x_fill_ids := fill;
      x_max_new_tokens := Z.min (zlength out + a)
        (Z.max 0 (limit_or (r_context_limit st) (zlength row) - zlength (x_origin_input_ids r)));
      x_ignore_eos := x_ignore_eos r; x_multimodal_inputs := Some segment;
      x_extend_range := extend_range (token_total st) (zlength fill);
      x_prefix_indices := ztake (token_total st) row; x_skip_radix_cache_insert := true;
      x_page_row := Some row;
      x_previous := Some {| pv_mm_inputs := x_multimodal_inputs r;
        pv_extend_range := x_extend_range r; pv_prefix_indices := x_prefix_indices r;
        pv_skip_radix_cache_insert := x_skip_radix_cache_insert r;
        pv_max_new_tokens := x_max_new_tokens r |};
      x_staging := {| g_events := Some dicts;
        g_transition := transition_of (r_turn_id (x_state r)) (sg_events segment);
        g_mrope_positions := Some (sg_mrope_positions segment);
        g_visible_frame_counts := Some (sg_visible_frame_counts segment);
        g_full_grid_thw := Some (sg_full_grid_thw segment); g_frame_records := None |};
      x_final_extend := existsb ev_final (sg_events segment) |}.
Proof.
  intros (Hp & Hg & Hf & Hpend) H. unfold append_segment_to_request in H.
  apply Mbind_Ok in H as ([] & r2 & H2 & H). apply check_pending_Ok in H2 as (t & -> & Hlen).
  unfold remember_previous in H. do 2 (apply Mbind_Ok in H as ([] & ? & [= <-] & H)).
  apply Mbind_Ok in H as ([] & r3 & H3 & H).
  apply stage_segment_Ok in H3 as (dicts & Hd & ->); [|done].
  apply Mbind_Ok in H as ([] & r4 & H4 & H).
  destruct r as [rid st origin out fill mx eos mm er pi skip row pv stg fin].
  simpl in Hp, Hg, Hf, Hpend, Hlen, H4. subst pv stg fin. unfold refreshed in H4.
  cbn in H4.
  match type of H4 with (if _ then _ else _) ?x = _ => set (r3 := x) in H4 end.
  assert (r4 = r3 <| x_final_extend := existsb ev_final (sg_events segment) |>) as ->.
  { destruct (existsb _ _); by injection H4 as <-. }
  clear H4. apply Mbind_Ok in H as (a & r5 & H5 & H).
  apply decode_allowance_Ok in H5 as [-> Ha].
  apply Mbind_Ok in H as ([] & r6 & [= <-] & H).
  apply Mbind_Ok in H as (row' & r6 & Hrow & H).
  unfold page_row in Hrow. apply Mbind_Ok in Hrow as (? & ? & [= <- <-] & Hrow).
  apply Mlift_Ok in Hrow as [Hrow ->]. 
  assert (row = Some row') as ->.
  { unfold r3 in Hrow. cbn in Hrow. destruct row; [|done]. by injection Hrow as ->. }
  exists t, dicts, a, row'. split; [done|]. split; [exact Hlen|]. split; [done|].
  split; [exact Ha|].
  unfold refresh_fill_ids in H. unfold get, modify, mbind, M_bind in H. injection H as <-.
  reflexivity.
Qed.

(** The request an undo leaves when an append was staged. *)
Lemma undo_Ok (segment : Segment Pixels) (r : SReq) p m v g d t recs :
  x_previous r = Some p →
  x_staging r = {| g_events := Some d; g_transition := t; g_mrope_positions := Some m;
    g_visible_frame_counts := Some v; g_full_grid_thw := Some g; g_frame_records := recs |} →
  let out := take (length (x_output_ids r) - length (raw_append_ids segment)) (x_output_ids r) in
  undo_appended_segment fill_ids segment r =
  (Ok tt, {| x_rid := x_rid r; x_state := x_state r <| r_pending_token_id := None |>;
     x_origin_input_ids := x_origin_input_ids r; x_output_ids := out;
     x_fill_ids := fill_ids (x_origin_input_ids r) out;
     x_max_new_tokens := pv_max_new_tokens p; x_ignore_eos := x_ignore_eos r;
     x_multimodal_inputs := pv_mm_inputs p; x_extend_range := pv_extend_range p;
     x_prefix_indices := pv_prefix_indices p;
     x_skip_radix_cache_insert := pv_skip_radix_cache_insert p; x_page_row := x_page_row r;
     x_previous := None; x_staging := no_staging; x_final_extend := false |}).
Proof.
  intros Hp Hg. destruct r as [rid st origin out fill mx eos mm er pi skip row pv stg fin].
  simpl in Hp, Hg. subst. reflexivity.
Qed.

Lemma undo_append (segment : Segment Pixels) recs (r r1 r2 : SReq) :
  clean r → append_segment_to_request fill_ids extend_range segment r = (Ok tt, r1) →
  stage_frame_records recs r1 = (Ok tt, r2) →
  ∃ a, (r_decode_allowance (x_state r) = Some a ∨ r_decode_allowance (x_state r) = None) ∧
    undo_appended_segment fill_ids segment r2 =
      (Ok tt, refreshed r <| x_state := x_state r <| r_decode_allowance := Some a |> |>).
Proof.
  intros Hc H Hs. apply append_Ok in H as (t & dicts & a & row & Hrow & _ & _ & Ha & ->); [|done].
  exists a. split; [destruct (r_decode_allowance (x_state r)); [left; by f_equal|by right]|].
  destruct Hc as (Hp & Hg & Hf & Hpend). cbv zeta in Hs.
  match type of Hs with stage_frame_records _ ?x = _ => set (r1 := x) in Hs end.
  assert (x_previous r2 = x_previous r1 ∧ x_output_ids r2 = x_output_ids r1 ∧
    x_staging r2 = x_staging r1 <| g_frame_records := recs |> ∧
    r2 = r1 <| x_staging := x_staging r2 |>) as (E1 & E2 & E3 & E4).
  { destruct recs; injection Hs as <-; split_and!; reflexivity. }
  erewrite undo_Ok; [|by rewrite E1|by rewrite E3]. f_equal.
  rewrite E2, E4. clear E1 E2 E3 E4. unfold r1. cbn [x_output_ids].
  rewrite length_app. replace (_ + _ - _)%nat with (length (x_output_ids r)) by lia.
  rewrite take_app_length. clear r1 Hs Ha.
  destruct r as [rid st origin out fill mx eos mm er pi skip row0 pv stg fin].
  simpl in Hp, Hg, Hf, Hpend, Hrow. subst. destruct st. simpl in Hpend. subst. reflexivity.
Qed.

(** The fill ids are the prompt followed by the output. *)
Definition fills : Prop := ∀ origin output,
  zlength (fill_ids origin output) = zlength origin + zlength output.

(** What an accepted append guarantees for the forward that runs it: the extend takes one slot per
    token from [lo] to [hi], written behind what is committed, and its last token samples one
    more. *)
Record extend_fits (segment : Segment Pixels) (width limit : Z) (r r1 : SReq) : Prop := {
  ef_row : ∃ lo hi, x_extend_range r1 = extend_range lo hi ∧ lo < hi ∧
    committed_kv (x_state r1) + (hi - lo) ≤ width;
  ef_sampled : zlength (x_fill_ids r1) + 1 ≤ limit;
  ef_range : x_extend_range r1 = extend_range (token_total (x_state r)) (zlength (x_fill_ids r1));
  ef_new : zlength (x_fill_ids r1) - token_total (x_state r)
           = zlength (raw_append_ids segment) + 1;
  ef_budget : zlength (x_output_ids r1) < x_max_new_tokens r1;
  ef_limit : zlength (x_origin_input_ids r1) + x_max_new_tokens r1 ≤ limit
}.

Lemma guarded_append_fits (segment : Segment Pixels) width (r r1 : SReq) :
  fills → clean r → zlength (default [] (x_page_row r)) = width →
  (∀ a, r_decode_allowance (x_state r) = Some a → 0 < a) →
  guard_realtime_context_capacity (x_state r) (zlength (raw_append_ids segment)) width = Ok tt →
  append_segment_to_request fill_ids extend_range segment r = (Ok tt, r1) →
  extend_fits segment width (limit_or (r_context_limit (x_state r)) width) r r1.
Proof.
  intros Hfill Hc Hw Hpos Hg H.
  apply append_Ok in H as (t & dicts & a & row & Hrow & Hlen & _ & Ha & ->); [|done].
  assert (0 < a) as Ha0.
  { destruct (r_decode_allowance (x_state r)) eqn:E; [subst; by apply Hpos|lia]. }
  rewrite Hrow in Hw. simpl in Hw.
  unfold guard_realtime_context_capacity in Hg. apply raise_if_Ok in Hg. reflect_bool.
  rewrite Hfill in Hlen. set (L := limit_or _ _) in *.
  assert (committed_kv (x_state r <| r_pending_token_id := Some t |>
    <| r_decode_allowance := Some a |>) = committed_kv (x_state r)) as E1 by done.
  split; simpl.
  - eexists _, _. split; [reflexivity|]. rewrite Hfill, zlength_app, E1.
    change (token_total (x_state r <| r_pending_token_id := Some t |>
      <| r_decode_allowance := Some a |>)) with (token_total (x_state r)).
    pose proof (zlength_nonneg (raw_append_ids segment)). lia.
  - rewrite Hfill, zlength_app. lia.
  - done.
  - rewrite Hfill, zlength_app. lia.
  - rewrite Hw. fold L. rewrite zlength_app. lia.
  - rewrite Hw. fold L. pose proof (zlength_nonneg (x_origin_input_ids r)).
    pose proof (zlength_nonneg (x_output_ids r)).
    pose proof (zlength_nonneg (raw_append_ids segment)). lia.
Qed.
End Undo.

(** ** Properties *)

(** C38: Undoing an appended segment gives the request back: outputs, sampling limit, inputs,
    extend range, prefix, radix flag and every staged attribute are what they were, the fill ids
    are those of the restored output, and only the decode allowance, once derived, stays. *)
Theorem undo_inverts_append {Pixels Range} (fill_ids : list Z → list Z → list Z)
    (extend_range : Z → Z → Range) (segment : Segment Pixels) recs r r1 r2 :
  clean r → append_segment_to_request fill_ids extend_range segment r = (Ok tt, r1) →
  stage_frame_records recs r1 = (Ok tt, r2) →
  ∃ a, (r_decode_allowance (x_state r) = Some a ∨ r_decode_allowance (x_state r) = None) ∧
    undo_appended_segment fill_ids segment r2 =
      (Ok tt, refreshed fill_ids r <| x_state := x_state r <| r_decode_allowance := Some a |> |>).
Proof. apply undo_append. Qed.

(** An append the context guard accepted fits: the row holds every slot the extend takes, one
    for each token of its range behind what is committed; the next sampled position stays below
    the context limit, and the sampling limit leaves at least one token to decode without
    passing it. *)
Theorem guarded_append_fits_row {Pixels Range} (fill_ids : list Z → list Z → list Z)
    (extend_range : Z → Z → Range) (segment : Segment Pixels) width r r1 :
  fills fill_ids → clean r → zlength (default [] (x_page_row r)) = width →
  (∀ a, r_decode_allowance (x_state r) = Some a → 0 < a) →
  guard_realtime_context_capacity (x_state r) (zlength (raw_append_ids segment)) width = Ok tt →
  append_segment_to_request fill_ids extend_range segment r = (Ok tt, r1) →
  extend_fits extend_range segment width (limit_or (r_context_limit (x_state r)) width) r r1.
Proof. apply guarded_append_fits. Qed.

(** ** Witnesses *)

Definition demo_request : Req (Segment unit) (Z * Z) :=
  {| x_rid := "r"; x_state := fresh_state "r" "s" <| r_req_pool_index := Some 0 |>
       <| r_decoder_length := 2 |> <| r_phase := DECODING |>;
     x_origin_input_ids := [11; 12]; x_output_ids := [13]; x_fill_ids := [11; 12; 13];
     x_max_new_tokens := 5; x_ignore_eos := true; x_multimodal_inputs := None;
     x_extend_range := (2, 3); x_prefix_indices := []; x_skip_radix_cache_insert := true;
     x_page_row := Some [4; 5; 0; 0; 0; 0; 0; 0]; x_previous := None; x_staging := no_staging;
     x_final_extend := false |}.

Definition demo_append : Segment unit :=
  {| sg_events := [{| ev_request_id := "r"; ev_session_id := "s"; ev_seq_no := 0;
       ev_timestamp := NInt 1; ev_frame_ref := None; ev_prompt := Some "hi"; ev_final := false;
       ev_fingerprint := None |}];
     sg_event_input_ids := [21; 22]; sg_encoder_pad_ids := [31]; sg_encoder_delta_length := 1;
     sg_next_mrope_position := 5; sg_full_grid_thw := [(1, 2, 2)]; sg_mm_items := [];
     sg_num_image_tokens := 1; sg_mrope_positions := ([0; 1; 2; 3; 4], [0; 1; 2; 3; 4], [0; 1; 2; 3; 4]);
     sg_mrope_position_delta := 0; sg_vision_position_ids := None;
     sg_media_nums_per_sample := 1; sg_visible_frame_counts := [0; 0; 0; 0; 1] |}.

Lemma demo_clean : clean demo_request.
Proof. repeat split. Defined.

Lemma undo_inverts_append_witness :
  ∃ r1 r2, append_segment_to_request app pair demo_append demo_request = (Ok tt, r1) ∧
    x_output_ids r1 = [13; 31; 21; 22] ∧
    undo_appended_segment app demo_append r1 = (Ok tt, r2) ∧ x_output_ids r2 = [13] ∧
    x_extend_range r2 = (2, 3).
Proof.
  destruct (append_segment_to_request app pair demo_append demo_request) as [[[]|e] r1] eqn:E;
    [|vm_compute in E; discriminate E].
  destruct (undo_inverts_append app pair demo_append None demo_request r1 r1 demo_clean E eq_refl)
    as (a & _ & H).
  exists r1. eexists. split; [reflexivity|]. split; [vm_compute in E; by injection E as <-|].
  split; [exact H|]. split; reflexivity.
Defined.

Lemma guarded_append_fits_row_witness :
  ∃ r1, append_segment_to_request app pair demo_append demo_request = (Ok tt, r1) ∧
    zlength (x_fill_ids r1) + 1 ≤ 8 ∧ x_max_new_tokens r1 = 6.
Proof.
  destruct (append_segment_to_request app pair demo_append demo_request) as [[[]|e] r1] eqn:E;
    [|vm_compute in E; discriminate E].
  exists r1. split; [reflexivity|].
  pose proof (guarded_append_fits_row app pair demo_append 8 demo_request r1
    (fun a b => zlength_app a b) demo_clean eq_refl ltac:(discriminate) eq_refl E) as [_ H _ _ _ _].
  split; [exact H|]. vm_compute in E. by injection E as <-.
Defined.
