(* ===== verification/ModelRunner.v ===== *)
(** * Committing forwards into the runtime state

    Models [src/sglang_omni/models/moss_vl_realtime/model_runner.py]: what happens to a
    batch when a forward fails, after a prefill and after a decode step.  The generic
    runner's [execute] is a parameter; a device wait has no effect on the modelled
    state.  A batch comes with, per request, the attributes staged by the scheduler. *)
From S2P Require Import Prelude PyNum Payload Accounting KVLayout FramePlan RuntimeState Segment.
From S2P Require Import FrameApply BatchAdapter Extend.
Local Open Scope Z_scope.

(** ** State *)

(** The attributes of one request the runner reads and removes. *)
Record Attrs : Type := {
  t_rid : string;
  t_staging : Staging;
  (** whether the [_moss_vl_realtime_previous_*] attributes are present *)
  t_has_previous : bool;
  t_processed_events : option (list EventDict)
}.

#[global] Instance eta_Attrs : Eta Attrs := fun t =>
  {| t_rid := t_rid t; t_staging := t_staging t; t_has_previous := t_has_previous t;
     t_processed_events := t_processed_events t |}.

Record Runner (A : Type) : Type := {
  n_batch : Batch A;
  n_attrs : list Attrs
}.
Arguments Build_Runner {A}.
Arguments n_batch {A}.
Arguments n_attrs {A}.

#[global] Instance eta_Runner {A} : Eta (Runner A) := fun n =>
  {| n_batch := n_batch n; n_attrs := n_attrs n |}.

(** ** Turn numbers of processed events *)

(** One boundary per prompt, in prompt order. *)
Fixpoint turn_transitions (cursor : Z) (seq_nos : list Z) (m : gmap Z (Z * Z)) : gmap Z (Z * Z) :=
  match seq_nos with
  | [] => m
  | n :: seq_nos' => turn_transitions (cursor + 1) seq_nos' (<[n := (cursor, cursor + 1)]> m)
  end.

(** [int(event["seq_no"])]; [to_dict] always stores an integer. *)
Definition event_seq_no (d : EventDict) : result Z :=
  match d !! "seq_no" with
  | Some (VNum (NInt n)) => Ok n
  | Some _ => Raise (TypeError "int()")
  | None => Raise (KeyError "seq_no")
  end.

Definition annotate (turns : gmap Z (Z * Z)) (d : EventDict) : result EventDict :=
  n ← event_seq_no d;
  Ok match turns !! n with
     | Some (interrupted, turn) =>
         <["turn_id" := VNum (NInt turn)]> (<["interrupted_turn_id" := VNum (NInt interrupted)]> d)
     | None => d
     end.

(** ** Settling one request after a prefill *)

Abbreviation RM := (M (RuntimeState * Attrs)).

Definition with_state {B} : M RuntimeState B → RM B :=
  zoom fst (fun s p => (s, p.2)).
Definition with_attrs {B} : M Attrs B → RM B := zoom snd (fun t p => (p.1, t)).
Definition set_staging (f : Staging → Staging) : RM unit :=
  with_attrs (modify (fun t => t <| t_staging := f (t_staging t) |>)).

(** The first prefill of a request that never bound a row. *)
Definition settle_unbound (pool_index : option Z) (seq_len : result Z) : RM unit :=
  p ← get;
  match r_req_pool_index p.1 with
  | Some _ => mret tt
  | None =>
      i ← lift (match pool_index with Some i => Ok i | None => Raise (TypeError "int()") end);
      _ ← with_state (bind_req_pool_index (VNum (NInt i)));
      n ← lift seq_len;
      with_state (modify (fun s => s <| r_decoder_length := n |> <| r_next_mrope_position := n |>
                                     <| r_phase := DECODING |>))
  end.

Definition settle_events : RM unit :=
  p ← get;
  let g := t_staging p.2 in
  match g_events g with
  | None => mret tt
  | Some events =>
      let turns := match g_transition g with
                   | Some t => turn_transitions (tr_interrupted_turn_id t) (tr_prompt_seq_nos t) ∅
                   | None => ∅
                   end in
      _ ← (match g_transition g with
           | Some t => _ ← with_state (assign_to r_turn_id (tr_turn_id t));
                       set_staging (assign g_transition None)
           | None => mret tt
           end);
      processed ← lift (rmapM (annotate turns) events);
      _ ← with_attrs (assign_to t_processed_events (Some processed));
      set_staging (assign g_events None)
  end.

Definition settle_tensors : RM unit :=
  p ← get;
  let g := t_staging p.2 in
  _ ← (match g_mrope_positions g with
       | Some m => with_state (assign_to r_mrope_positions (Some m))
       | None => mret tt end);
  _ ← (match g_visible_frame_counts g with
       | Some v => with_state (assign_to r_visible_frame_counts (Some v))
       | None => mret tt end);
  _ ← (match g_full_grid_thw g with
       | Some v => with_state (assign_to r_full_grid_thw (Some v))
       | None => mret tt end);
  _ ← (match g_frame_records g with
       | Some rs => with_state (modify (fun s =>
                      s <| r_frame_records := Some (default [] (r_frame_records s) ++ rs) |>))
       | None => mret tt end);
  set_staging (fun g => g <| g_mrope_positions := None |> <| g_visible_frame_counts := None |>
                          <| g_full_grid_thw := None |> <| g_frame_records := None |>).

(** [(vision, decoder, pending)] of a request with accounting, by request id. *)
Abbreviation Before := (gmap string (Z * Z * Z)).

Definition pending_count (s : RuntimeState) : Z :=
  match r_pending_token_id s with Some _ => 1 | None => 0 end.

Definition commit_counters (vision text_input : Z) : M RuntimeState unit :=
  s ← get;
  match r_accounting s with
  | None => mret tt
  | Some a =>
      let '(r, a') := commit vision text_input a in
      _ ← assign_to r_accounting (Some a'); lift r
  end.

Definition settle_accounting (before : Before) : RM unit :=
  p ← get;
  match r_accounting p.1 with
  | None => mret tt
  | Some _ =>
      '(vision, decoder, pending) ← lift (match before !! t_rid p.2 with
                                          | Some b => Ok b
                                          | None => Raise (KeyError "accounting_before")
                                          end);
      with_state (commit_counters (effective_appended_encoder_length p.1 - vision)
                    (r_decoder_length p.1 - decoder - pending))
  end.

Definition settle_request (before : Before) (pool_index : option Z) (seq_len : result Z) : RM unit :=
  _ ← settle_unbound pool_index seq_len;
  _ ← with_state (assign_to r_pending_token_id None);
  _ ← settle_events;
  _ ← settle_tensors;
  _ ← with_attrs (assign_to t_has_previous false);
  settle_accounting before.

(** ** One decode step of one request *)

Definition terminal_phase (p : Phase) : bool :=
  match p with FINISHED | ABORTED => true | _ => false end.

Definition advance (s : RuntimeState) : result unit * RuntimeState :=
  (_ ← modify (fun s => s <| r_decoder_length := r_decoder_length s + 1 |>
                          <| r_next_mrope_position := r_next_mrope_position s + 1 |>
                          <| r_phase := DECODING |>);
   if match r_accounting s with Some a => negb (a_frozen a) | None => false end
   then commit_counters 0 0 else mret tt) s.

Definition decode_request : M RuntimeState unit := fun s =>
  if terminal_phase (r_phase s) then (Ok tt, s) else advance s.

(** A parked row is the overrun of a lookahead step: it must not advance. *)
Definition decode_resolved_request : M RuntimeState unit := fun s =>
  if terminal_phase (r_phase s) || bool_decide (r_phase s = WAITING_FOR_EVENT)
  then (Ok tt, s) else advance s.

(** [(batch index, request id)] of the rows that must not count as a step. *)
Definition finalize_skip_rids (reqs : list (string * RuntimeState)) : list string :=
  map fst (List.filter (fun p => bool_decide (r_phase p.2 = WAITING_FOR_EVENT)) reqs).

Section Runners.
Context {A : Type} `{Allocator A}.
Abbreviation NM := (M (Runner A)).

Definition on_batch {B} : M (Batch A) B → NM B := zoom n_batch (assign n_batch).

(** Run a statement on request [k] and its attributes. *)
Definition at_request (k : nat) (m : BReq → RM unit) : NM unit := fun n =>
  match bt_reqs (n_batch n) !! k, n_attrs n !! k with
  | Some q, Some t =>
      let '(r, (s, t')) := m q (q_state q, t) in
      (r, {| n_batch := n_batch n <| bt_reqs := <[k := q <| q_state := s |>]> (bt_reqs (n_batch n)) |>;
             n_attrs := <[k := t']> (n_attrs n) |})
  | _, _ => (Ok tt, n)
  end.

(** ** Forward failures *)

Context (super_execute : M (Batch A) unit).

Definition execute : M (Batch A) unit :=
  try_except super_execute
    (fun e => b ← get;
       _ ← (if bool_decide (bt_reqs b = []) then mret tt else rollback_moss_vl_realtime_batch);
       throw e).

(** ** [post_prefill] *)

Definition accounting_before (reqs : list BReq) (attrs : list Attrs) : Before :=
  foldl (fun m p => match r_accounting (q_state p.1) with
                    | Some _ => <[t_rid p.2 := (effective_appended_encoder_length (q_state p.1),
                                                r_decoder_length (q_state p.1),
                                                pending_count (q_state p.1))]> m
                    | None => m
                    end) ∅ (zip reqs attrs).

Definition seq_len_at (b : Batch A) (k : nat) : result Z :=
  match bt_meta b ≫= fun m => m_seq_lens m !! k with
  | Some n => Ok n
  | None => Raise (IndexError "index is out of bounds")
  end.

Definition post_prefill : NM unit :=
  n ← get;
  let before := accounting_before (bt_reqs (n_batch n)) (n_attrs n) in
  _ ← on_batch commit_moss_vl_realtime_batch;
  n ← get;
  mforeach (fun k => at_request k (fun q =>
      settle_request before (q_req_pool_idx q) (seq_len_at (n_batch n) k)))
    (seq 0 (length (bt_reqs (n_batch n)))).

(** ** [post_decode] *)

Definition post_decode : NM unit :=
  n ← get;
  _ ← mforeach (fun k => at_request k (fun _ => with_state decode_request))
        (seq 0 (length (bt_reqs (n_batch n))));
  on_batch commit_moss_vl_realtime_decode.

(** The base class's part points the result at the sampled ids of the launch; nothing here reads
    them. *)
Definition post_decode_resolve : NM unit :=
  n ← get;
  _ ← mforeach (fun k => at_request k (fun _ => with_state decode_resolved_request))
        (seq 0 (length (bt_reqs (n_batch n))));
  on_batch commit_moss_vl_realtime_decode.
End Runners.

(** ** What settling does to one request *)

(** The fields no commit or binding touches. *)
Definition kept (s s' : RuntimeState) : Prop :=
  r_accounting s' = r_accounting s ∧ r_turn_id s' = r_turn_id s ∧
  r_pending_token_id s' = r_pending_token_id s.

#[export] Instance kept_preorder : PreOrder kept.
Proof. split; [by intros s|]. intros s1 s2 s3 (? & ? & ?) (? & ? & ?). split_and!; congruence. Qed.

Lemma bind_kept v s r s' : bind_req_pool_index v s = (r, s') → kept s s'.
Proof.
  unfold bind_req_pool_index, get, modify, lift, mbind, M_bind.
  destruct (bind_index _ _); intros [= _ <-]; done.
Qed.

Lemma settle_unbound_Ok pool_index seq_len s t s' t' :
  settle_unbound pool_index seq_len (s, t) = (Ok tt, (s', t')) → kept s s' ∧ t' = t.
Proof.
  unfold settle_unbound, with_state, zoom, get, lift, mbind, M_bind. simpl.
  destruct (r_req_pool_index s); [by intros [= <- <-]|].
  destruct pool_index as [i|]; [|done]. cbn [fst snd].
  destruct (bind_req_pool_index (VNum (NInt i)) s) as [[[]|e] s1] eqn:E; [|done].
  apply bind_kept in E. destruct seq_len; [|done]. intros [= <- <-].
  split; [|done]. etrans; [exact E|]. done.
Qed.

(** Turn numbers and processed events after [settle_events]. *)
Definition turns_of (g : Staging) : gmap Z (Z * Z) :=
  match g_transition g with
  | Some t => turn_transitions (tr_interrupted_turn_id t) (tr_prompt_seq_nos t) ∅
  | None => ∅
  end.

Definition events_settled (g : Staging) (s s' : RuntimeState) (t t' : Attrs) : Prop :=
  match g_events g with
  | None => s' = s ∧ t' = t
  | Some events => ∃ processed, rmapM (annotate (turns_of g)) events = Ok processed ∧
      s' = s <| r_turn_id := match g_transition g with
                             | Some tr => tr_turn_id tr | None => r_turn_id s end |> ∧
      t' = t <| t_staging := g <| g_transition := None |> <| g_events := None |> |>
             <| t_processed_events := Some processed |>
  end.

Lemma settle_events_Ok s t s' t' :
  settle_events (s, t) = (Ok tt, (s', t')) → events_settled (t_staging t) s s' t t'.
Proof.
  unfold settle_events, events_settled. unfold get, mbind at 1, M_bind at 1. simpl.
  destruct (g_events (t_staging t)) as [events|] eqn:E; [|by intros [= <- <-]].
  fold (turns_of (t_staging t)). destruct t as [rid g pv pr]. destruct s. simpl in *.
  destruct g as [ge gt gm gv gg gf]. simpl in E. subst.
  unfold turns_of. simpl.
  destruct gt as [tr|]; unfold with_state, set_staging, with_attrs, zoom, modify, lift, mbind, M_bind, mret, M_ret;
    simpl; (destruct (rmapM _ _) as [processed|]; simpl; [|done]);
    intros [= <- <-]; exists processed; split_and!; reflexivity.
Qed.

(** Every staged tensor is installed in the state and removed. *)
Definition installed (g : Staging) (s : RuntimeState) : RuntimeState :=
  s <| r_mrope_positions := match g_mrope_positions g with
                            | Some m => Some m | None => r_mrope_positions s end |>
    <| r_visible_frame_counts := match g_visible_frame_counts g with
                                 | Some v => Some v | None => r_visible_frame_counts s end |>
    <| r_full_grid_thw := match g_full_grid_thw g with
                          | Some v => Some v | None => r_full_grid_thw s end |>
    <| r_frame_records := match g_frame_records g with
                          | Some rs => Some (default [] (r_frame_records s) ++ rs)
                          | None => r_frame_records s end |>.

Lemma settle_tensors_Ok s t r s' t' :
  settle_tensors (s, t) = (r, (s', t')) →
  s' = installed (t_staging t) s ∧
  t' = t <| t_staging := no_staging <| g_events := g_events (t_staging t) |>
                           <| g_transition := g_transition (t_staging t) |> |>.
Proof.
  destruct t as [rid [ge gt gm gv gg gf] pv pr], s. unfold settle_tensors.
  destruct gm, gv, gg, gf; intros [= _ <- <-]; split; reflexivity.
Qed.

Lemma commit_counters_Ok v d s s' :
  commit_counters v d s = (Ok tt, s') →
  match r_accounting s with
  | None => s' = s
  | Some a => ∃ a', commit v d a = (Ok tt, a') ∧ s' = s <| r_accounting := Some a' |>
  end.
Proof.
  unfold commit_counters, get, modify, lift, mbind, M_bind.
  destruct (r_accounting s) as [a|]; [|by intros [= <-]].
  destruct (commit v d a) as [[[]|e] a'] eqn:E; [|done]. intros [= <-]. by exists a'.
Qed.

(** A turn transition is only staged with the events it numbers. *)
Definition well_staged (g : Staging) : Prop :=
  match g_events g with None => g_transition g = None | Some _ => True end.

(** A request after a successful prefill, from the state [s] its commit left. *)
Record settled (before : Before) (s s' : RuntimeState) (t t' : Attrs) : Prop := {
  sd_pending : r_pending_token_id s' = None;
  sd_staging : t_staging t' = no_staging ∧ t_has_previous t' = false;
  sd_events : match g_events (t_staging t) with
              | Some events => ∃ processed, t_processed_events t' = Some processed ∧
                  rmapM (annotate (turns_of (t_staging t))) events = Ok processed
              | None => t_processed_events t' = t_processed_events t
              end;
  sd_turn : r_turn_id s' = match g_transition (t_staging t) with
                           | Some tr => tr_turn_id tr | None => r_turn_id s end;
  sd_visible : r_visible_frame_counts s' = match g_visible_frame_counts (t_staging t) with
    | Some v => Some v | None => r_visible_frame_counts s end;
  sd_accounting : match r_accounting s with
    | None => r_accounting s' = None
    | Some a => ∃ v d p a', before !! t_rid t = Some (v, d, p) ∧ r_accounting s' = Some a' ∧
        commit (effective_appended_encoder_length s' - v) (r_decoder_length s' - d - p) a
        = (Ok tt, a')
    end
}.

Lemma settle_unbound_visible pool_index seq_len s t s' t' :
  settle_unbound pool_index seq_len (s, t) = (Ok tt, (s', t')) →
  r_visible_frame_counts s' = r_visible_frame_counts s.
Proof.
  unfold settle_unbound, with_state, zoom, get, lift, mbind, M_bind. simpl.
  destruct (r_req_pool_index s); [by intros [= <- <-]|].
  destruct pool_index as [i|]; [|done]. cbn [fst snd].
  destruct (bind_req_pool_index (VNum (NInt i)) s) as [[[]|e] s1] eqn:E; [|done].
  destruct seq_len; [|done]. intros [= <- <-].
  destruct (bind_state _ _ _ _ E) as [-> | ->]; done.
Qed.

Lemma settle_accounting_Ok before s t s' t' :
  settle_accounting before (s, t) = (Ok tt, (s', t')) →
  t' = t ∧
  match r_accounting s with
  | None => s' = s
  | Some a => ∃ v d p a', before !! t_rid t = Some (v, d, p) ∧
      commit (effective_appended_encoder_length s - v) (r_decoder_length s - d - p) a = (Ok tt, a') ∧
      s' = s <| r_accounting := Some a' |>
  end.
Proof.
  unfold settle_accounting. unfold get, lift, mbind, M_bind. cbn [fst snd].
  destruct (r_accounting s) as [a|] eqn:Ea; [|by intros [= <- <-]].
  destruct (before !! t_rid t) as [[[v d] p]|]; [|done].
  unfold with_state, zoom. cbn [fst snd].
  destruct (commit_counters _ _ s) as [r s1] eqn:E. intros [= -> <- <-]. split; [done|].
  apply commit_counters_Ok in E. rewrite Ea in E. destruct E as (a' & E & ->).
  by exists v, d, p, a'.
Qed.

Lemma settle_request_Ok before pool_index seq_len s t s' t' :
  well_staged (t_staging t) →
  settle_request before pool_index seq_len (s, t) = (Ok tt, (s', t')) →
  settled before s s' t t'.
Proof.
  intros Hws H. unfold settle_request in H.
  apply Mbind_Ok in H as ([] & [s1 t1] & H1 & H).
  pose proof (settle_unbound_visible _ _ _ _ _ _ H1) as Hv.
  apply settle_unbound_Ok in H1 as [(Ka & Kt & _) ->].
  apply Mbind_Ok in H as ([] & [s2 t2] & [= <- <-] & H).
  apply Mbind_Ok in H as ([] & [s3 t3] & H3 & H). apply settle_events_Ok in H3.
  apply Mbind_Ok in H as ([] & [s4 t4] & H4 & H). apply settle_tensors_Ok in H4 as [-> ->].
  apply Mbind_Ok in H as ([] & [s5 t5] & [= <- <-] & H).
  apply settle_accounting_Ok in H as [-> Hacc].
  assert (r_pending_token_id s3 = None ∧ r_accounting s3 = r_accounting s ∧
    r_visible_frame_counts s3 = r_visible_frame_counts s ∧ t_rid t3 = t_rid t ∧
    r_turn_id s3 = match g_transition (t_staging t) with
                   | Some tr => tr_turn_id tr | None => r_turn_id s end ∧
    g_visible_frame_counts (t_staging t3) = g_visible_frame_counts (t_staging t) ∧
    g_events (t_staging t3) = None ∧ g_transition (t_staging t3) = None)
    as (E1 & E2 & E3 & E4 & E5 & E6 & E7 & E8).
  { unfold events_settled in H3. unfold well_staged in Hws.
    destruct (g_events (t_staging t)) as [events|] eqn:Eg.
    - destruct H3 as (pr & _ & -> & ->). fields. split_and!; try done.
      by destruct (g_transition (t_staging t)).
    - destruct H3 as [-> ->]. fields. rewrite Hws. split_and!; done. }
  assert (r_pending_token_id s' = r_pending_token_id s3 ∧ r_turn_id s' = r_turn_id s3 ∧
    r_visible_frame_counts s' = r_visible_frame_counts (installed (t_staging t3) s3))
    as (F1 & F2 & F3).
  { destruct (r_accounting (installed (t_staging t3) s3)).
    - destruct Hacc as (? & ? & ? & ? & _ & _ & ->). done.
    - subst s'. done. }
  split.
  - congruence.
  - fields. rewrite E7, E8. done.
  - fields. unfold events_settled in H3. destruct (g_events (t_staging t)) as [events|].
    + destruct H3 as (pr & Hpr & _ & ->). by exists pr.
    + destruct H3 as [_ ->]. done.
  - congruence.
  - rewrite F3, <- E6, <- E3. done.
  - change (r_accounting (installed (t_staging t3) s3)) with (r_accounting s3) in Hacc.
    rewrite E2 in Hacc. destruct (r_accounting s) as [a|]; [|subst s'; exact E2].
    destruct Hacc as (v & d & p & a' & Hb & Hc & ->). exists v, d, p, a'.
    split; [rewrite <- E4; exact Hb|]. by split.
Qed.

Section Commits.
Context {A : Type} `{HA : Allocator A}.

Definition kept_req (q q' : BReq) : Prop :=
  kept (q_state q) (q_state q') ∧ (q_transaction q = None → q_transaction q' = None).

#[local] Instance kept_req_preorder : PreOrder kept_req.
Proof.
  split; [by intros q|]. intros q1 q2 q3 [H1 T1] [H2 T2]. split; [by etrans|tauto].
Qed.

Lemma kept_insert k q q' (l : list BReq) :
  l !! k = Some q → kept_req q q' → Forall2 kept_req l (<[k := q']> l).
Proof.
  intros Hk Hq. rewrite <- (list_insert_id l k q Hk) at 1. apply Forall2_insert; [|done].
  by apply Forall_Forall2_diag, Forall_true.
Qed.

Lemma zero_range_reqs i lo hi (b : Batch A) r b' :
  zero_range i lo hi b = (r, b') → bt_reqs b' = bt_reqs b ∧ bt_meta b' = bt_meta b.
Proof.
  unfold zero_range. mrun. destruct (_ || _); by intros [= _ <-].
Qed.

Lemma reconcile_kept k (b : Batch A) r b' :
  reconcile k b = (r, b') → Forall2 kept_req (bt_reqs b) (bt_reqs b') ∧ bt_meta b' = bt_meta b.
Proof.
  intros H. unfold reconcile, upd_req in H. unfold get, modify, mbind, M_bind, mret, M_ret in H.
  destruct (bt_reqs b !! k) as [q|] eqn:Hk; [|by injection H as _ <-].
  cbv zeta in H. rewrite (alter_as_insert _ _ _ _ Hk) in H.
  match type of H with context [<[k := ?q1]> _] =>
    assert (Forall2 kept_req (bt_reqs b) (<[k := q1]> (bt_reqs b))) as Hr by by eapply kept_insert end.
  destruct (r_req_pool_index (q_state q)); [|by injection H as _ <-].
  destruct (_ <? _); [|by injection H as _ <-].
  apply zero_range_reqs in H as [-> ->]. by fields.
Qed.

Lemma commit_req_kept k (b b' : Batch A) :
  commit_req k b = (Ok tt, b') →
  Forall2 kept_req (bt_reqs b) (bt_reqs b') ∧ bt_meta b' = bt_meta b ∧
  (∀ q, bt_reqs b' !! k = Some q → q_transaction q = None).
Proof.
  intros H. unfold commit_req in H. unfold get, mbind at 1, M_bind at 1 in H.
  destruct (bt_reqs b !! k) as [q|] eqn:Hk.
  2: { injection H as <-. split; [by apply Forall_Forall2_diag, Forall_true|]. split; [done|].
       by rewrite Hk. }
  destruct (q_transaction q) as [t|] eqn:Ht.
  2: { injection H as <-. split; [by apply Forall_Forall2_diag, Forall_true|]. split; [done|].
       rewrite Hk. by intros q' [= <-]. }
  apply Mbind_Ok in H as ([] & b1 & H1 & H). unfold on_transaction in H1.
  destruct (commit_append _) as [r1 [t1 w1]] eqn:Ec. injection H1 as -> <-.
  apply commit_Ok in Ec as (_ & _ & _ & ->).
  unfold drop_transaction, upd_req in H. unfold modify, mbind, M_bind in H. fields.
  rewrite alter_insert_same in H.
  match type of H with reconcile k (?b1 <| bt_reqs := <[k := ?q1]> _ |>) = _ =>
    assert (Forall2 kept_req (bt_reqs b) (<[k := q1]> (bt_reqs b))) as Hr;
      [eapply kept_insert; [exact Hk|by split]|];
    assert (q_transaction q1 = None) as Hq1 by done end.
  apply reconcile_kept in H as [Hr2 Hm]. fields. split; [by etrans|]. split; [exact Hm|].
  intros q2 Hq2. destruct (Forall2_lookup_r _ _ _ _ _ Hr2 Hq2) as (q3 & Hq3 & _ & Hn).
  rewrite list_lookup_insert_eq in Hq3 by (eapply lookup_lt_Some; exact Hk).
  injection Hq3 as <-. by apply Hn.
Qed.

Lemma commit_reqs_kept ks (b b' : Batch A) :
  mforeach commit_req ks b = (Ok tt, b') →
  Forall2 kept_req (bt_reqs b) (bt_reqs b') ∧ bt_meta b' = bt_meta b ∧
  (∀ k q, k ∈ ks → bt_reqs b' !! k = Some q → q_transaction q = None).
Proof.
  revert b. induction ks as [|k ks IH]; intros b H.
  { injection H as <-. split; [by apply Forall_Forall2_diag, Forall_true|]. set_solver. }
  cbn [mforeach] in H. apply Mbind_Ok in H as ([] & b1 & H1 & H).
  apply commit_req_kept in H1 as (K1 & M1 & T1). apply IH in H as (K2 & M2 & T2).
  split; [by etrans|]. split; [congruence|].
  intros j q [->|Hj]%elem_of_cons Hq; [|by eapply T2].
  destruct (Forall2_lookup_r _ _ _ _ _ K2 Hq) as (q1 & Hq1 & _ & Hn). by eapply Hn, T1.
Qed.

(** Committing a batch leaves no open transaction and no counter changed. *)
Lemma commit_batch_kept (b b' : Batch A) :
  commit_moss_vl_realtime_batch b = (Ok tt, b') →
  Forall2 kept_req (bt_reqs b) (bt_reqs b') ∧
  Forall (fun q => q_transaction q = None) (bt_reqs b').
Proof.
  intros H. unfold commit_moss_vl_realtime_batch in H. unfold get, mbind at 1, M_bind at 1 in H.
  apply Mbind_Ok in H as ([] & b1 & H1 & H). injection H as <-. fields.
  apply commit_reqs_kept in H1 as (K & _ & T). split; [done|].
  apply Forall_lookup. intros k q Hk. eapply T; [|exact Hk]. rewrite elem_of_seq.
  apply Forall2_length in K. apply lookup_lt_Some in Hk. lia.
Qed.
End Commits.

(** ** Settling a whole batch *)

Section Prefill.
Context {A : Type} `{HA : Allocator A}.

Lemma at_request_Ok k m (n n' : Runner A) :
  at_request k m n = (Ok tt, n') →
  (∀ q t, bt_reqs (n_batch n) !! k = Some q → n_attrs n !! k = Some t →
     ∃ s' t', m q (q_state q, t) = (Ok tt, (s', t')) ∧
       bt_reqs (n_batch n') !! k = Some (q <| q_state := s' |>) ∧ n_attrs n' !! k = Some t') ∧
  (∀ j, j ≠ k → bt_reqs (n_batch n') !! j = bt_reqs (n_batch n) !! j ∧
     n_attrs n' !! j = n_attrs n !! j).
Proof.
  intros H. unfold at_request in H.
  destruct (bt_reqs (n_batch n) !! k) as [q|] eqn:Hq; [|injection H as <-; by split].
  destruct (n_attrs n !! k) as [t|] eqn:Ht; [|injection H as <-; by split].
  destruct (m q (q_state q, t)) as [r [s t']] eqn:E. injection H as -> <-. simpl. split.
  - intros q0 t0 [= <-] [= <-]. exists s, t'. split; [done|]. fields.
    rewrite !list_lookup_insert_eq; [done|eapply lookup_lt_Some; exact Ht|eapply lookup_lt_Some; exact Hq].
  - intros j Hj. fields. by rewrite !list_lookup_insert_ne.
Qed.

Lemma at_requests_Ok ks (m : nat → BReq → RM unit) (n n' : Runner A) :
  NoDup ks → mforeach (fun k => at_request k (m k)) ks n = (Ok tt, n') →
  (∀ k q t, k ∈ ks → bt_reqs (n_batch n) !! k = Some q → n_attrs n !! k = Some t →
     ∃ s' t', m k q (q_state q, t) = (Ok tt, (s', t')) ∧
       bt_reqs (n_batch n') !! k = Some (q <| q_state := s' |>) ∧ n_attrs n' !! k = Some t') ∧
  (∀ j, j ∉ ks → bt_reqs (n_batch n') !! j = bt_reqs (n_batch n) !! j ∧
     n_attrs n' !! j = n_attrs n !! j).
Proof.
  revert n. induction ks as [|k ks IH]; intros n Hnd H.
  { injection H as <-. split; [set_solver|done]. }
  apply NoDup_cons in Hnd as [Hk Hnd]. cbn [mforeach] in H.
  apply Mbind_Ok in H as ([] & n1 & H1 & H). apply at_request_Ok in H1 as [G1 O1].
  apply IH in H as [G2 O2]; [|done]. split.
  - intros j q t [->|Hj]%elem_of_cons Hq Ht.
    + destruct (G1 q t Hq Ht) as (s' & t' & E & Eq & Et). exists s', t'.
      destruct (O2 k Hk) as [-> ->]. done.
    + assert (j ≠ k) as Hne by (intros ->; done). destruct (O1 j Hne) as [E1 E2].
      apply G2; [done|by rewrite E1|by rewrite E2].
  - intros j Hj. destruct (O1 j) as [E1 E2]; [set_solver|]. rewrite <- E1, <- E2. apply O2. set_solver.
Qed.

Lemma accounting_before_lookup (reqs : list BReq) (attrs : list Attrs) k q t :
  NoDup (map t_rid attrs) → reqs !! k = Some q → attrs !! k = Some t →
  r_accounting (q_state q) ≠ None →
  accounting_before reqs attrs !! t_rid t =
  Some (effective_appended_encoder_length (q_state q), r_decoder_length (q_state q),
        pending_count (q_state q)).
Proof.
  intros Hnd Hq Ht Ha. unfold accounting_before. generalize (∅ : Before).
  revert k attrs Hnd Hq Ht. induction reqs as [|q0 reqs IH]; intros k attrs Hnd Hq Ht m; [done|].
  destruct attrs as [|t0 attrs]; [done|]. apply NoDup_cons in Hnd as [Hn0 Hnd].
  simpl. destruct k as [|k]; simpl in Hq, Ht.
  - injection Hq as ->. injection Ht as ->. destruct (r_accounting (q_state q)); [|done].
    clear IH Ha. assert (∀ m' : Before, foldl (fun m p => match r_accounting (q_state p.1) with
      | Some _ => <[t_rid p.2 := (effective_appended_encoder_length (q_state p.1),
           r_decoder_length (q_state p.1), pending_count (q_state p.1))]> m
      | None => m end) m' (zip reqs attrs) !! t_rid t = m' !! t_rid t) as Hrest.
    { clear m. revert attrs Hn0 Hnd. induction reqs as [|q1 reqs IH]; intros [|t1 attrs] Hn0 Hnd m';
        [done..|]. simpl. apply not_elem_of_cons in Hn0 as [Hne Hn0].
      apply NoDup_cons in Hnd as [_ Hnd]. rewrite IH by done.
      destruct (r_accounting (q_state q1)); [|done]. by rewrite lookup_insert_ne. }
    rewrite Hrest. by rewrite lookup_insert_eq.
  - by eapply IH.
Qed.

(** The counters after a prefill that changed the state from [s] to [s']. *)
Definition counted (s s' : RuntimeState) : Prop :=
  match r_accounting s with
  | None => r_accounting s' = None
  | Some a => ∃ a', r_accounting s' = Some a' ∧ a_step a' = a_step a + 1 ∧
      a_vision a' = a_vision a + (effective_appended_encoder_length s'
                                  - effective_appended_encoder_length s) ∧
      a_text_input a' = a_text_input a + (r_decoder_length s' - r_decoder_length s
                                          - pending_count s) ∧
      a_text_output a' = a_text_output a
  end.

(** A request and its attributes once a prefill is settled. *)
Definition prefilled (q q' : BReq) (t t' : Attrs) : Prop :=
  q_transaction q' = None ∧ r_pending_token_id (q_state q') = None ∧
  t_staging t' = no_staging ∧ t_has_previous t' = false ∧
  match g_events (t_staging t) with
  | Some events => ∃ processed, t_processed_events t' = Some processed ∧
      rmapM (annotate (turns_of (t_staging t))) events = Ok processed
  | None => t_processed_events t' = t_processed_events t
  end ∧
  r_turn_id (q_state q') = match g_transition (t_staging t) with
                           | Some tr => tr_turn_id tr | None => r_turn_id (q_state q) end ∧
  counted (q_state q) (q_state q').

Lemma commit_Ok_counts v d a a' :
  commit v d a = (Ok tt, a') →
  a_step a' = a_step a + 1 ∧ a_vision a' = a_vision a + v ∧
  a_text_input a' = a_text_input a + d ∧ a_text_output a' = a_text_output a.
Proof. intros H. unfold commit in H. inv_ok. done. Qed.

Lemma prefill_settles (n n' : Runner A) :
  NoDup (map t_rid (n_attrs n)) → Forall (fun t => well_staged (t_staging t)) (n_attrs n) →
  post_prefill n = (Ok tt, n') →
  ∀ k q t, bt_reqs (n_batch n) !! k = Some q → n_attrs n !! k = Some t →
  ∃ q' t', bt_reqs (n_batch n') !! k = Some q' ∧ n_attrs n' !! k = Some t' ∧ prefilled q q' t t'.
Proof.
  intros Hnd Hws H k q t Hq Ht. unfold post_prefill in H. unfold get, mbind at 1, M_bind at 1 in H.
  apply Mbind_Ok in H as ([] & n1 & H1 & H). unfold on_batch, zoom in H1.
  destruct (commit_moss_vl_realtime_batch (n_batch n)) as [r b1] eqn:Ec. injection H1 as -> <-.
  apply commit_batch_kept in Ec as [Hk Htx].
  unfold mbind at 1, M_bind at 1 in H. fields.
  apply (at_requests_Ok _ (fun k q => settle_request _ (q_req_pool_idx q) (seq_len_at b1 k))) in H
    as [G _]; [|apply NoDup_seq].
  destruct (Forall2_lookup_l _ _ _ _ _ Hk Hq) as (q1 & Hq1 & (Ka & Kt & Kp) & _).
  destruct (G k q1 t) as (s' & t' & Es & Eq & Et); [|exact Hq1|exact Ht|].
  { rewrite elem_of_seq. apply lookup_lt_Some in Hq1. lia. }
  exists (q1 <| q_state := s' |>), t'. split; [done|]. split; [done|].
  apply settle_request_Ok in Es; [|by apply (Forall_lookup_1 _ _ _ _ Hws Ht)].
  destruct Es as [S1 [S2 S3] S4 S5 _ S6]. unfold prefilled. fields.
  split; [by apply (Forall_lookup_1 _ _ _ _ Htx Hq1)|]. split_and!; try done.
  - by rewrite S5, Kt.
  - unfold counted. rewrite Ka in S6. destruct (r_accounting (q_state q)) as [a|] eqn:Ea; [|done].
    destruct S6 as (v & d & p & a' & Hb & Ha' & Hc). exists a'. split; [done|].
    rewrite (accounting_before_lookup _ _ k q t Hnd Hq Ht) in Hb by congruence.
    injection Hb as <- <- <-. apply commit_Ok_counts in Hc as (C1 & C2 & C3 & C4).
    split_and!; [done|lia|lia|done].
Qed.
End Prefill.

(** ** Turn numbers *)

Definition is_prompt (e : FramePromptEvent) : bool :=
  match ev_prompt e with Some _ => true | None => false end.

Definition prompts_in (events : list FramePromptEvent) : list Z :=
  map ev_seq_no (List.filter is_prompt events).

Lemma turn_transitions_other seqs c m n :
  n ∉ seqs → turn_transitions c seqs m !! n = m !! n.
Proof.
  revert c m. induction seqs as [|x seqs IH]; intros c m Hn; [done|].
  apply not_elem_of_cons in Hn as [Hx Hn]. simpl. rewrite IH by done. by rewrite lookup_insert_ne.
Qed.

Lemma turn_transitions_at seqs c m j n :
  NoDup seqs → seqs !! j = Some n →
  turn_transitions c seqs m !! n = Some (c + Z.of_nat j, c + Z.of_nat j + 1).
Proof.
  revert c m j. induction seqs as [|x seqs IH]; intros c m j Hnd Hj; [done|].
  apply NoDup_cons in Hnd as [Hx Hnd]. destruct j as [|j]; simpl in Hj |- *.
  - injection Hj as ->. rewrite turn_transitions_other by done. rewrite lookup_insert_eq.
    f_equal. f_equal; lia.
  - rewrite (IH (c + 1) _ j Hnd Hj). f_equal. f_equal; lia.
Qed.

Lemma event_seq_no_to_dict e d : to_dict e = Ok d → event_seq_no d = Ok (ev_seq_no e).
Proof.
  unfold to_dict. intros H. apply bind_Ok in H as (f & _ & H). injection H as <-.
  unfold event_seq_no. rewrite !lookup_insert_opt. simpl.
  rewrite !lookup_insert_ne by done. by rewrite lookup_insert_eq.
Qed.

(** The event as the stream reports it. *)
Definition reported (turn : Z) (before : list FramePromptEvent) (e : FramePromptEvent)
    (d : EventDict) : EventDict :=
  if is_prompt e then
    let j := zlength (prompts_in before) in
    <["turn_id" := VNum (NInt (turn + j + 1))]>
      (<["interrupted_turn_id" := VNum (NInt (turn + j))]> d)
  else d.

Lemma prompts_in_sublist events : prompts_in events `sublist_of` map ev_seq_no events.
Proof.
  unfold prompts_in. induction events as [|e events IH]; simpl; [done|].
  destruct (is_prompt e); simpl; by constructor.
Qed.

Lemma turns_of_transition turn events g :
  g_transition g = transition_of turn events →
  turns_of g = turn_transitions turn (prompts_in events) ∅.
Proof.
  intros H. unfold turns_of. rewrite H. unfold transition_of. fold is_prompt.
  change (map ev_seq_no (List.filter _ events)) with (prompts_in events).
  case_bool_decide as E; [by rewrite E|done].
Qed.

Lemma prompts_in_app l k : prompts_in (l ++ k) = prompts_in l ++ prompts_in k.
Proof. unfold prompts_in. by rewrite List.filter_app, map_app. Qed.

Lemma prompts_in_cons e l :
  prompts_in (e :: l) = if is_prompt e then ev_seq_no e :: prompts_in l else prompts_in l.
Proof. unfold prompts_in. simpl. by destruct (is_prompt e). Qed.

Lemma NoDup_prompts events : NoDup (map ev_seq_no events) → NoDup (prompts_in events).
Proof. intros H. eapply sublist_NoDup; [exact H|apply prompts_in_sublist]. Qed.

Lemma annotate_event turn before e after d :
  NoDup (map ev_seq_no (before ++ e :: after)) → to_dict e = Ok d →
  annotate (turn_transitions turn (prompts_in (before ++ e :: after)) ∅) d
  = Ok (reported turn before e d).
Proof.
  intros Hnd Hd. unfold annotate, reported. rewrite (event_seq_no_to_dict e d Hd). simpl. f_equal.
  destruct (is_prompt e) eqn:Hp.
  - rewrite (turn_transitions_at _ _ _ (length (prompts_in before))).
    + unfold zlength. done.
    + by apply NoDup_prompts.
    + rewrite prompts_in_app, prompts_in_cons, Hp. by apply list_lookup_middle.
  - rewrite turn_transitions_other; [by rewrite lookup_empty|].
    rewrite map_app in Hnd. simpl in Hnd.
    assert (∀ l, ev_seq_no e ∉ map ev_seq_no l → ev_seq_no e ∉ prompts_in l) as Hin.
    { intros l Hl He. apply Hl. eapply elem_of_sublist; [exact He|apply prompts_in_sublist]. }
    apply NoDup_app in Hnd as (_ & Hd1 & Hnd). apply NoDup_cons in Hnd as [Hd2 _].
    rewrite prompts_in_app, prompts_in_cons, Hp.
    rewrite not_elem_of_app. split; apply Hin; [|done].
    intros He. apply (Hd1 _ He). by left.
Qed.

Lemma annotate_all turn before events dicts :
  NoDup (map ev_seq_no (before ++ events)) → rmapM to_dict events = Ok dicts →
  ∃ processed, rmapM (annotate (turn_transitions turn (prompts_in (before ++ events)) ∅)) dicts
    = Ok processed ∧ length processed = length events ∧
    ∀ i e d, events !! i = Some e → dicts !! i = Some d →
      processed !! i = Some (reported turn (before ++ take i events) e d).
Proof.
  revert before dicts. induction events as [|e events IH]; intros before dicts Hnd H; simpl in H.
  { injection H as <-. by exists []. }
  destruct (to_dict e) as [d|] eqn:Hd; [|done]. simpl in H.
  destruct (rmapM to_dict events) as [ds|] eqn:Hds; [|done]. injection H as <-.
  destruct (IH (before ++ [e]) ds) as (ps & Hps & Hl & Hlook); [by rewrite <- app_assoc|done|].
  rewrite <- app_assoc in Hps. simpl in Hps. simpl rmapM.
  rewrite (annotate_event turn before e events d Hnd Hd). simpl. rewrite Hps.
  eexists. split; [done|]. split; [simpl; by rewrite Hl|].
  intros [|i] e' d' He Hd'; simpl in *.
  - injection He as ->. injection Hd' as ->. by rewrite app_nil_r.
  - rewrite (Hlook i e' d' He Hd'). by rewrite <- app_assoc.
Qed.

(** ** Decode steps *)

(** A live row takes one token. *)
Definition advanced (s s' : RuntimeState) : Prop :=
  r_decoder_length s' = r_decoder_length s + 1 ∧
  r_next_mrope_position s' = r_next_mrope_position s + 1 ∧ r_phase s' = DECODING ∧
  r_encoder_length s' = r_encoder_length s ∧
  match r_accounting s with
  | None => r_accounting s' = None
  | Some a => if a_frozen a then r_accounting s' = Some a
              else ∃ a', commit 0 0 a = (Ok tt, a') ∧ r_accounting s' = Some a'
  end.

Lemma commit_zero a : a_frozen a = false → ∃ a', commit 0 0 a = (Ok tt, a').
Proof. intros Hf. unfold commit. mrun. rewrite Hf. by eexists. Qed.

Lemma advance_total s : ∃ s', advance s = (Ok tt, s') ∧ advanced s s'.
Proof.
  unfold advance, advanced. unfold modify, mbind, M_bind. fields.
  destruct (r_accounting s) as [a|] eqn:Ea; [|by eexists; split; [done|fields]].
  destruct (a_frozen a) eqn:Hf; simpl; [by eexists; split; [done|fields]|].
  destruct (commit_zero a Hf) as [a' Hc].
  unfold commit_counters, get, modify, lift, mbind, M_bind. fields. rewrite Ea, Hc.
  eexists. split; [done|]. fields. split_and!; try done. by exists a'.
Qed.

(** What a decode step with or without the parked-row check does. *)
Definition resolved (s s' : RuntimeState) : Prop :=
  if terminal_phase (r_phase s) || bool_decide (r_phase s = WAITING_FOR_EVENT)
  then s' = s else advanced s s'.

Lemma decode_resolved_total s : ∃ s', decode_resolved_request s = (Ok tt, s') ∧ resolved s s'.
Proof.
  unfold decode_resolved_request, resolved. destruct (_ || _); [by exists s|apply advance_total].
Qed.

Section Decode.
Context {A : Type} `{HA : Allocator A}.

Lemma at_requests_total ks (m : nat → BReq → RM unit) (n : Runner A) :
  (∀ k q p, ∃ p', m k q p = (Ok tt, p')) →
  ∃ n', mforeach (fun k => at_request k (m k)) ks n = (Ok tt, n').
Proof.
  intros Hm. revert n. induction ks as [|k ks IH]; intros n; [by exists n|].
  cbn [mforeach]. unfold mbind, M_bind.
  assert (∃ n1, at_request k (m k) n = (Ok tt, n1)) as [n1 ->]; [|apply IH].
  unfold at_request. destruct (bt_reqs (n_batch n) !! k) as [q|]; [|by exists n].
  destruct (n_attrs n !! k) as [t|]; [|by exists n].
  destruct (Hm k q (q_state q, t)) as [[s' t'] ->]. by eexists.
Qed.

Lemma resolve_step (n : Runner A) :
  ∃ n', post_decode_resolve n = (Ok tt, n') ∧
    bt_table (n_batch n') = bt_table (n_batch n) ∧
    ∀ k q t, bt_reqs (n_batch n) !! k = Some q → n_attrs n !! k = Some t →
      ∃ s', bt_reqs (n_batch n') !! k = Some (q <| q_state := s' |>) ∧
        n_attrs n' !! k = Some t ∧ resolved (q_state q) s'.
Proof.
  set (m := fun (_ : nat) (_ : BReq) => with_state decode_resolved_request).
  assert (∀ k q p, ∃ p', m k q p = (Ok tt, p')) as Hm.
  { intros k q [s t]. unfold m, with_state, zoom. simpl.
    destruct (decode_resolved_total s) as (s' & -> & _). by eexists. }
  destruct (at_requests_total (seq 0 (length (bt_reqs (n_batch n)))) m n Hm) as [n1 E1].
  assert (bt_table (n_batch n1) = bt_table (n_batch n)) as Ht.
  { revert E1. generalize (seq 0 (length (bt_reqs (n_batch n)))). intros ks.
    generalize n. induction ks as [|k ks IH]; intros n0 H; [by injection H as <-|].
    cbn [mforeach] in H. apply Mbind_Ok in H as ([] & n2 & H2 & H). rewrite (IH _ H).
    unfold at_request in H2. destruct (bt_reqs (n_batch n0) !! k); [|by injection H2 as <-].
    destruct (n_attrs n0 !! k); [|by injection H2 as <-].
    destruct (m _ _ _) as [r [s t]]. injection H2 as _ <-. done. }
  unfold post_decode_resolve. unfold get, mbind, M_bind.
  change (fun k => at_request k (fun _ => with_state decode_resolved_request))
    with (fun k => at_request (A := A) k (m k)). rewrite E1.
  eexists. split; [done|]. split; [exact Ht|]. fields.
  apply at_requests_Ok in E1 as [G _]; [|apply NoDup_seq]. intros k q t Hq Hat.
  destruct (G k q t) as (s' & t' & Es & Eq & Et); [|done|done|].
  { rewrite elem_of_seq. apply lookup_lt_Some in Hq. lia. }
  unfold m, with_state, zoom in Es. simpl in Es.
  destruct (decode_resolved_total (q_state q)) as (s1 & E & R). rewrite E in Es.
  injection Es as <- <-. by exists s1.
Qed.
End Decode.

(** ** Properties *)

(** C26: After a successful prefill hook every request of the batch is settled: no transaction
    or pending token is left, all staged attributes are consumed, its staged events are reported
    with their turn numbers, and its counters grew by exactly the vision and text tokens the
    commit added to the committed lengths, the re-fed pending token not counted twice. *)
Theorem post_prefill_settles {A} `{HA : Allocator A} (n n' : Runner A) :
  NoDup (map t_rid (n_attrs n)) → Forall (fun t => well_staged (t_staging t)) (n_attrs n) →
  post_prefill n = (Ok tt, n') →
  ∀ k q t, bt_reqs (n_batch n) !! k = Some q → n_attrs n !! k = Some t →
  ∃ q' t', bt_reqs (n_batch n') !! k = Some q' ∧ n_attrs n' !! k = Some t' ∧ prefilled q q' t t'.
Proof. apply prefill_settles. Qed.

(** The turn numbers staged by an append and reported after its prefill agree: the j-th
    prompt of a drain closes turn [turn + j] and opens the next one, events without a prompt are
    reported unchanged, and the request ends on the last opened turn. *)
Theorem prompts_open_consecutive_turns turn events dicts g :
  NoDup (map ev_seq_no events) → rmapM to_dict events = Ok dicts →
  g_transition g = transition_of turn events →
  ∃ processed, rmapM (annotate (turns_of g)) dicts = Ok processed ∧
    length processed = length events ∧
    (∀ i e d, events !! i = Some e → dicts !! i = Some d →
       processed !! i = Some (reported turn (take i events) e d)) ∧
    match g_transition g with
    | Some tr => tr_turn_id tr = turn + zlength (prompts_in events)
    | None => prompts_in events = []
    end.
Proof.
  intros Hnd Hd Hg. rewrite (turns_of_transition turn events g Hg).
  destruct (annotate_all turn [] events dicts Hnd Hd) as (ps & Hp & Hl & Hk).
  exists ps. split_and!; [done|done|done|]. rewrite Hg. unfold transition_of. fold is_prompt.
  change (map ev_seq_no (List.filter _ events)) with (prompts_in events).
  by case_bool_decide.
Qed.

(** C21: Resolving a decode step never raises, leaves the page table alone, advances every live
    row by exactly one position (its counters by one step unless frozen), and leaves parked,
    finished and aborted rows untouched, so an overrun step of a parked request is not counted.
    *)
Theorem decode_resolve_advances_live_rows {A} `{HA : Allocator A} (n : Runner A) :
  ∃ n', post_decode_resolve n = (Ok tt, n') ∧
    bt_table (n_batch n') = bt_table (n_batch n) ∧
    ∀ k q t, bt_reqs (n_batch n) !! k = Some q → n_attrs n !! k = Some t →
      ∃ s', bt_reqs (n_batch n') !! k = Some (q <| q_state := s' |>) ∧
        n_attrs n' !! k = Some t ∧ resolved (q_state q) s'.
Proof. apply resolve_step. Qed.

(** ** Witnesses *)

Definition demo_prompt (n : Z) : FramePromptEvent :=
  {| ev_request_id := "r"; ev_session_id := "s"; ev_seq_no := n; ev_timestamp := NInt n;
     ev_frame_ref := None; ev_prompt := Some "hi"; ev_final := false; ev_fingerprint := None |}.

Definition demo_dicts : list EventDict :=
  match rmapM to_dict [demo_prompt 4; demo_prompt 5] with Ok l => l | Raise _ => [] end.

Definition demo_staging : Staging :=
  no_staging <| g_events := Some demo_dicts |>
    <| g_transition := transition_of 7 [demo_prompt 4; demo_prompt 5] |>
    <| g_visible_frame_counts := Some [0; 1] |>.

Definition demo_attrs (rid : string) : Attrs :=
  {| t_rid := rid; t_staging := demo_staging; t_has_previous := true;
     t_processed_events := None |}.

(** Two requests whose appends are staged; both keep counters. *)
Definition demo_runner : Runner (gset Z) :=
  let counting := fun b : Batch (gset Z) => b <| bt_reqs := map (fun q =>
    q <| q_state := q_state q <| r_turn_id := 7 |>
           <| r_accounting := Some (new_accounting "s") |> |>) (bt_reqs b) |> in
  {| n_batch := (prepare_moss_vl_realtime_encoder_info_extend [[1; 2]; [3; 4]] [2; 2]
                   (counting (demo_batch [VNum (NInt 1)]))).2;
     n_attrs := [demo_attrs "a"; demo_attrs "b"] |}.

Lemma demo_rids : NoDup (map t_rid (n_attrs demo_runner)).
Proof. apply (bool_decide_unpack _). vm_compute. exact I. Defined.

Lemma demo_well_staged : Forall (fun t => well_staged (t_staging t)) (n_attrs demo_runner).
Proof. apply Forall_cons_2; [exact I|]. apply Forall_cons_2; [exact I|]. apply Forall_nil_2. Defined.

Lemma post_prefill_settles_witness :
  ∃ n' q', post_prefill demo_runner = (Ok tt, n') ∧ bt_reqs (n_batch n') !! 1%nat = Some q' ∧
    r_turn_id (q_state q') = 9 ∧
    (r_accounting (q_state q') ≫= fun a => Some (a_vision a, a_text_input a)) = Some (1, 1).
Proof.
  destruct (post_prefill demo_runner) as [[[]|e] n'] eqn:E; [|vm_compute in E; discriminate E].
  destruct (bt_reqs (n_batch demo_runner) !! 1%nat) as [q|] eqn:Hq;
    [|vm_compute in Hq; discriminate Hq].
  destruct (post_prefill_settles demo_runner n' demo_rids demo_well_staged E 1%nat q
    (demo_attrs "b") Hq eq_refl) as (q' & t' & Hq' & _ & _ & _ & _ & _ & _ & Ht & _).
  exists n', q'. split; [reflexivity|]. split; [exact Hq'|]. split; [exact Ht|]. clear Ht Hq q.
  vm_compute in E. injection E as <-. vm_compute in Hq'. injection Hq' as <-. reflexivity.
Defined.

Lemma demo_seq_nos : NoDup (map ev_seq_no [demo_prompt 4; demo_prompt 5]).
Proof. apply (bool_decide_unpack _). vm_compute. exact I. Defined.

Lemma demo_dict_at : ∃ d, demo_dicts !! 1%nat = Some d.
Proof. eexists. vm_compute. reflexivity. Qed.

Lemma prompts_open_consecutive_turns_witness :
  ∃ ps p1, rmapM (annotate (turns_of demo_staging)) demo_dicts = Ok ps ∧ ps !! 1%nat = Some p1 ∧
    p1 !! "interrupted_turn_id" = Some (VNum (NInt 8)) ∧ p1 !! "turn_id" = Some (VNum (NInt 9)).
Proof.
  destruct (prompts_open_consecutive_turns 7 [demo_prompt 4; demo_prompt 5] demo_dicts demo_staging
    demo_seq_nos eq_refl eq_refl) as (ps & H & _ & Hk & _).
  destruct demo_dict_at as [d Hd]. exists ps. eexists. split; [exact H|]. split; [exact (Hk 1%nat (demo_prompt 5) d eq_refl Hd)|].
  unfold reported. cbn [is_prompt demo_prompt ev_prompt].
  rewrite lookup_insert_ne by discriminate. rewrite !lookup_insert_eq. split; reflexivity.
Defined.
