(* ===== verification/Stream.v ===== *)
(** * Token streaming and prefill messages

    Models the stream output builder and the prefill normalisation of
    [src/sglang_omni/models/moss_vl_realtime/request_builders.py].  The tokenizer's
    [decode] is a parameter.  Text is a list of Unicode code points, as Python counts
    it; an outgoing message is one constructor per [event]. *)
From S2P Require Import Prelude PyNum Payload Accounting RuntimeState Extend.
Local Open Scope Z_scope.

(** ** Text *)

Abbreviation Text := (list Z).

Definition text_of (s : string) : Text :=
  map (fun c => Z.of_nat (Ascii.nat_of_ascii c)) (String.list_ascii_of_string s).

(** U+FFFD, which ends a text cut inside a code point. *)
Definition replacement : Z := 65533.

Definition ends_with_replacement (t : Text) : bool := bool_decide (last t = Some replacement).

Fixpoint starts_with (previous current : Text) : bool :=
  match previous, current with
  | [], _ => true
  | a :: previous', b :: current' => (a =? b) && starts_with previous' current'
  | _ :: _, [] => false
  end.

(** The [while] loop over the common characters. *)
Fixpoint common_length (previous current : Text) : nat :=
  match previous, current with
  | a :: previous', b :: current' => if a =? b then S (common_length previous' current') else 0
  | _, _ => 0
  end.

Definition text_delta (previous current : Text) : Text :=
  if starts_with previous current then drop (length previous) current
  else drop (common_length previous current) current.

Definition ends_with_token_ids (values suffix : list Z) : bool :=
  if (length values <? length suffix)%nat then false
  else bool_decide (drop (length values - length suffix) values = suffix).

(** ** Messages and request data *)

Inductive OutMessage : Type :=
| MAccounting (usage : Usage) (watermark context_limit : Z)
| MUsage (decoder_tokens encoder_tokens encoder_kv_tokens token_space_used context_limit
    context_remaining : Z)
| MTurnInterrupted (turn_id next_turn_id seq_no : pyval)
| MInputProcessed (frame : bool) (seq_no timestamp final : pyval)
    (turns : option (pyval * pyval))
| MReady (session_id : string) (turn_id : Z)
| MText (text : Text) (token_id : option Z) (turn_id : Z)
| MSilence (turn_id : Z) (seq_no : option Z) (timestamp : option pyfloat)
    (silence_seq token_id : Z).

Record Data : Type := {
  o_state : RuntimeState;
  o_generated_token_ids : list Z;
  o_emitted_text : Text;
  o_turn_generated_token_ids : list Z;
  o_turn_emitted_text : Text;
  o_current_input_seq_no : option Z;
  o_current_input_timestamp : option pyfloat;
  o_silence_output_seq : Z;
  o_ready_emitted : bool;
  (** [_moss_vl_realtime_processed_events] of the request *)
  o_processed_events : option (list EventDict);
  (** the request parameters [stream] and [include_usage] *)
  o_stream : bool;
  o_include_usage : bool
}.

#[global] Instance eta_Data : Eta Data := fun d =>
  {| o_state := o_state d; o_generated_token_ids := o_generated_token_ids d;
     o_emitted_text := o_emitted_text d;
     o_turn_generated_token_ids := o_turn_generated_token_ids d;
     o_turn_emitted_text := o_turn_emitted_text d;
     o_current_input_seq_no := o_current_input_seq_no d;
     o_current_input_timestamp := o_current_input_timestamp d;
     o_silence_output_seq := o_silence_output_seq d; o_ready_emitted := o_ready_emitted d;
     o_processed_events := o_processed_events d; o_stream := o_stream d;
     o_include_usage := o_include_usage d |}.

Section Builder.
Context (decode : list Z → Text) (eos_token_id : Z) (silence_token_ids : list Z)
  (context_length : Z).
Abbreviation DM := (M Data (list OutMessage)).

(** [d[k]]. *)
Definition event_item (d : EventDict) (k : string) : result pyval :=
  match d !! k with Some v => Ok v | None => Raise (KeyError k) end.

(** [int(...)] and [float(...)] of the numbers [to_dict] stores. *)
Definition py_int (v : pyval) : result Z :=
  match v with VNum (NInt n) => Ok n | _ => Raise (TypeError "int()") end.
Definition py_float (v : pyval) : result pyfloat :=
  match v with VNum n => to_float n | _ => Raise (TypeError "float()") end.

Definition accounting_message : DM :=
  d ← get;
  match r_accounting (o_state d) with
  | None => mret []
  | Some a =>
      let limit := match r_context_limit (o_state d) with
                   | Some l => if l =? 0 then context_length else l
                   | None => context_length
                   end in
      mret [MAccounting (snapshot a) (a_step a) limit]
  end.

(** [accounting.sampled()] when the step produced a token. *)
Definition count_sample (token : option Z) : M Data unit :=
  d ← get;
  match r_accounting (o_state d), token with
  | Some a, Some _ =>
      let '(r, a') := sampled a in
      _ ← assign_to o_state (o_state d <| r_accounting := Some a' |>); lift r
  | _, _ => mret tt
  end.

Definition usage_message (token : option Z) : DM :=
  d ← get;
  if negb (o_include_usage d) then mret [] else
  let s := o_state d in
  let decoder_tokens := r_decoder_length s + match token with Some _ => 1 | None => 0 end in
  let encoder_tokens := effective_appended_encoder_length s in
  let used := encoder_tokens + decoder_tokens in
  mret [MUsage decoder_tokens encoder_tokens (r_encoder_length s) used context_length
          (Z.max 0 (context_length - used))].

Definition has_item (e : EventDict) (k : string) : bool :=
  negb (bool_decide (dict_get e k VNone = VNone)).

Definition processed_event (e : EventDict) : DM :=
  seq_no ← lift (event_item e "seq_no");
  n ← lift (py_int seq_no);
  _ ← assign_to o_current_input_seq_no (Some n);
  timestamp ← lift (event_item e "timestamp");
  f ← lift (py_float timestamp);
  _ ← assign_to o_current_input_timestamp (Some f);
  turn ← (if has_item e "prompt" then
            _ ← assign_to o_turn_generated_token_ids [];
            _ ← assign_to o_turn_emitted_text [];
            interrupted ← lift (event_item e "interrupted_turn_id");
            next ← lift (event_item e "turn_id");
            mret (Some (interrupted, next))
          else mret None);
  final ← lift (event_item e "final");
  mret (match turn with
        | Some (interrupted, next) => [MTurnInterrupted interrupted next seq_no]
        | None => []
        end ++ [MInputProcessed (has_item e "frame_ref") seq_no timestamp final turn]).

Fixpoint processed_events (es : list EventDict) : DM :=
  match es with
  | [] => mret []
  | e :: es' => ms ← processed_event e; rest ← processed_events es'; mret (ms ++ rest)
  end.

Definition report_processed : DM :=
  d ← get;
  match o_processed_events d with
  | None => mret []
  | Some es => ms ← processed_events es; _ ← assign_to o_processed_events None; mret ms
  end.

Definition emit_text (token_id : option Z) (final : bool) : DM :=
  d ← get;
  _ ← assign_to o_emitted_text (decode (o_generated_token_ids d));
  let turn_text := decode (o_turn_generated_token_ids d) in
  if negb final && ends_with_replacement turn_text then mret []
  else
    let delta := text_delta (o_turn_emitted_text d) turn_text in
    _ ← assign_to o_turn_emitted_text turn_text;
    if bool_decide (delta = []) || negb (o_stream d) then mret []
    else mret [MText delta token_id (r_turn_id (o_state d))].

Definition flush : DM := emit_text None true.

Definition ready_message : DM :=
  d ← get;
  if o_ready_emitted d then mret []
  else _ ← assign_to o_ready_emitted true;
       mret [MReady (r_session_id (o_state d)) (r_turn_id (o_state d))].

Definition record_token (token_id : Z) : M Data unit :=
  if token_id =? eos_token_id then mret tt
  else modify (fun d =>
    d <| o_generated_token_ids := o_generated_token_ids d ++ [token_id] |>
      <| o_turn_generated_token_ids := o_turn_generated_token_ids d ++ [token_id] |>).

Definition silence_message (token_id : Z) : DM :=
  d ← get;
  if ends_with_token_ids (o_turn_generated_token_ids d) silence_token_ids then
    _ ← assign_to o_silence_output_seq (o_silence_output_seq d + 1);
    mret [MSilence (r_turn_id (o_state d)) (o_current_input_seq_no d)
            (o_current_input_timestamp d) (o_silence_output_seq d) token_id]
  else mret [].

Definition token_messages (token_id : Z) : DM :=
  ready ← ready_message;
  _ ← record_token token_id;
  d ← get;
  let is_silence := ends_with_token_ids (o_turn_generated_token_ids d) silence_token_ids in
  text ← emit_text (Some token_id) ((token_id =? eos_token_id) || is_silence);
  silence ← silence_message token_id;
  mret (ready ++ text ++ silence).

(** The builder; [token] is [req_output.data]. *)
Definition build (token : option Z) : DM :=
  _ ← count_sample token;
  accounting ← accounting_message;
  usage ← usage_message token;
  processed ← report_processed;
  tokens ← match token with Some t => token_messages t | None => mret [] end;
  mret (accounting ++ usage ++ processed ++ tokens).

(** One output per step, in order. *)
Fixpoint build_all (tokens : list (option Z)) : DM :=
  match tokens with
  | [] => mret []
  | t :: tokens' => ms ← build t; rest ← build_all tokens'; mret (ms ++ rest)
  end.
End Builder.

(** ** Prefill messages *)

Record Message : Type := { msg_role : string; msg_content : Text }.

Inductive RawMessage : Type :=
| RMessage (role : option string) (content : option Text)
| ROther.

Inductive RawPrefill : Type :=
| PNone
| PList (l : list RawMessage)
| POther.

Definition silence_marker : Text := text_of "<|silence|>".
#[global] Arguments silence_marker : simpl never.

(** A dictionary with a known role and a text content; [None] stands for an absent
    key or a value of another type. *)
Definition check_message (m : RawMessage) : option Message :=
  match m with
  | RMessage (Some role) (Some content) =>
      if bool_decide (role ∈ ["system"; "user"; "assistant"])
      then Some {| msg_role := role; msg_content := content |} else None
  | _ => None
  end.

Definition mark_silence (m : Message) : Message :=
  if bool_decide (msg_role m = "assistant") && negb (starts_with silence_marker (msg_content m))
  then {| msg_role := msg_role m; msg_content := silence_marker ++ msg_content m |} else m.

Definition content_length (l : list Message) : Z :=
  foldr Z.add 0 (map (fun m => zlength (msg_content m)) l).

Definition ensure_system (system_prompt : Text) (l : list Message) : list Message :=
  match l with
  | m :: _ => if bool_decide (msg_role m = "system") then l
              else {| msg_role := "system"; msg_content := system_prompt |} :: l
  | [] => l
  end.

Definition ensure_user (l : list Message) : list Message :=
  match last l with
  | Some m => if bool_decide (msg_role m = "user") then l
              else l ++ [{| msg_role := "user"; msg_content := [] |}]
  | None => l
  end.

Definition invalid_prefill : pyexn := ValueError "invalid prefill_messages".

Definition build_messages (system_prompt initial_prompt : Text) (prefill : RawPrefill)
  : result (list Message) :=
  match prefill with
  | PNone => Ok [{| msg_role := "system"; msg_content := system_prompt |};
                 {| msg_role := "user"; msg_content := initial_prompt |}]
  | POther => Raise invalid_prefill
  | PList raw =>
      _ ← raise_if (negb ((1 <=? zlength raw) && (zlength raw <=? 64))) invalid_prefill;
      l ← match mapM check_message raw with Some l => Ok l | None => Raise invalid_prefill end;
      let l := map mark_silence l in
      _ ← raise_if (131072 <? content_length l)
            (ValueError "prefill_messages text exceeds 131072 characters");
      Ok (ensure_user (ensure_system system_prompt l))
  end.

(** ** What a client receives *)

(** The text of a list of messages. *)
Definition texts (ms : list OutMessage) : Text :=
  concat (map (fun m => match m with MText t _ _ => t | _ => [] end) ms).
Definition silence_seqs (ms : list OutMessage) : list Z :=
  concat (map (fun m => match m with MSilence _ _ _ n _ => [n] | _ => [] end) ms).
Definition readies (ms : list OutMessage) : nat :=
  length (List.filter (fun m => match m with MReady _ _ => true | _ => false end) ms).

Lemma texts_app a b : texts (a ++ b) = texts a ++ texts b.
Proof. unfold texts. by rewrite map_app, concat_app. Qed.
Lemma silence_seqs_app a b : silence_seqs (a ++ b) = silence_seqs a ++ silence_seqs b.
Proof. unfold silence_seqs. by rewrite map_app, concat_app. Qed.
Lemma readies_app a b : readies (a ++ b) = (readies a + readies b)%nat.
Proof. unfold readies. by rewrite List.filter_app, length_app. Qed.

(** Neither text, nor silence, nor readiness. *)
Definition control (m : OutMessage) : bool :=
  match m with MText _ _ _ | MSilence _ _ _ _ _ | MReady _ _ => false | _ => true end.

Lemma control_silent ms :
  forallb control ms = true → texts ms = [] ∧ silence_seqs ms = [] ∧ readies ms = 0%nat.
Proof.
  induction ms as [|m ms IH]; [done|]. simpl. intros [Hm Hms]%andb_true_iff.
  destruct (IH Hms) as (IH1 & IH2 & IH3). unfold texts, silence_seqs, readies in *. simpl.
  by destruct m; try done; rewrite ?IH1, ?IH2.
Qed.

Lemma starts_with_spec p t : starts_with p t = true ↔ ∃ r, t = p ++ r.
Proof.
  revert t. induction p as [|a p IH]; intros t; simpl; [split; [by exists t|done]|].
  destruct t as [|b t]; [split; [done|by intros [? ?]]|].
  rewrite andb_true_iff, Z.eqb_eq, IH. split.
  - intros [-> [r ->]]. by exists r.
  - intros [r [= -> ->]]. split; [done|by exists r].
Qed.

(** The delta after a prefix is the rest. *)
Lemma text_delta_prefix p t : starts_with p t = true → p ++ text_delta p t = t.
Proof.
  intros H. unfold text_delta. rewrite H. apply starts_with_spec in H as [r ->].
  by rewrite drop_app_length.
Qed.

Section Faithful.
Context (decode : list Z → Text) (eos_token_id : Z) (silence_token_ids : list Z)
  (context_length : Z).
Abbreviation build := (build decode eos_token_id silence_token_ids context_length).
Abbreviation build_all := (build_all decode eos_token_id silence_token_ids context_length).
Abbreviation silent := (fun ids => ends_with_token_ids ids silence_token_ids).

Definition no_events (d : Data) : Prop := o_processed_events d = None.

(** The fields the control messages leave alone. *)
Definition same_stream (d d' : Data) : Prop :=
  o_generated_token_ids d' = o_generated_token_ids d ∧
  o_turn_generated_token_ids d' = o_turn_generated_token_ids d ∧
  o_turn_emitted_text d' = o_turn_emitted_text d ∧
  o_silence_output_seq d' = o_silence_output_seq d ∧ o_ready_emitted d' = o_ready_emitted d ∧
  o_stream d' = o_stream d.

Lemma count_sample_same token d d' :
  count_sample token d = (Ok tt, d') →
  same_stream d d' ∧ o_processed_events d' = o_processed_events d.
Proof.
  unfold count_sample. unfold get, modify, lift, mbind, M_bind.
  destruct (r_accounting (o_state d)) as [a|]; [|by intros [= <-]].
  destruct token as [t|]; [|by intros [= <-]].
  destruct (sampled a) as [r a']. by intros [= _ <-].
Qed.

Lemma processed_event_control e d ms d' :
  processed_event e d = (Ok ms, d') →
  forallb control ms = true ∧ o_silence_output_seq d' = o_silence_output_seq d ∧
  o_ready_emitted d' = o_ready_emitted d ∧ o_stream d' = o_stream d.
Proof.
  intros H. unfold processed_event in H. inv_ok.
  destruct (has_item e "prompt"); inv_ok; done.
Qed.

Lemma processed_events_control es d ms d' :
  processed_events es d = (Ok ms, d') →
  forallb control ms = true ∧ o_silence_output_seq d' = o_silence_output_seq d ∧
  o_ready_emitted d' = o_ready_emitted d ∧ o_stream d' = o_stream d.
Proof.
  revert d ms. induction es as [|e es IH]; intros d ms H; cbn [processed_events] in H.
  { injection H as <- <-. done. }
  apply Mbind_Ok in H as (m1 & d1 & H1 & H). apply Mbind_Ok in H as (m2 & d2 & H2 & H).
  injection H as <- <-. apply processed_event_control in H1 as (A1 & A2 & A3 & A4).
  apply IH in H2 as (B1 & B2 & B3 & B4).
  split_and!; [by rewrite forallb_app, A1, B1|congruence..].
Qed.

Lemma report_processed_control d ms d' :
  report_processed d = (Ok ms, d') →
  forallb control ms = true ∧ o_silence_output_seq d' = o_silence_output_seq d ∧
  o_ready_emitted d' = o_ready_emitted d ∧ o_stream d' = o_stream d ∧ no_events d' ∧
  (no_events d → ms = [] ∧ d' = d).
Proof.
  intros H. unfold report_processed in H. unfold get, mbind at 1, M_bind at 1 in H. unfold no_events.
  destruct (o_processed_events d) as [es|] eqn:E; [|by injection H as <- <-].
  apply Mbind_Ok in H as (m1 & d1 & H1 & H).
  apply processed_events_control in H1 as (A1 & A2 & A3 & A4).
  injection H as <- <-. fields. by split_and!.
Qed.

(** Everything before the token's own messages is control. *)
Lemma build_split token d ms d' :
  build token d = (Ok ms, d') →
  ∃ pre tail d1, ms = pre ++ tail ∧ forallb control pre = true ∧
    match token with
    | Some t => token_messages decode eos_token_id silence_token_ids t d1 = (Ok tail, d')
    | None => tail = [] ∧ d' = d1
    end ∧
    o_silence_output_seq d1 = o_silence_output_seq d ∧ o_ready_emitted d1 = o_ready_emitted d ∧
    o_stream d1 = o_stream d ∧ no_events d1 ∧ (no_events d → same_stream d d1).
Proof.
  intros H. unfold Stream.build in H. apply Mbind_Ok in H as ([] & d0 & H0 & H).
  apply count_sample_same in H0 as [S0 N0].
  apply Mbind_Ok in H as (acc & da & Ha & H).
  assert (da = d0 ∧ forallb control acc = true) as [-> Ca].
  { unfold accounting_message in Ha. unfold get, mbind, M_bind in Ha.
    destruct (r_accounting _); by injection Ha as <- <-. }
  apply Mbind_Ok in H as (us & du & Hu & H).
  assert (du = d0 ∧ forallb control us = true) as [-> Cu].
  { unfold usage_message in Hu. unfold get, mbind, M_bind in Hu.
    destruct (negb _); by injection Hu as <- <-. }
  apply Mbind_Ok in H as (pr & d1 & Hp & H).
  apply report_processed_control in Hp as (P1 & P2 & P3 & P4 & P5 & P6).
  apply Mbind_Ok in H as (tail & d2 & Ht & H). injection H as <- <-.
  exists (acc ++ us ++ pr), tail, d1. destruct S0 as (E1 & E2 & E3 & E4 & E5 & E6).
  split_and!; [by rewrite <- !app_assoc|by rewrite !forallb_app, Ca, Cu, P1| |congruence..|done|].
  - destruct token; [done|]. by injection Ht as <- <-.
  - intros Hn. destruct P6 as [_ ->]; [unfold no_events in *; congruence|]. done.
Qed.

(** The turn's tokens once [t] is recorded. *)
Definition extended (ids : list Z) (t : Z) : list Z :=
  if t =? eos_token_id then ids else ids ++ [t].

Definition is_final (ids : list Z) (t : Z) : bool :=
  (t =? eos_token_id) || silent (extended ids t).

(** The messages of one token. *)
Record token_run (t : Z) (d d' : Data) (ms : list OutMessage) : Prop := {
  tr_ids : o_turn_generated_token_ids d' = extended (o_turn_generated_token_ids d) t;
  tr_text : let ids := o_turn_generated_token_ids d' in
    if negb (is_final (o_turn_generated_token_ids d) t) && ends_with_replacement (decode ids)
    then texts ms = [] ∧ o_turn_emitted_text d' = o_turn_emitted_text d
    else o_turn_emitted_text d' = decode ids ∧
         (o_stream d = true → texts ms = text_delta (o_turn_emitted_text d) (decode ids));
  tr_silence : if silent (o_turn_generated_token_ids d')
    then silence_seqs ms = [o_silence_output_seq d] ∧
         o_silence_output_seq d' = o_silence_output_seq d + 1
    else silence_seqs ms = [] ∧ o_silence_output_seq d' = o_silence_output_seq d;
  tr_ready : o_ready_emitted d' = true ∧ readies ms = (if o_ready_emitted d then 0 else 1)%nat;
  tr_rest : o_stream d' = o_stream d ∧ o_processed_events d' = o_processed_events d
}.

Lemma token_messages_run t d ms d' :
  token_messages decode eos_token_id silence_token_ids t d = (Ok ms, d') → token_run t d d' ms.
Proof.
  intros H. unfold token_messages in H.
  apply Mbind_Ok in H as (rd & d1 & H1 & H). apply Mbind_Ok in H as ([] & d2 & H2 & H).
  unfold mbind at 1, get, M_bind at 1 in H.
  apply Mbind_Ok in H as (tx & d3 & H3 & H). apply Mbind_Ok in H as (sl & d4 & H4 & H).
  injection H as <- <-.
  assert (texts rd = [] ∧ silence_seqs rd = [] ∧
    readies rd = (if o_ready_emitted d then 0 else 1)%nat ∧ d1 = d <| o_ready_emitted := true |>)
    as (R1 & R2 & R3 & ->).
  { unfold ready_message in H1. unfold get, modify, mbind, M_bind in H1.
    destruct (o_ready_emitted d) eqn:E; injection H1 as <- <-; split_and!; try done.
    destruct d. simpl in E. by subst. }
  assert (o_turn_generated_token_ids d2 = extended (o_turn_generated_token_ids d) t ∧
    o_turn_emitted_text d2 = o_turn_emitted_text d ∧ o_stream d2 = o_stream d ∧
    o_silence_output_seq d2 = o_silence_output_seq d ∧ o_ready_emitted d2 = true ∧
    o_processed_events d2 = o_processed_events d) as (D1 & D2 & D3 & D4 & D5 & D6).
  { unfold record_token, extended in *. destruct (t =? eos_token_id); by injection H2 as <-. }
  rewrite D1 in H3. fold (is_final (o_turn_generated_token_ids d) t) in H3.
  set (ids := extended (o_turn_generated_token_ids d) t) in *.
  unfold emit_text in H3. unfold get, modify, mbind, M_bind in H3. fields. rewrite D1 in H3.
  assert (o_turn_generated_token_ids d3 = ids ∧ o_silence_output_seq d3 = o_silence_output_seq d ∧
    o_ready_emitted d3 = true ∧ o_stream d3 = o_stream d ∧
    o_processed_events d3 = o_processed_events d ∧ silence_seqs tx = [] ∧ readies tx = 0%nat ∧
    (if negb (is_final (o_turn_generated_token_ids d) t) && ends_with_replacement (decode ids)
     then texts tx = [] ∧ o_turn_emitted_text d3 = o_turn_emitted_text d
     else o_turn_emitted_text d3 = decode ids ∧
       (o_stream d = true → texts tx = text_delta (o_turn_emitted_text d) (decode ids))))
    as (T1 & T2 & T3 & T4 & T5 & T6 & T7 & T8).
  { destruct (negb _ && _); [injection H3 as <- <-; fields; by split_and!|].
    rewrite D2, D3 in H3. destruct (bool_decide _ || _) eqn:E; injection H3 as <- <-; fields;
      split_and!; try done.
    - intros Hs. rewrite Hs in E. simpl in E. rewrite orb_false_r in E.
      apply bool_decide_eq_true in E. by rewrite E.
    - intros _. unfold texts. simpl. by rewrite app_nil_r. }
  unfold silence_message in H4. unfold get, modify, mbind, M_bind in H4. rewrite T1 in H4.
  destruct (silent ids) eqn:Es; injection H4 as <- <-; split; fields;
    rewrite ?T1, ?texts_app, ?silence_seqs_app, ?readies_app, ?R1, ?R2, ?R3, ?T6, ?T7, ?T2, ?Es;
    simpl; rewrite ?app_nil_r; try done; split_and!; try done; destruct (o_ready_emitted d); done.
Qed.

(** [build] on a token, without processed events to report. *)
Lemma build_token t d ms d' :
  no_events d → build (Some t) d = (Ok ms, d') →
  ∃ d1 tail, same_stream d d1 ∧ texts ms = texts tail ∧ token_run t d1 d' tail ∧ no_events d'.
Proof.
  intros Hn H. apply build_split in H as (pre & tail & d1 & -> & Hc & Ht & _ & _ & _ & N1 & S).
  apply token_messages_run in Ht. destruct (control_silent pre Hc) as (C1 & _).
  exists d1, tail. split_and!; [by apply S|by rewrite texts_app, C1|done|].
  destruct Ht as [_ _ _ _ [_ E]]. unfold no_events in *. by rewrite E.
Qed.

(** Nothing received yet in this turn. *)
Definition turn_start (d : Data) : Prop :=
  no_events d ∧ o_turn_generated_token_ids d = [] ∧ o_turn_emitted_text d = [] ∧
  o_stream d = true.

(** Only a trailing replacement character of a decoded text can still change. *)
Definition decode_stable : Prop :=
  decode [] = [] ∧
  ∀ l l', ends_with_replacement (decode l) = false → starts_with (decode l) (decode (l ++ l')) = true.

(** The client's text is the emitted text, and every decoding still to come extends it. *)
Definition in_step (ids : list Z) (received : Text) (d : Data) : Prop :=
  no_events d ∧ o_turn_generated_token_ids d = ids ∧ o_turn_emitted_text d = received ∧
  o_stream d = true ∧ (∀ l, starts_with received (decode (ids ++ l)) = true) ∧
  (ends_with_replacement (decode ids) = false → received = decode ids).

Lemma in_step_start d : decode_stable → turn_start d → in_step [] [] d.
Proof. intros [He _] (? & ? & ? & ?). split_and!; try done. Qed.

Lemma in_step_token ids received t d ms d' :
  decode_stable → in_step ids received d → is_final ids t = false →
  build (Some t) d = (Ok ms, d') → in_step (ids ++ [t]) (received ++ texts ms) d'.
Proof.
  intros [_ Hst] (Hn & Hi & Hr & Hs & Hp & _) Hf H.
  assert ((t =? eos_token_id) = false) as Ht by (apply orb_false_iff in Hf; tauto).
  apply build_token in H as (d1 & tail & (E1 & E2 & E3 & E4 & E5 & E6) & -> & R & N'); [|done].
  destruct R as [R1 R2 _ _ [R5 _]]. rewrite E2, Hi in R1, R2. unfold extended in R1. rewrite Ht in R1.
  cbv zeta in R2. rewrite Hf, R1, E3, Hr in R2. simpl in R2.
  split_and!; [done|done| | congruence| |].
  - destruct (ends_with_replacement _); destruct R2 as [R2 R3].
    + by rewrite R2, app_nil_r.
    + rewrite R2, R3 by congruence. symmetry. apply text_delta_prefix, Hp.
  - intros l. destruct (ends_with_replacement _) eqn:Ee; destruct R2 as [R2 R3].
    + rewrite R2, app_nil_r, <- app_assoc. apply Hp.
    + rewrite R3, text_delta_prefix by (congruence || apply Hp). by apply Hst.
  - intros Ee. rewrite Ee in R2. destruct R2 as [_ R3].
    rewrite R3 by congruence. apply text_delta_prefix, Hp.
Qed.

(** A terminal token flushes everything. *)
Lemma in_step_final ids received t d ms d' :
  in_step ids received d → is_final ids t = true → build (Some t) d = (Ok ms, d') →
  received ++ texts ms = decode (extended ids t).
Proof.
  intros (Hn & Hi & Hr & Hs & Hp & _) Hf H.
  apply build_token in H as (d1 & tail & (E1 & E2 & E3 & E4 & E5 & E6) & -> & R & N'); [|done].
  destruct R as [R1 R2 _ _ _]. rewrite E2, Hi in R1, R2. cbv zeta in R2.
  rewrite Hf, R1, E3, Hr in R2. simpl in R2. destruct R2 as [_ R3]. rewrite R3 by congruence.
  apply text_delta_prefix. unfold extended. destruct (t =? eos_token_id); [|apply Hp].
  rewrite <- (app_nil_r ids) at 1. apply Hp.
Qed.

(** No token of [ts] ends the stream or completes the silence marker. *)
Fixpoint ordinary (ids ts : list Z) : bool :=
  match ts with
  | [] => true
  | t :: ts' => negb (is_final ids t) && ordinary (ids ++ [t]) ts'
  end.

Lemma in_step_run ts ids received d ms d' :
  decode_stable → in_step ids received d → ordinary ids ts = true →
  build_all (map Some ts) d = (Ok ms, d') → in_step (ids ++ ts) (received ++ texts ms) d'.
Proof.
  intros Hst. revert ids received d ms. induction ts as [|t ts IH]; intros ids received d ms Hi Ho H.
  { injection H as <- <-. by rewrite !app_nil_r. }
  cbn in H, Ho. apply andb_true_iff in Ho as [Ht%negb_true_iff Ho].
  apply Mbind_Ok in H as (m1 & d1 & H1 & H). apply Mbind_Ok in H as (m2 & d2 & H2 & H).
  injection H as <- <-. apply (in_step_token ids received) in H1; [|done..].
  apply (IH _ _ _ _ H1 Ho) in H2. by rewrite texts_app, app_assoc, (cons_middle t ids ts), app_assoc.
Qed.

(** Silences are numbered on, readiness is announced once. *)
Lemma build_numbers token d ms d' :
  build token d = (Ok ms, d') →
  silence_seqs ms = seqZ (o_silence_output_seq d) (zlength (silence_seqs ms)) ∧
  o_silence_output_seq d' = o_silence_output_seq d + zlength (silence_seqs ms) ∧
  readies ms = (if o_ready_emitted d then 0 else if o_ready_emitted d' then 1 else 0)%nat ∧
  (o_ready_emitted d = true → o_ready_emitted d' = true) ∧
  (token ≠ None → o_ready_emitted d' = true).
Proof.
  intros H. apply build_split in H as (pre & tail & d1 & -> & Hc & Ht & S1 & S2 & _).
  destruct (control_silent pre Hc) as (_ & C2 & C3).
  rewrite silence_seqs_app, readies_app, C2, C3, <- S1, <- S2. simpl. destruct token as [t|].
  - apply token_messages_run in Ht as [_ _ T3 [T4 T5] _]. rewrite T4, T5.
    destruct (ends_with_token_ids _ _); destruct T3 as [-> ->]; simpl; rewrite ?Z.add_0_r; by split_and!.
  - destruct Ht as [-> ->]. simpl. rewrite Z.add_0_r. split_and!; try done.
    by destruct (o_ready_emitted d1).
Qed.

Lemma build_all_numbers ts d ms d' :
  build_all ts d = (Ok ms, d') →
  silence_seqs ms = seqZ (o_silence_output_seq d) (zlength (silence_seqs ms)) ∧
  o_silence_output_seq d' = o_silence_output_seq d + zlength (silence_seqs ms) ∧
  readies ms = (if o_ready_emitted d then 0 else if o_ready_emitted d' then 1 else 0)%nat ∧
  (o_ready_emitted d = true → o_ready_emitted d' = true) ∧
  (Exists (fun t => t ≠ None) ts → o_ready_emitted d' = true).
Proof.
  revert d ms. induction ts as [|t ts IH]; intros d ms H.
  { injection H as <- <-. unfold readies. simpl. rewrite Z.add_0_r. split_and!; try done.
    - by destruct (o_ready_emitted d).
    - by intros E%Exists_nil. }
  cbn in H. apply Mbind_Ok in H as (m1 & d1 & H1 & H). apply Mbind_Ok in H as (m2 & d2 & H2 & H).
  injection H as <- <-. apply build_numbers in H1 as (A1 & A2 & A3 & A4 & A5).
  apply IH in H2 as (B1 & B2 & B3 & B4 & B5).
  rewrite silence_seqs_app, readies_app, zlength_app, A3, B3. split_and!.
  - rewrite A1 at 1. rewrite B1 at 1. rewrite A2. symmetry. apply seqZ_app; apply zlength_nonneg.
  - lia.
  - destruct (o_ready_emitted d) eqn:E; [by rewrite A4|].
    destruct (o_ready_emitted d1) eqn:E1; [by rewrite B4|done].
  - tauto.
  - intros [Ht|Ht]%Exists_cons; [by apply B4, A5|by apply B5].
Qed.
End Faithful.

(** ** Normalised prefill *)

Definition normal (l : list Message) : Prop :=
  (∃ m, head l = Some m ∧ msg_role m = "system") ∧
  (∃ m, last l = Some m ∧ msg_role m = "user") ∧
  Forall (fun m => msg_role m ∈ ["system"; "user"; "assistant"] ∧
    (msg_role m = "assistant" → starts_with silence_marker (msg_content m) = true)) l.

Definition raw_of (m : Message) : RawMessage := RMessage (Some (msg_role m)) (Some (msg_content m)).

Lemma starts_with_app p t : starts_with p (p ++ t) = true.
Proof. apply starts_with_spec. by exists t. Qed.

Lemma mark_silence_ok m :
  msg_role m ∈ ["system"; "user"; "assistant"] →
  msg_role (mark_silence m) ∈ ["system"; "user"; "assistant"] ∧
  (msg_role (mark_silence m) = "assistant" →
   starts_with silence_marker (msg_content (mark_silence m)) = true).
Proof.
  intros Hr. unfold mark_silence.
  case_bool_decide as Ha; cbn [andb]; [|split; [done|tauto]].
  destruct (starts_with silence_marker (msg_content m)) eqn:E; cbn [negb msg_role msg_content];
    [by split|]. split; [done|]. intros _. apply starts_with_app.
Qed.

Lemma mark_silence_id m :
  (msg_role m = "assistant" → starts_with silence_marker (msg_content m) = true) →
  mark_silence m = m.
Proof.
  intros H. unfold mark_silence. case_bool_decide as Ha; cbn [andb]; [|done]. by rewrite H.
Qed.

Lemma check_message_role raw m :
  check_message raw = Some m → msg_role m ∈ ["system"; "user"; "assistant"].
Proof.
  destruct raw as [[r|] [c|]|]; simpl; try discriminate. case_bool_decide; [|discriminate].
  by intros [= <-].
Qed.

Lemma check_message_raw m :
  msg_role m ∈ ["system"; "user"; "assistant"] → check_message (raw_of m) = Some m.
Proof. intros H. simpl. rewrite bool_decide_true by done. by destruct m. Qed.

Definition roled (l : list Message) : Prop :=
  Forall (fun m => msg_role m ∈ ["system"; "user"; "assistant"] ∧
    (msg_role m = "assistant" → starts_with silence_marker (msg_content m) = true)) l.

Lemma ensure_normal system_prompt l :
  l ≠ [] → roled l → normal (ensure_user (ensure_system system_prompt l)).
Proof.
  intros Hl Hr. destruct l as [|m l]; [done|]. simpl.
  set (l1 := if bool_decide _ then _ else _).
  assert (roled l1 ∧ ∃ m1 l1', l1 = m1 :: l1' ∧ msg_role m1 = "system") as [H1 (m1 & l1' & E & Hm)].
  { unfold l1. case_bool_decide as Hs.
    - split; [done|by exists m, l].
    - split; [|eexists _, _; split; [done|done]]. constructor; [|done]. split; [set_solver|done]. }
  rewrite E in *. unfold ensure_user.
  destruct (last (m1 :: l1')) as [z|] eqn:Hz; [|by apply last_None in Hz].
  case_bool_decide as Hu.
  - split; [by exists m1|]. split; [by exists z|done].
  - split; [by exists m1|]. split.
    + eexists. split; [apply last_snoc|done].
    + apply Forall_app. split; [done|]. constructor; [|constructor]. split; [set_solver|done].
Qed.

Lemma build_messages_normal system_prompt initial_prompt prefill l :
  build_messages system_prompt initial_prompt prefill = Ok l → normal l.
Proof.
  destruct prefill as [|raw|]; simpl; [|intros H|done].
  - intros [= <-]. split; [by eexists|]. split; [by eexists|].
    repeat constructor; simpl; try set_solver; done.
  - apply bind_Ok in H as (_ & Hn%raise_if_Ok & H). apply bind_Ok in H as (l0 & H0 & H).
    apply bind_Ok in H as (_ & _ & H). injection H as <-.
    destruct (mapM check_message raw) as [l1|] eqn:E; [|done]. injection H0 as ->.
    apply mapM_Some in E. apply ensure_normal.
    + intros ->%map_eq_nil. apply Forall2_nil_inv_r in E as ->. done.
    + apply Forall_map. apply Forall_lookup. intros i m Hm. simpl.
      destruct (Forall2_lookup_r _ _ _ _ _ E Hm) as (r & _ & Hr).
      by apply mark_silence_ok, (check_message_role r).
Qed.

Lemma build_messages_fixed system_prompt initial_prompt l :
  normal l → zlength l ≤ 64 → content_length l ≤ 131072 →
  build_messages system_prompt initial_prompt (PList (map raw_of l)) = Ok l.
Proof.
  intros ((m & Hh & Hm) & (z & Hz & Hu) & Hr) Hn Hc. simpl.
  destruct l as [|m0 l]; [done|]. injection Hh as ->.
  assert (zlength (map raw_of (m :: l)) = zlength (m :: l)) as El.
  { unfold zlength. by rewrite length_map. }
  rewrite El. rewrite (proj2 (Z.leb_le 1 _)) by (unfold zlength; simpl; lia).
  rewrite (proj2 (Z.leb_le _ 64)) by done. cbn [andb negb raise_if]. 
  assert (mapM check_message (map raw_of (m :: l)) = Some (m :: l)) as ->.
  { apply mapM_Some. apply Forall2_fmap_l. apply Forall_Forall2_diag.
    eapply Forall_impl; [exact Hr|]. intros x [Hx _]. by apply check_message_raw. }
  cbn [mbind result_bind].
  assert (map mark_silence (m :: l) = m :: l) as ->.
  { clear -Hr. induction Hr as [|x l' [_ Hx] _ IH]; [done|]. cbn [map].
    by rewrite IH, mark_silence_id. }
  rewrite (proj2 (Z.ltb_ge _ _)) by done. cbn [raise_if mbind result_bind].
  unfold ensure_system. rewrite bool_decide_true by done.
  unfold ensure_user. rewrite Hz, bool_decide_true by done. done.
Qed.

(** ** Properties *)

(** C29: However tokens are streamed within a turn, the texts sent to the client concatenate to
    a prefix of the decoded turn; whenever the text does not end inside a code point they
    concatenate to all of it, and after an end or silence token nothing is held back. *)
Theorem streamed_text_is_decoded decode eos silence context_length d ts ms d' :
  decode_stable decode → turn_start d → ordinary eos silence [] ts = true →
  build_all decode eos silence context_length (map Some ts) d = (Ok ms, d') →
  starts_with (texts ms) (decode ts) = true ∧
  (ends_with_replacement (decode ts) = false → texts ms = decode ts) ∧
  ∀ t ms' d'', is_final eos silence ts t = true →
    build decode eos silence context_length (Some t) d' = (Ok ms', d'') →
    texts ms ++ texts ms' = decode (extended eos ts t).
Proof.
  intros Hst Hd Ho H.
  pose proof (in_step_run _ _ _ _ ts [] [] d ms d' Hst (in_step_start _ d Hst Hd) Ho H) as Hi.
  pose proof Hi as (_ & _ & _ & _ & Hp & He). split; [|split; [exact He|]].
  - rewrite <- (app_nil_r ts). apply Hp.
  - intros t ms' d'' Hf Hb. by apply (in_step_final _ _ _ _ _ _ _ _ _ _ Hi Hf Hb).
Qed.

(** Over any sequence of builder steps the silences reported are numbered consecutively
    from the stored counter, and readiness is announced exactly once, with the first sampled
    token. *)
Theorem stream_numbers_silences decode eos silence context_length d ts ms d' :
  build_all decode eos silence context_length ts d = (Ok ms, d') →
  silence_seqs ms = seqZ (o_silence_output_seq d) (zlength (silence_seqs ms)) ∧
  o_silence_output_seq d' = o_silence_output_seq d + zlength (silence_seqs ms) ∧
  readies ms = (if o_ready_emitted d then 0 else if o_ready_emitted d' then 1 else 0)%nat ∧
  (Exists (fun t => t ≠ None) ts → o_ready_emitted d' = true).
Proof. intros H. apply build_all_numbers in H. tauto. Qed.

(** The prefill messages of an accepted request start with a system message, end with a
    user message and open every assistant message with the silence marker; normalising the
    result again changes nothing. *)
Theorem prefill_messages_normalised system_prompt initial_prompt prefill l :
  build_messages system_prompt initial_prompt prefill = Ok l →
  normal l ∧
  (zlength l ≤ 64 → content_length l ≤ 131072 →
   build_messages system_prompt initial_prompt (PList (map raw_of l)) = Ok l).
Proof.
  intros H. apply build_messages_normal in H. split; [done|]. by apply build_messages_fixed.
Qed.

(** ** Witnesses *)

Definition demo_data : Data :=
  {| o_state := fresh_state "r" "s"; o_generated_token_ids := []; o_emitted_text := [];
     o_turn_generated_token_ids := []; o_turn_emitted_text := [];
     o_current_input_seq_no := None; o_current_input_timestamp := None;
     o_silence_output_seq := 0; o_ready_emitted := false; o_processed_events := None;
     o_stream := true; o_include_usage := false |}.

(** Token 1 is a letter, token 2 opens a two-byte letter that token 3 closes. *)
Fixpoint demo_decode (ids : list Z) : Text :=
  match ids with
  | [] => []
  | 2 :: 3 :: ids' => 233 :: demo_decode ids'
  | 2 :: [] => [replacement]
  | _ :: ids' => 97 :: demo_decode ids'
  end.

Lemma demo_decode_stable : decode_stable demo_decode.
Proof.
  split; [done|].
  assert (∀ n l l', (length l < n)%nat → ends_with_replacement (demo_decode l) = false →
    starts_with (demo_decode l) (demo_decode (l ++ l')) = true) as H.
  { induction n as [|n IH]; [lia|]. intros l l' Hn He.
    assert (∀ x k, (length k < n)%nat → ends_with_replacement (x :: demo_decode k) = false →
      starts_with (x :: demo_decode k) (x :: demo_decode (k ++ l')) = true) as Hcons.
    { intros x k Hk Hx. cbn [starts_with]. rewrite Z.eqb_refl. cbn [andb]. apply IH; [done|].
      unfold ends_with_replacement in *. apply bool_decide_eq_false in Hx.
      apply bool_decide_eq_false. intros E. apply Hx. rewrite last_cons, E. done. }
    destruct l as [|a l]; [done|]. simpl in Hn.
    destruct (decide (a = 2)) as [->|Ha].
    - destruct l as [|b l]; [discriminate He|]. simpl in Hn.
      destruct (decide (b = 3)) as [->|Hb]; [apply (Hcons 233 l); [lia|exact He]|].
      assert (∀ k, demo_decode (2 :: b :: k) = 97 :: demo_decode (b :: k)) as Eb.
      { intros k. destruct b as [|[[]|[]|]|]; try done. }
      rewrite <- !app_comm_cons, !Eb in *. apply (Hcons 97 (b :: l)); [simpl; lia|exact He].
    - assert (∀ k, demo_decode (a :: k) = 97 :: demo_decode k) as Ea.
      { intros k. destruct a as [|[|[]|]|]; try done. }
      rewrite <- !app_comm_cons, !Ea in *. apply (Hcons 97 l); [lia|exact He]. }
  intros l l' He. apply (H (S (length l))); [lia|exact He].
Qed.

Lemma streamed_text_is_decoded_witness :
  ∃ ms ms', (build_all demo_decode 0 [1; 1; 1] 100 (map Some [1; 2; 3; 2]) demo_data).1 = Ok ms ∧
    texts ms = [97; 233] ∧ texts ms ++ texts ms' = [97; 233; replacement].
Proof.
  destruct (build_all demo_decode 0 [1; 1; 1] 100 (map Some [1; 2; 3; 2]) demo_data)
    as [[ms|e] d'] eqn:E; [|vm_compute in E; discriminate E].
  destruct (build demo_decode 0 [1; 1; 1] 100 (Some 0) d') as [[ms'|e] d''] eqn:E'.
  2: { vm_compute in E. injection E as <- <-. vm_compute in E'. discriminate E'. }
  destruct (streamed_text_is_decoded demo_decode 0 [1; 1; 1] 100 demo_data [1; 2; 3; 2] ms d'
    demo_decode_stable ltac:(repeat split) eq_refl E) as (_ & _ & H).
  exists ms, ms'. split; [reflexivity|]. split; [vm_compute in E; by injection E as <- <-|].
  exact (H 0 ms' d'' eq_refl E').
Defined.

Lemma stream_numbers_silences_witness :
  ∃ ms, (build_all demo_decode 0 [7] 100 [None; Some 7; Some 1; Some 7] demo_data).1 = Ok ms ∧
    silence_seqs ms = [0; 1] ∧ readies ms = 1%nat.
Proof.
  destruct (build_all demo_decode 0 [7] 100 [None; Some 7; Some 1; Some 7] demo_data)
    as [[ms|e] d'] eqn:E; [|vm_compute in E; discriminate E].
  destruct (stream_numbers_silences _ _ _ _ _ _ _ _ E) as (H1 & _ & H2 & H3).
  exists ms. split; [reflexivity|]. rewrite H1, H2, H3 by (apply Exists_cons; right; by apply Exists_cons; left).
  vm_compute in E. injection E as <- <-. split; reflexivity.
Defined.

Lemma prefill_messages_normalised_witness :
  ∃ l, build_messages [1] [] (PList [RMessage (Some "assistant") (Some [65])]) = Ok l ∧
    map msg_role l = ["system"; "assistant"; "user"] ∧
    build_messages [1] [] (PList (map raw_of l)) = Ok l.
Proof.
  destruct (build_messages [1] [] (PList [RMessage (Some "assistant") (Some [65])]))
    as [l|e] eqn:E; [|vm_compute in E; discriminate E].
  destruct (prefill_messages_normalised _ _ _ _ E) as [_ H]. exists l. split; [reflexivity|].
  vm_compute in E. injection E as <-. split; [reflexivity|].
  apply H; vm_compute; discriminate.
Defined.
