(* ===== verification/Odict.v ===== *)
(** * Insertion-ordered dictionaries

    A Python [dict] (or [OrderedDict]) whose iteration order the code relies on: an
    association list without duplicate keys, in insertion order.  Assigning an existing
    key keeps its place; a new key goes to the end. *)
From S2P Require Import Prelude.

Section Odict.
Context {K : Type} `{EqDecision K} {V : Type}.
Implicit Types (d : list (K * V)) (k : K) (v : V).

Definition od_keys d : list K := map fst d.

(** No key is stored twice. *)
Definition od_wf d : Prop := NoDup (od_keys d).

(** [d.get(k)]. *)
Fixpoint od_get k d : option V :=
  match d with
  | [] => None
  | (k', v) :: d' => if decide (k' = k) then Some v else od_get k d'
  end.

(** [k in d]. *)
Definition od_mem k d : bool := match od_get k d with Some _ => true | None => false end.

(** [d.pop(k, None)]. *)
Definition od_pop k d : list (K * V) := filter (fun p => p.1 ≠ k) d.

(** [d[k] = v]. *)
Fixpoint od_set k v d : list (K * V) :=
  match d with
  | [] => [(k, v)]
  | (k', v') :: d' => if decide (k' = k) then (k', v) :: d' else (k', v') :: od_set k v d'
  end.

(** [d.setdefault(k, v)], as the dictionary it leaves behind. *)
Definition od_setdefault k v d : list (K * V) := if od_mem k d then d else d ++ [(k, v)].

Lemma od_get_None k d : od_get k d = None ↔ k ∉ od_keys d.
Proof.
  induction d as [|[k' v] d IH]; simpl; [split; [intros _; apply not_elem_of_nil|done]|].
  rewrite not_elem_of_cons. case_decide; naive_solver.
Qed.

Lemma od_get_elem k v d : od_get k d = Some v → (k, v) ∈ d.
Proof.
  induction d as [|[k' v'] d IH]; simpl; [done|].
  case_decide; [intros [= ->]; subst; constructor|]. intros. constructor. auto.
Qed.

Lemma od_get_key k v d : od_get k d = Some v → k ∈ od_keys d.
Proof. intros H%od_get_elem. apply list_elem_of_fmap. by exists (k, v). Qed.

Lemma od_elem_get k v d : od_wf d → (k, v) ∈ d → od_get k d = Some v.
Proof.
  induction d as [|[k' v'] d IH]; intros Hw He; [by apply not_elem_of_nil in He|].
  apply NoDup_cons in Hw as [Hn Hw]. simpl in *.
  apply elem_of_cons in He as [[= -> ->]|He]; [by rewrite decide_True|].
  rewrite decide_False; [by apply IH|]. intros ->. apply Hn. apply list_elem_of_fmap.
  by exists (k, v).
Qed.

Lemma od_mem_true k d : od_mem k d = true ↔ k ∈ od_keys d.
Proof.
  unfold od_mem. destruct (od_get k d) eqn:E.
  - split; [|done]. intros _. by apply od_get_key in E.
  - apply od_get_None in E. by split.
Qed.

Lemma od_mem_false k d : od_mem k d = false ↔ od_get k d = None.
Proof. unfold od_mem. by destruct (od_get k d). Qed.

Lemma od_get_app k d e :
  od_get k (d ++ e) = match od_get k d with Some v => Some v | None => od_get k e end.
Proof. induction d as [|[k' v'] d IH]; simpl; [done|]. by case_decide. Qed.

Lemma od_pop_keys k d : od_keys (od_pop k d) = filter (fun k' => k' ≠ k) (od_keys d).
Proof.
  unfold od_keys, od_pop. induction d as [|[k' v] d IH]; simpl; [done|].
  destruct (decide (k' = k)) as [->|Hne].
  - rewrite filter_cons_False by naive_solver. rewrite filter_cons_False by naive_solver. done.
  - rewrite filter_cons_True by done. rewrite filter_cons_True by done. simpl. by rewrite IH.
Qed.

Lemma od_pop_wf k d : od_wf d → od_wf (od_pop k d).
Proof. unfold od_wf. rewrite od_pop_keys. apply NoDup_filter. Qed.

Lemma od_pop_absent k d : k ∉ od_keys d → od_pop k d = d.
Proof.
  intros H. apply filter_keep_all, Forall_forall. intros [k' v] He Heq. simpl in Heq. subst k'.
  apply H, list_elem_of_fmap. by exists (k, v).
Qed.

Lemma od_get_pop k d : od_get k (od_pop k d) = None.
Proof. apply od_get_None. rewrite od_pop_keys, list_elem_of_filter. tauto. Qed.

Lemma od_get_pop_ne k k' d : k' ≠ k → od_get k' (od_pop k d) = od_get k' d.
Proof.
  intros Hne. unfold od_pop. induction d as [|[k0 v0] d IH]; simpl; [done|].
  destruct (decide (k0 = k)) as [->|Hk].
  - rewrite filter_cons_False by naive_solver. rewrite decide_False by done. done.
  - rewrite filter_cons_True by done. simpl. by case_decide.
Qed.

Lemma od_pop_length k d : length (od_pop k d) ≤ length d.
Proof. apply length_filter. Qed.

Lemma od_get_set k v d : od_get k (od_set k v d) = Some v.
Proof.
  induction d as [|[k' v'] d IH]; simpl; [by rewrite decide_True|].
  destruct (decide (k' = k)); simpl; [by rewrite decide_True|by rewrite decide_False].
Qed.

Lemma od_get_set_ne k k' v d : k' ≠ k → od_get k' (od_set k v d) = od_get k' d.
Proof.
  intros Hne. induction d as [|[k0 v0] d IH]; simpl; [by rewrite decide_False|].
  destruct (decide (k0 = k)); simpl; case_decide; naive_solver.
Qed.

Lemma od_set_keys k v d :
  od_keys (od_set k v d) = if od_mem k d then od_keys d else od_keys d ++ [k].
Proof.
  unfold od_mem. induction d as [|[k0 v0] d IH]; simpl; [done|].
  destruct (decide (k0 = k)); simpl; [done|]. rewrite IH. by destruct (od_get k d).
Qed.

Lemma od_set_wf k v d : od_wf d → od_wf (od_set k v d).
Proof.
  unfold od_wf. rewrite od_set_keys. destruct (od_mem k d) eqn:E; [done|].
  intros H. apply NoDup_app. split_and!; [done| |apply NoDup_singleton].
  intros x Hx ->%list_elem_of_singleton. apply od_mem_true in Hx. congruence.
Qed.

Lemma od_set_length k v d :
  length (od_set k v d) = if od_mem k d then length d else S (length d).
Proof.
  rewrite <- !(length_map fst (_ : list (K * V))). fold (od_keys (od_set k v d)).
  rewrite od_set_keys. destruct (od_mem k d); [done|]. rewrite length_app. simpl.
  fold (od_keys d). lia.
Qed.

Lemma od_get_setdefault k v d :
  od_get k (od_setdefault k v d) = Some (default v (od_get k d)).
Proof.
  unfold od_setdefault, od_mem. destruct (od_get k d) eqn:E; simpl; [done|].
  rewrite od_get_app, E. simpl. by rewrite decide_True.
Qed.

Lemma od_get_setdefault_ne k k' v d :
  k' ≠ k → od_get k' (od_setdefault k v d) = od_get k' d.
Proof.
  intros H. unfold od_setdefault. destruct (od_mem k d); [done|]. rewrite od_get_app. simpl.
  rewrite decide_False by done. by destruct (od_get k' d).
Qed.

Lemma od_setdefault_keys k v d :
  od_keys (od_setdefault k v d) = if od_mem k d then od_keys d else od_keys d ++ [k].
Proof.
  unfold od_setdefault. destruct (od_mem k d); [done|]. unfold od_keys. by rewrite map_app.
Qed.

Lemma od_setdefault_wf k v d : od_wf d → od_wf (od_setdefault k v d).
Proof.
  unfold od_wf. rewrite od_setdefault_keys. destruct (od_mem k d) eqn:E; [done|].
  intros H. apply NoDup_app. split_and!; [done| |apply NoDup_singleton].
  intros x Hx ->%list_elem_of_singleton. apply od_mem_true in Hx. congruence.
Qed.

Lemma od_set_or k v d p : p ∈ od_set k v d → p = (k, v) ∨ p ∈ d.
Proof.
  induction d as [|[k' v'] d IH]; simpl; [by rewrite list_elem_of_singleton; left|].
  destruct (decide (k' = k)) as [->|]; rewrite !elem_of_cons; naive_solver.
Qed.

Lemma od_setdefault_or k v d p : p ∈ od_setdefault k v d → p = (k, v) ∨ p ∈ d.
Proof.
  unfold od_setdefault. destruct (od_mem k d); [by right|].
  rewrite elem_of_app, list_elem_of_singleton. tauto.
Qed.

Lemma od_drop_wf n d : od_wf d → od_wf (drop n d).
Proof.
  unfold od_wf, od_keys. rewrite <- skipn_map. intros H.
  eapply sublist_NoDup; [exact H|]. apply sublist_drop.
Qed.

Lemma od_get_drop n k d : od_wf d → k ∉ take n (od_keys d) → od_get k (drop n d) = od_get k d.
Proof.
  intros Hw Hn. rewrite <- (take_drop n d) at 2. rewrite od_get_app.
  assert (od_get k (take n d) = None) as ->; [|done].
  apply od_get_None. unfold od_keys in *. by rewrite <- firstn_map.
Qed.

(** A popped key keeps the other entries in their order. *)
Lemma od_pop_app k d e : od_pop k (d ++ e) = od_pop k d ++ od_pop k e.
Proof. unfold od_pop. apply filter_app. Qed.
End Odict.

#[export] Hint Resolve od_pop_wf od_set_wf od_setdefault_wf od_drop_wf : pymodel.
