(* ===== verification/OmniState.v ===== *)
(** * The generic scheduler: request objects, batches and abort

    Models the state of [OmniScheduler]
    ([src/sglang_omni/scheduling/omni_scheduler.py]) and the operations every other one
    is built from: locating a request, the bounded tables of aborted, completed and
    buffered requests, and [abort].

    Requests, request data and batches are Python objects that several places alias (the
    running, current, last and in-flight batch may be one object, and a request may sit in
    several of them), so they live in a store and are referred to by their identity.  The
    upstream [release_kv_cache] is a parameter. *)
From S2P Require Import Prelude Odict.
Local Open Scope Z_scope.

(** The opaque types of one scheduler: stream chunks, request updates, the rest of a
    request payload, the model's attributes on a request with its [output_ids] among them,
    the KV pool, stream messages and terminal results. *)
Class Types := {
  Chunk : Type; Update : Type; Body : Type; Ext : Type; Pool : Type; StreamMsg : Type;
  Answer : Type;
  output_ids : Ext → list Z
}.

(** ** Objects *)

Inductive Finish : Type := FinishAbort | FinishOther (kind : string).

Section Objects.
Context {T : Types}.

Record Payload : Type := {
  p_request_id : string;
  p_prefetched_chunks : list Chunk;
  p_prefetched_stream_done : bool;
  p_body : Body
}.

(** A [Req]; [q_data] is [_omni_data]. *)
Record ReqObj : Type := {
  q_rid : string;
  q_data : option nat;
  q_finished_reason : option Finish;
  q_is_retracted : bool;
  q_to_finish : bool;
  q_terminal_claimed : bool;
  q_req_pool_idx : option Z;
  q_input_len : Z;
  q_max_new_tokens : Z;
  q_ext : Ext
}.

Record DataObj : Type := {
  d_req : nat;
  d_stream_chunks : list Chunk;
  d_stream_done : bool;
  d_request_updates : list Update;
  d_output_ids : list Z;
  d_weight_version : option string;
  d_finish_reason : option string
}.

Record Batch : Type := { b_reqs : list nat; b_batch_is_full : bool }.

(** What a request builder returns: the data and its request, or both with a future that
    holds the admission back. *)
Record Built : Type := {
  bd_rid : string;
  bd_input_len : Z;
  bd_max_new_tokens : Z;
  bd_enforce_request_limits : bool;
  bd_ext : Ext
}.

Inductive Fut (A : Type) : Type := Pending | Done (r : result A).

Record Deferred : Type := { df_value : Built; df_ready : Fut unit }.

Inductive BuildOut : Type := BNow (b : Built) | BDeferred (d : Deferred).

(** [_PendingStreamIngress]. *)
Record Ingress : Type := { i_chunks : list Chunk; i_done : bool }.

Inductive InMsg : Type :=
| MNewRequest (rid : string) (payload : Payload)
| MStreamChunk (rid : string) (chunk : Chunk)
| MStreamDone (rid : string)
| MRequestUpdate (rid : string) (update : Update)
| MAbort (rid : string) (defer_running_cleanup : bool).

Definition msg_rid (m : InMsg) : string :=
  match m with
  | MNewRequest rid _ | MStreamChunk rid _ | MStreamDone rid | MRequestUpdate rid _
  | MAbort rid _ => rid
  end.

Inductive OutMsg : Type :=
| OResult (rid : string) (answer : Answer)
| OStream (rid : string) (message : StreamMsg)
| OError (rid : string) (error : pyexn).
End Objects.
Arguments Pending {A}.
Arguments Done {A} r.

Section State.
Context {T : Types}.

Record Omni : Type := {
  o_reqs : gmap nat ReqObj;
  o_datas : gmap nat DataObj;
  o_batches : gmap nat Batch;
  o_running_batch : option nat;
  o_cur_batch : option nat;
  o_last_batch : option nat;
  o_async_pending : option nat;
  o_waiting_queue : list nat;
  o_aborted_ids : gset string;
  o_aborted_order : list string;
  o_completed_ids : list string;
  o_stream_ingress : list (string * Ingress);
  o_request_updates : list (string * list Update);
  o_deferred_payloads : list (string * Payload);
  o_dirty_deferred : gset string;
  o_request_builds : list (string * (Payload * bool * Fut BuildOut));
  o_request_admissions : list (string * (Payload * bool * Deferred));
  o_backlog : list Payload;
  o_inbox : list InMsg;
  o_outbox : list OutMsg;
  o_first_emit_done : gset string;
  o_prefill_start_done : gset string;
  o_prefill_end_done : gset string;
  (** the model-path-end trace events *)
  o_path_ends : list (string * string);
  (** the requests the abort callback ran for *)
  o_abort_callbacks : list string;
  o_pool : Pool
}.

#[global] Instance eta_ReqObj : Eta ReqObj := fun q =>
  {| q_rid := q_rid q; q_data := q_data q; q_finished_reason := q_finished_reason q;
     q_is_retracted := q_is_retracted q; q_to_finish := q_to_finish q;
     q_terminal_claimed := q_terminal_claimed q; q_req_pool_idx := q_req_pool_idx q;
     q_input_len := q_input_len q; q_max_new_tokens := q_max_new_tokens q;
     q_ext := q_ext q |}.

#[global] Instance eta_DataObj : Eta DataObj := fun d =>
  {| d_req := d_req d; d_stream_chunks := d_stream_chunks d;
     d_stream_done := d_stream_done d; d_request_updates := d_request_updates d;
     d_output_ids := d_output_ids d; d_weight_version := d_weight_version d;
     d_finish_reason := d_finish_reason d |}.

#[global] Instance eta_Omni : Eta Omni := fun s =>
  {| o_reqs := o_reqs s; o_datas := o_datas s; o_batches := o_batches s;
     o_running_batch := o_running_batch s; o_cur_batch := o_cur_batch s;
     o_last_batch := o_last_batch s; o_async_pending := o_async_pending s;
     o_waiting_queue := o_waiting_queue s; o_aborted_ids := o_aborted_ids s;
     o_aborted_order := o_aborted_order s; o_completed_ids := o_completed_ids s;
     o_stream_ingress := o_stream_ingress s; o_request_updates := o_request_updates s;
     o_deferred_payloads := o_deferred_payloads s; o_dirty_deferred := o_dirty_deferred s;
     o_request_builds := o_request_builds s;
     o_request_admissions := o_request_admissions s; o_backlog := o_backlog s;
     o_inbox := o_inbox s; o_outbox := o_outbox s; o_first_emit_done := o_first_emit_done s;
     o_prefill_start_done := o_prefill_start_done s;
     o_prefill_end_done := o_prefill_end_done s; o_path_ends := o_path_ends s;
     o_abort_callbacks := o_abort_callbacks s; o_pool := o_pool s |}.

(** [req.finished()]. *)
Definition finished (q : ReqObj) : bool :=
  match q_finished_reason q with Some _ => true | None => false end.

(** ** Locating requests *)

Definition rid_is (s : Omni) (rid : string) (oid : nat) : bool :=
  match o_reqs s !! oid with Some q => bool_decide (q_rid q = rid) | None => false end.

(** The batches a live request can sit in, in the order the code scans them. *)
Definition batch_slots (s : Omni) : list nat :=
  omap id [o_running_batch s; o_cur_batch s; o_last_batch s; o_async_pending s].

Definition reqs_of (s : Omni) (bid : nat) : list nat :=
  match o_batches s !! bid with Some b => b_reqs b | None => [] end.

Definition batch_oids (s : Omni) : list nat := concat (map (reqs_of s) (batch_slots s)).

Definition data_of (s : Omni) (oid : nat) : option nat := o_reqs s !! oid ≫= q_data.

(** The first request with the identifier decides, detached or not. *)
Definition find_request_data (s : Omni) (rid : string) : option nat :=
  match List.find (rid_is s rid) (batch_oids s) with
  | Some oid => data_of s oid
  | None => match List.find (rid_is s rid) (o_waiting_queue s) with
            | Some oid => data_of s oid
            | None => None
            end
  end.

Abbreviation OM := (M Omni).

Definition update_req (oid : nat) (f : ReqObj → ReqObj) : OM unit :=
  modify (fun s => s <| o_reqs := alter f oid (o_reqs s) |>).

Definition detach_request_data (oid : nat) : OM unit :=
  update_req oid (assign q_data None).

(** ** Bounded tables *)

Definition ABORTED_REQUEST_ID_LIMIT : Z := 10000.
Definition ABORTED_REQUEST_ID_RETAINED : Z := 5000.
Definition COMPLETED_REQUEST_ID_LIMIT : Z := 10000.
Definition PENDING_STREAM_REQUEST_LIMIT : Z := 10000.
Definition PENDING_STREAM_REQUEST_RETAINED : Z := 5000.
Definition PENDING_REQUEST_UPDATE_LIMIT : Z := 10000.
Definition PENDING_REQUEST_UPDATE_RETAINED : Z := 5000.

(** The [while] loop that evicts the oldest aborted identifiers. *)
Fixpoint evict_aborted (order : list string) (ids : gset string)
  : result (list string * gset string) :=
  if Z.of_nat (size ids) <? ABORTED_REQUEST_ID_RETAINED then Ok (order, ids)
  else match order with
       | [] => Raise (IndexError "pop from an empty deque")
       | rid :: order' => evict_aborted order' (ids ∖ {[rid]})
       end.

Definition remember_aborted (rid : string) : OM unit :=
  s ← get;
  if bool_decide (rid ∈ o_aborted_ids s) then mret tt
  else
    '(order, ids) ← lift (if ABORTED_REQUEST_ID_LIMIT <=? Z.of_nat (size (o_aborted_ids s))
                          then evict_aborted (o_aborted_order s) (o_aborted_ids s)
                          else Ok (o_aborted_order s, o_aborted_ids s));
    _ ← assign_to o_aborted_ids (ids ∪ {[rid]});
    assign_to o_aborted_order (order ++ [rid]).

Definition remember_completed_request (rid : string) : OM unit :=
  s ← get;
  if bool_decide (rid ∈ o_completed_ids s) then mret tt
  else
    let kept := if COMPLETED_REQUEST_ID_LIMIT <=? zlength (o_completed_ids s)
                then drop 1 (o_completed_ids s) else o_completed_ids s in
    _ ← assign_to o_completed_ids (kept ++ [rid]);
    _ ← assign_to o_stream_ingress (od_pop rid (o_stream_ingress s));
    assign_to o_request_updates (od_pop rid (o_request_updates s)).

(** Room for one more entry, the oldest evicted first. *)
Definition reserve {V} (limit retained : Z) (rid : string) (d : list (string * V))
  : list (string * V) :=
  if od_mem rid d || (zlength d <? limit) then d else zdrop (zlength d - retained + 1) d.

Definition reserve_pending_stream_request (rid : string) : OM unit :=
  modify (fun s => s <| o_stream_ingress :=
    reserve PENDING_STREAM_REQUEST_LIMIT PENDING_STREAM_REQUEST_RETAINED rid
      (o_stream_ingress s) |>).

Definition reserve_pending_request_update (rid : string) : OM unit :=
  modify (fun s => s <| o_request_updates :=
    reserve PENDING_REQUEST_UPDATE_LIMIT PENDING_REQUEST_UPDATE_RETAINED rid
      (o_request_updates s) |>).

(** ** Abort *)

(** The batch slots with an object seen before left out. *)
Fixpoint unseen (seen l : list nat) : list nat :=
  match l with
  | [] => []
  | x :: l' => if bool_decide (x ∈ seen) then unseen seen l' else x :: unseen (x :: seen) l'
  end.

(** One request of [_mark_running_request_aborted]; [true] when the abort is deferred to
    its terminal output. *)
Definition mark_req (rid : string) (oid : nat) : OM bool :=
  s ← get;
  match o_reqs s !! oid with
  | Some q =>
      if negb (bool_decide (q_rid q = rid)) then mret false
      else if q_terminal_claimed q then
        mret (match q_data q with Some _ => true | None => false end)
      else if finished q || q_is_retracted q then mret false
      else _ ← update_req oid (assign q_to_finish true); mret true
  | None => mret false
  end.

Fixpoint mark_reqs (rid : string) (oids : list nat) : OM bool :=
  match oids with
  | [] => mret false
  | oid :: oids' => marked ← mark_req rid oid; rest ← mark_reqs rid oids';
                    mret (marked || rest)
  end.

Definition mark_running_request_aborted (rid : string) : OM bool :=
  s ← get;
  mark_reqs rid (concat (map (reqs_of s) (unseen [] (batch_slots s)))).

Definition run_abort_callback (rid : string) : OM unit :=
  modify (fun s => s <| o_abort_callbacks := o_abort_callbacks s ++ [rid] |>).

Definition emit_model_path_end_once (rid status : string) : OM unit :=
  s ← get;
  if bool_decide (rid ∈ o_prefill_start_done s) then
    _ ← assign_to o_prefill_start_done (o_prefill_start_done s ∖ {[rid]});
    assign_to o_path_ends (o_path_ends s ++ [(rid, status)])
  else mret tt.

Definition remove_from_batch (slot : option nat) (rid : string) : OM unit :=
  s ← get;
  match slot with
  | None => mret tt
  | Some bid =>
      match o_batches s !! bid with
      | None => mret tt
      | Some b =>
          _ ← mforeach detach_request_data (List.filter (rid_is s rid) (b_reqs b));
          let remaining := List.filter (fun oid => negb (rid_is s rid oid)) (b_reqs b) in
          modify (fun s => s <| o_batches :=
            <[bid := {| b_reqs := remaining;
                        b_batch_is_full := match remaining with
                                           | [] => false
                                           | _ => b_batch_is_full b
                                           end |}]> (o_batches s) |>)
      end
  end.

Definition drain_inbox_for_request (rid : string) : OM unit :=
  modify (fun s => s <| o_inbox :=
    List.filter (fun m => negb (bool_decide (msg_rid m = rid))) (o_inbox s) |>).

(** Drop the request from the waiting queue, detaching its data. *)
Definition drop_waiting (rid : string) : OM unit :=
  s ← get;
  _ ← mforeach detach_request_data (List.filter (rid_is s rid) (o_waiting_queue s));
  assign_to o_waiting_queue
    (List.filter (fun oid => negb (rid_is s rid oid)) (o_waiting_queue s)).

(** The tables an abort clears of the request. *)
Definition drop_pending_work (rid : string) : OM unit :=
  modify (fun s =>
    s <| o_request_builds := od_pop rid (o_request_builds s) |>
      <| o_request_admissions := od_pop rid (o_request_admissions s) |>
      <| o_backlog :=
           List.filter (fun p => negb (bool_decide (p_request_id p = rid))) (o_backlog s) |>).

Definition drop_buffers (rid : string) : OM unit :=
  modify (fun s =>
    s <| o_stream_ingress := od_pop rid (o_stream_ingress s) |>
      <| o_request_updates := od_pop rid (o_request_updates s) |>
      <| o_deferred_payloads := od_pop rid (o_deferred_payloads s) |>
      <| o_dirty_deferred := o_dirty_deferred s ∖ {[rid]} |>
      <| o_first_emit_done := o_first_emit_done s ∖ {[rid]} |>).

Definition drop_prefill_marks (rid : string) : OM unit :=
  modify (fun s =>
    s <| o_prefill_start_done := o_prefill_start_done s ∖ {[rid]} |>
      <| o_prefill_end_done := o_prefill_end_done s ∖ {[rid]} |>).

(** Closing a request that delivered its result; [true] when an abort arrived for it. *)
Definition close_completed_request (oid : nat) : OM bool :=
  s ← get;
  match o_reqs s !! oid with
  | None => mret false
  | Some q =>
      let rid := q_rid q in
      _ ← detach_request_data oid;
      _ ← remember_completed_request rid;
      _ ← modify (fun s =>
            s <| o_first_emit_done := o_first_emit_done s ∖ {[rid]} |>
              <| o_prefill_start_done := o_prefill_start_done s ∖ {[rid]} |>
              <| o_prefill_end_done := o_prefill_end_done s ∖ {[rid]} |>);
      mret (bool_decide (rid ∈ o_aborted_ids s))
  end.

Section Abort.
(** Upstream [release_kv_cache] of a request that holds a row. *)
Context (release_kv_cache : ReqObj → Pool → ReqObj * Pool).

Definition release_request_kv_cache (oid : nat) : OM unit :=
  s ← get;
  match o_reqs s !! oid with
  | Some q =>
      match q_req_pool_idx q with
      | None => mret tt
      | Some _ =>
          let '(q', pool) := release_kv_cache q (o_pool s) in
          _ ← update_req oid (fun _ => q'); assign_to o_pool pool
      end
  | None => mret tt
  end.

Definition release_immediate_request_resources (rid : string) : OM unit :=
  s ← get;
  mforeach release_request_kv_cache (unseen [] (List.filter (rid_is s rid) (batch_oids s))).

(** The last statements of an abort that does not wait for the terminal output. *)
Definition clean_up_now (rid : string) : OM unit :=
  s ← get;
  _ ← release_immediate_request_resources rid;
  _ ← remove_from_batch (o_running_batch s) rid;
  _ ← remove_from_batch (o_cur_batch s) rid;
  _ ← remove_from_batch (o_last_batch s) rid;
  remove_from_batch (o_async_pending s) rid.

Definition abort (rid : string) (defer_running_cleanup : bool) : OM unit :=
  _ ← remember_aborted rid;
  running_abort ← (if defer_running_cleanup then mark_running_request_aborted rid
                   else mret false);
  _ ← drop_pending_work rid;
  _ ← drop_waiting rid;
  _ ← (if running_abort : bool then mret tt else run_abort_callback rid);
  _ ← drop_buffers rid;
  _ ← emit_model_path_end_once rid "aborted";
  _ ← drop_prefill_marks rid;
  _ ← (if running_abort : bool then mret tt else clean_up_now rid);
  drain_inbox_for_request rid.
End Abort.

(** ** Running the operations *)

Lemma bind_run {A B} (m : OM A) (f : A → OM B) s a s' :
  m s = (Ok a, s') → (m ≫= f) s = f a s'.
Proof. intros H. unfold mbind, M_bind. by rewrite H. Qed.

(** Compute the updates of a destructed scheduler. *)
Ltac norm_omni :=
  cbv beta iota delta [assign o_reqs o_datas o_batches o_running_batch o_cur_batch o_last_batch o_async_pending
    o_waiting_queue o_aborted_ids o_aborted_order o_completed_ids o_stream_ingress
    o_request_updates o_deferred_payloads o_dirty_deferred o_request_builds
    o_request_admissions o_backlog o_inbox o_outbox o_first_emit_done
    o_prefill_start_done o_prefill_end_done o_path_ends o_abort_callbacks o_pool].

Definition detach_in (l : list nat) (m : gmap nat ReqObj) : gmap nat ReqObj :=
  foldl (fun m oid => alter (assign q_data None) oid m) m l.

Lemma lookup_detach_in l m oid :
  detach_in l m !! oid =
    if bool_decide (oid ∈ l) then assign q_data None <$> m !! oid else m !! oid.
Proof.
  revert m. induction l as [|x l IH]; intros m; simpl; [done|]. rewrite IH.
  destruct (decide (oid = x)) as [->|Hne].
  - rewrite lookup_alter_eq, (bool_decide_eq_true_2 (x ∈ x :: l)) by constructor.
    case_bool_decide; [|done]. rewrite <- option_fmap_compose. by destruct (m !! x).
  - rewrite lookup_alter_ne by done. repeat case_bool_decide; set_solver.
Qed.

Lemma detach_all_run l s :
  mforeach detach_request_data l s = (Ok tt, s <| o_reqs := detach_in l (o_reqs s) |>).
Proof.
  revert s. induction l as [|x l IH]; intros s; simpl; [by destruct s|].
  erewrite bind_run by reflexivity. rewrite IH. by destruct s.
Qed.

(** Requests keep their identifiers. *)
Definition same_rids (m m' : gmap nat ReqObj) : Prop :=
  ∀ oid, q_rid <$> m' !! oid = q_rid <$> m !! oid.

Lemma same_rids_refl m : same_rids m m.
Proof. done. Qed.

Lemma same_rids_trans m1 m2 m3 : same_rids m1 m2 → same_rids m2 m3 → same_rids m1 m3.
Proof. intros H1 H2 oid. by rewrite H2. Qed.

Lemma same_rids_detach l m : same_rids m (detach_in l m).
Proof.
  intros oid. rewrite lookup_detach_in. case_bool_decide; [|done]. by destruct (m !! oid).
Qed.

Lemma rid_is_same s s' rid oid :
  same_rids (o_reqs s) (o_reqs s') → rid_is s' rid oid = rid_is s rid oid.
Proof.
  intros H. specialize (H oid). unfold rid_is.
  destruct (o_reqs s' !! oid) as [q'|], (o_reqs s !! oid) as [q|]; simpl in H; try done.
  injection H as ->. done.
Qed.

Lemma filter_rid_same s s' rid l :
  same_rids (o_reqs s) (o_reqs s') →
  List.filter (rid_is s' rid) l = List.filter (rid_is s rid) l ∧
  List.filter (fun o => negb (rid_is s' rid o)) l =
    List.filter (fun o => negb (rid_is s rid o)) l.
Proof.
  intros H. split; apply List.filter_ext; intros a; by rewrite (rid_is_same s s').
Qed.

Lemma rid_is_true s rid oid :
  rid_is s rid oid = true ↔ ∃ q, o_reqs s !! oid = Some q ∧ q_rid q = rid.
Proof.
  unfold rid_is. destruct (o_reqs s !! oid); [rewrite bool_decide_eq_true|]; naive_solver.
Qed.

(** A batch without the request. *)
Definition without (s : Omni) (rid : string) (b : Batch) : Batch :=
  let remaining := List.filter (fun oid => negb (rid_is s rid oid)) (b_reqs b) in
  {| b_reqs := remaining;
     b_batch_is_full := match remaining with [] => false | _ => b_batch_is_full b end |}.

Lemma elem_of_lfilter {A} (f : A → bool) l x : x ∈ List.filter f l ↔ x ∈ l ∧ f x = true.
Proof. by rewrite !list_elem_of_In, List.filter_In. Qed.

#[global] Instance lfilter_proper {A} (f : A → bool) :
  Proper ((≡ₚ) ==> (≡ₚ)) (List.filter f).
Proof.
  induction 1 as [|x l k _ IH|x y l|l k m _ IH1 _ IH2]; simpl; [done| | |by rewrite IH1].
  - destruct (f x); [by rewrite IH|done].
  - destruct (f x), (f y); done || apply perm_swap.
Qed.

Lemma filter_idem {A} (f : A → bool) l : List.filter f (List.filter f l) = List.filter f l.
Proof.
  induction l as [|x l IH]; simpl; [done|]. destruct (f x) eqn:E; simpl; by rewrite ?E, IH.
Qed.

Lemma filter_negb_nil {A} (f : A → bool) l :
  List.filter f (List.filter (fun x => negb (f x)) l) = [].
Proof.
  induction l as [|x l IH]; simpl; [done|]. destruct (f x) eqn:E; simpl; by rewrite ?E, IH.
Qed.

Lemma without_idem s rid b : without s rid (without s rid b) = without s rid b.
Proof. unfold without. simpl. rewrite filter_idem. by destruct (List.filter _ _). Qed.

Definition in_slots (slots : list (option nat)) (bid : nat) : bool :=
  bool_decide (Some bid ∈ slots).

(** The batches of some slots without the request. *)
Definition without_in (s : Omni) (rid : string) (slots : list (option nat))
  (m : gmap nat Batch) : gmap nat Batch :=
  map_imap (fun bid b => Some (if in_slots slots bid then without s rid b else b)) m.

Lemma lookup_without_in s rid slots m bid :
  without_in s rid slots m !! bid =
    (fun b => if in_slots slots bid then without s rid b else b) <$> m !! bid.
Proof. unfold without_in. rewrite map_lookup_imap. by destruct (m !! bid). Qed.

Lemma without_in_id s rid slots m :
  (∀ bid, in_slots slots bid = true → m !! bid = None) → without_in s rid slots m = m.
Proof.
  intros H. apply map_eq. intros bid. rewrite lookup_without_in.
  destruct (in_slots slots bid) eqn:E; [by rewrite (H bid E)|]. by destruct (m !! bid).
Qed.

Lemma without_in_same s s1 rid slots m :
  same_rids (o_reqs s) (o_reqs s1) → without_in s1 rid slots m = without_in s rid slots m.
Proof.
  intros Hr. apply map_eq. intros bid. rewrite !lookup_without_in.
  destruct (m !! bid) as [b|]; [|done]. simpl. unfold without.
  by rewrite (proj2 (filter_rid_same s s1 rid (b_reqs b) Hr)).
Qed.

Lemma without_in_cons s s1 rid slot slots m :
  same_rids (o_reqs s) (o_reqs s1) →
  without_in s1 rid slots (without_in s rid [slot] m) = without_in s rid (slot :: slots) m.
Proof.
  intros Hr. rewrite (without_in_same s s1) by done.
  apply map_eq. intros bid. rewrite !lookup_without_in.
  destruct (m !! bid) as [b|]; [|done]. simpl. f_equal.
  unfold in_slots. repeat case_bool_decide; rewrite ?without_idem; set_solver.
Qed.

Lemma reqs_of_without_in s s' rid slots bid :
  o_batches s' = without_in s rid slots (o_batches s) →
  reqs_of s' bid = if in_slots slots bid
                   then List.filter (fun o => negb (rid_is s rid o)) (reqs_of s bid)
                   else reqs_of s bid.
Proof.
  intros H. unfold reqs_of. rewrite H, lookup_without_in.
  destruct (o_batches s !! bid); simpl; by destruct (in_slots slots bid).
Qed.

Definition slot_reqs (s : Omni) (slot : option nat) : list nat :=
  match slot with Some bid => reqs_of s bid | None => [] end.

Lemma remove_from_batch_run slot rid s :
  remove_from_batch slot rid s =
    (Ok tt, s <| o_reqs := detach_in (List.filter (rid_is s rid) (slot_reqs s slot)) (o_reqs s) |>
              <| o_batches := without_in s rid [slot] (o_batches s) |>).
Proof.
  assert (∀ slot', (∀ bid, slot' = Some bid → o_batches s !! bid = None) →
    without_in s rid [slot'] (o_batches s) = o_batches s) as Hid.
  { intros slot' H. apply without_in_id. unfold in_slots. intros bid.
    rewrite bool_decide_eq_true, list_elem_of_singleton. intros E. by apply H. }
  unfold remove_from_batch. erewrite bind_run by reflexivity.
  destruct slot as [bid|]; [|rewrite Hid by done; by destruct s].
  unfold slot_reqs, reqs_of. destruct (o_batches s !! bid) as [b|] eqn:Hb.
  2:{ rewrite Hid by naive_solver. by destruct s. }
  erewrite bind_run by apply detach_all_run. unfold modify. do 2 f_equal. fields.
  change (o_batches (s <| o_reqs := _ |>)) with (o_batches s).
  apply map_eq. intros bid'. rewrite lookup_without_in. unfold in_slots.
  destruct (decide (bid' = bid)) as [->|Hne].
  - rewrite lookup_insert_eq, Hb. simpl. by rewrite bool_decide_eq_true_2 by constructor.
  - rewrite lookup_insert_ne by done. destruct (o_batches s !! bid'); [|done]. simpl.
    rewrite bool_decide_eq_false_2; [done|]. intros [= ?]%list_elem_of_singleton. congruence.
Qed.

(** The request sits in one of the slots. *)
Definition held (s : Omni) (rid : string) (slots : list (option nat)) (oid : nat) : bool :=
  rid_is s rid oid && existsb (fun slot => bool_decide (oid ∈ slot_reqs s slot)) slots.

Lemma held_same s s1 rid slots oid :
  same_rids (o_reqs s) (o_reqs s1) → o_batches s1 = o_batches s →
  held s1 rid slots oid = held s rid slots oid.
Proof.
  intros Hr Hb. unfold held. rewrite (rid_is_same s s1) by done. f_equal.
  induction slots as [|slot slots IH]; simpl; [done|]. rewrite IH. f_equal.
  unfold slot_reqs, reqs_of. by rewrite Hb.
Qed.

Lemma held_after_one s s1 rid slot slots oid :
  same_rids (o_reqs s) (o_reqs s1) →
  o_batches s1 = without_in s rid [slot] (o_batches s) →
  held s1 rid slots oid || held s rid [slot] oid = held s rid (slot :: slots) oid.
Proof.
  intros Hr Hb. unfold held. rewrite (rid_is_same s s1) by done.
  destruct (rid_is s rid oid) eqn:Ho; simpl; [|done]. rewrite orb_false_r.
  destruct (decide (oid ∈ slot_reqs s slot)) as [H|H].
  { rewrite (bool_decide_eq_true_2 _ H). by rewrite orb_true_r. }
  rewrite (bool_decide_eq_false_2 _ H). rewrite orb_false_r. simpl.
  induction slots as [|slot' slots IH]; simpl; [done|]. rewrite IH. f_equal.
  apply bool_decide_ext. destruct slot' as [bid|]; simpl; [|done].
  rewrite (reqs_of_without_in s s1 rid [slot] bid) by done.
  destruct (in_slots [slot] bid) eqn:E; [|done].
  unfold in_slots in E. apply bool_decide_eq_true, list_elem_of_singleton in E as <-.
  simpl in H. rewrite elem_of_lfilter, Ho. simpl. naive_solver.
Qed.

Lemma remove_from_batches_run slots rid s :
  ∃ m, mforeach (fun slot => remove_from_batch slot rid) slots s =
         (Ok tt, s <| o_reqs := m |>
                   <| o_batches := without_in s rid slots (o_batches s) |>) ∧
    ∀ oid, m !! oid = if held s rid slots oid then assign q_data None <$> o_reqs s !! oid
                      else o_reqs s !! oid.
Proof.
  revert s. induction slots as [|slot slots IH]; intros s.
  { exists (o_reqs s). split; [|intros oid; unfold held; by rewrite andb_false_r].
    rewrite without_in_id; [by destruct s|]. intros bid. unfold in_slots.
    rewrite bool_decide_eq_true. by intros ?%not_elem_of_nil. }
  cbn [mforeach]. rewrite (bind_run _ _ _ _ _ (remove_from_batch_run slot rid s)).
  set (s1 := s <| o_reqs := _ |> <| o_batches := _ |>).
  assert (same_rids (o_reqs s) (o_reqs s1)) as Hr by apply same_rids_detach.
  destruct (IH s1) as (m & -> & Hm). exists m. split.
  - f_equal. change (o_batches s1) with (without_in s rid [slot] (o_batches s)).
    by rewrite (without_in_cons s s1) by done.
  - intros oid. rewrite Hm, <- (held_after_one s s1) by done.
    change (o_reqs s1) with (detach_in (List.filter (rid_is s rid) (slot_reqs s slot)) (o_reqs s)).
    rewrite lookup_detach_in.
    assert (held s rid [slot] oid = bool_decide (oid ∈ List.filter (rid_is s rid)
      (slot_reqs s slot))) as ->.
    { unfold held. simpl. rewrite orb_false_r. apply eq_true_iff_eq.
      rewrite andb_true_iff, !bool_decide_eq_true, elem_of_lfilter. tauto. }
    case_bool_decide; [|by rewrite orb_false_r]. rewrite orb_true_r.
    destruct (held s1 rid slots oid); [|done]. by destruct (o_reqs s !! oid).
Qed.

(** ** The table of aborted requests *)

Definition aborted_ok (s : Omni) : Prop :=
  NoDup (o_aborted_order s) ∧ o_aborted_ids s = list_to_set (o_aborted_order s) ∧
  Z.of_nat (size (o_aborted_ids s)) ≤ ABORTED_REQUEST_ID_LIMIT.

Lemma evict_aborted_ok order ids :
  NoDup order → ids = list_to_set order →
  ∃ k, evict_aborted order ids = Ok (drop k order, list_to_set (drop k order)) ∧
    Z.of_nat (length (drop k order)) < ABORTED_REQUEST_ID_RETAINED.
Proof.
  revert ids. induction order as [|rid order IH]; intros ids Hnd Hids; simpl.
  { exists 0%nat. subst ids. split; [|simpl; unfold ABORTED_REQUEST_ID_RETAINED; lia].
    reflexivity. }
  subst ids. assert (size (list_to_set (rid :: order) : gset string) = length (rid :: order))
    as Hs by by apply size_list_to_set.
  destruct (Z.of_nat (size _) <? ABORTED_REQUEST_ID_RETAINED) eqn:E.
  { exists 0%nat. split; [done|]. rewrite Hs in E. reflect_bool. done. }
  apply NoDup_cons in Hnd as [Hn Hnd].
  destruct (IH (list_to_set (rid :: order) ∖ {[rid]}) Hnd) as (k & -> & Hk).
  { simpl. apply set_eq. intros x. rewrite elem_of_difference, elem_of_union.
    rewrite elem_of_singleton, elem_of_list_to_set. naive_solver. }
  by exists (S k).
Qed.

Lemma remember_aborted_run rid s :
  aborted_ok s →
  ∃ ids order, remember_aborted rid s =
      (Ok tt, s <| o_aborted_ids := ids |> <| o_aborted_order := order |>) ∧
    rid ∈ ids ∧ ids ⊆ o_aborted_ids s ∪ {[rid]} ∧ aborted_ok (s <| o_aborted_ids := ids |> <| o_aborted_order := order |>).
Proof.
  intros (Hnd & Hids & Hle). unfold remember_aborted. erewrite bind_run by reflexivity.
  case_bool_decide as Hr.
  { exists (o_aborted_ids s), (o_aborted_order s). split; [by destruct s|].
    split_and!; [done|set_solver|done..]. }
  assert (∀ k, Z.of_nat (length (drop k (o_aborted_order s))) < ABORTED_REQUEST_ID_LIMIT →
    ∃ ids order,
      (_ ← assign_to o_aborted_ids (list_to_set (drop k (o_aborted_order s)) ∪ {[rid]});
       assign_to o_aborted_order (drop k (o_aborted_order s) ++ [rid])) s =
        (Ok tt, s <| o_aborted_ids := ids |> <| o_aborted_order := order |>) ∧
      rid ∈ ids ∧ ids ⊆ o_aborted_ids s ∪ {[rid]} ∧
      aborted_ok (s <| o_aborted_ids := ids |> <| o_aborted_order := order |>))
    as Hadd.
  { intros k Hk. do 2 eexists. split; [reflexivity|]. split; [set_solver|]. split.
    { intros x. rewrite Hids, !elem_of_union, !elem_of_list_to_set.
      intros [Hx|Hx]; [left; by apply subseteq_drop in Hx|by right]. }
    assert (NoDup (drop k (o_aborted_order s) ++ [rid])) as Hnd'.
    { apply NoDup_app. split_and!; [|intros x Hx ->%list_elem_of_singleton|apply NoDup_singleton].
      - eapply sublist_NoDup; [exact Hnd|]. apply sublist_drop.
      - apply Hr. rewrite Hids, elem_of_list_to_set. by apply subseteq_drop in Hx. }
    assert (list_to_set (drop k (o_aborted_order s)) ∪ {[rid]} =
      (list_to_set (drop k (o_aborted_order s) ++ [rid]) : gset string)) as Heq.
    { rewrite list_to_set_app_L. simpl. by rewrite union_empty_r_L. }
    unfold aborted_ok. fields. split_and!; [done|done|].
    rewrite Heq, size_list_to_set, length_app by done. simpl. lia. }
  destruct (_ <=? _) eqn:Hlim.
  - destruct (evict_aborted_ok _ _ Hnd Hids) as (k & Hev & Hk).
    erewrite bind_run by (unfold lift; by rewrite Hev).
    apply Hadd. unfold ABORTED_REQUEST_ID_LIMIT, ABORTED_REQUEST_ID_RETAINED in *. lia.
  - erewrite bind_run by reflexivity. reflect_bool. cbv beta iota.
    pose proof (Hadd 0%nat) as H0. rewrite drop_0, <- Hids in H0. apply H0.
    by rewrite Hids, size_list_to_set in Hlim.
Qed.

(** ** Releasing KV rows *)

Section Release.
Context (release_kv_cache : ReqObj → Pool → ReqObj * Pool).

(** Upstream gives the row back and leaves the request itself alone, its own attributes
    apart. *)
Definition release_law : Prop :=
  ∀ q pool, ∃ ext, (release_kv_cache q pool).1 =
    q <| q_req_pool_idx := None |> <| q_ext := ext |>.

Definition holding (s : Omni) (oid : nat) : bool :=
  match o_reqs s !! oid ≫= q_req_pool_idx with Some _ => true | None => false end.

(** The pool after the rows of some requests went back, one after the other. *)
Definition released (s : Omni) (l : list nat) (pool : Pool) : Pool :=
  foldl (fun pool oid => match o_reqs s !! oid with
                         | Some q => (release_kv_cache q pool).2
                         | None => pool
                         end) pool l.

Lemma released_ext s s' l pool :
  Forall (fun oid => o_reqs s' !! oid = o_reqs s !! oid) l →
  released s' (List.filter (holding s') l) pool = released s (List.filter (holding s) l) pool.
Proof.
  intros H. revert pool. induction H as [|x l Hx _ IH]; intros pool; [done|]. simpl.
  assert (holding s' x = holding s x) as -> by (unfold holding; by rewrite Hx).
  destruct (holding s x); [|apply IH]. unfold released. simpl. rewrite Hx. apply IH.
Qed.

Lemma release_all_run l s :
  release_law → NoDup l →
  ∃ m, mforeach (release_request_kv_cache release_kv_cache) l s =
         (Ok tt, s <| o_reqs := m |> <| o_pool := released s (List.filter (holding s) l) (o_pool s) |>) ∧
    (∀ oid, oid ∉ l → m !! oid = o_reqs s !! oid) ∧
    (∀ oid q, oid ∈ l → o_reqs s !! oid = Some q →
       ∃ ext, m !! oid = Some (q <| q_req_pool_idx := None |> <| q_ext := ext |>)).
Proof.
  intros Hlaw. revert s. induction l as [|x l IH]; intros s Hnd.
  { exists (o_reqs s). split; [by destruct s|]. split; [done|]. by intros oid q ?%not_elem_of_nil. }
  apply NoDup_cons in Hnd as [Hx Hnd]. cbn [mforeach List.filter].
  assert (∃ s1, release_request_kv_cache release_kv_cache x s = (Ok tt, s1) ∧
    s1 = s <| o_reqs := o_reqs s1 |> <| o_pool := o_pool s1 |> ∧
    (∀ oid, oid ≠ x → o_reqs s1 !! oid = o_reqs s !! oid) ∧
    (∀ q, o_reqs s !! x = Some q →
       ∃ ext, o_reqs s1 !! x = Some (q <| q_req_pool_idx := None |> <| q_ext := ext |>)) ∧
    o_pool s1 = if holding s x then released s [x] (o_pool s) else o_pool s)
    as (s1 & Hrun & E1 & Hne & Hq & Hp).
  { unfold release_request_kv_cache, holding, released. erewrite bind_run by reflexivity.
    destruct (o_reqs s !! x) as [q|] eqn:Eq; simpl.
    2:{ exists s. split_and!; [done|by destruct s|done|done|done]. }
    destruct (q_req_pool_idx q) as [i|] eqn:Ei.
    - specialize (Hlaw q (o_pool s)). destruct (release_kv_cache q (o_pool s)) as [q' pool] eqn:Er.
      eexists. split; [reflexivity|]. fields. split_and!; [by destruct s| | |by rewrite Eq, Er].
      + intros oid Ho. by rewrite lookup_alter_ne.
      + intros q0 [= <-]. rewrite lookup_alter_eq, Eq. simpl. destruct Hlaw as [ext ->].
        by exists ext.
    - exists s. split_and!; [done|by destruct s|done| |done]. intros q0 [= <-].
      exists (q_ext q). rewrite Eq. f_equal. destruct q. simpl in Ei. by subst. }
  destruct (IH s1 Hnd) as (m & Hm & Hout & Hin). exists m.
  rewrite (bind_run _ _ _ _ _ Hrun), Hm. split_and!.
  - rewrite (released_ext s s1), Hp.
    2:{ apply Forall_forall. intros oid Ho. apply Hne. by intros ->. }
    f_equal. rewrite E1. by destruct s, (holding _ x).
  - intros oid Ho. rewrite Hout by set_solver. apply Hne. set_solver.
  - intros oid q Ho Eq. apply elem_of_cons in Ho as [->|Ho].
    + rewrite Hout by done. by apply Hq.
    + apply Hin; [done|]. rewrite Hne by (intros ->; done). done.
Qed.

(** ** What an immediate abort leaves behind *)

Lemma unseen_spec seen l :
  NoDup (unseen seen l) ∧ ∀ x, x ∈ unseen seen l ↔ x ∈ l ∧ x ∉ seen.
Proof.
  revert seen. induction l as [|y l IH]; intros seen; simpl.
  { split; [apply NoDup_nil_2|]. intros x. split; [intros H|intros [H _]]; by apply not_elem_of_nil in H. }
  case_bool_decide as Hy.
  - destruct (IH seen) as [Hn H]. split; [done|]. intros x. rewrite H, elem_of_cons. naive_solver.
  - destruct (IH (y :: seen)) as [Hn H]. split.
    + apply NoDup_cons. split; [|done]. rewrite H. set_solver.
    + intros x. rewrite !elem_of_cons, H, elem_of_cons.
      destruct (decide (x = y)); naive_solver.
Qed.

Definition slots (s : Omni) : list (option nat) :=
  [o_running_batch s; o_cur_batch s; o_last_batch s; o_async_pending s].

Lemma in_slots_iff s bid : in_slots (slots s) bid = true ↔ bid ∈ batch_slots s.
Proof.
  unfold in_slots, batch_slots. fold (slots s).
  rewrite bool_decide_eq_true, list_elem_of_omap. unfold id. naive_solver.
Qed.

Lemma batch_oids_iff s oid :
  oid ∈ batch_oids s ↔ ∃ bid, bid ∈ batch_slots s ∧ oid ∈ reqs_of s bid.
Proof.
  unfold batch_oids. rewrite list_elem_of_In, in_concat. setoid_rewrite in_map_iff.
  setoid_rewrite list_elem_of_In. naive_solver.
Qed.

Lemma held_iff s rid oid :
  held s rid (slots s) oid = true ↔ rid_is s rid oid = true ∧ oid ∈ batch_oids s.
Proof.
  unfold held. rewrite andb_true_iff, existsb_exists, batch_oids_iff.
  unfold batch_slots. fold (slots s). setoid_rewrite list_elem_of_omap. unfold id.
  split.
  - intros (H & slot & Hs & Ho%bool_decide_eq_true). split; [done|].
    destruct slot as [bid|]; simpl in Ho; [|by apply not_elem_of_nil in Ho].
    exists bid. split; [|done]. exists (Some bid). by rewrite list_elem_of_In.
  - intros (H & bid & (x & Hx & ->) & Ho). split; [done|]. exists (Some bid).
    rewrite <- list_elem_of_In. split; [done|]. by apply bool_decide_eq_true.
Qed.

(** No trace of the request is left but its place in the table of aborted ones. *)
Definition forgotten (rid : string) (s : Omni) : Prop :=
  rid ∈ o_aborted_ids s ∧
  (∀ oid, oid ∈ batch_oids s ++ o_waiting_queue s → rid_is s rid oid = false) ∧
  od_get rid (o_request_builds s) = None ∧ od_get rid (o_request_admissions s) = None ∧
  Forall (fun p => p_request_id p ≠ rid) (o_backlog s) ∧
  od_get rid (o_stream_ingress s) = None ∧ od_get rid (o_request_updates s) = None ∧
  od_get rid (o_deferred_payloads s) = None ∧ rid ∉ o_dirty_deferred s ∧
  rid ∉ o_first_emit_done s ∧ rid ∉ o_prefill_start_done s ∧ rid ∉ o_prefill_end_done s ∧
  Forall (fun m => msg_rid m ≠ rid) (o_inbox s).

(** Everything that is not the request's is untouched, in its place. *)
Definition others_kept (rid : string) (s s' : Omni) : Prop :=
  slots s' = slots s ∧
  (∀ oid, rid_is s rid oid = false → o_reqs s' !! oid = o_reqs s !! oid) ∧
  (∀ bid, reqs_of s' bid = if bool_decide (bid ∈ batch_slots s)
                           then List.filter (fun o => negb (rid_is s rid o)) (reqs_of s bid)
                           else reqs_of s bid) ∧
  o_waiting_queue s' = List.filter (fun o => negb (rid_is s rid o)) (o_waiting_queue s) ∧
  o_backlog s' = List.filter (fun p => negb (bool_decide (p_request_id p = rid))) (o_backlog s) ∧
  o_inbox s' = List.filter (fun m => negb (bool_decide (msg_rid m = rid))) (o_inbox s) ∧
  o_request_builds s' = od_pop rid (o_request_builds s) ∧
  o_request_admissions s' = od_pop rid (o_request_admissions s) ∧
  o_stream_ingress s' = od_pop rid (o_stream_ingress s) ∧
  o_request_updates s' = od_pop rid (o_request_updates s) ∧
  o_deferred_payloads s' = od_pop rid (o_deferred_payloads s) ∧
  o_datas s' = o_datas s ∧ o_outbox s' = o_outbox s ∧ o_completed_ids s' = o_completed_ids s.

(** The rows of the request's objects go back to the pool, each exactly once. *)
Definition rows_released (rid : string) (s s' : Omni) : Prop :=
  (∃ l, NoDup l ∧
     (∀ oid, oid ∈ l ↔ oid ∈ batch_oids s ∧ rid_is s rid oid = true ∧ holding s oid = true) ∧
     o_pool s' = released s l (o_pool s)) ∧
  (∀ oid q, oid ∈ batch_oids s → rid_is s rid oid = true → o_reqs s' !! oid = Some q →
     q_req_pool_idx q = None ∧ q_data q = None) ∧
  (∀ oid q, oid ∈ o_waiting_queue s → rid_is s rid oid = true → o_reqs s' !! oid = Some q →
     q_data q = None).

(** A queued request is in no batch. *)
Definition queue_disjoint (s : Omni) : Prop :=
  ∀ oid, oid ∈ o_waiting_queue s → oid ∉ batch_oids s.

Lemma bind_mret_tt (m : OM unit) s : (m ≫= fun _ => mret tt) s = m s.
Proof. unfold mbind, M_bind. destruct (m s) as [[[]|e] s']; done. Qed.

Lemma clean_up_now_run rid s :
  release_law →
  let L := unseen [] (List.filter (rid_is s rid) (batch_oids s)) in
  ∃ m, clean_up_now release_kv_cache rid s =
      (Ok tt, s <| o_reqs := m |>
                <| o_pool := released s (List.filter (holding s) L) (o_pool s) |>
                <| o_batches := without_in s rid (slots s) (o_batches s) |>) ∧
    (∀ oid, held s rid (slots s) oid = false → m !! oid = o_reqs s !! oid) ∧
    (∀ oid q, held s rid (slots s) oid = true → o_reqs s !! oid = Some q →
       ∃ ext, m !! oid = Some (q <| q_req_pool_idx := None |> <| q_ext := ext |>
                                 <| q_data := None |>)).
Proof.
  intros Hlaw L. destruct (unseen_spec [] (List.filter (rid_is s rid) (batch_oids s))) as [Hnd Hin].
  fold L in Hnd, Hin.
  destruct (release_all_run L s Hlaw Hnd) as (m & Hm & Hout & Hins).
  assert (∀ oid, held s rid (slots s) oid = bool_decide (oid ∈ L)) as HL.
  { intros oid. apply eq_true_iff_eq. rewrite held_iff, bool_decide_eq_true, Hin, elem_of_lfilter.
    set_solver. }
  set (s1 := s <| o_reqs := m |> <| o_pool := released s (List.filter (holding s) L) (o_pool s) |>).
  assert (same_rids (o_reqs s) (o_reqs s1)) as Hr.
  { intros oid. change (o_reqs s1) with m. destruct (decide (oid ∈ L)); [|by rewrite Hout].
    destruct (o_reqs s !! oid) as [q|] eqn:Eq.
    - by destruct (Hins _ q e Eq) as [ext ->].
    - apply Hin in e as [[_ He]%elem_of_lfilter _]. unfold rid_is in He. by rewrite Eq in He. }
  destruct (remove_from_batches_run (slots s) rid s1) as (m' & Hrun & Hm').
  exists m'. unfold clean_up_now. erewrite bind_run by reflexivity.
  erewrite bind_run by (unfold release_immediate_request_resources; erewrite bind_run by reflexivity;
    exact Hm).
  fold s1. split; [|split].
  - etransitivity; [|etransitivity; [exact Hrun|]].
    + unfold slots. cbn [mforeach]. unfold mbind, M_bind.
      destruct (remove_from_batch (o_running_batch s) rid s1) as [[[]|] ?]; [|done].
      destruct (remove_from_batch (o_cur_batch s) rid _) as [[[]|] ?]; [|done].
      destruct (remove_from_batch (o_last_batch s) rid _) as [[[]|] ?]; [|done].
      by destruct (remove_from_batch (o_async_pending s) rid _) as [[[]|] ?].
    + by rewrite (without_in_same s s1) by done.
  - intros oid Ho. rewrite Hm', (held_same s s1), Ho by done. apply Hout.
    rewrite HL in Ho. by apply bool_decide_eq_false in Ho.
  - intros oid q Ho Eq. rewrite Hm', (held_same s s1), Ho by done.
    rewrite HL in Ho. apply bool_decide_eq_true in Ho.
    destruct (Hins oid q Ho Eq) as [ext He]. exists ext.
    change (o_reqs s1) with m. by rewrite He.
Qed.

(** The state an immediate abort cleans up: the request is queued and buffered nowhere. *)
Definition unqueued (rid : string) (s s1 : Omni) : Prop :=
  (∀ oid, o_reqs s1 !! oid =
     if bool_decide (oid ∈ o_waiting_queue s) && rid_is s rid oid
     then assign q_data None <$> o_reqs s !! oid else o_reqs s !! oid) ∧
  o_batches s1 = o_batches s ∧ slots s1 = slots s ∧ o_pool s1 = o_pool s ∧
  rid ∈ o_aborted_ids s1 ∧
  o_waiting_queue s1 = List.filter (fun o => negb (rid_is s rid o)) (o_waiting_queue s) ∧
  o_request_builds s1 = od_pop rid (o_request_builds s) ∧
  o_request_admissions s1 = od_pop rid (o_request_admissions s) ∧
  o_backlog s1 = List.filter (fun p => negb (bool_decide (p_request_id p = rid))) (o_backlog s) ∧
  o_stream_ingress s1 = od_pop rid (o_stream_ingress s) ∧
  o_request_updates s1 = od_pop rid (o_request_updates s) ∧
  o_deferred_payloads s1 = od_pop rid (o_deferred_payloads s) ∧
  o_dirty_deferred s1 = o_dirty_deferred s ∖ {[rid]} ∧
  o_first_emit_done s1 = o_first_emit_done s ∖ {[rid]} ∧
  rid ∉ o_prefill_start_done s1 ∧ rid ∉ o_prefill_end_done s1 ∧
  o_datas s1 = o_datas s ∧ o_outbox s1 = o_outbox s ∧ o_completed_ids s1 = o_completed_ids s ∧
  o_inbox s1 = o_inbox s.

Lemma emit_model_path_end_once_run rid status s :
  ∃ P E, emit_model_path_end_once rid status s =
    (Ok tt, s <| o_prefill_start_done := P |> <| o_path_ends := E |>).
Proof.
  unfold emit_model_path_end_once. erewrite bind_run by reflexivity.
  case_bool_decide; [do 2 eexists; reflexivity|].
  exists (o_prefill_start_done s), (o_path_ends s). by destruct s.
Qed.

Lemma unqueue_run rid s :
  aborted_ok s →
  ∃ s1, abort release_kv_cache rid false s =
      (_ ← clean_up_now release_kv_cache rid; drain_inbox_for_request rid) s1 ∧
    unqueued rid s s1.
Proof.
  intros Hok. destruct (remember_aborted_run rid s Hok) as (ids & order & Hrun & Hin & _ & _).
  unfold abort. rewrite (bind_run _ _ _ _ _ Hrun). clear Hrun Hok.
  destruct s. norm_omni.
  erewrite bind_run by reflexivity. erewrite bind_run by reflexivity. norm_omni.
  erewrite bind_run.
  2:{ unfold drop_waiting. erewrite bind_run by reflexivity.
      erewrite bind_run by apply detach_all_run. reflexivity. }
  norm_omni.
  erewrite bind_run by reflexivity. norm_omni. erewrite bind_run by reflexivity. norm_omni.
  match goal with |- context [(emit_model_path_end_once rid "aborted" ≫= _) ?s4] =>
    destruct (emit_model_path_end_once_run rid "aborted" s4) as (P & E & He) end.
  rewrite (bind_run _ _ _ _ _ He). clear He. norm_omni.
  erewrite bind_run by reflexivity. norm_omni. eexists. split; [reflexivity|].
  unfold unqueued, slots. norm_omni.
  repeat apply conj; try reflexivity; [|exact Hin|set_solver..].
  intros oid. rewrite lookup_detach_in.
  match goal with |- (if ?b then _ else _) = (if ?c then _ else _) => assert (b = c) as -> end;
    [|done].
  apply eq_true_iff_eq.
  rewrite andb_true_iff, !bool_decide_eq_true, elem_of_lfilter. done.
Qed.

Lemma unqueued_rids rid s s1 : unqueued rid s s1 → same_rids (o_reqs s) (o_reqs s1).
Proof.
  intros [H _] oid. rewrite H. destruct (_ && _); [|done]. by destruct (o_reqs s !! oid).
Qed.

Definition cleaned (rid : string) (s1 s' : Omni) : Prop :=
  (∀ oid, held s1 rid (slots s1) oid = false → o_reqs s' !! oid = o_reqs s1 !! oid) ∧
  (∀ oid q, held s1 rid (slots s1) oid = true → o_reqs s1 !! oid = Some q →
     ∃ ext, o_reqs s' !! oid = Some (q <| q_req_pool_idx := None |> <| q_ext := ext |>
                                       <| q_data := None |>)) ∧
  o_batches s' = without_in s1 rid (slots s1) (o_batches s1) ∧
  o_pool s' = released s1 (List.filter (holding s1)
                (unseen [] (List.filter (rid_is s1 rid) (batch_oids s1)))) (o_pool s1) ∧
  o_inbox s' = List.filter (fun m => negb (bool_decide (msg_rid m = rid))) (o_inbox s1) ∧
  s' = s1 <| o_reqs := o_reqs s' |> <| o_batches := o_batches s' |> <| o_pool := o_pool s' |>
          <| o_inbox := o_inbox s' |>.

Lemma cleaned_rids rid s1 s' : cleaned rid s1 s' → same_rids (o_reqs s1) (o_reqs s').
Proof.
  intros (Hout & Hin & _) oid. destruct (held s1 rid (slots s1) oid) eqn:E.
  - destruct (o_reqs s1 !! oid) as [q|] eqn:Eq.
    + by destruct (Hin _ _ E Eq) as [ext ->].
    + unfold held, rid_is in E. by rewrite Eq in E.
  - by rewrite Hout.
Qed.

Lemma clean_up_cleaned rid s1 :
  release_law →
  ∃ s', (_ ← clean_up_now release_kv_cache rid; drain_inbox_for_request rid) s1 = (Ok tt, s') ∧
    cleaned rid s1 s'.
Proof.
  intros Hlaw. destruct (clean_up_now_run rid s1 Hlaw) as (m & Hrun & Hout & Hin).
  rewrite (bind_run _ _ _ _ _ Hrun). eexists. split; [reflexivity|].
  split_and!; [exact Hout|exact Hin|reflexivity..|by destruct s1].
Qed.

Lemma not_held_filter s1 rid l :
  Forall (fun o => rid_is s1 rid o = false) (List.filter (fun o => negb (rid_is s1 rid o)) l).
Proof.
  apply Forall_forall. intros o [_ H]%elem_of_lfilter. by apply negb_true_iff in H.
Qed.

Lemma cleaned_reqs_of rid s1 s' bid :
  cleaned rid s1 s' →
  reqs_of s' bid = if bool_decide (bid ∈ batch_slots s1)
                   then List.filter (fun o => negb (rid_is s1 rid o)) (reqs_of s1 bid)
                   else reqs_of s1 bid.
Proof.
  intros (_ & _ & Hb & _). rewrite (reqs_of_without_in s1 s' rid (slots s1)) by done.
  pose proof (in_slots_iff s1 bid) as H. case_bool_decide as Hd.
  - by rewrite (proj2 H Hd).
  - destruct (in_slots (slots s1) bid); [|done]. by destruct Hd; apply H.
Qed.

Lemma abort_now_forgotten rid s s1 s' : unqueued rid s s1 → cleaned rid s1 s' → forgotten rid s'.
Proof.
  intros Hu Hc. pose proof (unqueued_rids _ _ _ Hu) as Hr1. pose proof (cleaned_rids _ _ _ Hc) as Hr.
  pose proof (fun bid => cleaned_reqs_of rid s1 s' bid Hc) as Hbs.
  destruct Hc as (_ & _ & _ & _ & Hi & E).
  destruct Hu as (_ & _ & _ & _ & Hab & Hw & H1 & H2 & H3 & H4 & H5 & H6 & H7 & H8 & H9 & H10 & _).
  unfold forgotten.
  rewrite (eq_trans (f_equal o_request_builds E) H1),
    (eq_trans (f_equal o_request_admissions E) H2), (eq_trans (f_equal o_backlog E) H3),
    (eq_trans (f_equal o_stream_ingress E) H4), (eq_trans (f_equal o_request_updates E) H5),
    (eq_trans (f_equal o_deferred_payloads E) H6), (eq_trans (f_equal o_dirty_deferred E) H7),
    (eq_trans (f_equal o_first_emit_done E) H8), Hi, !od_get_pop.
  split_and!; try reflexivity.
  - by rewrite (f_equal o_aborted_ids E).
  - intros oid Ho. rewrite (rid_is_same s1 s') by done. apply elem_of_app in Ho as [Ho|Ho].
    + apply batch_oids_iff in Ho as (bid & Hbid & Ho). rewrite Hbs in Ho.
      rewrite bool_decide_eq_true_2 in Ho.
      * apply elem_of_lfilter in Ho as [_ Ho]. by apply negb_true_iff in Ho.
      * revert Hbid. by rewrite E.
    + rewrite (eq_trans (f_equal o_waiting_queue E) Hw) in Ho.
      rewrite (rid_is_same s s1) by done. apply elem_of_lfilter in Ho as [_ Ho].
      by apply negb_true_iff in Ho.
  - apply Forall_forall. intros p [_ Hp]%elem_of_lfilter.
    apply negb_true_iff in Hp. by apply bool_decide_eq_false in Hp.
  - set_solver.
  - set_solver.
  - by rewrite (f_equal o_prefill_start_done E).
  - by rewrite (f_equal o_prefill_end_done E).
  - apply Forall_forall. intros p [_ Hp]%elem_of_lfilter.
    apply negb_true_iff in Hp. by apply bool_decide_eq_false in Hp.
Qed.

Lemma abort_now_others rid s s1 s' : unqueued rid s s1 → cleaned rid s1 s' → others_kept rid s s'.
Proof.
  intros Hu Hc. pose proof (unqueued_rids _ _ _ Hu) as Hr1.
  pose proof (fun bid => cleaned_reqs_of rid s1 s' bid Hc) as Hbs.
  destruct Hc as (Hout & _ & _ & _ & Hi & E).
  destruct Hu as (Hq & Hb & Hsl & _ & _ & Hw & H1 & H2 & H3 & H4 & H5 & H6 & _ & _ & _ & _ & H7 & H8 & H9 & H10).
  assert (batch_slots s1 = batch_slots s) as Hbsl.
  { unfold batch_slots. fold (slots s1). by rewrite Hsl. }
  unfold others_kept.
  rewrite (eq_trans (f_equal o_request_builds E) H1),
    (eq_trans (f_equal o_request_admissions E) H2),
    (eq_trans (f_equal o_stream_ingress E) H4), (eq_trans (f_equal o_request_updates E) H5),
    (eq_trans (f_equal o_deferred_payloads E) H6), (eq_trans (f_equal o_datas E) H7),
    (eq_trans (f_equal o_outbox E) H8), (eq_trans (f_equal o_completed_ids E) H9),
    (eq_trans (f_equal o_backlog E) H3), Hi, H10.
  split_and!; try reflexivity.
  - by rewrite E.
  - intros oid Ho. rewrite Hout, Hq, Ho; [by rewrite andb_false_r|].
    unfold held. by rewrite (rid_is_same s s1), Ho.
  - intros bid. rewrite Hbs, Hbsl, (proj2 (filter_rid_same s s1 rid _ Hr1)).
    unfold reqs_of. by rewrite Hb.
  - by rewrite (eq_trans (f_equal o_waiting_queue E) Hw).
Qed.

Lemma abort_now_rows rid s s1 s' :
  queue_disjoint s → unqueued rid s s1 → cleaned rid s1 s' → rows_released rid s s'.
Proof.
  intros Hdis Hu Hc. pose proof (unqueued_rids _ _ _ Hu) as Hr1.
  destruct Hc as (Hout & Hin & _ & Hp & _ & _). destruct Hu as (Hq & Hb & Hsl & Hpool & _).
  assert (batch_oids s1 = batch_oids s) as Hoids.
  { unfold batch_oids, batch_slots, reqs_of. fold (slots s1). by rewrite Hsl, Hb. }
  assert (∀ oid, oid ∈ batch_oids s → o_reqs s1 !! oid = o_reqs s !! oid) as Hsame.
  { intros oid Ho. rewrite Hq, bool_decide_eq_false_2; [done|]. intros Hw. by apply (Hdis oid). }
  rewrite Hoids, (proj1 (filter_rid_same s s1 rid _ Hr1)), Hpool in Hp.
  set (L := unseen [] (List.filter (rid_is s rid) (batch_oids s))) in Hp.
  destruct (unseen_spec [] (List.filter (rid_is s rid) (batch_oids s))) as [Hnd HL]. fold L in Hnd, HL.
  assert (∀ oid, oid ∈ L ↔ oid ∈ batch_oids s ∧ rid_is s rid oid = true) as HL'.
  { intros oid. rewrite HL, elem_of_lfilter. set_solver. }
  rewrite (released_ext s s1) in Hp.
  2:{ apply Forall_forall. intros oid Ho. by apply Hsame, HL'. }
  split; [|split].
  - exists (List.filter (holding s) L). split_and!; [|intros oid|done].
    + apply NoDup_ListNoDup, List.NoDup_filter. by apply NoDup_ListNoDup.
    + rewrite elem_of_lfilter, HL'. tauto.
  - intros oid q Ho Hrid Eq. assert (held s1 rid (slots s1) oid = true) as Hh.
    { apply held_iff. by rewrite Hoids, (rid_is_same s s1). }
    destruct (o_reqs s1 !! oid) as [q1|] eqn:Eq1.
    + destruct (Hin oid q1 Hh Eq1) as [ext He]. rewrite Eq in He. by injection He as ->.
    + unfold held, rid_is in Hh. by rewrite Eq1 in Hh.
  - intros oid q Ho Hrid Eq. assert (held s1 rid (slots s1) oid = false) as Hh.
    { apply not_true_iff_false. intros [_ Hh]%held_iff. rewrite Hoids in Hh. by apply (Hdis oid). }
    rewrite Hout, Hq, bool_decide_eq_true_2, Hrid in Eq by done. simpl in Eq.
    destruct (o_reqs s !! oid); [|done]. by injection Eq as <-.
Qed.

(** An object in no batch and not queued is left as it is. *)
Lemma abort_now_elsewhere rid s s1 s' oid :
  unqueued rid s s1 → cleaned rid s1 s' →
  oid ∉ batch_oids s → oid ∉ o_waiting_queue s → o_reqs s' !! oid = o_reqs s !! oid.
Proof.
  intros (Hq & Hb & Hsl & _) (Hout & _) Ho Hw.
  assert (batch_oids s1 = batch_oids s) as Hoids.
  { unfold batch_oids, batch_slots, reqs_of. fold (slots s1). by rewrite Hsl, Hb. }
  rewrite Hout, Hq.
  - by rewrite bool_decide_eq_false_2.
  - apply not_true_iff_false. intros [_ Hh]%held_iff. by rewrite Hoids in Hh.
Qed.

Lemma abort_now_run rid s :
  release_law → aborted_ok s → queue_disjoint s →
  ∃ s', abort release_kv_cache rid false s = (Ok tt, s') ∧
    forgotten rid s' ∧ others_kept rid s s' ∧ rows_released rid s s' ∧
    ∀ oid, oid ∉ batch_oids s → oid ∉ o_waiting_queue s → o_reqs s' !! oid = o_reqs s !! oid.
Proof.
  intros Hlaw Hok Hdis. destruct (unqueue_run rid s Hok) as (s1 & -> & Hu).
  destruct (clean_up_cleaned rid s1 Hlaw) as (s' & -> & Hc). exists s'.
  split; [done|]. split_and!; [by eapply abort_now_forgotten|by eapply abort_now_others|
    by eapply abort_now_rows|].
  intros oid Ho Hw. exact (abort_now_elsewhere rid s s1 s' oid Hu Hc Ho Hw).
Qed.

(** No live request of this identifier is in a batch: what is there has finished, was
    retracted, or is claimed and detached. *)
Definition no_live_request (rid : string) (s : Omni) : Prop :=
  ∀ oid q, oid ∈ batch_oids s → o_reqs s !! oid = Some q → q_rid q = rid →
    if q_terminal_claimed q then q_data q = None else finished q || q_is_retracted q = true.

Lemma mark_reqs_none rid l s :
  (∀ oid q, oid ∈ l → o_reqs s !! oid = Some q → q_rid q = rid →
     if q_terminal_claimed q then q_data q = None else finished q || q_is_retracted q = true) →
  mark_reqs rid l s = (Ok false, s).
Proof.
  induction l as [|oid l IH]; intros H; [done|]. cbn [mark_reqs].
  assert (mark_req rid oid s = (Ok false, s)) as Hm.
  { unfold mark_req. erewrite bind_run by reflexivity.
    destruct (o_reqs s !! oid) as [q|] eqn:Eq; [|done].
    case_bool_decide as Hq; [|done]. simpl. specialize (H oid q). 
    destruct (q_terminal_claimed q); [by rewrite H by (done || constructor)|].
    by rewrite H by (done || constructor). }
  rewrite (bind_run _ _ _ _ _ Hm). erewrite bind_run; [reflexivity|].
  apply IH. intros. eapply H; [by constructor|done..].
Qed.

Lemma mark_running_none rid s :
  no_live_request rid s → mark_running_request_aborted rid s = (Ok false, s).
Proof.
  intros H. unfold mark_running_request_aborted. erewrite bind_run by reflexivity.
  apply mark_reqs_none. intros oid q Ho. apply H.
  revert Ho. unfold batch_oids. rewrite !list_elem_of_In, !in_concat.
  setoid_rewrite in_map_iff. intros (l & (bid & <- & Hb) & Ho).
  exists (reqs_of s bid). split; [|done]. exists bid. split; [done|].
  rewrite <- list_elem_of_In in Hb |- *. by apply unseen_spec in Hb as [? _].
Qed.

Lemma abort_deferred_run rid s :
  aborted_ok s → no_live_request rid s →
  abort release_kv_cache rid true s = abort release_kv_cache rid false s.
Proof.
  intros Hok Hl. destruct (remember_aborted_run rid s Hok) as (ids & order & Hrun & _).
  unfold abort. rewrite !(bind_run _ _ _ _ _ Hrun).
  erewrite bind_run by by apply mark_running_none. by erewrite bind_run by reflexivity.
Qed.
End Release.
End State.

(** ** Properties *)

(** C5: An immediate abort leaves no trace of the request in any batch, queue, table, buffer or
    inbox, keeps everything of the other requests in its place and order, and gives each KV row
    the request's objects hold back exactly once, though batches may be aliases of one another;
    a deferred abort of a request without live work is the same. *)
Theorem abort_forgets_request `{T : Types} release_kv_cache rid s :
  release_law release_kv_cache → aborted_ok s → queue_disjoint s →
  ∃ s', abort release_kv_cache rid false s = (Ok tt, s') ∧
    forgotten rid s' ∧ others_kept rid s s' ∧ rows_released release_kv_cache rid s s' ∧
    (no_live_request rid s → abort release_kv_cache rid true s = (Ok tt, s')).
Proof.
  intros Hlaw Hok Hdis. destruct (abort_now_run release_kv_cache rid s Hlaw Hok Hdis)
    as (s' & Hrun & Hf & Hk & Hr & _). exists s'. split_and!; [done..|].
  intros Hl. by rewrite abort_deferred_run.
Qed.

(** ** Witnesses *)

Definition demo_types : Types :=
  {| Chunk := Z; Update := Z; Body := unit; Ext := unit; Pool := list Z; StreamMsg := unit;
     Answer := unit; output_ids := fun _ => [] |}.
#[local] Existing Instance demo_types.

(** An upstream that gives a row back by listing it. *)
Definition demo_release (q : ReqObj) (pool : Pool) : ReqObj * Pool :=
  (q <| q_req_pool_idx := None |>, option_list (q_req_pool_idx q) ++ pool).

Definition demo_req (rid : string) (row : option Z) : ReqObj :=
  {| q_rid := rid; q_data := Some 0%nat; q_finished_reason := None; q_is_retracted := false;
     q_to_finish := false; q_terminal_claimed := false; q_req_pool_idx := row; q_input_len := 3;
     q_max_new_tokens := 4; q_ext := tt |}.

(** Request [a] runs in a batch that is both the running and the current one, [b] waits. *)
Definition demo_omni : Omni :=
  {| o_reqs := {[0%nat := demo_req "a" (Some 7); 1%nat := demo_req "b" None]};
     o_datas := ∅; o_batches := {[0%nat := {| b_reqs := [0%nat]; b_batch_is_full := true |}]};
     o_running_batch := Some 0%nat; o_cur_batch := Some 0%nat; o_last_batch := None;
     o_async_pending := None; o_waiting_queue := [1%nat]; o_aborted_ids := ∅;
     o_aborted_order := []; o_completed_ids := []; o_stream_ingress := [];
     o_request_updates := [("a", [5])]; o_deferred_payloads := []; o_dirty_deferred := ∅;
     o_request_builds := []; o_request_admissions := []; o_backlog := [];
     o_inbox := [MStreamChunk "a" 9; MStreamChunk "b" 8]; o_outbox := [];
     o_first_emit_done := ∅; o_prefill_start_done := ∅; o_prefill_end_done := ∅;
     o_path_ends := []; o_abort_callbacks := []; o_pool := [] |}.

Lemma demo_release_law : release_law demo_release.
Proof. intros q pool. exists (q_ext q). by destruct q. Qed.

Lemma demo_aborted_ok : aborted_ok demo_omni.
Proof. split_and!; [apply NoDup_nil_2|done|by vm_compute]. Qed.

Lemma demo_queue_disjoint : queue_disjoint demo_omni.
Proof.
  intros oid. change (oid ∈ [1%nat] → oid ∉ [0%nat; 0%nat]).
  intros ->%list_elem_of_singleton. set_solver.
Qed.

Lemma abort_forgets_request_witness :
  ∃ s', abort demo_release "a" false demo_omni = (Ok tt, s') ∧ forgotten "a" s' ∧
    others_kept "a" demo_omni s' ∧ o_pool s' = [7].
Proof.
  destruct (abort_forgets_request demo_release "a" demo_omni demo_release_law demo_aborted_ok
    demo_queue_disjoint) as (s' & E & Hf & Ho & _).
  exists s'. split; [exact E|]. split; [exact Hf|]. split; [exact Ho|].
  transitivity (o_pool (abort demo_release "a" false demo_omni).2); [by rewrite E|].
  by vm_compute.
Defined.
