(* ===== verification/Silent.v ===== *)
(** * The generic scheduler: what an abort leaves alone

    An abort of any request puts nothing on the outbox and keeps, of every request object, the
    identifier, the terminal state and whatever part of its attributes the upstream release
    keeps - the [view] of this file.  Lemmas shared by the terminal output and the realtime
    scheduler. *)
From S2P Require Import Prelude Odict OmniState.
Local Open Scope Z_scope.

(** Altering a stored object. *)
Lemma alter_lookup {A} (f : A → A) oid (m : gmap nat A) x y :
  m !! oid = Some x → f x = y → alter f oid m = <[oid := y]> m.
Proof.
  intros Hx <-. apply map_eq. intros i. destruct (decide (i = oid)) as [->|Hne].
  - by rewrite lookup_alter_eq, Hx, lookup_insert_eq.
  - by rewrite lookup_alter_ne, lookup_insert_ne.
Qed.

Section Silent.
Context {T : Types}.

(** No identifier was aborted or evicted. *)
Definition same_aborted (s s' : Omni) : Prop :=
  o_aborted_ids s' = o_aborted_ids s ∧ o_aborted_order s' = o_aborted_order s.

(** The data of every attached request exists. *)
Definition attached (s : Omni) : Prop :=
  ∀ oid q did, o_reqs s !! oid = Some q → q_data q = Some did → is_Some (o_datas s !! did).

Context {V : Type} (view : ReqObj → V).

(** The objects keep their identifier, their terminal state and the view, and no message is
    put. *)
Definition silent (s s' : Omni) : Prop :=
  o_outbox s' = o_outbox s ∧ o_datas s' = o_datas s ∧
  ∀ oid, match o_reqs s !! oid, o_reqs s' !! oid with
         | Some q, Some q' => q_rid q' = q_rid q ∧ q_terminal_claimed q' = q_terminal_claimed q ∧
                              q_finished_reason q' = q_finished_reason q ∧
                              view q' = view q ∧
                              (q_data q' = q_data q ∨ q_data q' = None)
         | None, None => True
         | _, _ => False
         end.

Lemma silent_refl s : silent s s.
Proof. split_and!; [done..|]. intros oid. destruct (o_reqs s !! oid); naive_solver. Qed.

Lemma silent_trans s1 s2 s3 : silent s1 s2 → silent s2 s3 → silent s1 s3.
Proof.
  intros (O1 & D1 & H1) (O2 & D2 & H2). split_and!; [congruence..|].
  intros oid. specialize (H1 oid). specialize (H2 oid).
  destruct (o_reqs s1 !! oid), (o_reqs s2 !! oid), (o_reqs s3 !! oid); try done.
  destruct H1 as (? & ? & ? & ? & Hd1), H2 as (? & ? & ? & ? & Hd2). split_and!; [congruence..|].
  destruct Hd2 as [->| ->]; auto.
Qed.

Lemma silent_attached s s' : silent s s' → attached s → attached s'.
Proof.
  intros (_ & D & Hr) Ha oid q' did Hq' Hd'. specialize (Hr oid). rewrite Hq' in Hr.
  destruct (o_reqs s !! oid) as [q|] eqn:Hq; [|done]. rewrite D.
  destruct Hr as (_ & _ & _ & _ & [E|E]); [|congruence]. eapply Ha; [done|]. congruence.
Qed.

Definition hushed {A} (m : M Omni A) : Prop :=
  ∀ s, ∃ a s', m s = (Ok a, s') ∧ silent s s' ∧ same_aborted s s'.

Lemma hushed_bind {A B} (m : M Omni A) (f : A → M Omni B) :
  hushed m → (∀ a, hushed (f a)) → hushed (m ≫= f).
Proof.
  intros Hm Hf s. destruct (Hm s) as (a & s1 & E & H1 & [A1 B1]).
  destruct (Hf a s1) as (b & s2 & E2 & H2 & [A2 B2]). exists b, s2.
  split; [unfold mbind, M_bind; by rewrite E|]. split; [by eapply silent_trans|].
  split; congruence.
Qed.

Lemma hushed_get {B} (f : Omni → M Omni B) : (∀ s, hushed (f s)) → hushed (get ≫= f).
Proof. intros Hf s. exact (Hf s s). Qed.

Lemma hushed_ret {A} (a : A) : hushed (mret a).
Proof. intros s. exists a, s. split_and!; [done|apply silent_refl|done..]. Qed.

Lemma hushed_modify f :
  (∀ s, o_reqs (f s) = o_reqs s ∧ o_outbox (f s) = o_outbox s ∧ o_datas (f s) = o_datas s ∧
        o_aborted_ids (f s) = o_aborted_ids s ∧ o_aborted_order (f s) = o_aborted_order s) →
  hushed (modify f).
Proof.
  intros Hf s. exists tt, (f s). destruct (Hf s) as (R & O & D & A & B).
  split; [done|]. split; [|by split]. split_and!; [done..|]. intros oid. rewrite R.
  destruct (o_reqs s !! oid); naive_solver.
Qed.

Lemma hushed_foreach {A} (f : A → M Omni unit) l : (∀ x, hushed (f x)) → hushed (mforeach f l).
Proof.
  intros Hf. induction l as [|x l IH]; [apply hushed_ret|]. cbn [mforeach].
  apply hushed_bind; [done|]. by intros _.
Qed.

Lemma hushed_update oid f :
  (∀ q, q_rid (f q) = q_rid q ∧ q_terminal_claimed (f q) = q_terminal_claimed q ∧
        q_finished_reason (f q) = q_finished_reason q ∧ view (f q) = view q ∧
        (q_data (f q) = q_data q ∨ q_data (f q) = None)) →
  hushed (update_req oid f).
Proof.
  intros Hf s. do 2 eexists. split; [reflexivity|]. split; [|done]. split_and!; [done..|].
  intros oid'. fields. destruct (decide (oid' = oid)) as [->|Hne].
  - rewrite lookup_alter_eq. destruct (o_reqs s !! oid); [|done]. apply Hf.
  - rewrite lookup_alter_ne by done. destruct (o_reqs s !! oid'); naive_solver.
Qed.

Ltac hushed :=
  repeat (intros; lazymatch goal with
  | |- hushed (get ≫= _) => apply hushed_get
  | |- hushed (_ ≫= _) => apply hushed_bind
  | |- hushed (mret _) => apply hushed_ret
  | |- hushed (mforeach _ _) => apply hushed_foreach
  | |- hushed (modify _) => apply hushed_modify; intros ?; split_and!; reflexivity
  | |- hushed (update_req _ _) => apply hushed_update; intros ?; split_and!; solve [auto]
  | |- hushed (match ?x with _ => _ end) => destruct x
  | |- hushed (if ?x then _ else _) => destruct x
  end).


Context (release_kv_cache : ReqObj → Pool → ReqObj * Pool).
Context (Hlaw : release_law release_kv_cache).
Context (view_release : ∀ q pool, view (release_kv_cache q pool).1 = view q).
Context (view_data : ∀ q, view (q <| q_data := None |>) = view q).
Context (view_finish : ∀ q, view (q <| q_to_finish := true |>) = view q).

Lemma hushed_release oid : hushed (release_request_kv_cache release_kv_cache oid).
Proof.
  intros s. unfold release_request_kv_cache. erewrite bind_run by reflexivity.
  destruct (o_reqs s !! oid) as [q|] eqn:Hq; [|apply hushed_ret].
  destruct (q_req_pool_idx q); [|apply hushed_ret].
  destruct (Hlaw q (o_pool s)) as [ext He]. pose proof (view_release q (o_pool s)) as Hv.
  destruct (release_kv_cache q (o_pool s)) as [q' pool]. simpl in He, Hv. subst q'. erewrite bind_run by reflexivity. do 2 eexists. split; [reflexivity|].
  split; [|done]. split_and!; [done..|]. intros oid'. fields.
  destruct (decide (oid' = oid)) as [->|Hne].
  - rewrite lookup_alter_eq, Hq. simpl. split_and!; [done..|by left].
  - rewrite lookup_alter_ne by done. destruct (o_reqs s !! oid'); naive_solver.
Qed.

Lemma hushed_mark rid oids : hushed (mark_reqs rid oids).
Proof.
  induction oids as [|oid oids IH]; cbn [mark_reqs]; [apply hushed_ret|].
  apply hushed_bind; [unfold mark_req; hushed|]. intros b.
  apply hushed_bind; [done|]. hushed.
Qed.

Lemma hushed_remove slot rid : hushed (remove_from_batch slot rid).
Proof. unfold remove_from_batch, detach_request_data. hushed. Qed.

Lemma hushed_clean_up rid : hushed (clean_up_now release_kv_cache rid).
Proof.
  unfold clean_up_now, release_immediate_request_resources. apply hushed_get. intros s.
  apply hushed_bind; [apply hushed_get; intros s1; apply hushed_foreach, hushed_release|intros _].
  repeat (apply hushed_bind; [apply hushed_remove|intros _]). apply hushed_remove.
Qed.

Lemma abort_silent rid defer s :
  aborted_ok s →
  ∃ s', abort release_kv_cache rid defer s = (Ok tt, s') ∧ silent s s' ∧ aborted_ok s'.
Proof.
  intros Hok. destruct (remember_aborted_run rid s Hok) as (ids & order & E & _ & _ & Hok1).
  unfold abort. rewrite (bind_run _ _ _ _ _ E). set (s1 := s <| o_aborted_ids := ids |> <| o_aborted_order := order |>).
  assert (silent s s1) as Hs1.
  { split_and!; [done..|]. intros oid. change (o_reqs s1) with (o_reqs s).
    destruct (o_reqs s !! oid); naive_solver. }
  match goal with |- context [?m s1] => assert (hushed m) as Hm end.
  { apply hushed_bind; [destruct defer; [apply hushed_get; intros; apply hushed_mark|hushed]|].
    intros marked. unfold drop_pending_work, drop_waiting, run_abort_callback, drop_buffers,
      emit_model_path_end_once, drop_prefill_marks, drain_inbox_for_request, detach_request_data.
    hushed. apply hushed_clean_up. }
  destruct (Hm s1) as ([] & s2 & E2 & Hs2 & [A2 B2]). exists s2.
  split; [exact E2|]. split; [exact (silent_trans _ _ _ Hs1 Hs2)|].
  unfold aborted_ok in *. by rewrite A2, B2.
Qed.
End Silent.
