(* ===== verification/Intake.v ===== *)
(** * The generic scheduler: request intake

    Models how [OmniScheduler] takes requests in
    ([src/sglang_omni/scheduling/omni_scheduler.py]): the inbox, the staging of payloads
    under the build limit, the request builder run inline or by an executor, deferred
    payloads and deferred admissions, the buffering of stream chunks and updates that arrive
    before the request, and the hand-over of a built request to the waiting queue.

    The model's hooks are parameters: the request builder, the readiness tests, the upstream
    limit check and the handlers of chunks and updates.  A chunk or completion handler is a total
    function of the data: what one raises is not modelled.  A build future is completed by the
    environment.  One operation runs at a time, as under [_request_admission_lock]. *)
From S2P Require Import Prelude Odict OmniState.
Local Open Scope Z_scope.

Section Intake.
Context {T : Types}.
Abbreviation OM := (M Omni).

(** The configuration of a scheduler and the hooks of its model. *)
Record Hooks : Type := {
  h_is_entry_rank : bool;
  (** [_request_build_executor] is present *)
  h_executor : bool;
  h_max_pending : Z;
  h_backlog_limit : option Z;
  h_max_req_len : Z;
  h_request_builder : Payload → result BuildOut;
  h_is_request_build_ready : Payload → bool → bool;
  h_recheck_on_stream_chunk : string → Chunk → bool;
  (** upstream [init_req_max_new_tokens] and [validate_input_length]: the new limit, and
      the message when the input is too long *)
  h_prepare_request_limits : Built → Z * option string;
  h_stream_chunk_handler : option (DataObj → Chunk → DataObj);
  h_stream_done_handler : option (DataObj → DataObj);
  h_request_update_handler : option (nat → Update → OM unit);
  h_release_kv_cache : ReqObj → Pool → ReqObj * Pool
}.

Context (H : Hooks).
Abbreviation abort := (abort (h_release_kv_cache H)).

Definition emit_request_error (rid : string) (e : pyexn) : OM unit :=
  if negb (h_is_entry_rank H) then mret tt
  else modify (fun s => s <| o_outbox := o_outbox s ++ [OError rid e] |>).

(** ** Chunks, completion marks and updates *)

Definition on_data (did : nat) (f : DataObj → DataObj) : OM unit :=
  modify (fun s => s <| o_datas := alter f did (o_datas s) |>).

Definition append_stream_chunk (did : nat) (chunk : Chunk) : OM unit :=
  on_data did (fun d =>
    match h_stream_chunk_handler H with
    | None => d <| d_stream_chunks := d_stream_chunks d ++ [chunk] |>
    | Some handler => handler d chunk
    end).

Definition mark_stream_done (did : nat) : OM unit :=
  on_data did (fun d =>
    match h_stream_done_handler H with
    | None => d <| d_stream_done := true |>
    | Some handler => handler d
    end).

Definition apply_request_update (did : nat) (update : Update) : OM unit :=
  match h_request_update_handler H with
  | Some handler => handler did update
  | None => on_data did (fun d => d <| d_request_updates := d_request_updates d ++ [update] |>)
  end.

Definition ingress_of (s : Omni) (rid : string) : Ingress :=
  default {| i_chunks := []; i_done := false |} (od_get rid (o_stream_ingress s)).

(** [setdefault(...)] followed by an assignment to the entry. *)
Definition on_ingress (rid : string) (f : Ingress → Ingress) : OM unit :=
  modify (fun s => s <| o_stream_ingress :=
    od_set rid (f (ingress_of s rid)) (o_stream_ingress s) |>).

Definition recheck_deferred (rid : string) (again : bool) : OM unit :=
  modify (fun s =>
    if od_mem rid (o_deferred_payloads s) && again
    then s <| o_dirty_deferred := o_dirty_deferred s ∪ {[rid]} |> else s).

Definition on_stream_chunk (rid : string) (chunk : Chunk) : OM unit :=
  s ← get;
  if bool_decide (rid ∈ o_completed_ids s) then mret tt else
  match find_request_data s rid with
  | Some did => append_stream_chunk did chunk
  | None =>
      _ ← reserve_pending_stream_request rid;
      _ ← on_ingress rid (fun i =>
            {| i_chunks := i_chunks i ++ [chunk]; i_done := i_done i |});
      recheck_deferred rid (h_recheck_on_stream_chunk H rid chunk)
  end.

Definition on_stream_done (rid : string) : OM unit :=
  s ← get;
  if bool_decide (rid ∈ o_completed_ids s) then mret tt else
  match find_request_data s rid with
  | Some did => mark_stream_done did
  | None =>
      _ ← reserve_pending_stream_request rid;
      _ ← on_ingress rid (fun i => {| i_chunks := i_chunks i; i_done := true |});
      recheck_deferred rid true
  end.

Definition updates_of (s : Omni) (rid : string) : list Update :=
  default [] (od_get rid (o_request_updates s)).

Definition on_request_update (rid : string) (update : Update) : OM unit :=
  s ← get;
  if bool_decide (rid ∈ o_completed_ids s) then mret tt else
  match find_request_data s rid with
  | Some did => apply_request_update did update
  | None =>
      _ ← reserve_pending_request_update rid;
      modify (fun s => s <| o_request_updates :=
        od_set rid (updates_of s rid ++ [update]) (o_request_updates s) |>)
  end.

(** ** Admission of a built request *)

(** [_request_kv_capacity_error]. *)
Definition request_kv_capacity_error (b : Built) : option pyexn :=
  if bd_input_len b + bd_max_new_tokens b <=? h_max_req_len H then None
  else Some (ValueError "Request requires more tokens than the thinker KV cache can hold").

(** The request and its data, as the builder made them. *)
Definition new_req (b : Built) : ReqObj :=
  {| q_rid := bd_rid b; q_data := None; q_finished_reason := None; q_is_retracted := false;
     q_to_finish := false; q_terminal_claimed := false; q_req_pool_idx := None;
     q_input_len := bd_input_len b; q_max_new_tokens := bd_max_new_tokens b;
     q_ext := bd_ext b |}.

Definition new_data (oid : nat) : DataObj :=
  {| d_req := oid; d_stream_chunks := []; d_stream_done := false; d_request_updates := [];
     d_output_ids := []; d_weight_version := None; d_finish_reason := None |}.

Definition allocate (b : Built) : OM (nat * nat) :=
  s ← get;
  let oid := fresh (dom (o_reqs s)) in
  let did := fresh (dom (o_datas s)) in
  _ ← assign_to o_reqs (<[oid := new_req b]> (o_reqs s));
  _ ← assign_to o_datas (<[did := new_data oid]> (o_datas s));
  mret (oid, did).

Definition initialize_request_stream_state (did : nat) (p : Payload) : OM unit :=
  _ ← mforeach (append_stream_chunk did) (p_prefetched_chunks p);
  _ ← (if p_prefetched_stream_done p then mark_stream_done did else mret tt);
  s ← get;
  _ ← assign_to o_request_updates (od_pop (p_request_id p) (o_request_updates s));
  mforeach (apply_request_update did) (updates_of s (p_request_id p)).

(** What was buffered while the request was being built. *)
Definition take_ingress (rid : string) (did : nat) (pending_stream_done : bool) : OM unit :=
  s ← get;
  match od_get rid (o_stream_ingress s) with
  | None => mret tt
  | Some i =>
      _ ← assign_to o_stream_ingress (od_pop rid (o_stream_ingress s));
      _ ← mforeach (append_stream_chunk did) (i_chunks i);
      if i_done i && negb pending_stream_done then mark_stream_done did else mret tt
  end.

Definition enqueue_if_live (rid : string) (oid did : nat) : OM unit :=
  s ← get;
  if bool_decide (rid ∈ o_aborted_ids s) then mret tt
  else
    _ ← update_req oid (fun q => q <| q_terminal_claimed := false |> <| q_data := Some did |>);
    assign_to o_waiting_queue (o_waiting_queue s ++ [oid]).

(** [_prepare_request_limits]. *)
Definition prepare_request_limits (b : Built) : Built * option string :=
  let '(max_new_tokens, error) := h_prepare_request_limits H b in
  ({| bd_rid := bd_rid b; bd_input_len := bd_input_len b; bd_max_new_tokens := max_new_tokens;
      bd_enforce_request_limits := bd_enforce_request_limits b; bd_ext := bd_ext b |}, error).

Definition reject (rid : string) (e : pyexn) : OM unit :=
  _ ← emit_request_error rid e; abort rid true.

Definition enqueue_built_request (p : Payload) (pending_stream_done : bool) (b : Built)
  : OM unit :=
  _ ← modify (fun s => s <| o_deferred_payloads :=
        od_pop (p_request_id p) (o_deferred_payloads s) |>);
  let rid := bd_rid b in
  let '(b, limit_error) := if bd_enforce_request_limits b then prepare_request_limits b
                           else (b, None) in
  match limit_error with
  | Some message => reject rid (ValueError message)
  | None =>
      match request_kv_capacity_error b with
      | Some e => reject rid e
      | None =>
          '(oid, did) ← allocate b;
          _ ← initialize_request_stream_state did p;
          _ ← take_ingress rid did pending_stream_done;
          enqueue_if_live rid oid did
      end
  end.

Definition admit_or_defer_built_request (p : Payload) (pending_stream_done : bool)
  (out : BuildOut) : OM unit :=
  match out with
  | BNow b => enqueue_built_request p pending_stream_done b
  | BDeferred d =>
      let rid := p_request_id p in
      s ← get;
      if bool_decide (rid ∈ o_aborted_ids s) then mret tt
      else match df_ready d with
           | Pending => assign_to o_request_admissions
                          (od_set rid (p, pending_stream_done, d) (o_request_admissions s))
           | Done (Raise e) => reject rid e
           | Done (Ok _) => enqueue_built_request p pending_stream_done (df_value d)
           end
  end.

(** ** Draining the results of builds and admissions *)

(** One turn of the loop of [_drain_request_build_results]; [true] to go on. *)
Definition drain_one_build : OM bool :=
  s ← get;
  match o_request_builds s with
  | [] => mret false
  | (rid, (p, pending_stream_done, Pending)) :: _ => mret false
  | (rid, (p, pending_stream_done, Done out)) :: _ =>
      _ ← assign_to o_request_builds (od_pop rid (o_request_builds s));
      if bool_decide (rid ∈ o_aborted_ids s) then mret true
      else
        _ ← match out with
            | Raise e => reject rid e
            | Ok out => admit_or_defer_built_request p pending_stream_done out
            end;
        mret true
  end.

Fixpoint drain_builds_loop (fuel : nat) : OM unit :=
  match fuel with
  | O => mret tt
  | S fuel => more ← drain_one_build; if more : bool then drain_builds_loop fuel else mret tt
  end.

(** Every turn takes an entry out, so that the number of entries is enough fuel. *)
Definition drain_request_build_results : OM unit :=
  s ← get; drain_builds_loop (S (length (o_request_builds s))).

Definition is_ready (d : Deferred) : bool :=
  match df_ready d with Pending => false | Done _ => true end.

Definition drain_admission (rid : string) : OM unit :=
  s ← get;
  match od_get rid (o_request_admissions s) with
  | None => mret tt
  | Some (p, pending_stream_done, d) =>
      _ ← assign_to o_request_admissions (od_pop rid (o_request_admissions s));
      if bool_decide (rid ∈ o_aborted_ids s) then mret tt
      else admit_or_defer_built_request p pending_stream_done (BDeferred d)
  end.

Definition drain_request_admission_results : OM unit :=
  s ← get;
  mforeach drain_admission
    (od_keys (List.filter (fun e => is_ready e.2.2) (o_request_admissions s))).

(** ** Payloads *)

Definition busy (s : Omni) (rid : string) : bool :=
  bool_decide (rid ∈ o_aborted_ids s) || od_mem rid (o_request_builds s)
  || od_mem rid (o_request_admissions s).

(** The payload with the buffered chunks moved onto it. *)
Definition with_buffered (p : Payload) (i : Ingress) : Payload :=
  {| p_request_id := p_request_id p;
     p_prefetched_chunks := p_prefetched_chunks p ++ i_chunks i;
     p_prefetched_stream_done := i_done i; p_body := p_body p |}.

Definition empty_ingress (rid : string) : OM unit :=
  modify (fun s =>
    match od_get rid (o_stream_ingress s) with
    | Some i => s <| o_stream_ingress :=
                  od_set rid {| i_chunks := []; i_done := i_done i |} (o_stream_ingress s) |>
    | None => s
    end).

Definition process_payload (p : Payload) : OM unit :=
  let rid := p_request_id p in
  s ← get;
  if busy s rid then mret tt
  else
    let pending_stream_done := i_done (ingress_of s rid) in
    let p := with_buffered p (ingress_of s rid) in
    _ ← empty_ingress rid;
    if negb (h_is_request_build_ready H p pending_stream_done) then
      assign_to o_deferred_payloads (od_set rid p (o_deferred_payloads s))
    else if h_executor H then
      assign_to o_request_builds
        (od_set rid (p, pending_stream_done, Pending) (o_request_builds s))
    else
      match h_request_builder H p with
      | Raise e => reject rid e
      | Ok out => admit_or_defer_built_request p pending_stream_done out
      end.

(** [_stage_request_build_payloads]: the backlog first, then the new payloads, as long as
    builds may be started; the rest waits in the backlog, or is rejected. *)
Fixpoint stage_backlog (s : Omni) (capacity : Z) (backlog selected : list Payload)
  : Z * list Payload * list Payload :=
  match backlog with
  | [] => (capacity, [], selected)
  | p :: backlog' =>
      if 0 <? capacity then
        if busy s (p_request_id p) then stage_backlog s capacity backlog' selected
        else stage_backlog s (capacity - 1) backlog' (selected ++ [p])
      else (capacity, backlog, selected)
  end.

Definition has_id (rid : string) (l : list Payload) : bool :=
  existsb (fun p => bool_decide (p_request_id p = rid)) l.

Fixpoint stage_new (s : Omni) (capacity : Z) (backlog selected rejected recv : list Payload)
  : list Payload * list Payload * list Payload :=
  match recv with
  | [] => (backlog, selected, rejected)
  | p :: recv' =>
      let rid := p_request_id p in
      if busy s rid || has_id rid backlog || has_id rid selected then
        stage_new s capacity backlog selected rejected recv'
      else if 0 <? capacity then
        stage_new s (capacity - 1) backlog (selected ++ [p]) rejected recv'
      else if match h_backlog_limit H with
              | Some limit => limit <=? zlength backlog
              | None => false
              end
      then stage_new s capacity backlog selected (rejected ++ [p]) recv'
      else stage_new s capacity (backlog ++ [p]) selected rejected recv'
  end.

Definition stage_request_build_payloads (recv : list Payload)
  : OM (list Payload * list Payload) :=
  s ← get;
  if negb (h_executor H) then mret (recv, [])
  else
    let capacity := Z.max 0 (h_max_pending H - zlength (o_request_builds s)) in
    let '(capacity, backlog, selected) := stage_backlog s capacity (o_backlog s) [] in
    let '(backlog, selected, rejected) := stage_new s capacity backlog selected [] recv in
    _ ← assign_to o_backlog backlog;
    mret (selected, rejected).

Definition reject_request_build_backlog_overflow (p : Payload) : OM unit :=
  reject (p_request_id p) (RuntimeError "request-build backlog is full").

Definition process_input_requests (recv : list Payload) : OM unit :=
  _ ← drain_request_admission_results;
  _ ← drain_request_build_results;
  '(selected, rejected) ← stage_request_build_payloads recv;
  _ ← mforeach reject_request_build_backlog_overflow rejected;
  _ ← mforeach process_payload selected;
  _ ← drain_request_build_results;
  drain_request_admission_results.

(** ** The inbox *)

(** One message of [recv_requests]; the payload of a new request is collected. *)
Definition receive (m : InMsg) : OM (list Payload) :=
  s ← get;
  if bool_decide (msg_rid m ∈ o_aborted_ids s) then mret []
  else match m with
       | MNewRequest rid p =>
           _ ← assign_to o_completed_ids (filter (fun r => r ≠ rid) (o_completed_ids s));
           mret [p]
       | MStreamChunk rid chunk => _ ← on_stream_chunk rid chunk; mret []
       | MStreamDone rid => _ ← on_stream_done rid; mret []
       | MRequestUpdate rid update => _ ← on_request_update rid update; mret []
       | MAbort rid defer => _ ← abort rid defer; mret []
       end.

Fixpoint receive_all (ms : list InMsg) : OM (list Payload) :=
  match ms with
  | [] => mret []
  | m :: ms' => ps ← receive m; rest ← receive_all ms'; mret (ps ++ rest)
  end.

Definition recv_requests : OM (list Payload) :=
  s ← get;
  _ ← assign_to o_inbox [];
  receive_all (o_inbox s).

(** The payloads to check again.  A Python set has no order of its own. *)
Definition take_deferred_request_payloads : OM (list Payload) :=
  s ← get;
  let ids := elements (o_dirty_deferred s) in
  _ ← modify (fun s => s
        <| o_deferred_payloads := foldl (fun d rid => od_pop rid d) (o_deferred_payloads s) ids |>
        <| o_dirty_deferred := ∅ |>);
  mret (omap (fun rid => od_get rid (o_deferred_payloads s)) ids).

(** The head of the event loops. *)
Definition intake_round : OM unit :=
  recv ← recv_requests;
  deferred ← take_deferred_request_payloads;
  process_input_requests (recv ++ deferred).

(** ** What happens to a scheduler from outside *)

Inductive Event : Type :=
| EArrive (m : InMsg)
| EBuilt (rid : string) (out : result BuildOut)
| EReady (rid : string) (outcome : result unit)
| EClosed (oid : nat)
| ERound.

(** The build of [rid], if it is under way, ends. *)
Definition complete_build (rid : string) (out : result BuildOut) : OM unit :=
  modify (fun s => match od_get rid (o_request_builds s) with
                   | Some (p, psd, Pending) =>
                       s <| o_request_builds :=
                         od_set rid (p, psd, Done out) (o_request_builds s) |>
                   | _ => s
                   end).

(** The admission future of [rid], if it is waited for, ends. *)
Definition complete_admission (rid : string) (outcome : result unit) : OM unit :=
  modify (fun s => match od_get rid (o_request_admissions s) with
                   | Some (p, psd, {| df_value := b; df_ready := Pending |}) =>
                       s <| o_request_admissions :=
                         od_set rid (p, psd, {| df_value := b; df_ready := Done outcome |})
                           (o_request_admissions s) |>
                   | _ => s
                   end).

Definition event (e : Event) : OM unit :=
  match e with
  | EArrive m => modify (fun s => s <| o_inbox := o_inbox s ++ [m] |>)
  | EBuilt rid out => complete_build rid out
  | EReady rid outcome => complete_admission rid outcome
  | EClosed oid => _ ← close_completed_request oid; mret tt
  | ERound => intake_round
  end.
End Intake.
