(* ===== verification/IntakeBounds.v ===== *)
(** * Request intake: bounded tables

    Whatever arrives, the generic scheduler's tables of aborted, completed, buffered,
    building and backlogged requests stay within their limits, and its rounds do not raise. *)
From S2P Require Import Prelude Odict OmniState Intake.
Local Open Scope Z_scope.

Section Bounds.
Context {T : Types} (H : Hooks).
Abbreviation abort := (abort (h_release_kv_cache H)).

(** The tables with their limits; [n] bounds the builds under way. *)
Definition tables (n : Z) (s : Omni) : Prop :=
  aborted_ok s ∧
  NoDup (o_completed_ids s) ∧ zlength (o_completed_ids s) ≤ COMPLETED_REQUEST_ID_LIMIT ∧
  od_wf (o_stream_ingress s) ∧ zlength (o_stream_ingress s) ≤ PENDING_STREAM_REQUEST_LIMIT ∧
  od_wf (o_request_updates s) ∧ zlength (o_request_updates s) ≤ PENDING_REQUEST_UPDATE_LIMIT ∧
  od_wf (o_request_builds s) ∧ zlength (o_request_builds s) ≤ n ∧
  (∀ limit, h_backlog_limit H = Some limit → zlength (o_backlog s) ≤ Z.max 0 limit).

(** The fields the limits are about. *)
Definition tabs (s : Omni) :=
  (o_aborted_ids s, o_aborted_order s, o_completed_ids s, o_stream_ingress s,
   o_request_updates s, o_request_builds s, o_backlog s).

Lemma tables_tabs n s s' : tabs s' = tabs s → tables n s → tables n s'.
Proof.
  unfold tabs, tables, aborted_ok. intros E. injection E as -> -> -> -> -> -> ->. done.
Qed.

(** A statement that leaves the tables alone. *)
Definition frames {A} (m : M Omni A) : Prop := ∀ s, ∃ a s', m s = (Ok a, s') ∧ tabs s' = tabs s.

Lemma frames_triple {A} n (m : M Omni A) : frames m → triple (tables n) m (fun _ => tables n).
Proof.
  intros Hm s Hs. destruct (Hm s) as (a & s' & E & Ht). exists a, s'. split; [done|].
  by apply (tables_tabs n s).
Qed.

Lemma frames_bind {A B} (m : M Omni A) (f : A → M Omni B) :
  frames m → (∀ a, frames (f a)) → frames (m ≫= f).
Proof.
  intros Hm Hf s. destruct (Hm s) as (a & s1 & E & H1).
  destruct (Hf a s1) as (b & s2 & E2 & H2). exists b, s2. split; [|congruence].
  unfold mbind, M_bind. by rewrite E.
Qed.

Lemma frames_get {B} (f : Omni → M Omni B) : (∀ s, frames (f s)) → frames (get ≫= f).
Proof. intros Hf s. exact (Hf s s). Qed.

Lemma frames_ret {A} (a : A) : frames (mret a).
Proof. intros s. by exists a, s. Qed.

Lemma frames_modify f : (∀ s, tabs (f s) = tabs s) → frames (modify f).
Proof. intros Hf s. exists tt, (f s). auto. Qed.

Lemma frames_foreach {A} (f : A → M Omni unit) l :
  (∀ x, frames (f x)) → frames (mforeach f l).
Proof.
  intros Hf. induction l as [|x l IH]; [apply frames_ret|]. cbn [mforeach].
  apply frames_bind; [done|]. by intros _.
Qed.
End Bounds.

Create HintDb frames.

(** Statements made of updates outside the tables. *)
Ltac frames :=
  repeat (intros; lazymatch goal with
  | |- frames (get ≫= _) => apply frames_get
  | |- frames (_ ≫= _) => apply frames_bind
  | |- frames (mret _) => apply frames_ret
  | |- frames (mforeach _ _) => apply frames_foreach
  | |- frames (modify _) => apply frames_modify; reflexivity
  | |- frames (match ?x with _ => _ end) => destruct x
  | |- frames _ => solve [auto with frames nocore]
  end).

Section Ops.
Context {T : Types} (H : Hooks).
Abbreviation abort := (abort (h_release_kv_cache H)).
Abbreviation tables := (tables H).
Abbreviation keeps n m := (triple (tables n) m (fun _ => tables n)).

Lemma frames_update_req oid f : frames (update_req oid f).
Proof. unfold update_req. frames. Qed.
Hint Resolve frames_update_req : frames.

Lemma frames_mark_req rid oid : frames (mark_req rid oid).
Proof. unfold mark_req. frames. Qed.
Hint Resolve frames_mark_req : frames.

Lemma frames_mark_running rid : frames (mark_running_request_aborted rid).
Proof.
  unfold mark_running_request_aborted. apply frames_get. intros s.
  induction (concat _) as [|oid l IH]; cbn [mark_reqs]; frames.
Qed.

Lemma frames_release rid : frames (release_immediate_request_resources (h_release_kv_cache H) rid).
Proof. unfold release_immediate_request_resources, release_request_kv_cache. frames. Qed.

Lemma frames_remove_from_batch slot rid : frames (remove_from_batch slot rid).
Proof. unfold remove_from_batch, detach_request_data. frames. Qed.
Hint Resolve frames_release frames_remove_from_batch frames_mark_running : frames.

Lemma frames_clean_up rid : frames (clean_up_now (h_release_kv_cache H) rid).
Proof. unfold clean_up_now. frames. Qed.

Lemma frames_emit rid status : frames (emit_model_path_end_once rid status).
Proof. unfold emit_model_path_end_once. frames. Qed.

Lemma frames_drop_waiting rid : frames (drop_waiting rid).
Proof. unfold drop_waiting, detach_request_data. frames. Qed.
Hint Resolve frames_clean_up frames_emit frames_drop_waiting : frames.

Lemma keeps_frames n {A} (m : M Omni A) : frames m → triple (tables n) m (fun _ => tables n).
Proof. apply frames_triple. Qed.

Lemma keeps_remember_aborted n rid : keeps n (remember_aborted rid).
Proof.
  intros s Hs. destruct (remember_aborted_run rid s) as (ids & order & E & _ & _ & Hok); [apply Hs|].
  do 2 eexists. split; [exact E|]. destruct Hs as [_ Hs]. split; [exact Hok|exact Hs].
Qed.

Lemma zlength_pop {V} rid (d : list (string * V)) : zlength (od_pop rid d) ≤ zlength d.
Proof. unfold zlength. pose proof (od_pop_length rid d). lia. Qed.

Lemma zlength_lfilter {A} (f : A → bool) l : zlength (List.filter f l) ≤ zlength l.
Proof. unfold zlength. pose proof (List.filter_length_le f l). lia. Qed.

Lemma keeps_drop_pending_work n rid : keeps n (drop_pending_work rid).
Proof.
  apply triple_modify.
  intros s (H1 & H2 & H3 & H4 & H5 & H6 & H7 & H8 & H9 & H10). unfold IntakeBounds.tables.
  split_and!; try assumption; [by apply od_pop_wf|..].
  - etransitivity; [apply zlength_pop|done].
  - intros limit Hl. etransitivity; [apply zlength_lfilter|auto].
Qed.

Lemma keeps_drop_buffers n rid : keeps n (drop_buffers rid).
Proof.
  apply triple_modify.
  intros s (H1 & H2 & H3 & H4 & H5 & H6 & H7 & H8 & H9 & H10). unfold IntakeBounds.tables.
  split_and!; try assumption; try (by apply od_pop_wf).
  - etransitivity; [apply zlength_pop|done].
  - etransitivity; [apply zlength_pop|done].
Qed.

Lemma keeps_abort n rid defer : keeps n (abort rid defer).
Proof.
  unfold OmniState.abort.
  apply triple_bind with (fun _ => tables n); [apply keeps_remember_aborted|intros _].
  apply triple_bind with (fun _ => tables n).
  { apply keeps_frames. destruct defer; frames. }
  intros marked. apply triple_bind with (fun _ => tables n); [apply keeps_drop_pending_work|intros _].
  apply triple_bind with (fun _ => tables n); [apply keeps_frames; frames|intros _].
  apply triple_bind with (fun _ => tables n).
  { apply keeps_frames. destruct marked; unfold run_abort_callback; frames. }
  intros _. apply triple_bind with (fun _ => tables n); [apply keeps_drop_buffers|intros _].
  apply keeps_frames. unfold drop_prefill_marks, drain_inbox_for_request. frames.
Qed.

Lemma keeps_reject n rid e : keeps n (reject H rid e).
Proof.
  unfold reject, emit_request_error. apply triple_bind with (fun _ => tables n).
  - apply keeps_frames. frames.
  - intros _. apply keeps_abort.
Qed.

(** ** Buffers of requests that are not there yet *)

Lemma reserve_ok {V} limit retained rid (d : list (string * V)) :
  0 < retained ≤ limit → od_wf d → zlength d ≤ limit →
  od_wf (reserve limit retained rid d) ∧ zlength (reserve limit retained rid d) ≤ limit ∧
  ∀ v, zlength (od_set rid v (reserve limit retained rid d)) ≤ limit.
Proof.
  intros Hr Hw Hl. unfold reserve.
  assert (∀ d' : list (string * V), od_wf d' → zlength d' ≤ limit →
    od_mem rid d' = true ∨ zlength d' < limit →
    od_wf d' ∧ zlength d' ≤ limit ∧ ∀ v, zlength (od_set rid v d') ≤ limit) as Hset.
  { intros d' Hw' Hl' Hor. split_and!; [done..|]. intros v. unfold zlength.
    rewrite od_set_length. destruct Hor as [->|Hlt]; [done|].
    unfold zlength in *. destruct (od_mem rid d'); lia. }
  destruct (od_mem rid d) eqn:Em; simpl; [by apply Hset; [..|left]|].
  destruct (zlength d <? limit) eqn:E; reflect_bool; [by apply Hset; [..|right]|].
  assert (zlength (zdrop (zlength d - retained + 1) d) = retained - 1) as Hd.
  { rewrite zlength_zdrop; lia. }
  apply Hset; [by apply od_drop_wf|lia|right; lia].
Qed.

Lemma keeps_reserve_ingress n rid f :
  keeps n (_ ← reserve_pending_stream_request rid; on_ingress rid f).
Proof.
  apply triple_bind with (fun _ s => ∃ s0, tables n s0 ∧ s = s0 <| o_stream_ingress :=
    reserve PENDING_STREAM_REQUEST_LIMIT PENDING_STREAM_REQUEST_RETAINED rid
      (o_stream_ingress s0) |>).
  { apply triple_modify. intros s Hs. by exists s. }
  intros _. apply triple_modify. intros s (s0 & Hs & ->).
  destruct Hs as (H1 & H2 & H3 & H4 & H5 & H6 & H7 & H8 & H9 & H10).
  destruct (reserve_ok PENDING_STREAM_REQUEST_LIMIT PENDING_STREAM_REQUEST_RETAINED rid
    (o_stream_ingress s0)) as (R1 & R2 & R3); [done..|].
  unfold IntakeBounds.tables. split_and!; try assumption; [by apply od_set_wf|apply R3].
Qed.

Lemma frames_recheck rid again : frames (recheck_deferred rid again).
Proof. apply frames_modify. intros s. by destruct (od_mem _ _ && _). Qed.

Lemma keeps_buffer n rid f again :
  keeps n (_ ← reserve_pending_stream_request rid; _ ← on_ingress rid f;
           recheck_deferred rid again).
Proof.
  intros s Hs. destruct (keeps_reserve_ingress n rid f s Hs) as (a & s' & E & Hs').
  destruct (frames_recheck rid again s') as (b & s'' & E' & Ht). exists b, s''.
  split; [|by apply (tables_tabs H n s')]. revert E. unfold mbind, M_bind.
  destruct (reserve_pending_stream_request rid s) as [[[]|] ?]; [|done].
  destruct (on_ingress rid f _) as [[[]|] ?]; [|done]. intros [= <- <-]. exact E'.
Qed.

Lemma frames_on_data did f : frames (on_data did f).
Proof. unfold on_data. frames. Qed.
Hint Resolve frames_on_data : frames.

Lemma frames_append_chunk did c : frames (append_stream_chunk H did c).
Proof. apply frames_on_data. Qed.
Lemma frames_mark_done did : frames (mark_stream_done H did).
Proof. apply frames_on_data. Qed.
Hint Resolve frames_append_chunk frames_mark_done : frames.

Lemma keeps_on_stream_chunk n rid c : keeps n (on_stream_chunk H rid c).
Proof.
  apply triple_get_inv. intros s Hs.
  case_bool_decide; [apply triple_ret|]. destruct (find_request_data s rid).
  - apply keeps_frames. frames.
  - apply keeps_buffer.
Qed.

Lemma keeps_on_stream_done n rid : keeps n (on_stream_done H rid).
Proof.
  apply triple_get_inv. intros s Hs.
  case_bool_decide; [apply triple_ret|]. destruct (find_request_data s rid).
  - apply keeps_frames. frames.
  - apply keeps_buffer.
Qed.

Lemma keeps_bind n {A} (m : M Omni A) (f : A → M Omni unit) :
  triple (tables n) m (fun _ => tables n) → (∀ a, keeps n (f a)) → keeps n (m ≫= f).
Proof. intros Hm Hf. by eapply triple_bind. Qed.

(** The update handler of the model respects the tables. *)
Definition handler_ok : Prop :=
  ∀ handler, h_request_update_handler H = Some handler →
  ∀ n did update, keeps n (handler did update).

Context (Hhandler : handler_ok).

Lemma keeps_apply_update n did u : keeps n (apply_request_update H did u).
Proof.
  unfold apply_request_update. destruct (h_request_update_handler H) eqn:E.
  - by apply Hhandler.
  - apply keeps_frames. frames.
Qed.

Lemma keeps_updates n (f : Omni → list (string * list Update)) :
  (∀ s, tables n s → od_wf (f s) ∧ zlength (f s) ≤ PENDING_REQUEST_UPDATE_LIMIT) →
  keeps n (modify (fun s => s <| o_request_updates := f s |>)).
Proof.
  intros Hf. apply triple_modify. intros s Hs. destruct (Hf s Hs) as [Hw Hl].
  destruct Hs as (H1 & H2 & H3 & H4 & H5 & H6 & H7 & H8 & H9 & H10).
  unfold IntakeBounds.tables. by split_and!.
Qed.

Lemma keeps_on_request_update n rid u : keeps n (on_request_update H rid u).
Proof.
  apply triple_get_inv. intros s Hs. case_bool_decide; [apply triple_ret|].
  destruct (find_request_data s rid); [apply keeps_apply_update|].
  apply triple_bind with (fun _ s => ∃ s0, tables n s0 ∧ s = s0 <| o_request_updates :=
    reserve PENDING_REQUEST_UPDATE_LIMIT PENDING_REQUEST_UPDATE_RETAINED rid
      (o_request_updates s0) |>).
  { apply triple_modify. intros s1 Hs1. by exists s1. }
  intros _. apply triple_modify. intros s1 (s0 & Hs0 & ->).
  destruct Hs0 as (H1 & H2 & H3 & H4 & H5 & H6 & H7 & H8 & H9 & H10).
  destruct (reserve_ok PENDING_REQUEST_UPDATE_LIMIT PENDING_REQUEST_UPDATE_RETAINED rid
    (o_request_updates s0)) as (R1 & R2 & R3); [done..|].
  unfold IntakeBounds.tables. split_and!; try assumption; [by apply od_set_wf|apply R3].
Qed.

Lemma keeps_take_ingress n rid did psd : keeps n (take_ingress H rid did psd).
Proof.
  apply triple_get_inv. intros s Hs. destruct (od_get rid (o_stream_ingress s)) as [i|];
    [|apply triple_ret].
  apply keeps_bind.
  - apply triple_modify. intros s1 (H1 & H2 & H3 & H4 & H5 & H6 & H7 & H8 & H9 & H10).
    destruct Hs as (_ & _ & _ & G4 & G5 & _). unfold IntakeBounds.tables.
    split_and!; try assumption; [by apply od_pop_wf|].
    etransitivity; [apply zlength_pop|done].
  - intros _. apply keeps_frames. frames.
Qed.

Lemma keeps_initialize n did p : keeps n (initialize_request_stream_state H did p).
Proof.
  unfold initialize_request_stream_state. apply keeps_bind; [apply keeps_frames; frames|intros _].
  apply keeps_bind; [apply keeps_frames; frames|intros _].
  apply triple_get_inv. intros s Hs. apply keeps_bind.
  - apply triple_modify. intros s1 (H1 & H2 & H3 & H4 & H5 & H6 & H7 & H8 & H9 & H10).
    destruct Hs as (_ & _ & _ & _ & _ & G6 & G7 & _). unfold IntakeBounds.tables.
    split_and!; try assumption; [by apply od_pop_wf|].
    etransitivity; [apply zlength_pop|done].
  - intros _. apply triple_foreach. intros u _. apply keeps_apply_update.
Qed.

Lemma frames_allocate b : frames (allocate b).
Proof. unfold allocate. frames. Qed.

Lemma keeps_enqueue_built n p psd b : keeps n (enqueue_built_request H p psd b).
Proof.
  unfold enqueue_built_request. apply keeps_bind; [apply keeps_frames; frames|intros _].
  destruct (if bd_enforce_request_limits b then _ else _) as [b' [message|]];
    [apply keeps_reject|].
  destruct (request_kv_capacity_error H b'); [apply keeps_reject|].
  apply triple_bind with (fun _ => tables n); [apply keeps_frames, frames_allocate|].
  intros [oid did]. apply keeps_bind; [apply keeps_initialize|intros _].
  apply keeps_bind; [apply keeps_take_ingress|intros _].
  apply keeps_frames. unfold enqueue_if_live. frames.
Qed.

Lemma keeps_admit_or_defer n p psd out : keeps n (admit_or_defer_built_request H p psd out).
Proof.
  destruct out as [b|d]; [apply keeps_enqueue_built|]. apply triple_get_inv. intros s Hs.
  case_bool_decide; [apply triple_ret|].
  destruct (df_ready d) as [|[u|e]]; [|apply keeps_enqueue_built|apply keeps_reject].
  apply keeps_frames. frames.
Qed.

(** ** Draining *)

Lemma keeps_pop_build n rid s0 :
  tables n s0 → triple (tables n) (assign_to o_request_builds (od_pop rid (o_request_builds s0)))
                       (fun _ => tables n).
Proof.
  intros (_ & _ & _ & _ & _ & _ & _ & G8 & G9 & _). apply triple_modify.
  intros s (H1 & H2 & H3 & H4 & H5 & H6 & H7 & H8 & H9 & H10). unfold IntakeBounds.tables.
  split_and!; try assumption; [by apply od_pop_wf|].
  etransitivity; [apply zlength_pop|done].
Qed.

Lemma keeps_drain_one_build n : triple (tables n) (drain_one_build H) (fun _ => tables n).
Proof.
  apply triple_get_inv. intros s Hs.
  destruct (o_request_builds s) as [|[rid [[p psd] [|out]]] l] eqn:E; [apply triple_ret..|].
  rewrite <- E. apply triple_bind with (fun _ => tables n); [by apply keeps_pop_build|intros _].
  case_bool_decide; [apply triple_ret|]. apply triple_bind with (fun _ => tables n).
  - destruct out; [apply keeps_admit_or_defer|apply keeps_reject].
  - intros _. apply triple_ret.
Qed.

Lemma keeps_drain_builds n : keeps n (drain_request_build_results H).
Proof.
  apply triple_get_inv. intros s _. generalize (S (length (o_request_builds s))).
  induction n0 as [|fuel IH]; [apply triple_ret|]. cbn [drain_builds_loop].
  apply triple_bind with (fun _ => tables n); [apply keeps_drain_one_build|].
  intros []; [apply IH|apply triple_ret].
Qed.

Lemma keeps_drain_admissions n : keeps n (drain_request_admission_results H).
Proof.
  apply triple_get_inv. intros s _. apply triple_foreach. intros rid _.
  apply triple_get_inv. intros s1 Hs1.
  destruct (od_get rid (o_request_admissions s1)) as [[[p psd] d]|]; [|apply triple_ret].
  apply keeps_bind; [apply keeps_frames; frames|intros _].
  case_bool_decide; [apply triple_ret|apply keeps_admit_or_defer].
Qed.

(** No finished build is at the head of the table. *)
Definition head_pending (s : Omni) : Prop :=
  match o_request_builds s with
  | (_, (_, _, Done _)) :: _ => False
  | _ => True
  end.

Lemma od_pop_head {V} (rid : string) (v : V) l : od_wf ((rid, v) :: l) → od_pop rid ((rid, v) :: l) = l.
Proof.
  intros Hw. apply NoDup_cons in Hw as [Hn _]. unfold od_pop.
  rewrite filter_cons_False by naive_solver. by apply od_pop_absent.
Qed.

(** A turn that goes on has taken an entry out. *)
Lemma drain_one_build_spec n :
  triple (tables n) (drain_one_build H)
    (fun more s => if more then tables (n - 1) s else tables n s ∧ head_pending s).
Proof.
  apply triple_get. intros s Hs s' <-.
  destruct (o_request_builds s) as [|[rid [[p psd] [|out]]] l] eqn:E.
  1-2: exists false, s; split; [done|]; split; [done|]; unfold head_pending; by rewrite E.
  set (s1 := s <| o_request_builds := l |>).
  assert (tables (n - 1) s1) as Hs1.
  { destruct Hs as (H1 & H2 & H3 & H4 & H5 & H6 & H7 & H8 & H9 & H10). rewrite E in H8, H9.
    unfold IntakeBounds.tables. rewrite zlength_cons in H9. apply NoDup_cons in H8 as [_ H8].
    split_and!; try assumption. change (o_request_builds s1) with l. lia. }
  assert (triple (tables (n - 1)) (if bool_decide (rid ∈ o_aborted_ids s) then mret true
      else _ ← match out with
               | Raise e => reject H rid e
               | Ok out => admit_or_defer_built_request H p psd out
               end; mret true)
    (fun more s => if more : bool then tables (n - 1) s else tables n s ∧ head_pending s)) as Hm.
  { case_bool_decide; [intros s2 Hs2; by exists true, s2|].
    apply triple_bind with (fun _ => tables (n - 1)).
    - destruct out; [apply keeps_admit_or_defer|apply keeps_reject].
    - intros _ s2 Hs2. by exists true, s2. }
  destruct (Hm s1 Hs1) as (a & s2 & E2 & Hs2). exists a, s2. split; [|exact Hs2].
  rewrite od_pop_head by (destruct Hs as (_ & _ & _ & _ & _ & _ & _ & H8 & _); by rewrite E in H8).
  erewrite bind_run by reflexivity. exact E2.
Qed.

Lemma drain_builds_loop_done fuel n :
  n < Z.of_nat fuel →
  triple (tables n) (drain_builds_loop H fuel) (fun _ s => tables n s ∧ head_pending s).
Proof.
  revert n. induction fuel as [|fuel IH]; intros n Hn.
  { intros s (_ & _ & _ & _ & _ & _ & _ & _ & H9 & _).
    pose proof (zlength_nonneg (o_request_builds s)). lia. }
  cbn [drain_builds_loop]. eapply triple_bind; [apply drain_one_build_spec|].
  intros []; cbn beta iota; [|intros s Hs; by exists tt, s].
  eapply triple_conseq; [apply (IH (n - 1)); lia|done|]. intros a s [Hs Hh]. split; [|done].
  destruct Hs as (H1 & H2 & H3 & H4 & H5 & H6 & H7 & H8 & H9 & H10).
  unfold IntakeBounds.tables. split_and!; (done || lia).
Qed.

Lemma drain_builds_done n s :
  tables n s →
  ∃ s', drain_request_build_results H s = (Ok tt, s') ∧ tables n s' ∧ head_pending s'.
Proof.
  intros Hs. assert (tables (zlength (o_request_builds s)) s) as Hs0.
  { destruct Hs as (H1 & H2 & H3 & H4 & H5 & H6 & H7 & H8 & H9 & H10).
    unfold IntakeBounds.tables. by split_and!. }
  destruct (drain_builds_loop_done (S (length (o_request_builds s)))
    (zlength (o_request_builds s))) with s as ([] & s' & E & Hs' & Hh); [unfold zlength; lia|done|].
  exists s'. split_and!; [exact E| |exact Hh].
  assert (zlength (o_request_builds s) ≤ n) as Hn by apply Hs.
  destruct Hs' as (H1 & H2 & H3 & H4 & H5 & H6 & H7 & H8 & H9 & H10).
  unfold IntakeBounds.tables. split_and!; (done || lia).
Qed.

(** ** Staging and payloads *)

Lemma tables_le n n' s : n ≤ n' → tables n s → tables n' s.
Proof.
  intros Hle (H1 & H2 & H3 & H4 & H5 & H6 & H7 & H8 & H9 & H10). unfold IntakeBounds.tables.
  split_and!; (done || lia).
Qed.

Lemma stage_backlog_bounds s capacity backlog selected c b sel :
  0 ≤ capacity →
  stage_backlog s capacity backlog selected = (c, b, sel) →
  0 ≤ c ∧ zlength sel + c = zlength selected + capacity ∧ zlength b ≤ zlength backlog.
Proof.
  revert capacity selected. induction backlog as [|p backlog IH]; intros capacity selected Hc E;
    simpl in E.
  { injection E as <- <- <-. pose proof (zlength_nonneg (@nil Payload)). lia. }
  destruct (0 <? capacity) eqn:Ec; [|injection E as <- <- <-; lia]. reflect_bool.
  rewrite zlength_cons. destruct (busy s (p_request_id p)).
  - apply IH in E; lia.
  - pose proof (zlength_snoc selected p). apply IH in E; lia.
Qed.

Lemma stage_new_bounds s capacity backlog selected rejected recv b sel rej bound :
  0 ≤ capacity →
  (∀ limit, h_backlog_limit H = Some limit → zlength backlog ≤ Z.max 0 limit) →
  zlength selected + capacity ≤ bound →
  stage_new H s capacity backlog selected rejected recv = (b, sel, rej) →
  (∀ limit, h_backlog_limit H = Some limit → zlength b ≤ Z.max 0 limit) ∧ zlength sel ≤ bound.
Proof.
  revert capacity backlog selected rejected.
  induction recv as [|p recv IH]; intros capacity backlog selected rejected Hc Hb Hs E;
    simpl in E.
  { injection E as <- <- <-. split; [done|lia]. }
  destruct (_ || _); [by eapply IH|].
  destruct (0 <? capacity) eqn:Ec; reflect_bool.
  { pose proof (zlength_snoc selected p). eapply IH in E; [done|lia|done|lia]. }
  destruct (h_backlog_limit H) as [limit|] eqn:El.
  - destruct (limit <=? zlength backlog) eqn:Ef; [by eapply IH|]. reflect_bool.
    eapply IH in E; [done|done| |done]. intros limit' [= <-].
    rewrite zlength_snoc. lia.
  - eapply IH in E; [done|done| |done]. by intros ? ?.
Qed.

Lemma stage_bounds n recv :
  triple (tables n) (stage_request_build_payloads H recv)
    (fun out s => tables n s ∧ (h_executor H = true →
       zlength out.1 + zlength (o_request_builds s) ≤
         Z.max (zlength (o_request_builds s)) (h_max_pending H))).
Proof.
  apply triple_get. intros s Hs. destruct (h_executor H); simpl.
  2:{ intros s' <-. do 2 eexists. split; [reflexivity|]. done. }
  destruct (stage_backlog s _ (o_backlog s) []) as [[c b] sel] eqn:E1.
  destruct (stage_new H s c b sel [] recv) as [[b' sel'] rej] eqn:E2.
  apply stage_backlog_bounds in E1 as (Hc & Hl & Hb); [|lia].
  rewrite zlength_nil in Hl.
  eapply (stage_new_bounds s c b sel [] recv b' sel' rej
            (Z.max 0 (h_max_pending H - zlength (o_request_builds s)))) in E2 as [Hb' Hsel].
  - intros s' <-. do 2 eexists. split; [reflexivity|]. split.
    + destruct Hs as (H1 & H2 & H3 & H4 & H5 & H6 & H7 & H8 & H9 & H10).
      unfold IntakeBounds.tables. by split_and!.
    + intros _. cbn [fst]. change (o_request_builds (s <| o_backlog := b' |>)) with (o_request_builds s).
      lia.
  - done.
  - intros limit Hlim. etransitivity; [exact Hb|]. apply Hs in Hlim. done.
  - lia.
Qed.

Lemma process_payload_bounds n p :
  triple (tables n) (process_payload H p)
    (fun _ => tables (if h_executor H then n + 1 else n)).
Proof.
  assert (∀ m s, tables n s → triple (tables n) m (fun _ : unit => tables n) →
    ∃ a s', m s = (Ok a, s') ∧ tables (if h_executor H then n + 1 else n) s') as Hkeep.
  { intros m s Hs Hm. destruct (Hm s Hs) as (a & s' & E & Hs'). exists a, s'. split; [done|].
    apply (tables_le n); [destruct (h_executor H); lia|done]. }
  apply triple_get. intros s Hs s' <-. unfold process_payload.
  destruct (busy s (p_request_id p)); [by apply (Hkeep (mret tt)), triple_ret|].
  set (p' := with_buffered p _). set (psd := i_done _).
  assert (triple (tables n) (empty_ingress (p_request_id p)) (fun _ => tables n)) as Hempty.
  { apply triple_modify. intros s0 Hs0.
    destruct (od_get (p_request_id p) (o_stream_ingress s0)) eqn:Ei; [|done].
    destruct Hs0 as (H1 & H2 & H3 & H4 & H5 & H6 & H7 & H8 & H9 & H10).
    unfold IntakeBounds.tables. split_and!; try assumption; [by apply od_set_wf|].
    unfold zlength in *. fields. rewrite od_set_length. unfold od_mem. by rewrite Ei. }
  destruct (negb (h_is_request_build_ready H p' psd)).
  { apply Hkeep; [done|]. apply keeps_bind; [done|intros _]. apply keeps_frames. frames. }
  destruct (h_executor H) eqn:Ex.
  - destruct (Hempty s Hs) as (a & s1 & E1 & Hs1). eexists _, _. split.
    { unfold mbind, M_bind. rewrite E1. reflexivity. }
    destruct Hs1 as (H1 & H2 & H3 & H4 & H5 & H6 & H7 & H8 & H9 & H10).
    destruct Hs as (_ & _ & _ & _ & _ & _ & _ & G8 & G9 & _).
    unfold IntakeBounds.tables. split_and!; try assumption; [by apply od_set_wf|].
    unfold zlength in *. fields. rewrite od_set_length. destruct (od_mem _ _); lia.
  - apply Hkeep; [done|]. apply keeps_bind; [done|intros _].
    destruct (h_request_builder H p'); [apply keeps_admit_or_defer|apply keeps_reject].
Qed.

Lemma process_payloads_bounds n l :
  triple (tables n) (mforeach (process_payload H) l)
    (fun _ => tables (if h_executor H then n + zlength l else n)).
Proof.
  revert n. induction l as [|p l IH]; intros n.
  { intros s Hs. exists tt, s. split; [done|]. destruct (h_executor H); [|done].
    rewrite zlength_nil. by replace (n + 0) with n by lia. }
  cbn [mforeach]. eapply triple_bind; [apply process_payload_bounds|intros a; cbn beta].
  eapply triple_conseq; [apply IH|done|]. intros a' s. cbn beta. intros Hs. destruct (h_executor H); [|done].
  rewrite zlength_cons. by replace (n + (1 + zlength l)) with (n + 1 + zlength l) by lia.
Qed.

(** ** Whole rounds *)

Abbreviation max_pending := (Z.max 0 (h_max_pending H)).

Lemma process_input_bounds recv : keeps max_pending (process_input_requests H recv).
Proof.
  unfold process_input_requests.
  apply triple_bind with (fun _ => tables max_pending); [apply keeps_drain_admissions|intros _].
  apply triple_bind with (fun _ => tables max_pending); [apply keeps_drain_builds|intros _].
  eapply triple_bind; [apply stage_bounds|]. intros [selected rejected].
  intros s [Hs Hsel]. cbn [fst] in Hsel.
  set (k := if h_executor H then zlength (o_request_builds s) else max_pending).
  assert (tables k s) as Hk.
  { unfold k. destruct (h_executor H); [|done].
    destruct Hs as (H1 & H2 & H3 & H4 & H5 & H6 & H7 & H8 & H9 & H10).
    unfold IntakeBounds.tables. by split_and!. }
  assert ((if h_executor H then k + zlength selected else k) ≤ max_pending) as Hle.
  { unfold k. destruct (h_executor H); [|lia]. specialize (Hsel eq_refl).
    destruct Hs as (_ & _ & _ & _ & _ & _ & _ & _ & H9 & _). lia. }
  clearbody k. clear Hs Hsel.
  eapply (fun m (Hm : triple (tables k) m (fun _ => tables max_pending)) => Hm s Hk).
  clear s Hk.
  apply triple_bind with (fun _ => tables k); [|intros _].
  { apply triple_foreach. intros p _. apply keeps_reject. }
  apply triple_bind with (fun _ => tables max_pending); [|intros _].
  { eapply triple_conseq; [apply process_payloads_bounds|done|]. intros a s. cbn beta.
    by apply tables_le. }
  apply triple_bind with (fun _ => tables max_pending); [apply keeps_drain_builds|intros _].
  apply keeps_drain_admissions.
Qed.

Lemma receive_bounds n m : triple (tables n) (receive H m) (fun _ => tables n).
Proof.
  apply triple_get_inv. intros s Hs. case_bool_decide; [apply triple_ret|].
  destruct m as [rid p|rid c|rid|rid u|rid defer];
    (apply triple_bind with (fun _ => tables n); [|intros a; apply triple_ret]).
  - apply triple_modify. intros s1 (H1 & H2 & H3 & H4 & H5 & H6 & H7 & H8 & H9 & H10).
    destruct Hs as (_ & G2 & G3 & _). unfold IntakeBounds.tables.
    split_and!; try assumption; [by apply NoDup_filter|].
    fields. pose proof (length_filter (fun r => r ≠ rid) (o_completed_ids s)).
    unfold zlength in *. lia.
  - apply keeps_on_stream_chunk.
  - apply keeps_on_stream_done.
  - apply keeps_on_request_update.
  - apply keeps_abort.
Qed.

Lemma receive_all_bounds n ms : triple (tables n) (receive_all H ms) (fun _ => tables n).
Proof.
  induction ms as [|m ms IH]; [apply triple_ret|]. cbn [receive_all].
  apply triple_bind with (fun _ => tables n); [apply receive_bounds|intros ps].
  apply triple_bind with (fun _ => tables n); [apply IH|intros rest]. apply triple_ret.
Qed.

Lemma intake_round_bounds : keeps max_pending (intake_round H).
Proof.
  unfold intake_round. apply triple_bind with (fun _ => tables max_pending).
  { apply triple_get_inv. intros s _.
    apply triple_bind with (fun _ => tables max_pending); [apply keeps_frames; frames|intros _].
    apply receive_all_bounds. }
  intros recv. apply triple_bind with (fun _ => tables max_pending).
  { apply keeps_frames. unfold take_deferred_request_payloads. frames. }
  intros deferred. apply process_input_bounds.
Qed.

Lemma keeps_remember_completed n rid : keeps n (remember_completed_request rid).
Proof.
  apply triple_get. intros s Hs. case_bool_decide as Hin.
  { intros s' <-. exists tt, s. done. }
  intros s' <-. cbv zeta. do 2 eexists. split.
  { erewrite bind_run by reflexivity. erewrite bind_run by reflexivity. reflexivity. }
  destruct Hs as (H1 & H2 & H3 & H4 & H5 & H6 & H7 & H8 & H9 & H10).
  unfold IntakeBounds.tables. fields.
  set (kept := if COMPLETED_REQUEST_ID_LIMIT <=? _ then _ else _).
  assert (kept `sublist_of` o_completed_ids s) as Hsub.
  { unfold kept. destruct (_ <=? _); [apply sublist_drop|done]. }
  assert (zlength kept < COMPLETED_REQUEST_ID_LIMIT) as Hk.
  { unfold kept. destruct (_ <=? _) eqn:E; reflect_bool; [|done]. unfold zlength in *.
    rewrite length_drop. unfold COMPLETED_REQUEST_ID_LIMIT in *. lia. }
  pose proof (zlength_pop rid (o_stream_ingress s)).
  pose proof (zlength_pop rid (o_request_updates s)).
  split_and!; try assumption; try (by apply od_pop_wf); try lia.
  - apply NoDup_app. split_and!; [exact (sublist_NoDup _ _ H2 Hsub)| |apply NoDup_singleton].
    intros x Hx ->%list_elem_of_singleton. apply Hin. revert Hx. unfold kept.
    destruct (_ <=? _); [apply subseteq_drop|done].
  - rewrite zlength_snoc. lia.
Qed.

Lemma event_bounds e : keeps max_pending (event H e).
Proof.
  destruct e as [m|rid out|rid outcome|oid|]; cbn [event].
  - apply keeps_frames. frames.
  - apply triple_modify. intros s Hs.
    destruct (od_get rid (o_request_builds s)) as [[[p psd] []]|] eqn:E; try done.
    destruct Hs as (H1 & H2 & H3 & H4 & H5 & H6 & H7 & H8 & H9 & H10).
    unfold IntakeBounds.tables. split_and!; try assumption; [by apply od_set_wf|].
    unfold zlength in *. fields. rewrite od_set_length. unfold od_mem. by rewrite E.
  - apply keeps_frames, frames_modify. intros s.
    by destruct (od_get rid (o_request_admissions s)) as [[[p psd] [b []]]|].
  - apply triple_bind with (fun _ => tables max_pending); [|intros _; apply triple_ret].
    apply triple_get_inv. intros s _. destruct (o_reqs s !! oid); [|apply triple_ret].
    apply triple_bind with (fun _ => tables max_pending).
    { apply keeps_frames. unfold detach_request_data. frames. }
    intros _. apply triple_bind with (fun _ => tables max_pending);
      [apply keeps_remember_completed|intros _].
    apply triple_bind with (fun _ => tables max_pending); [apply keeps_frames; frames|].
    intros _. apply triple_ret.
  - apply intake_round_bounds.
Qed.
End Ops.

(** ** Properties *)

(** C36: Provided the handlers of the model raise nothing and its update handler keeps the
    tables itself, the intake never raises, whatever arrives, and its tables keep their limits:
    the aborted, completed and buffered requests, the builds under way and the backlog. *)
Theorem intake_tables_bounded `{T : Types} H events s :
  handler_ok H → tables H (Z.max 0 (h_max_pending H)) s →
  ∃ s', mforeach (event H) events s = (Ok tt, s') ∧ tables H (Z.max 0 (h_max_pending H)) s'.
Proof.
  intros Hh Hs. destruct (triple_foreach (tables H (Z.max 0 (h_max_pending H))) (event H) events
    (fun e _ => event_bounds H Hh e) s Hs) as ([] & s' & E & Hs'). by exists s'.
Qed.


(** ** Witnesses *)

#[local] Existing Instance demo_types.

Definition demo_build (p : Payload) : result BuildOut :=
  Ok (BNow {| bd_rid := p_request_id p; bd_input_len := 3; bd_max_new_tokens := 4;
              bd_enforce_request_limits := false; bd_ext := tt |}).

(** A scheduler with an executor for one build at a time and a backlog of two. *)
Definition demo_hooks (executor : bool) : Hooks :=
  {| h_is_entry_rank := true; h_executor := executor; h_max_pending := 1;
     h_backlog_limit := Some 2; h_max_req_len := 100; h_request_builder := demo_build;
     h_is_request_build_ready := fun _ _ => true; h_recheck_on_stream_chunk := fun _ _ => true;
     h_prepare_request_limits := fun b => (bd_max_new_tokens b, None);
     h_stream_chunk_handler := None; h_stream_done_handler := None;
     h_request_update_handler := None; h_release_kv_cache := demo_release |}.

Definition empty_omni : Omni :=
  {| o_reqs := ∅; o_datas := ∅; o_batches := ∅; o_running_batch := None; o_cur_batch := None;
     o_last_batch := None; o_async_pending := None; o_waiting_queue := []; o_aborted_ids := ∅;
     o_aborted_order := []; o_completed_ids := []; o_stream_ingress := [];
     o_request_updates := []; o_deferred_payloads := []; o_dirty_deferred := ∅;
     o_request_builds := []; o_request_admissions := []; o_backlog := []; o_inbox := [];
     o_outbox := []; o_first_emit_done := ∅; o_prefill_start_done := ∅;
     o_prefill_end_done := ∅; o_path_ends := []; o_abort_callbacks := []; o_pool := [] |}.

Definition demo_payload (rid : string) : Payload :=
  {| p_request_id := rid; p_prefetched_chunks := []; p_prefetched_stream_done := false;
     p_body := tt |}.

Lemma demo_handler_ok executor : handler_ok (demo_hooks executor).
Proof. done. Qed.

Lemma empty_tables executor n : 0 ≤ n → tables (demo_hooks executor) n empty_omni.
Proof.
  intros Hn. unfold tables, aborted_ok, od_wf. split_and!; try apply NoDup_nil_2; try done.
  intros limit [= <-]. by vm_compute.
Qed.

(** Two requests arrive, one is built, the other waits in the backlog. *)
Lemma intake_tables_bounded_witness :
  ∃ s', mforeach (event (demo_hooks true))
      [EArrive (MNewRequest "a" (demo_payload "a")); EArrive (MNewRequest "b" (demo_payload "b"));
       EArrive (MStreamChunk "c" 3); ERound] empty_omni = (Ok tt, s') ∧
    tables (demo_hooks true) 1 s' ∧ od_keys (o_request_builds s') = ["a"] ∧
    map p_request_id (o_backlog s') = ["b"].
Proof.
  set (events := [_; _; _; _]).
  destruct (intake_tables_bounded (demo_hooks true) events empty_omni (demo_handler_ok true)
    (empty_tables true 1 ltac:(lia))) as (s' & E & Ht).
  exists s'. split; [exact E|]. split; [exact Ht|].
  assert (s' = (mforeach (event (demo_hooks true)) events empty_omni).2) as -> by by rewrite E.
  split; by vm_compute.
Defined.

(** A finished build is taken out, a pending one stays. *)
Definition built_omni : Omni :=
  empty_omni <| o_request_builds :=
    [("a", (demo_payload "a", false, Done (demo_build (demo_payload "a"))));
     ("b", (demo_payload "b", false, Pending))] |>.

Lemma built_tables : tables (demo_hooks true) 2 built_omni.
Proof.
  unfold tables, aborted_ok, od_wf. split_and!; try apply NoDup_nil_2; try done.
  - apply NoDup_cons. split; [set_solver|apply NoDup_singleton].
  - intros limit [= <-]. done.
Qed.

