(* ===== verification/IntakeOrder.v ===== *)
(** * Request intake: nothing is lost, doubled or reordered

    Refinement of the intake against an abstract feed.  The abstract state of a request is
    the chunks, updates and completion mark sent for it; the intake stores them, in turns, in
    the inbox, in the buffers of requests not built yet, on a waiting payload and in the data
    of the admitted request.  Until the request is aborted or closed, or an error was
    reported for it, what the intake holds for it is the abstract feed. *)
From S2P Require Import Prelude Odict OmniState Intake IntakeBounds.
Local Open Scope Z_scope.

(** ** The abstract feed of a request *)

Section Feed.
Context {T : Types}.

Record Feed : Type := { f_chunks : list Chunk; f_updates : list Update; f_done : bool }.

Definition no_feed : Feed := {| f_chunks := []; f_updates := []; f_done := false |}.

(** What a message adds to the feed of [rid]. *)
Definition absorb (rid : string) (F : Feed) (m : InMsg) : Feed :=
  if negb (bool_decide (msg_rid m = rid)) then F
  else match m with
       | MStreamChunk _ c =>
           {| f_chunks := f_chunks F ++ [c]; f_updates := f_updates F; f_done := f_done F |}
       | MStreamDone _ =>
           {| f_chunks := f_chunks F; f_updates := f_updates F; f_done := true |}
       | MRequestUpdate _ u =>
           {| f_chunks := f_chunks F; f_updates := f_updates F ++ [u]; f_done := f_done F |}
       | MNewRequest _ p =>
           {| f_chunks := p_prefetched_chunks p ++ f_chunks F; f_updates := f_updates F; f_done := f_done F |}
       | MAbort _ _ => F
       end.

Definition absorb_all (rid : string) (F : Feed) (ms : list InMsg) : Feed :=
  foldl (absorb rid) F ms.

(** ** Where the intake keeps it *)

Definition mine (rid : string) (l : list Payload) : list Payload :=
  List.filter (fun p => bool_decide (p_request_id p = rid)) l.

(** The payloads of a request that wait in the scheduler. *)
Definition held_payloads (s : Omni) (rid : string) : list Payload :=
  mine rid (o_backlog s) ++ option_list (od_get rid (o_deferred_payloads s)) ++
  option_list ((fun e => e.1.1) <$> od_get rid (o_request_builds s)) ++
  option_list ((fun e => e.1.1) <$> od_get rid (o_request_admissions s)).

Definition pending_feed (ps : list Payload) (s : Omni) (rid : string) : Feed :=
  {| f_chunks := concat (map p_prefetched_chunks ps) ++ i_chunks (ingress_of s rid);
     f_updates := updates_of s rid;
     f_done := i_done (ingress_of s rid) |}.

Definition data_feed (d : DataObj) : Feed :=
  {| f_chunks := d_stream_chunks d; f_updates := d_request_updates d;
     f_done := d_stream_done d |}.

(** The feed of [rid] as stored; [L] are payloads a round has in hand. *)
Definition feed (L : list Payload) (s : Omni) (rid : string) : Feed :=
  match find_request_data s rid with
  | Some did => from_option data_feed no_feed (o_datas s !! did)
  | None => pending_feed (mine rid L ++ held_payloads s rid) s rid
  end.

(** The request is neither aborted nor closed, it is in one place once its payload has
    come ([placed]), and its stored feed is [F]. *)
Definition tracked (rid : string) (L : list Payload) (placed : bool) (s : Omni) (F : Feed)
  : Prop :=
  rid ∉ o_aborted_ids s ∧ rid ∉ o_completed_ids s ∧ feed L s rid = F ∧
  match find_request_data s rid with
  | Some did => placed = true ∧ mine rid L ++ held_payloads s rid = [] ∧
                od_get rid (o_stream_ingress s) = None ∧
                od_get rid (o_request_updates s) = None ∧ is_Some (o_datas s !! did)
  | None => length (mine rid L ++ held_payloads s rid) = (if placed then 1 else 0)%nat ∧
            List.filter (rid_is s rid) (batch_oids s) = [] ∧
            List.filter (rid_is s rid) (o_waiting_queue s) = [] ∧
            Forall (fun p => p_prefetched_stream_done p = true → i_done (ingress_of s rid) = true)
              (mine rid L ++ held_payloads s rid)
  end.

(** An error was reported for the request. *)
Definition failed (rid : string) (s : Omni) : Prop := ∃ e, OError rid e ∈ o_outbox s.

Definition built_rid (out : BuildOut) : string :=
  match out with BNow b => bd_rid b | BDeferred d => bd_rid (df_value d) end.

(** ** Well-formed schedulers *)

(** [ids] are the requests that ever get input. *)
Record wf (ids : list string) (s : Omni) : Prop := {
  w_aborted : aborted_ok s;
  w_owner : ∀ oid q did, o_reqs s !! oid = Some q → q_data q = Some did →
    ∃ d, o_datas s !! did = Some d ∧ d_req d = oid;
  w_known : ∀ oid, oid ∈ batch_oids s ++ o_waiting_queue s → is_Some (o_reqs s !! oid);
  w_deferred : od_wf (o_deferred_payloads s) ∧
    ∀ k p, (k, p) ∈ o_deferred_payloads s → p_request_id p = k;
  w_builds : od_wf (o_request_builds s) ∧
    ∀ k p psd fut, (k, (p, psd, fut)) ∈ o_request_builds s →
      p_request_id p = k ∧ psd = p_prefetched_stream_done p ∧
      ∀ out, fut = Done (Ok out) → built_rid out = k;
  w_admissions : od_wf (o_request_admissions s) ∧
    ∀ k p psd d, (k, (p, psd, d)) ∈ o_request_admissions s →
      p_request_id p = k ∧ psd = p_prefetched_stream_done p ∧ bd_rid (df_value d) = k;
  w_ingress : od_wf (o_stream_ingress s) ∧ od_keys (o_stream_ingress s) ⊆ ids;
  w_updates : od_wf (o_request_updates s) ∧ od_keys (o_request_updates s) ⊆ ids
}.

(** ** What leaves a request alone *)

Definition same_req (rid : string) (s s' : Omni) : Prop :=
  List.filter (rid_is s' rid) (batch_oids s') = List.filter (rid_is s rid) (batch_oids s) ∧
  List.filter (rid_is s' rid) (o_waiting_queue s') =
    List.filter (rid_is s rid) (o_waiting_queue s) ∧
  ∀ oid, rid_is s rid oid = true → rid_is s' rid oid = true ∧ data_of s' oid = data_of s oid.

Record undisturbed (rid : string) (s s' : Omni) : Prop := {
  u_req : same_req rid s s';
  u_held : held_payloads s' rid = held_payloads s rid;
  u_ingress : od_get rid (o_stream_ingress s') = od_get rid (o_stream_ingress s);
  u_updates : od_get rid (o_request_updates s') = od_get rid (o_request_updates s);
  u_data : ∀ did, find_request_data s rid = Some did → o_datas s' !! did = o_datas s !! did;
  u_aborted : rid ∉ o_aborted_ids s → rid ∉ o_aborted_ids s';
  u_completed : rid ∉ o_completed_ids s → rid ∉ o_completed_ids s';
  u_inbox : List.filter (fun m => bool_decide (msg_rid m = rid)) (o_inbox s') =
            List.filter (fun m => bool_decide (msg_rid m = rid)) (o_inbox s);
  u_inbox_sub : ∀ m, m ∈ o_inbox s' → m ∈ o_inbox s;
  u_outbox : ∀ r, failed r s → failed r s'
}.

Lemma find_is_head {A} (f : A → bool) l : List.find f l = head (List.filter f l).
Proof. induction l as [|x l IH]; simpl; [done|]. by destruct (f x). Qed.

Lemma find_request_data_same rid s s' :
  same_req rid s s' → find_request_data s' rid = find_request_data s rid.
Proof.
  intros (Hb & Hw & Hd). unfold find_request_data. rewrite !find_is_head, Hb, Hw.
  assert (∀ l oid, head (List.filter (rid_is s rid) l) = Some oid → rid_is s rid oid = true) as Hh.
  { intros l oid Ho. apply (elem_of_lfilter (rid_is s rid) l oid).
    destruct (List.filter _ l); simplify_eq/=. constructor. }
  destruct (head (List.filter (rid_is s rid) (batch_oids s))) as [oid|] eqn:E.
  { apply Hd. by apply Hh in E. }
  destruct (head (List.filter (rid_is s rid) (o_waiting_queue s))) as [oid|] eqn:E2; [|done].
  apply Hd. by apply Hh in E2.
Qed.

Lemma undisturbed_refl rid s : undisturbed rid s s.
Proof. by constructor. Qed.

Lemma undisturbed_trans rid s1 s2 s3 :
  undisturbed rid s1 s2 → undisturbed rid s2 s3 → undisturbed rid s1 s3.
Proof.
  intros A B. constructor.
  - destruct (u_req _ _ _ A) as (A1 & A2 & A3), (u_req _ _ _ B) as (B1 & B2 & B3).
    split_and!; [congruence..|]. intros oid Ho. destruct (A3 oid Ho) as [Ho2 E2].
    destruct (B3 oid Ho2) as [Ho3 E3]. split; [done|congruence].
  - by rewrite (u_held _ _ _ B), (u_held _ _ _ A).
  - by rewrite (u_ingress _ _ _ B), (u_ingress _ _ _ A).
  - by rewrite (u_updates _ _ _ B), (u_updates _ _ _ A).
  - intros did Hd. rewrite (u_data _ _ _ B); [by apply (u_data _ _ _ A)|].
    by rewrite (find_request_data_same rid s1 s2) by apply A.
  - intros Hr. apply (u_aborted _ _ _ B), (u_aborted _ _ _ A), Hr.
  - intros Hr. apply (u_completed _ _ _ B), (u_completed _ _ _ A), Hr.
  - by rewrite (u_inbox _ _ _ B), (u_inbox _ _ _ A).
  - intros m Hm. apply (u_inbox_sub _ _ _ A), (u_inbox_sub _ _ _ B), Hm.
  - intros r Hr. apply (u_outbox _ _ _ B), (u_outbox _ _ _ A), Hr.
Qed.

(** A step that leaves the request alone but for moving its payload. *)
Lemma tracked_move rid L L' placed s s' F :
  same_req rid s s' →
  mine rid L' ++ held_payloads s' rid ≡ₚ mine rid L ++ held_payloads s rid →
  od_get rid (o_stream_ingress s') = od_get rid (o_stream_ingress s) →
  od_get rid (o_request_updates s') = od_get rid (o_request_updates s) →
  (∀ did, find_request_data s rid = Some did → o_datas s' !! did = o_datas s !! did) →
  (rid ∉ o_aborted_ids s → rid ∉ o_aborted_ids s') →
  (rid ∉ o_completed_ids s → rid ∉ o_completed_ids s') →
  tracked rid L placed s F → tracked rid L' placed s' F.
Proof.
  intros Hreq Hperm Hi Hu Hd Hab Hco (Ha & Hc & Hf & Hm).
  pose proof (find_request_data_same rid s s' Hreq) as E.
  unfold tracked, feed in *. rewrite E, Hi, Hu.
  destruct (find_request_data s rid) as [did|] eqn:Ed.
  - destruct Hm as (Hp & Hnil & Hm). rewrite Hnil in Hperm. apply Permutation_nil_r in Hperm.
    rewrite (Hd did eq_refl). split_and!; auto; apply Hm.
  - destruct Hm as (Hlen & Hb & Hw & Hdn).
    assert (mine rid L' ++ held_payloads s' rid = mine rid L ++ held_payloads s rid) as Heq.
    { destruct (mine rid L ++ held_payloads s rid) as [|p [|]]; simpl in Hlen.
      - by apply Permutation_nil_r in Hperm.
      - by apply Permutation_singleton_r in Hperm.
      - by destruct placed. }
    rewrite Heq. unfold pending_feed, ingress_of, updates_of in *. rewrite Hi, Hu.
    destruct Hreq as (-> & -> & _). split_and!; auto.
Qed.

Lemma tracked_undisturbed rid L placed s s' F :
  undisturbed rid s s' → tracked rid L placed s F → tracked rid L placed s' F.
Proof. intros [A B C D E F' G _ _ _]. apply tracked_move; try done. by rewrite B. Qed.
End Feed.

(** ** Statements that leave a request alone *)

Section Calm.
Context {T : Types} (ids : list string) (rid : string).

Definition calm_at {A} (s : Omni) (m : M Omni A) : Prop :=
  ∃ a s', m s = (Ok a, s') ∧ wf ids s' ∧ undisturbed rid s s'.

Lemma calm_ret {A} s (a : A) : wf ids s → calm_at s (mret a).
Proof. intros Hw. exists a, s. split_and!; [done..|apply undisturbed_refl]. Qed.

Lemma calm_bind {A B} s (m : M Omni A) (f : A → M Omni B) :
  calm_at s m → (∀ a s1, wf ids s1 → undisturbed rid s s1 → calm_at s1 (f a)) →
  calm_at s (m ≫= f).
Proof.
  intros (a & s1 & E & Hw & U) Hf. destruct (Hf a s1 Hw U) as (b & s2 & E2 & Hw2 & U2).
  exists b, s2. split_and!; [by rewrite (bind_run _ _ _ _ _ E)|done|by eapply undisturbed_trans].
Qed.

Lemma calm_bind_eq {A B} s (m : M Omni A) (f : A → M Omni B) :
  calm_at s m →
  (∀ a s1, m s = (Ok a, s1) → wf ids s1 → undisturbed rid s s1 → calm_at s1 (f a)) →
  calm_at s (m ≫= f).
Proof.
  intros (a & s1 & E & Hw & U) Hf. destruct (Hf a s1 E Hw U) as (b & s2 & E2 & Hw2 & U2).
  exists b, s2. split_and!; [by rewrite (bind_run _ _ _ _ _ E)|done|by eapply undisturbed_trans].
Qed.

Lemma calm_get {B} s (f : Omni → M Omni B) : calm_at s (f s) → calm_at s (get ≫= f).
Proof. done. Qed.

Lemma calm_modify s f : wf ids (f s) ∧ undisturbed rid s (f s) → calm_at s (modify f).
Proof. intros [Hw U]. by exists tt, (f s). Qed.

Lemma calm_foreach {A} s (f : A → M Omni unit) l :
  wf ids s → (∀ x s1, x ∈ l → wf ids s1 → undisturbed rid s s1 → calm_at s1 (f x)) →
  calm_at s (mforeach f l).
Proof.
  revert s. induction l as [|x l IH]; intros s Hw Hf; [by apply calm_ret|].
  cbn [mforeach]. apply calm_bind; [apply Hf; [constructor|done|apply undisturbed_refl]|].
  intros _ s1 Hw1 U1. apply IH; [done|]. intros y s2 Hy Hw2 U2. apply Hf; [by constructor|done|].
  by eapply undisturbed_trans.
Qed.

(** Updates outside what the invariant and the frame speak of. *)
Definition core (s : Omni) :=
  (o_reqs s, o_datas s, batch_oids s, o_waiting_queue s, (o_aborted_ids s, o_aborted_order s),
   o_completed_ids s, o_stream_ingress s, o_request_updates s, o_deferred_payloads s,
   o_request_builds s, o_request_admissions s, o_backlog s, o_inbox s, o_outbox s).

Lemma core_calm s s' : core s' = core s → wf ids s → wf ids s' ∧ undisturbed rid s s'.
Proof.
  unfold core. intros E Hw. injection E as E1 E2 E3 E4 E5 E5' E6 E7 E8 E9 E10 E11 E12 E13 E14.
  destruct Hw as [W1 W2 W3 W4 W5 W6 W7 W8]. split.
  - constructor; unfold aborted_ok in *;
      rewrite ?E1, ?E2, ?E3, ?E4, ?E5, ?E5', ?E7, ?E8, ?E9, ?E10, ?E11; assumption.
  - constructor; unfold same_req, held_payloads, failed, data_of;
      rewrite ?E1, ?E2, ?E3, ?E4, ?E5, ?E6, ?E7, ?E8, ?E9, ?E10, ?E11, ?E12, ?E13, ?E14; try done.
    unfold rid_is. rewrite E1. done.
Qed.

Lemma calm_core s f : core (f s) = core s → wf ids s → calm_at s (modify f).
Proof. intros E Hw. apply calm_modify. by apply core_calm. Qed.

(** Rewriting request objects that keep their identifier, and their data unless they are
    another request's. *)
Lemma reqs_calm s m :
  wf ids s →
  (∀ oid, (q_rid <$> m !! oid) = (q_rid <$> o_reqs s !! oid)) →
  (∀ oid q, m !! oid = Some q → q_data q = data_of s oid ∨ q_data q = None ∧ q_rid q ≠ rid) →
  wf ids (s <| o_reqs := m |>) ∧ undisturbed rid s (s <| o_reqs := m |>).
Proof.
  intros Hw Hr Hd. pose proof Hw as [W1 W2 W3 W4 W5 W6 W7 W8].
  assert (∀ r oid, rid_is (s <| o_reqs := m |>) r oid = rid_is s r oid) as Hrid.
  { intros r oid. by apply rid_is_same. }
  split.
  - constructor; try assumption.
    + intros oid q did Eq Ed. change (m !! oid = Some q) in Eq. destruct (Hd oid q Eq) as [Hs|[Hs _]].
      * rewrite Ed in Hs. symmetry in Hs. unfold data_of in Hs.
        destruct (o_reqs s !! oid) as [q0|] eqn:E0; [|done]. by apply (W2 oid q0).
      * by rewrite Hs in Ed.
    + intros oid Ho. specialize (W3 oid Ho). specialize (Hr oid).
      change (is_Some (m !! oid)). destruct W3 as [q Eq]. rewrite Eq in Hr.
      destruct (m !! oid); [done|discriminate].
  - constructor; try done. split_and!.
    + apply List.filter_ext. intros o. apply Hrid.
    + apply List.filter_ext. intros o. apply Hrid.
    + intros oid Ho. rewrite Hrid. split; [done|].
      change (data_of (s <| o_reqs := m |>) oid) with (m !! oid ≫= q_data).
      destruct (m !! oid) as [q|] eqn:Eq; simpl.
      * destruct (Hd oid q Eq) as [Hs|[_ Hne]]; [done|]. exfalso. apply Hne.
        specialize (Hr oid). rewrite Eq in Hr. apply rid_is_true in Ho as (q0 & E0 & <-).
        rewrite E0 in Hr. by injection Hr.
      * unfold data_of. apply rid_is_true in Ho as (q0 & E0 & _). specialize (Hr oid).
        by rewrite Eq, E0 in Hr.
Qed.

Lemma calm_update_req s oid f :
  wf ids s →
  (∀ q, o_reqs s !! oid = Some q → q_rid (f q) = q_rid q ∧
     (q_data (f q) = q_data q ∨ q_data (f q) = None ∧ q_rid q ≠ rid)) →
  calm_at s (update_req oid f).
Proof.
  intros Hw Hf. apply calm_modify, reqs_calm; [done|..].
  - intros o. destruct (decide (o = oid)) as [->|]; [|by rewrite lookup_alter_ne].
    rewrite lookup_alter_eq. destruct (o_reqs s !! oid) as [q|] eqn:E; [|done]. simpl.
    by rewrite (proj1 (Hf q eq_refl)).
  - intros o q. unfold data_of. destruct (decide (o = oid)) as [->|].
    + rewrite lookup_alter_eq. destruct (o_reqs s !! oid) as [q0|]; [|done]. intros [= <-].
      destruct (Hf q0 eq_refl) as [Hr [Hd|[Hd Hne]]]; simpl; [by left|right]. by rewrite Hr.
    + rewrite lookup_alter_ne by done. intros ->. by left.
Qed.
End Calm.

(** ** An abort leaves the other requests alone *)

Section CalmAbort.
Context {T : Types} (ids : list string) (rid other : string).
Context (release : ReqObj → Pool → ReqObj * Pool).
Context (Hrelease : release_law release) (Hne : other ≠ rid).
Abbreviation calm := (calm_at ids rid).

Lemma mine_others l :
  mine rid (List.filter (fun p => negb (bool_decide (p_request_id p = other))) l) = mine rid l.
Proof.
  unfold mine. induction l as [|p l IH]; simpl; [done|].
  destruct (decide (p_request_id p = other)) as [E|E].
  - rewrite (bool_decide_eq_true_2 (p_request_id p = other)) by done. simpl. rewrite IH.
    rewrite bool_decide_eq_false_2; [done|congruence].
  - rewrite (bool_decide_eq_false_2 (p_request_id p = other)) by done. simpl. by rewrite IH.
Qed.

Lemma filter_rid_others s l :
  List.filter (rid_is s rid) (List.filter (fun o => negb (rid_is s other o)) l) =
  List.filter (rid_is s rid) l.
Proof.
  induction l as [|o l IH]; simpl; [done|].
  destruct (rid_is s other o) eqn:E; simpl; rewrite IH; [|done].
  destruct (rid_is s rid o) eqn:E2; [|done].
  apply rid_is_true in E as (q & Eq & Hq). apply rid_is_true in E2 as (q' & Eq' & Hq').
  congruence.
Qed.

Lemma elem_pop {V} k (d : list (string * V)) x : x ∈ od_pop k d → x ∈ d.
Proof. unfold od_pop. by intros [_ ?]%list_elem_of_filter. Qed.

Lemma keys_pop {V} k (d : list (string * V)) l : od_keys d ⊆ l → od_keys (od_pop k d) ⊆ l.
Proof. intros H x. rewrite od_pop_keys. intros [_ Hx]%list_elem_of_filter. by apply H. Qed.

Lemma calm_remember_aborted s : wf ids s → calm s (remember_aborted other).
Proof.
  intros Hw. destruct (remember_aborted_run other s) as (ids' & order & E & _ & Hsub & Hok);
    [apply Hw|]. do 2 eexists. split; [exact E|]. destruct Hw as [W1 W2 W3 W4 W5 W6 W7 W8].
  split; constructor; try assumption; try done.
  intros Hr Hin. apply Hsub in Hin. set_solver.
Qed.

Lemma calm_mark_reqs s l : wf ids s → calm s (mark_reqs other l).
Proof.
  revert s. induction l as [|oid l IH]; intros s Hw; [by apply calm_ret|]. cbn [mark_reqs].
  apply calm_bind.
  - apply calm_get. destruct (o_reqs s !! oid) as [q|] eqn:Eq; [|by apply calm_ret].
    destruct (negb _); [by apply calm_ret|]. destruct (q_terminal_claimed q); [by apply calm_ret|].
    destruct (_ || _); [by apply calm_ret|]. apply calm_bind; [|intros; by apply calm_ret].
    apply calm_update_req; [done|]. intros q' Eq'. split; [done|by left].
  - intros b s1 Hw1 _. apply calm_bind; [by apply IH|]. intros; by apply calm_ret.
Qed.

Lemma calm_detach s l :
  wf ids s → (∀ o, o ∈ l → rid_is s other o = true) → calm s (mforeach detach_request_data l).
Proof.
  intros Hw Hl. eexists _, _. split; [apply detach_all_run|]. apply reqs_calm; [done|..].
  - apply same_rids_detach.
  - intros o q. rewrite lookup_detach_in. case_bool_decide as Ho.
    + apply Hl, rid_is_true in Ho as (q0 & Eq & Hq). rewrite Eq. intros [= <-]. right.
      split; [done|]. change (q_rid q0 ≠ rid). congruence.
    + unfold data_of. intros ->. by left.
Qed.

Lemma calm_drop_waiting s : wf ids s → calm s (drop_waiting other).
Proof.
  intros Hw. unfold drop_waiting. apply calm_get.
  assert (∃ s1, mforeach detach_request_data
      (List.filter (rid_is s other) (o_waiting_queue s)) s = (Ok tt, s1) ∧
    wf ids s1 ∧ undisturbed rid s s1 ∧ o_waiting_queue s1 = o_waiting_queue s ∧
    ∀ r o, rid_is s1 r o = rid_is s r o) as (s1 & E1 & Hw1 & U1 & Eq & Hr).
  { destruct (calm_detach s (List.filter (rid_is s other) (o_waiting_queue s)) Hw)
      as ([] & s1 & E & Hw1 & U1); [intros o Ho; by apply elem_of_lfilter in Ho as [_ ?]|].
    exists s1. split_and!; [done..| |]; rewrite detach_all_run in E; injection E as <-; [done|].
    intros r o. apply rid_is_same, same_rids_detach. }
  do 2 eexists. split; [rewrite (bind_run _ _ _ _ _ E1); reflexivity|].
  set (W := List.filter _ _).
  assert (List.filter (rid_is s1 rid) W = List.filter (rid_is s1 rid) (o_waiting_queue s1)) as HW.
  { rewrite Eq, !(List.filter_ext _ _ (Hr rid)). apply filter_rid_others. }
  assert (∀ o, o ∈ W → o ∈ o_waiting_queue s1) as Hsub.
  { rewrite Eq. by intros o [? _]%elem_of_lfilter. }
  split.
  - destruct Hw1 as [W1 W2 W3 W4 W5 W6 W7 W8]. constructor; try assumption.
    intros o [Ho|Ho]%elem_of_app; apply W3, elem_of_app; auto.
  - eapply undisturbed_trans; [exact U1|]. by constructor.
Qed.

Lemma calm_remove_from_batch s slot :
  wf ids s → slot ∈ slots s → calm s (remove_from_batch slot other).
Proof.
  intros Hw Hslot. do 2 eexists. split; [apply remove_from_batch_run|].
  set (m := detach_in _ _).
  destruct (reqs_calm ids rid s m Hw) as [Hw1 U1].
  { apply same_rids_detach. }
  { intros o q. unfold m. rewrite lookup_detach_in. case_bool_decide as Ho.
    - apply elem_of_lfilter in Ho as [_ Ho]. apply rid_is_true in Ho as (q0 & Eq & Hq).
      rewrite Eq. intros [= <-]. right. split; [done|]. change (q_rid q0 ≠ rid). congruence.
    - unfold data_of. intros ->. by left. }
  set (s1 := s <| o_reqs := m |>) in *.
  assert (same_rids (o_reqs s) (o_reqs s1)) as Hr1 by apply same_rids_detach.
  assert (∀ bid, reqs_of (s1 <| o_batches := without_in s other [slot] (o_batches s) |>) bid =
    if in_slots [slot] bid then List.filter (fun o => negb (rid_is s1 other o)) (reqs_of s1 bid)
    else reqs_of s1 bid) as Hb.
  { intros bid. rewrite (reqs_of_without_in s1 _ other [slot] bid); [done|].
    cbn. by rewrite (without_in_same s s1) by done. }
  set (s2 := s1 <| o_batches := _ |>) in *.
  split.
  - destruct Hw1 as [W1 W2 W3 W4 W5 W6 W7 W8]. constructor; try assumption.
    intros o Ho. apply W3. apply elem_of_app in Ho as [Ho|Ho]; apply elem_of_app; [left|by right].
    apply batch_oids_iff in Ho as (bid & Hbid & Ho). apply batch_oids_iff.
    exists bid. split; [done|]. rewrite Hb in Ho.
    destruct (in_slots [slot] bid); [by apply elem_of_lfilter in Ho as [? _]|done].
  - eapply undisturbed_trans; [exact U1|]. constructor; try done. split_and!; [|done|done].
    unfold batch_oids. change (batch_slots s2) with (batch_slots s1).
    change (rid_is s2 rid) with (rid_is s1 rid).
    induction (batch_slots s1) as [|bid l IH]; simpl; [done|].
    rewrite !List.filter_app, IH, Hb. f_equal.
    destruct (in_slots [slot] bid); [apply filter_rid_others|done].
Qed.

Lemma calm_release s : wf ids s → calm s (release_immediate_request_resources release other).
Proof.
  intros Hw. unfold release_immediate_request_resources. apply calm_get.
  set (L := unseen [] _). assert (NoDup L) as Hnd by apply unseen_spec.
  destruct (release_all_run release L s Hrelease Hnd) as (m & E & Hout & Hin).
  do 2 eexists. split; [exact E|].
  assert (∀ o, m !! o = o_reqs s !! o ∨ ∃ q ext, o_reqs s !! o = Some q ∧
    m !! o = Some (q <| q_req_pool_idx := None |> <| q_ext := ext |>)) as Hm.
  { intros o. destruct (decide (o ∈ L)) as [Ho|Ho]; [|left; by apply Hout].
    destruct (o_reqs s !! o) as [q|] eqn:Eq.
    - destruct (Hin o q Ho Eq) as [ext He]. right. by exists q, ext.
    - apply unseen_spec in Ho as [Ho _]. apply elem_of_lfilter in Ho as [_ Ho].
      unfold rid_is in Ho. by rewrite Eq in Ho. }
  destruct (reqs_calm ids rid s m Hw) as [Hw1 U1].
  { intros o. destruct (Hm o) as [->|(q & ext & -> & ->)]; done. }
  { intros o q Eq. left. unfold data_of. destruct (Hm o) as [E'|(q0 & ext & E0 & E')].
    - rewrite E' in Eq. by rewrite Eq.
    - rewrite E' in Eq. injection Eq as <-. by rewrite E0. }
  destruct (core_calm ids rid (s <| o_reqs := m |>)
    (s <| o_reqs := m |> <| o_pool := released release s (List.filter (holding s) L) (o_pool s) |>))
    as [Hw2 U2]; [done|done|]. split; [done|by eapply undisturbed_trans].
Qed.

Lemma slots_release s s' :
  release_immediate_request_resources release other s = (Ok tt, s') → slots s' = slots s.
Proof.
  unfold release_immediate_request_resources. unfold get at 1, mbind, M_bind.
  set (L := unseen [] _). assert (NoDup L) as Hnd by apply unseen_spec.
  destruct (release_all_run release L s Hrelease Hnd) as (m & -> & _). by intros [= <-].
Qed.

Lemma slots_remove slot s s' :
  remove_from_batch slot other s = (Ok tt, s') → slots s' = slots s.
Proof. rewrite remove_from_batch_run. by intros [= <-]. Qed.

Lemma calm_clean_up s : wf ids s → calm s (clean_up_now release other).
Proof.
  intros Hw. unfold clean_up_now. apply calm_get.
  apply calm_bind_eq; [by apply calm_release|]. intros [] s1 E1 Hw1 _.
  apply slots_release in E1.
  assert (∀ slot, slot ∈ slots s → ∀ s2 s3, slots s2 = slots s →
    remove_from_batch slot other s2 = (Ok tt, s3) → slots s3 = slots s) as Hslots.
  { intros slot _ s2 s3 E2 E. by rewrite (slots_remove _ _ _ E). }
  apply calm_bind_eq; [apply calm_remove_from_batch; [done|]; rewrite E1; set_solver|].
  intros [] s2 E2 Hw2 _. apply slots_remove in E2.
  apply calm_bind_eq; [apply calm_remove_from_batch; [done|]; rewrite E2, E1; set_solver|].
  intros [] s3 E3 Hw3 _. apply slots_remove in E3.
  apply calm_bind_eq; [apply calm_remove_from_batch; [done|]; rewrite E3, E2, E1; set_solver|].
  intros [] s4 E4 Hw4 _. apply slots_remove in E4.
  apply calm_remove_from_batch; [done|]. rewrite E4, E3, E2, E1. set_solver.
Qed.

Lemma calm_drop_pending_work s : wf ids s → calm s (drop_pending_work other).
Proof.
  intros Hw. apply calm_modify. destruct Hw as [W1 W2 W3 W4 [W5 W5'] [W6 W6'] W7 W8]. split.
  - constructor; try done.
    + split; [by apply od_pop_wf|]. intros k p psd fut Hin%elem_pop. by apply W5'.
    + split; [by apply od_pop_wf|]. intros k p psd fut Hin%elem_pop. by eapply W6'.
  - constructor; try done. unfold held_payloads. cbn -[mine].
    change (o_backlog (s <| o_request_builds := _ |> <| o_request_admissions := _ |>
      <| o_backlog := ?l |>)) with l.
    change (o_request_builds (s <| o_request_builds := ?l |> <| o_request_admissions := _ |>
      <| o_backlog := _ |>)) with l.
    change (o_request_admissions (s <| o_request_builds := _ |> <| o_request_admissions := ?l |>
      <| o_backlog := _ |>)) with l.
    by rewrite mine_others, !od_get_pop_ne by done.
Qed.

Lemma calm_drop_buffers s : wf ids s → calm s (drop_buffers other).
Proof.
  intros Hw. apply calm_modify. destruct Hw as [W1 W2 W3 [W4 W4'] W5 W6 [W7 W7'] [W8 W8']]. split.
  - constructor; try done.
    + split; [by apply od_pop_wf|]. intros k p Hin%elem_pop. by apply W4'.
    + split; [by apply od_pop_wf|by apply keys_pop].
    + split; [by apply od_pop_wf|by apply keys_pop].
  - constructor; try done; unfold held_payloads; fields; by rewrite od_get_pop_ne.
Qed.

Lemma calm_drain_inbox s : wf ids s → calm s (drain_inbox_for_request other).
Proof.
  intros Hw. apply calm_modify. split; [by destruct Hw|]. constructor; try done; fields.
  2:{ by intros m [? _]%elem_of_lfilter. }
  induction (o_inbox s) as [|m l IH]; simpl; [done|].
  destruct (decide (msg_rid m = other)) as [E|E].
  - rewrite (bool_decide_eq_true_2 (msg_rid m = other)) by done. simpl. rewrite IH.
    rewrite bool_decide_eq_false_2; [done|congruence].
  - rewrite (bool_decide_eq_false_2 (msg_rid m = other)) by done. simpl. by rewrite IH.
Qed.

Lemma calm_emit s status : wf ids s → calm s (emit_model_path_end_once other status).
Proof.
  intros Hw. destruct (emit_model_path_end_once_run other status s) as (P & E & Hrun).
  do 2 eexists. split; [exact Hrun|]. by apply core_calm.
Qed.

Lemma calm_abort s defer : wf ids s → calm s (abort release other defer).
Proof.
  intros Hw. unfold abort. apply calm_bind; [by apply calm_remember_aborted|].
  intros _ s1 Hw1 _. apply calm_bind.
  { destruct defer; [|by apply calm_ret]. by apply calm_get, calm_mark_reqs. }
  intros marked s2 Hw2 _. apply calm_bind; [by apply calm_drop_pending_work|].
  intros _ s3 Hw3 _. apply calm_bind; [by apply calm_drop_waiting|].
  intros _ s4 Hw4 _. apply calm_bind.
  { destruct marked; [by apply calm_ret|]. by apply calm_core. }
  intros _ s5 Hw5 _. apply calm_bind; [by apply calm_drop_buffers|].
  intros _ s6 Hw6 _. apply calm_bind; [by apply calm_emit|].
  intros _ s7 Hw7 _. apply calm_bind; [by apply calm_core|].
  intros _ s8 Hw8 _. apply calm_bind.
  { destruct marked; [by apply calm_ret|by apply calm_clean_up]. }
  intros _ s9 Hw9 _. by apply calm_drain_inbox.
Qed.
End CalmAbort.

(** ** So does the intake of another request *)

(** Hooks with the default handlers, a builder that keeps identifiers and an upstream that
    releases rows as documented. *)
Record plain_hooks `{T : Types} (H : Hooks) : Prop := {
  p_entry : h_is_entry_rank H = true;
  p_chunk : h_stream_chunk_handler H = None;
  p_done : h_stream_done_handler H = None;
  p_update : h_request_update_handler H = None;
  p_release : release_law (h_release_kv_cache H);
  p_builder : ∀ p out, h_request_builder H p = Ok out → built_rid out = p_request_id p
}.

Section CalmIntake.
Context {T : Types} (H : Hooks) (HH : plain_hooks H) (ids : list string).
Context (Hids : zlength ids < PENDING_STREAM_REQUEST_LIMIT).
Abbreviation wf := (wf ids).

Lemma find_owner s r did :
  find_request_data s r = Some did →
  ∃ oid q, o_reqs s !! oid = Some q ∧ q_rid q = r ∧ q_data q = Some did.
Proof.
  unfold find_request_data. intros E.
  assert (∀ l oid, List.find (rid_is s r) l = Some oid → data_of s oid = Some did →
    ∃ oid q, o_reqs s !! oid = Some q ∧ q_rid q = r ∧ q_data q = Some did) as Hf.
  { intros l oid [_ Ho]%List.find_some Ed. apply rid_is_true in Ho as (q & Eq & Hq).
    unfold data_of in Ed. rewrite Eq in Ed. by exists oid, q. }
  destruct (List.find (rid_is s r) (batch_oids s)) eqn:E1; [by eapply Hf|].
  destruct (List.find (rid_is s r) (o_waiting_queue s)) eqn:E2; [by eapply Hf|done].
Qed.

Lemma find_data s r did : wf s → find_request_data s r = Some did → is_Some (o_datas s !! did).
Proof.
  intros Hw (oid & q & Eq & _ & Ed)%find_owner. destruct (w_owner _ _ Hw oid q did Eq Ed) as (d & -> & _).
  done.
Qed.

(** Different requests have different data. *)
Lemma find_inj s r r' did :
  wf s → find_request_data s r = Some did → find_request_data s r' = Some did → r = r'.
Proof.
  intros Hw (oid & q & Eq & <- & Ed)%find_owner (oid' & q' & Eq' & <- & Ed')%find_owner.
  destruct (w_owner _ _ Hw oid q did Eq Ed) as (d & E1 & <-).
  destruct (w_owner _ _ Hw oid' q' did Eq' Ed') as (d' & E2 & <-). congruence.
Qed.

Lemma reserve_id {V} limit retained r (d : list (string * V)) :
  od_wf d → od_keys d ⊆ ids → zlength ids < limit → reserve limit retained r d = d.
Proof.
  intros Hw Hsub Hl. unfold reserve.
  assert (zlength d ≤ zlength ids) as Hle.
  { unfold zlength. rewrite <- (length_map fst d). apply Nat2Z.inj_le, NoDup_incl_length.
    - by apply NoDup_ListNoDup.
    - intros x Hx. rewrite <- list_elem_of_In in Hx |- *. by apply Hsub. }
  replace (zlength d <? limit) with true by (symmetry; apply Z.ltb_lt; lia).
  by rewrite orb_true_r.
Qed.

Section Other.
Context (rid other : string) (Hne : other ≠ rid).
Abbreviation calm := (calm_at ids rid).

(** The data is not the one of [rid]. *)
Definition apart (s : Omni) (did : nat) : Prop :=
  ∀ did0, find_request_data s rid = Some did0 → did0 ≠ did.

Lemma apart_undisturbed s s' did : undisturbed rid s s' → apart s did → apart s' did.
Proof. intros U Ha did0. rewrite (find_request_data_same _ s s') by apply U. apply Ha. Qed.

Lemma calm_on_data s did f :
  wf s → apart s did → (∀ d, d_req (f d) = d_req d) → calm s (on_data did f).
Proof.
  intros Hw Ha Hf. apply calm_modify. split.
  - destruct Hw as [W1 W2 W3 W4 W5 W6 W7 W8]. constructor; try assumption.
    intros oid q did' Eq Ed. destruct (W2 oid q did' Eq Ed) as (d & E & Hd). fields.
    destruct (decide (did' = did)) as [->|]; [|by rewrite lookup_alter_ne by done; exists d].
    rewrite lookup_alter_eq, E. exists (f d). by rewrite Hf.
  - constructor; try done. intros did0 E0. fields. apply lookup_alter_ne. apply not_eq_sym.
    by apply Ha.
Qed.

Lemma calm_append s did c : wf s → apart s did → calm s (append_stream_chunk H did c).
Proof.
  intros Hw Ha. apply calm_on_data; [done..|]. intros d. by rewrite (p_chunk H HH).
Qed.

Lemma calm_mark_done s did : wf s → apart s did → calm s (mark_stream_done H did).
Proof.
  intros Hw Ha. apply calm_on_data; [done..|]. intros d. by rewrite (p_done H HH).
Qed.

Lemma calm_apply_update s did u : wf s → apart s did → calm s (apply_request_update H did u).
Proof.
  intros Hw Ha. unfold apply_request_update. rewrite (p_update H HH). by apply calm_on_data.
Qed.

Lemma calm_error s e : wf s → calm s (emit_request_error H other e).
Proof.
  intros Hw. unfold emit_request_error. destruct (negb _); [by apply calm_ret|].
  apply calm_modify. split; [by destruct Hw|]. constructor; try done.
  intros r (e' & He). exists e'. fields. apply elem_of_app. by left.
Qed.

Lemma calm_reject s e : wf s → calm s (reject H other e).
Proof.
  intros Hw. apply calm_bind; [by apply calm_error|]. intros _ s1 Hw1 _.
  by apply calm_abort; [apply HH|..].
Qed.

(** New entries of the dictionaries under another key. *)
Lemma calm_ingress s i :
  wf s → other ∈ ids →
  wf (s <| o_stream_ingress := od_set other i (o_stream_ingress s) |>) ∧
  undisturbed rid s (s <| o_stream_ingress := od_set other i (o_stream_ingress s) |>).
Proof.
  intros [W1 W2 W3 W4 W5 W6 [W7 W7'] W8] Ho. split.
  - constructor; try done. split; [by apply od_set_wf|]. fields. rewrite od_set_keys.
    destruct (od_mem _ _); [done|]. intros x. rewrite elem_of_app, list_elem_of_singleton.
    intros [Hx| ->]; auto.
  - constructor; try done. fields. by apply od_get_set_ne.
Qed.

Lemma calm_reserve s : wf s → calm s (reserve_pending_stream_request other).
Proof.
  intros Hw. apply calm_modify. rewrite reserve_id; [|apply Hw..|done].
  apply core_calm; [|done]. by destruct s.
Qed.

Lemma calm_recheck s again : wf s → calm s (recheck_deferred other again).
Proof. intros Hw. apply calm_core; [|done]. by destruct (_ && _). Qed.

Lemma apart_other s did : wf s → find_request_data s other = Some did → apart s did.
Proof. intros Hw E did0 E0 ->. apply Hne. by eapply find_inj. Qed.

Lemma calm_on_stream_chunk s c : wf s → other ∈ ids → calm s (on_stream_chunk H other c).
Proof.
  intros Hw Ho. apply calm_get. case_bool_decide; [by apply calm_ret|].
  destruct (find_request_data s other) eqn:E; [apply calm_append; [done|by apply apart_other]|].
  apply calm_bind; [by apply calm_reserve|]. intros _ s1 Hw1 _. apply calm_bind.
  - by apply calm_modify, calm_ingress.
  - intros _ s2 Hw2 _. by apply calm_recheck.
Qed.

Lemma calm_on_stream_done s : wf s → other ∈ ids → calm s (on_stream_done H other).
Proof.
  intros Hw Ho. apply calm_get. case_bool_decide; [by apply calm_ret|].
  destruct (find_request_data s other) eqn:E; [apply calm_mark_done; [done|by apply apart_other]|].
  apply calm_bind; [by apply calm_reserve|]. intros _ s1 Hw1 _. apply calm_bind.
  - by apply calm_modify, calm_ingress.
  - intros _ s2 Hw2 _. by apply calm_recheck.
Qed.

Lemma calm_on_request_update s u : wf s → other ∈ ids → calm s (on_request_update H other u).
Proof.
  intros Hw Ho. apply calm_get. case_bool_decide; [by apply calm_ret|].
  destruct (find_request_data s other) eqn:E; [apply calm_apply_update; [done|by apply apart_other]|].
  apply calm_bind.
  - apply calm_modify. rewrite reserve_id; [|apply Hw..|done]. apply core_calm; [|done]. by destruct s.
  - intros _ s1 [W1 W2 W3 W4 W5 W6 W7 [W8 W8']] _. apply calm_modify. split.
    + constructor; try done. split; [by apply od_set_wf|]. fields. rewrite od_set_keys.
      destruct (od_mem _ _); [done|]. intros x. rewrite elem_of_app, list_elem_of_singleton.
      intros [Hx| ->]; auto.
    + constructor; try done. fields. by apply od_get_set_ne.
Qed.
End Other.

(** ** What the admission of a built request leaves behind *)

Definition extend_data (cs : list Chunk) (us : list Update) (done : bool) (d : DataObj) : DataObj :=
  {| d_req := d_req d; d_stream_chunks := d_stream_chunks d ++ cs;
     d_stream_done := d_stream_done d || done; d_request_updates := d_request_updates d ++ us;
     d_output_ids := d_output_ids d; d_weight_version := d_weight_version d;
     d_finish_reason := d_finish_reason d |}.

Lemma on_data_run did f g s d :
  o_datas s !! did = Some d → f d = g d →
  on_data did f s = (Ok tt, s <| o_datas := <[did := g d]> (o_datas s) |>).
Proof.
  intros E Ef. unfold on_data, modify. do 2 f_equal. apply map_eq. intros i.
  destruct (decide (i = did)) as [->|].
  - by rewrite lookup_alter_eq, E, lookup_insert_eq, <- Ef.
  - by rewrite lookup_alter_ne, lookup_insert_ne.
Qed.

Lemma assign_twice s (m m' : gmap nat DataObj) :
  s <| o_datas := m |> <| o_datas := m' |> = s <| o_datas := m' |>.
Proof. by destruct s. Qed.

Lemma extend_extend cs cs' us us' b b' d :
  extend_data cs' us' b' (extend_data cs us b d) = extend_data (cs ++ cs') (us ++ us') (b || b') d.
Proof. unfold extend_data. simpl. by rewrite !app_assoc, orb_assoc. Qed.

Lemma extend_nil d : extend_data [] [] false d = d.
Proof. unfold extend_data. rewrite !app_nil_r, orb_false_r. by destruct d. Qed.

Lemma append_run did c s d :
  o_datas s !! did = Some d →
  append_stream_chunk H did c s =
    (Ok tt, s <| o_datas := <[did := extend_data [c] [] false d]> (o_datas s) |>).
Proof.
  intros E. apply (on_data_run did _ (extend_data [c] [] false) s d E). rewrite (p_chunk H HH). unfold extend_data.
  rewrite app_nil_r, orb_false_r. by destruct d.
Qed.

Lemma mark_done_run did s d :
  o_datas s !! did = Some d →
  mark_stream_done H did s =
    (Ok tt, s <| o_datas := <[did := extend_data [] [] true d]> (o_datas s) |>).
Proof.
  intros E. apply (on_data_run did _ (extend_data [] [] true) s d E). rewrite (p_done H HH). unfold extend_data.
  rewrite !app_nil_r, orb_true_r. by destruct d.
Qed.

Lemma update_run did u s d :
  o_datas s !! did = Some d →
  apply_request_update H did u s =
    (Ok tt, s <| o_datas := <[did := extend_data [] [u] false d]> (o_datas s) |>).
Proof.
  intros E. unfold apply_request_update. rewrite (p_update H HH).
  apply (on_data_run did _ (extend_data [] [u] false) s d E). unfold extend_data.
  rewrite app_nil_r, orb_false_r. by destruct d.
Qed.

(** A loop of such statements. *)
Lemma extend_all_run {A} (f : A → M Omni unit) (g : A → list Chunk * list Update) did l s d :
  (∀ x s d, o_datas s !! did = Some d →
     f x s = (Ok tt, s <| o_datas := <[did := extend_data (g x).1 (g x).2 false d]> (o_datas s) |>)) →
  o_datas s !! did = Some d →
  mforeach f l s = (Ok tt, s <| o_datas :=
    <[did := extend_data (concat (map (fun x => (g x).1) l)) (concat (map (fun x => (g x).2) l))
               false d]> (o_datas s) |>).
Proof.
  intros Hf. revert s d. induction l as [|x l IH]; intros s d E.
  { simpl. rewrite extend_nil, insert_id by done. by destruct s. }
  cbn [mforeach]. rewrite (bind_run _ _ _ _ _ (Hf x s d E)).
  set (s1 := s <| o_datas := _ |>).
  assert (o_datas s1 = <[did := extend_data (g x).1 (g x).2 false d]> (o_datas s)) as E1 by done.
  rewrite (IH s1 (extend_data (g x).1 (g x).2 false d)) by by rewrite E1, lookup_insert_eq.
  rewrite E1, insert_insert_eq, extend_extend. unfold s1. by rewrite assign_twice.
Qed.

Lemma concat_singles {A B} (h : A → B) l : concat (map (fun x => [h x]) l) = map h l.
Proof. induction l; simpl; congruence. Qed.

Lemma concat_nils {A B} (l : list A) : concat (map (fun _ => @nil B) l) = [].
Proof. by induction l. Qed.

Lemma append_all_run did cs s d :
  o_datas s !! did = Some d →
  mforeach (append_stream_chunk H did) cs s =
    (Ok tt, s <| o_datas := <[did := extend_data cs [] false d]> (o_datas s) |>).
Proof.
  intros E. rewrite (extend_all_run _ (fun c => ([c], [])) did cs s d) by (try done; apply append_run).
  simpl. by rewrite concat_singles, map_id, concat_nils.
Qed.

Lemma update_all_run did us s d :
  o_datas s !! did = Some d →
  mforeach (apply_request_update H did) us s =
    (Ok tt, s <| o_datas := <[did := extend_data [] us false d]> (o_datas s) |>).
Proof.
  intros E. rewrite (extend_all_run _ (fun u => ([], [u])) did us s d) by (try done; apply update_run).
  simpl. by rewrite concat_singles, map_id, concat_nils.
Qed.

Lemma initialize_run did p s d :
  o_datas s !! did = Some d →
  initialize_request_stream_state H did p s =
    (Ok tt, s <| o_datas := <[did := extend_data (p_prefetched_chunks p)
                 (updates_of s (p_request_id p)) (p_prefetched_stream_done p) d]> (o_datas s) |>
              <| o_request_updates := od_pop (p_request_id p) (o_request_updates s) |>).
Proof.
  intros E. unfold initialize_request_stream_state.
  rewrite (bind_run _ _ _ _ _ (append_all_run did _ s d E)).
  set (d1 := extend_data _ _ _ d). set (s1 := s <| o_datas := _ |>).
  assert (o_datas s1 = <[did := d1]> (o_datas s)) as E1 by done.
  assert (o_datas s1 !! did = Some d1) as L1 by by rewrite E1, lookup_insert_eq.
  set (d2 := extend_data [] [] (p_prefetched_stream_done p) d1).
  set (s2 := s <| o_datas := <[did := d2]> (o_datas s) |>).
  assert ((if p_prefetched_stream_done p then mark_stream_done H did else mret tt) s1 = (Ok tt, s2))
    as Hm.
  { unfold s2, d2. destruct (p_prefetched_stream_done p).
    - rewrite (mark_done_run did s1 d1 L1), E1, insert_insert_eq. by destruct s.
    - rewrite extend_nil. done. }
  rewrite (bind_run _ _ _ _ _ Hm). erewrite bind_run by reflexivity. erewrite bind_run by reflexivity.
  set (s3 := s2 <| o_request_updates := _ |>).
  assert (o_datas s3 = <[did := d2]> (o_datas s)) as E3 by done.
  change (updates_of s2 (p_request_id p)) with (updates_of s (p_request_id p)).
  rewrite (update_all_run did _ s3 d2) by by rewrite E3, lookup_insert_eq.
  rewrite E3, insert_insert_eq. unfold d2, d1.
  rewrite !extend_extend, app_nil_r, orb_false_r. by destruct s.
Qed.

Lemma take_ingress_run rid did psd s d :
  o_datas s !! did = Some d →
  take_ingress H rid did psd s =
    (Ok tt, s <| o_datas := <[did := extend_data (i_chunks (ingress_of s rid)) []
                 (i_done (ingress_of s rid) && negb psd) d]> (o_datas s) |>
              <| o_stream_ingress := od_pop rid (o_stream_ingress s) |>).
Proof.
  intros E. unfold take_ingress, ingress_of. erewrite bind_run by reflexivity.
  destruct (od_get rid (o_stream_ingress s)) as [i|] eqn:Ei; simpl.
  2:{ rewrite extend_nil, insert_id by done. rewrite od_pop_absent by by apply od_get_None.
      by destruct s. }
  erewrite bind_run by reflexivity. set (s1 := s <| o_stream_ingress := _ |>).
  rewrite (bind_run _ _ _ _ _ (append_all_run did _ s1 d E)).
  set (d1 := extend_data (i_chunks i) [] false d). set (s2 := s1 <| o_datas := _ |>).
  assert (o_datas s2 = <[did := d1]> (o_datas s)) as E2 by done.
  destruct (i_done i && negb psd).
  - rewrite (mark_done_run did s2 d1) by by rewrite E2, lookup_insert_eq.
    rewrite E2, insert_insert_eq. unfold d1. rewrite extend_extend, !app_nil_r. by destruct s.
  - by destruct s.
Qed.

(** The data of a request admitted from payload [p]. *)
Definition admitted_data (s : Omni) (p : Payload) (psd : bool) (rid : string) (oid : nat) : DataObj :=
  {| d_req := oid;
     d_stream_chunks := p_prefetched_chunks p ++ i_chunks (ingress_of s rid);
     d_stream_done := p_prefetched_stream_done p || (i_done (ingress_of s rid) && negb psd);
     d_request_updates := updates_of s (p_request_id p);
     d_output_ids := []; d_weight_version := None; d_finish_reason := None |}.

Definition admitted (s : Omni) (p : Payload) (psd : bool) (b : Built) : Omni :=
  let rid := bd_rid b in
  let oid := fresh (dom (o_reqs s)) in
  let did := fresh (dom (o_datas s)) in
  let live := negb (bool_decide (rid ∈ o_aborted_ids s)) in
  s <| o_deferred_payloads := od_pop (p_request_id p) (o_deferred_payloads s) |>
    <| o_reqs := <[oid := new_req b <| q_data := if live then Some did else None |>]> (o_reqs s) |>
    <| o_datas := <[did := admitted_data s p psd rid oid]> (o_datas s) |>
    <| o_request_updates := od_pop (p_request_id p) (o_request_updates s) |>
    <| o_stream_ingress := od_pop rid (o_stream_ingress s) |>
    <| o_waiting_queue := if live then o_waiting_queue s ++ [oid] else o_waiting_queue s |>.

Lemma enqueue_run p psd b s :
  (∃ e, enqueue_built_request H p psd b s = reject H (bd_rid b) e
     (s <| o_deferred_payloads := od_pop (p_request_id p) (o_deferred_payloads s) |>)) ∨
  (∃ b', bd_rid b' = bd_rid b ∧
     enqueue_built_request H p psd b s = (Ok tt, admitted s p psd b')).
Proof.
  unfold enqueue_built_request. erewrite bind_run by reflexivity.
  set (s0 := s <| o_deferred_payloads := _ |>).
  destruct (if bd_enforce_request_limits b then _ else _) as [b' error] eqn:Eb.
  assert (bd_rid b' = bd_rid b) as Hb.
  { destruct (bd_enforce_request_limits b); [|by injection Eb as <- _].
    unfold prepare_request_limits in Eb. destruct (h_prepare_request_limits H b).
    by injection Eb as <- _. }
  destruct error as [message|]; [left; by eexists|].
  destruct (request_kv_capacity_error H b') as [e|]; [left; by exists e|].
  right. exists b'. split; [done|].
  unfold allocate. erewrite bind_run by reflexivity.
  change (o_reqs s0) with (o_reqs s). change (o_datas s0) with (o_datas s).
  set (oid := fresh (dom (o_reqs s))). set (did := fresh (dom (o_datas s))).
  cbv beta iota.
  set (s1 := s0 <| o_reqs := _ |>). set (d0 := new_data oid). set (s2 := s1 <| o_datas := _ |>).
  assert (o_datas s2 !! did = Some d0) as E2.
  { change (o_datas s2) with (<[did := d0]> (o_datas s)). by rewrite lookup_insert_eq. }
  rewrite (bind_run _ _ _ _ _ (initialize_run did p s2 d0 E2)).
  change (updates_of s2 (p_request_id p)) with (updates_of s (p_request_id p)).
  change (o_datas s2) with (<[did := d0]> (o_datas s)). rewrite insert_insert_eq.
  set (d1 := extend_data _ _ _ d0). set (s3 := s2 <| o_datas := _ |> <| o_request_updates := _ |>).
  assert (o_datas s3 !! did = Some d1) as E3.
  { change (o_datas s3) with (<[did := d1]> (o_datas s)). by rewrite lookup_insert_eq. }
  rewrite (bind_run _ _ _ _ _ (take_ingress_run (bd_rid b) did psd s3 d1 E3)).
  change (ingress_of s3 (bd_rid b)) with (ingress_of s (bd_rid b)).
  change (o_datas s3) with (<[did := d1]> (o_datas s)). rewrite insert_insert_eq.
  unfold d1. rewrite extend_extend, app_nil_r.
  unfold enqueue_if_live. erewrite bind_run by reflexivity.
  set (s4 := s3 <| o_datas := _ |> <| o_stream_ingress := _ |>).
  change (o_aborted_ids s4) with (o_aborted_ids s). unfold admitted. rewrite Hb. fold oid did.
  case_bool_decide; cbn [negb].
  - by destruct s.
  - erewrite bind_run by reflexivity. unfold modify.
    change (o_reqs s4) with (<[oid := new_req b']> (o_reqs s)). rewrite alter_insert_eq.
    by destruct s.
Qed.

Lemma fresh_known s oid :
  wf s → oid ∈ batch_oids s ++ o_waiting_queue s → oid ≠ fresh (dom (o_reqs s)).
Proof.
  intros Hw Ho ->. apply (w_known _ _ Hw) in Ho. apply elem_of_dom in Ho.
  by apply is_fresh in Ho.
Qed.

Lemma admitted_wf s p psd b : wf s → wf (admitted s p psd b).
Proof.
  intros Hw. pose proof Hw as [W1 W2 W3 [W4 W4'] W5 W6 [W7 W7'] [W8 W8']].
  unfold admitted. set (oid := fresh (dom (o_reqs s))). set (did := fresh (dom (o_datas s))).
  assert (o_datas s !! did = None) as Hdid by apply not_elem_of_dom, is_fresh.
  constructor; try done; fields.
  - intros o q did' Eq Ed. destruct (decide (o = oid)) as [->|Ho].
    + rewrite lookup_insert_eq in Eq. injection Eq as <-. fields.
      destruct (negb _); [|done]. injection Ed as <-. rewrite lookup_insert_eq. by eexists.
    + rewrite lookup_insert_ne in Eq by done. destruct (W2 o q did' Eq Ed) as (d & E & Hd).
      exists d. rewrite lookup_insert_ne; [done|]. intros <-. by rewrite E in Hdid.
  - intros o Ho. destruct (decide (o = oid)) as [->|Hne]; [by rewrite lookup_insert_eq|].
    rewrite lookup_insert_ne by done. apply W3. apply elem_of_app in Ho as [Ho|Ho];
      apply elem_of_app; [by left|right]. revert Ho. destruct (negb _); [|done].
    rewrite elem_of_app, list_elem_of_singleton. by intros [?| ->].
  - split; [by apply od_pop_wf|]. intros k p' Hin%elem_pop. by apply W4'.
  - split; [by apply od_pop_wf|by apply keys_pop].
  - split; [by apply od_pop_wf|by apply keys_pop].
Qed.

(** The new request is in no list yet: the others are found as before. *)
Lemma admitted_filter s p psd b r l :
  wf s → (∀ o, o ∈ l → o ∈ batch_oids s ++ o_waiting_queue s) →
  List.filter (rid_is (admitted s p psd b) r) l = List.filter (rid_is s r) l.
Proof.
  intros Hw Hl. apply List.filter_ext_in. intros o Ho. rewrite <- list_elem_of_In in Ho.
  pose proof (fresh_known s o Hw (Hl o Ho)) as Hne.
  unfold rid_is, admitted. fields. by rewrite lookup_insert_ne.
Qed.

Lemma admitted_rid_is s p psd b r :
  rid_is (admitted s p psd b) r (fresh (dom (o_reqs s))) = bool_decide (bd_rid b = r).
Proof. unfold rid_is, admitted. fields. by rewrite lookup_insert_eq. Qed.

Lemma admitted_calm rid s p psd b :
  wf s → bd_rid b = p_request_id p → bd_rid b ≠ rid → undisturbed rid s (admitted s p psd b).
Proof.
  intros Hw Hb Hne. constructor; try done.
  - split_and!.
    + apply admitted_filter; [done|]. intros o Ho. apply elem_of_app. by left.
    + unfold admitted at 2. fields.
      destruct (negb _); rewrite ?List.filter_app; simpl;
        rewrite ?admitted_rid_is, ?bool_decide_eq_false_2, ?app_nil_r by done;
        (apply admitted_filter; [done|]; intros o Ho; apply elem_of_app; by right).
    + intros o Ho. assert (o ≠ fresh (dom (o_reqs s))) as Hf.
      { intros ->. apply rid_is_true in Ho as (q & Eq & _).
        assert (fresh (dom (o_reqs s)) ∈ dom (o_reqs s)) as Hin by by apply elem_of_dom_2 in Eq.
        by apply is_fresh in Hin. }
      unfold rid_is, data_of, admitted. fields. by rewrite lookup_insert_ne.
  - unfold held_payloads, admitted. fields. by rewrite od_get_pop_ne by congruence.
  - unfold admitted. fields. by rewrite od_get_pop_ne by congruence.
  - unfold admitted. fields. by rewrite od_get_pop_ne by congruence.
  - intros did Hd. apply (find_data _ _ _ Hw) in Hd. unfold admitted. fields.
    rewrite lookup_insert_ne; [done|]. intros <-. apply elem_of_dom in Hd. by apply is_fresh in Hd.
Qed.

Lemma calm_enqueue rid s p psd b :
  wf s → bd_rid b = p_request_id p → bd_rid b ≠ rid →
  calm_at ids rid s (enqueue_built_request H p psd b).
Proof.
  intros Hw Hb Hne. destruct (enqueue_run p psd b s) as [(e & E)|(b' & Hb' & E)].
  - unfold calm_at. rewrite E.
    assert (calm_at ids rid s
      (_ ← modify (fun s => s <| o_deferred_payloads :=
         od_pop (p_request_id p) (o_deferred_payloads s) |>); reject H (bd_rid b) e)) as Hc; [|exact Hc].
    apply calm_bind; [|intros _ s1 Hw1 _; by apply calm_reject].
    apply calm_modify. destruct Hw as [W1 W2 W3 [W4 W4'] W5 W6 W7 W8]. split.
    + constructor; try done. split; [by apply od_pop_wf|]. intros k p' Hin%elem_pop. by apply W4'.
    + constructor; try done. unfold held_payloads. fields. by rewrite od_get_pop_ne by congruence.
  - do 2 eexists. split; [exact E|]. split; [by apply admitted_wf|].
    apply admitted_calm; [done|congruence..].
Qed.
End CalmIntake.

(** ** The request's own way through the intake *)

Section Track.
Context {T : Types} (H : Hooks) (HH : plain_hooks H) (ids : list string).
Context (Hids : zlength ids < PENDING_STREAM_REQUEST_LIMIT) (rid : string).
Abbreviation wf := (wf ids).

(** Between two messages of a round, with the payloads [L] in hand. *)
Definition good (L : list Payload) (placed : bool) (F : Feed) (s : Omni) : Prop :=
  wf s ∧ o_inbox s = [] ∧ (failed rid s ∨ tracked rid L placed s F).

(** [m] ends, well-formed, whatever request it is about. *)
Definition sane {A} (s : Omni) (m : M Omni A) : Prop := ∃ w, calm_at ids w s m.

Lemma other_than (r : string) : ∃ w, r ≠ w.
Proof.
  exists (String Ascii.zero r). intros E. apply (f_equal String.length) in E. simpl in E. lia.
Qed.

Definition reaches {A} (s : Omni) (m : M Omni A) (Q : A → Omni → Prop) : Prop :=
  ∃ a s', m s = (Ok a, s') ∧ Q a s'.

Lemma good_calm {A} L placed F s (m : M Omni A) :
  good L placed F s → calm_at ids rid s m → reaches s m (fun _ => good L placed F).
Proof.
  intros (Hw & Hi & Hf) (a & s' & E & Hw' & U). exists a, s'. split; [done|].
  split_and!; [done| |].
  - destruct (o_inbox s') as [|m' l] eqn:Ei; [done|]. pose proof (u_inbox_sub _ _ _ U m') as Hin.
    rewrite Ei, Hi in Hin. by apply not_elem_of_nil in Hin; [|constructor].
  - destruct Hf as [Hf|Ht]; [left; by apply U|right]. by eapply tracked_undisturbed.
Qed.

(** After a failure everything goes on, and nothing more is promised. *)
Lemma good_failed_any {A} L placed F s (m : M Omni A) :
  good L placed F s → failed rid s → sane s m →
  ∃ a s', m s = (Ok a, s') ∧ ∀ L' placed' F', good L' placed' F' s'.
Proof.
  intros (Hw & Hi & _) Hf (w & a & s' & E & Hw' & U). exists a, s'. split; [done|].
  intros L' placed' F'. split_and!; [done| |left; by apply U].
  destruct (o_inbox s') as [|m' l] eqn:Ei; [done|]. pose proof (u_inbox_sub _ _ _ U m') as Hin.
  rewrite Ei, Hi in Hin. by apply not_elem_of_nil in Hin; [|constructor].
Qed.

Lemma good_failed {A} L placed F L' placed' F' s (m : M Omni A) :
  good L placed F s → failed rid s → sane s m → reaches s m (fun _ => good L' placed' F').
Proof.
  intros Hg Hf Hm. destruct (good_failed_any L placed F s m Hg Hf Hm) as (a & s' & E & Hs').
  by exists a, s'.
Qed.

Lemma reaches_bind {A B} s (m : M Omni A) (f : A → M Omni B) R Q :
  reaches s m R → (∀ a s1, R a s1 → reaches s1 (f a) Q) → reaches s (m ≫= f) Q.
Proof.
  intros (a & s1 & E & HR) Hf. destruct (Hf a s1 HR) as (b & s2 & E2 & HQ).
  exists b, s2. split; [by rewrite (bind_run _ _ _ _ _ E)|done].
Qed.

Lemma good_L L L' placed F s : mine rid L = mine rid L' → good L placed F s → good L' placed F s.
Proof.
  intros E (Hw & Hi & Hf). split_and!; [done..|]. destruct Hf as [Hf|Ht]; [by left|right].
  unfold tracked, feed in *. by rewrite <- E.
Qed.

Lemma mine_cons_ne p L : p_request_id p ≠ rid → mine rid (p :: L) = mine rid L.
Proof. intros Hne. unfold mine. simpl. by rewrite bool_decide_eq_false_2. Qed.

Lemma mine_cons_eq p L : p_request_id p = rid → mine rid (p :: L) = p :: mine rid L.
Proof. intros Hne. unfold mine. simpl. by rewrite bool_decide_eq_true_2. Qed.

(** A rejected request has its error. *)
Lemma good_reject L placed F p s e :
  good (p :: L) placed F s → reaches s (reject H (p_request_id p) e) (fun _ => good L placed F).
Proof.
  intros Hg. destruct (decide (p_request_id p = rid)) as [E|Hne].
  - unfold reject, emit_request_error. rewrite (p_entry H HH). cbn [negb].
    eapply reaches_bind with (R := fun _ s1 => wf s1 ∧ o_inbox s1 = [] ∧ failed rid s1).
    { do 2 eexists. split; [reflexivity|]. destruct Hg as (Hw & Hi & _).
      split_and!; [by destruct Hw|done|]. exists e. fields. rewrite E. apply elem_of_app. right.
      constructor. }
    intros _ s1 (Hw & Hi & Hf). eapply (good_failed L placed F); [|done|].
    + split_and!; [done|done|by left].
    + destruct (other_than (p_request_id p)) as [w Hneq]. exists w.
      by apply calm_abort; [apply HH|..].
  - destruct Hg as (Hw & Hg). eapply good_calm; [|by apply calm_reject].
    eapply good_L; [by apply (mine_cons_ne p)|done].
Qed.

Lemma tracked_in_hand L placed s F p :
  p_request_id p = rid → tracked rid (p :: L) placed s F →
  placed = true ∧ find_request_data s rid = None ∧ mine rid L = [] ∧ held_payloads s rid = [] ∧
  rid ∉ o_aborted_ids s ∧ rid ∉ o_completed_ids s ∧ F = pending_feed [p] s rid ∧
  List.filter (rid_is s rid) (batch_oids s) = [] ∧
  List.filter (rid_is s rid) (o_waiting_queue s) = [] ∧
  (p_prefetched_stream_done p = true → i_done (ingress_of s rid) = true).
Proof.
  intros Hp (Ha & Hc & Hf & Hm). unfold feed in Hf.
  rewrite mine_cons_eq in Hf, Hm by done.
  destruct (find_request_data s rid); [by destruct Hm as (_ & ? & _)|].
  destruct Hm as (Hlen & Hb & Hw & Hdn). simpl in Hlen. apply Forall_cons in Hdn as [Hdn _].
  destruct placed; [|done]. injection Hlen as Hlen.
  apply List.length_zero_iff_nil, app_eq_nil in Hlen as [HL Hh]. rewrite HL, Hh in *.
  by split_and!.
Qed.

Lemma find_admitted s p psd b :
  wf s → bd_rid b = rid → rid ∉ o_aborted_ids s →
  List.filter (rid_is s rid) (batch_oids s) = [] →
  List.filter (rid_is s rid) (o_waiting_queue s) = [] →
  find_request_data (admitted s p psd b) rid = Some (fresh (dom (o_datas s))).
Proof.
  intros Hw Hb Hab Hfb Hfw. unfold find_request_data. rewrite !find_is_head.
  rewrite (admitted_filter ids s p psd b rid (batch_oids (admitted s p psd b)));
    [|done|intros o Ho; apply elem_of_app; by left].
  change (batch_oids (admitted s p psd b)) with (batch_oids s). rewrite Hfb. simpl.
  unfold admitted at 2. fields. rewrite Hb, (bool_decide_eq_false_2 (rid ∈ _)) by done. cbn [negb].
  rewrite List.filter_app, (admitted_filter ids s p psd b rid (o_waiting_queue s));
    [|done|intros o Ho; apply elem_of_app; by right].
  rewrite Hfw. simpl. rewrite admitted_rid_is, bool_decide_eq_true_2 by done. simpl.
  unfold data_of, admitted. fields. rewrite lookup_insert_eq. simpl. fields.
  by rewrite ?(bool_decide_eq_false_2 (rid ∈ o_aborted_ids s)), ?Hb,
    ?(bool_decide_eq_false_2 (rid ∈ o_aborted_ids s)).
Qed.

Lemma good_enqueue L placed F p b s :
  good (p :: L) placed F s → bd_rid b = p_request_id p →
  reaches s (enqueue_built_request H p (p_prefetched_stream_done p) b)
    (fun _ => good L placed F).
Proof.
  intros Hg Hb. destruct (decide (p_request_id p = rid)) as [E|Hne].
  2:{ destruct Hg as (Hw & Hg). eapply good_calm; [|apply calm_enqueue; [done..|congruence]].
      eapply good_L; [by apply (mine_cons_ne p)|done]. }
  pose proof Hg as (Hw & Hi & [Hf|Ht]).
  { eapply good_failed; [exact Hg|done|]. destruct (other_than (p_request_id p)) as [w Hneq].
    exists w. apply calm_enqueue; [done..|congruence]. }
  apply tracked_in_hand in Ht as (-> & Hfind & HL & Hh & Ha & Hc & -> & Hfb & Hfw & Hdn); [|done].
  assert (od_get rid (o_deferred_payloads s) = None) as Hdef.
  { unfold held_payloads in Hh. by destruct (mine rid (o_backlog s)), (od_get rid (o_deferred_payloads s)). }
  assert (s <| o_deferred_payloads := od_pop (p_request_id p) (o_deferred_payloads s) |> = s) as Hs0.
  { rewrite E, od_pop_absent by by apply od_get_None. by destruct s. }
  unfold reaches.
  destruct (enqueue_run H HH p (p_prefetched_stream_done p) b s) as [(e & ->)|(b' & Hb' & ->)].
  { rewrite Hs0, Hb. by apply good_reject. }
  exists tt, (admitted s p (p_prefetched_stream_done p) b'). split; [done|].
  set (s' := admitted s p (p_prefetched_stream_done p) b'). split_and!; [by apply admitted_wf|done|right].
  assert (bd_rid b' = rid) as Hr by congruence.
  pose proof (find_admitted s p (p_prefetched_stream_done p) b' Hw Hr Ha Hfb Hfw) as Hf'.
  fold s' in Hf'. unfold tracked, feed. rewrite Hf'.
  set (did := fresh (dom (o_datas s))) in *.
  assert (o_datas s' !! did = Some (admitted_data s p (p_prefetched_stream_done p) (bd_rid b')
    (fresh (dom (o_reqs s))))) as Hd.
  { unfold s', admitted. fields. by rewrite lookup_insert_eq. }
  rewrite Hd. simpl. split_and!; try done.
  - unfold data_feed, admitted_data, pending_feed. simpl. rewrite app_nil_r, Hr, E. f_equal.
    destruct (p_prefetched_stream_done p); [by rewrite Hdn|]. by rewrite andb_true_r.
  - rewrite HL. simpl. unfold held_payloads in Hh |- *. unfold s', admitted. fields.
    by rewrite E, od_pop_absent by by apply od_get_None.
  - unfold s', admitted. fields. by rewrite Hr, od_get_pop.
  - unfold s', admitted. fields. by rewrite E, od_get_pop.
Qed.

(** A step that only moves payloads. *)
Lemma good_move L L' placed F s s' :
  good L placed F s → wf s' → o_inbox s' = o_inbox s → o_outbox s' = o_outbox s →
  o_reqs s' = o_reqs s → batch_oids s' = batch_oids s → o_waiting_queue s' = o_waiting_queue s →
  o_stream_ingress s' = o_stream_ingress s → o_request_updates s' = o_request_updates s →
  o_datas s' = o_datas s → o_aborted_ids s' = o_aborted_ids s →
  o_completed_ids s' = o_completed_ids s →
  (tracked rid L placed s F →
     mine rid L' ++ held_payloads s' rid ≡ₚ mine rid L ++ held_payloads s rid) →
  good L' placed F s'.
Proof.
  intros (Hw & Hi & Hf) Hw' Ei Eo Er Eb Eq Es Eu Ed Ea Ec Hp.
  split_and!; [done|congruence|]. destruct Hf as [Hf|Ht].
  - left. unfold failed. by rewrite Eo.
  - right. apply (tracked_move rid L L' placed s s'); rewrite ?Es, ?Eu, ?Ed, ?Ea, ?Ec; auto.
    unfold same_req, rid_is, data_of. by rewrite Er, Eb, Eq.
Qed.

(** A payload in hand whose request is aborted is another request's. *)
Lemma good_drop L placed F p s :
  good (p :: L) placed F s → p_request_id p ∈ o_aborted_ids s → good L placed F s.
Proof.
  intros (Hw & Hi & Hf) Ha. destruct (decide (p_request_id p = rid)) as [E|Hne].
  - split_and!; [done..|]. destruct Hf as [Hf|Ht]; [by left|]. apply tracked_in_hand in Ht; [|done].
    destruct Ht as (_ & _ & _ & _ & Hn & _). congruence.
  - eapply good_L; [by apply (mine_cons_ne p)|done].
Qed.

Lemma reaches_ret {A} s (a : A) (Q : A → Omni → Prop) : Q a s → reaches s (mret a) Q.
Proof. intros Hq. by exists a, s. Qed.

Lemma reaches_get {B} s (f : Omni → M Omni B) Q : reaches s (f s) Q → reaches s (get ≫= f) Q.
Proof. done. Qed.

Lemma mine_app l k : mine rid (l ++ k) = mine rid l ++ mine rid k.
Proof. apply List.filter_app. Qed.

Lemma mine_one p : p_request_id p = rid → mine rid [p] = [p].
Proof. intros E. by rewrite mine_cons_eq. Qed.

Lemma od_set_elem {V} (k : string) (v : V) d x y : (x, y) ∈ od_set k v d → (x, y) = (k, v) ∨ (x, y) ∈ d.
Proof.
  induction d as [|[k' v'] d IH]; simpl; [set_solver|]. case_decide; set_solver.
Qed.

Lemma good_admit L placed F p out s :
  good (p :: L) placed F s → built_rid out = p_request_id p →
  reaches s (admit_or_defer_built_request H p (p_prefetched_stream_done p) out)
    (fun _ => good L placed F).
Proof.
  intros Hg Hb. destruct out as [b|d]; [by apply good_enqueue|]. apply reaches_get.
  case_bool_decide as Ha; [apply reaches_ret; by eapply good_drop|].
  destruct (df_ready d) as [|[u|e]]; [|by apply good_enqueue|by apply good_reject].
  do 2 eexists. split; [reflexivity|]. pose proof Hg as (Hw & _).
  eapply good_move; [exact Hg| |reflexivity..|].
  - destruct Hw as [W1 W2 W3 W4 W5 [W6 W6'] W7 W8]. constructor; try assumption.
    split; [by apply od_set_wf|]. intros k p' psd d' Hin. apply od_set_elem in Hin as [[= -> -> -> ->]|Hin].
    + done.
    + by apply (W6' k p' psd d').
  - intros Ht. destruct (decide (p_request_id p = rid)) as [E|Hne].
    + apply tracked_in_hand in Ht as (_ & _ & HL & Hh & _); [|done].
      rewrite mine_cons_eq, HL, Hh by done. unfold held_payloads in Hh |- *. fields.
      rewrite E, od_get_set. simpl.
      apply app_eq_nil in Hh as [-> Hh]. apply app_eq_nil in Hh as [-> Hh].
      by apply app_eq_nil in Hh as [-> _].
    + rewrite mine_cons_ne by done. unfold held_payloads. fields.
      by rewrite od_get_set_ne by congruence.
Qed.

(** ** Draining *)

Lemma good_drain_one_build L placed F s :
  good L placed F s → reaches s (drain_one_build H) (fun _ => good L placed F).
Proof.
  intros Hg. apply reaches_get.
  destruct (o_request_builds s) as [|[r [[p psd] [|out]]] l] eqn:Eb; [by apply reaches_ret..|].
  pose proof Hg as (Hw & _). pose proof (w_builds _ _ Hw) as [Wb Wb']. rewrite Eb in Wb, Wb'.
  destruct (Wb' r p psd (Done out)) as (Hp & -> & Hout); [constructor|].
  rewrite od_pop_head by done. eapply reaches_bind with (R := fun _ s1 => good (p :: L) placed F s1 ∧
    o_aborted_ids s1 = o_aborted_ids s).
  { do 2 eexists. split; [reflexivity|]. split; [|done]. eapply good_move; [exact Hg| |reflexivity..|].
    - destruct Hw as [W1 W2 W3 W4 W5 W6 W7 W8]. constructor; try assumption.
      split; [by apply NoDup_cons in Wb as [_ ?]|]. intros k p' psd' fut Hin. apply Wb'. by constructor.
    - intros _. destruct (decide (r = rid)) as [->|Hne].
      + rewrite mine_cons_eq by done. unfold held_payloads. fields. rewrite Eb. simpl.
        rewrite decide_True by done. assert (od_get rid l = None) as ->.
        { apply od_get_None. by apply NoDup_cons in Wb as [? _]. }
        simpl. solve_Permutation.
      + rewrite mine_cons_ne by congruence. unfold held_payloads. fields. rewrite Eb. simpl.
        by rewrite decide_False by done. }
  intros _ s1 [Hg1 Ha1]. rewrite <- Ha1. case_bool_decide as Ha.
  { apply reaches_ret. eapply good_drop; [exact Hg1|]. by rewrite Hp. }
  eapply reaches_bind with (R := fun _ => good L placed F); [|intros _ s2 Hg2; by apply reaches_ret].
  rewrite <- Hp. destruct out as [out|e]; [|by apply good_reject].
  apply good_admit; [done|]. rewrite Hp. by apply Hout.
Qed.

Lemma good_drain_builds L placed F s :
  good L placed F s → reaches s (drain_request_build_results H) (fun _ => good L placed F).
Proof.
  intros Hg. apply reaches_get. generalize (S (length (o_request_builds s))). intros fuel.
  revert s Hg. induction fuel as [|fuel IH]; intros s Hg; [by apply reaches_ret|].
  cbn [drain_builds_loop]. eapply reaches_bind; [by apply good_drain_one_build|].
  intros [] s1 Hg1; [by apply IH|by apply reaches_ret].
Qed.

Lemma reaches_foreach {A} (f : A → M Omni unit) l (P : Omni → Prop) s :
  (∀ x s, P s → reaches s (f x) (fun _ => P)) → P s → reaches s (mforeach f l) (fun _ => P).
Proof.
  intros Hf. revert s. induction l as [|x l IH]; intros s Hs; [by apply reaches_ret|].
  cbn [mforeach]. eapply reaches_bind; [by apply Hf|]. intros [] s1 Hs1. by apply IH.
Qed.

Lemma od_get_pop_perm {V} (f : V → Payload) r v (d : list (string * V)) :
  od_get r d = Some v → p_request_id (f v) = r →
  mine rid [f v] ++ option_list (f <$> od_get rid (od_pop r d)) =
  option_list (f <$> od_get rid d).
Proof.
  intros E Hr. destruct (decide (r = rid)) as [->|Hne].
  - by rewrite mine_one, od_get_pop, E.
  - by rewrite mine_cons_ne, od_get_pop_ne by congruence.
Qed.

Lemma good_drain_admissions L placed F s :
  good L placed F s → reaches s (drain_request_admission_results H) (fun _ => good L placed F).
Proof.
  intros Hg. apply reaches_get. apply reaches_foreach; [|done]. clear s Hg. intros r s Hg.
  apply reaches_get.
  destruct (od_get r (o_request_admissions s)) as [[[p psd] d]|] eqn:Ea; [|by apply reaches_ret].
  pose proof Hg as (Hw & _). pose proof (w_admissions _ _ Hw) as [Wa Wa'].
  destruct (Wa' r p psd d) as (Hp & -> & Hout); [by apply od_get_elem|].
  eapply reaches_bind with (R := fun _ s1 => good (p :: L) placed F s1 ∧
    o_aborted_ids s1 = o_aborted_ids s).
  { do 2 eexists. split; [reflexivity|]. split; [|done]. eapply good_move; [exact Hg| |reflexivity..|].
    - destruct Hw as [W1 W2 W3 W4 W5 W6 W7 W8]. constructor; try assumption.
      split; [by apply od_pop_wf|]. intros k p' psd' d' Hin%elem_pop. by apply (Wa' k p' psd' d').
    - intros _. change (p :: L) with ([p] ++ L). rewrite mine_app. unfold held_payloads. fields.
      rewrite <- (od_get_pop_perm (fun e => e.1.1) r (p, p_prefetched_stream_done p, d)
        (o_request_admissions s)) by done. cbn [fst].
      solve_Permutation. }
  intros _ s1 [Hg1 Ha1]. rewrite <- Ha1. case_bool_decide as Ha.
  { apply reaches_ret. eapply good_drop; [exact Hg1|]. by rewrite Hp. }
  apply good_admit; [done|]. by rewrite Hp.
Qed.

(** ** One payload *)

Lemma good_busy L placed F p s :
  good (p :: L) placed F s → busy s (p_request_id p) = true → good L placed F s.
Proof.
  intros Hg Hb. destruct (decide (p_request_id p = rid)) as [E|Hne].
  2:{ eapply good_L; [by apply (mine_cons_ne p)|done]. }
  destruct Hg as (Hw & Hi & [Hf|Ht]); [split_and!; [done..|by left]|].
  apply tracked_in_hand in Ht as (_ & _ & _ & Hh & Ha & _); [|done]. exfalso.
  unfold busy in Hb. rewrite E, bool_decide_eq_false_2 in Hb by done. unfold od_mem in Hb.
  unfold held_payloads in Hh. apply app_eq_nil in Hh as [_ Hh]. apply app_eq_nil in Hh as [_ Hh].
  by destruct (od_get rid (o_request_builds s)), (od_get rid (o_request_admissions s)).
Qed.

(** Moving the buffered chunks onto the payload keeps the feed. *)
Lemma good_buffered L placed F p s :
  good (p :: L) placed F s →
  ∃ s1, empty_ingress (p_request_id p) s = (Ok tt, s1) ∧
    good (with_buffered p (ingress_of s (p_request_id p)) :: L) placed F s1 ∧
    o_deferred_payloads s1 = o_deferred_payloads s ∧ o_request_builds s1 = o_request_builds s.
Proof.
  intros Hg. pose proof Hg as (Hw & Hi & Hf). unfold empty_ingress, modify, ingress_of.
  set (r := p_request_id p).
  destruct (od_get r (o_stream_ingress s)) as [i|] eqn:Ei; simpl.
  - set (s1 := s <| o_stream_ingress := _ |>). exists s1. split; [done|]. split; [|done].
    assert (r ∈ ids) as Hr by (apply (w_ingress _ _ Hw); by eapply od_get_key).
    destruct (other_than r) as [w Hrw].
    destruct (calm_ingress ids w r Hrw s {| i_chunks := []; i_done := i_done i |} Hw Hr) as [Hw1 _].
    split_and!; [exact Hw1|done|]. destruct Hf as [Hf|Ht]; [by left|right].
    destruct (decide (r = rid)) as [E|Hne].
    + pose proof Ht as (_ & _ & _ & Ht0). unfold r in E.
      apply tracked_in_hand in Ht as (-> & Hfind & HL & Hh & Ha & Hc & -> & Hfb & Hfw & _); [|done].
      assert (find_request_data s1 rid = None) as Hf1 by done.
      assert (od_get rid (o_stream_ingress s1) = Some {| i_chunks := []; i_done := i_done i |}) as Hg1.
      { unfold s1. fields. unfold r. by rewrite E, od_get_set. }
      assert (held_payloads s1 rid = []) as Hh1 by done.
      unfold r in Ei. rewrite E in Ei.
      unfold tracked, feed. rewrite Hf1, Hh1, mine_cons_eq, HL by done.
      unfold pending_feed, ingress_of. rewrite Hg1, Ei. simpl. split_and!; try done.
      * by rewrite !app_nil_r.
      * by repeat constructor.
    + destruct (calm_ingress ids rid r Hne s {| i_chunks := []; i_done := i_done i |} Hw Hr) as [_ U].
      eapply tracked_undisturbed; [exact U|]. unfold tracked, feed in Ht |- *.
      rewrite !mine_cons_ne in * by done. exact Ht.
  - exists s. split; [done|]. split; [|done]. split_and!; [done..|].
    destruct Hf as [Hf|Ht]; [by left|right]. destruct (decide (r = rid)) as [E|Hne].
    + unfold r in E.
      apply tracked_in_hand in Ht as (-> & Hfind & HL & Hh & Ha & Hc & -> & Hfb & Hfw & _); [|done].
      unfold r in Ei. rewrite E in Ei.
      unfold tracked, feed. rewrite Hfind, Hh, mine_cons_eq, HL by done.
      unfold pending_feed, ingress_of. rewrite Ei. simpl. split_and!; try done.
      * by rewrite !app_nil_r.
      * by repeat constructor.
    + unfold tracked, feed in Ht |- *. rewrite !mine_cons_ne in * by done. exact Ht.
Qed.

(** Storing a payload in hand, when the request held nothing. *)
Lemma good_store L placed F p s s' :
  good (p :: L) placed F s → wf s' → o_inbox s' = o_inbox s → o_outbox s' = o_outbox s →
  o_reqs s' = o_reqs s → batch_oids s' = batch_oids s → o_waiting_queue s' = o_waiting_queue s →
  o_stream_ingress s' = o_stream_ingress s → o_request_updates s' = o_request_updates s →
  o_datas s' = o_datas s → o_aborted_ids s' = o_aborted_ids s →
  o_completed_ids s' = o_completed_ids s →
  (p_request_id p ≠ rid → held_payloads s' rid = held_payloads s rid) →
  (p_request_id p = rid → held_payloads s rid = [] → held_payloads s' rid = [p]) →
  good L placed F s'.
Proof.
  intros ? ? ? ? ? ? ? ? ? ? ? ? Hother Hown. eapply good_move; [eassumption..|]. intros Ht.
  destruct (decide (p_request_id p = rid)) as [E|Hne].
  - apply tracked_in_hand in Ht as (_ & _ & HL & Hh & _); [|done].
    by rewrite mine_cons_eq, HL, Hh, Hown by done.
  - by rewrite mine_cons_ne, Hother by done.
Qed.

Lemma held_nil s :
  held_payloads s rid = [] →
  mine rid (o_backlog s) = [] ∧ od_get rid (o_deferred_payloads s) = None ∧
  od_get rid (o_request_builds s) = None ∧ od_get rid (o_request_admissions s) = None.
Proof.
  unfold held_payloads. intros [-> [H2 [H3 H4]%app_eq_nil]%app_eq_nil]%app_eq_nil.
  destruct (od_get rid (o_deferred_payloads s)), (od_get rid (o_request_builds s)),
    (od_get rid (o_request_admissions s)); done.
Qed.

Lemma good_process_payload L placed F p s :
  good (p :: L) placed F s → reaches s (process_payload H p) (fun _ => good L placed F).
Proof.
  intros Hg. apply reaches_get. destruct (busy s (p_request_id p)) eqn:Eb.
  { apply reaches_ret. by eapply good_busy. }
  destruct (good_buffered L placed F p s Hg) as (s1 & E1 & Hg1 & Ed & Eb1).
  set (p' := with_buffered p (ingress_of s (p_request_id p))) in *.
  set (psd := i_done (ingress_of s (p_request_id p))).
  assert (p_request_id p' = p_request_id p) as Hid by done.
  assert (p_prefetched_stream_done p' = psd) as Hpsd by done.
  eapply reaches_bind with (R := fun _ s2 => s2 = s1); [by exists tt, s1|]. intros _ s2 ->.
  pose proof Hg1 as (Hw1 & _).
  destruct (negb (h_is_request_build_ready H p' psd)).
  { do 2 eexists. split; [reflexivity|]. rewrite <- Ed.
    eapply good_store; [exact Hg1| |reflexivity..| |].
    - destruct Hw1 as [W1 W2 W3 [W4 W4'] W5 W6 W7 W8]. constructor; try assumption.
      split; [by apply od_set_wf|]. intros k q Hin. apply od_set_elem in Hin as [[= -> ->]|Hin]; auto.
    - intros Hne. unfold held_payloads. fields. by rewrite od_get_set_ne by congruence.
    - intros E (HB & HD & HU & HA)%held_nil. rewrite Hid in E. unfold held_payloads. fields.
      by rewrite E, od_get_set, HB, HU, HA. }
  destruct (h_executor H).
  { do 2 eexists. split; [reflexivity|]. rewrite <- Eb1.
    eapply good_store; [exact Hg1| |reflexivity..| |].
    - destruct Hw1 as [W1 W2 W3 W4 [W5 W5'] W6 W7 W8]. constructor; try assumption.
      split; [by apply od_set_wf|]. intros k q psd' fut Hin.
      apply od_set_elem in Hin as [[= -> -> -> ->]|Hin]; [by split_and!|by apply W5'].
    - intros Hne. unfold held_payloads. fields. by rewrite od_get_set_ne by congruence.
    - intros E (HB & HD & HU & HA)%held_nil. rewrite Hid in E. unfold held_payloads. fields.
      by rewrite E, od_get_set, HB, HD, HA. }
  destruct (h_request_builder H p') as [out|e] eqn:Eh.
  - rewrite <- Hpsd. apply good_admit; [done|]. by apply (p_builder H HH).
  - rewrite <- Hid. by apply good_reject.
Qed.

Lemma good_each (f : Payload → M Omni unit) l L placed F s :
  (∀ p L s, good (p :: L) placed F s → reaches s (f p) (fun _ => good L placed F)) →
  good (l ++ L) placed F s → reaches s (mforeach f l) (fun _ => good L placed F).
Proof.
  intros Hf. revert s. induction l as [|p l IH]; intros s Hs; [by apply reaches_ret|].
  cbn [mforeach]. eapply reaches_bind; [by apply Hf|]. intros [] s1 Hs1. by apply IH.
Qed.

(** ** Staging *)

(** Dropping a payload of a request that is already taken care of. *)
Lemma good_dup L placed F p q s :
  good (p :: L) placed F s → q ∈ L → p_request_id q = p_request_id p → good L placed F s.
Proof.
  intros Hg Hq Hid. destruct (decide (p_request_id p = rid)) as [E|Hne].
  2:{ eapply good_L; [by apply (mine_cons_ne p)|done]. }
  destruct Hg as (Hw & Hi & [Hf|Ht]); [split_and!; [done..|by left]|]. exfalso.
  apply tracked_in_hand in Ht as (_ & _ & HL & _); [|done].
  assert (q ∈ mine rid L) as Hin.
  { unfold mine. apply elem_of_lfilter. split; [done|]. apply bool_decide_eq_true. congruence. }
  rewrite HL in Hin. by apply not_elem_of_nil in Hin.
Qed.

Lemma good_perm L L' placed F s : L ≡ₚ L' → good L placed F s → good L' placed F s.
Proof.
  intros HP Hg. pose proof Hg as (Hw & _). eapply good_move; [exact Hg|done|reflexivity..|].
  intros _. apply Permutation_app_tail. unfold mine. by apply lfilter_proper.
Qed.

Lemma has_id_true r l : has_id r l = true → ∃ q, q ∈ l ∧ p_request_id q = r.
Proof.
  unfold has_id. rewrite existsb_exists. intros (q & Hin & Hq%bool_decide_eq_true).
  exists q. by rewrite list_elem_of_In.
Qed.

Lemma good_stage_backlog s0 s capacity backlog selected c b sel L placed F :
  (∀ r, busy s0 r = busy s r) → good (backlog ++ selected ++ L) placed F s →
  stage_backlog s0 capacity backlog selected = (c, b, sel) → good (b ++ sel ++ L) placed F s.
Proof.
  intros Hbusy. revert capacity selected.
  induction backlog as [|p backlog IH]; intros capacity selected Hg E;
    simpl in E; [by injection E as <- <- <-|].
  destruct (0 <? capacity); [|by injection E as <- <- <-].
  rewrite Hbusy in E. destruct (busy s (p_request_id p)) eqn:Eb.
  - eapply IH; [|exact E]. by eapply good_busy.
  - eapply IH; [|exact E]. eapply good_perm; [|exact Hg]. simpl. solve_Permutation.
Qed.

Lemma good_stage_new s0 s capacity backlog selected rejected recv b sel rej L placed F :
  (∀ r, busy s0 r = busy s r) →
  good (recv ++ backlog ++ selected ++ rejected ++ L) placed F s →
  stage_new H s0 capacity backlog selected rejected recv = (b, sel, rej) →
  good (b ++ sel ++ rej ++ L) placed F s.
Proof.
  intros Hbusy. revert capacity backlog selected rejected.
  induction recv as [|p recv IH]; intros capacity backlog selected rejected Hg E;
    simpl in E; [by injection E as <- <- <-|].
  rewrite Hbusy in E. destruct (busy s (p_request_id p)) eqn:E1; simpl in E.
  { eapply IH; [|exact E]. by eapply good_busy. }
  destruct (has_id (p_request_id p) backlog) eqn:E2; simpl in E.
  { eapply IH; [|exact E]. apply has_id_true in E2 as (q & Hq & Hid).
    eapply good_dup; [exact Hg| |exact Hid]. set_solver. }
  destruct (has_id (p_request_id p) selected) eqn:E3; simpl in E.
  { eapply IH; [|exact E]. apply has_id_true in E3 as (q & Hq & Hid).
    eapply good_dup; [exact Hg| |exact Hid]. set_solver. }
  destruct (0 <? capacity).
  { eapply IH; [|exact E]. eapply good_perm; [|exact Hg]. simpl. solve_Permutation. }
  destruct (match h_backlog_limit H with Some limit => _ | None => _ end);
    (eapply IH; [|exact E]; eapply good_perm; [|exact Hg]; simpl; solve_Permutation).
Qed.

Lemma good_stage L placed F recv s :
  good (recv ++ L) placed F s →
  reaches s (stage_request_build_payloads H recv)
    (fun out => good (out.2 ++ out.1 ++ L) placed F).
Proof.
  intros Hg. apply reaches_get. destruct (h_executor H); cbn [negb]; [|by apply reaches_ret].
  destruct (stage_backlog s _ (o_backlog s) []) as [[c b] sel] eqn:E1.
  destruct (stage_new H s c b sel [] recv) as [[b' sel'] rej] eqn:E2.
  do 2 eexists. split; [reflexivity|]. cbn [fst snd].
  set (s0 := s <| o_backlog := [] |>).
  assert (good (o_backlog s ++ [] ++ recv ++ L) placed F s0) as H0.
  { pose proof Hg as ([W1 W2 W3 W4 W5 W6 W7 W8] & _).
    eapply good_move; [exact Hg|by constructor|reflexivity..|]. intros _.
    rewrite !mine_app. unfold held_payloads. fields. solve_Permutation. }
  apply (good_stage_backlog s s0 _ _ _ _ _ _ (recv ++ L) placed F) in E1; [|by intros r|exact H0].
  apply (good_stage_new s s0 c b sel [] recv _ _ _ L placed F) in E2; [|by intros r|].
  2:{ eapply good_perm; [|exact E1]. simpl. solve_Permutation. }
  pose proof E2 as ([W1 W2 W3 W4 W5 W6 W7 W8] & _).
  eapply good_move; [exact E2|by constructor|reflexivity..|]. intros _.
  rewrite !mine_app. unfold held_payloads. fields. solve_Permutation.
Qed.

(** ** One message *)

Lemma calm_receive w m s :
  wf s → msg_rid m ≠ w → msg_rid m ∈ ids → calm_at ids w s (receive H m).
Proof.
  intros Hw Hne Hin. apply calm_get. case_bool_decide; [by apply calm_ret|].
  destruct m as [r p|r c|r|r u|r defer]; simpl in *;
    (apply calm_bind; [|intros; by apply calm_ret]).
  - apply calm_modify. split; [by destruct Hw|]. constructor; try done. fields.
    by intros Hc [_ ?]%list_elem_of_filter.
  - by apply calm_on_stream_chunk.
  - by apply calm_on_stream_done.
  - by apply calm_on_request_update.
  - by apply calm_abort; [apply HH|..].
Qed.

Lemma tracked_data L placed s F did d :
  tracked rid L placed s F → find_request_data s rid = Some did →
  tracked rid L placed (s <| o_datas := <[did := d]> (o_datas s) |>) (data_feed d).
Proof.
  intros (Ha & Hc & _ & Hm) Hf. unfold tracked, feed.
  change (find_request_data (s <| o_datas := _ |>) rid) with (find_request_data s rid).
  rewrite Hf in *. fields. rewrite lookup_insert_eq. destruct Hm as (? & ? & ? & ? & _).
  by split_and!.
Qed.

Lemma tracked_ingress L placed s F i :
  tracked rid L placed s F → find_request_data s rid = None →
  (i_done (ingress_of s rid) = true → i_done i = true) →
  tracked rid L placed (s <| o_stream_ingress := od_set rid i (o_stream_ingress s) |>)
    {| f_chunks := concat (map p_prefetched_chunks (mine rid L ++ held_payloads s rid)) ++ i_chunks i;
       f_updates := f_updates F; f_done := i_done i |}.
Proof.
  intros (Ha & Hc & <- & Hm) Hf Hd. set (s1 := s <| o_stream_ingress := _ |>).
  assert (find_request_data s1 rid = None) as Hf1 by done.
  assert (ingress_of s1 rid = i) as Hi.
  { unfold ingress_of, s1. fields. by rewrite od_get_set. }
  unfold tracked, feed. rewrite Hf1. rewrite Hf in Hm |- *.
  change (held_payloads s1 rid) with (held_payloads s rid).
  destruct Hm as (Hl & Hb & Hw & Hdn). split_and!; try done.
  - unfold pending_feed. by rewrite Hi.
  - rewrite Hi. eapply Forall_impl; [exact Hdn|]. auto.
Qed.

Lemma tracked_updates L placed s F us :
  tracked rid L placed s F → find_request_data s rid = None →
  tracked rid L placed (s <| o_request_updates := od_set rid us (o_request_updates s) |>)
    {| f_chunks := f_chunks F; f_updates := us; f_done := f_done F |}.
Proof.
  intros (Ha & Hc & <- & Hm) Hf. set (s1 := s <| o_request_updates := _ |>).
  assert (find_request_data s1 rid = None) as Hf1 by done.
  unfold tracked, feed. rewrite Hf1. rewrite Hf in Hm |- *.
  change (held_payloads s1 rid) with (held_payloads s rid).
  split; [done|]. split; [done|]. split; [|exact Hm].
  unfold pending_feed, updates_of. simpl. f_equal. unfold s1. fields. by rewrite od_get_set.
Qed.

(** The input of the request itself. *)
Definition is_input (m : InMsg) : bool :=
  match m with MStreamChunk _ _ | MStreamDone _ | MRequestUpdate _ _ => true | _ => false end.

Lemma od_get_reserve s : wf s →
  reserve PENDING_STREAM_REQUEST_LIMIT PENDING_STREAM_REQUEST_RETAINED rid (o_stream_ingress s) =
    o_stream_ingress s ∧
  reserve PENDING_REQUEST_UPDATE_LIMIT PENDING_REQUEST_UPDATE_RETAINED rid (o_request_updates s) =
    o_request_updates s.
Proof. intros Hw. split; by rewrite (reserve_id ids) by (done || apply Hw). Qed.

Lemma reserve_run s : wf s → reserve_pending_stream_request rid s = (Ok tt, s).
Proof.
  intros Hw. unfold reserve_pending_stream_request, modify.
  rewrite (proj1 (od_get_reserve s Hw)). by destruct s.
Qed.

Lemma buffer_tracked L placed s F f again :
  wf s → tracked rid L placed s F → find_request_data s rid = None →
  (i_done (ingress_of s rid) = true → i_done (f (ingress_of s rid)) = true) →
  ∃ s', (_ ← reserve_pending_stream_request rid; _ ← on_ingress rid f;
         recheck_deferred rid again) s = (Ok tt, s') ∧
    tracked rid L placed s'
      {| f_chunks := concat (map p_prefetched_chunks (mine rid L ++ held_payloads s rid)) ++
           i_chunks (f (ingress_of s rid));
         f_updates := f_updates F; f_done := i_done (f (ingress_of s rid)) |}.
Proof.
  intros Hw Ht Hf Hd. rewrite (bind_run _ _ _ _ _ (reserve_run s Hw)).
  erewrite bind_run by reflexivity. eexists. split; [reflexivity|].
  set (s1 := s <| o_stream_ingress := _ |>).
  assert (tracked rid L placed s1
      {| f_chunks := concat (map p_prefetched_chunks (mine rid L ++ held_payloads s rid)) ++
           i_chunks (f (ingress_of s rid));
         f_updates := f_updates F; f_done := i_done (f (ingress_of s rid)) |}) as H1
    by by apply tracked_ingress.
  destruct (od_mem rid (o_deferred_payloads s1) && again); [|exact H1].
  eapply tracked_undisturbed; [|exact H1]. by constructor.
Qed.

Lemma input_tracked L placed s F m :
  wf s → tracked rid L placed s F → msg_rid m = rid → is_input m = true →
  ∃ s', receive H m s = (Ok [], s') ∧ tracked rid L placed s' (absorb rid F m).
Proof.
  intros Hw Ht Hm Hin. pose proof Ht as (Ha & Hc & HF & Hcase). unfold receive.
  erewrite bind_run by reflexivity. rewrite Hm, (bool_decide_eq_false_2 (rid ∈ o_aborted_ids s)) by done.
  unfold absorb. rewrite Hm, (bool_decide_eq_true_2 (rid = rid)) by done. cbn [negb].
  assert (∀ (m' : M Omni unit) s' F', m' s = (Ok tt, s') → tracked rid L placed s' F' →
    ∃ s', (_ ← m'; mret []) s = (Ok ([] : list Payload), s') ∧ tracked rid L placed s' F') as Hwrap.
  { intros m' s' F' E Ht'. exists s'. split; [|done]. by rewrite (bind_run _ _ _ _ _ E). }
  destruct (find_request_data s rid) as [did|] eqn:Ef.
  - destruct Hcase as (Hp & Hnil & Hi & Hu & [d Ed]).
    assert (F = data_feed d) as -> by (rewrite <- HF; unfold feed; by rewrite Ef, Ed).
    destruct m as [r p|r c|r|r u|r defer]; try done; simpl in Hm; subst r.
    + eapply Hwrap.
      * unfold on_stream_chunk. erewrite bind_run by reflexivity.
        rewrite bool_decide_eq_false_2, Ef by done. by apply append_run.
      * replace {| f_chunks := _; f_updates := _; f_done := _ |} with (data_feed (extend_data [c] [] false d));
          [by apply tracked_data with (F := data_feed d)|].
        unfold data_feed, extend_data. simpl. by rewrite app_nil_r, orb_false_r.
    + eapply Hwrap.
      * unfold on_stream_done. erewrite bind_run by reflexivity.
        rewrite bool_decide_eq_false_2, Ef by done. by apply mark_done_run.
      * replace {| f_chunks := _; f_updates := _; f_done := _ |} with (data_feed (extend_data [] [] true d));
          [by apply tracked_data with (F := data_feed d)|].
        unfold data_feed, extend_data. simpl. by rewrite !app_nil_r, orb_true_r.
    + eapply Hwrap.
      * unfold on_request_update. erewrite bind_run by reflexivity.
        rewrite bool_decide_eq_false_2, Ef by done. by apply update_run.
      * replace {| f_chunks := _; f_updates := _; f_done := _ |} with (data_feed (extend_data [] [u] false d));
          [by apply tracked_data with (F := data_feed d)|].
        unfold data_feed, extend_data. simpl. by rewrite app_nil_r, orb_false_r.
  - assert (F = pending_feed (mine rid L ++ held_payloads s rid) s rid) as HF'
      by (rewrite <- HF; unfold feed; by rewrite Ef).
    destruct m as [r p|r c|r|r u|r defer]; try done; simpl in Hm; subst r.
    + destruct (buffer_tracked L placed s F
        (fun i => {| i_chunks := i_chunks i ++ [c]; i_done := i_done i |})
        (h_recheck_on_stream_chunk H rid c) Hw Ht Ef) as (s' & E & Ht'); [done|].
      eapply Hwrap.
      * unfold on_stream_chunk. erewrite bind_run by reflexivity.
        rewrite bool_decide_eq_false_2, Ef by done. exact E.
      * rewrite HF'. unfold pending_feed. simpl. rewrite <- app_assoc. rewrite HF' in Ht'. exact Ht'.
    + destruct (buffer_tracked L placed s F
        (fun i => {| i_chunks := i_chunks i; i_done := true |}) true Hw Ht Ef) as (s' & E & Ht'); [done|].
      eapply Hwrap.
      * unfold on_stream_done. erewrite bind_run by reflexivity.
        rewrite bool_decide_eq_false_2, Ef by done. exact E.
      * rewrite HF'. unfold pending_feed. simpl. rewrite HF' in Ht'. exact Ht'.
    + eapply Hwrap.
      * unfold on_request_update. erewrite bind_run by reflexivity.
        rewrite bool_decide_eq_false_2, Ef by done. unfold reserve_pending_request_update.
        erewrite bind_run.
        2:{ unfold modify. rewrite (proj2 (od_get_reserve s Hw)). reflexivity. }
        reflexivity.
      * replace (s <| o_request_updates := o_request_updates s |>) with s by by destruct s.
        rewrite HF' at 2. unfold pending_feed at 1. cbn [f_updates].
        by apply tracked_updates.
Qed.

(** What may arrive: input of known requests; for [rid], its payload once and without input
    of its own, and no abort. *)
Definition msg_fits (placed : bool) (m : InMsg) : Prop :=
  msg_rid m ∈ ids ∧
  match m with
  | MNewRequest r p =>
      p_request_id p = r ∧
      (r = rid → placed = false ∧ p_prefetched_stream_done p = false)
  | MAbort r _ => r ≠ rid
  | _ => True
  end.

Definition place (placed : bool) (m : InMsg) : bool :=
  match m with MNewRequest r _ => placed || bool_decide (r = rid) | _ => placed end.

Fixpoint fits (placed : bool) (ms : list InMsg) : Prop :=
  match ms with
  | [] => True
  | m :: ms' => msg_fits placed m ∧ fits (place placed m) ms'
  end.

Lemma receive_result m s ps s' :
  receive H m s = (Ok ps, s') → ps = [] ∨ ∃ r p, m = MNewRequest r p ∧ ps = [p].
Proof.
  intros E. unfold receive in E. unfold get, mbind at 1, M_bind at 1 in E.
  case_bool_decide; [injection E as <- _; by left|].
  destruct m as [r p|r c|r|r u|r defer]; apply Mbind_Ok in E as ([] & s1 & _ & E);
    injection E as <- _; eauto 6.
Qed.

Lemma absorb_other F m : msg_rid m ≠ rid → absorb rid F m = F.
Proof. intros Hne. unfold absorb. by rewrite bool_decide_eq_false_2. Qed.

Lemma good_input L placed F m s :
  wf s → o_inbox s = [] → tracked rid L placed s F → msg_rid m = rid → msg_rid m ∈ ids →
  is_input m = true →
  reaches s (receive H m) (fun ps => good (L ++ ps) placed (absorb rid F m)).
Proof.
  intros Hw Hi Ht E Hin Hm. destruct (input_tracked L placed s F m Hw Ht E Hm) as (s' & Er & Ht').
  destruct (other_than (msg_rid m)) as [w Hne].
  destruct (calm_receive w m s Hw Hne Hin) as (ps & s2 & Er2 & Hw2 & U2).
  rewrite Er in Er2. injection Er2 as <- <-. exists [], s'. split; [exact Er|].
  rewrite app_nil_r. split_and!; [exact Hw2| |by right].
  destruct (o_inbox s') as [|m' l] eqn:Ei; [done|].
  pose proof (u_inbox_sub _ _ _ U2 m') as Hs. rewrite Ei, Hi in Hs.
  by apply not_elem_of_nil in Hs; [|constructor].
Qed.

Lemma good_new_request L F p s :
  wf s → o_inbox s = [] → tracked rid L false s F → p_request_id p = rid →
  p_prefetched_stream_done p = false →
  reaches s (receive H (MNewRequest rid p)) (fun ps => good (L ++ ps) true (absorb rid F (MNewRequest rid p))).
Proof.
  intros Hw Hi Ht Hp Hpd. pose proof Ht as (Ha & Hc & HF & Hcase). unfold receive, reaches.
  erewrite bind_run by reflexivity. simpl.
  rewrite (bool_decide_eq_false_2 (rid ∈ o_aborted_ids s)) by done.
  erewrite bind_run by reflexivity. do 2 eexists. split; [reflexivity|].
  set (s1 := s <| o_completed_ids := _ |>).
  destruct (find_request_data s rid) eqn:Ef; [by destruct Hcase|].
  destruct Hcase as (Hl & Hb & Hq & _). apply List.length_zero_iff_nil in Hl.
  apply app_eq_nil in Hl as [Hl1 Hl2].
  split_and!; [by destruct Hw|done|right].
  assert (find_request_data s1 rid = None) as Ef1 by done.
  assert (held_payloads s1 rid = []) as Hh1 by done.
  unfold tracked, feed. rewrite Ef1, mine_app, Hl1, Hh1, mine_one by done.
  simpl. split_and!; try done.
  - unfold s1. fields. intros [_ ?]%list_elem_of_filter. done.
  - rewrite <- HF. unfold feed. rewrite Ef, Hl1, Hl2. unfold pending_feed, absorb. simpl. rewrite bool_decide_eq_true_2 by done. simpl. by rewrite app_nil_r.
  - constructor; [|constructor]. by rewrite Hpd.
Qed.

Lemma good_receive L placed F m s :
  good L placed F s → msg_fits placed m →
  reaches s (receive H m) (fun ps => good (L ++ ps) (place placed m) (absorb rid F m)).
Proof.
  intros Hg (Hin & Hfit). pose proof Hg as (Hw & Hi & Hf).
  destruct (decide (msg_rid m = rid)) as [E|Hne].
  - destruct Hf as [Hf|Ht].
    { destruct (good_failed_any L placed F s (receive H m) Hg Hf) as (ps & s' & Er & Hg').
      - destruct (other_than (msg_rid m)) as [w Hne]. exists w. by apply calm_receive.
      - by exists ps, s'. }
    destruct m as [r p|r c|r|r u|r defer]; simpl in E; [|by apply good_input..|by destruct (Hfit E)].
    subst r. destruct Hfit as (Hp & Hfit). destruct (Hfit eq_refl) as (-> & Hpd).
    cbn [place]. rewrite bool_decide_eq_true_2 by done. by apply good_new_request.
  - rewrite absorb_other by done.
    destruct (good_calm L placed F s _ Hg (calm_receive rid m s Hw Hne Hin)) as (ps & s' & Er & Hg').
    exists ps, s'. split; [exact Er|].
    assert (place placed m = placed) as ->.
    { destruct m; simpl in *; try done. rewrite bool_decide_eq_false_2 by done. by rewrite orb_false_r. }
    eapply good_L; [|exact Hg']. rewrite mine_app.
    apply receive_result in Er as [->|(r & p & -> & ->)]; [by rewrite app_nil_r|].
    cbn [msg_rid] in *. destruct Hfit as [Hp _]. rewrite (mine_cons_ne p) by congruence.
    by rewrite app_nil_r.
Qed.

Definition place_all (placed : bool) (ms : list InMsg) : bool := foldl place placed ms.

Lemma good_receive_all L placed F ms s :
  good L placed F s → fits placed ms →
  reaches s (receive_all H ms) (fun ps => good (L ++ ps) (place_all placed ms) (absorb_all rid F ms)).
Proof.
  revert L placed F s. induction ms as [|m ms IH]; intros L placed F s Hg Hf.
  { apply reaches_ret. by rewrite app_nil_r. }
  cbn [receive_all]. destruct Hf as [Hm Hf].
  eapply reaches_bind; [by apply good_receive|]. intros ps s1 Hg1. cbn beta in Hg1.
  eapply reaches_bind; [by apply IH|]. intros rest s2 Hg2. cbn beta in Hg2.
  apply reaches_ret. by rewrite app_assoc.
Qed.

(** ** A whole round *)

Lemma od_get_foldl_pop {V} (l : list string) r (d : list (string * V)) :
  od_get r (foldl (fun d k => od_pop k d) d l) =
    if bool_decide (r ∈ l) then None else od_get r d.
Proof.
  revert d. induction l as [|k l IH]; intros d; simpl; [done|]. rewrite IH.
  destruct (decide (r = k)) as [->|Hne].
  - rewrite od_get_pop. rewrite (bool_decide_eq_true_2 (k ∈ k :: l)) by constructor. by case_bool_decide.
  - rewrite od_get_pop_ne by done. repeat case_bool_decide; set_solver.
Qed.

Lemma mine_omap (d : list (string * Payload)) l :
  od_wf d → (∀ k p, (k, p) ∈ d → p_request_id p = k) → NoDup l →
  mine rid (omap (fun r => od_get r d) l) =
    if bool_decide (rid ∈ l) then option_list (od_get rid d) else [].
Proof.
  intros Hw Hk. induction l as [|r l IH]; intros Hnd; [done|]. apply NoDup_cons in Hnd as [Hr Hnd].
  specialize (IH Hnd). change (omap (fun r => od_get r d) (r :: l)) with
    (match od_get r d with
     | Some p => p :: omap (fun r => od_get r d) l
     | None => omap (fun r => od_get r d) l
     end).
  destruct (od_get r d) as [p|] eqn:E.
  - assert (p_request_id p = r) as Hp by (apply Hk; by apply od_get_elem).
    destruct (decide (r = rid)) as [->|Hne].
    + rewrite mine_cons_eq, IH, bool_decide_eq_false_2, bool_decide_eq_true_2, E by (done || constructor).
      done.
    + rewrite mine_cons_ne, IH by congruence. repeat case_bool_decide; set_solver.
  - rewrite IH. destruct (decide (r = rid)) as [->|Hne].
    + rewrite E. by repeat case_bool_decide.
    + repeat case_bool_decide; set_solver.
Qed.

Lemma foldl_pop_elem {V} l (d : list (string * V)) x :
  x ∈ foldl (fun d k => od_pop k d) d l → x ∈ d.
Proof. revert d. induction l as [|k l IH]; intros d; simpl; [done|]. intros ?%IH. by eapply elem_pop. Qed.

Lemma foldl_pop_wf {V} l (d : list (string * V)) : od_wf d → od_wf (foldl (fun d k => od_pop k d) d l).
Proof. revert d. induction l as [|k l IH]; intros d Hd; simpl; [done|]. by apply IH, od_pop_wf. Qed.

Lemma good_take_deferred L placed F s :
  good L placed F s →
  reaches s take_deferred_request_payloads (fun ps => good (L ++ ps) placed F).
Proof.
  intros Hg. apply reaches_get. cbv zeta. do 2 eexists. split; [reflexivity|].
  pose proof Hg as ([W1 W2 W3 [W4 W4'] W5 W6 W7 W8] & _).
  eapply good_move; [exact Hg| |reflexivity..|].
  - constructor; try assumption. split; [by apply foldl_pop_wf|].
    intros k p Hin. apply W4'. exact (foldl_pop_elem _ _ _ Hin).
  - intros _. rewrite mine_app, mine_omap by (done || apply NoDup_elements).
    unfold held_payloads. fields. rewrite od_get_foldl_pop.
    case_bool_decide; simpl; [|by rewrite app_nil_r]. solve_Permutation.
Qed.

Lemma good_process_input L placed F s :
  good L placed F s → reaches s (process_input_requests H L) (fun _ => good [] placed F).
Proof.
  intros Hg. unfold process_input_requests.
  eapply reaches_bind; [by apply good_drain_admissions|]. intros [] s1 Hg1.
  eapply reaches_bind; [by apply good_drain_builds|]. intros [] s2 Hg2. cbn beta in *.
  eapply reaches_bind; [apply (good_stage []); by rewrite app_nil_r|].
  intros [selected rejected] s3 Hg3. cbn [fst snd] in Hg3. rewrite app_nil_r in Hg3.
  eapply reaches_bind; [apply (good_each _ rejected selected placed F); [|exact Hg3]|].
  { intros p L0 s0 H0. by apply good_reject. }
  intros [] s4 Hg4. cbn beta in Hg4.
  eapply reaches_bind; [apply (good_each _ selected [] placed F); [|by rewrite app_nil_r]|].
  { intros p L0 s0 H0. by apply good_process_payload. }
  intros [] s5 Hg5. cbn beta in Hg5.
  eapply reaches_bind; [by apply good_drain_builds|]. intros [] s6 Hg6.
  by apply good_drain_admissions.
Qed.

(** ** Events *)

(** The stored feed and what the inbox still holds make up the abstract feed. *)
Definition simulates (placed : bool) (F : Feed) (s : Omni) : Prop :=
  ∃ placed0 F0, wf s ∧ (failed rid s ∨ tracked rid [] placed0 s F0) ∧
    fits placed0 (o_inbox s) ∧ place_all placed0 (o_inbox s) = placed ∧
    absorb_all rid F0 (o_inbox s) = F.

(** An event of the abstract machine: only an arrival changes the feed. *)
Definition place_event (placed : bool) (e : Event) : bool :=
  match e with EArrive m => place placed m | _ => placed end.
Definition feed_event (F : Feed) (e : Event) : Feed :=
  match e with EArrive m => absorb rid F m | _ => F end.

(** What may happen: fitting messages, builds that keep identifiers, and the closing of
    other requests. *)
Definition allowed (placed : bool) (s : Omni) (e : Event) : Prop :=
  match e with
  | EArrive m => msg_fits placed m
  | EBuilt r (Ok out) => built_rid out = r
  | EClosed oid => rid_is s rid oid = false
  | _ => True
  end.

Lemma good_round placed F s :
  simulates placed F s → ∃ s', intake_round H s = (Ok tt, s') ∧ good [] placed F s'.
Proof.
  intros (placed0 & F0 & Hw & Hf & Hfit & <- & <-).
  set (s0 := s <| o_inbox := [] |>).
  assert (good [] placed0 F0 s0) as H0.
  { split_and!; [by destruct Hw|done|]. destruct Hf as [Hf|Ht]; [by left|right].
    by apply (tracked_move rid [] [] placed0 s s0). }
  destruct (good_receive_all [] placed0 F0 (o_inbox s) s0 H0 Hfit) as (recv & s1 & E1 & H1).
  cbn beta in H1. destruct (good_take_deferred _ _ _ s1 H1) as (deferred & s2 & E2 & H2).
  destruct (good_process_input _ _ _ s2 H2) as ([] & s3 & E3 & H3).
  exists s3. split; [|exact H3]. unfold intake_round.
  erewrite bind_run.
  2:{ unfold recv_requests. erewrite bind_run by reflexivity. erewrite bind_run by reflexivity.
      exact E1. }
  rewrite (bind_run _ _ _ _ _ E2). exact E3.
Qed.

Lemma calm_complete_build w r out s :
  wf s → (∀ o, out = Ok o → built_rid o = r) → calm_at ids w s (complete_build r out).
Proof.
  intros Hw Hout. apply calm_modify.
  destruct (od_get r (o_request_builds s)) as [[[p psd] []]|] eqn:E;
    try (split; [done|apply undisturbed_refl]).
  destruct Hw as [W1 W2 W3 W4 [W5 W5'] W6 W7 W8].
  destruct (W5' r p psd Pending) as (Hp & Hpsd & _); [by apply od_get_elem|]. split.
  - constructor; try done. split; [by apply od_set_wf|]. intros k q psd' fut Hin.
    apply od_set_elem in Hin as [[= -> -> -> ->]|Hin]; [|by apply W5'].
    split_and!; [done..|]. intros o [= ->]. by apply Hout.
  - constructor; try done. unfold held_payloads. fields.
    destruct (decide (w = r)) as [->|Hne]; [by rewrite od_get_set, E|by rewrite od_get_set_ne].
Qed.

Lemma calm_complete_admission w r outcome s :
  wf s → calm_at ids w s (complete_admission r outcome).
Proof.
  intros Hw. apply calm_modify.
  destruct (od_get r (o_request_admissions s)) as [[[p psd] [b []]]|] eqn:E;
    try (split; [done|apply undisturbed_refl]).
  destruct Hw as [W1 W2 W3 W4 W5 [W6 W6'] W7 W8].
  destruct (W6' r p psd _ (od_get_elem _ _ _ E)) as (Hp & Hpsd & Hb). split.
  - constructor; try done. split; [by apply od_set_wf|]. intros k q psd' d Hin.
    apply od_set_elem in Hin as [[= -> -> -> ->]|Hin]; [done|by apply (W6' k q psd' d)].
  - constructor; try done. unfold held_payloads. fields.
    destruct (decide (w = r)) as [->|Hne]; [by rewrite od_get_set, E|by rewrite od_get_set_ne].
Qed.

Lemma calm_remember_completed w r s :
  wf s → r ≠ w → calm_at ids w s (remember_completed_request r).
Proof.
  intros Hw Hne. apply calm_get. case_bool_decide as Hin; [by apply calm_ret|]. cbv zeta.
  set (kept := if _ <=? _ then _ else _).
  assert (w ∉ o_completed_ids s → w ∉ kept ++ [r]) as Hc.
  { intros Hn. rewrite elem_of_app, list_elem_of_singleton. intros [Hk| ->]; [|done].
    apply Hn. revert Hk. unfold kept. destruct (_ <=? _); [apply subseteq_drop|done]. }
  do 2 eexists. split.
  { erewrite bind_run by reflexivity. erewrite bind_run by reflexivity. reflexivity. }
  destruct Hw as [W1 W2 W3 W4 W5 W6 [W7 W7'] [W8 W8']]. split.
  - constructor; try done; (split; [by apply od_pop_wf|by apply keys_pop]).
  - constructor; try done; fields; by rewrite od_get_pop_ne.
Qed.

Lemma calm_close w oid s :
  wf s → rid_is s w oid = false → calm_at ids w s (_ ← close_completed_request oid; mret tt).
Proof.
  intros Hw Hr. apply calm_bind; [|intros; by apply calm_ret]. apply calm_get.
  destruct (o_reqs s !! oid) as [q|] eqn:Eq; [|by apply calm_ret].
  assert (q_rid q ≠ w) as Hne.
  { intros <-. unfold rid_is in Hr. rewrite Eq in Hr. by apply bool_decide_eq_false in Hr. }
  apply calm_bind.
  { apply calm_update_req; [done|]. intros q' Eq'. rewrite Eq in Eq'. injection Eq' as <-.
    split; [done|by right]. }
  intros _ s1 Hw1 _. apply calm_bind; [by apply calm_remember_completed|].
  intros _ s2 Hw2 _. apply calm_bind; [by apply calm_core|]. intros; by apply calm_ret.
Qed.

Lemma fits_snoc placed ms m :
  fits placed ms → msg_fits (place_all placed ms) m → fits placed (ms ++ [m]).
Proof.
  revert placed. induction ms as [|m' ms IH]; intros placed; simpl; [by split|].
  intros [Hm Hf] Hn. split; [done|]. by apply IH.
Qed.

Lemma simulates_calm placed F s s' :
  simulates placed F s → wf s' → undisturbed rid s s' → o_inbox s' = o_inbox s →
  simulates placed F s'.
Proof.
  intros (placed0 & F0 & Hw & Hf & Hfit & Hp & HF) Hw' U Ei. exists placed0, F0. rewrite Ei.
  split_and!; [done| |done..]. destruct Hf as [Hf|Ht]; [left; by apply U|right].
  by eapply tracked_undisturbed.
Qed.

Lemma simulates_event placed F s e :
  simulates placed F s → allowed placed s e →
  ∃ s', event H e s = (Ok tt, s') ∧ simulates (place_event placed e) (feed_event F e) s'.
Proof.
  intros Hs Ha. pose proof Hs as (placed0 & F0 & Hw & Hf & Hfit & Hp & HF).
  destruct e as [m|r out|r outcome|oid|]; cbn [event place_event feed_event].
  - eexists. split; [reflexivity|]. exists placed0, F0. fields. split_and!.
    + by destruct Hw.
    + destruct Hf as [Hf|Ht]; [by left|right]. by apply (tracked_move rid [] [] placed0 s).
    + apply fits_snoc; [done|]. by rewrite Hp.
    + unfold place_all in *. by rewrite foldl_app, Hp.
    + unfold absorb_all in *. by rewrite foldl_app, HF.
  - destruct (calm_complete_build rid r out s Hw) as ([] & s' & E & Hw' & U).
    { intros o ->. exact Ha. }
    exists s'. split; [exact E|]. eapply simulates_calm; [done..|].
    unfold complete_build, modify in E. injection E as <-.
    by destruct (od_get r (o_request_builds s)) as [[[p psd] []]|].
  - destruct (calm_complete_admission rid r outcome s Hw) as ([] & s' & E & Hw' & U).
    exists s'. split; [exact E|]. eapply simulates_calm; [done..|].
    unfold complete_admission, modify in E. injection E as <-.
    by destruct (od_get r (o_request_admissions s)) as [[[p psd] [b []]]|].
  - destruct (calm_close rid oid s Hw Ha) as ([] & s' & E & Hw' & U).
    exists s'. split; [exact E|]. eapply simulates_calm; [done..|].
    apply Mbind_Ok in E as (b & s1 & E & E'). injection E' as <-.
    unfold close_completed_request in E. apply Mbind_Ok in E as (s0 & s2 & E0 & E).
    injection E0 as <- <-. destruct (o_reqs s !! oid); [|by injection E as _ <-].
    apply Mbind_Ok in E as ([] & s2 & E2 & E). injection E2 as <-.
    apply Mbind_Ok in E as ([] & s3 & E3 & E). unfold remember_completed_request in E3.
    apply Mbind_Ok in E3 as (s4 & s5 & E4 & E3). injection E4 as <- <-.
    apply Mbind_Ok in E as ([] & s6 & E6 & E). injection E6 as <-. injection E as _ <-.
    case_bool_decide; by injection E3 as <-.
  - destruct (good_round placed F s Hs) as (s' & E & Hw' & Hi' & Hf'). exists s'.
    split; [exact E|]. exists placed, F. rewrite Hi'. done.
Qed.

(** What upstream does in between: it schedules requests as it likes, this one too - it may
    move it from the waiting queue to a batch, between batches and back - but does not lose it,
    nor makes one up. *)
Record scheduled (s s' : Omni) : Prop := {
  sd_find : find_request_data s' rid = find_request_data s rid;
  sd_absent : find_request_data s rid = None →
    List.filter (rid_is s' rid) (batch_oids s') = List.filter (rid_is s rid) (batch_oids s) ∧
    List.filter (rid_is s' rid) (o_waiting_queue s') = List.filter (rid_is s rid) (o_waiting_queue s);
  sd_held : held_payloads s' rid = held_payloads s rid;
  sd_ingress : od_get rid (o_stream_ingress s') = od_get rid (o_stream_ingress s);
  sd_updates : od_get rid (o_request_updates s') = od_get rid (o_request_updates s);
  sd_data : ∀ did, find_request_data s rid = Some did → o_datas s' !! did = o_datas s !! did;
  sd_aborted : rid ∉ o_aborted_ids s → rid ∉ o_aborted_ids s';
  sd_completed : rid ∉ o_completed_ids s → rid ∉ o_completed_ids s';
  sd_outbox : failed rid s → failed rid s'
}.

Lemma tracked_scheduled L placed s s' F : scheduled s s' → tracked rid L placed s F → tracked rid L placed s' F.
Proof.
  intros [Hf Hn Hh Hi Hu Hd Ha Hc _] (Ta & Tc & Tf & Tm). unfold tracked, feed in *. rewrite Hf, Hh, Hi, Hu.
  destruct (find_request_data s rid) as [did|] eqn:E.
  - rewrite (Hd did eq_refl). split_and!; auto; apply Tm.
  - destruct (Hn eq_refl) as [-> ->]. unfold pending_feed, ingress_of, updates_of in *. rewrite Hi, Hu.
    split_and!; auto; apply Tm.
Qed.

(** The runs of a scheduler, with the abstract feed they give the request. *)
Inductive runs : Omni → bool → Feed → Omni → bool → Feed → Prop :=
| runs_stop s placed F : runs s placed F s placed F
| runs_event s placed F e s1 s2 placed2 F2 :
    allowed placed s e → event H e s = (Ok tt, s1) →
    runs s1 (place_event placed e) (feed_event F e) s2 placed2 F2 →
    runs s placed F s2 placed2 F2
| runs_upstream s placed F s1 s2 placed2 F2 :
    wf s1 → scheduled s s1 → o_inbox s1 = o_inbox s →
    runs s1 placed F s2 placed2 F2 → runs s placed F s2 placed2 F2.

Lemma runs_simulate s placed F s' placed' F' :
  runs s placed F s' placed' F' → simulates placed F s → simulates placed' F' s'.
Proof.
  induction 1 as [|s placed F e s1 s2 placed2 F2 Ha E _ IH|s placed F s1 s2 placed2 F2 Hw U Ei _ IH];
    intros Hs; [done| |].
  - destruct (simulates_event placed F s e Hs Ha) as (s1' & E' & Hs'). rewrite E in E'.
    injection E' as <-. by apply IH.
  - apply IH. destruct Hs as (placed0 & F0 & _ & Hf & Hfit & Hp & HF). exists placed0, F0. rewrite Ei.
    split_and!; [done| |done..]. destruct Hf as [Hf|Ht]; [left; by apply U|right]. by eapply tracked_scheduled.
Qed.
End Track.

(** ** Properties *)

(** C3: The intake refines an abstract feed. The scheduler has default hooks (entry rank, no
    chunk, completion or update handler, a builder that keeps identifiers), fewer than 10000
    identifiers are in play, and a request is submitted at most once, without a prefetched
    completion mark, and is neither aborted nor closed. On every such run - its payload bringing
    prefetched chunks, chunks, updates and the completion mark arriving before, during and after
    its build, upstream moving it from the queue to a batch, other requests coming, failing and
    aborting at will - either an error was reported for it or what is stored for it, followed by
    its messages still in the inbox, is exactly what was sent, in order and once; and no round
    gets stuck. *)
Theorem intake_refines_feed `{T : Types} H ids rid s placed F s' placed' F' :
  plain_hooks H → zlength ids < PENDING_STREAM_REQUEST_LIMIT →
  simulates ids rid placed F s → runs H ids rid s placed F s' placed' F' →
  simulates ids rid placed' F' s' ∧
  ∀ e, allowed ids rid placed' s' e → ∃ s'', event H e s' = (Ok tt, s'').
Proof.
  intros HH Hids Hs Hrun.
  pose proof (runs_simulate H HH ids Hids rid s placed F s' placed' F' Hrun Hs) as Hs'.
  split; [done|]. intros e Ha.
  destruct (simulates_event H HH ids Hids rid placed' F' s' e Hs' Ha) as (s'' & E & _).
  by exists s''.
Qed.

(** ** Witness *)

#[local] Existing Instance demo_types.

Lemma demo_plain executor : plain_hooks (demo_hooks executor).
Proof.
  constructor; try done; [apply demo_release_law|]. intros p out. by intros [= <-].
Qed.

Lemma empty_simulates : simulates ["a"; "b"] "a" false no_feed empty_omni.
Proof.
  exists false, no_feed. split; [|split; [right; by vm_compute; set_solver|done]].
  constructor.
  - split_and!; [apply NoDup_nil_2|done|by vm_compute].
  - intros oid q did Hq. change (o_reqs empty_omni) with (∅ : gmap nat ReqObj) in Hq.
    by rewrite lookup_empty in Hq.
  - intros oid Ho. by apply not_elem_of_nil in Ho.
  - split; [apply NoDup_nil_2|]. intros k p Hin. by apply not_elem_of_nil in Hin.
  - split; [apply NoDup_nil_2|]. intros k p psd fut Hin. by apply not_elem_of_nil in Hin.
  - split; [apply NoDup_nil_2|]. intros k p psd d Hin. by apply not_elem_of_nil in Hin.
  - split; [apply NoDup_nil_2|]. intros k Hin. by apply not_elem_of_nil in Hin.
  - split; [apply NoDup_nil_2|]. intros k Hin. by apply not_elem_of_nil in Hin.
Qed.

(** A chunk arrives before the request, one after it in the same round, one after the
    admission, together with an update. *)
Definition demo_events : list Event :=
  [EArrive (MStreamChunk "a" 1); EArrive (MNewRequest "a" (demo_payload "a"));
   EArrive (MStreamChunk "a" 2); ERound; EArrive (MStreamChunk "a" 3);
   EArrive (MRequestUpdate "a" 9); EArrive (MStreamDone "a"); ERound].

Definition after (n : nat) : Omni :=
  (mforeach (event (demo_hooks false)) (take n demo_events) empty_omni).2.

Lemma runs_step n e placed F s2 placed2 F2 :
  demo_events !! n = Some e →
  allowed ["a"; "b"] "a" placed (after n) e →
  (event (demo_hooks false) e (after n)).1 = Ok tt →
  (event (demo_hooks false) e (after n)).2 = after (S n) →
  runs (demo_hooks false) ["a"; "b"] "a" (after (S n)) (place_event "a" placed e)
    (feed_event "a" F e) s2 placed2 F2 →
  runs (demo_hooks false) ["a"; "b"] "a" (after n) placed F s2 placed2 F2.
Proof.
  intros _ Ha E1 E2 Hr. eapply runs_event; [exact Ha| |exact Hr].
  rewrite <- E1, <- E2. by destruct (event _ e (after n)).
Qed.

Lemma intake_refines_feed_witness :
  simulates ["a"; "b"] "a" true
    {| f_chunks := [1; 2; 3]; f_updates := [9]; f_done := true |} (after 8) ∧
  find_request_data (after 8) "a" = Some 0%nat.
Proof.
  split; [|by vm_compute].
  apply (intake_refines_feed (demo_hooks false) ["a"; "b"] "a" empty_omni false no_feed);
    [apply demo_plain|done|apply empty_simulates|].
  change empty_omni with (after 0).
  do 4 (eapply runs_step; [reflexivity|by repeat split; set_solver|by vm_compute|by vm_compute|]).
  do 4 (eapply runs_step; [reflexivity|by repeat split; set_solver|by vm_compute|by vm_compute|]).
  apply runs_stop.
Defined.
