(* ===== verification/Terminal.v ===== *)
(** * The generic scheduler: terminal output

    Models what [OmniScheduler] does with finished requests and failed batches
    ([stream_output], [_put_stream_messages], [_flush_stream_output] and
    [_handle_batch_failure] of [src/sglang_omni/scheduling/omni_scheduler.py]).  Upstream
    calls [stream_output] with the requests of a processed batch.

    The model runner's [on_request_finished], the builder's [flush], the result adapter and
    the finished callback are parameters that may raise; messages they produce for a request
    carry its identifier.  The tensors dropped from the request data and the process exit
    after a fatal NPU error are left out. *)
From S2P Require Import Prelude Odict OmniState Silent Intake.
Local Open Scope Z_scope.

Section Terminal.
Context {T : Types}.
Abbreviation OM := (M Omni).

(** A hook that may stream messages, write the data and then raise. *)
Abbreviation DataHook := (string → DataObj → list StreamMsg * DataObj * result unit).

Record TermHooks : Type := {
  t_weight_version : option string;
  t_on_request_finished : option DataHook;
  t_flush : option DataHook;
  t_result_adapter : DataObj → result Answer;
  t_request_finished_callback : string → result unit
}.

Context (H : Hooks) (TH : TermHooks).
Abbreviation abort := (abort (h_release_kv_cache H)).

(** [try: x = m  except Exception as exc: ...], the exception kept as a value. *)
Definition attempt {A} (m : OM A) : OM (result A) := fun s =>
  let '(r, s') := m s in (Ok r, s').

Definition data_at (did : nat) : OM DataObj :=
  s ← get;
  match o_datas s !! did with
  | Some d => mret d
  | None => throw (OtherError "no such object")
  end.

Definition set_data (did : nat) (d : DataObj) : OM unit :=
  modify (fun s => s <| o_datas := <[did := d]> (o_datas s) |>).

Definition put_messages (rid : string) (ms : list StreamMsg) : OM unit :=
  modify (fun s => s <| o_outbox := o_outbox s ++ map (OStream rid) ms |>).

(** [_put_stream_messages]. *)
Definition put_stream_messages (rid : string) (ms : list StreamMsg) : OM unit :=
  match ms with
  | [] => mret tt
  | _ => _ ← modify (fun s => s <| o_first_emit_done := o_first_emit_done s ∪ {[rid]} |>);
         put_messages rid ms
  end.

Definition run_data_hook (hook : option DataHook) (emit : string → list StreamMsg → OM unit)
  (rid : string) (did : nat) : OM unit :=
  match hook with
  | None => mret tt
  | Some f =>
      d ← data_at did;
      let '(ms, d', r) := f rid d in
      _ ← set_data did d';
      _ ← emit rid ms;
      lift r
  end.

(** [_flush_stream_output]. *)
Definition flush_stream_output (rid : string) (did : nat) : OM unit :=
  run_data_hook (t_flush TH) put_stream_messages rid did.

(** [finished_reason.to_json().get("type")]. *)
Definition finish_type (f : Finish) : string :=
  match f with FinishAbort => "abort" | FinishOther kind => kind end.

(** The [try] block: the runner's buffered messages, the builder's, the result. *)
Definition terminal_result (q : ReqObj) (did : nat) : OM Answer :=
  _ ← run_data_hook (t_on_request_finished TH) put_messages (q_rid q) did;
  d ← data_at did;
  _ ← set_data did (d <| d_output_ids := output_ids (q_ext q) |>
                      <| d_weight_version := t_weight_version TH |>
                      <| d_finish_reason := option_map finish_type (q_finished_reason q) |>);
  _ ← flush_stream_output (q_rid q) did;
  d ← data_at did;
  lift (t_result_adapter TH d).

(** The first error wins: that of the block, else that of the callback. *)
Definition with_callback {A} (r : result A) (callback : result unit) : result A :=
  match r, callback with
  | Ok _, Raise e => Raise e
  | _, _ => r
  end.

Definition discard_first_emit (rid : string) : OM unit :=
  modify (fun s => s <| o_first_emit_done := o_first_emit_done s ∖ {[rid]} |>).

Definition answer_request (oid did : nat) (q : ReqObj) : OM unit :=
  let rid := q_rid q in
  r ← attempt (terminal_result q did);
  let r := with_callback r (t_request_finished_callback TH rid) in
  _ ← emit_model_path_end_once rid (match r with Ok _ => "success" | Raise _ => "error" end);
  abort_cleanup_needed ← close_completed_request oid;
  _ ← (if abort_cleanup_needed : bool then run_abort_callback rid else mret tt);
  _ ← discard_first_emit rid;
  match r with
  | Raise e => emit_request_error H rid e
  | Ok answer => modify (fun s => s <| o_outbox := o_outbox s ++ [OResult rid answer] |>)
  end.

Definition finished_by_abort (q : ReqObj) : bool :=
  match q_finished_reason q with Some FinishAbort => true | _ => false end.

(** One request of [stream_output]. *)
Definition output_request (oid : nat) : OM unit :=
  s ← get;
  match o_reqs s !! oid with
  | None => mret tt
  | Some q =>
      let rid := q_rid q in
      if negb (finished q) then mret tt
      else if finished_by_abort q || bool_decide (rid ∈ o_aborted_ids s) then
        _ ← run_abort_callback rid;
        _ ← discard_first_emit rid;
        _ ← emit_model_path_end_once rid "aborted";
        detach_request_data oid
      else if q_terminal_claimed q then mret tt
      else match q_data q with
           | None => _ ← close_completed_request oid; mret tt
           | Some did => _ ← update_req oid (assign q_terminal_claimed true);
                         answer_request oid did q
           end
  end.

Definition stream_output (reqs : list nat) (skip_req : option nat) : OM unit :=
  mforeach (fun oid => if bool_decide (skip_req = Some oid) then mret tt
                       else output_request oid) reqs.

(** [_handle_batch_failure]: every request of the batch is reported and aborted. *)
Definition handle_batch_failure (reqs : list nat) (e : pyexn) : OM unit :=
  mforeach (fun oid =>
    s ← get;
    match o_reqs s !! oid with
    | None => mret tt
    | Some q =>
        _ ← emit_request_error H (q_rid q) e;
        _ ← emit_model_path_end_once (q_rid q) "error";
        abort (q_rid q) false
    end) reqs.
End Terminal.

(** ** What one request puts on the outbox *)

Section Output.
Context {T : Types} (H : Hooks) (TH : TermHooks).

Definition out_rid (m : OutMsg) : string :=
  match m with OResult rid _ | OStream rid _ | OError rid _ => rid end.

(** A message that ends a request. *)
Definition terminal (m : OutMsg) : bool := match m with OStream _ _ => false | _ => true end.

(** The messages of one request, in their order. *)
Definition messages_of (rid : string) (s : Omni) : list OutMsg :=
  List.filter (fun m => bool_decide (out_rid m = rid)) (o_outbox s).

(** A request [stream_output] will answer. *)
Definition answerable (s : Omni) (q : ReqObj) : bool :=
  finished q && negb (finished_by_abort q) && negb (bool_decide (q_rid q ∈ o_aborted_ids s))
  && negb (q_terminal_claimed q) && match q_data q with Some _ => true | None => false end.

(** The request after its turn in [stream_output]. *)
Definition settled_req (s : Omni) (q : ReqObj) : ReqObj :=
  if negb (finished q) then q
  else if negb (finished_by_abort q || bool_decide (q_rid q ∈ o_aborted_ids s))
          && q_terminal_claimed q then q
  else q <| q_terminal_claimed := q_terminal_claimed q || answerable s q |> <| q_data := None |>.

(** ** The reference answer *)

Abbreviation DataHook := (string → DataObj → list StreamMsg * DataObj * result unit).

(** A hook runs on the data unless an earlier one raised; what it streamed stays. *)
Definition hook_step (hook : option DataHook) (rid : string) (x : list StreamMsg * result DataObj)
    : list StreamMsg * result DataObj :=
  match x.2, hook with
  | Ok d, Some f => let '(ms, d', r) := f rid d in (x.1 ++ ms, _ ← r; Ok d')
  | _, _ => x
  end.

(** The outputs, the weight version and the finish reason are written on the data. *)
Definition stamped (q : ReqObj) (d : DataObj) : DataObj :=
  d <| d_output_ids := output_ids (q_ext q) |> <| d_weight_version := t_weight_version TH |>
    <| d_finish_reason := option_map finish_type (q_finished_reason q) |>.

Definition stamp_step (q : ReqObj) (x : list StreamMsg * result DataObj)
    : list StreamMsg * result DataObj := (x.1, d ← x.2; Ok (stamped q d)).

(** What the request streams when its turn comes with the data [d], and its result: the runner's
    hook, then the builder's on the stamped data, then the adapter. *)
Definition outcome (q : ReqObj) (d : DataObj) : list StreamMsg * result Answer :=
  let x := hook_step (t_flush TH) (q_rid q)
             (stamp_step q (hook_step (t_on_request_finished TH) (q_rid q) ([], Ok d))) in
  (x.1, d ← x.2; t_result_adapter TH d).

(** The whole answer: what was streamed, then the result, or the error of the first step that
    failed, the finished callback being the last. *)
Definition reply (q : ReqObj) (d : DataObj) : list OutMsg :=
  map (OStream (q_rid q)) (outcome q d).1 ++
  [match (outcome q d).2, t_request_finished_callback TH (q_rid q) with
   | Ok a, Ok _ => OResult (q_rid q) a
   | Ok _, Raise e => OError (q_rid q) e
   | Raise e, _ => OError (q_rid q) e
   end].

(** A part of the request block ran: of the data only [did] changed, messages were added. *)
Definition streamed (rid : string) (did : nat) (ms : list StreamMsg) (s s' : Omni) : Prop :=
  o_reqs s' = o_reqs s ∧ same_aborted s s' ∧
  (∀ did', did' ≠ did → o_datas s' !! did' = o_datas s !! did') ∧
  (is_Some (o_datas s !! did) → is_Some (o_datas s' !! did)) ∧
  o_outbox s' = o_outbox s ++ map (OStream rid) ms.

Lemma streamed_refl rid did s : streamed rid did [] s s.
Proof. split_and!; [done..|]. by rewrite app_nil_r. Qed.

Lemma streamed_trans rid did ms1 ms2 s1 s2 s3 :
  streamed rid did ms1 s1 s2 → streamed rid did ms2 s2 s3 → streamed rid did (ms1 ++ ms2) s1 s3.
Proof.
  intros (R1 & [A1 B1] & D1 & K1 & O1) (R2 & [A2 B2] & D2 & K2 & O2).
  split_and!; [congruence|split; congruence|intros did' Hd; by rewrite D2, D1|auto|].
  by rewrite O2, O1, map_app, app_assoc.
Qed.

Lemma data_at_run did d s : o_datas s !! did = Some d → data_at did s = (Ok d, s).
Proof. intros Hd. unfold data_at. erewrite bind_run by reflexivity. by rewrite Hd. Qed.

Lemma set_data_run rid did d s :
  ∃ s', set_data did d s = (Ok tt, s') ∧ streamed rid did [] s s' ∧ o_datas s' !! did = Some d.
Proof.
  eexists. split; [reflexivity|]. split.
  - split_and!; [done..| | |by rewrite app_nil_r].
    + intros did' Hne. fields. by rewrite lookup_insert_ne.
    + fields. rewrite lookup_insert_eq. by eexists.
  - fields. by rewrite lookup_insert_eq.
Qed.

(** Both ways to emit put the messages on the outbox. *)
Definition emits (rid : string) (emit : string → list StreamMsg → M Omni unit) : Prop :=
  ∀ did ms s, ∃ s', emit rid ms s = (Ok tt, s') ∧ streamed rid did ms s s' ∧
    o_datas s' = o_datas s.

Lemma put_emits rid : emits rid put_messages.
Proof. intros did ms s. eexists. split; [reflexivity|]. by split_and!. Qed.

Lemma put_stream_emits rid : emits rid put_stream_messages.
Proof.
  intros did [|m ms] s.
  - exists s. split; [done|]. split; [apply streamed_refl|done].
  - eexists. split; [reflexivity|]. by split_and!.
Qed.

(** A hook does what its step of the reference does. *)
Lemma hook_run hook emit rid did d ms0 s :
  emits rid emit → o_datas s !! did = Some d →
  ∃ ms s', run_data_hook hook emit rid did s =
      (_ ← (hook_step hook rid (ms0, Ok d)).2; Ok tt, s') ∧
    (hook_step hook rid (ms0, Ok d)).1 = ms0 ++ ms ∧ streamed rid did ms s s' ∧
    ∀ d', (hook_step hook rid (ms0, Ok d)).2 = Ok d' → o_datas s' !! did = Some d'.
Proof.
  intros He Hd. unfold run_data_hook, hook_step. cbn [fst snd]. destruct hook as [f|].
  2:{ exists [], s. rewrite app_nil_r. split; [done|]. split; [done|]. split; [apply streamed_refl|].
      by intros d' [= <-]. }
  rewrite (bind_run _ _ _ _ _ (data_at_run _ _ _ Hd)).
  destruct (f rid d) as [[ms d1] r]. destruct (set_data_run rid did d1 s) as (s1 & E1 & S1 & D1).
  rewrite (bind_run _ _ _ _ _ E1). destruct (He did ms s1) as (s2 & E2 & S2 & D2).
  rewrite (bind_run _ _ _ _ _ E2). exists ms, s2.
  split; [by destruct r as [[]|]|]. split; [done|].
  split; [by apply (streamed_trans _ _ [] ms _ s1)|]. intros d'. destruct r; [|done].
  simpl. intros [= <-]. by rewrite D2.
Qed.

(** The block of a request computes the reference outcome. *)
Lemma terminal_result_run q did d s :
  o_datas s !! did = Some d →
  ∃ s', terminal_result TH q did s = ((outcome q d).2, s') ∧
    streamed (q_rid q) did (outcome q d).1 s s'.
Proof.
  intros Hd. unfold terminal_result, flush_stream_output, outcome.
  destruct (hook_run (t_on_request_finished TH) put_messages (q_rid q) did d [] s (put_emits _) Hd)
    as (ms1 & s1 & E1 & M1 & S1 & D1).
  destruct (hook_step (t_on_request_finished TH) (q_rid q) ([], Ok d)) as [x1 r1].
  cbn [fst snd] in *. subst x1. destruct r1 as [d1|e]; simpl in E1.
  2:{ exists s1. split; [|exact S1]. unfold mbind at 1, M_bind. by rewrite E1. }
  rewrite (bind_run _ _ _ _ _ E1), (bind_run _ _ _ _ _ (data_at_run _ _ _ (D1 d1 eq_refl))).
  destruct (set_data_run (q_rid q) did (stamped q d1) s1) as (s2 & E2 & S2 & D2).
  rewrite (bind_run _ _ _ _ _ E2). cbn [stamp_step fst snd mbind result_bind].
  destruct (hook_run (t_flush TH) put_stream_messages (q_rid q) did (stamped q d1) ([] ++ ms1) s2
    (put_stream_emits _) D2) as (ms3 & s3 & E3 & M3 & S3 & D3).
  change (stamp_step q ([] ++ ms1, Ok d1)) with ([] ++ ms1, Ok (stamped q d1)).
  destruct (hook_step (t_flush TH) (q_rid q) _) as [x3 r3]. cbn [fst snd] in *. subst x3.
  assert (streamed (q_rid q) did (([] ++ ms1) ++ ms3) s s3) as Hs.
  { eapply streamed_trans; [exact S1|]. by apply (streamed_trans _ _ [] ms3 _ s2). }
  exists s3. split; [|exact Hs]. destruct r3 as [d3|e]; simpl in E3.
  - rewrite (bind_run _ _ _ _ _ E3), (bind_run _ _ _ _ _ (data_at_run _ _ _ (D3 d3 eq_refl))). done.
  - unfold mbind at 1, M_bind. by rewrite E3.
Qed.

(** ** The bookkeeping around an answer *)

Definition untouched (s s' : Omni) : Prop :=
  o_reqs s' = o_reqs s ∧ same_aborted s s' ∧ o_datas s' = o_datas s ∧ o_outbox s' = o_outbox s.

Definition quiet {A} (m : M Omni A) : Prop := ∀ s, ∃ a s', m s = (Ok a, s') ∧ untouched s s'.

Lemma untouched_refl s : untouched s s.
Proof. by split_and!. Qed.

Lemma untouched_trans s1 s2 s3 : untouched s1 s2 → untouched s2 s3 → untouched s1 s3.
Proof.
  intros (R1 & [A1 B1] & D1 & O1) (R2 & [A2 B2] & D2 & O2). split_and!; [|split|..]; congruence.
Qed.

Lemma quiet_ret {A} (a : A) : quiet (mret a).
Proof. intros s. exists a, s. by split. Qed.

Lemma quiet_bind {A B} (m : M Omni A) (f : A → M Omni B) :
  quiet m → (∀ a, quiet (f a)) → quiet (m ≫= f).
Proof.
  intros Hm Hf s. destruct (Hm s) as (a & s1 & E & H1). destruct (Hf a s1) as (b & s2 & E2 & H2).
  exists b, s2. split; [unfold mbind, M_bind; by rewrite E|by eapply untouched_trans].
Qed.

Lemma quiet_get {B} (f : Omni → M Omni B) : (∀ s, quiet (f s)) → quiet (get ≫= f).
Proof. intros Hf s. exact (Hf s s). Qed.

Lemma quiet_modify f : (∀ s, untouched s (f s)) → quiet (modify f).
Proof. intros Hf s. exists tt, (f s). by split. Qed.

Ltac quiet :=
  repeat (intros; lazymatch goal with
  | |- quiet (get ≫= _) => apply quiet_get
  | |- quiet (_ ≫= _) => apply quiet_bind
  | |- quiet (mret _) => apply quiet_ret
  | |- quiet (modify _) => apply quiet_modify; intros ?; unfold untouched, same_aborted;
      split_and!; reflexivity
  | |- quiet (match ?x with _ => _ end) => destruct x
  end).

Lemma quiet_path_end rid status : quiet (emit_model_path_end_once rid status).
Proof. unfold emit_model_path_end_once. quiet. Qed.

Lemma quiet_callback rid : quiet (run_abort_callback rid).
Proof. unfold run_abort_callback. quiet. Qed.

Lemma quiet_discard rid : quiet (discard_first_emit rid).
Proof. unfold discard_first_emit. quiet. Qed.

Lemma quiet_remember_completed rid : quiet (remember_completed_request rid).
Proof. unfold remember_completed_request. quiet. Qed.

Lemma close_run oid q s :
  o_reqs s !! oid = Some q →
  ∃ b s', close_completed_request oid s = (Ok b, s') ∧
    untouched (s <| o_reqs := alter (assign q_data None) oid (o_reqs s) |>) s'.
Proof.
  intros Hq. unfold close_completed_request. erewrite bind_run by reflexivity. rewrite Hq.
  erewrite bind_run by reflexivity.
  set (s1 := s <| o_reqs := _ |>).
  refine ((_ : quiet (_ ← remember_completed_request (q_rid q); _)) s1).
  apply quiet_bind; [apply quiet_remember_completed|]. quiet.
Qed.

(** ** One request of [stream_output] *)

Context (Hentry : h_is_entry_rank H = true).

(** The messages of an answer: what was streamed, then one terminal message. *)
Definition answer (rid : string) (ms : list OutMsg) : Prop :=
  ∃ chunks m, ms = map (OStream rid) chunks ++ [m] ∧ terminal m = true ∧ out_rid m = rid.

Lemma reply_answer q d : answer (q_rid q) (reply q d).
Proof.
  eexists _, _. split; [reflexivity|].
  by destruct (outcome q d).2, (t_request_finished_callback TH (q_rid q)).
Qed.

Lemma answer_request_run oid did d q q0 s :
  o_reqs s !! oid = Some q0 → o_datas s !! did = Some d →
  ∃ s', answer_request H TH oid did q s = (Ok tt, s') ∧
    o_reqs s' = alter (assign q_data None) oid (o_reqs s) ∧ same_aborted s s' ∧
    (∀ did', did' ≠ did → o_datas s' !! did' = o_datas s !! did') ∧
    is_Some (o_datas s' !! did) ∧ o_outbox s' = o_outbox s ++ reply q d.
Proof.
  intros Hq Hd. unfold answer_request.
  destruct (terminal_result_run q did d s Hd) as (s1 & E1 & R1 & [A1 B1] & D1 & K1 & O1).
  erewrite bind_run by (unfold attempt; rewrite E1; reflexivity).
  set (r := with_callback _ _).
  match goal with |- context [emit_model_path_end_once ?a ?b] =>
    destruct (quiet_path_end a b s1) as ([] & s2 & E2 & R2 & [A2 B2] & D2 & O2) end.
  rewrite (bind_run _ _ _ _ _ E2).
  destruct (close_run oid q0 s2) as (b & s3 & E3 & R3 & [A3 B3] & D3 & O3); [congruence|].
  rewrite (bind_run _ _ _ _ _ E3).
  assert (quiet (if b then run_abort_callback (q_rid q) else mret tt)) as Hc.
  { destruct b; [apply quiet_callback|apply quiet_ret]. }
  destruct (Hc s3) as ([] & s3' & E3' & Hu). rewrite (bind_run _ _ _ _ _ E3').
  destruct (quiet_discard (q_rid q) s3') as ([] & s4 & E4 & Hu').
  rewrite (bind_run _ _ _ _ _ E4).
  destruct (untouched_trans _ _ _ Hu Hu') as (R4 & [A4 B4] & D4 & O4).
  clear Hu Hu' Hc E1 E2 E3 E3' E4.
  set (m := match r with Ok a => OResult (q_rid q) a | Raise e => OError (q_rid q) e end).
  assert (reply q d = map (OStream (q_rid q)) (outcome q d).1 ++ [m]) as Hm.
  { unfold reply, m, r. do 2 f_equal.
    by destruct (outcome q d).2, (t_request_finished_callback TH (q_rid q)). }
  exists (s4 <| o_outbox := o_outbox s4 ++ [m] |>). split; [|split; [|split; [|split; [|split]]]].
  - unfold m. destruct r as [a|e]; [done|]. unfold emit_request_error. by rewrite Hentry.
  - change (o_reqs s4 = alter (assign q_data None) oid (o_reqs s)). rewrite R4, R3.
    change (alter (assign q_data None) oid (o_reqs s2) = alter (assign q_data None) oid (o_reqs s)).
    by rewrite R2, R1.
  - change (same_aborted s s4). change (o_aborted_ids s3 = o_aborted_ids s2) in A3.
    change (o_aborted_order s3 = o_aborted_order s2) in B3. split; congruence.
  - change (∀ did', did' ≠ did → o_datas s4 !! did' = o_datas s !! did').
    change (o_datas s3 = o_datas s2) in D3. intros did' Hd'. rewrite D4, D3, D2. auto.
  - change (is_Some (o_datas s4 !! did)). change (o_datas s3 = o_datas s2) in D3.
    rewrite D4, D3, D2. apply K1. by eexists.
  - change (o_outbox s4 ++ [m] = o_outbox s ++ reply q d).
    change (o_outbox s3 = o_outbox s2) in O3. by rewrite O4, O3, O2, O1, <- app_assoc, Hm.
Qed.

Lemma assign_claimed q : q <| q_terminal_claimed := q_terminal_claimed q |> = q.
Proof. by destruct q. Qed.

Lemma attached_detach oid s s' :
  attached s → o_reqs s' = alter (assign q_data None) oid (o_reqs s) →
  (∀ did, is_Some (o_datas s !! did) → is_Some (o_datas s' !! did)) → attached s'.
Proof.
  intros Ha Hr Hd oid' q' did. rewrite Hr. destruct (decide (oid' = oid)) as [->|Hne].
  - rewrite lookup_alter_eq. destruct (o_reqs s !! oid) as [q|]; [|done]. by intros [= <-].
  - rewrite lookup_alter_ne by done. intros Hq' Hd'. by eapply Hd, Ha.
Qed.

(** The messages of one turn: the reference reply for the data of the request, or none. *)
Definition replies (s : Omni) (q : ReqObj) (ms : list OutMsg) : Prop :=
  if answerable s q
  then ∃ did d, q_data q = Some did ∧ o_datas s !! did = Some d ∧ ms = reply q d
  else ms = [].

Lemma replies_answer s q ms : replies s q ms → if answerable s q then answer (q_rid q) ms else ms = [].
Proof.
  unfold replies. destruct (answerable s q); [|done].
  intros (did & d & _ & _ & ->). apply reply_answer.
Qed.

(** What one turn of [stream_output] does. *)
Lemma output_request_run oid q s :
  attached s → o_reqs s !! oid = Some q →
  ∃ s' ms, output_request H TH oid s = (Ok tt, s') ∧ replies s q ms ∧
    o_reqs s' = <[oid := settled_req s q]> (o_reqs s) ∧ same_aborted s s' ∧ attached s' ∧
    o_outbox s' = o_outbox s ++ ms ∧
    ∀ did, q_data q ≠ Some did → o_datas s' !! did = o_datas s !! did.
Proof.
  intros Ha Hq. unfold replies, output_request, settled_req.
  erewrite bind_run by reflexivity. rewrite Hq.
  destruct (finished q) eqn:Ef; cbv beta iota delta [negb].
  2:{ assert (answerable s q = false) as -> by (unfold answerable; by rewrite Ef).
      exists s, []. rewrite insert_id, app_nil_r by done. by split_and!. }
  destruct (finished_by_abort q || bool_decide (q_rid q ∈ o_aborted_ids s)) eqn:Eab; cbv beta iota delta [negb].
  { assert (answerable s q = false) as ->.
    { unfold answerable. apply orb_true_iff in Eab as [-> | ->]; simpl;
        by rewrite ?andb_false_r. }
    assert (quiet (_ ← run_abort_callback (q_rid q); _ ← discard_first_emit (q_rid q);
                   emit_model_path_end_once (q_rid q) "aborted")) as Hm.
    { apply quiet_bind; [apply quiet_callback|intros _].
      apply quiet_bind; [apply quiet_discard|intros _; apply quiet_path_end]. }
    destruct (Hm s) as ([] & s1 & E1 & R1 & [A1 B1] & D1 & O1).
    exists (s1 <| o_reqs := alter (assign q_data None) oid (o_reqs s1) |>), [].
    assert (∀ (f : unit → M Omni unit), (_ ← run_abort_callback (q_rid q);
      _ ← discard_first_emit (q_rid q); x ← emit_model_path_end_once (q_rid q) "aborted"; f x) s =
      f tt s1) as Hassoc.
    { intros f. revert E1. unfold mbind, M_bind.
      destruct (run_abort_callback (q_rid q) s) as [[]]; [|done].
      destruct (discard_first_emit (q_rid q) _) as [[]]; [|done]. by intros ->. }
    rewrite (Hassoc (fun _ => detach_request_data oid)).
    split_and!; [done..| | | | |].
    - fields. rewrite R1. apply (alter_lookup _ _ _ q); [done|]. simpl.
      by rewrite orb_false_r, assign_claimed.
    - done.
    - apply (attached_detach oid s); [done|by rewrite <- R1|]. by rewrite <- D1.
    - fields. by rewrite O1, app_nil_r.
    - intros did _. fields. by rewrite D1. }
  apply orb_false_iff in Eab as [Eab1 Eab2].
  assert (answerable s q = negb (q_terminal_claimed q) &&
            match q_data q with Some _ => true | None => false end) as ->.
  { unfold answerable. by rewrite Ef, Eab1, Eab2. }
  destruct (q_terminal_claimed q) eqn:Ec; simpl.
  { exists s, []. rewrite insert_id, app_nil_r by done. by split_and!. }
  destruct (q_data q) as [did|] eqn:Ed.
  - erewrite bind_run by reflexivity. set (s0 := s <| o_reqs := _ |>).
    assert (o_reqs s0 !! oid = Some (q <| q_terminal_claimed := true |>)) as Hq0.
    { unfold s0. fields. by rewrite lookup_alter_eq, Hq. }
    assert (is_Some (o_datas s0 !! did)) as [d Hdid] by by eapply Ha.
    destruct (answer_request_run oid did d q _ s0 Hq0 Hdid) as (s' & E & R & Hab & D & K & O).
    exists s', (reply q d). split; [exact E|]. split; [by exists did, d|].
    split; [|split; [exact Hab|split; [|split; [exact O|]]]].
    + rewrite R. apply map_eq. intros i. unfold s0. fields.
      destruct (decide (i = oid)) as [->|Hne].
      * by rewrite !lookup_alter_eq, Hq, lookup_insert_eq.
      * by rewrite !lookup_alter_ne, lookup_insert_ne.
    + apply (attached_detach oid s0); [|done|].
      * intros oid' q' did'. destruct (decide (oid' = oid)) as [->|Hne].
        -- rewrite Hq0. intros [= <-] Hd'. by eapply Ha.
        -- unfold s0. fields. rewrite lookup_alter_ne by done. apply Ha.
      * intros did' Hd'. by destruct (decide (did' = did)) as [->|Hne]; [|rewrite D].
    + intros did' Hne. apply D. congruence.
  - destruct (close_run oid q s Hq) as (b & s' & E & R & [A B] & D & O).
    rewrite (bind_run _ _ _ _ _ E). exists s', []. split; [done|]. split; [done|].
    split; [|split; [by split|split; [|split]]].
    + rewrite R. apply (alter_lookup _ _ _ q); [done|]. rewrite <- Ec at 1.
      by rewrite assign_claimed.
    + apply (attached_detach oid s); [done..|]. by rewrite D.
    + by rewrite O, app_nil_r.
    + intros did _. by rewrite D.
Qed.

Context (Hlaw : release_law (h_release_kv_cache H)).
Abbreviation silent := (silent (fun _ => tt)).

(** ** Runs *)

Inductive TEvent : Type :=
(** upstream decides that a request ends *)
| TFinish (oid : nat) (reason : Finish)
| TOutput (reqs : list nat) (skip_req : option nat)
| TAbort (rid : string) (defer_running_cleanup : bool)
| TFail (reqs : list nat) (e : pyexn).

Definition finish_request (oid : nat) (reason : Finish) : M Omni unit :=
  update_req oid (fun q => if finished q then q else q <| q_finished_reason := Some reason |>).

Definition term_event (e : TEvent) : M Omni unit :=
  match e with
  | TFinish oid reason => finish_request oid reason
  | TOutput reqs skip_req => stream_output H TH reqs skip_req
  | TAbort rid defer => abort (h_release_kv_cache H) rid defer
  | TFail reqs e => handle_batch_failure H reqs e
  end.

Definition term_run (events : list TEvent) : M Omni unit := mforeach term_event events.

(** How often a failed batch lists the request. *)
Definition failures (oid : nat) (events : list TEvent) : nat :=
  sum_list (map (fun e => match e with
                          | TFail reqs _ => length (filter (fun o => o = oid) reqs)
                          | _ => O
                          end) events).

(** Nothing follows a terminal message. *)
Definition ended (ms : list OutMsg) : Prop :=
  ∀ pre m post, ms = pre ++ m :: post → terminal m = true → post = [].

(** Only this object has the identifier. *)
Definition owner (s : Omni) (rid : string) (oid : nat) : Prop :=
  ∀ oid' q, o_reqs s !! oid' = Some q → q_rid q = rid → oid' = oid.

Definition terminals (rid : string) (s : Omni) : list OutMsg :=
  List.filter terminal (messages_of rid s).

Record answered (oid : nat) (rid : string) (n : nat) (s : Omni) : Prop := {
  an_aborted : aborted_ok s;
  an_attached : attached s;
  an_owner : owner s rid oid;
  an_count : ∃ q, o_reqs s !! oid = Some q ∧ q_rid q = rid ∧
               (length (terminals rid s) ≤ (if q_terminal_claimed q then 1 else 0) + n)%nat;
  an_ended : n = O → ended (messages_of rid s)
}.

Lemma messages_of_app rid s s' ms :
  o_outbox s' = o_outbox s ++ ms →
  messages_of rid s' = messages_of rid s ++ List.filter (fun m => bool_decide (out_rid m = rid)) ms.
Proof. intros E. unfold messages_of. by rewrite E, List.filter_app. Qed.

Lemma filter_all {A} (f : A → bool) l : Forall (fun x => f x = true) l → List.filter f l = l.
Proof. induction 1 as [|x l Hx _ IH]; simpl; [done|]. by rewrite Hx, IH. Qed.

Lemma filter_none {A} (f : A → bool) l : Forall (fun x => f x = false) l → List.filter f l = [].
Proof. induction 1 as [|x l Hx _ IH]; simpl; [done|]. by rewrite Hx. Qed.

Lemma answer_rids rid ms : answer rid ms → Forall (fun m => out_rid m = rid) ms.
Proof.
  intros (chunks & m & -> & _ & Hm). apply Forall_app. split; [|by constructor].
  apply Forall_forall. intros x Hx. apply list_elem_of_In, in_map_iff in Hx as (c & <- & _). done.
Qed.

Lemma answer_terminals rid ms : answer rid ms → length (List.filter terminal ms) = 1%nat.
Proof.
  intros (chunks & m & -> & Hm & _). rewrite List.filter_app, filter_none; simpl; [by rewrite Hm|].
  apply Forall_forall. intros x Hx. apply list_elem_of_In, in_map_iff in Hx as (c & <- & _). done.
Qed.

Lemma answer_ended rid ms ms' :
  List.filter terminal ms = [] → answer rid ms' → ended (ms ++ ms').
Proof.
  intros Hms (chunks & m & -> & Hm & _) pre x post E Hx.
  destruct post as [|y post] using rev_ind; [done|]. exfalso. clear IHpost.
  rewrite app_assoc, app_comm_cons, app_assoc in E. apply app_inj_tail in E as [E _].
  assert (List.filter terminal (ms ++ map (OStream rid) chunks) = []) as Hn.
  { rewrite List.filter_app, Hms. apply filter_none, Forall_forall.
    intros z Hz. apply list_elem_of_In, in_map_iff in Hz as (c & <- & _). done. }
  rewrite E, List.filter_app in Hn. simpl in Hn. rewrite Hx in Hn.
  by apply app_eq_nil in Hn as [_ ?].
Qed.

Lemma settled_rid s q : q_rid (settled_req s q) = q_rid q.
Proof. unfold settled_req. destruct (negb (finished q)); [done|]. by destruct (_ && _). Qed.

Lemma settled_claimed s q :
  q_terminal_claimed (settled_req s q) = q_terminal_claimed q || answerable s q.
Proof.
  unfold settled_req, answerable. destruct (finished q); simpl; [|by rewrite orb_false_r].
  destruct (finished_by_abort q); simpl; [done|].
  destruct (bool_decide _); simpl; [done|].
  destruct (q_terminal_claimed q) eqn:E; simpl; by rewrite ?E.
Qed.

Lemma owner_insert s s' rid oid oid' q :
  owner s rid oid → o_reqs s !! oid' = Some q →
  o_reqs s' = <[oid' := settled_req s q]> (o_reqs s) → owner s' rid oid.
Proof.
  intros Ho Hq E o q1. rewrite E. destruct (decide (o = oid')) as [->|Hne].
  - rewrite lookup_insert_eq. intros [= <-]. rewrite settled_rid. by eapply Ho.
  - rewrite lookup_insert_ne by done. apply Ho.
Qed.
Lemma answered_output oid rid n oid' s :
  answered oid rid n s → ∃ s', output_request H TH oid' s = (Ok tt, s') ∧ answered oid rid n s'.
Proof.
  intros Hs. destruct (o_reqs s !! oid') as [q'|] eqn:Hq'.
  2:{ exists s. split; [|done]. unfold output_request. erewrite bind_run by reflexivity.
      by rewrite Hq'. }
  destruct Hs as [Hab Hat Ho (q & Hq & Hrid & Hn) He].
  destruct (output_request_run oid' q' s Hat Hq')
    as (s' & ms & E & Hms%replies_answer & R & [A B] & Hat' & O & _).
  pose proof (messages_of_app rid _ _ _ O) as Hmsgs.
  exists s'. split; [done|].
  assert (aborted_ok s') as Hab' by (unfold aborted_ok in *; by rewrite A, B).
  assert (owner s' rid oid) as Ho' by by eapply owner_insert.
  destruct (decide (oid' = oid)) as [->|Hne].
  - replace q' with q in * by congruence. subst rid.
    assert (List.filter (fun m => bool_decide (out_rid m = q_rid q)) ms = ms) as Hall.
    { apply filter_all, Forall_forall. intros m Hm. apply bool_decide_eq_true.
      destruct (answerable s q); [|by subst; apply elem_of_nil in Hm].
      by eapply Forall_forall in Hm; [|by apply answer_rids]. }
    rewrite Hall in Hmsgs. constructor; try done.
    + exists (settled_req s q). rewrite R, lookup_insert_eq, settled_rid, settled_claimed.
      split_and!; [done..|]. unfold terminals. rewrite Hmsgs, List.filter_app, length_app.
      fold (terminals (q_rid q) s). destruct (answerable s q) eqn:Ean.
      * rewrite (answer_terminals _ _ Hms). unfold answerable in Ean.
        destruct (q_terminal_claimed q); simpl in *; [by rewrite andb_false_r in Ean|lia].
      * subst ms. rewrite orb_false_r. simpl. lia.
    + intros ->. specialize (He eq_refl). rewrite Hmsgs. destruct (answerable s q) eqn:Ean.
      * apply (answer_ended (q_rid q)); [|done]. apply length_zero_iff_nil.
        fold (terminals (q_rid q) s). unfold answerable in Ean.
        destruct (q_terminal_claimed q); simpl in *; [by rewrite andb_false_r in Ean|lia].
      * subst ms. by rewrite app_nil_r.
  - assert (q_rid q' ≠ rid) as Hnr by (intros Hr; apply Hne; by eapply Ho).
    assert (List.filter (fun m => bool_decide (out_rid m = rid)) ms = []) as Hnone.
    { apply filter_none, Forall_forall. intros m Hm. apply bool_decide_eq_false.
      destruct (answerable s q'); [|by subst; apply elem_of_nil in Hm].
      apply answer_rids in Hms. eapply Forall_forall in Hms; [|done]. by rewrite Hms. }
    rewrite Hnone, app_nil_r in Hmsgs. constructor; try done.
    + exists q. rewrite R, lookup_insert_ne by done. split_and!; [done..|].
      unfold terminals. by rewrite Hmsgs.
    + by rewrite Hmsgs.
Qed.

Lemma answered_silent oid rid n s s' :
  answered oid rid n s → silent s s' → aborted_ok s' → answered oid rid n s'.
Proof.
  intros [Hab Hat Ho (q & Hq & Hrid & Hn) He] Hs Hab'. pose proof Hs as (O & _ & R).
  assert (messages_of rid s' = messages_of rid s) as Hm by (unfold messages_of; by rewrite O).
  constructor; [done|by eapply (silent_attached (fun _ => tt))| | |by rewrite Hm].
  - intros oid' q' Hq' Hr. specialize (R oid'). rewrite Hq' in R.
    destruct (o_reqs s !! oid') as [q0|] eqn:Hq0; [|done]. eapply Ho; [done|].
    by destruct R as (<- & _).
  - specialize (R oid). rewrite Hq in R. destruct (o_reqs s' !! oid) as [q'|]; [|done].
    destruct R as (Hr & Hc & _). exists q'. split_and!; [done|congruence|].
    unfold terminals. by rewrite Hm, Hc.
Qed.

Lemma answered_abort oid rid n rid' defer s :
  answered oid rid n s →
  ∃ s', abort (h_release_kv_cache H) rid' defer s = (Ok tt, s') ∧ answered oid rid n s'.
Proof.
  intros Hs. destruct (abort_silent (fun _ => tt) _ Hlaw (fun _ _ => eq_refl) (fun _ => eq_refl)
    (fun _ => eq_refl) rid' defer s) as (s' & E & Hsil & Hok); [apply Hs|].
  exists s'. split; [done|by eapply answered_silent].
Qed.

Lemma answered_finish oid rid n oid' reason s :
  answered oid rid n s →
  ∃ s', finish_request oid' reason s = (Ok tt, s') ∧ answered oid rid n s'.
Proof.
  intros [Hab Hat Ho (q & Hq & Hrid & Hn) He]. eexists. split; [reflexivity|].
  set (f := fun q : ReqObj => _).
  assert (∀ q, q_rid (f q) = q_rid q ∧ q_data (f q) = q_data q ∧
               q_terminal_claimed (f q) = q_terminal_claimed q) as Hf.
  { intros q0. unfold f. by destruct (finished q0). }
  assert (∀ o q1, alter f oid' (o_reqs s) !! o = Some q1 →
    ∃ q0, o_reqs s !! o = Some q0 ∧ q_rid q1 = q_rid q0 ∧ q_data q1 = q_data q0) as Hback.
  { intros o q1. destruct (decide (o = oid')) as [->|Hne].
    - rewrite lookup_alter_eq. destruct (o_reqs s !! oid') as [q0|]; [|done].
      intros [= <-]. exists q0. split; [done|]. apply (conj (proj1 (Hf q0)) (proj1 (proj2 (Hf q0)))).
    - rewrite lookup_alter_ne by done. intros ?. by exists q1. }
  constructor; fields; [done| | | |done].
  - intros o q1 did Hq1 Hd. fields. destruct (Hback o q1 Hq1) as (q0 & Hq0 & _ & Hd0).
    eapply Hat; [done|]. congruence.
  - intros o q1 Hq1 Hr. fields. destruct (Hback o q1 Hq1) as (q0 & Hq0 & Hr0 & _).
    eapply Ho; [done|]. congruence.
  - fields. destruct (decide (oid = oid')) as [->|Hne].
    + rewrite lookup_alter_eq, Hq. exists (f q). destruct (Hf q) as (-> & _ & ->). by split_and!.
    + rewrite lookup_alter_ne by done. by exists q.
Qed.

Lemma answered_weaken oid rid n m s : (n ≤ m)%nat → answered oid rid n s → answered oid rid m s.
Proof.
  intros Hle [Hab Hat Ho (q & Hq & Hrid & Hn) He]. constructor; try done.
  - exists q. split_and!; [done..|lia].
  - intros ->. apply He. lia.
Qed.

(** A report for another request changes nothing, one for this request is counted. *)
Lemma answered_error oid rid n oid' q' e s :
  answered oid rid n s → o_reqs s !! oid' = Some q' →
  answered oid rid ((if decide (oid' = oid) then 1 else 0) + n)
    (s <| o_outbox := o_outbox s ++ [OError (q_rid q') e] |>).
Proof.
  intros [Hab Hat Ho (q & Hq & Hrid & Hn) He] Hq'. set (s' := s <| o_outbox := _ |>).
  pose proof (messages_of_app rid s s' _ eq_refl) as Hm. simpl in Hm.
  destruct (decide (oid' = oid)) as [Heq|Heq].
  - subst oid'. constructor; try done. exists q. split_and!; [done..|].
    unfold terminals. rewrite Hm, List.filter_app, length_app. fold (terminals rid s).
    case_bool_decide; simpl; lia.
  - rewrite bool_decide_eq_false_2, app_nil_r in Hm by (intros Hr; apply Heq; by eapply Ho).
    constructor; try done.
    + exists q. split_and!; [done..|]. unfold terminals. by rewrite Hm.
    + by rewrite Hm.
Qed.

Lemma answered_fail oid rid n reqs e s :
  answered oid rid n s →
  ∃ s', handle_batch_failure H reqs e s = (Ok tt, s') ∧
    answered oid rid (length (filter (fun o => o = oid) reqs) + n) s'.
Proof.
  unfold handle_batch_failure. revert n s.
  induction reqs as [|oid' reqs IH]; intros n s Hs; cbn [mforeach]; [by exists s|].
  assert (∃ s1, (s0 ← get; match o_reqs s0 !! oid' with
    | None => mret tt
    | Some q => _ ← emit_request_error H (q_rid q) e;
                _ ← emit_model_path_end_once (q_rid q) "error";
                abort (h_release_kv_cache H) (q_rid q) false
    end) s = (Ok tt, s1) ∧ answered oid rid ((if decide (oid' = oid) then 1 else 0) + n) s1)
    as (s1 & E1 & Hs1).
  { erewrite bind_run by reflexivity. destruct (o_reqs s !! oid') as [q'|] eqn:Hq'.
    2:{ exists s. split; [done|]. eapply answered_weaken; [|done]. lia. }
    pose proof (answered_error oid rid n oid' q' e s Hs Hq') as Hs0.
    erewrite bind_run by (unfold emit_request_error; rewrite Hentry; reflexivity).
    set (s0 := s <| o_outbox := _ |>) in *.
    destruct (quiet_path_end (q_rid q') "error" s0) as ([] & s2 & E2 & R & [A B] & D & O).
    rewrite (bind_run _ _ _ _ _ E2). apply answered_abort. eapply answered_silent; [done| |].
    - split_and!; [done..|]. intros o. rewrite R. destruct (o_reqs s0 !! o); naive_solver.
    - pose proof (an_aborted _ _ _ _ Hs0) as Hok. unfold aborted_ok in *. by rewrite A, B. }
  rewrite (bind_run _ _ _ _ _ E1). destruct (IH _ _ Hs1) as (s2 & E2 & Hs2). exists s2.
  split; [done|]. eapply answered_weaken; [|exact Hs2]. rewrite filter_cons.
  destruct (decide (oid' = oid)); simpl; lia.
Qed.

Lemma answered_stream oid rid n reqs skip_req s :
  answered oid rid n s →
  ∃ s', stream_output H TH reqs skip_req s = (Ok tt, s') ∧ answered oid rid n s'.
Proof.
  unfold stream_output. revert s. induction reqs as [|oid' reqs IH]; intros s Hs;
    cbn [mforeach]; [by exists s|].
  assert (∃ s1, (if bool_decide (skip_req = Some oid') then mret tt
                 else output_request H TH oid') s = (Ok tt, s1) ∧ answered oid rid n s1)
    as (s1 & E1 & Hs1).
  { case_bool_decide; [by exists s|by apply answered_output]. }
  rewrite (bind_run _ _ _ _ _ E1). by apply IH.
Qed.

Lemma answered_run oid rid events n s :
  answered oid rid n s →
  ∃ s', term_run events s = (Ok tt, s') ∧ answered oid rid (failures oid events + n) s'.
Proof.
  unfold term_run. revert n s. induction events as [|e events IH]; intros n s Hs;
    cbn [mforeach]; [by exists s|].
  set (k := match e with TFail reqs _ => length (filter (fun o => o = oid) reqs) | _ => O end).
  assert (∃ s1, term_event e s = (Ok tt, s1) ∧ answered oid rid (k + n) s1) as (s1 & E1 & Hs1).
  { destruct e; simpl; [by apply answered_finish|by apply answered_stream|
      by apply answered_abort|by apply answered_fail]. }
  rewrite (bind_run _ _ _ _ _ E1). destruct (IH _ _ Hs1) as (s2 & E2 & Hs2). exists s2.
  split; [done|]. eapply answered_weaken; [|exact Hs2]. unfold failures, k. simpl.
  destruct e; lia.
Qed.

(** ** An answerable request is answered *)

(** No other request has this data. *)
Definition private (did oid : nat) (s : Omni) : Prop :=
  ∀ o q, o_reqs s !! o = Some q → q_data q = Some did → o = oid.

Lemma settled_data s q did : q_data (settled_req s q) = Some did → q_data q = Some did.
Proof. unfold settled_req. destruct (negb (finished q)); [done|]. by destruct (_ && _). Qed.

Lemma private_turn did oid oid' q s s' :
  o_reqs s !! oid' = Some q → o_reqs s' = <[oid' := settled_req s q]> (o_reqs s) →
  private did oid s → private did oid s'.
Proof.
  intros Hq R Hp o q1. rewrite R. destruct (decide (o = oid')) as [->|Hne].
  - rewrite lookup_insert_eq. intros [= <-] Hd%settled_data. by eapply Hp.
  - rewrite lookup_insert_ne by done. apply Hp.
Qed.

(** One turn, seen from the request. *)
Lemma output_view oid q oid' s :
  attached s → owner s (q_rid q) oid → o_reqs s !! oid = Some q →
  ∃ s' ms, output_request H TH oid' s = (Ok tt, s') ∧ attached s' ∧ owner s' (q_rid q) oid ∧
    same_aborted s s' ∧
    o_reqs s' !! oid = Some (if decide (oid' = oid) then settled_req s q else q) ∧
    messages_of (q_rid q) s' = messages_of (q_rid q) s ++ ms ∧
    (if decide (oid' = oid) then replies s q ms else ms = []) ∧
    ∀ did, private did oid s →
      private did oid s' ∧ (oid' ≠ oid → o_datas s' !! did = o_datas s !! did).
Proof.
  intros Hat Ho Hq. destruct (o_reqs s !! oid') as [q'|] eqn:Hq'.
  2:{ exists s, []. destruct (decide (oid' = oid)); [congruence|]. rewrite app_nil_r.
      split; [|by split_and!]. unfold output_request. erewrite bind_run by reflexivity.
      by rewrite Hq'. }
  destruct (output_request_run oid' q' s Hat Hq')
    as (s' & ms & E & Hms & R & Hab & Hat' & O & D).
  exists s', (List.filter (fun m => bool_decide (out_rid m = q_rid q)) ms).
  pose proof (messages_of_app (q_rid q) _ _ _ O) as Hm.
  pose proof (replies_answer _ _ _ Hms) as Hans.
  split; [done|]. split; [done|]. split; [by eapply owner_insert|]. split; [done|].
  assert (∀ did, private did oid s →
    private did oid s' ∧ (oid' ≠ oid → o_datas s' !! did = o_datas s !! did)) as Hpriv.
  { intros did Hp. split; [by eapply private_turn|]. intros Hne. apply D. intros Hd. by eapply Hne, Hp. }
  destruct (decide (oid' = oid)) as [->|Hne].
  - replace q' with q in * by congruence. rewrite R, lookup_insert_eq. split; [done|].
    split; [done|]. split; [|done]. rewrite filter_all; [done|].
    destruct (answerable s q); [|by subst ms].
    eapply Forall_impl; [by apply answer_rids|]. intros m <-. by apply bool_decide_eq_true.
  - rewrite R, lookup_insert_ne by done. split; [done|]. split; [done|]. split; [|done].
    apply filter_none, Forall_forall. intros m Hin. apply bool_decide_eq_false.
    destruct (answerable s q'); [|by subst; apply elem_of_nil in Hin].
    apply answer_rids in Hans. eapply Forall_forall in Hans; [|done]. rewrite Hans.
    intros Hr. apply Hne. by eapply Ho.
Qed.

Lemma stream_output_cons oid' reqs s s1 :
  output_request H TH oid' s = (Ok tt, s1) →
  stream_output H TH (oid' :: reqs) None s = stream_output H TH reqs None s1.
Proof. intros E. unfold stream_output. cbn [mforeach]. by rewrite (bind_run _ _ _ _ _ E). Qed.

Lemma stream_claimed oid q reqs s :
  attached s → owner s (q_rid q) oid → o_reqs s !! oid = Some q → q_terminal_claimed q = true →
  ∃ s', stream_output H TH reqs None s = (Ok tt, s') ∧
    messages_of (q_rid q) s' = messages_of (q_rid q) s.
Proof.
  revert q s. induction reqs as [|oid' reqs IH]; intros q s Hat Ho Hq Hc; [by exists s|].
  destruct (output_view oid q oid' s Hat Ho Hq) as (s1 & ms & E & Hat1 & Ho1 & _ & Hq1 & Hm1 & Hms & _).
  rewrite (stream_output_cons _ _ _ _ E).
  assert (ms = []) as ->.
  { unfold replies, answerable in Hms. rewrite Hc, andb_false_r in Hms. by case_decide. }
  set (q1 := if decide (oid' = oid) then _ else _) in Hq1.
  assert (q_rid q1 = q_rid q) as Hr1 by (unfold q1; case_decide; by rewrite ?settled_rid).
  destruct (IH q1 s1) as (s2 & E2 & Hm2); [done|by rewrite Hr1|done| |].
  { unfold q1. case_decide; [|done]. by rewrite settled_claimed, Hc. }
  exists s2. split; [done|]. by rewrite <- Hr1, Hm2, Hr1, Hm1, app_nil_r.
Qed.

Lemma stream_answers oid q did reqs s :
  attached s → owner s (q_rid q) oid → o_reqs s !! oid = Some q →
  answerable s q = true → q_data q = Some did → oid ∈ reqs →
  ∃ s' d, stream_output H TH reqs None s = (Ok tt, s') ∧
    messages_of (q_rid q) s' = messages_of (q_rid q) s ++ reply q d ∧
    (private did oid s → o_datas s !! did = Some d).
Proof.
  revert s. induction reqs as [|oid' reqs IH]; intros s Hat Ho Hq Han Hd Hin; [by apply elem_of_nil in Hin|].
  destruct (output_view oid q oid' s Hat Ho Hq)
    as (s1 & ms & E & Hat1 & Ho1 & [A1 _] & Hq1 & Hm1 & Hms & Hp).
  rewrite (stream_output_cons _ _ _ _ E). destruct (decide (oid' = oid)) as [->|Hne].
  - unfold replies in Hms. rewrite Han in Hms. destruct Hms as (did' & d & Hd' & Hdid & ->).
    destruct (stream_claimed oid (settled_req s q) reqs s1) as (s2 & E2 & Hm2).
    + done.
    + by rewrite settled_rid.
    + done.
    + by rewrite settled_claimed, Han, orb_true_r.
    + rewrite settled_rid in Hm2. exists s2, d. split_and!; [done|by rewrite Hm2|congruence].
  - apply elem_of_cons in Hin as [->|Hin]; [done|]. subst ms. rewrite app_nil_r in Hm1.
    destruct (IH s1) as (s2 & d & E2 & Hm2 & Hd2); [done..| |done|done|].
    + unfold answerable in *. by rewrite A1.
    + exists s2, d. split_and!; [done|by rewrite Hm2, Hm1|]. intros Hpr.
      destruct (Hp did Hpr) as [Hpr1 Hsame]. rewrite <- Hsame by done. by apply Hd2.
Qed.
End Output.

(** C11: Whatever finishes, output rounds, aborts and failed batches follow, none of these steps
    raises and a request gets at most one terminal message besides the reports of failed batches
    that list it; when none does, nothing of it follows that message. A finished request that
    may be answered is answered by the next round that lists it with the reference reply for its
    data: what the runner's hook and the flush streamed, then the adapter's result, or the error
    of whichever of the four hooks - runner, flush, adapter, finished callback - raised first.
    *)
Theorem stream_output_answers_once `{T : Types} H TH oid q events s :
  h_is_entry_rank H = true → release_law (h_release_kv_cache H) →
  aborted_ok s → attached s → owner s (q_rid q) oid →
  o_reqs s !! oid = Some q → q_terminal_claimed q = false → terminals (q_rid q) s = [] →
  ∃ s', term_run H TH events s = (Ok tt, s') ∧
    (length (terminals (q_rid q) s') ≤ 1 + failures oid events)%nat ∧
    (failures oid events = O → ended (messages_of (q_rid q) s')) ∧
    ∀ q' did reqs, o_reqs s' !! oid = Some q' → answerable s' q' = true →
      q_data q' = Some did → oid ∈ reqs →
      ∃ s'' d, stream_output H TH reqs None s' = (Ok tt, s'') ∧
        messages_of (q_rid q) s'' = messages_of (q_rid q) s' ++ reply TH q' d ∧
        (private did oid s' → o_datas s' !! did = Some d).
Proof.
  intros Hentry Hlaw Hab Hat Ho Hq Hc Ht.
  assert (answered oid (q_rid q) 0 s) as Hs.
  { constructor; [done..| |].
    - exists q. by rewrite Hc, Ht.
    - intros _ pre m post E Hm. exfalso. revert Ht. unfold terminals.
      rewrite E, List.filter_app. simpl. rewrite Hm. by intros [_ ?]%app_eq_nil. }
  destruct (answered_run H TH Hentry Hlaw oid (q_rid q) events 0 s Hs) as (s' & E & Hs').
  rewrite Nat.add_0_r in Hs'. exists s'. split; [exact E|].
  destruct Hs' as [Hab' Hat' Ho' (q1 & Hq1 & Hr1 & Hn) He]. split; [|split; [exact He|]].
  - destruct (q_terminal_claimed q1); lia.
  - intros q' did reqs Hq' Han Hd Hin. replace q1 with q' in * by congruence. rewrite <- Hr1 in *.
    by apply (stream_answers H TH Hentry oid q' did reqs s').
Qed.

(** ** Witness *)
#[local] Existing Instance demo_types.

Definition demo_hooks : Hooks :=
  {| h_is_entry_rank := true; h_executor := false; h_max_pending := 1; h_backlog_limit := None;
     h_max_req_len := 100; h_request_builder := fun _ => Raise (ValueError "unused");
     h_is_request_build_ready := fun _ _ => true; h_recheck_on_stream_chunk := fun _ _ => true;
     h_prepare_request_limits := fun b => (bd_max_new_tokens b, None);
     h_stream_chunk_handler := None; h_stream_done_handler := None;
     h_request_update_handler := None; h_release_kv_cache := demo_release |}.

(** A builder that flushes one chunk, and an adapter that fails. *)
Definition demo_term_hooks : TermHooks :=
  {| t_weight_version := None; t_on_request_finished := None;
     t_flush := Some (fun _ d => ([tt], d, Ok tt));
     t_result_adapter := fun _ => Raise (ValueError "adapter");
     t_request_finished_callback := fun _ => Ok tt |}.

(** Request [a] of the demonstration state with its data. *)
Definition demo_finishing : Omni :=
  demo_omni <| o_datas := {[0%nat := new_data 0%nat]} |>
            <| o_reqs := {[0%nat := demo_req "a" (Some 7); 1%nat := demo_req "b" None <| q_data := None |>]} |>.

Lemma demo_owner : owner demo_finishing "a" 0%nat.
Proof.
  intros oid q. unfold demo_finishing. fields. rewrite lookup_insert.
  case_decide; [done|]. rewrite lookup_singleton. case_decide; [|done].
  by intros [= <-].
Qed.

Lemma demo_attached : attached demo_finishing.
Proof.
  intros oid q did. unfold demo_finishing. fields. rewrite lookup_insert.
  case_decide; [intros [= <-] [= <-]; by eexists|]. rewrite lookup_singleton.
  case_decide; [|done]. by intros [= <-].
Qed.

Lemma stream_output_answers_once_witness :
  let s1 := (term_run demo_hooks demo_term_hooks [TFinish 0%nat (FinishOther "stop")] demo_finishing).2 in
  ∃ s2, stream_output demo_hooks demo_term_hooks [0%nat; 1%nat; 0%nat] None s1 = (Ok tt, s2) ∧
    messages_of "a" s2 = [OStream "a" tt; OError "a" (ValueError "adapter")].
Proof.
  destruct (stream_output_answers_once demo_hooks demo_term_hooks 0%nat (demo_req "a" (Some 7))
    [TFinish 0%nat (FinishOther "stop")] demo_finishing eq_refl demo_release_law demo_aborted_ok
    demo_attached demo_owner eq_refl eq_refl eq_refl) as (s' & E & _ & _ & Hans).
  rewrite E. cbn [snd]. vm_compute in E. injection E as <-.
  destruct (Hans (demo_req "a" (Some 7) <| q_finished_reason := Some (FinishOther "stop") |>)
    0%nat [0%nat; 1%nat; 0%nat]) as (s2 & d & E2 & Hm & _);
    [reflexivity|reflexivity|reflexivity|constructor|].
  exists s2. split; [exact E2|exact Hm].
Defined.
