(* ===== verification/MossState.v ===== *)
(** * The realtime scheduler: state, lookup and abort

    Models the state [MossVLRealtimeScheduler] adds to the generic scheduler
    ([src/sglang_omni/models/moss_vl_realtime/scheduler.py]): the session queues, the parked
    requests and the accounting records, with [_find_request_data], [_emit_request_error],
    [_ends_with_token_ids] and the part of [abort] that runs on the scheduler's thread once no
    launched step holds the request.

    A request object of the generic scheduler carries the realtime request as its extension.
    The accounting dictionary shares the record of the request's runtime state, so it maps an
    identifier to the request object whose state holds the record.  [time.monotonic] is a
    field the environment moves. *)
From S2P Require Import Prelude PyNum Payload Accounting SessionState KVLayout RuntimeState Segment.
From S2P Require Import FrameApply BatchAdapter Extend Odict OmniState Intake.
Local Open Scope Z_scope.

(** ** Types *)

(** What the realtime scheduler leaves open: pixels, extend ranges, the allocator, the
    generic scheduler's payloads and messages, and two upstream functions of a request. *)
Class MossEnv := {
  Pixels : Type; Range : Type; Alloc : Type; MChunk : Type; MBody : Type; MMessage : Type;
  MAnswer : Type;
  env_allocator :: Allocator Alloc;
  env_fill_ids : list Z → list Z → list Z;
  env_extend_range : Z → Z → Range
}.

(** The realtime attributes of a request object. *)
Record MossReq `{MossEnv} : Type := {
  e_req : Req (Segment Pixels) Range;
  e_kv_allocated_len : option Z;
  e_kv_committed_len : Z;
  e_keep_ignore_eos : bool
}.

#[global] Instance eta_MossReq `{MossEnv} : Eta MossReq := fun e =>
  {| e_req := e_req e; e_kv_allocated_len := e_kv_allocated_len e;
     e_kv_committed_len := e_kv_committed_len e; e_keep_ignore_eos := e_keep_ignore_eos e |}.

(** The page table and the slot allocator. *)
Record KVPool `{MossEnv} : Type := { kp_table : Table; kp_allocator : Alloc }.

#[global] Instance eta_KVPool `{MossEnv} : Eta KVPool := fun p =>
  {| kp_table := kp_table p; kp_allocator := kp_allocator p |}.

#[global] Instance moss_types `{MossEnv} : Types := {
  Chunk := MChunk; Update := update_data; Body := MBody; Ext := MossReq; Pool := KVPool;
  StreamMsg := MMessage; Answer := MAnswer;
  output_ids := fun e => x_output_ids (e_req e)
}.

Section Moss.
Context `{ME : MossEnv}.

(** What is kept of a launched decode step beside its batch: the requests of its
    [sched_output] with their data, and the slots the step writes. *)
Record Step : Type := {
  sp_requests : list (string * option nat);
  sp_out_cache_loc : option (list Z)
}.

Record Moss : Type := {
  m_omni : Omni;
  m_sessions : Controller;
  m_parked_reqs : list (string * nat);
  m_parked_since : list (string * pyfloat);
  m_accounting_records : list (string * nat);
  (** the second half of [_async_pending]; its batch is the generic scheduler's *)
  m_step : option Step;
  (** [_realtime_extend_batch] *)
  m_extend_batch : option nat;
  m_clock : pyfloat
}.

#[global] Instance eta_Moss : Eta Moss := fun m =>
  {| m_omni := m_omni m; m_sessions := m_sessions m; m_parked_reqs := m_parked_reqs m;
     m_parked_since := m_parked_since m; m_accounting_records := m_accounting_records m;
     m_step := m_step m; m_extend_batch := m_extend_batch m; m_clock := m_clock m |}.

Abbreviation MM := (M Moss).

Definition on_omni {B} : M Omni B → MM B := zoom m_omni (assign m_omni).
Definition on_sessions {B} : M Controller B → MM B := zoom m_sessions (assign m_sessions).

(** ** Request objects and their runtime state *)

Definition req_state (q : ReqObj) : RuntimeState := x_state (e_req (q_ext q)).

Definition set_req_state (r : RuntimeState) (q : ReqObj) : ReqObj :=
  q <| q_ext := q_ext q <| e_req := e_req (q_ext q) <| x_state := r |> |> |>.

Definition state_of (m : Moss) (oid : nat) : option RuntimeState :=
  req_state <$> o_reqs (m_omni m) !! oid.

(** Run a method of the runtime state of a request object. *)
Definition on_state {B} (oid : nat) (f : M RuntimeState B) : MM B :=
  m ← get;
  match o_reqs (m_omni m) !! oid with
  | None => throw (OtherError "no such object")
  | Some q => let '(r, st) := f (req_state q) in
              _ ← on_omni (update_req oid (set_req_state st)); lift r
  end.

(** [RUNTIME_STATE] of a request's data: the data belongs to the object [d_req]. *)
Definition owner_of (m : Moss) (did : nat) : option nat := d_req <$> o_datas (m_omni m) !! did.

(** [_find_request_data]: a parked request is in no batch. *)
Definition find_request_data (m : Moss) (rid : string) : option nat :=
  match OmniState.find_request_data (m_omni m) rid with
  | Some did => Some did
  | None => od_get rid (m_parked_reqs m) ≫= data_of (m_omni m)
  end.

(** ** Accounting *)

Definition on_accounting {B} (f : M RealtimeAccounting B) (none : B) : M RuntimeState B :=
  r ← get;
  match r_accounting r with
  | None => mret none
  | Some a => let '(b, a') := f a in
              _ ← assign_to r_accounting (Some a'); lift b
  end.

(** Run a statement on the record stored for the request, if there is one. *)
Definition on_record (rid : string) (f : M RealtimeAccounting unit) : MM unit :=
  m ← get;
  match od_get rid (m_accounting_records m) with
  | None => mret tt
  | Some oid => on_state oid (on_accounting f tt)
  end.

Definition freeze_record (rid : string) : MM unit :=
  m ← get; on_record rid (_ ← freeze (m_clock m); mret tt).

(** No error of the modelled code has a cause or a [seq_no]. *)
Definition note_failure (e : pyexn) : M RealtimeAccounting unit :=
  modify (fun a => match a_failure_code a with
    | Some _ => a
    | None => {| a_session_id := a_session_id a; a_vision := a_vision a;
                 a_text_input := a_text_input a; a_text_output := a_text_output a;
                 a_step := a_step a; a_output_step := a_output_step a;
                 a_frozen := a_frozen a; a_retired_at := a_retired_at a;
                 a_failure_code := Some (error_code [{| x_id := O; x_exn := e |}]);
                 a_failure_seq := a_failure_seq a |}
    end).

(** ** The hooks of the generic scheduler that the realtime one uses *)

Context (H : Hooks).

(** [_emit_request_error]. *)
Definition emit_request_error (rid : string) (e : pyexn) : MM unit :=
  _ ← on_record rid (note_failure e);
  on_omni (Intake.emit_request_error H rid e).

(** ** Abort on the scheduler's thread *)

(** [state.finish(aborted=True)] unless a KV append is in flight. *)
Definition finish_aborted : M RuntimeState unit :=
  r ← get; if r_append_inflight r then mret tt else finish true.

Definition finish_data (rid : string) : MM unit :=
  m ← get;
  match find_request_data m rid ≫= owner_of m with
  | None => mret tt
  | Some oid => on_state oid finish_aborted
  end.

(** Release of a parked request: its row, then its data. *)
Definition release_parked (oid : nat) : MM unit :=
  _ ← on_omni (release_request_kv_cache (h_release_kv_cache H) oid);
  on_omni (detach_request_data oid).

(** [abort] once no launched step holds the request. *)
Definition abort_resolved (rid : string) (defer_running_cleanup : bool) : MM unit :=
  m ← get;
  let parked := od_get rid (m_parked_reqs m) in
  _ ← finish_data rid;
  _ ← on_sessions (close rid);
  _ ← on_omni (OmniState.abort (h_release_kv_cache H) rid defer_running_cleanup);
  _ ← modify (fun m => m <| m_parked_since := od_pop rid (m_parked_since m) |>);
  m ← get;
  let parked := match od_get rid (m_parked_reqs m) with Some oid => Some oid | None => parked end in
  _ ← modify (fun m => m <| m_parked_reqs := od_pop rid (m_parked_reqs m) |>);
  _ ← match parked with None => mret tt | Some oid => release_parked oid end;
  freeze_record rid.

(** [_ends_with_token_ids]; the slice from [-0] is the whole list. *)
Definition ends_with_token_ids (values suffix : list Z) : bool :=
  if zlength values <? zlength suffix then false
  else bool_decide ((if zlength suffix =? 0 then values
                     else zdrop (zlength values - zlength suffix) values) = suffix).
End Moss.
