(* ===== verification/MossAbort.v ===== *)
(** * The realtime scheduler: what an abort leaves behind

    The abort of a realtime request, in a batch, parked, or both: the invariant of the
    scheduler's tables, the effect of an immediate abort on every table, and that the row of
    the request goes back to the pool once. *)
From S2P Require Import Prelude PyNum Payload Accounting SessionState KVLayout RuntimeState Segment.
From S2P Require Import FrameApply BatchAdapter Extend Odict OmniState Silent Intake MossState.
Local Open Scope Z_scope.

Section Abort.
Context `{ME : MossEnv} (H : Hooks).

(** Upstream [release_kv_cache] gives the row back and touches, of the request, only the
    row and the KV lengths. *)
Definition moss_release_law : Prop :=
  ∀ q pool, ∃ allocated committed, (h_release_kv_cache H q pool).1 =
    q <| q_req_pool_idx := None |>
      <| q_ext := q_ext q <| e_kv_allocated_len := allocated |>
                         <| e_kv_committed_len := committed |> |>.

(** The tables of the realtime scheduler fit together. *)
Record moss_ok (m : Moss) : Prop := {
  ok_aborted : aborted_ok (m_omni m);
  ok_queue : queue_disjoint (m_omni m);
  ok_parked_wf : od_wf (m_parked_reqs m);
  ok_parked : ∀ rid oid, od_get rid (m_parked_reqs m) = Some oid →
    rid_is (m_omni m) rid oid = true ∧ oid ∉ o_waiting_queue (m_omni m);
  ok_data : ∀ oid q did, o_reqs (m_omni m) !! oid = Some q → q_data q = Some did →
    ∃ d, o_datas (m_omni m) !! did = Some d ∧ rid_is (m_omni m) (q_rid q) (d_req d) = true;
  ok_records : ∀ rid oid, od_get rid (m_accounting_records m) = Some oid →
    rid_is (m_omni m) rid oid = true
}.

Context (Hlaw : moss_release_law).

Lemma release_law_moss : release_law (h_release_kv_cache H).
Proof. intros q pool. destruct (Hlaw q pool) as (a & c & ->). by eexists. Qed.

Lemma release_state q pool : req_state (h_release_kv_cache H q pool).1 = req_state q.
Proof. by destruct (Hlaw q pool) as (a & c & ->). Qed.

(** ** Running on a component *)

Lemma on_omni_run {B} (f : M Omni B) m r s :
  f (m_omni m) = (r, s) → on_omni f m = (r, m <| m_omni := s |>).
Proof. intros E. unfold on_omni, zoom. by rewrite E. Qed.

Lemma moss_bind_run {A B} (f : M Moss A) (g : A → M Moss B) m a m' :
  f m = (Ok a, m') → (f ≫= g) m = g a m'.
Proof. intros E. unfold mbind, M_bind. by rewrite E. Qed.

(** The identity and the KV lengths of a runtime state. *)
Definition same_kv (st st' : RuntimeState) : Prop :=
  r_request_id st' = r_request_id st ∧ committed_kv st' = committed_kv st.

(** [s'] is [s] with other runtime states, of the same lengths, in the request's objects. *)
Definition restated (rid : string) (s s' : Omni) : Prop :=
  s' = s <| o_reqs := o_reqs s' |> ∧
  ∀ oid, if rid_is s rid oid
         then ∃ st, o_reqs s' !! oid = set_req_state st <$> o_reqs s !! oid ∧
                    ∀ q, o_reqs s !! oid = Some q → same_kv (req_state q) st
         else o_reqs s' !! oid = o_reqs s !! oid.

Lemma restated_refl rid s : restated rid s s.
Proof.
  split; [by destruct s|]. intros oid. unfold rid_is.
  destruct (o_reqs s !! oid) as [q|] eqn:E; [|done].
  case_bool_decide; [|done]. exists (req_state q). simpl. split; [|by intros ? [= <-]]. f_equal.
  destruct q as [????????? e]. destruct e as [x ???]. by destruct x.
Qed.

Lemma on_state_run {B} oid (f : M RuntimeState B) m q r st :
  o_reqs (m_omni m) !! oid = Some q → f (req_state q) = (r, st) →
  on_state oid f m =
    (r, m <| m_omni := m_omni m <| o_reqs := alter (set_req_state st) oid (o_reqs (m_omni m)) |> |>).
Proof.
  intros Hq E. unfold on_state. erewrite moss_bind_run by reflexivity. rewrite Hq, E.
  erewrite moss_bind_run by (by apply on_omni_run). by destruct m.
Qed.

Lemma restated_alter rid s oid st q :
  rid_is s rid oid = true → o_reqs s !! oid = Some q → same_kv (req_state q) st →
  restated rid s (s <| o_reqs := alter (set_req_state st) oid (o_reqs s) |>).
Proof.
  intros Hr Hq Hkv. split; [by destruct s|]. intros oid'. fields.
  destruct (decide (oid' = oid)) as [->|Hne].
  - rewrite Hr. exists st. rewrite lookup_alter_eq, Hq. split; [done|]. by intros ? [= <-].
  - rewrite lookup_alter_ne by done. pose proof (proj2 (restated_refl rid s) oid') as Hx. exact Hx.
Qed.

(** Restating keeps everything but the runtime states. *)
Lemma restated_rids rid s s' : restated rid s s' → same_rids (o_reqs s) (o_reqs s').
Proof.
  intros [_ Hr] oid. specialize (Hr oid). destruct (rid_is s rid oid).
  - destruct Hr as (st & -> & _). by destruct (o_reqs s !! oid).
  - by rewrite Hr.
Qed.

Lemma restated_holding rid s s' oid : restated rid s s' → holding s' oid = holding s oid.
Proof.
  intros [_ Hr]. specialize (Hr oid). unfold holding. destruct (rid_is s rid oid).
  - destruct Hr as (st & -> & _). by destruct (o_reqs s !! oid).
  - by rewrite Hr.
Qed.

Lemma restated_data rid s s' oid : restated rid s s' → data_of s' oid = data_of s oid.
Proof.
  intros [_ Hr]. specialize (Hr oid). unfold data_of. destruct (rid_is s rid oid).
  - destruct Hr as (st & -> & _). by destruct (o_reqs s !! oid).
  - by rewrite Hr.
Qed.

(** ** Locating the data of a request *)

Lemma find_in_batches m rid did :
  moss_ok m → find_request_data m rid = Some did →
  ∃ oid q, o_reqs (m_omni m) !! oid = Some q ∧ q_rid q = rid ∧ q_data q = Some did.
Proof.
  intros Hok. unfold find_request_data, OmniState.find_request_data.
  assert (∀ oid, rid_is (m_omni m) rid oid = true → data_of (m_omni m) oid = Some did →
    ∃ oid q, o_reqs (m_omni m) !! oid = Some q ∧ q_rid q = rid ∧ q_data q = Some did) as Hone.
  { intros oid (q & Hq & Hr)%rid_is_true Hd. unfold data_of in Hd. rewrite Hq in Hd.
    simpl in Hd. eauto. }
  assert (od_get rid (m_parked_reqs m) ≫= data_of (m_omni m) = Some did →
    ∃ oid q, o_reqs (m_omni m) !! oid = Some q ∧ q_rid q = rid ∧ q_data q = Some did) as Hpark.
  { destruct (od_get rid (m_parked_reqs m)) as [oid|] eqn:Ep; [|done]. simpl.
    apply Hone. by apply (ok_parked _ Hok). }
  destruct (List.find _ (batch_oids _)) as [oid|] eqn:Ef.
  - apply List.find_some in Ef as [_ Hr]. destruct (data_of (m_omni m) oid) eqn:Ed; [|done].
    intros [= ->]. by eapply Hone.
  - destruct (List.find _ (o_waiting_queue _)) as [oid|] eqn:Ew; [|done].
    apply List.find_some in Ew as [_ Hr]. destruct (data_of (m_omni m) oid) eqn:Ed; [|done].
    intros [= ->]. by eapply Hone.
Qed.

Lemma owner_found m rid did :
  moss_ok m → find_request_data m rid = Some did →
  ∃ oid, owner_of m did = Some oid ∧ rid_is (m_omni m) rid oid = true.
Proof.
  intros Hok Hf. destruct (find_in_batches m rid did Hok Hf) as (oid & q & Hq & <- & Hd).
  destruct (ok_data _ Hok oid q did Hq Hd) as (d & Ed & Hr). exists (d_req d).
  unfold owner_of. by rewrite Ed.
Qed.

Lemma finish_aborted_run st :
  finish_aborted st = (Ok tt, if r_append_inflight st then st else st <| r_phase := ABORTED |>).
Proof.
  unfold finish_aborted, finish. destruct (r_append_inflight st) eqn:E; mrun; by rewrite ?E.
Qed.

Lemma finish_data_run rid m :
  moss_ok m →
  ∃ s, finish_data rid m = (Ok tt, m <| m_omni := s |>) ∧ restated rid (m_omni m) s ∧
    ∀ did oid st, find_request_data m rid = Some did → owner_of m did = Some oid →
      state_of m oid = Some st → r_append_inflight st = false →
      req_state <$> o_reqs s !! oid = Some (st <| r_phase := ABORTED |>).
Proof.
  intros Hok. unfold finish_data. erewrite moss_bind_run by reflexivity.
  destruct (find_request_data m rid) as [did|] eqn:Ef; simpl.
  2:{ exists (m_omni m). split; [by destruct m|]. by split; [apply restated_refl|]. }
  destruct (owner_found m rid did Hok Ef) as (oid & Eo & Hr). rewrite Eo.
  pose proof Hr as (q & Hq & Hrid)%rid_is_true.
  eexists. split; [erewrite on_state_run; [reflexivity|done|apply finish_aborted_run]|].
  split; [apply (restated_alter _ _ _ _ q); [done..|by destruct (r_append_inflight _)]|].
  intros did' oid' st [= <-] Eo' Hst Hin. fields.
  assert (oid' = oid) as -> by congruence. unfold state_of in Hst. rewrite Hq in Hst.
  injection Hst as <-. by rewrite lookup_alter_eq, Hq, Hin.
Qed.

(** ** The last steps of an abort *)

Lemma release_parked_run oid q m :
  o_reqs (m_omni m) !! oid = Some q →
  ∃ q', release_parked H oid m =
      (Ok tt, m <| m_omni := m_omni m <| o_reqs := <[oid := q']> (o_reqs (m_omni m)) |>
         <| o_pool := if holding (m_omni m) oid
                      then released (h_release_kv_cache H) (m_omni m) [oid] (o_pool (m_omni m))
                      else o_pool (m_omni m) |> |>) ∧
    q_rid q' = q_rid q ∧ q_req_pool_idx q' = None ∧ q_data q' = None ∧
    req_state q' = req_state q.
Proof.
  intros Hq. unfold release_parked.
  assert (∃ q1, release_request_kv_cache (h_release_kv_cache H) oid (m_omni m) =
      (Ok tt, m_omni m <| o_reqs := <[oid := q1]> (o_reqs (m_omni m)) |>
         <| o_pool := if holding (m_omni m) oid
                      then released (h_release_kv_cache H) (m_omni m) [oid] (o_pool (m_omni m))
                      else o_pool (m_omni m) |>) ∧
      q_rid q1 = q_rid q ∧ q_req_pool_idx q1 = None ∧ req_state q1 = req_state q)
    as (q1 & E1 & Hr & Hi & Hst).
  { unfold release_request_kv_cache. erewrite bind_run by reflexivity.
    unfold holding, released. cbn [foldl]. rewrite Hq. cbn [mbind option_bind].
    destruct (q_req_pool_idx q) as [i|] eqn:Ei.
    - destruct (Hlaw q (o_pool (m_omni m))) as (a & c & He).
      pose proof (release_state q (o_pool (m_omni m))) as Hs.
      destruct (h_release_kv_cache H q (o_pool (m_omni m))) as [q1 pool]. simpl in He, Hs.
      exists q1. split; [|subst q1; by split_and!].
      erewrite bind_run by reflexivity. unfold modify. do 2 f_equal.
      by erewrite alter_lookup.
    - exists q. split; [|done]. rewrite insert_id by done. by destruct (m_omni m). }
  erewrite moss_bind_run by (by apply on_omni_run).
  exists (q1 <| q_data := None |>). split; [|by split_and!].
  erewrite on_omni_run by reflexivity. unfold update_req. destruct m as [s ???????]. fields.
  f_equal.
  rewrite (alter_lookup _ _ _ q1 (q1 <| q_data := None |>)), insert_insert_eq by
    (done || apply lookup_insert_eq).
  by destruct s.
Qed.

Lemma freeze_record_run rid m :
  (∀ oid, od_get rid (m_accounting_records m) = Some oid → rid_is (m_omni m) rid oid = true) →
  ∃ s, freeze_record rid m = (Ok tt, m <| m_omni := s |>) ∧ restated rid (m_omni m) s ∧
    (∀ oid q, o_reqs (m_omni m) !! oid = Some q →
       ∃ q', o_reqs s !! oid = Some q' ∧ r_phase (req_state q') = r_phase (req_state q) ∧
             q_req_pool_idx q' = q_req_pool_idx q ∧ q_data q' = q_data q) ∧
    (∀ oid q a, od_get rid (m_accounting_records m) = Some oid → o_reqs s !! oid = Some q →
       r_accounting (req_state q) = Some a → a_frozen a = true).
Proof.
  intros Hrec. unfold freeze_record. erewrite moss_bind_run by reflexivity.
  unfold on_record. erewrite moss_bind_run by reflexivity.
  destruct (od_get rid (m_accounting_records m)) as [oid|] eqn:Eo.
  2:{ exists (m_omni m). split; [by destruct m|]. split; [apply restated_refl|].
      split; [|done]. intros oid q Hq. by exists q. }
  pose proof (Hrec oid eq_refl) as Hr. pose proof Hr as (q & Hq & Hrid)%rid_is_true.
  set (f := on_accounting _ tt).
  assert (∃ st, f (req_state q) = (Ok tt, st) ∧ r_phase st = r_phase (req_state q) ∧
    same_kv (req_state q) st ∧ ∀ a, r_accounting st = Some a → a_frozen a = true) as (st & Ef & Hp & Hkv & Ha).
  { unfold f, on_accounting. mrun. destruct (r_accounting (req_state q)) as [a|] eqn:Ea.
    - simpl. eexists. split; [reflexivity|]. split; [done|]. split; [done|].
      fields. by intros a' [= <-].
    - exists (req_state q). split_and!; [done..|]. by rewrite Ea. }
  eexists. split; [by apply (on_state_run oid f m q)|]. split; [by apply (restated_alter _ _ _ _ q)|].
  fields. split.
  - intros oid' q' Hq'. destruct (decide (oid' = oid)) as [->|Hne].
    + rewrite lookup_alter_eq, Hq. exists (set_req_state st q). split; [done|].
      replace q' with q by congruence. by split_and!.
    + rewrite lookup_alter_ne by done. by exists q'.
  - intros oid' q' a [= <-]. rewrite lookup_alter_eq, Hq. intros [= <-]. apply Ha.
Qed.
(** ** The effect of an immediate abort *)

(** An object of the request in a batch or parked. *)
Definition held_row (m : Moss) (rid : string) (oid : nat) : Prop :=
  rid_is (m_omni m) rid oid = true ∧
  (oid ∈ batch_oids (m_omni m) ∨ od_get rid (m_parked_reqs m) = Some oid).

Record cleared (rid : string) (m m' : Moss) : Prop := {
  cl_forgotten : forgotten rid (m_omni m');
  cl_others : others_kept rid (m_omni m) (m_omni m');
  cl_sessions : m_sessions m' = delete rid (m_sessions m);
  cl_parked : m_parked_reqs m' = od_pop rid (m_parked_reqs m);
  cl_since : m_parked_since m' = od_pop rid (m_parked_since m);
  cl_records : m_accounting_records m' = m_accounting_records m;
  cl_clock : m_clock m' = m_clock m ∧ m_step m' = m_step m;
  cl_rows : ∃ s l, restated rid (m_omni m) s ∧ NoDup l ∧
    (∀ oid, oid ∈ l ↔ held_row m rid oid ∧ holding (m_omni m) oid = true) ∧
    o_pool (m_omni m') = released (h_release_kv_cache H) s l (o_pool (m_omni m));
  cl_objects : ∀ oid q, held_row m rid oid → o_reqs (m_omni m') !! oid = Some q →
    q_req_pool_idx q = None ∧ q_data q = None;
  cl_phase : ∀ did oid st, find_request_data m rid = Some did → owner_of m did = Some oid →
    state_of m oid = Some st → r_append_inflight st = false →
    r_phase <$> state_of m' oid = Some ABORTED;
  cl_frozen : ∀ oid q a, od_get rid (m_accounting_records m) = Some oid →
    o_reqs (m_omni m') !! oid = Some q → r_accounting (req_state q) = Some a → a_frozen a = true;
  cl_aborted : aborted_ok (m_omni m');
  cl_rids : same_rids (o_reqs (m_omni m)) (o_reqs (m_omni m'));
  cl_data : ∀ oid q q', o_reqs (m_omni m) !! oid = Some q → o_reqs (m_omni m') !! oid = Some q' →
    q_data q' = q_data q ∨ q_data q' = None
}.

Lemma restated_batches rid s s' :
  restated rid s s' → batch_oids s' = batch_oids s ∧ slots s' = slots s ∧
    o_waiting_queue s' = o_waiting_queue s ∧ o_pool s' = o_pool s.
Proof. intros [-> _]. by split_and!. Qed.

Lemma others_kept_restated rid s s1 s2 :
  restated rid s s1 → others_kept rid s1 s2 → others_kept rid s s2.
Proof.
  intros Hr. pose proof (restated_rids _ _ _ Hr) as Hrids. destruct Hr as [E Hr].
  intros (H1 & H2 & H3 & H4 & H5 & H6 & H7 & H8 & H9 & H10 & H11 & H12 & H13 & H14).
  rewrite E in H1, H5, H6, H7, H8, H9, H10, H11, H12, H13, H14.
  unfold others_kept. split_and!; try assumption.
  - intros oid Ho. rewrite H2 by (by rewrite (rid_is_same s s1)).
    specialize (Hr oid). by rewrite Ho in Hr.
  - intros bid. rewrite H3, (proj2 (filter_rid_same s s1 rid _ Hrids)).
    rewrite E. reflexivity.
  - rewrite H4, (proj2 (filter_rid_same s s1 rid _ Hrids)). by rewrite E.
Qed.

(** Changing the request's objects or the pool disturbs no other request. *)
Lemma others_kept_own rid s s1 s2 :
  others_kept rid s s1 → s2 = s1 <| o_reqs := o_reqs s2 |> <| o_pool := o_pool s2 |> →
  (∀ oid, rid_is s rid oid = false → o_reqs s2 !! oid = o_reqs s1 !! oid) →
  others_kept rid s s2.
Proof.
  intros (H1 & H2 & H3 & H4 & H5 & H6 & H7 & H8 & H9 & H10 & H11 & H12 & H13 & H14) E Hr.
  rewrite E. unfold others_kept. split_and!; try assumption.
  intros oid Ho. fields. rewrite Hr by done. by apply H2.
Qed.

Lemma forgotten_own rid s1 s2 :
  forgotten rid s1 → s2 = s1 <| o_reqs := o_reqs s2 |> <| o_pool := o_pool s2 |> →
  same_rids (o_reqs s1) (o_reqs s2) → forgotten rid s2.
Proof.
  intros (H1 & H2 & H3 & H4 & H5 & H6 & H7 & H8 & H9 & H10 & H11 & H12 & H13) E Hr.
  split; [by rewrite E|]. split; [|rewrite E; by split_and!].
  intros oid Ho. rewrite (rid_is_same s1 s2) by done. apply H2. revert Ho. rewrite E. done.
Qed.
(** The parked object after the generic abort: its row goes back unless it went with those
    of the batches. *)
Lemma parked_step rid s1 s2 m p :
  rows_released (h_release_kv_cache H) rid s1 s2 →
  (∀ oid, oid ∉ batch_oids s1 → oid ∉ o_waiting_queue s1 → o_reqs s2 !! oid = o_reqs s1 !! oid) →
  same_rids (o_reqs s1) (o_reqs s2) →
  m_omni m = s2 →
  (∀ oid, p = Some oid → rid_is s1 rid oid = true ∧ oid ∉ o_waiting_queue s1) →
  ∃ s3 l, (match p with None => mret tt | Some oid => release_parked H oid end) m =
      (Ok tt, m <| m_omni := s3 |>) ∧
    s3 = s2 <| o_reqs := o_reqs s3 |> <| o_pool := o_pool s3 |> ∧
    (∀ oid, rid_is s1 rid oid = false → o_reqs s3 !! oid = o_reqs s2 !! oid) ∧
    (∀ oid, match o_reqs s2 !! oid, o_reqs s3 !! oid with
            | Some q, Some q' => q_rid q' = q_rid q ∧ req_state q' = req_state q ∧
                                 (q_data q' = q_data q ∨ q_data q' = None)
            | None, None => True
            | _, _ => False
            end) ∧
    NoDup l ∧
    (∀ oid, oid ∈ l ↔ (oid ∈ batch_oids s1 ∨ p = Some oid) ∧ rid_is s1 rid oid = true ∧
                      holding s1 oid = true) ∧
    o_pool s3 = released (h_release_kv_cache H) s1 l (o_pool s1) ∧
    (∀ oid q, oid ∈ batch_oids s1 ∨ p = Some oid → rid_is s1 rid oid = true →
       o_reqs s3 !! oid = Some q → q_req_pool_idx q = None ∧ q_data q = None).
Proof.
  intros ((l & Hnd & Hl & Hpool) & Hobj & _) Helse Hrids Hm Hp.
  destruct p as [oid|].
  2:{ exists s2, l. split; [destruct m; simpl in *; by subst|].
      split; [by destruct s2|]. split; [done|].
      split; [intros oid; destruct (o_reqs s2 !! oid); naive_solver|].
      split; [done|]. split; [|split; [done|]].
      - intros oid. rewrite Hl. naive_solver.
      - intros oid q [Hb|[=]] Hr. by apply Hobj. }
  destruct (Hp oid eq_refl) as [Hr Hw].
  assert (∃ q2, o_reqs s2 !! oid = Some q2) as [q2 Hq2].
  { pose proof (Hrids oid) as Hx. apply rid_is_true in Hr as (q1 & Hq1 & _). rewrite Hq1 in Hx.
    destruct (o_reqs s2 !! oid) as [q2|]; [by exists q2|done]. }
  destruct (release_parked_run oid q2 m) as (q3 & E & Hr3 & Hi3 & Hd3 & Hst3); [by rewrite Hm|].
  rewrite Hm in E. set (s3 := s2 <| o_reqs := _ |> <| o_pool := _ |>) in E.
  assert (∀ oid', o_reqs s3 !! oid' = if decide (oid' = oid) then Some q3 else o_reqs s2 !! oid')
    as Hlook.
  { intros oid'. unfold s3. fields. case_decide as Hd.
    - subst. by rewrite lookup_insert_eq.
    - by rewrite lookup_insert_ne. }
  assert (∃ l', NoDup l' ∧ (∀ o, o ∈ l' ↔ (o ∈ batch_oids s1 ∨ Some oid = Some o) ∧
      rid_is s1 rid o = true ∧ holding s1 o = true) ∧
    o_pool s3 = released (h_release_kv_cache H) s1 l' (o_pool s1)) as (l' & Hnd' & Hl' & Hpool').
  { unfold s3. fields. destruct (decide (oid ∈ batch_oids s1)) as [Hb|Hb].
    - assert (holding s2 oid = false) as ->.
      { unfold holding. rewrite Hq2. simpl. by rewrite (proj1 (Hobj oid q2 Hb Hr Hq2)). }
      exists l. split_and!; [done| |done]. intros o. rewrite Hl. naive_solver.
    - pose proof (Helse oid Hb Hw) as Hsame.
      assert (holding s2 oid = holding s1 oid) as -> by (unfold holding; by rewrite Hsame).
      destruct (holding s1 oid) eqn:Hh.
      + exists (l ++ [oid]). split; [|split].
        * apply NoDup_app. split_and!; [done| |apply NoDup_singleton].
          intros o Ho ->%list_elem_of_singleton. apply Hl in Ho as [? _]. done.
        * intros o. rewrite elem_of_app, list_elem_of_singleton, Hl. naive_solver.
        * unfold released in *. rewrite foldl_app, <- Hpool. simpl. by rewrite Hsame.
      + exists l. split_and!; [done| |done]. intros o. rewrite Hl. split; [naive_solver|].
        intros ([Ho|[= <-]] & Ho2 & Ho3); [done|congruence]. }
  exists s3, l'. split; [exact E|]. split; [by destruct s2|]. split; [|split; [|split; [done|]]].
  - intros o Ho. rewrite Hlook. case_decide; [congruence|done].
  - intros o. rewrite Hlook. case_decide as Hd.
    + subst o. rewrite Hq2. split_and!; [done..|by right].
    + destruct (o_reqs s2 !! o); naive_solver.
  - split; [done|]. split; [done|]. intros o q Ho Hro. rewrite Hlook. case_decide as Hd.
    + by intros [= <-].
    + destruct Ho as [Ho|[= <-]]; [by apply Hobj|done].
Qed.
Lemma restated_ok rid s s' : restated rid s s' → aborted_ok s → queue_disjoint s →
  aborted_ok s' ∧ queue_disjoint s'.
Proof. intros [-> _]. done. Qed.

Lemma silent_rids {V} (view : ReqObj → V) s s' :
  silent view s s' → same_rids (o_reqs s) (o_reqs s').
Proof.
  intros (_ & _ & H1) oid. specialize (H1 oid).
  destruct (o_reqs s !! oid), (o_reqs s' !! oid); try done. simpl. f_equal. apply H1.
Qed.

Lemma abort_resolved_run rid m :
  moss_ok m → ∃ m', abort_resolved H rid false m = (Ok tt, m') ∧ cleared rid m m'.
Proof.
  intros Hok. unfold abort_resolved. erewrite moss_bind_run by reflexivity.
  destruct (finish_data_run rid m Hok) as (s1 & E1 & Hr1 & Hphase).
  rewrite (moss_bind_run _ _ _ _ _ E1). pose proof (restated_rids _ _ _ Hr1) as Hrids1.
  destruct (restated_batches _ _ _ Hr1) as (Hb1 & Hsl1 & Hw1 & Hpool1).
  destruct (restated_ok _ _ _ Hr1 (ok_aborted _ Hok) (ok_queue _ Hok)) as [Hab1 Hq1].
  destruct (abort_now_run (h_release_kv_cache H) rid s1 release_law_moss Hab1 Hq1)
    as (s2 & E2 & Hforg & Hoth & Hrows & Helse).
  destruct (abort_silent req_state (h_release_kv_cache H) release_law_moss release_state
    (fun _ => eq_refl) (fun _ => eq_refl) rid false s1 Hab1) as (s2' & E2' & Hsil & Hab2).
  rewrite E2 in E2'. injection E2' as <-. pose proof (silent_rids _ _ _ Hsil) as Hrids2.
  erewrite moss_bind_run by reflexivity.
  erewrite moss_bind_run by (apply on_omni_run; exact E2).
  erewrite moss_bind_run by reflexivity. erewrite moss_bind_run by reflexivity.
  erewrite moss_bind_run by reflexivity.
  match goal with |- context [(match ?p with Some _ => _ | None => mret tt end ≫= _) ?m3] =>
    set (m3' := m3); assert (p = od_get rid (m_parked_reqs m)) as -> end.
  { destruct m. simpl. by destruct (od_get rid _). }
  assert (m_omni m3' = s2) as Hm3 by by destruct m.
  destruct (parked_step rid s1 s2 m3' (od_get rid (m_parked_reqs m)) Hrows Helse Hrids2 Hm3)
    as (s3 & l & E3 & Hs3 & Hout3 & Hobj3 & Hnd & Hl & Hpool3 & Hidx3).
  { intros oid Hp. destruct (ok_parked _ Hok rid oid Hp) as [Hr Hw]. split; [|by rewrite Hw1].
    by rewrite (rid_is_same (m_omni m) s1). }
  rewrite (moss_bind_run _ _ _ _ _ E3). clear E3.
  assert (same_rids (o_reqs s2) (o_reqs s3)) as Hrids3.
  { intros oid. specialize (Hobj3 oid). destruct (o_reqs s2 !! oid), (o_reqs s3 !! oid); try done.
    simpl. f_equal. apply Hobj3. }
  assert (same_rids (o_reqs (m_omni m)) (o_reqs s3)) as Hrids.
  { eapply same_rids_trans; [done|]. by eapply same_rids_trans. }
  set (m4 := m3' <| m_omni := s3 |>).
  assert (m_accounting_records m4 = m_accounting_records m) as Hrec4 by by destruct m.
  destruct (freeze_record_run rid m4) as (s4 & E4 & Hr4 & Hobj4 & Hfrz).
  { intros oid. rewrite Hrec4. intros Ho. apply (ok_records _ Hok) in Ho.
    rewrite <- Ho. change (m_omni m4) with s3. by rewrite (rid_is_same (m_omni m) s3). }
  change (m_omni m4) with s3 in Hr4, Hobj4. rewrite Hrec4 in Hfrz.
  exists (m4 <| m_omni := s4 |>). split; [exact E4|].
  (* the final state against the ones it came through *)
  assert (s4 = s3 <| o_reqs := o_reqs s4 |>) as Hs4 by apply Hr4.
  assert (o_pool s4 = o_pool s3) as Hpool4 by by rewrite Hs4.
  assert (∀ oid, rid_is (m_omni m) rid oid = rid_is s1 rid oid) as Hri.
  { intros oid. symmetry. by apply rid_is_same. }
  assert (∀ oid, rid_is s1 rid oid = false → o_reqs s4 !! oid = o_reqs s2 !! oid) as Hout4.
  { intros oid Ho. rewrite <- Hout3 by done. pose proof (proj2 Hr4 oid) as Hx.
    rewrite (rid_is_same (m_omni m) s3), Hri, Ho in Hx by done. exact Hx. }
  constructor.
  - apply (forgotten_own rid s2); [done| |].
    + change (m_omni (m4 <| m_omni := s4 |>)) with s4. rewrite Hs4, Hs3. by destruct s2.
    + eapply same_rids_trans; [exact Hrids3|]. by eapply restated_rids.
  - apply (others_kept_restated rid _ s1); [done|]. apply (others_kept_own rid s1 s2); [done| |done].
    change (m_omni (m4 <| m_omni := s4 |>)) with s4. rewrite Hs4, Hs3. by destruct s2.
  - by destruct m.
  - by destruct m.
  - by destruct m.
  - by destruct m.
  - by destruct m.
  - exists s1, l. split; [done|]. split; [done|]. split.
    + intros oid. rewrite Hl, Hb1, (restated_holding rid (m_omni m) s1) by done.
      unfold held_row. rewrite Hri. naive_solver.
    + change (m_omni (m4 <| m_omni := s4 |>)) with s4. by rewrite Hpool4, Hpool3, Hpool1.
  - intros oid q [Hr Ho] Hq. change (m_omni (m4 <| m_omni := s4 |>)) with s4 in Hq.
    destruct (o_reqs s3 !! oid) as [q3|] eqn:Hq3.
    + destruct (Hobj4 oid q3 Hq3) as (q4 & Hq4 & _ & Hi & Hd). rewrite Hq4 in Hq.
      injection Hq as <-. rewrite Hi, Hd. apply (Hidx3 oid); [by rewrite Hb1|by rewrite <- Hri|done].
    + pose proof (restated_rids _ _ _ Hr4 oid) as Hx. by rewrite Hq, Hq3 in Hx.
  - intros did oid st Hf Ho Hst Hin. unfold state_of. change (m_omni (m4 <| m_omni := s4 |>)) with s4.
    pose proof (Hphase did oid st Hf Ho Hst Hin) as Hp1.
    destruct (o_reqs s1 !! oid) as [q1|] eqn:Hq1'; [|done]. injection Hp1 as Hp1.
    pose proof (proj2 (proj2 Hsil) oid) as Hx. rewrite Hq1' in Hx.
    destruct (o_reqs s2 !! oid) as [q2|] eqn:Hq2; [|done]. destruct Hx as (_ & _ & _ & Hx & _).
    pose proof (Hobj3 oid) as Hy. rewrite Hq2 in Hy.
    destruct (o_reqs s3 !! oid) as [q3|] eqn:Hq3; [|done]. destruct Hy as (_ & Hy & _).
    destruct (Hobj4 oid q3 Hq3) as (q4 & -> & Hz & _). simpl. by rewrite Hz, Hy, Hx, Hp1.
  - exact Hfrz.
  - change (m_omni (m4 <| m_omni := s4 |>)) with s4.
    unfold aborted_ok. by rewrite Hs4, Hs3.
  - eapply same_rids_trans; [exact Hrids|]. by eapply restated_rids.
  - intros oid q q' Hq Hq'. change (m_omni (m4 <| m_omni := s4 |>)) with s4 in Hq'.
    pose proof (restated_data _ _ _ oid Hr1) as Hd. unfold data_of in Hd. rewrite Hq in Hd.
    pose proof (proj2 (proj2 Hsil) oid) as H2. specialize (Hobj3 oid).
    pose proof (Hrids1 oid) as Hx. rewrite Hq in Hx.
    destruct (o_reqs s1 !! oid) as [q1|]; [|done]. simpl in Hd.
    destruct (o_reqs s2 !! oid) as [q2|]; [|done]. destruct H2 as (_ & _ & _ & _ & H2).
    destruct (o_reqs s3 !! oid) as [q3|] eqn:Hq3; [|done]. destruct Hobj3 as (_ & _ & H3).
    destruct (Hobj4 oid q3 Hq3) as (q4 & Hq4 & _ & _ & H4). rewrite Hq4 in Hq'.
    injection Hq' as <-. rewrite H4. destruct H3 as [->| ->]; [|by right].
    destruct H2 as [->| ->]; [by left|by right].
Qed.

Lemma cleared_subset rid m m' oid :
  cleared rid m m' →
  (oid ∈ o_waiting_queue (m_omni m') → oid ∈ o_waiting_queue (m_omni m)) ∧
  (oid ∈ batch_oids (m_omni m') → oid ∈ batch_oids (m_omni m)).
Proof.
  intros Hc. destruct (cl_others _ _ _ Hc) as (Hsl & _ & Hb & Hw & _). split.
  - rewrite Hw. by intros [? _]%elem_of_lfilter.
  - intros (bid & Hbid & Ho)%batch_oids_iff. apply batch_oids_iff. exists bid.
    assert (batch_slots (m_omni m') = batch_slots (m_omni m)) as Hbs.
    { unfold batch_slots. fold (slots (m_omni m')) (slots (m_omni m)). by rewrite Hsl. }
    rewrite Hbs in Hbid. split; [done|]. rewrite Hb in Ho. case_bool_decide; [|done].
    by apply elem_of_lfilter in Ho as [? _].
Qed.

(** Clearing a request keeps the tables together. *)
Lemma cleared_ok rid m m' : moss_ok m → cleared rid m m' → moss_ok m'.
Proof.
  intros Hok Hc. pose proof (cl_rids _ _ _ Hc) as Hrids. constructor.
  - apply Hc.
  - intros oid Hw Hb. apply (cleared_subset _ _ _ _ Hc) in Hw, Hb. by eapply (ok_queue _ Hok).
  - rewrite (cl_parked _ _ _ Hc). by apply od_pop_wf, Hok.
  - intros rid' oid. rewrite (cl_parked _ _ _ Hc). destruct (decide (rid' = rid)) as [->|Hne].
    + by rewrite od_get_pop.
    + rewrite od_get_pop_ne by done. intros [Hr Hw]%(ok_parked _ Hok).
      rewrite (rid_is_same (m_omni m) (m_omni m')) by done. split; [done|].
      intros Hw'. by apply (cleared_subset _ _ _ _ Hc) in Hw'.
  - intros oid q' did Hq' Hd'. pose proof (Hrids oid) as Hx. rewrite Hq' in Hx.
    destruct (o_reqs (m_omni m) !! oid) as [q|] eqn:Hq; [|done]. injection Hx as Hx.
    destruct (cl_data _ _ _ Hc oid q q' Hq Hq') as [Hd|Hd]; [|congruence].
    destruct (ok_data _ Hok oid q did Hq) as (d & Ed & Hr); [congruence|]. exists d.
    destruct (cl_others _ _ _ Hc) as (_ & _ & _ & _ & _ & _ & _ & _ & _ & _ & _ & -> & _).
    split; [done|]. by rewrite (rid_is_same (m_omni m) (m_omni m')), Hx.
  - intros rid' oid. rewrite (cl_records _ _ _ Hc), (rid_is_same (m_omni m) (m_omni m')) by done.
    apply Hok.
Qed.
End Abort.
