(* ===== verification/MossStep.v ===== *)
(** * The realtime scheduler: results, parking and rounds

    Models the operations of [MossVLRealtimeScheduler]
    ([src/sglang_omni/models/moss_vl_realtime/scheduler.py]) that run around the model: the
    resolution of a launched decode step, the processing of its result, silence parking,
    abort, the ingestion of updates and the expiry of parked requests.

    One tensor-parallel rank is modelled, on which [_tp_consistent_decision] is the identity.
    The model runner's [execute_resolve], the stream builder, the upstream processing of a
    batch result and the upstream [check_decode_mem] are parameters. *)
From S2P Require Import Prelude PyNum Payload Accounting SessionState KVLayout RuntimeState Segment.
From S2P Require Import FrameApply BatchAdapter Extend Odict OmniState Silent Intake Terminal MossState.
Local Open Scope Z_scope.

Section Step.
Context `{ME : MossEnv} {Out : Type}.
Abbreviation MM := (M Moss).

(** A resolved step; the runner answers [None] for a step that failed on the device. *)
Record StepOut : Type := {
  so_outputs : list (string * Out);
  so_next_token_ids : option (list Z)
}.

Record MossHooks : Type := {
  mh_silence_token_ids : list Z;
  mh_parked_request_timeout_s : pyfloat;
  mh_page_size : Z;
  mh_disable_radix_cache : bool;
  mh_execute_resolve : Step → MM (option StepOut);
  mh_stream_output_builder :
    option (Out → string → DataObj → list StreamMsg * DataObj * result unit);
  mh_upstream_process_batch_result : nat → option (list Z) → MM unit;
  mh_check_decode_mem : Moss → bool
}.

Context (H : Hooks) (MH : MossHooks).

(** ** Batches and pools *)

Definition req_at (m : Moss) (oid : nat) : option ReqObj := o_reqs (m_omni m) !! oid.

Definition batch_reqs (m : Moss) (bid : nat) : list nat := reqs_of (m_omni m) bid.

Definition running_reqs (m : Moss) : list nat :=
  match o_running_batch (m_omni m) with Some bid => batch_reqs m bid | None => [] end.

(** [batch.reqs = reqs]; also the effect of upstream's [filter_batch] on the requests. *)
Definition set_reqs (bid : nat) (reqs : list nat) : MM unit :=
  on_omni (modify (fun s => s <| o_batches :=
    alter (fun b => {| b_reqs := reqs; b_batch_is_full := b_batch_is_full b |}) bid (o_batches s) |>)).

Definition set_not_full (bid : nat) : MM unit :=
  on_omni (modify (fun s => s <| o_batches :=
    alter (fun b => {| b_reqs := b_reqs b; b_batch_is_full := false |}) bid (o_batches s) |>)).

Definition on_pool {B} : M KVPool B → MM B :=
  fun f => on_omni (zoom o_pool (fun p s => s <| o_pool := p |>) f).

Definition update_moss_req (oid : nat) (f : MossReq → MossReq) : MM unit :=
  on_omni (update_req oid (fun q => q <| q_ext := f (q_ext q) |>)).

(** Run a statement on the realtime half of a request object. *)
Definition on_req {B} (oid : nat) (f : M (Req (Segment Pixels) Range) B) : MM B :=
  m ← get;
  match req_at m oid with
  | None => throw (OtherError "no such object")
  | Some q => let '(r, x) := f (e_req (q_ext q)) in
              _ ← update_moss_req oid (assign e_req x); lift r
  end.

Definition rid_of (m : Moss) (oid : nat) : string :=
  match req_at m oid with Some q => q_rid q | None => "" end.

Definition is_finished (m : Moss) (oid : nat) : bool :=
  match req_at m oid with Some q => finished q | None => false end.

Definition is_retracted (m : Moss) (oid : nat) : bool :=
  match req_at m oid with Some q => q_is_retracted q | None => false end.

Definition is_parked (m : Moss) (oid : nat) : bool := od_mem (rid_of m oid) (m_parked_reqs m).

(** The indices and the entries of the rows of a mask. *)
Definition rows_where (want : bool) (mask : list bool) : list nat :=
  map fst (List.filter (fun p => eqb p.2 want) (imap pair mask)).

Definition select {A} (indices : list nat) (l : list A) : list A := omap (fun i => l !! i) indices.

(** ** Stream chunks of a step *)

(** [_emit_stream_output]. *)
Definition emit_stream_output (step : Step) (o : StepOut) (skip_rids : list string) : MM unit :=
  match mh_stream_output_builder MH with
  | None => mret tt
  | Some builder =>
      mforeach (fun '(rid, did) =>
        m ← get;
        if bool_decide (rid ∈ skip_rids) || bool_decide (rid ∈ o_aborted_ids (m_omni m))
        then mret tt
        else match od_get rid (so_outputs o), did with
             | None, _ => throw (KeyError "outputs")
             | Some _, None => throw (OtherError "AttributeError")
             | Some out, Some did =>
                 on_omni (run_data_hook (Some (builder out)) put_stream_messages rid did)
             end) (sp_requests step)
  end.

(** [_run_batch_resolve]; [None] is the failed result. *)
Definition run_batch_resolve (step : Step) (skip_rids : list string)
  : MM (option (option (list Z))) :=
  out ← mh_execute_resolve MH step;
  match out with
  | None => mret None
  | Some o => _ ← emit_stream_output step o skip_rids; mret (Some (so_next_token_ids o))
  end.

(** ** Parking *)

Definition should_park (m : Moss) (oid : nat) : bool :=
  match req_at m oid with
  | None => false
  | Some q =>
      match m_sessions m !! q_rid q with
      | None => false
      | Some session =>
          bool_decide (s_pending_events session = []) && negb (s_final_received session)
          && negb (finished q)
          && (negb (bool_decide (x_output_ids (e_req (q_ext q)) = []))
              && ends_with_token_ids (x_output_ids (e_req (q_ext q))) (mh_silence_token_ids MH))
      end
  end.

Definition park (oid : nat) : MM unit :=
  _ ← on_state oid mark_waiting;
  modify (fun m => m
    <| m_parked_reqs := od_set (rid_of m oid) oid (m_parked_reqs m) |>
    <| m_parked_since := od_set (rid_of m oid) (m_clock m) (m_parked_since m) |>).

(** The requests to keep and the identifiers newly parked. *)
Fixpoint park_loop (reqs : list nat) : MM (list nat * list string) :=
  match reqs with
  | [] => mret ([], [])
  | oid :: reqs' =>
      m ← get;
      if should_park m oid then
        _ ← park oid;
        '(keep, parked) ← park_loop reqs';
        mret (keep, rid_of m oid :: parked)
      else
        '(keep, parked) ← park_loop reqs'; mret (oid :: keep, parked)
  end.

(** [_drop_parked_from_live_running_batch]. *)
Definition drop_parked_from_live_running_batch (processed : nat) (parked_rids : list string)
  : MM unit :=
  m ← get;
  match o_running_batch (m_omni m) with
  | None => mret tt
  | Some running =>
      if bool_decide (running = processed) then mret tt
      else
        let reqs := batch_reqs m running in
        let keep := List.filter (fun oid => negb (bool_decide (rid_of m oid ∈ parked_rids))) reqs in
        if bool_decide (length keep = length reqs) then mret tt
        else _ ← set_reqs running keep; set_not_full running
  end.

(** [_park_silent_requests]. *)
Definition park_silent_requests (bid : nat) : MM unit :=
  m ← get;
  let reqs := batch_reqs m bid in
  '(keep, parked) ← park_loop reqs;
  _ ← (if bool_decide (length keep = length reqs) then mret tt
       else _ ← set_reqs bid keep; set_not_full bid);
  match parked with
  | [] => mret tt
  | _ => drop_parked_from_live_running_batch bid parked
  end.

(** ** The result of a batch *)

(** A request extended by its final event may stop from now on. *)
Definition end_final_extend (oid : nat) : MM unit :=
  update_moss_req oid (fun e =>
    if x_final_extend (e_req e)
    then e <| e_req := (if e_keep_ignore_eos e then e_req e
                        else e_req e <| x_ignore_eos := false |>) <| x_final_extend := false |> |>
    else e).

Definition context_exhausted (q : ReqObj) (st : RuntimeState) (a : RealtimeAccounting) : bool :=
  match option_map finish_type (q_finished_reason q), r_context_limit st, a_failure_code a with
  | Some kind, Some limit, None =>
      String.eqb kind "length" && (limit <=? u_total_tokens (snapshot a))
  | _, _, _ => false
  end.

Definition set_failure (code : string) (a : RealtimeAccounting) : RealtimeAccounting :=
  {| a_session_id := a_session_id a; a_vision := a_vision a; a_text_input := a_text_input a;
     a_text_output := a_text_output a; a_step := a_step a; a_output_step := a_output_step a;
     a_frozen := a_frozen a; a_retired_at := a_retired_at a; a_failure_code := Some code;
     a_failure_seq := a_failure_seq a |}.

(** The record of a finished request is closed, its session and its parking are dropped. *)
Definition settle_finished (oid : nat) : MM unit :=
  m ← get;
  match req_at m oid with
  | None => mret tt
  | Some q =>
      if negb (finished q) then mret tt else
      _ ← on_record (q_rid q)
            (modify (fun a => if context_exhausted q (req_state q) a
                              then set_failure "context_exhausted" a else a));
      _ ← freeze_record (q_rid q);
      _ ← on_sessions (close (q_rid q));
      modify (fun m => m <| m_parked_reqs := od_pop (q_rid q) (m_parked_reqs m) |>
                         <| m_parked_since := od_pop (q_rid q) (m_parked_since m) |>)
  end.

(** [process_batch_result]. *)
Definition process_batch_result (bid : nat) (tokens : option (list Z)) : MM unit :=
  m ← get;
  _ ← mforeach end_final_extend (batch_reqs m bid);
  _ ← mh_upstream_process_batch_result MH bid tokens;
  m ← get;
  _ ← mforeach settle_finished (batch_reqs m bid);
  park_silent_requests bid.

(** ** Resolving a launched step *)

(** The slot of one overrun row went back: its bookkeeping falls back to what is committed. *)
Definition reconcile_parked (oid : nat) : MM unit :=
  m ← get;
  match req_at m oid with
  | None => mret tt
  | Some q =>
      match r_req_pool_index (req_state q) with
      | None => mret tt
      | Some index =>
          let committed := committed_kv (req_state q) in
          _ ← update_moss_req oid (fun e => e
                <| e_kv_allocated_len := option_map (fun n => if committed <? n then committed else n)
                                           (e_kv_allocated_len e) |>
                <| e_kv_committed_len := if committed <? e_kv_committed_len e then committed
                                         else e_kv_committed_len e |>);
          on_pool (
            p ← get;
            _ ← guard_raise ((index <? 0) || (zlength (kp_table p) <=? index)
                             || (row_width (kp_table p) <=? committed))
                  (IndexError "index is out of bounds");
            assign_to kp_table
              (<[Z.to_nat index := <[Z.to_nat committed := 0]> (row_at (kp_table p) index)]>
                 (kp_table p)))
      end
  end.

(** [_free_parked_overrun_step_slots]. *)
Definition free_parked_overrun_step_slots (slots : option (list Z)) (reqs : list nat)
  (drop_indices : list nat) : MM unit :=
  if bool_decide (drop_indices = []) then mret tt
  else if negb (mh_page_size MH =? 1) || mh_disable_radix_cache MH then mret tt
  else match slots with
  | None => mret tt
  | Some slots =>
      _ ← guard_raise (negb (forallb (fun i => bool_decide (i < length slots)%nat) drop_indices))
            (AssertionError "overrun drop index out of range");
      _ ← on_pool (zoom kp_allocator (fun a p => p <| kp_allocator := a |>)
                     (free (select drop_indices slots)));
      mforeach reconcile_parked (select drop_indices reqs)
  end.

(** [next_token_ids[keep]]. *)
Definition keep_tokens (tokens : option (list Z)) (keep : list nat) : result (option (list Z)) :=
  match tokens, keep with
  | Some l, _ :: _ => kept ← rmapM (pick l) keep; Ok (Some kept)
  | _, _ => Ok tokens
  end.

Definition process_kept (bid : nat) (tokens : option (list Z)) : MM unit :=
  m ← get;
  match batch_reqs m bid with [] => mret tt | _ => process_batch_result bid tokens end.

(** The generic [_resolve_and_process]. *)
Definition base_resolve_and_process (bid : nat) (step : Step) : MM unit :=
  m ← get;
  let reqs := batch_reqs m bid in
  let pre := map (fun oid => is_finished m oid || is_retracted m oid) reqs in
  result ← run_batch_resolve step (map (rid_of m) (select (rows_where true pre) reqs));
  match result with
  | None => mret tt
  | Some tokens =>
      let keep := rows_where false pre in
      tokens ← (if (length keep <? length reqs)%nat
                then tokens ← lift (keep_tokens tokens keep);
                     _ ← set_reqs bid (select keep reqs); mret tokens
                else mret tokens);
      process_kept bid tokens
  end.

(** [_resolve_and_process]: rows that finished, were retracted or were parked by an earlier
    step are the overrun of this one. *)
Definition resolve_and_process (bid : nat) (step : Step) : MM unit :=
  m ← get;
  let reqs := batch_reqs m bid in
  let pre := map (fun oid => is_finished m oid || is_retracted m oid || is_parked m oid) reqs in
  if negb (existsb id pre) then base_resolve_and_process bid step
  else
    result ← run_batch_resolve step (map (rid_of m) (select (rows_where true pre) reqs));
    match result with
    | None => mret tt
    | Some tokens =>
        let keep := rows_where false pre in
        m ← get;
        let parked := List.filter (fun i => match reqs !! i with
                        | Some oid => negb (is_finished m oid) && negb (is_retracted m oid)
                        | None => false
                        end) (rows_where true pre) in
        _ ← free_parked_overrun_step_slots (sp_out_cache_loc step) reqs parked;
        tokens ← lift (keep_tokens tokens keep);
        _ ← set_reqs bid (select keep reqs);
        process_kept bid tokens
    end.

(** [_handle_batch_failure], when no step is launched any more. *)
Definition handle_batch_failure (bid : nat) (e : pyexn) : MM unit :=
  m ← get;
  mforeach (fun oid =>
    m ← get;
    _ ← emit_request_error H (rid_of m oid) e;
    _ ← on_omni (emit_model_path_end_once (rid_of m oid) "error");
    abort_resolved H (rid_of m oid) false) (batch_reqs m bid).

(** [_resolve_pending_async]. *)
Definition resolve_pending_async : MM unit :=
  m ← get;
  match o_async_pending (m_omni m), m_step m with
  | Some bid, Some step =>
      _ ← on_omni (assign_to o_async_pending None);
      _ ← modify (assign m_step None);
      try_except (resolve_and_process bid step) (handle_batch_failure bid)
  | _, _ => mret tt
  end.

(** [abort] on the scheduler's thread: a launched step that holds the request is resolved
    first. *)
Definition abort (rid : string) (defer_running_cleanup : bool) : MM unit :=
  m ← get;
  _ ← (match o_async_pending (m_omni m) with
       | Some bid => if existsb (rid_is (m_omni m) rid) (batch_reqs m bid)
                     then resolve_pending_async else mret tt
       | None => mret tt
       end);
  abort_resolved H rid defer_running_cleanup.

(** [abort] from another thread is a message to the scheduler's. *)
Definition abort_elsewhere (rid : string) (defer_running_cleanup : bool) : MM unit :=
  if h_is_entry_rank H then
    on_omni (modify (fun s => s <| o_inbox := o_inbox s ++ [MAbort rid defer_running_cleanup] |>))
  else mret tt.

(** Report an error to the client and abort the request. *)
Definition fail_request (rid : string) (e : pyexn) : MM unit :=
  _ ← emit_request_error H rid e; abort rid false.

(** ** Updates *)

(** The exceptions [_ingest_request_update] turns into the failure of one request. *)
Definition rejected (e : pyexn) : bool :=
  match e with
  | KeyError _ | TypeError _ | ValueError _ | RuntimeError _ | ContextExhaustedError _ => true
  | _ => false
  end.

(** [_ingest_request_update]. *)
Definition ingest_request_update (did : nat) (data : update_data) : MM unit :=
  m ← get;
  match owner_of m did ≫= state_of m with
  | None => throw (TypeError "MOSS-VL realtime request data is missing runtime_state")
  | Some st =>
      let rid := r_request_id st in
      try_except (_ ← on_sessions (ingest rid data); mret tt)
        (fun e => if rejected e then fail_request rid e else throw e)
  end.

(** [_on_request_update] with the lookup of this scheduler. *)
Definition on_request_update (rid : string) (data : update_data) : MM unit :=
  m ← get;
  if bool_decide (rid ∈ o_completed_ids (m_omni m)) then mret tt else
  match find_request_data m rid with
  | Some did => ingest_request_update did data
  | None =>
      _ ← on_omni (reserve_pending_request_update rid);
      on_omni (modify (fun s => s <| o_request_updates :=
        od_set rid (updates_of s rid ++ [data]) (o_request_updates s) |>))
  end.

(** ** Parked requests that stay idle *)

Definition expired (m : Moss) : list string :=
  map fst (List.filter (fun p => f_le (mh_parked_request_timeout_s MH) (f_sub (m_clock m) p.2))
             (m_parked_since m)).

(** [_expire_parked_requests]. *)
Definition expire_parked_requests : MM unit :=
  m ← get;
  mforeach (fun rid => fail_request rid
    (TimeoutError "realtime request exceeded parked idle timeout")) (expired m).
End Step.
