(* ===== verification/MossDemo.v ===== *)
(** * The realtime scheduler: a concrete state for the witnesses

    Two sessions, [a] decoding in the running batch and [b] parked, over a page table of two
    rows and the free set as the allocator. *)
From S2P Require Import Prelude PyNum Payload Accounting SessionState KVLayout RuntimeState Segment.
From S2P Require Import FrameApply BatchAdapter Extend Odict OmniState Intake MossState MossAbort MossStep.
Local Open Scope Z_scope.

#[local] Instance demo_env : MossEnv :=
  {| Pixels := unit; Range := Z * Z; Alloc := gset Z; MChunk := unit; MBody := unit;
     MMessage := unit; MAnswer := unit; env_fill_ids := app; env_extend_range := pair |}.

Definition demo_state (rid : string) (row decoder : Z) (phase : Phase) : RuntimeState :=
  fresh_state rid "s" <| r_req_pool_index := Some row |> <| r_decoder_length := decoder |>
                      <| r_phase := phase |> <| r_accounting := Some (new_accounting "s") |>.

Definition demo_session (rid : string) (row decoder : Z) (phase : Phase) : Req (Segment unit) (Z * Z) :=
  {| x_rid := rid; x_state := demo_state rid row decoder phase; x_origin_input_ids := [11; 12];
     x_output_ids := [13]; x_fill_ids := [11; 12; 13]; x_max_new_tokens := 5;
     x_ignore_eos := true; x_multimodal_inputs := None; x_extend_range := (2, 3);
     x_prefix_indices := []; x_skip_radix_cache_insert := true; x_page_row := None;
     x_previous := None; x_staging := no_staging; x_final_extend := false |}.

Definition demo_object (rid : string) (did : nat) (row decoder : Z) (phase : Phase) : ReqObj :=
  {| q_rid := rid; q_data := Some did; q_finished_reason := None; q_is_retracted := false;
     q_to_finish := false; q_terminal_claimed := false; q_req_pool_idx := Some row;
     q_input_len := 2; q_max_new_tokens := 5;
     q_ext := {| e_req := demo_session rid row decoder phase; e_kv_allocated_len := Some decoder;
                 e_kv_committed_len := decoder; e_keep_ignore_eos := false |} |}.

Definition demo_data (oid : nat) : DataObj :=
  {| d_req := oid; d_stream_chunks := []; d_stream_done := false; d_request_updates := [];
     d_output_ids := []; d_weight_version := None; d_finish_reason := None |}.

Definition demo_omni : Omni :=
  {| o_reqs := {[0%nat := demo_object "a" 0 0 2 DECODING;
                 1%nat := demo_object "b" 1 1 3 WAITING_FOR_EVENT]};
     o_datas := {[0%nat := demo_data 0; 1%nat := demo_data 1]};
     o_batches := {[0%nat := {| b_reqs := [0%nat]; b_batch_is_full := true |}]};
     o_running_batch := Some 0%nat; o_cur_batch := None; o_last_batch := None;
     o_async_pending := None; o_waiting_queue := []; o_aborted_ids := ∅;
     o_aborted_order := []; o_completed_ids := []; o_stream_ingress := [];
     o_request_updates := []; o_deferred_payloads := []; o_dirty_deferred := ∅;
     o_request_builds := []; o_request_admissions := []; o_backlog := [];
     o_inbox := []; o_outbox := [];
     o_first_emit_done := ∅; o_prefill_start_done := ∅; o_prefill_end_done := ∅;
     o_path_ends := []; o_abort_callbacks := [];
     o_pool := {| kp_table := [[4; 5; 0; 0; 0; 0]; [6; 7; 8; 0; 0; 0]];
                  kp_allocator := {[ 1; 2; 3 ]} |} |}.

Definition demo_moss : Moss :=
  {| m_omni := demo_omni;
     m_sessions := {["a" := new_session "a" "s"; "b" := new_session "b" "s"]};
     m_parked_reqs := [("b", 1%nat)]; m_parked_since := [("b", f_of_Z 10)];
     m_accounting_records := [("a", 0%nat); ("b", 1%nat)]; m_step := None;
     m_extend_batch := None; m_clock := f_of_Z 20 |}.

(** Releasing a request returns the slots of its row: the allocated ones, at least the
    committed ones. *)
Definition demo_release (q : ReqObj) (pool : KVPool) : ReqObj * KVPool :=
  (q <| q_req_pool_idx := None |>
     <| q_ext := q_ext q <| e_kv_allocated_len := None |> <| e_kv_committed_len := 0 |> |>,
   match q_req_pool_idx q with
   | Some i => pool <| kp_allocator := kp_allocator pool ∪
                 list_to_set (ztake (match e_kv_allocated_len (q_ext q) with
                                     | Some n => Z.max n (committed_kv (req_state q))
                                     | None => committed_kv (req_state q)
                                     end) (row_at (kp_table pool) i)) |>
   | None => pool
   end).

Definition demo_hooks : Hooks :=
  {| h_is_entry_rank := true; h_executor := false; h_max_pending := 1; h_backlog_limit := None;
     h_max_req_len := 100; h_request_builder := fun _ => Raise (ValueError "unused");
     h_is_request_build_ready := fun _ _ => true; h_recheck_on_stream_chunk := fun _ _ => true;
     h_prepare_request_limits := fun b => (bd_max_new_tokens b, None);
     h_stream_chunk_handler := None; h_stream_done_handler := None;
     h_request_update_handler := None; h_release_kv_cache := demo_release |}.

Definition demo_moss_hooks : MossHooks (Out := unit) :=
  {| mh_silence_token_ids := [0]; mh_parked_request_timeout_s := f_of_Z 10; mh_page_size := 1;
     mh_disable_radix_cache := false; mh_execute_resolve := fun _ => mret None;
     mh_stream_output_builder := None; mh_upstream_process_batch_result := fun _ _ => mret tt;
     mh_check_decode_mem := fun _ => true |}.

Lemma demo_law : moss_release_law demo_hooks.
Proof. intros q pool. by exists None, 0. Qed.

Lemma demo_objects oid q :
  o_reqs demo_omni !! oid = Some q →
  oid = 0%nat ∧ q = demo_object "a" 0 0 2 DECODING ∨
  oid = 1%nat ∧ q = demo_object "b" 1 1 3 WAITING_FOR_EVENT.
Proof.
  change (o_reqs demo_omni) with
    (<[0%nat := demo_object "a" 0 0 2 DECODING]>
       {[1%nat := demo_object "b" 1 1 3 WAITING_FOR_EVENT]} : gmap nat ReqObj).
  rewrite lookup_insert. case_decide as E; [intros [= <-]; by left|].
  rewrite lookup_singleton. case_decide as E2; [|done]. intros [= <-]. by right.
Qed.

Lemma demo_ok : moss_ok demo_moss.
Proof.
  constructor.
  - split; [apply NoDup_nil_2|]. split; [done|]. by vm_compute.
  - intros oid Ho. by apply not_elem_of_nil in Ho.
  - apply NoDup_singleton.
  - intros rid oid. change (od_get rid (m_parked_reqs demo_moss)) with (od_get rid [("b", 1%nat)]).
    simpl. case_decide; [|done]. intros [= <-]. subst rid. split; [by vm_compute|].
    apply not_elem_of_nil.
  - intros oid q did [[-> ->]|[-> ->]]%demo_objects [= <-].
    + exists (demo_data 0). split; [reflexivity|]. by vm_compute.
    + exists (demo_data 1). split; [reflexivity|]. by vm_compute.
  - intros rid oid. change (m_accounting_records demo_moss) with [("a", 0%nat); ("b", 1%nat)]. simpl.
    case_decide; [intros [= <-]; subst rid; by vm_compute|].
    case_decide; [intros [= <-]; subst rid; by vm_compute|done].
Qed.
