(* ===== verification/MossFail.v ===== *)
(** * The realtime scheduler: failing one request

    What reporting an error for a request and aborting it does, when no launched step holds
    the request; and that a rejected update does just that. *)
From S2P Require Import Prelude PyNum Payload Accounting SessionState KVLayout RuntimeState Segment.
From S2P Require Import FrameApply BatchAdapter Extend Odict OmniState Silent Intake Terminal MossState MossAbort MossStep MossDemo.
Local Open Scope Z_scope.

Section Fail.
Context `{ME : MossEnv} {Out : Type} (H : Hooks) (MH : MossHooks (Out := Out)).
Context (Hlaw : moss_release_law H) (Hentry : h_is_entry_rank H = true).

(** The generic scheduler with one more message on its outbox. *)
Definition reported (s : Omni) (msg : OutMsg) : Omni := s <| o_outbox := o_outbox s ++ [msg] |>.

Lemma restated_reported rid s s1 msg : restated rid s s1 → restated rid (reported s msg) (reported s1 msg).
Proof. intros [-> Hr]. split; [done|exact Hr]. Qed.

Lemma note_failure_state e st :
  ∃ st', on_accounting (note_failure e) tt st = (Ok tt, st') ∧ same_kv st st' ∧
    r_append_inflight st' = r_append_inflight st ∧ r_phase st' = r_phase st.
Proof.
  unfold on_accounting. mrun. destruct (r_accounting st) as [a|]; [|by exists st].
  simpl. eexists. split; [reflexivity|]. by split_and!.
Qed.

Lemma emit_error_run rid e m :
  (∀ oid, od_get rid (m_accounting_records m) = Some oid → rid_is (m_omni m) rid oid = true) →
  ∃ s, emit_request_error H rid e m = (Ok tt, m <| m_omni := reported s (OError rid e) |>) ∧
    restated rid (m_omni m) s ∧
    (∀ oid st, state_of m oid = Some st → ∃ st', req_state <$> o_reqs s !! oid = Some st' ∧
       r_append_inflight st' = r_append_inflight st).
Proof.
  intros Hrec. unfold emit_request_error.
  assert (∃ s, on_record rid (note_failure e) m = (Ok tt, m <| m_omni := s |>) ∧
    restated rid (m_omni m) s ∧
    (∀ oid st, state_of m oid = Some st → ∃ st', req_state <$> o_reqs s !! oid = Some st' ∧
       r_append_inflight st' = r_append_inflight st)) as (s & E & Hr & Hin).
  { unfold on_record. erewrite moss_bind_run by reflexivity.
    destruct (od_get rid (m_accounting_records m)) as [oid|] eqn:Eo.
    2:{ exists (m_omni m). split; [by destruct m|]. split; [apply restated_refl|].
        intros oid st Hst. by exists st. }
    pose proof (Hrec oid eq_refl) as Hr. pose proof Hr as (q & Hq & _)%rid_is_true.
    destruct (note_failure_state e (req_state q)) as (st' & Ef & Hkv & Hin & _).
    eexists. split; [by apply (on_state_run oid _ m q)|].
    split; [by apply (restated_alter _ _ _ _ q)|]. intros oid' st Hst. fields.
    destruct (decide (oid' = oid)) as [->|Hne].
    - rewrite lookup_alter_eq, Hq. exists st'. split; [done|]. unfold state_of in Hst.
      rewrite Hq in Hst. by injection Hst as <-.
    - rewrite lookup_alter_ne by done. by exists st. }
  exists s. split; [|done]. rewrite (moss_bind_run _ _ _ _ _ E).
  erewrite on_omni_run; [by destruct m|]. unfold Intake.emit_request_error. by rewrite Hentry.
Qed.

(** The request failed: it was reported, then cleared away. *)
Record failed (rid : string) (e : pyexn) (m m' : Moss) : Prop := {
  f_forgotten : forgotten rid (m_omni m');
  f_others : others_kept rid (reported (m_omni m) (OError rid e)) (m_omni m');
  f_sessions : m_sessions m' = delete rid (m_sessions m);
  f_parked : m_parked_reqs m' = od_pop rid (m_parked_reqs m);
  f_since : m_parked_since m' = od_pop rid (m_parked_since m);
  f_same : m_accounting_records m' = m_accounting_records m ∧ m_clock m' = m_clock m ∧
           m_step m' = m_step m;
  f_rows : ∃ s l, restated rid (m_omni m) s ∧ NoDup l ∧
    (∀ oid, oid ∈ l ↔ held_row m rid oid ∧ holding (m_omni m) oid = true) ∧
    o_pool (m_omni m') = released (h_release_kv_cache H) s l (o_pool (m_omni m));
  f_objects : ∀ oid q, held_row m rid oid → req_at m' oid = Some q →
    q_req_pool_idx q = None ∧ q_data q = None;
  f_phase : ∀ did oid st, find_request_data m rid = Some did → owner_of m did = Some oid →
    state_of m oid = Some st → r_append_inflight st = false →
    r_phase <$> state_of m' oid = Some ABORTED;
  f_frozen : ∀ oid q a, od_get rid (m_accounting_records m) = Some oid →
    req_at m' oid = Some q → r_accounting (req_state q) = Some a → a_frozen a = true;
  f_rids : same_rids (o_reqs (m_omni m)) (o_reqs (m_omni m'));
  f_ok : moss_ok m'
}.

(** No launched step holds the request. *)
Definition not_launched (m : Moss) (rid : string) : Prop :=
  ∀ bid oid, o_async_pending (m_omni m) = Some bid → oid ∈ batch_reqs m bid →
    rid_is (m_omni m) rid oid = false.

Lemma abort_run_resolved rid defer m :
  not_launched m rid → abort H MH rid defer m = abort_resolved H rid defer m.
Proof.
  intros Hn. unfold abort. erewrite moss_bind_run by reflexivity.
  destruct (o_async_pending (m_omni m)) as [bid|] eqn:Ep; [|done].
  replace (existsb _ _) with false; [done|]. symmetry. apply existsb_false_Forall, Forall_forall.
  intros oid Ho. by eapply Hn.
Qed.

Lemma restated_moss_ok rid m s msg :
  moss_ok m → restated rid (m_omni m) s → moss_ok (m <| m_omni := reported s msg |>).
Proof.
  intros [H1 H2 H3 H4 H5 H6] Hr. pose proof (restated_rids _ _ _ Hr) as Hrids.
  destruct (restated_ok _ _ _ Hr H1 H2) as [H1' H2'].
  assert (∀ rid' oid, rid_is s rid' oid = rid_is (m_omni m) rid' oid) as Hri.
  { intros rid' oid. by apply rid_is_same. }
  assert (o_waiting_queue s = o_waiting_queue (m_omni m)) as Hw by by rewrite (proj1 Hr).
  constructor; try done.
  - intros rid' oid Hp. destruct (H4 rid' oid Hp) as [Ha Hb]. split.
    + by rewrite <- Hri in Ha.
    + change (oid ∉ o_waiting_queue s). by rewrite Hw.
  - intros oid q did Hq Hd. change (o_reqs s !! oid = Some q) in Hq.
    pose proof (restated_data _ _ _ oid Hr) as Hx. unfold data_of in Hx. rewrite Hq in Hx. simpl in Hx.
    destruct (o_reqs (m_omni m) !! oid) as [q0|] eqn:Hq0; simpl in Hx; [|congruence].
    pose proof (Hrids oid) as Hy. rewrite Hq, Hq0 in Hy. injection Hy as Hy.
    destruct (H5 oid q0 did Hq0) as (d & Ed & Hdr); [congruence|]. exists d.
    change (o_datas s !! did = Some d ∧ rid_is s (q_rid q) (d_req d) = true).
    rewrite Hri, Hy. split; [|done]. by rewrite (proj1 Hr).
  - intros rid' oid Ho. change (rid_is s rid' oid = true). rewrite Hri. by apply H6.
Qed.
Lemma find_pointwise {A} (f g : A → bool) l : (∀ x, f x = g x) → List.find f l = List.find g l.
Proof. intros Hfg. induction l as [|x l IH]; simpl; [done|]. by rewrite Hfg, IH. Qed.

Lemma find_restated rid m s msg :
  restated rid (m_omni m) s →
  find_request_data (m <| m_omni := reported s msg |>) rid = find_request_data m rid.
Proof.
  intros Hr. destruct (restated_batches _ _ _ Hr) as (Hb & _ & Hw & _).
  assert (∀ oid, rid_is s rid oid = rid_is (m_omni m) rid oid) as Hri.
  { intros oid. apply rid_is_same. by eapply restated_rids. }
  pose proof (fun oid => restated_data _ _ _ oid Hr) as Hd.
  unfold find_request_data, OmniState.find_request_data.
  change (List.find (rid_is (m_omni (m <| m_omni := reported s msg |>)) rid) (batch_oids _))
    with (List.find (rid_is s rid) (batch_oids s)).
  change (o_waiting_queue (m_omni (m <| m_omni := reported s msg |>))) with (o_waiting_queue s).
  change (rid_is (m_omni (m <| m_omni := reported s msg |>)) rid) with (rid_is s rid).
  change (data_of (m_omni (m <| m_omni := reported s msg |>))) with (data_of s).
  change (m_parked_reqs (m <| m_omni := reported s msg |>)) with (m_parked_reqs m).
  rewrite Hb, Hw, !(find_pointwise _ _ _ Hri).
  assert (od_get rid (m_parked_reqs m) ≫= data_of s =
          od_get rid (m_parked_reqs m) ≫= data_of (m_omni m)) as ->.
  { destruct (od_get rid (m_parked_reqs m)); [apply Hd|done]. }
  destruct (List.find _ (batch_oids _)); [by rewrite Hd|].
  destruct (List.find _ (o_waiting_queue _)); by rewrite ?Hd.
Qed.

Lemma cleared_failed rid e m s m' :
  moss_ok m → restated rid (m_omni m) s →
  (∀ oid st, state_of m oid = Some st → ∃ st', req_state <$> o_reqs s !! oid = Some st' ∧
     r_append_inflight st' = r_append_inflight st) →
  cleared H rid (m <| m_omni := reported s (OError rid e) |>) m' → failed rid e m m'.
Proof.
  intros Hok Hr Hin Hc. set (m1 := m <| m_omni := reported s (OError rid e) |>) in *.
  assert (∀ oid, rid_is s rid oid = rid_is (m_omni m) rid oid) as Hri.
  { intros oid. apply rid_is_same. by eapply restated_rids. }
  assert (∀ oid, held_row m1 rid oid ↔ held_row m rid oid) as Hheld.
  { intros oid. unfold held_row. change (rid_is (m_omni m1) rid oid) with (rid_is s rid oid).
    change (batch_oids (m_omni m1)) with (batch_oids s). rewrite Hri.
    by rewrite (proj1 (restated_batches _ _ _ Hr)). }
  constructor.
  - apply Hc.
  - eapply others_kept_restated; [by apply restated_reported|]. apply Hc.
  - apply Hc.
  - apply Hc.
  - apply Hc.
  - split; [apply Hc|]. apply Hc.
  - destruct (cl_rows _ _ _ _ Hc) as (s1 & l & Hr1 & Hnd & Hl & Hp).
    exists (s1 <| o_outbox := o_outbox (m_omni m) |>), l. split; [|split; [done|split]].
    + split.
      * rewrite (proj1 Hr1). change (m_omni m1) with (reported s (OError rid e)).
        rewrite (proj1 Hr). by destruct (m_omni m).
      * intros oid. pose proof (proj2 Hr oid) as Ha. pose proof (proj2 Hr1 oid) as Hb.
        change (rid_is (m_omni m1) rid oid) with (rid_is s rid oid) in Hb.
        change (o_reqs (m_omni m1)) with (o_reqs s) in Hb. rewrite Hri in Hb.
        change (o_reqs (s1 <| o_outbox := o_outbox (m_omni m) |>)) with (o_reqs s1).
        destruct (rid_is (m_omni m) rid oid); [|congruence].
        destruct Ha as (st1 & Ha & Hkv1), Hb as (st2 & Hb & Hkv2). exists st2.
        rewrite Hb, Ha. destruct (o_reqs (m_omni m) !! oid) as [q|] eqn:Hq; [|done].
        split; [done|]. intros q0 [= <-]. specialize (Hkv1 q eq_refl).
        rewrite Ha in Hkv2. specialize (Hkv2 _ eq_refl).
        change (req_state (set_req_state st1 q)) with st1 in Hkv2.
        destruct Hkv1, Hkv2. split; congruence.
    + intros oid. rewrite Hl, Hheld.
      change (holding (m_omni m1) oid) with (holding s oid).
      by rewrite (restated_holding rid (m_omni m) s).
    + rewrite Hp. change (o_pool (m_omni m1)) with (o_pool s).
      by rewrite (proj2 (proj2 (proj2 (restated_batches _ _ _ Hr)))).
  - intros oid q Ho. apply (cl_objects _ _ _ _ Hc). by apply Hheld.
  - intros did oid st Hf Ho Hst Hi. destruct (Hin oid st Hst) as (st' & Hst' & Hi').
    eapply (cl_phase _ _ _ _ Hc did oid st').
    + unfold m1. by rewrite find_restated.
    + unfold owner_of in *. change (o_datas (m_omni m1)) with (o_datas s). by rewrite (proj1 Hr).
    + exact Hst'.
    + congruence.
  - apply Hc.
  - eapply same_rids_trans; [by eapply restated_rids|]. apply Hc.
  - eapply cleared_ok; [|done]. by apply (restated_moss_ok rid).
Qed.

Lemma fail_request_run rid e m :
  moss_ok m → not_launched m rid →
  ∃ m', fail_request H MH rid e m = (Ok tt, m') ∧ failed rid e m m'.
Proof.
  intros Hok Hn. unfold fail_request.
  destruct (emit_error_run rid e m) as (s & E & Hr & Hin); [intros oid; by apply Hok|].
  rewrite (moss_bind_run _ _ _ _ _ E). rewrite abort_run_resolved.
  - destruct (abort_resolved_run H Hlaw rid (m <| m_omni := reported s (OError rid e) |>))
      as (m' & E' & Hc); [by apply (restated_moss_ok rid)|].
    exists m'. split; [exact E'|]. by apply (cleared_failed rid e m s).
  - intros bid oid Hb Ho. change (rid_is s rid oid = false).
    rewrite (rid_is_same (m_omni m) s) by by eapply restated_rids.
    eapply Hn; [|].
    + rewrite <- Hb. change (o_async_pending (m_omni m) = o_async_pending s). by rewrite (proj1 Hr).
    + revert Ho. unfold batch_reqs. change (m_omni (m <| m_omni := reported s (OError rid e) |>))
        with (reported s (OError rid e)). rewrite (proj1 Hr). done.
Qed.
End Fail.

Lemma failed_outbox `{ME : MossEnv} H rid e (m m' : Moss) :
  failed H rid e m m' → o_outbox (m_omni m') = o_outbox (m_omni m) ++ [OError rid e].
Proof. intros Hf. apply (f_others _ _ _ _ _ Hf). Qed.

(** ** Updates *)

Section Updates.
Context `{ME : MossEnv} {Out : Type} (H : Hooks) (MH : MossHooks (Out := Out)).

(** The exceptions of validation and ordering; only a timestamp beyond binary64 is not one of
    those the scheduler expects. *)
Definition expected_error (e : pyexn) : Prop := rejected e = true ∨ ∃ msg, e = OverflowError msg.

Lemma to_float_error n e : to_float n = Raise e → expected_error e.
Proof.
  destruct n as [z|f]; simpl; [|done]. destruct (f_finite _); [done|].
  intros [= <-]. right. by eexists.
Qed.

Ltac expected :=
  repeat (intros; simpl in *; lazymatch goal with
  | H : Raise _ = Raise _ |- _ => injection H as <-; left; reflexivity
  | H : Ok _ = Raise _ |- _ => discriminate H
  | H : match ?x with _ => _ end = Raise _ |- _ => destruct x eqn:?
  | H : raise_if ?b _ = Raise _ |- _ => destruct b
  end).

Lemma bind_Raise {A B} (f : A → result B) (r : result A) e :
  (r ≫= f) = Raise e → r = Raise e ∨ ∃ a, r = Ok a ∧ f a = Raise e.
Proof. destruct r; simpl; naive_solver. Qed.

Lemma check_timestamp_error v e : check_timestamp v = Raise e → expected_error e.
Proof.
  unfold check_timestamp. destruct v; try (by expected).
  intros [Ht|(fin & _ & Ht)]%bind_Raise; [|by expected].
  unfold math_isfinite in Ht. apply bind_Raise in Ht as [Ht|(f & _ & Ht)]; [|done].
  by eapply to_float_error.
Qed.

Lemma make_event_error a b c d f g h i e : make_event a b c d f g h i = Raise e → expected_error e.
Proof.
  unfold make_event.
  intros [E|(rid & _ & E)]%bind_Raise; [unfold check_id in E; by expected|].
  apply bind_Raise in E as [E|(sid & _ & E)]; [unfold check_id in E; by expected|].
  apply bind_Raise in E as [E|(seq & _ & E)]; [unfold check_seq_no in E; by expected|].
  apply bind_Raise in E as [E|(ts & _ & E)]; [by eapply check_timestamp_error|].
  apply bind_Raise in E as [E|(ref & _ & E)]; [unfold check_optional_text in E; by expected|].
  apply bind_Raise in E as [E|(pr & _ & E)]; [unfold check_optional_text in E; by expected|].
  apply bind_Raise in E as [E|(u & _ & E)]; [by expected|].
  apply bind_Raise in E as [E|(fin & _ & E)]; [unfold check_final in E; by expected|].
  apply bind_Raise in E as [E|(fp & _ & E)]; [unfold check_fingerprint in E; by expected|done].
Qed.

Lemma update_event_error d e : update_event d = Raise e → expected_error e.
Proof.
  destruct d as [ev|[o|]]; simpl; [done| |by expected].
  intros [E|(u & _ & E)]%bind_Raise; [by expected|].
  apply bind_Raise in E as [E|(u' & _ & E)]; [by expected|]. by eapply make_event_error.
Qed.

Lemma accept_error ev s e s' : accept ev s = (Raise e, s') → expected_error e.
Proof.
  unfold accept, guard_raise, get, lift, raise_if, modify, mbind, M_bind. simpl.
  repeat (case_match; simplify_eq; try (by intros [= <- _]; left)).
  intros [= <- _]. by eapply to_float_error.
Qed.

Lemma ingest_error rid d c e c' :
  ingest rid d c = (Raise e, c') →
  expected_error e ∧ ∀ rid', rid' ≠ rid → c' !! rid' = c !! rid'.
Proof.
  intros Hi. pose proof Hi as Hi2. unfold ingest in Hi2.
  apply on_session_Raise in Hi2 as [[Hn ->]|(s & s' & Hs & Hm & ->)].
  - split; [|done]. unfold ingest, on_session in Hi. revert Hi. mrun. rewrite Hn.
    intros [= <-]. by left.
  - split; [|intros rid' Hne; by rewrite lookup_insert_ne].
    revert Hm. unfold lift, mbind, M_bind. simpl.
    destruct (update_event d) as [ev|e0] eqn:Eu; [|intros [= <- _]; by eapply update_event_error].
    destruct (accept ev s) as [[u|e1] s1] eqn:Ea; [done|]. intros [= <- _].
    by eapply accept_error.
Qed.

(** The session of the request took the event, the next one in its order, and no other session
    changed. *)
Definition took (rid : string) (ev : FramePromptEvent) (c c' : Controller) : Prop :=
  ∃ s s', c !! rid = Some s ∧ c' = <[rid := s']> c ∧
    s_pending_events s' = s_pending_events s ++ [ev] ∧
    ev_seq_no ev = s_next_seq_no s ∧ s_next_seq_no s' = s_next_seq_no s + 1 ∧
    s_final_received s = false ∧ s_final_received s' = ev_final ev.

Lemma ingest_took rid d c ev c' : ingest rid d c = (Ok ev, c') → took rid ev c c'.
Proof.
  intros (s & s' & Hs & Hm & ->)%on_session_Ok. exists s, s'. split; [done|]. split; [done|].
  unfold lift, mbind, M_bind in Hm. simpl in Hm.
  destruct (update_event d) as [ev'|?]; [|done].
  destruct (accept ev' s) as [[u|?] s1] eqn:Ea; [|done]. injection Hm as -> <-.
  apply accept_spec in Ea as (ts & _ & _ & _ & Hf & Hseq & _ & ->). by split_and!.
Qed.

Lemma update_accepted did oid q data ev sessions m :
  owner_of m did = Some oid → req_at m oid = Some q → r_request_id (req_state q) = q_rid q →
  ingest (q_rid q) data (m_sessions m) = (Ok ev, sessions) →
  ingest_request_update H MH did data m = (Ok tt, m <| m_sessions := sessions |>).
Proof.
  intros Ho Hq Hid Hi. unfold ingest_request_update. erewrite moss_bind_run by reflexivity.
  rewrite Ho. cbn [mbind option_bind]. unfold state_of. unfold req_at in Hq. rewrite Hq. simpl.
  rewrite Hid. unfold try_except. erewrite moss_bind_run; [reflexivity|].
  unfold on_sessions, zoom. by rewrite Hi.
Qed.

Lemma update_raises did oid q data e sessions m :
  owner_of m did = Some oid → req_at m oid = Some q → r_request_id (req_state q) = q_rid q →
  ingest (q_rid q) data (m_sessions m) = (Raise e, sessions) →
  ingest_request_update H MH did data m =
    (if rejected e then fail_request H MH (q_rid q) e else throw e) (m <| m_sessions := sessions |>).
Proof.
  intros Ho Hq Hid Hi. unfold ingest_request_update. erewrite moss_bind_run by reflexivity.
  rewrite Ho. cbn [mbind option_bind]. unfold state_of. unfold req_at in Hq. rewrite Hq. simpl.
  rewrite Hid. unfold try_except.
  assert ((_ ← on_sessions (ingest (q_rid q) data); mret tt) m =
    (Raise e, m <| m_sessions := sessions |>)) as ->; [|done].
  unfold on_sessions, zoom, mbind, M_bind. by rewrite Hi.
Qed.
End Updates.

(** C17: When no launched step holds the request, a rejected update - malformed, out of order,
    for an unknown session - fails only its own request: the error is reported, the request is
    aborted and its row returned, and no other request, session or batch is touched. An accepted
    one changes nothing but its own session, which takes the event as the next in its order. The
    only error that escapes is the overflow of an integer timestamp beyond binary64. *)
Theorem rejected_update_contained `{ME : MossEnv} {Out} H (MH : MossHooks (Out := Out))
    did oid q data m :
  moss_release_law H → h_is_entry_rank H = true → moss_ok m →
  owner_of m did = Some oid → req_at m oid = Some q → r_request_id (req_state q) = q_rid q →
  not_launched m (q_rid q) →
  match ingest (q_rid q) data (m_sessions m) with
  | (Ok ev, sessions) =>
      ingest_request_update H MH did data m = (Ok tt, m <| m_sessions := sessions |>) ∧
      took (q_rid q) ev (m_sessions m) sessions
  | (Raise e, sessions) =>
      (∀ rid, rid ≠ q_rid q → sessions !! rid = m_sessions m !! rid) ∧
      if rejected e
      then ∃ m', ingest_request_update H MH did data m = (Ok tt, m') ∧
             failed H (q_rid q) e (m <| m_sessions := sessions |>) m'
      else ingest_request_update H MH did data m = (Raise e, m <| m_sessions := sessions |>) ∧
           ∃ msg, e = OverflowError msg
  end.
Proof.
  intros Hlaw Hentry Hok Ho Hq Hid Hn.
  destruct (ingest (q_rid q) data (m_sessions m)) as [[ev|e] sessions] eqn:Hi.
  { split; [by eapply update_accepted|by eapply ingest_took]. }
  destruct (ingest_error _ _ _ _ _ Hi) as [He Hsame]. split; [done|].
  rewrite (update_raises H MH did oid q data e sessions m Ho Hq Hid Hi).
  destruct (rejected e) eqn:Er.
  - apply fail_request_run; [done|done|by destruct Hok|done].
  - split; [done|]. by destruct He as [He|?]; [congruence|].
Qed.

(** ** Witness *)

#[local] Existing Instance demo_env.

(** An event whose number is not the expected one. *)
Definition demo_event : FramePromptEvent :=
  {| ev_request_id := "a"; ev_session_id := "s"; ev_seq_no := 3; ev_timestamp := NInt 1;
     ev_frame_ref := None; ev_prompt := Some "hi"; ev_final := false; ev_fingerprint := None |}.

Lemma demo_not_launched rid : not_launched demo_moss rid.
Proof. intros bid oid. discriminate. Qed.

Lemma rejected_update_contained_witness :
  ∃ m', ingest_request_update demo_hooks demo_moss_hooks 0%nat (UEvent demo_event) demo_moss =
      (Ok tt, m') ∧
    o_outbox (m_omni m') = [OError "a" (ValueError "out-of-order event")] ∧
    m_sessions m' !! "a" = None ∧ m_sessions m' !! "b" = Some (new_session "b" "s").
Proof.
  pose proof (rejected_update_contained demo_hooks demo_moss_hooks 0%nat 0%nat
    (demo_object "a" 0 0 2 DECODING) (UEvent demo_event) demo_moss demo_law eq_refl demo_ok
    eq_refl eq_refl eq_refl (demo_not_launched _)) as Hx.
  assert ((ingest (q_rid (demo_object "a" 0 0 2 DECODING)) (UEvent demo_event)
    (m_sessions demo_moss)).1 = Raise (ValueError "out-of-order event")) as Ei by by vm_compute.
  destruct (ingest _ _ _) as [r sessions]. cbn [fst] in Ei. subst r.
  destruct Hx as [Hs (m' & E & Hf)]. exists m'. split; [exact E|]. split; [|split].
  - exact (failed_outbox _ _ _ _ _ Hf).
  - rewrite (f_sessions _ _ _ _ _ Hf). apply lookup_delete_eq.
  - rewrite (f_sessions _ _ _ _ _ Hf). rewrite lookup_delete_ne by discriminate.
    exact (Hs "b" ltac:(discriminate)).
Defined.
