(* ===== verification/MossBody.v ===== *)
(** * The realtime scheduler: what a failure keeps of a request object

    Failing a request reports it, aborts it and returns its row; of the object itself only the
    phase and the accounting record change, next to the row and the upstream lengths.  So the
    object of a failed request still tells what was done to it before - an un-append, say. *)
From S2P Require Import Prelude PyNum Payload Accounting SessionState KVLayout RuntimeState Segment.
From S2P Require Import FrameApply BatchAdapter Extend Odict OmniState Silent Intake Terminal MossState MossAbort MossStep MossFail.
Local Open Scope Z_scope.

(** The runtime state, the phase and the accounting record aside. *)
Definition settled (st : RuntimeState) : RuntimeState :=
  st <| r_phase := DECODING |> <| r_accounting := None |>.

(** The attributes of a request, its phase and its accounting record aside. *)
Definition at_rest {Inputs Range} (r : Req Inputs Range) : Req Inputs Range :=
  r <| x_state := settled (x_state r) |>.

Section Body.
Context `{ME : MossEnv} {Out : Type} (H : Hooks) (MH : MossHooks (Out := Out)).
Context (Hlaw : moss_release_law H).

Definition body (q : ReqObj) : Req (Segment Pixels) Range := at_rest (e_req (q_ext q)).
Definition body_at (m : Moss) (oid : nat) : option (Req (Segment Pixels) Range) :=
  body <$> req_at m oid.

(** The objects of [m'] have the bodies of those of [m]. *)
Definition same_bodies (m m' : Moss) : Prop :=
  aborted_ok (m_omni m') ∧ ∀ oid, body_at m' oid = body_at m oid.

(** A statement that leaves every body alone, whether it raises or not. *)
Definition body_kept {B} (f : M Moss B) : Prop :=
  ∀ m, aborted_ok (m_omni m) → same_bodies m (f m).2.

Lemma kept_bind {A B} (f : M Moss A) (g : A → M Moss B) :
  body_kept f → (∀ a, body_kept (g a)) → body_kept (f ≫= g).
Proof.
  intros Hf Hg m Hm. unfold mbind, M_bind. specialize (Hf m Hm).
  destruct (f m) as [[a|e] m1]; [|done]. destruct Hf as [H1 H2]. destruct (Hg a m1 H1) as [H3 H4].
  split; [done|]. intros oid. by rewrite H4.
Qed.

Lemma kept_get {B} (g : Moss → M Moss B) : (∀ m, body_kept (g m)) → body_kept (get ≫= g).
Proof. intros Hg m. exact (Hg m m). Qed.

Lemma kept_omni {B} (f : M Omni B) :
  (∀ s, aborted_ok s → aborted_ok (f s).2 ∧
     ∀ oid, body <$> o_reqs (f s).2 !! oid = body <$> o_reqs s !! oid) →
  body_kept (on_omni f).
Proof.
  intros Hf m Hm. unfold on_omni, zoom. specialize (Hf _ Hm). by destruct (f (m_omni m)).
Qed.

Lemma kept_aside (f : Moss → Moss) : (∀ m, m_omni (f m) = m_omni m) → body_kept (modify f).
Proof.
  intros Hf m Hm. unfold same_bodies, body_at, req_at. cbn. rewrite Hf. done.
Qed.

Lemma kept_sessions {B} (f : M Controller B) : body_kept (on_sessions f).
Proof. intros m Hm. unfold on_sessions, zoom. by destruct (f (m_sessions m)). Qed.

Lemma kept_ret {B} (b : B) : body_kept (mret b).
Proof. by intros m Hm. Qed.

Lemma kept_state oid (f : M RuntimeState unit) :
  (∀ st, settled (f st).2 = settled st) → body_kept (on_state oid f).
Proof.
  intros Hf m Hm. unfold on_state. cbn [mbind M_bind get].
  change (same_bodies m ((get ≫= (fun m => match o_reqs (m_omni m) !! oid with
    | None => throw (OtherError "no such object")
    | Some q => let '(r, st) := f (req_state q) in
                _ ← on_omni (update_req oid (set_req_state st)); lift r
    end)) m).2).
  unfold mbind at 1, M_bind at 1. cbn.
  destruct (o_reqs (m_omni m) !! oid) as [q|] eqn:Hq; [|done].
  pose proof (Hf (req_state q)) as Hst. destruct (f (req_state q)) as [r st]. simpl in Hst.
  erewrite moss_bind_run by reflexivity. split; [by destruct r|]. intros oid'.
  transitivity (body <$> alter (set_req_state st) oid (o_reqs (m_omni m)) !! oid'); [by destruct r|].
  unfold body_at, req_at. destruct (decide (oid' = oid)) as [->|Hne].
  - rewrite lookup_alter_eq, Hq. simpl. f_equal. unfold body, at_rest, req_state in *. simpl.
    by rewrite Hst.
  - by rewrite lookup_alter_ne.
Qed.

Lemma settled_accounting (f : M RealtimeAccounting unit) st :
  settled (on_accounting f tt st).2 = settled st.
Proof.
  unfold on_accounting. mrun. destruct (r_accounting st) as [a|] eqn:Ea; [|done].
  destruct (f a) as [[?|?] a']; reflexivity.
Qed.

Lemma kept_record rid (f : M RealtimeAccounting unit) : body_kept (on_record rid f).
Proof.
  unfold on_record. apply kept_get. intros m. destruct (od_get _ _); [|apply kept_ret].
  apply kept_state, settled_accounting.
Qed.
Lemma body_release q pool : body (h_release_kv_cache H q pool).1 = body q.
Proof. by destruct (Hlaw q pool) as (a & c & ->). Qed.

Lemma silent_bodies s s' : silent body s s' → ∀ oid, body <$> o_reqs s' !! oid = body <$> o_reqs s !! oid.
Proof.
  intros (_ & _ & Hr) oid. specialize (Hr oid).
  destruct (o_reqs s !! oid), (o_reqs s' !! oid); try done. simpl. f_equal. apply Hr.
Qed.

Lemma kept_hushed {B} (f : M Omni B) : hushed body f → body_kept (on_omni f).
Proof.
  intros Hf. apply kept_omni. intros s Hs. destruct (Hf s) as (b & s' & -> & Hsil & [A B']).
  split; [unfold aborted_ok in *; simpl; by rewrite A, B'|]. by apply silent_bodies.
Qed.

Lemma kept_emit rid e : h_is_entry_rank H = true → body_kept (emit_request_error H rid e).
Proof.
  intros Hentry. unfold emit_request_error. apply kept_bind; [apply kept_record|]. intros _.
  apply kept_omni. intros s Hs. unfold Intake.emit_request_error. by rewrite Hentry.
Qed.

Lemma kept_parked oid : body_kept (release_parked H oid).
Proof.
  unfold release_parked. apply kept_bind.
  - apply kept_hushed. apply (hushed_release body); [by apply release_law_moss|apply body_release].
  - intros _. apply kept_hushed. unfold detach_request_data. apply hushed_update.
    intros q. split_and!; auto.
Qed.

Lemma kept_resolved rid : body_kept (abort_resolved H rid false).
Proof.
  unfold abort_resolved. apply kept_get. intros m0. apply kept_bind.
  { unfold finish_data. apply kept_get. intros m. destruct (_ ≫= _); [|apply kept_ret].
    apply kept_state. intros st. rewrite finish_aborted_run. simpl.
    by destruct (r_append_inflight st). }
  intros _. apply kept_bind; [apply kept_sessions|]. intros _. apply kept_bind.
  { apply kept_omni. intros s Hs.
    destruct (abort_silent body (h_release_kv_cache H) (release_law_moss H Hlaw) body_release
      (fun _ => eq_refl) (fun _ => eq_refl) rid false s Hs) as (s' & -> & Hsil & Hok).
    split; [exact Hok|]. by apply silent_bodies. }
  intros _. apply kept_bind; [by apply kept_aside|]. intros _. apply kept_get. intros m.
  apply kept_bind; [by apply kept_aside|]. intros _. apply kept_bind.
  - destruct (match od_get _ _ with Some _ => _ | None => _ end); [apply kept_parked|apply kept_ret].
  - intros _. unfold freeze_record. apply kept_get. intros m1. apply kept_record.
Qed.

(** Failing a request that no launched step holds leaves the bodies of all objects alone. *)
Lemma fail_request_bodies rid e m m' :
  h_is_entry_rank H = true → aborted_ok (m_omni m) → not_launched m rid →
  (∀ oid, od_get rid (m_accounting_records m) = Some oid → rid_is (m_omni m) rid oid = true) →
  fail_request H MH rid e m = (Ok tt, m') → ∀ oid, body_at m' oid = body_at m oid.
Proof.
  intros Hentry Hok Hn Hrec E. unfold fail_request in E.
  destruct (emit_error_run H Hentry rid e m Hrec) as (s & E1 & Hr & _).
  pose proof (kept_emit rid e Hentry m Hok) as [Hok1 Hb1]. rewrite E1 in Hok1, Hb1. simpl in Hok1, Hb1.
  rewrite (moss_bind_run _ _ _ _ _ E1), abort_run_resolved in E.
  - pose proof (kept_resolved rid (m <| m_omni := reported s (OError rid e) |>) Hok1) as [_ Hb2].
    rewrite E in Hb2. cbn [snd] in Hb2. intros oid. by rewrite Hb2, Hb1.
  - intros bid oid Hb Ho. change (rid_is s rid oid = false).
    rewrite (rid_is_same (m_omni m) s) by by eapply restated_rids.
    apply (Hn bid); [rewrite <- Hb; cbn; by rewrite (proj1 Hr)|].
    revert Ho. unfold batch_reqs. cbn. rewrite (proj1 Hr). done.
Qed.
End Body.
