(* ===== verification/MossAll.v ===== *)
(** * The realtime scheduler: failing several requests in a row

    The scheduler fails the expired, the retracted, the over-long and the evicted requests of
    a round one after the other.  What such a sequence leaves behind, in terms of the state
    before it. *)
From S2P Require Import Prelude PyNum Payload Accounting SessionState KVLayout RuntimeState Segment.
From S2P Require Import FrameApply BatchAdapter Extend Odict OmniState Silent Intake Terminal MossState MossAbort MossStep MossFail MossBody.
Local Open Scope Z_scope.

Lemma od_get_filter {V} (k : string) (l : list string) (d : list (string * V)) :
  k ∉ l → od_get k (filter (fun p => p.1 ∉ l) d) = od_get k d.
Proof.
  intros Hk. induction d as [|[k' v] d IH]; [done|].
  destruct (decide (k' ∈ l)) as [Hin|Hout].
  - rewrite filter_cons_False by naive_solver. rewrite IH. simpl. rewrite decide_False; [done|].
    by intros ->.
  - rewrite filter_cons_True by done. simpl. by case_decide.
Qed.

Lemma od_get_filter_out {V} (k : string) (l : list string) (d : list (string * V)) :
  k ∈ l → od_get k (filter (fun p => p.1 ∉ l) d) = None.
Proof.
  intros Hk. apply od_get_None. unfold od_keys. intros Hin. apply list_elem_of_In, in_map_iff in Hin
    as ([k' v] & <- & Hin%list_elem_of_In). by apply list_elem_of_filter in Hin as [? _].
Qed.

Lemma mforeach_map {S A B} (g : A → B) (f : B → M S unit) l s :
  mforeach f (map g l) s = mforeach (fun x => f (g x)) l s.
Proof.
  revert s. induction l as [|x l IH]; intros s; [done|]. cbn [map mforeach].
  unfold mbind, M_bind. destruct (f (g x) s) as [[[]|] s1]; [apply IH|done].
Qed.

Lemma NoDup_map_in {A B} (f : A → B) l :
  (∀ x y, x ∈ l → y ∈ l → f x = f y → x = y) → NoDup l → NoDup (map f l).
Proof.
  intros Hf Hnd. induction Hnd as [|x l Hx Hnd IH]; [constructor|]. cbn [map]. apply NoDup_cons. split.
  - intros Hin. apply list_elem_of_In, in_map_iff in Hin as (y & Hy & Hin%list_elem_of_In).
    apply Hx. replace x with y; [done|]. apply Hf; [by constructor|constructor|done].
  - apply IH. intros y z Hy Hz. apply Hf; by constructor.
Qed.

Lemma and_iff_compat_l_iff (P Q R : Prop) : (P → Q ↔ R) → (P ∧ Q) ↔ (P ∧ R).
Proof. tauto. Qed.

Section All.
Context `{ME : MossEnv} {Out : Type} (H : Hooks) (MH : MossHooks (Out := Out)).
Context (Hlaw : moss_release_law H) (Hentry : h_is_entry_rank H = true).

Definition fail_all (l : list (string * pyexn)) : M Moss unit :=
  mforeach (fun p => fail_request H MH p.1 p.2) l.

(** The object is a request of one of the identifiers. *)
Definition owned (m : Moss) (rids : list string) (oid : nat) : bool :=
  match req_at m oid with Some q => bool_decide (q_rid q ∈ rids) | None => false end.

(** The row and the lengths of an object. *)
Definition same_row (q0 q : ReqObj) : Prop :=
  q_rid q = q_rid q0 ∧ q_req_pool_idx q = q_req_pool_idx q0 ∧
  e_kv_allocated_len (q_ext q) = e_kv_allocated_len (q_ext q0) ∧
  same_kv (req_state q0) (req_state q).

Definition give_back (qs : list ReqObj) (pool : KVPool) : KVPool :=
  foldl (fun pool q => (h_release_kv_cache H q pool).2) pool qs.

(** The object sits in a batch or is the parked object of its request. *)
Definition placed (m : Moss) (oid : nat) : Prop :=
  ∃ q, req_at m oid = Some q ∧
    (oid ∈ batch_oids (m_omni m) ∨ od_get (q_rid q) (m_parked_reqs m) = Some oid).

(** The rows of the objects of the requests go back, each once. *)
Definition rows_back (rids : list string) (m m' : Moss) : Prop :=
  ∃ qs : list (nat * ReqObj), NoDup qs.*1 ∧
    (∀ oid, oid ∈ qs.*1 ↔ owned m rids oid = true ∧ placed m oid ∧ holding (m_omni m) oid = true) ∧
    Forall (fun p => ∃ q0, req_at m p.1 = Some q0 ∧ same_row q0 p.2) qs ∧
    o_pool (m_omni m') = give_back qs.*2 (o_pool (m_omni m)).

Record all_failed (l : list (string * pyexn)) (m m' : Moss) : Prop := {
  af_ok : moss_ok m';
  af_outbox : o_outbox (m_omni m') = o_outbox (m_omni m) ++ map (fun p => OError p.1 p.2) l;
  af_sessions : ∀ rid, m_sessions m' !! rid =
    if decide (rid ∈ l.*1) then None else m_sessions m !! rid;
  af_parked : m_parked_reqs m' = filter (fun p => p.1 ∉ l.*1) (m_parked_reqs m);
  af_since : m_parked_since m' = filter (fun p => p.1 ∉ l.*1) (m_parked_since m);
  af_same : m_accounting_records m' = m_accounting_records m ∧ m_clock m' = m_clock m ∧
            m_step m' = m_step m;
  af_slots : slots (m_omni m') = slots (m_omni m);
  af_batches : ∀ bid, reqs_of (m_omni m') bid =
    if bool_decide (bid ∈ batch_slots (m_omni m))
    then List.filter (fun o => negb (owned m l.*1 o)) (reqs_of (m_omni m) bid)
    else reqs_of (m_omni m) bid;
  af_waiting : o_waiting_queue (m_omni m') =
    List.filter (fun o => negb (owned m l.*1 o)) (o_waiting_queue (m_omni m));
  af_others : ∀ oid, owned m l.*1 oid = false → req_at m' oid = req_at m oid;
  af_cleared : ∀ oid q, owned m l.*1 oid = true → placed m oid → req_at m' oid = Some q →
    q_req_pool_idx q = None ∧ q_data q = None;
  af_rows : rows_back l.*1 m m';
  af_rids : same_rids (o_reqs (m_omni m)) (o_reqs (m_omni m'))
}.

(** ** Objects and identifiers *)

Lemma owned_cons m rid rids oid : owned m (rid :: rids) oid = rid_is (m_omni m) rid oid || owned m rids oid.
Proof.
  unfold owned, rid_is, req_at. destruct (o_reqs (m_omni m) !! oid) as [q|]; [|done].
  rewrite <- bool_decide_or. apply bool_decide_ext. rewrite elem_of_cons. naive_solver.
Qed.

Lemma owned_same m m' rids oid :
  same_rids (o_reqs (m_omni m)) (o_reqs (m_omni m')) → owned m' rids oid = owned m rids oid.
Proof.
  intros Hs. specialize (Hs oid). unfold owned, req_at.
  destruct (o_reqs (m_omni m) !! oid), (o_reqs (m_omni m') !! oid); [|done..].
  simpl in Hs. by injection Hs as ->.
Qed.

Lemma owned_one m rid oid : rid_is (m_omni m) rid oid = true ↔ owned m [rid] oid = true.
Proof. rewrite owned_cons. unfold owned. destruct (req_at m oid); simpl; by rewrite orb_false_r. Qed.

Lemma held_placed m rid oid : held_row m rid oid ↔ rid_is (m_omni m) rid oid = true ∧ placed m oid.
Proof.
  unfold held_row, placed. split.
  - intros [Hr Ho]. split; [done|]. apply rid_is_true in Hr as (q & Hq & <-). by exists q.
  - intros [Hr (q & Hq & Ho)]. split; [done|].
    apply rid_is_true in Hr as (q' & Hq' & <-). unfold req_at in Hq. by replace q' with q by congruence.
Qed.

(** ** One request *)

Section One.
Context (rid : string) (e : pyexn) (m m1 : Moss) (Hf : failed H rid e m m1).

Lemma failed_slots : batch_slots (m_omni m1) = batch_slots (m_omni m).
Proof.
  pose proof (proj1 (f_others _ _ _ _ _ Hf)) as Hx. unfold batch_slots.
  fold (slots (m_omni m1)) (slots (m_omni m)). by rewrite Hx.
Qed.

Lemma failed_batches bid : reqs_of (m_omni m1) bid =
  if bool_decide (bid ∈ batch_slots (m_omni m))
  then List.filter (fun o => negb (owned m [rid] o)) (reqs_of (m_omni m) bid)
  else reqs_of (m_omni m) bid.
Proof.
  rewrite (proj1 (proj2 (proj2 (f_others _ _ _ _ _ Hf)))).
  change (batch_slots (reported (m_omni m) (OError rid e))) with (batch_slots (m_omni m)).
  change (reqs_of (reported (m_omni m) (OError rid e)) bid) with (reqs_of (m_omni m) bid).
  case_bool_decide; [|done]. apply List.filter_ext. intros o. rewrite owned_cons.
  assert (owned m [] o = false) as -> by (unfold owned; by destruct (req_at m o)).
  by rewrite orb_false_r.
Qed.

Lemma failed_waiting : o_waiting_queue (m_omni m1) =
  List.filter (fun o => negb (owned m [rid] o)) (o_waiting_queue (m_omni m)).
Proof.
  rewrite (proj1 (proj2 (proj2 (proj2 (f_others _ _ _ _ _ Hf))))).
  apply List.filter_ext. intros o. rewrite owned_cons.
  assert (owned m [] o = false) as -> by (unfold owned; by destruct (req_at m o)).
  by rewrite orb_false_r.
Qed.

Lemma failed_req_at oid : rid_is (m_omni m) rid oid = false → req_at m1 oid = req_at m oid.
Proof. intros Hr. by apply (proj1 (proj2 (f_others _ _ _ _ _ Hf))). Qed.

(** The rows that go back with the request. *)
Lemma failed_rows : rows_back [rid] m m1.
Proof.
  destruct (f_rows _ _ _ _ _ Hf) as (s & l & Hr & Hnd & Hl & Hp).
  assert (∀ oid, oid ∈ l → ∃ q0 q, req_at m oid = Some q0 ∧ o_reqs s !! oid = Some q ∧ same_row q0 q)
    as Hq.
  { intros oid Ho. apply Hl in Ho as [[Ho _] _]. pose proof (proj2 Hr oid) as Hx. rewrite Ho in Hx.
    apply rid_is_true in Ho as (q0 & Hq0 & _). unfold req_at. rewrite Hq0 in Hx |- *.
    destruct Hx as (st & -> & Hkv). exists q0, (set_req_state st q0). split; [done|]. split; [done|].
    split; [done|]. split; [done|]. split; [done|]. by apply Hkv. }
  exists (omap (fun oid => pair oid <$> o_reqs s !! oid) l).
  assert ((omap (fun oid => pair oid <$> o_reqs s !! oid) l).*1 = l) as Efst.
  { clear Hnd Hl Hp. induction l as [|oid l IH]; [done|]. simpl.
    destruct (Hq oid) as (q0 & q & _ & -> & _); [by constructor|]. simpl. f_equal. apply IH.
    intros o Ho. apply Hq. by constructor. }
  split; [by rewrite Efst|]. split; [|split].
  - intros oid. rewrite Efst, Hl, held_placed, owned_one. tauto.
  - apply Forall_forall. intros [oid q] (o & Ho & Ex)%list_elem_of_omap.
    destruct (Hq o Ho) as (q0 & q1 & Hq0 & Hq1 & Hs). rewrite Hq1 in Ex. injection Ex as <- <-.
    by exists q0.
  - rewrite Hp. unfold released, give_back. clear Hnd Hl Hp Efst. generalize (o_pool (m_omni m)).
    induction l as [|oid l IH]; [done|]. intros pool. simpl.
    destruct (Hq oid) as (q0 & q & _ & -> & _); [by constructor|]. simpl. apply IH.
    intros o Ho. apply Hq. by constructor.
Qed.
End One.

(** ** In a row *)

Lemma owned_nil m oid : owned m [] oid = false.
Proof. unfold owned. by destruct (req_at m oid). Qed.

Lemma owned_app m l1 l2 oid : owned m (l1 ++ l2) oid = owned m l1 oid || owned m l2 oid.
Proof.
  unfold owned. destruct (req_at m oid) as [q|]; [|done]. rewrite <- bool_decide_or.
  apply bool_decide_ext. apply elem_of_app.
Qed.

Lemma all_failed_nil m : moss_ok m → all_failed [] m m.
Proof.
  intros Hok. pose proof (owned_nil m) as Hn.
  assert (∀ l : list nat, List.filter (fun o => negb (owned m [] o)) l = l) as Hfil.
  { intros l. induction l as [|x l IH]; simpl; [done|]. by rewrite Hn, IH. }
  constructor; simpl; try done.
  - by rewrite app_nil_r.
  - symmetry. by apply filter_keep_all, Forall_forall; intros x _; apply not_elem_of_nil.
  - symmetry. by apply filter_keep_all, Forall_forall; intros x _; apply not_elem_of_nil.
  - intros bid. rewrite Hfil. by case_bool_decide.
  - intros oid q. by rewrite Hn.
  - exists []. split; [apply NoDup_nil_2|]. split; [|by split; [constructor|]].
    intros oid. rewrite Hn. split; [by intros ?%not_elem_of_nil|by intros [? _]].
Qed.

Lemma all_failed_one rid e m m1 : failed H rid e m m1 → all_failed [(rid, e)] m m1.
Proof.
  intros Hf.
  assert (∀ {V} (d : list (string * V)), od_pop rid d = filter (fun p => p.1 ∉ [rid]) d) as Hpop.
  { intros V d. apply list_filter_iff. intros p. rewrite list_elem_of_singleton. done. }
  constructor; cbn [fmap list_fmap fst].
  - apply Hf.
  - apply (f_others _ _ _ _ _ Hf).
  - intros rid'. rewrite (f_sessions _ _ _ _ _ Hf). destruct (decide (rid' = rid)) as [->|Hne].
    + rewrite lookup_delete_eq, decide_True; [done|constructor].
    + rewrite lookup_delete_ne, decide_False; [done| |done]. by rewrite list_elem_of_singleton.
  - by rewrite (f_parked _ _ _ _ _ Hf), Hpop.
  - by rewrite (f_since _ _ _ _ _ Hf), Hpop.
  - apply Hf.
  - apply (f_others _ _ _ _ _ Hf).
  - apply (failed_batches rid e m m1 Hf).
  - apply (failed_waiting rid e m m1 Hf).
  - intros oid Ho. apply (failed_req_at rid e m m1 Hf).
    destruct (rid_is (m_omni m) rid oid) eqn:E; [|done]. apply owned_one in E. congruence.
  - intros oid q Ho Hp. apply (f_objects _ _ _ _ _ Hf), held_placed. by split; [apply owned_one|].
  - by apply (failed_rows rid e).
  - apply Hf.
Qed.

Lemma lfilter_lfilter {A} (f g : A → bool) l :
  List.filter f (List.filter g l) = List.filter (fun x => g x && f x) l.
Proof.
  induction l as [|x l IH]; simpl; [done|]. destruct (g x); simpl; [|done].
  destruct (f x); by rewrite IH.
Qed.

Lemma slots_batch_slots (s s' : Omni) : slots s' = slots s → batch_slots s' = batch_slots s.
Proof. intros Hs. unfold batch_slots. fold (slots s') (slots s). by rewrite Hs. Qed.

Section Compose.
Context (l1 l2 : list (string * pyexn)) (m m1 m2 : Moss).
Context (Hnew : NoDup (l1 ++ l2).*1) (Hf : all_failed l1 m m1) (Ha : all_failed l2 m1 m2).

Lemma owned_later rids oid : owned m1 rids oid = owned m rids oid.
Proof. apply owned_same, Hf. Qed.

Lemma owned_first oid : owned m l1.*1 oid = true → owned m l2.*1 oid = false.
Proof.
  unfold owned. destruct (req_at m oid) as [q|]; [|done]. intros H1%bool_decide_eq_true.
  apply bool_decide_eq_false. rewrite fmap_app in Hnew. apply NoDup_app in Hnew as (_ & Hx & _).
  by apply Hx.
Qed.

Lemma later_placed oid : owned m l1.*1 oid = false → placed m1 oid ↔ placed m oid.
Proof.
  intros Hr. unfold placed. rewrite (af_others _ _ _ Hf oid Hr). apply exist_proper. intros q.
  apply and_iff_compat_l_iff. intros Hq. apply Morphisms_Prop.or_iff_morphism.
  - rewrite !batch_oids_iff, (slots_batch_slots _ _ (af_slots _ _ _ Hf)).
    apply exist_proper. intros bid. apply and_iff_compat_l_iff. intros Hbid.
    rewrite (af_batches _ _ _ Hf), bool_decide_true by done. rewrite elem_of_lfilter, Hr. tauto.
  - rewrite (af_parked _ _ _ Hf). rewrite od_get_filter; [done|].
    unfold owned in Hr. rewrite Hq in Hr. by apply bool_decide_eq_false in Hr.
Qed.

Lemma compose_filter (L : list nat) :
  List.filter (fun o => negb (owned m1 l2.*1 o)) (List.filter (fun o => negb (owned m l1.*1 o)) L) =
  List.filter (fun o => negb (owned m (l1 ++ l2).*1 o)) L.
Proof.
  rewrite lfilter_lfilter. apply List.filter_ext. intros o.
  by rewrite owned_later, fmap_app, owned_app, negb_orb.
Qed.

Lemma compose_rows : rows_back (l1 ++ l2).*1 m m2.
Proof.
  destruct (af_rows _ _ _ Hf) as (q1 & Hnd1 & Hin1 & Hq1 & Hp1).
  destruct (af_rows _ _ _ Ha) as (q2 & Hnd2 & Hin2 & Hq2 & Hp2).
  assert (∀ oid, oid ∈ q2.*1 → owned m l1.*1 oid = false) as Hsep.
  { intros oid (Ho & _)%Hin2. rewrite owned_later in Ho.
    destruct (owned m l1.*1 oid) eqn:E; [|done]. apply owned_first in E. congruence. }
  exists (q1 ++ q2). rewrite !fmap_app. split; [|split; [|split]].
  - apply NoDup_app. split; [done|]. split; [|done]. intros oid Ho Ho2%Hsep.
    apply Hin1 in Ho as [Ho _]. congruence.
  - intros oid. rewrite elem_of_app, Hin1, Hin2, owned_later, owned_app.
    destruct (owned m l1.*1 oid) eqn:E; simpl.
    + pose proof (owned_first oid E) as Ho. split; [intros [?|[? _]]; [tauto|congruence]|]. tauto.
    + rewrite (later_placed oid E).
      assert (holding (m_omni m1) oid = holding (m_omni m) oid) as ->; [|naive_solver].
      unfold holding. pose proof (af_others _ _ _ Hf oid E) as Hx. unfold req_at in Hx.
      by rewrite Hx.
  - apply Forall_app. split; [done|]. apply Forall_forall. intros p Hp.
    assert (owned m l1.*1 p.1 = false) as Hr by (apply Hsep, list_elem_of_fmap; by exists p).
    rewrite Forall_forall in Hq2. destruct (Hq2 p Hp) as (q0 & Hq0 & Hs). exists q0.
    by rewrite <- (af_others _ _ _ Hf).
  - rewrite Hp2, Hp1. unfold give_back. by rewrite foldl_app.
Qed.

Lemma compose_pop {V} (d : list (string * V)) :
  filter (fun p => p.1 ∉ l2.*1) (filter (fun p => p.1 ∉ l1.*1) d) =
  filter (fun p => p.1 ∉ (l1 ++ l2).*1) d.
Proof.
  rewrite list_filter_filter. apply list_filter_iff. intros p.
  rewrite fmap_app, not_elem_of_app. tauto.
Qed.

Lemma all_failed_app : all_failed (l1 ++ l2) m m2.
Proof.
  constructor.
  - apply Ha.
  - rewrite (af_outbox _ _ _ Ha), (af_outbox _ _ _ Hf), map_app. by rewrite app_assoc.
  - intros rid. rewrite (af_sessions _ _ _ Ha), (af_sessions _ _ _ Hf), fmap_app.
    destruct (decide (rid ∈ l2.*1)) as [Hi|Hi].
    + rewrite decide_True; [done|]. apply elem_of_app. by right.
    + apply decide_ext. rewrite elem_of_app. tauto.
  - rewrite (af_parked _ _ _ Ha), (af_parked _ _ _ Hf). apply compose_pop.
  - rewrite (af_since _ _ _ Ha), (af_since _ _ _ Hf). apply compose_pop.
  - destruct (af_same _ _ _ Hf) as (<- & <- & <-). apply Ha.
  - rewrite (af_slots _ _ _ Ha). apply Hf.
  - intros bid. rewrite (af_batches _ _ _ Ha), (slots_batch_slots _ _ (af_slots _ _ _ Hf)),
      (af_batches _ _ _ Hf). case_bool_decide; [|done]. apply compose_filter.
  - rewrite (af_waiting _ _ _ Ha), (af_waiting _ _ _ Hf). apply compose_filter.
  - intros oid. rewrite fmap_app, owned_app. intros [H1 H2]%orb_false_iff.
    rewrite (af_others _ _ _ Ha) by by rewrite owned_later. by apply Hf.
  - intros oid q Ho Hp Hq. rewrite fmap_app, owned_app in Ho.
    destruct (owned m l1.*1 oid) eqn:Hr.
    + rewrite (af_others _ _ _ Ha) in Hq by (rewrite owned_later; by apply owned_first).
      by apply (af_cleared _ _ _ Hf oid).
    + apply (af_cleared _ _ _ Ha oid); [by rewrite owned_later|by apply later_placed|done].
  - apply compose_rows.
  - eapply same_rids_trans; [apply Hf|apply Ha].
Qed.
End Compose.

Lemma all_failed_not_launched l rid m m' :
  all_failed l m m' → not_launched m rid → not_launched m' rid.
Proof.
  intros Hf Hn bid oid Hb Ho. rewrite (rid_is_same (m_omni m)) by apply Hf.
  assert (o_async_pending (m_omni m) = Some bid) as Hb'.
  { pose proof (af_slots _ _ _ Hf) as Hs. unfold slots in Hs. congruence. }
  apply (Hn bid); [done|]. unfold batch_reqs in *. rewrite (af_batches _ _ _ Hf) in Ho.
  case_bool_decide; [|done]. by apply elem_of_lfilter in Ho as [Ho _].
Qed.

(** ** Steps on the objects and the session of some requests *)

(** Only the sessions and the objects of the requests change, the objects in neither their row
    nor their data. *)
Record own_steps (rids : list string) (m m1 : Moss) : Prop := {
  os_only : m1 = m <| m_omni := m_omni m <| o_reqs := o_reqs (m_omni m1) |> |>
                   <| m_sessions := m_sessions m1 |>;
  os_sessions : ∀ rid, rid ∉ rids → m_sessions m1 !! rid = m_sessions m !! rid;
  os_others : ∀ oid, owned m rids oid = false → req_at m1 oid = req_at m oid;
  os_own : ∀ oid q, req_at m oid = Some q →
    ∃ q1, req_at m1 oid = Some q1 ∧ same_row q q1 ∧ q_data q1 = q_data q
}.

Lemma same_row_refl q : same_row q q.
Proof. by split_and!. Qed.

Lemma same_row_trans q q1 q2 : same_row q q1 → same_row q1 q2 → same_row q q2.
Proof. intros (? & ? & ? & ? & ?) (? & ? & ? & ? & ?). repeat split; congruence. Qed.

Lemma own_steps_refl rids m : own_steps rids m m.
Proof. constructor; [destruct m as [[]]; done|done|done|]. intros oid q Hq. by exists q. Qed.

Section OwnSteps.
Context (rids : list string) (m m1 : Moss) (Hs : own_steps rids m m1).

Lemma own_rids : same_rids (o_reqs (m_omni m)) (o_reqs (m_omni m1)).
Proof.
  intros oid. destruct (o_reqs (m_omni m) !! oid) as [q|] eqn:Hq.
  - destruct (os_own _ _ _ Hs oid q Hq) as (q1 & Hq1 & Hr & _). unfold req_at in Hq1.
    rewrite Hq1. simpl. f_equal. apply Hr.
  - pose proof (os_others _ _ _ Hs oid) as Hx. unfold owned, req_at in Hx. rewrite Hq in Hx.
    by rewrite Hx.
Qed.

Lemma own_same :
  m_parked_reqs m1 = m_parked_reqs m ∧
  m_parked_since m1 = m_parked_since m ∧ o_outbox (m_omni m1) = o_outbox (m_omni m) ∧
  slots (m_omni m1) = slots (m_omni m) ∧ batch_slots (m_omni m1) = batch_slots (m_omni m) ∧
  o_batches (m_omni m1) = o_batches (m_omni m) ∧
  o_waiting_queue (m_omni m1) = o_waiting_queue (m_omni m) ∧
  o_pool (m_omni m1) = o_pool (m_omni m) ∧ m_accounting_records m1 = m_accounting_records m ∧
  m_clock m1 = m_clock m ∧ m_step m1 = m_step m ∧ o_datas (m_omni m1) = o_datas (m_omni m).
Proof. rewrite (os_only _ _ _ Hs). by split_and!. Qed.

Lemma own_batch_oids : batch_oids (m_omni m1) = batch_oids (m_omni m).
Proof. rewrite (os_only _ _ _ Hs). done. Qed.

Lemma own_holding oid : holding (m_omni m1) oid = holding (m_omni m) oid.
Proof.
  pose proof (own_rids oid) as Hx. unfold holding.
  destruct (o_reqs (m_omni m) !! oid) as [q|] eqn:Hq.
  - destruct (os_own _ _ _ Hs oid q Hq) as (q1 & Hq1 & (_ & Hi & _) & _). unfold req_at in Hq1.
    rewrite Hq1. simpl. by rewrite Hi.
  - by destruct (o_reqs (m_omni m1) !! oid).
Qed.

Lemma own_placed oid : placed m1 oid ↔ placed m oid.
Proof.
  destruct own_same as (E2 & _). unfold placed. rewrite own_batch_oids, E2.
  destruct (req_at m oid) as [q|] eqn:Hq.
  - destruct (os_own _ _ _ Hs oid q Hq) as (q1 & Hq1 & (Hr & _) & _). rewrite Hq1.
    split; intros (q' & [= <-] & Hp); eexists; (split; [done|]); congruence.
  - pose proof (own_rids oid) as Hx. unfold req_at in *. rewrite Hq in Hx.
    destruct (o_reqs (m_omni m1) !! oid); [done|]. naive_solver.
Qed.

Lemma own_ok : moss_ok m → moss_ok m1.
Proof.
  intros [H1 H2 H3 H4 H5 H6]. pose proof own_rids as Hrids.
  destruct own_same as (E2 & E3 & E4 & E5 & E6 & E7 & E8 & E9 & E10 & E11 & E12 & E13).
  assert (∀ rid' oid, rid_is (m_omni m1) rid' oid = rid_is (m_omni m) rid' oid) as Hri.
  { intros rid' oid. by apply rid_is_same. }
  constructor.
  - rewrite (os_only _ _ _ Hs). exact H1.
  - intros oid. rewrite E8, own_batch_oids. apply H2.
  - by rewrite E2.
  - intros rid' oid. rewrite E2, Hri, E8. apply H4.
  - intros oid q did Hq Hd. destruct (req_at m oid) as [q0|] eqn:Hq0.
    + destruct (os_own _ _ _ Hs oid q0 Hq0) as (q1 & Hq1 & Hr & Hd1).
      replace q1 with q in * by (unfold req_at in Hq1; congruence).
      destruct (H5 oid q0 did Hq0) as (d & Ed & Hdr); [congruence|]. exists d.
      rewrite E13, Hri. split; [done|]. by rewrite (proj1 Hr).
    + pose proof (Hrids oid) as Hx. unfold req_at in Hq0. by rewrite Hq, Hq0 in Hx.
  - intros rid' oid. rewrite E10, Hri. apply H6.
Qed.

Lemma own_not_launched rid : not_launched m rid → not_launched m1 rid.
Proof.
  intros Hn bid oid Hb Ho. rewrite (rid_is_same (m_omni m)) by apply own_rids.
  rewrite (os_only _ _ _ Hs) in Hb, Ho. by apply (Hn bid).
Qed.
End OwnSteps.

Lemma own_steps_app r1 r2 m m1 m2 :
  own_steps r1 m m1 → own_steps r2 m1 m2 → own_steps (r1 ++ r2) m m2.
Proof.
  intros H1 H2. constructor.
  - etransitivity; [exact (os_only _ _ _ H2)|]. pose proof (os_only _ _ _ H1) as E.
    revert E. generalize (o_reqs (m_omni m1)) (m_sessions m1). intros o ss ->. by destruct m as [[]].
  - intros rid. rewrite not_elem_of_app. intros [Hr1 Hr2].
    rewrite (os_sessions _ _ _ H2) by done. by apply H1.
  - intros oid. rewrite owned_app. intros [Ho1 Ho2]%orb_false_iff.
    rewrite (os_others _ _ _ H2); [by apply H1|]. rewrite (owned_same m m1); [done|]. by eapply own_rids.
  - intros oid q Hq. destruct (os_own _ _ _ H1 oid q Hq) as (q1 & Hq1 & Hr1 & Hd1).
    destruct (os_own _ _ _ H2 oid q1 Hq1) as (q2 & Hq2 & Hr2 & Hd2). exists q2.
    split; [done|]. split; [by eapply same_row_trans|congruence].
Qed.

(** Failing the request after the step is failing it before. *)
Lemma own_all_failed rid e m m1 m2 :
  own_steps [rid] m m1 → all_failed [(rid, e)] m1 m2 → all_failed [(rid, e)] m m2.
Proof.
  intros Hs Hf. pose proof (own_rids _ _ _ Hs) as Hrids.
  assert (∀ oid, owned m1 [rid] oid = owned m [rid] oid) as Hown by (intros; by apply owned_same).
  destruct Hf as [H1 H2 H3 H4 H5 H6 H7 H8 H9 H10 H11 H12 H13].
  cbn [fmap list_fmap fst] in *.
  destruct (own_same _ _ _ Hs) as (E2 & E3 & E4 & E5 & E6 & E7 & E8 & E9 & E10 & E11 & E12 & E13).
  assert (∀ L, List.filter (fun o => negb (owned m1 [rid] o)) L =
               List.filter (fun o => negb (owned m [rid] o)) L) as Hfil.
  { intros L. apply List.filter_ext. intros o. by rewrite Hown. }
  destruct H6 as (H61 & H62 & H63).
  constructor; cbn [fmap list_fmap fst].
  - done.
  - by rewrite H2, E4.
  - intros rid'. rewrite H3. case_decide; [done|]. by apply Hs.
  - by rewrite H4, E2.
  - by rewrite H5, E3.
  - split; [|split]; congruence.
  - congruence.
  - intros bid. rewrite H8, E6, Hfil. unfold reqs_of. by rewrite E7.
  - by rewrite H9, Hfil, E8.
  - intros oid Ho. rewrite H10 by by rewrite Hown. by apply Hs.
  - intros oid q Ho Hp. apply H11; [by rewrite Hown|by apply (own_placed _ _ _ Hs)].
  - destruct H12 as (qs & Hnd & Hin & Hq & Hp). exists qs. split; [done|]. split; [|split].
    + intros oid. by rewrite Hin, Hown, (own_placed _ _ _ Hs), (own_holding _ _ _ Hs).
    + eapply Forall_impl; [exact Hq|]. intros [oid q2] (q1 & Hq1 & Hr1).
      assert (is_Some (req_at m oid)) as [q0 Hq0].
      { pose proof (Hrids oid) as Hx. unfold req_at in *. simpl in Hq1. rewrite Hq1 in Hx.
        destruct (o_reqs (m_omni m) !! oid); [by eexists|done]. }
      exists q0. split; [done|]. destruct (os_own _ _ _ Hs oid q0 Hq0) as (q1' & Hq1' & Hr0 & _).
      simpl in Hq1. replace q1' with q1 in * by congruence.
      by eapply same_row_trans.
    + by rewrite Hp, E9.
  - eapply same_rids_trans; [exact Hrids|exact H13].
Qed.

Lemma own_steps_weaken r1 r2 m m1 :
  (∀ rid, rid ∈ r1 → rid ∈ r2) → own_steps r1 m m1 → own_steps r2 m m1.
Proof.
  intros Hsub [H1 H2 H3 H4]. constructor; [done| | |done].
  - intros rid Hr. apply H2. by intros ?%Hsub.
  - intros oid Ho. apply H3. unfold owned in *. destruct (req_at m oid) as [q|]; [|done].
    apply bool_decide_eq_false in Ho. apply bool_decide_eq_false. by intros ?%Hsub.
Qed.

Lemma own_steps_trans rids m m1 m2 : own_steps rids m m1 → own_steps rids m1 m2 → own_steps rids m m2.
Proof.
  intros H1 H2. eapply own_steps_weaken; [|by eapply own_steps_app].
  intros rid. rewrite elem_of_app. tauto.
Qed.

(** A step of a request commutes with the failure of others. *)
Lemma own_steps_commute rids fs m m1 m2 :
  (∀ rid, rid ∈ rids → rid ∉ fs.*1) → all_failed fs m m1 → own_steps rids m1 m2 →
  ∃ m0, own_steps rids m m0 ∧ all_failed fs m0 m2.
Proof.
  intros Hnew Hf Hs.
  set (objects := map_imap (fun oid q => if owned m rids oid then req_at m2 oid else Some q)
                    (o_reqs (m_omni m))).
  set (sessions := filter (fun p => p.1 ∈ rids) (m_sessions m2) ∪
                   filter (fun p => p.1 ∉ rids) (m_sessions m)).
  assert (∀ rid, sessions !! rid = if decide (rid ∈ rids) then m_sessions m2 !! rid
                                   else m_sessions m !! rid) as Hses.
  { intros rid. unfold sessions. rewrite lookup_union, !map_lookup_filter. simpl.
    destruct (m_sessions m2 !! rid) as [x|], (m_sessions m !! rid) as [y|]; simpl;
      repeat case_guard; repeat case_decide; naive_solver. }
  set (m0 := m <| m_omni := m_omni m <| o_reqs := objects |> |>
               <| m_sessions := sessions |>).
  assert (∀ oid, req_at m0 oid = if owned m rids oid then req_at m2 oid else req_at m oid) as Hobj.
  { intros oid. unfold req_at at 1, m0. fields. unfold objects. rewrite map_lookup_imap.
    unfold req_at. destruct (o_reqs (m_omni m) !! oid) as [q|] eqn:Hq; [done|]. simpl.
    unfold owned, req_at. by rewrite Hq. }
  assert (∀ oid, owned m rids oid = true → owned m fs.*1 oid = false) as Hsep.
  { intros oid. unfold owned. destruct (req_at m oid) as [q|]; [|done]. intros Ho.
    apply bool_decide_eq_true in Ho. by apply bool_decide_eq_false, Hnew. }
  assert (own_steps rids m m0) as H0.
  { constructor.
    - by destruct m as [[]].
    - intros rid' Hr. unfold m0. fields. by rewrite Hses, decide_False.
    - intros oid Ho. by rewrite Hobj, Ho.
    - intros oid q Hq. rewrite Hobj. destruct (owned m rids oid) eqn:Ho.
      + apply (os_own _ _ _ Hs). rewrite (af_others _ _ _ Hf); [done|]. by apply Hsep.
      + exists q. split; [done|]. split; [apply same_row_refl|done]. }
  exists m0. split; [done|].
  pose proof (own_rids _ _ _ H0) as Hr0. pose proof (own_rids _ _ _ Hs) as Hr2.
  assert (∀ rids oid, owned m0 rids oid = owned m rids oid) as Hown by (intros; by apply owned_same).
  assert (∀ L, List.filter (fun o => negb (owned m0 fs.*1 o)) L =
               List.filter (fun o => negb (owned m fs.*1 o)) L) as Hfil.
  { intros L. apply List.filter_ext. intros o. by rewrite Hown. }
  destruct (own_same _ _ _ Hs) as (E2 & E3 & E4 & E5 & E6 & E7 & E8 & E9 & E10 & E11 & E12 & E13).
  constructor.
  - eapply own_ok; [exact Hs|apply Hf].
  - rewrite E4. apply (af_outbox _ _ _ Hf).
  - intros rid. unfold m0. fields. rewrite Hses. destruct (decide (rid ∈ rids)) as [Hin|Hout].
    + by rewrite (decide_False (P := rid ∈ fs.*1)) by by apply Hnew.
    + rewrite (os_sessions _ _ _ Hs) by done. apply (af_sessions _ _ _ Hf).
  - rewrite E2. apply Hf.
  - rewrite E3. apply Hf.
  - destruct (af_same _ _ _ Hf) as (F1 & F2 & F3). rewrite E10, E11, E12. by split_and!.
  - rewrite E5. apply Hf.
  - intros bid. rewrite Hfil. unfold reqs_of at 1. rewrite E7. apply (af_batches _ _ _ Hf).
  - rewrite E8, Hfil. apply Hf.
  - intros oid Ho. rewrite Hown in Ho. rewrite Hobj. destruct (owned m rids oid) eqn:Hr; [done|].
    rewrite (os_others _ _ _ Hs); [by apply Hf|]. rewrite (owned_same m m1); [done|]. apply Hf.
  - intros oid q Ho Hp Hq. rewrite Hown in Ho.
    apply (af_cleared _ _ _ Hf oid); [done|by apply (own_placed _ _ _ H0)|].
    rewrite (os_others _ _ _ Hs) in Hq; [done|]. rewrite (owned_same m m1) by apply Hf.
    destruct (owned m rids oid) eqn:Hr; [|done]. apply Hsep in Hr. congruence.
  - destruct (af_rows _ _ _ Hf) as (qs & Hnd & Hin & Hq & Hp). exists qs. split; [done|]. split; [|split].
    + intros oid. by rewrite Hin, Hown, (own_placed _ _ _ H0), (own_holding _ _ _ H0).
    + apply Forall_forall. intros p Hx. rewrite Forall_forall in Hq. destruct (Hq p Hx) as (q0 & Hq0 & Hrow).
      exists q0. split; [|done]. rewrite Hobj. destruct (owned m rids p.1) eqn:Hr; [|done].
      apply Hsep in Hr. assert (p.1 ∈ qs.*1) as (Ho & _)%Hin by (apply list_elem_of_fmap; by exists p).
      congruence.
    + rewrite E9, Hp. done.
  - intros oid. rewrite (Hr2 oid). pose proof (af_rids _ _ _ Hf oid) as Hx. rewrite Hx.
    symmetry. apply Hr0.
Qed.

(** ** The loops *)

(** Fail each request after a step of its own. *)
Definition fail_after (pre : string → M Moss unit) (l : list (string * pyexn)) : M Moss unit :=
  mforeach (fun p => _ ← pre p.1; fail_request H MH p.1 p.2) l.

(** The step runs wherever the objects of the request are those of [m]. *)
Definition pre_runs (pre : string → M Moss unit) (m : Moss) (rid : string) : Prop :=
  ∀ m1, (∀ oid, rid_is (m_omni m) rid oid = true → req_at m1 oid = req_at m oid) →
    ∃ m2, pre rid m1 = (Ok tt, m2) ∧ own_steps [rid] m1 m2.

(** What the step of a request does to its objects is what is left of them. *)
Definition step_stays (pre : string → M Moss unit) (m m' : Moss) (rid : string) : Prop :=
  ∃ m1 m2, (∀ oid, rid_is (m_omni m) rid oid = true → req_at m1 oid = req_at m oid) ∧
    pre rid m1 = (Ok tt, m2) ∧
    ∀ oid, rid_is (m_omni m) rid oid = true → body_at m' oid = body_at m2 oid.

(** The failures leave the objects of another request. *)
Lemma failed_other l m m' rid oid :
  all_failed l m m' → rid ∉ l.*1 → rid_is (m_omni m) rid oid = true →
  req_at m' oid = req_at m oid.
Proof.
  intros Hf Hr (q & Hq & <-)%rid_is_true. apply (af_others _ _ _ Hf). unfold owned, req_at.
  rewrite Hq. by apply bool_decide_eq_false.
Qed.

Lemma step_stays_first pre rid e l m m0 m1 m' :
  rid ∉ l.*1 → moss_ok m0 → not_launched m0 rid →
  pre rid m = (Ok tt, m0) → fail_request H MH rid e m0 = (Ok tt, m1) →
  all_failed [(rid, e)] m m1 → all_failed l m1 m' → step_stays pre m m' rid.
Proof.
  intros Hnew Hok Hn E0 E Hf Ha. exists m, m0. split; [done|]. split; [done|]. intros oid Ho.
  rewrite <- (fail_request_bodies H MH Hlaw rid e m0 m1) by (done || apply Hok).
  unfold body_at. f_equal. apply (failed_other l m1 m' rid); [done..|].
  by rewrite (rid_is_same (m_omni m)) by apply Hf.
Qed.

Lemma step_stays_next pre rid fs m m1 m' :
  rid ∉ fs.*1 → all_failed fs m m1 → step_stays pre m1 m' rid → step_stays pre m m' rid.
Proof.
  intros Hr Hf (m2 & m3 & H1 & H2 & H3). exists m2, m3.
  assert (∀ oid, rid_is (m_omni m1) rid oid = rid_is (m_omni m) rid oid) as Hri.
  { intros oid. apply rid_is_same, Hf. }
  split; [|split; [done|]]; intros oid Ho.
  - rewrite H1 by by rewrite Hri. by apply (failed_other fs m m1 rid).
  - apply H3. by rewrite Hri.
Qed.

(** Failing requests that no launched step holds never raises, does to each what failing it
    alone would, and leaves of their objects what their steps made of them. *)
Lemma fail_after_run pre l m :
  moss_ok m → NoDup l.*1 →
  (∀ rid, rid ∈ l.*1 → not_launched m rid ∧ pre_runs pre m rid) →
  ∃ m', fail_after pre l m = (Ok tt, m') ∧ all_failed l m m' ∧
    ∀ rid, rid ∈ l.*1 → step_stays pre m m' rid.
Proof.
  revert m. induction l as [|[rid e] l IH]; intros m Hok Hnd Hn.
  { exists m. split; [done|]. split; [by apply all_failed_nil|].
    intros rid Hr. by apply not_elem_of_nil in Hr. }
  pose proof Hnd as [Hnew Hnd']%NoDup_cons. cbn [fmap list_fmap fst] in Hnew.
  destruct (Hn rid) as [Hl Hpre]; [constructor|].
  destruct (Hpre m) as (m0 & E0 & Hs); [done|].
  assert (moss_ok m0) as Hok0 by by eapply own_ok.
  assert (not_launched m0 rid) as Hl0 by by eapply own_not_launched.
  destruct (fail_request_run H MH Hlaw Hentry rid e m0 Hok0 Hl0) as (m1 & E & Hf).
  apply all_failed_one in Hf. eapply own_all_failed in Hf; [|done].
  assert (∀ rid', rid' ∈ l.*1 → rid' ∉ [(rid, e)].*1) as Hother.
  { intros rid' Hr ->%list_elem_of_singleton. by apply Hnew. }
  destruct (IH m1) as (m' & E' & Ha & Hst); [apply Hf|done| |].
  { intros rid' Hr. destruct (Hn rid') as [Hl' Hpre']; [by constructor|].
    split; [by eapply all_failed_not_launched|]. intros m2 Hm2. apply Hpre'. intros oid Ho.
    rewrite Hm2 by (by rewrite (rid_is_same (m_omni m)) by apply Hf).
    apply (failed_other [(rid, e)] m m1 rid'); [done|by apply Hother|done]. }
  exists m'. split; [|split; [by apply (all_failed_app [(rid, e)] l m m1 m')|]].
  { unfold fail_after. cbn [mforeach fst snd]. unfold mbind at 1, M_bind at 1.
    rewrite (moss_bind_run _ _ _ _ _ E0), E. exact E'. }
  intros rid' [->|Hr]%elem_of_cons.
  - by eapply step_stays_first.
  - apply (step_stays_next pre rid' [(rid, e)] m m1); [by apply Hother|done|by apply Hst].
Qed.

Lemma fail_all_run l m :
  moss_ok m → NoDup l.*1 → (∀ rid, rid ∈ l.*1 → not_launched m rid) →
  ∃ m', fail_all l m = (Ok tt, m') ∧ all_failed l m m'.
Proof.
  intros Hok Hnd Hn. change (fail_all l) with (fail_after (fun _ => mret tt) l).
  destruct (fail_after_run (fun _ => mret tt) l m Hok Hnd) as (m' & E & Ha & _); [|by exists m'].
  intros rid Hr. split; [by apply Hn|]. intros m1 _. exists m1. split; [done|].
  apply own_steps_refl.
Qed.
End All.
