(* ===== verification/MossPark.v ===== *)
(** * The realtime scheduler: a parked request does not stay forever

    Rounds of [_expire_parked_requests] over a clock the environment moves.  Between two
    rounds anything may happen to the other requests; the watched one is left alone. *)
From S2P Require Import Prelude PyNum Payload Accounting SessionState KVLayout RuntimeState Segment.
From S2P Require Import FrameApply BatchAdapter Extend Odict OmniState Silent Intake Terminal MossState MossAbort MossStep MossDemo MossFail MossAll.
Local Open Scope Z_scope.

(** The first round at which a test succeeds. *)
Lemma first_round (P : nat → bool) n :
  P n = true → ∃ k, P k = true ∧ ∀ j, (j < k)%nat → P j = false.
Proof.
  induction n as [n IH] using lt_wf_ind. intros Hn.
  destruct (existsb P (seq 0 n)) eqn:E.
  - apply existsb_exists in E as (k & Hk%in_seq & HPk). apply (IH k); [lia|done].
  - exists n. split; [done|]. intros j Hj. apply existsb_false_Forall in E.
    rewrite Forall_forall in E. apply E, list_elem_of_In, in_seq. lia.
Qed.

Section Park.
Context `{ME : MossEnv} {Out : Type} (H : Hooks) (MH : MossHooks (Out := Out)).

Definition idle_timeout : pyexn := TimeoutError "realtime request exceeded parked idle timeout".

(** The deadline of a request parked at [since] has passed. *)
Definition due (m : Moss) (since : pyfloat) : bool :=
  f_le (mh_parked_request_timeout_s MH) (f_sub (m_clock m) since).

(** A request parked since [since] as the object [oid]. *)
Definition waits (rid : string) (since : pyfloat) (oid : nat) (m : Moss) : Prop :=
  od_get rid (m_parked_since m) = Some since ∧ od_get rid (m_parked_reqs m) = Some oid.

(** The scheduler before a round of expiry. *)
Record round_ready (m : Moss) : Prop := {
  rr_ok : moss_ok m;
  rr_since : od_wf (m_parked_since m);
  rr_launched : ∀ rid, rid ∈ expired MH m → not_launched m rid
}.

(** Rounds over which nothing wakes, finishes or aborts the request: [ms n] is the state
    before round [n]. *)
Record left_alone (rid : string) (since : pyfloat) (oid : nat) (ms : nat → Moss) : Prop := {
  la_ready : ∀ n, round_ready (ms n);
  la_start : waits rid since oid (ms O);
  la_next : ∀ n m', expire_parked_requests H MH (ms n) = (Ok tt, m') →
    waits rid since oid m' → waits rid since oid (ms (S n))
}.

Lemma expired_iff m rid since :
  od_wf (m_parked_since m) → od_get rid (m_parked_since m) = Some since →
  rid ∈ expired MH m ↔ due m since = true.
Proof.
  intros Hwf Hget. unfold expired. rewrite list_elem_of_In, in_map_iff. split.
  - intros ([rid' t] & Heq & [Ht Hdue]%List.filter_In). simpl in Heq. subst rid'.
    apply list_elem_of_In, od_elem_get in Ht; [|done]. by replace since with t by congruence.
  - intros Hdue. exists (rid, since). split; [done|]. apply List.filter_In.
    split; [|done]. by apply list_elem_of_In, od_get_elem.
Qed.

Lemma expired_NoDup m : od_wf (m_parked_since m) → NoDup (expired MH m).
Proof.
  unfold od_wf, od_keys, expired. induction (m_parked_since m) as [|p d IH]; simpl; [constructor|].
  intros [Hn Hd]%NoDup_cons. destruct (f_le _ _); simpl; [|by apply IH].
  apply NoDup_cons. split; [|by apply IH]. contradict Hn. rewrite list_elem_of_In in Hn |- *.
  apply in_map_iff in Hn as (q & <- & [Hq _]%List.filter_In). by apply in_map.
Qed.

Context (Hlaw : moss_release_law H) (Hentry : h_is_entry_rank H = true).

Lemma timeouts_fst l : (map (fun rid : string => (rid, idle_timeout)) l).*1 = l.
Proof. induction l as [|x l IH]; [done|]. cbn. f_equal. exact IH. Qed.

(** One round fails exactly the requests whose deadline has passed. *)
Lemma expire_run m :
  round_ready m →
  ∃ m', expire_parked_requests H MH m = (Ok tt, m') ∧
    all_failed H (map (fun rid => (rid, idle_timeout)) (expired MH m)) m m'.
Proof.
  intros [Hok Hwf Hn].
  pose proof (timeouts_fst (expired MH m)) as Hfst.
  destruct (fail_all_run H MH Hlaw Hentry (map (fun rid => (rid, idle_timeout)) (expired MH m)) m)
    as (m' & E & Ha); [done|rewrite Hfst; by apply expired_NoDup|by rewrite Hfst|].
  exists m'. split; [|exact Ha]. rewrite <- E. unfold fail_all. rewrite mforeach_map. done.
Qed.

Lemma messages_all_failed rid l m m' :
  all_failed H l m m' →
  messages_of rid (m_omni m') = messages_of rid (m_omni m) ++
    map (fun p => OError p.1 p.2) (filter (fun p => p.1 = rid) l).
Proof.
  intros Ha. rewrite (messages_of_app rid _ _ _ (af_outbox _ _ _ _ Ha)). f_equal. clear.
  induction l as [|[rid' e] l IH]; [done|]. cbn [map List.filter out_rid fst snd].
  destruct (decide (rid' = rid)) as [->|Hne].
  - rewrite bool_decide_true by done. rewrite filter_cons_True by done. simpl. by rewrite IH.
  - rewrite bool_decide_false by done. rewrite filter_cons_False by done. done.
Qed.

Lemma filter_timeouts (rid : string) l :
  NoDup l → filter (fun p => p.1 = rid) (map (fun rid => (rid, idle_timeout)) l) =
    if bool_decide (rid ∈ l) then [(rid, idle_timeout)] else [].
Proof.
  induction 1 as [|x l Hx _ IH]; [done|]. cbn [map].
  destruct (decide (x = rid)) as [->|Hne].
  - rewrite filter_cons_True by done. rewrite IH, bool_decide_false by done.
    by rewrite bool_decide_true by constructor.
  - rewrite filter_cons_False by done. rewrite IH.
    rewrite (bool_decide_ext (rid ∈ x :: l) (rid ∈ l)); [done|].
    rewrite elem_of_cons. naive_solver.
Qed.

(** A round before the deadline does not touch the request. *)
Definition round_spares (rid : string) (since : pyfloat) (oid : nat) (m m' : Moss) : Prop :=
  messages_of rid (m_omni m') = messages_of rid (m_omni m) ∧ waits rid since oid m' ∧
  m_sessions m' !! rid = m_sessions m !! rid ∧ req_at m' oid = req_at m oid.

(** The round of the deadline reports it once and takes everything of the request away. *)
Definition round_expires (rid : string) (oid : nat) (m m' : Moss) : Prop :=
  messages_of rid (m_omni m') = messages_of rid (m_omni m) ++ [OError rid idle_timeout] ∧
  m_sessions m' !! rid = None ∧
  od_get rid (m_parked_reqs m') = None ∧ od_get rid (m_parked_since m') = None ∧
  ∃ q, req_at m' oid = Some q ∧ q_req_pool_idx q = None ∧ q_data q = None.

Lemma round_outcome rid since oid m m' :
  round_ready m → waits rid since oid m →
  all_failed H (map (fun rid => (rid, idle_timeout)) (expired MH m)) m m' →
  if due m since then round_expires rid oid m m' else round_spares rid since oid m m'.
Proof.
  intros Hr [Hs Hp] Ha. pose proof (rr_ok _ Hr) as Hok.
  pose proof (expired_iff m rid since (rr_since _ Hr) Hs) as Hin.
  pose proof (messages_all_failed rid _ _ _ Ha) as Hm.
  rewrite filter_timeouts in Hm by by apply expired_NoDup, Hr.
  pose proof (ok_parked _ Hok rid oid Hp) as [Hrid _].
  pose proof Hrid as (q & Hq & Hqr)%rid_is_true.
  pose proof (timeouts_fst (expired MH m)) as Hfst.
  set (l := map _ (expired MH m)) in *. clearbody l. rewrite <- Hfst in Hin, Hm.
  pose proof (af_sessions _ _ _ _ Ha rid) as Hses.
  assert (owned m l.*1 oid = bool_decide (rid ∈ l.*1)) as Hown.
  { unfold owned, req_at. rewrite Hq, Hqr. done. }
  destruct (due m since) eqn:Hdue.
  - assert (rid ∈ l.*1) as Hx by by apply Hin.
    rewrite bool_decide_true in Hm, Hown by done. rewrite decide_True in Hses by done.
    split; [done|]. split; [done|].
    rewrite (af_parked _ _ _ _ Ha), (af_since _ _ _ _ Ha).
    split; [by apply od_get_filter_out|]. split; [by apply od_get_filter_out|].
    pose proof (af_rids _ _ _ _ Ha oid) as Hsame. rewrite Hq in Hsame.
    destruct (o_reqs (m_omni m') !! oid) as [q'|] eqn:Hq'; [|done]. exists q'. split; [done|].
    apply (af_cleared _ _ _ _ Ha oid); [done| |done]. exists q. split; [done|]. right. by rewrite Hqr.
  - assert (rid ∉ l.*1) as Hx by (intros ?%Hin; done).
    rewrite bool_decide_false in Hm, Hown by done. rewrite decide_False in Hses by done.
    rewrite app_nil_r in Hm.
    split; [done|]. split; [|split; [done|by apply (af_others _ _ _ _ Ha)]].
    unfold waits. rewrite (af_parked _ _ _ _ Ha), (af_since _ _ _ _ Ha).
    rewrite !od_get_filter by done. done.
Qed.
End Park.

(** C19: A parked request does not stay forever: over any rounds that leave it alone, if the
    clock ever passes its deadline then at the first such round it is reported once, its session
    and its parking are dropped and its row goes back, while every earlier round leaves it
    untouched. *)
Theorem parked_request_expires `{ME : MossEnv} {Out} H (MH : MossHooks (Out := Out))
    rid since oid (ms : nat → Moss) :
  moss_release_law H → h_is_entry_rank H = true → left_alone H MH rid since oid ms →
  (∃ n, due MH (ms n) since = true) →
  ∃ n,
    (∀ k, (k < n)%nat → ∃ m', expire_parked_requests H MH (ms k) = (Ok tt, m') ∧
       round_spares rid since oid (ms k) m') ∧
    ∃ m', expire_parked_requests H MH (ms n) = (Ok tt, m') ∧ round_expires rid oid (ms n) m'.
Proof.
  intros Hlaw Hentry Hal [n0 Hn0]. destruct (first_round (fun n => due MH (ms n) since) _ Hn0) as (n & Hn & Hbefore).
  assert (∀ k, (k ≤ n)%nat → waits rid since oid (ms k)) as Hw.
  { induction k as [|k IH]; intros Hk; [apply Hal|].
    destruct (expire_run H MH Hlaw Hentry (ms k)) as (m' & E & Ha); [apply Hal|].
    apply (la_next _ _ _ _ _ _ Hal k m' E).
    pose proof (round_outcome H MH rid since oid (ms k) m') as Ho.
    rewrite (Hbefore k) in Ho by lia. apply Ho; [apply Hal|apply IH; lia|done]. }
  exists n. split.
  - intros k Hk. destruct (expire_run H MH Hlaw Hentry (ms k)) as (m' & E & Ha); [apply Hal|].
    exists m'. split; [done|]. pose proof (round_outcome H MH rid since oid (ms k) m') as Ho.
    rewrite (Hbefore k) in Ho by lia. apply Ho; [apply Hal|apply Hw; lia|done].
  - destruct (expire_run H MH Hlaw Hentry (ms n)) as (m' & E & Ha); [apply Hal|].
    exists m'. split; [done|]. pose proof (round_outcome H MH rid since oid (ms n) m') as Ho.
    rewrite Hn in Ho. apply Ho; [apply Hal|by apply Hw|done].
Qed.

(** ** Witness *)

#[local] Existing Instance demo_env.

(** The demonstration state with the clock at second [15 + n]; request [b] was parked at
    second 10 and may stay parked for 10 seconds. *)
Definition demo_rounds (n : nat) : Moss := demo_moss <| m_clock := f_of_Z (15 + Z.of_nat n) |>.

Lemma demo_round_ready n : round_ready demo_moss_hooks (demo_rounds n).
Proof.
  constructor.
  - pose proof demo_ok as [H1 H2 H3 H4 H5 H6]. by constructor.
  - apply NoDup_singleton.
  - intros rid _ bid oid. discriminate.
Qed.

Lemma demo_left_alone : left_alone demo_hooks demo_moss_hooks "b" (f_of_Z 10) 1%nat demo_rounds.
Proof. constructor; [apply demo_round_ready|by split|]. intros n m' _ _. by split. Qed.

Lemma parked_request_expires_witness :
  ∃ n m', expire_parked_requests demo_hooks demo_moss_hooks (demo_rounds n) = (Ok tt, m') ∧
    messages_of "b" (m_omni m') = [OError "b" idle_timeout].
Proof.
  destruct (parked_request_expires demo_hooks demo_moss_hooks "b" (f_of_Z 10) 1%nat demo_rounds
    demo_law eq_refl demo_left_alone) as (n & _ & m' & E & Hm & _).
  - exists 5%nat. by vm_compute.
  - exists n, m'. split; [exact E|]. rewrite Hm. reflexivity.
Defined.
