(* ===== verification/MossBudget.v ===== *)
(** * The realtime scheduler: staying within the KV pool

    Models the two memory guards of [MossVLRealtimeScheduler]
    ([src/sglang_omni/models/moss_vl_realtime/scheduler.py]): [_enforce_extend_memory_budget],
    which evicts the heaviest sessions until the pending extends fit the free slots, and
    [_preempt_decode_memory_pressure], which evicts them until the next decode round fits. *)
From S2P Require Import Prelude PyNum Payload Accounting SessionState KVLayout RuntimeState Segment.
From S2P Require Import FrameApply BatchAdapter Extend Odict OmniState Silent Intake Terminal MossState MossAbort MossStep MossDemo MossFail MossAll.
Local Open Scope Z_scope.

Section Budget.
Context `{ME : MossEnv} {Out : Type} (H : Hooks) (MH : MossHooks (Out := Out)).
Abbreviation MM := (M Moss).

(** [_realtime_kv_cost]; every request of this scheduler has a runtime state. *)
Definition realtime_kv_cost (m : Moss) (oid : nat) : Z :=
  match req_at m oid with Some q => committed_kv (req_state q) | None => 0 end.

(** [max(live.values(), key=cost)]: the first of the largest. *)
Fixpoint heaviest (cost : nat → Z) (live : list (string * nat)) : option (string * nat) :=
  match live with
  | [] => None
  | p :: live' => match heaviest cost live' with
                  | Some p' => if cost p.2 <? cost p'.2 then Some p' else Some p
                  | None => Some p
                  end
  end.

(** The running requests, then the parked ones, by identifier. *)
Definition live_requests (m : Moss) : list (string * nat) :=
  foldl (fun d oid => od_setdefault (rid_of m oid) oid d)
    (foldl (fun d oid => od_set (rid_of m oid) oid d) [] (running_reqs m))
    (map snd (m_parked_reqs m)).

(** A request selected for the extend batch, with its events and its segment. *)
Definition Entry : Type := nat * list FramePromptEvent * Segment Pixels.
Definition entry_req (en : Entry) : nat := en.1.1.
Definition entry_segment (en : Entry) : Segment Pixels := en.2.

Definition needed (entries : list Entry) : Z :=
  sum_Z (map (fun en => zlength (raw_append_ids (entry_segment en)) + 2) entries).

Definition not_victim (m : Moss) (victims : list string) (en : Entry) : bool :=
  negb (bool_decide (rid_of m (entry_req en) ∈ victims)).

(** Choose the victims; one round removes one live request, so as many rounds as there are
    live requests are enough. *)
Fixpoint choose_victims (m : Moss) (fuel : nat) (live : list (string * nat)) (available : Z)
    (remaining : list Entry) : list string :=
  match fuel with
  | O => []
  | S fuel =>
      if bool_decide (remaining = []) || (needed remaining <=? available) then [] else
      match heaviest (realtime_kv_cost m) live with
      | None => []
      | Some (rid, oid) =>
          rid :: choose_victims m fuel (od_pop rid live) (available + realtime_kv_cost m oid)
                   (List.filter (not_victim m [rid]) remaining)
      end
  end.

Definition pool_exhausted : pyexn := RuntimeError
  "KV pool exhausted by concurrent sessions; this session was aborted so remaining sessions can continue".

(** Un-append what is staged for a victim. *)
Definition undo_staged (staged : list (string * (nat * Segment Pixels))) (rid : string) : MM unit :=
  match od_get rid staged with
  | Some (oid, segment) => on_req oid (undo_appended_segment env_fill_ids segment)
  | None => mret tt
  end.

Definition staged_by_rid (m : Moss) (selected : list Entry) : list (string * (nat * Segment Pixels)) :=
  foldl (fun d en => od_set (rid_of m (entry_req en)) (entry_req en, entry_segment en) d) [] selected.

(** [_enforce_extend_memory_budget]. *)
Definition enforce_extend_memory_budget (selected : list Entry) : MM (list Entry) :=
  m ← get;
  match available_size (kp_allocator (o_pool (m_omni m))) with
  | None => mret selected
  | Some available =>
      let live := foldl (fun d en => od_setdefault (rid_of m (entry_req en)) (entry_req en) d)
                    (live_requests m) selected in
      let victims := choose_victims m (length live) live available selected in
      _ ← mforeach (fun rid =>
            _ ← undo_staged (staged_by_rid m selected) rid;
            fail_request H MH rid pool_exhausted) victims;
      mret (List.filter (not_victim m victims) selected)
  end.

(** One round of the loop of [_preempt_decode_memory_pressure]; [None] leaves the loop. *)
Definition decode_victim (m : Moss) : option string :=
  match running_reqs m with
  | [] => None
  | _ => if mh_check_decode_mem MH m then None
         else let live := live_requests m in
              if (length live <=? 1)%nat then None
              else option_map fst (heaviest (realtime_kv_cost m) live)
  end.

Fixpoint preempt_loop (fuel : nat) : MM unit :=
  match fuel with
  | O => mret tt
  | S fuel =>
      m ← get;
      match decode_victim m with
      | None => mret tt
      | Some rid => _ ← fail_request H MH rid pool_exhausted; preempt_loop fuel
      end
  end.

(** [_preempt_decode_memory_pressure]: each round aborts one live request. *)
Definition preempt_decode_memory_pressure : MM unit :=
  m ← get; preempt_loop (length (live_requests m)).

(** ** The choice of the victims *)

Lemma heaviest_spec cost live p :
  heaviest cost live = Some p → p ∈ live ∧ ∀ p', p' ∈ live → cost p'.2 ≤ cost p.2.
Proof.
  revert p. induction live as [|p0 live IH]; intros p; cbn [heaviest]; [done|].
  destruct (heaviest cost live) as [p1|] eqn:E.
  - destruct (IH p1 eq_refl) as [Hin Hmax]. destruct (Z.ltb_spec (cost p0.2) (cost p1.2)).
    + intros [= <-]. split; [by constructor|]. intros p' [->|Hp']%elem_of_cons; [lia|by apply Hmax].
    + intros [= <-]. split; [constructor|]. intros p' [->|Hp']%elem_of_cons; [lia|].
      specialize (Hmax p' Hp'). lia.
  - intros [= <-]. split; [constructor|]. intros p' [->|Hp']%elem_of_cons; [lia|].
    destruct live as [|q live]; [by apply not_elem_of_nil in Hp'|]. simpl in E.
    destruct (heaviest cost live); [|done]. by destruct (_ <? _).
Qed.

Lemma heaviest_None cost live : heaviest cost live = None → live = [].
Proof.
  destruct live as [|p live]; [done|]. simpl. destruct (heaviest cost live); [|done].
  by destruct (_ <? _).
Qed.

Lemma sum_Z_app l k : sum_Z (l ++ k) = sum_Z l + sum_Z k.
Proof. unfold sum_Z. induction l as [|x l IH]; simpl; [done|]. rewrite IH. lia. Qed.

Lemma sum_Z_perm l k : l ≡ₚ k → sum_Z l = sum_Z k.
Proof. unfold sum_Z. induction 1; simpl; lia. Qed.

(** What the live requests of a list of identifiers cost. *)
Definition victim_cost (m : Moss) (live : list (string * nat)) (rid : string) : Z :=
  match od_get rid live with Some oid => realtime_kv_cost m oid | None => 0 end.

Definition victims_cost (m : Moss) (live : list (string * nat)) (rids : list string) : Z :=
  sum_Z (map (victim_cost m live) rids).

Definition survivors (m : Moss) (victims : list string) (entries : list Entry) : list Entry :=
  List.filter (not_victim m victims) entries.

Lemma survivors_cons m rid rids entries :
  survivors m rids (survivors m [rid] entries) = survivors m (rid :: rids) entries.
Proof.
  unfold survivors. rewrite lfilter_lfilter. apply List.filter_ext. intros en.
  unfold not_victim. rewrite <- negb_orb, <- bool_decide_or. f_equal. apply bool_decide_ext.
  rewrite !elem_of_cons. pose proof (not_elem_of_nil (rid_of m (entry_req en))). tauto.
Qed.

Lemma survivors_nil m entries : survivors m [] entries = entries.
Proof.
  unfold survivors. induction entries as [|en l IH]; simpl; [done|]. by rewrite IH.
Qed.

(** The choice of victims: enough, none too many, the heaviest. *)
Record chosen (m : Moss) (live : list (string * nat)) (available : Z) (entries : list Entry)
    (victims : list string) : Prop := {
  ch_nodup : NoDup victims;
  ch_live : ∀ rid, rid ∈ victims → rid ∈ od_keys live;
  ch_fits : survivors m victims entries = [] ∨
    needed (survivors m victims entries) ≤ available + victims_cost m live victims;
  ch_minimal : ∀ before rid after, victims = before ++ rid :: after →
    survivors m before entries ≠ [] ∧
    available + victims_cost m live before < needed (survivors m before entries);
  ch_heaviest : ∀ rid rid', rid ∈ victims → rid' ∈ od_keys live → rid' ∉ victims →
    victim_cost m live rid' ≤ victim_cost m live rid
}.

Lemma survivors_all m rids entries :
  (∀ en, en ∈ entries → rid_of m (entry_req en) ∈ rids) → survivors m rids entries = [].
Proof.
  intros Hall. unfold survivors. induction entries as [|en l IH]; simpl; [done|].
  assert (not_victim m rids en = false) as ->.
  { unfold not_victim. rewrite bool_decide_true; [done|]. apply Hall. constructor. }
  apply IH. intros en' He. apply Hall. by constructor.
Qed.
Lemma victim_cost_pop m live rid rid' :
  rid' ≠ rid → victim_cost m (od_pop rid live) rid' = victim_cost m live rid'.
Proof. intros Hne. unfold victim_cost. by rewrite od_get_pop_ne. Qed.

Lemma od_pop_shorter {V} rid (live : list (string * V)) :
  rid ∈ od_keys live → (length (od_pop rid live) < length live)%nat.
Proof.
  unfold od_pop, od_keys. induction live as [|[k v] live IH]; simpl; [by intros ?%not_elem_of_nil|].
  intros [<-|Hr]%elem_of_cons.
  - rewrite filter_cons_False by naive_solver. pose proof (od_pop_length rid live) as Hl.
    unfold od_pop in Hl. lia.
  - specialize (IH Hr). destruct (decide (k = rid)).
    + rewrite filter_cons_False by naive_solver. lia.
    + rewrite filter_cons_True by done. simpl. lia.
Qed.

Lemma no_victims m live available entries :
  survivors m [] entries = [] ∨ needed (survivors m [] entries) ≤ available + victims_cost m live [] →
  chosen m live available entries [].
Proof.
  intros Hf. constructor; [constructor| |done| |].
  - intros rid Hr. by apply not_elem_of_nil in Hr.
  - intros before rid after E. by destruct before.
  - intros rid rid' Hr. by apply not_elem_of_nil in Hr.
Qed.

Lemma choose_victims_chosen m fuel live available entries :
  od_wf live → (length live ≤ fuel)%nat →
  (∀ en, en ∈ entries → rid_of m (entry_req en) ∈ od_keys live) →
  chosen m live available entries (choose_victims m fuel live available entries).
Proof.
  revert live available entries. induction fuel as [|fuel IH]; intros live available entries Hwf Hfuel Hin.
  { destruct live; [|simpl in Hfuel; lia]. apply no_victims. left. by apply survivors_all. }
  cbn [choose_victims].
  destruct (bool_decide (entries = []) || (needed entries <=? available)) eqn:Estop.
  { apply no_victims. rewrite survivors_nil. apply orb_true_iff in Estop as [He|He].
    - left. by apply bool_decide_eq_true in He.
    - right. apply Z.leb_le in He. unfold victims_cost. simpl. lia. }
  apply orb_false_iff in Estop as [He Hn]. apply bool_decide_eq_false in He. apply Z.leb_gt in Hn.
  destruct (heaviest (realtime_kv_cost m) live) as [[rid oid]|] eqn:Eh.
  2:{ apply no_victims. apply heaviest_None in Eh. subst live. left. rewrite survivors_nil.
      destruct entries as [|en l]; [done|]. exfalso.
      apply (not_elem_of_nil (rid_of m (entry_req en))), Hin. constructor. }
  apply heaviest_spec in Eh as [Hhin Hmax]. pose proof (od_elem_get rid oid live Hwf Hhin) as Hget.
  assert (victim_cost m live rid = realtime_kv_cost m oid) as Hcost
    by (unfold victim_cost; by rewrite Hget).
  destruct (IH (od_pop rid live) (available + realtime_kv_cost m oid) (survivors m [rid] entries))
    as [C1 C2 C3 C4 C5].
  { by apply od_pop_wf. }
  { apply od_get_key in Hget. pose proof (od_pop_shorter rid live Hget). lia. }
  { intros en [Hen Hv]%elem_of_lfilter. rewrite od_pop_keys. apply list_elem_of_filter.
    split; [|by apply Hin]. unfold not_victim in Hv. apply negb_true_iff, bool_decide_eq_false in Hv.
    contradict Hv. rewrite Hv. constructor. }
  set (vs := choose_victims m fuel _ _ _) in *. clearbody vs.
  assert (rid ∉ vs) as Hnew.
  { intros Hr%C2. rewrite od_pop_keys in Hr. by apply list_elem_of_filter in Hr as [? _]. }
  assert (∀ l, rid ∉ l → map (victim_cost m (od_pop rid live)) l = map (victim_cost m live) l) as Hmap.
  { intros l Hl. apply map_ext_in. intros r Hr%list_elem_of_In. apply victim_cost_pop. by intros ->. }
  constructor.
  - by apply NoDup_cons.
  - intros r [->|Hr%C2]%elem_of_cons; [by apply od_get_key in Hget|].
    rewrite od_pop_keys in Hr. by apply list_elem_of_filter in Hr as [_ Hr].
  - rewrite <- survivors_cons. destruct C3 as [C3|C3]; [by left|right].
    unfold victims_cost in *. rewrite Hmap in C3 by done. cbn [map sum_Z foldr].
    fold (sum_Z (map (victim_cost m live) vs)). lia.
  - intros before r after E. destruct before as [|r0 before]; simpl in E.
    + rewrite survivors_nil. unfold victims_cost. simpl. split; [done|lia].
    + injection E as <- E. rewrite <- survivors_cons.
      destruct (C4 before r after E) as [Ha Hb]. split; [done|].
      unfold victims_cost in *. rewrite Hmap in Hb.
      * cbn [map sum_Z foldr]. fold (sum_Z (map (victim_cost m live) before)). lia.
      * intros Hx. apply Hnew. rewrite E. apply elem_of_app. by left.
  - intros r r' Hr Hr' Hnot. apply not_elem_of_cons in Hnot as [Hne Hnot].
    assert (r' ∈ od_keys (od_pop rid live)) as Hr'2.
    { rewrite od_pop_keys. by apply list_elem_of_filter. }
    apply elem_of_cons in Hr as [->|Hr].
    + rewrite Hcost. unfold victim_cost. destruct (od_get r' live) as [oid'|] eqn:Eg.
      * apply (Hmax (r', oid')). by apply od_get_elem.
      * apply od_get_None in Eg. done.
    + specialize (C5 r r' Hr Hr'2 Hnot). rewrite !victim_cost_pop in C5; [done| |done].
      by intros ->.
Qed.
End Budget.
