(* ===== verification/MossFit.v ===== *)
(** * The realtime scheduler: the extend batch fits the KV pool

    What [_enforce_extend_memory_budget] guarantees before the extend batch allocates: when
    releasing a request frees the slots of its row, the requests that stay selected fit the
    free slots, and only the evicted sessions were touched. *)
From S2P Require Import Prelude PyNum Payload Accounting SessionState KVLayout RuntimeState Segment.
From S2P Require Import FrameApply BatchAdapter Extend Odict OmniState Silent Intake Terminal MossState MossAbort MossStep MossDemo MossFail MossBody MossAll MossBudget.
Local Open Scope Z_scope.

Section Fit.
Context `{ME : MossEnv} {Out : Type} (H : Hooks) (MH : MossHooks (Out := Out)).

(** ** What a release frees *)

(** The slots a request owns: what is allocated of its row, at least what is committed. *)
Definition held_len (q : ReqObj) : Z :=
  match e_kv_allocated_len (q_ext q) with
  | Some n => Z.max n (committed_kv (req_state q))
  | None => committed_kv (req_state q)
  end.

Definition row_slots (t : Table) (q : ReqObj) : list Z :=
  match q_req_pool_idx q with Some i => ztake (held_len q) (row_at t i) | None => [] end.

(** The slots are in use, each once. *)
Definition in_use (slots : list Z) (a : Alloc) : Prop :=
  NoDup slots ∧ Forall (fun s => 0 < s) slots ∧ list_to_set slots ## free_slots a.

(** Upstream [release_kv_cache] frees the slots of the row and leaves the page table. *)
Definition release_frees : Prop := ∀ q pool,
  in_use (row_slots (kp_table pool) q) (kp_allocator pool) →
  let pool' := (h_release_kv_cache H q pool).2 in
  kp_table pool' = kp_table pool ∧
  free_slots (kp_allocator pool') =
    free_slots (kp_allocator pool) ∪ list_to_set (row_slots (kp_table pool) q).

(** [available_size] counts the free slots. *)
Definition counts_free : Prop := ∀ a, available_size a = Some (Z.of_nat (size (free_slots a))).

(** The requests in batches and the parked ones own disjoint slots. *)
Record rows_apart (m : Moss) : Prop := {
  ra_used : ∀ oid q, placed m oid → req_at m oid = Some q →
    in_use (row_slots (kp_table (o_pool (m_omni m))) q) (kp_allocator (o_pool (m_omni m)));
  ra_wide : ∀ oid q, placed m oid → req_at m oid = Some q → holding (m_omni m) oid = true →
    0 ≤ committed_kv (req_state q) ≤ zlength (row_slots (kp_table (o_pool (m_omni m))) q);
  ra_apart : ∀ oid oid' q q', placed m oid → placed m oid' → oid ≠ oid' →
    req_at m oid = Some q → req_at m oid' = Some q' →
    (list_to_set (row_slots (kp_table (o_pool (m_omni m))) q) : gset Z) ##
      list_to_set (row_slots (kp_table (o_pool (m_omni m))) q')
}.

Context (Hfrees : release_frees).

Lemma in_use_app l k a :
  in_use (l ++ k) a → in_use l a ∧ ∀ a', free_slots a' = free_slots a ∪ list_to_set l → in_use k a'.
Proof.
  intros ((Hl & Hlk & Hk)%NoDup_app & (Pl & Pk)%Forall_app & Hd).
  rewrite list_to_set_app in Hd. split.
  - split; [done|]. split; [done|]. set_solver.
  - intros a' Ha'. split; [done|]. split; [done|]. rewrite Ha'.
    apply disjoint_union_r. split; [set_solver|]. intros x Hx1 Hx2.
    rewrite elem_of_list_to_set in Hx1. rewrite elem_of_list_to_set in Hx2. by eapply Hlk.
Qed.

Lemma give_back_frees qs pool :
  in_use (concat (map (row_slots (kp_table pool)) qs)) (kp_allocator pool) →
  let pool' := give_back H qs pool in
  kp_table pool' = kp_table pool ∧
  free_slots (kp_allocator pool') = free_slots (kp_allocator pool) ∪
    list_to_set (concat (map (row_slots (kp_table pool)) qs)).
Proof.
  revert pool. induction qs as [|q qs IH]; intros pool Hu; cbn [map concat] in *.
  { split; [done|]. simpl. set_solver. }
  apply in_use_app in Hu as [Hq Hrest]. destruct (Hfrees q pool Hq) as [Ht Hf].
  specialize (Hrest _ Hf). destruct (IH ((h_release_kv_cache H q pool).2)) as [Ht2 Hf2].
  { by rewrite Ht. }
  unfold give_back in *. cbn [foldl]. split; [by rewrite Ht2|]. rewrite Hf2, Hf, Ht.
  rewrite list_to_set_app_L. set_solver.
Qed.

Lemma freed_size slots a (a' : Alloc) :
  in_use slots a → free_slots a' = free_slots a ∪ list_to_set slots →
  Z.of_nat (size (free_slots a')) = Z.of_nat (size (free_slots a)) + zlength slots.
Proof.
  intros (Hnd & _ & Hd) ->. rewrite size_union by (symmetry; exact Hd).
  rewrite size_list_to_set by done. unfold zlength. lia.
Qed.

(** ** The rows of the victims *)

Lemma elem_of_concat_map {B C} (f : B → list C) l y :
  y ∈ concat (map f l) ↔ ∃ x, x ∈ l ∧ y ∈ f x.
Proof.
  rewrite list_elem_of_In, in_concat. setoid_rewrite in_map_iff. setoid_rewrite list_elem_of_In.
  naive_solver.
Qed.

Lemma concat_in_use {B} (f : B → list Z) a l :
  NoDup l → (∀ x, x ∈ l → in_use (f x) a) →
  (∀ x y, x ∈ l → y ∈ l → x ≠ y → (list_to_set (f x) : gset Z) ## list_to_set (f y)) →
  in_use (concat (map f l)) a.
Proof.
  induction 1 as [|x l Hx Hnd IH]; intros Hu Hd; cbn [map concat].
  { split; [constructor|]. split; [constructor|]. simpl. set_solver. }
  destruct IH as (Hn & Hp & Hf).
  { intros y Hy. apply Hu. by constructor. }
  { intros y z Hy Hz. apply Hd; by constructor. }
  destruct (Hu x) as (Hn1 & Hp1 & Hf1); [constructor|]. split; [|split].
  - apply NoDup_app. split; [done|]. split; [|done]. intros s Hs (y & Hy & Hsy)%elem_of_concat_map.
    assert (x ≠ y) as Hxy by (intros ->; done).
    assert ((list_to_set (f x) : gset Z) ## list_to_set (f y)) as Hdis
      by (apply Hd; [constructor|by constructor|done]).
    rewrite elem_of_disjoint in Hdis. apply (Hdis s); by apply elem_of_list_to_set.
  - by apply Forall_app.
  - rewrite list_to_set_app. set_solver.
Qed.

Lemma row_slots_same t q0 q : same_row q0 q → row_slots t q = row_slots t q0.
Proof.
  intros (_ & Hi & Ha & _ & Hc). unfold row_slots, held_len. by rewrite Hi, Ha, Hc.
Qed.

Lemma sum_Z_submseteq {B} (f : B → Z) l k :
  l ⊆+ k → (∀ x, x ∈ k → 0 ≤ f x) → sum_Z (map f l) ≤ sum_Z (map f k).
Proof.
  intros (k' & Hk)%submseteq_Permutation Hf. rewrite (sum_Z_perm (map f k) (map f (l ++ k'))).
  2:{ by apply Permutation_map. }
  rewrite map_app, sum_Z_app.
  assert (∀ x, x ∈ k' → 0 ≤ f x) as Hpos by (intros x Hx; apply Hf; rewrite Hk; set_solver).
  clear Hk Hf. induction k' as [|x k' IH]; cbn [map sum_Z foldr]; [unfold sum_Z; simpl; lia|].
  assert (0 ≤ f x) by (apply Hpos; constructor).
  unfold sum_Z in *. cbn [foldr]. specialize (IH (fun y Hy => Hpos y (list_elem_of_further _ _ _ Hy))). lia.
Qed.

Lemma zlength_concat_map {B} (f : B → list Z) l :
  zlength (concat (map f l)) = sum_Z (map (fun x => zlength (f x)) l).
Proof. apply sum_Z_concat, Forall_forall. done. Qed.

Lemma map_snd_fmap {B C D} (f : C → D) (l : list (B * C)) : map f l.*2 = map (fun p => f p.2) l.
Proof. induction l as [|x l IH]; [done|]. cbn. by rewrite <- IH. Qed.

Lemma map_fst_fmap {B C} (l : list (B * C)) : map fst l = l.*1.
Proof. induction l as [|x l IH]; [done|]. cbn. by rewrite <- IH. Qed.

(** The rows that went back with the failed requests: those of the placed objects, each once. *)
Record rows_freed (l : list (string * pyexn)) (m m' : Moss) (qs : list (nat * ReqObj)) : Prop := {
  rf_nodup : NoDup qs.*1;
  rf_in : ∀ oid, oid ∈ qs.*1 ↔ owned m l.*1 oid = true ∧ placed m oid ∧ holding (m_omni m) oid = true;
  rf_rows : ∀ p, p ∈ qs → ∃ q0, req_at m p.1 = Some q0 ∧
    row_slots (kp_table (o_pool (m_omni m))) p.2 = row_slots (kp_table (o_pool (m_omni m))) q0 ∧
    placed m p.1 ∧ holding (m_omni m) p.1 = true;
  rf_used : in_use (concat (map (fun p => row_slots (kp_table (o_pool (m_omni m))) p.2) qs))
    (kp_allocator (o_pool (m_omni m)));
  rf_table : kp_table (o_pool (m_omni m')) = kp_table (o_pool (m_omni m));
  rf_free : free_slots (kp_allocator (o_pool (m_omni m'))) = free_slots (kp_allocator (o_pool (m_omni m)))
    ∪ list_to_set (concat (map (fun p => row_slots (kp_table (o_pool (m_omni m))) p.2) qs))
}.

Lemma rows_freed_of l m m' :
  rows_apart m → all_failed H l m m' → ∃ qs, rows_freed l m m' qs.
Proof.
  intros Hrows Ha. destruct (af_rows _ _ _ _ Ha) as (qs & Hnd & Hqs & Hsame & Hpool).
  set (T := kp_table (o_pool (m_omni m))). set (A := kp_allocator (o_pool (m_omni m))).
  set (f := fun p : nat * ReqObj => row_slots T p.2).
  assert (∀ p, p ∈ qs → ∃ q0, req_at m p.1 = Some q0 ∧ f p = row_slots T q0 ∧ placed m p.1 ∧
    holding (m_omni m) p.1 = true) as Hq.
  { intros p Hp. pose proof Hsame as Hs. rewrite Forall_forall in Hs.
    destruct (Hs p Hp) as (q0 & Hq0 & Hr). exists q0. split; [done|].
    split; [by apply row_slots_same|].
    destruct (proj1 (Hqs p.1)) as (_ & ? & ?); [apply list_elem_of_fmap; by exists p|]. done. }
  assert (in_use (concat (map f qs)) A) as Hu.
  { apply concat_in_use.
    - by eapply NoDup_fmap_1.
    - intros p Hp. destruct (Hq p Hp) as (q0 & Hq0 & -> & Hpl & _).
      by apply (ra_used _ Hrows p.1).
    - intros p p' Hp Hp' Hne. destruct (Hq p Hp) as (q0 & Hq0 & -> & Hpl & _).
      destruct (Hq p' Hp') as (q1 & Hq1 & -> & Hpl' & _).
      apply (ra_apart _ Hrows p.1 p'.1); [done|done| |done|done].
      intros E. apply Hne. destruct p as [o q], p' as [o' q']. simpl in E. subst o'.
      f_equal.
      assert (od_wf qs) as Hwf by (unfold od_wf, od_keys; by rewrite map_fst_fmap).
      apply (od_elem_get _ _ _ Hwf) in Hp. apply (od_elem_get _ _ _ Hwf) in Hp'. congruence. }
  destruct (give_back_frees qs.*2 (o_pool (m_omni m))) as [Htable Hfree].
  { rewrite map_snd_fmap. exact Hu. }
  rewrite <- Hpool, map_snd_fmap in Hfree. rewrite <- Hpool in Htable. by exists qs.
Qed.

(** What the pool counts free once the requests failed: at least what they had committed. *)
Lemma freed_enough l m m' vo :
  rows_apart m → all_failed H l m m' → NoDup vo →
  (∀ oid, oid ∈ vo → owned m l.*1 oid = true ∧ placed m oid ∧ holding (m_omni m) oid = true) →
  let free s := Z.of_nat (size (free_slots (kp_allocator (o_pool (m_omni s))))) in
  free m + sum_Z (map (realtime_kv_cost m) vo) ≤ free m'.
Proof.
  intros Hrows Ha Hvo Hin free. destruct (rows_freed_of l m m' Hrows Ha) as (qs & [_ Hqs Hq Hu _ Hfree]).
  unfold free. rewrite (freed_size _ _ _ Hu Hfree), zlength_concat_map.
  apply Zplus_le_compat_l.
  trans (sum_Z (map (realtime_kv_cost m) qs.*1)).
  - apply sum_Z_submseteq.
    + apply NoDup_submseteq; [done|]. intros oid Ho%Hin. by apply Hqs.
    + intros oid (p & -> & Hp)%list_elem_of_fmap. destruct (Hq p Hp) as (q0 & Hq0 & _ & Hpl & Hh).
      unfold realtime_kv_cost. rewrite Hq0. by apply (ra_wide _ Hrows p.1).
  - rewrite <- map_fst_fmap, map_map. clear -Hq Hrows. revert Hq.
    induction qs as [|p qs IH]; intros Hq; [done|]. unfold sum_Z in *. cbn [map foldr].
    apply Z.add_le_mono; [|apply IH; intros p' Hp'; apply Hq; by constructor].
    destruct (Hq p) as (q0 & Hq0 & -> & Hpl & Hh); [constructor|].
    unfold realtime_kv_cost. rewrite Hq0. by apply (ra_wide _ Hrows p.1).
Qed.

(** ** The rows of the others *)

Lemma own_rows_apart rids m m1 : own_steps rids m m1 → rows_apart m → rows_apart m1.
Proof.
  intros Hs [R1 R2 R3].
  assert (o_pool (m_omni m1) = o_pool (m_omni m)) as Hp by apply (own_same _ _ _ Hs).
  assert (∀ oid q1, req_at m1 oid = Some q1 → ∃ q, req_at m oid = Some q ∧ same_row q q1) as Hq.
  { intros oid q1 Hq1. destruct (req_at m oid) as [q|] eqn:Hq.
    - destruct (os_own _ _ _ Hs oid q Hq) as (q1' & Hq1' & Hr & _). exists q.
      by replace q1 with q1' by congruence.
    - pose proof (own_rids _ _ _ Hs oid) as Hx. unfold req_at in *. by rewrite Hq1, Hq in Hx. }
  constructor.
  - intros oid q1 Hpl%(own_placed _ _ _ Hs) Hq1. destruct (Hq oid q1 Hq1) as (q & Hq0 & Hr).
    rewrite Hp, (row_slots_same _ _ _ Hr). by apply (R1 oid).
  - intros oid q1 Hpl%(own_placed _ _ _ Hs) Hq1 Hh. destruct (Hq oid q1 Hq1) as (q & Hq0 & Hr).
    rewrite Hp, (row_slots_same _ _ _ Hr).
    replace (committed_kv (req_state q1)) with (committed_kv (req_state q))
      by (symmetry; apply Hr). apply (R2 oid); [done..|]. by rewrite <- (own_holding _ _ _ Hs).
  - intros o o' q1 q1' H1%(own_placed _ _ _ Hs) H2%(own_placed _ _ _ Hs) Hne Hq1 Hq1'.
    destruct (Hq o q1 Hq1) as (q & Hq0 & Hr), (Hq o' q1' Hq1') as (q' & Hq0' & Hr').
    rewrite Hp, (row_slots_same _ _ _ Hr), (row_slots_same _ _ _ Hr'). by apply (R3 o o').
Qed.

(** What is still placed after the failures was placed before, and is none of theirs. *)
Lemma failed_placed l m m' oid :
  all_failed H l m m' → placed m' oid → owned m l.*1 oid = false ∧ placed m oid.
Proof.
  intros Ha (q & Hq & Hor).
  assert (owned m' l.*1 oid = owned m l.*1 oid) as Hown by apply owned_same, Ha.
  assert (owned m l.*1 oid = false) as Ho.
  { destruct Hor as [Hb|Hp].
    - apply batch_oids_iff in Hb as (bid & Hbid & Ho).
      rewrite (slots_batch_slots _ _ (af_slots _ _ _ _ Ha)) in Hbid.
      rewrite (af_batches _ _ _ _ Ha), bool_decide_true in Ho by done.
      apply elem_of_lfilter in Ho as [_ Ho]. by apply negb_true_iff.
    - rewrite (af_parked _ _ _ _ Ha) in Hp. rewrite <- Hown. unfold owned. rewrite Hq.
      apply bool_decide_eq_false. intros Hin. by rewrite od_get_filter_out in Hp. }
  split; [done|]. apply (later_placed H l m m' Ha); [done|]. by exists q.
Qed.

Lemma failed_rows_apart l m m' : rows_apart m → all_failed H l m m' → rows_apart m'.
Proof.
  intros Hrows Ha. destruct (rows_freed_of l m m' Hrows Ha) as (qs & [_ Hqs Hq _ Htable Hfree]).
  pose proof Hrows as [R1 R2 R3].
  assert (∀ oid q, placed m' oid → req_at m' oid = Some q → owned m l.*1 oid = false ∧ placed m oid ∧
    req_at m oid = Some q) as Hpl.
  { intros oid q Hp Hq'. destruct (failed_placed l m m' oid Ha Hp) as [Ho Hpm]. split; [done|].
    split; [done|]. by rewrite <- (af_others _ _ _ _ Ha). }
  constructor; rewrite ?Htable.
  - intros oid q Hp Hqo. destruct (Hpl oid q Hp Hqo) as (Ho & Hpm & Hqm).
    destruct (R1 oid q Hpm Hqm) as (Hnd & Hpos & Hdis). split; [done|]. split; [done|].
    rewrite Hfree. apply disjoint_union_r. split; [done|]. intros x Hx Hx2.
    apply elem_of_list_to_set, elem_of_concat_map in Hx2 as (p & Hp2 & Hxp).
    destruct (Hq p Hp2) as (q0 & Hq0 & Hr & Hpp & _). rewrite Hr in Hxp.
    assert (p.1 ≠ oid) as Hne.
    { intros <-. assert (p.1 ∈ qs.*1) as (Ho1 & _)%Hqs by (apply list_elem_of_fmap; by exists p).
      congruence. }
    apply (R3 p.1 oid q0 q Hpp Hpm Hne Hq0 Hqm x); [by apply elem_of_list_to_set|done].
  - intros oid q Hp Hqo Hh. destruct (Hpl oid q Hp Hqo) as (Ho & Hpm & Hqm).
    apply (R2 oid); [done|done|]. unfold holding in *. unfold req_at in *. by rewrite Hqm, Hqo in *.
  - intros o o' q q' Hp Hp' Hne Hqo Hqo'.
    destruct (Hpl o q Hp Hqo) as (_ & Hpm & Hqm), (Hpl o' q' Hp' Hqo') as (_ & Hpm' & Hqm').
    by apply (R3 o o').
Qed.

(** ** Live requests *)

(** Every entry of the live dictionary is the request it names, running or parked. *)
Definition live_ok (m : Moss) (d : list (string * nat)) : Prop :=
  od_wf d ∧ ∀ rid oid, (rid, oid) ∈ d →
    rid_of m oid = rid ∧ (oid ∈ running_reqs m ∨ oid ∈ map snd (m_parked_reqs m)).

Lemma live_requests_ok m : live_ok m (live_requests m).
Proof.
  unfold live_requests.
  assert (∀ l d, live_ok m d → (∀ oid, oid ∈ l → oid ∈ running_reqs m) →
    live_ok m (foldl (fun d oid => od_set (rid_of m oid) oid d) d l)) as Hset.
  { induction l as [|o l IH]; intros d Hd Hl; [done|]. cbn [foldl].
    apply IH; [|intros oid Ho; apply Hl; by constructor].
    destruct Hd as [Hwf Hd]. split; [by apply od_set_wf|].
    intros rid oid [[= -> ->]|Hp]%od_set_or; [|by apply Hd].
    split; [done|]. left. apply Hl. constructor. }
  assert (∀ l d, live_ok m d → (∀ oid, oid ∈ l → oid ∈ map snd (m_parked_reqs m)) →
    live_ok m (foldl (fun d oid => od_setdefault (rid_of m oid) oid d) d l)) as Hdef.
  { induction l as [|o l IH]; intros d Hd Hl; [done|]. cbn [foldl].
    apply IH; [|intros oid Ho; apply Hl; by constructor].
    destruct Hd as [Hwf Hd]. split; [by apply od_setdefault_wf|].
    intros rid oid [[= -> ->]|Hp]%od_setdefault_or; [|by apply Hd].
    split; [done|]. right. apply Hl. constructor. }
  apply Hdef; [|done]. apply Hset; [|done]. split; [constructor|].
  intros rid oid Hx. by apply not_elem_of_nil in Hx.
Qed.

Lemma live_placed m rid oid :
  moss_ok m → od_get rid (live_requests m) = Some oid → holding (m_omni m) oid = true →
  placed m oid ∧ rid_is (m_omni m) rid oid = true.
Proof.
  intros Hok Hget Hhold. destruct (live_requests_ok m) as [_ Hl].
  destruct (Hl rid oid (od_get_elem _ _ _ Hget)) as [Hr Hw].
  unfold holding in Hhold. destruct (o_reqs (m_omni m) !! oid) as [q|] eqn:Hq; [|done].
  unfold rid_of, req_at in Hr. rewrite Hq in Hr. split; [|unfold rid_is; by rewrite Hq, bool_decide_true].
  exists q. split; [done|]. destruct Hw as [Hw|Hw].
  - left. apply batch_oids_iff. unfold running_reqs in Hw.
    destruct (o_running_batch (m_omni m)) as [bid|] eqn:Eb; [|by apply not_elem_of_nil in Hw].
    exists bid. split; [|exact Hw]. unfold batch_slots. rewrite Eb. simpl. constructor.
  - right. apply list_elem_of_In, in_map_iff in Hw as ([k o] & Ho & Hin). simpl in Ho. subst o.
    apply list_elem_of_In, (od_elem_get _ _ _ (ok_parked_wf _ Hok)) in Hin.
    destruct (ok_parked _ Hok k oid Hin) as [(q' & Hq' & <-)%rid_is_true _].
    by replace q with q' by congruence.
Qed.

(** ** Staged requests *)

(** The request carries the append of its entry's segment. *)
Definition staged (m : Moss) (en : Entry) : Prop :=
  ∃ q r r1 recs, req_at m (entry_req en) = Some q ∧ clean r ∧
    append_segment_to_request env_fill_ids env_extend_range (entry_segment en) r = (Ok tt, r1) ∧
    stage_frame_records recs r1 = (Ok tt, e_req (q_ext q)).

(** The request of a staged entry before its append, with the decode allowance the append
    derived for it. *)
Definition before_append (m : Moss) (en : Entry) (r' : Req (Segment Pixels) Range) : Prop :=
  ∃ q r r1 recs a, req_at m (entry_req en) = Some q ∧ clean r ∧
    append_segment_to_request env_fill_ids env_extend_range (entry_segment en) r = (Ok tt, r1) ∧
    stage_frame_records recs r1 = (Ok tt, e_req (q_ext q)) ∧
    (r_decode_allowance (x_state r) = Some a ∨ r_decode_allowance (x_state r) = None) ∧
    r' = refreshed env_fill_ids r <| x_state := x_state r <| r_decode_allowance := Some a |> |>.

(** The object of the entry is, but for its phase and accounting record, the request before the
    append. *)
Definition unappended (m m' : Moss) (en : Entry) : Prop :=
  ∃ r' q', before_append m en r' ∧ req_at m' (entry_req en) = Some q' ∧
    at_rest (e_req (q_ext q')) = at_rest r'.

Lemma staged_undo m en :
  staged m en → ∃ q r', req_at m (entry_req en) = Some q ∧
    undo_appended_segment env_fill_ids (entry_segment en) (e_req (q_ext q)) = (Ok tt, r') ∧
    same_kv (req_state q) (x_state r') ∧ before_append m en r'.
Proof.
  intros (q & r & r1 & recs & Hq & Hc & Ha & Hs).
  destruct (undo_append env_fill_ids env_extend_range _ recs r r1 (e_req (q_ext q)) Hc Ha Hs)
    as (a & Hal & Hu).
  exists q. eexists. split; [done|]. split; [exact Hu|].
  split; [|by exists q, r, r1, recs, a].
  apply append_Ok in Ha as (t & dicts & a' & row & _ & _ & _ & _ & Hr1); [|done].
  assert (x_state (e_req (q_ext q)) = x_state r1) as Hst.
  { destruct recs; injection Hs as <-; reflexivity. }
  unfold req_state. rewrite Hst, Hr1. done.
Qed.

Lemma on_req_own {B} rid oid (f : M (Req (Segment Pixels) Range) B) m q r x :
  rid_is (m_omni m) rid oid = true → req_at m oid = Some q → f (e_req (q_ext q)) = (r, x) →
  same_kv (req_state q) (x_state x) →
  ∃ m', on_req oid f m = (r, m') ∧ own_steps [rid] m m' ∧
    req_at m' oid = Some (q <| q_ext := q_ext q <| e_req := x |> |>).
Proof.
  intros Hr Hq Hf Hkv. unfold on_req. erewrite moss_bind_run by reflexivity. rewrite Hq, Hf.
  erewrite moss_bind_run by (by apply on_omni_run). eexists. split; [reflexivity|]. split.
  - constructor; [by destruct m as [[]]|done| |].
    + intros oid' Hr'. unfold req_at. fields. rewrite lookup_alter_ne; [done|]. intros <-.
      apply owned_one in Hr. congruence.
    + intros oid' q' Hq'. unfold req_at in *. fields. destruct (decide (oid' = oid)) as [->|Hne].
      * rewrite lookup_alter_eq, Hq. simpl. eexists. split; [done|].
        replace q' with q by congruence. done.
      * rewrite lookup_alter_ne by done. exists q'. done.
  - unfold req_at in *. fields. by rewrite lookup_alter_eq, Hq.
Qed.

Lemma staged_lookup m selected rid oid segment :
  od_get rid (staged_by_rid m selected) = Some (oid, segment) →
  ∃ en, en ∈ selected ∧ entry_req en = oid ∧ entry_segment en = segment ∧ rid_of m oid = rid.
Proof.
  unfold staged_by_rid. intros Hget%od_get_elem. revert Hget.
  assert (∀ l d, (∀ k o sg, (k, (o, sg)) ∈ d → ∃ en, en ∈ selected ∧ entry_req en = o ∧
      entry_segment en = sg ∧ rid_of m o = k) → (∀ en, en ∈ l → en ∈ selected) →
    (rid, (oid, segment)) ∈ foldl (fun d en =>
        od_set (rid_of m (entry_req en)) (entry_req en, entry_segment en) d) d l →
    ∃ en, en ∈ selected ∧ entry_req en = oid ∧ entry_segment en = segment ∧ rid_of m oid = rid) as Hgen.
  { induction l as [|en l IH]; intros d Hd Hl; cbn [foldl]; [by apply Hd|].
    apply IH; [|intros en' He; apply Hl; by constructor].
    intros k o sg [[= -> -> ->]|Hp]%od_set_or; [|by apply Hd].
    exists en. split; [|done]. apply Hl. constructor. }
  apply Hgen; [|done]. intros k o sg Hx. by apply not_elem_of_nil in Hx.
Qed.

Lemma staged_by_rid_mem m selected en :
  en ∈ selected → is_Some (od_get (rid_of m (entry_req en)) (staged_by_rid m selected)).
Proof.
  unfold staged_by_rid. generalize (@nil (string * (nat * Segment Pixels))).
  assert (∀ l d k, is_Some (od_get k d) → is_Some (od_get k (foldl (fun d en =>
    od_set (rid_of m (entry_req en)) (entry_req en, entry_segment en) d) d l))) as Hkeep.
  { induction l as [|en' l IH]; intros d k Hk; [done|]. cbn [foldl]. apply IH.
    destruct (decide (k = rid_of m (entry_req en'))) as [->|Hne].
    - rewrite od_get_set. by eexists.
    - by rewrite od_get_set_ne. }
  induction selected as [|en' l IH]; intros d; [by intros ?%not_elem_of_nil|].
  intros [->|Hin]%elem_of_cons; cbn [foldl]; [|by apply IH].
  apply Hkeep. rewrite od_get_set. by eexists.
Qed.

(** The un-append of an entry's request, wherever its objects are those of [m]. *)
Lemma undo_entry_run m selected en m1 :
  (∀ en, en ∈ selected → staged m en) → en ∈ selected →
  od_get (rid_of m (entry_req en)) (staged_by_rid m selected) = Some (entry_req en, entry_segment en) →
  (∀ oid, rid_is (m_omni m) (rid_of m (entry_req en)) oid = true → req_at m1 oid = req_at m oid) →
  ∃ m2 q' r', undo_staged (staged_by_rid m selected) (rid_of m (entry_req en)) m1 = (Ok tt, m2) ∧
    own_steps [rid_of m (entry_req en)] m1 m2 ∧ before_append m en r' ∧
    req_at m2 (entry_req en) = Some q' ∧ e_req (q_ext q') = r'.
Proof.
  intros Hst Hen Eg Hsame. unfold undo_staged. rewrite Eg.
  destruct (staged_undo m en (Hst en Hen)) as (q & x & Hq & Hu & Hkv & Hb).
  assert (rid_is (m_omni m) (rid_of m (entry_req en)) (entry_req en) = true) as Hr.
  { unfold rid_of, rid_is. unfold req_at in *. rewrite Hq. by apply bool_decide_eq_true. }
  specialize (Hsame _ Hr). rewrite Hq in Hsame.
  destruct (on_req_own (rid_of m (entry_req en)) (entry_req en)
    (undo_appended_segment env_fill_ids (entry_segment en)) m1 q (Ok tt) x)
    as (m2 & E & Ho & Hq2); [|done..|].
  - unfold rid_is, req_at in *. rewrite Hsame. rewrite Hq in Hr. exact Hr.
  - eexists m2, _, x. split; [exact E|]. split; [exact Ho|]. split; [exact Hb|].
    split; [exact Hq2|]. reflexivity.
Qed.

Lemma undo_staged_runs m selected rid :
  (∀ en, en ∈ selected → staged m en) → pre_runs (undo_staged (staged_by_rid m selected)) m rid.
Proof.
  intros Hst m1 Hsame.
  destruct (od_get rid (staged_by_rid m selected)) as [[oid segment]|] eqn:Eg.
  - pose proof Eg as (en & Hen & <- & <- & <-)%staged_lookup.
    destruct (undo_entry_run m selected en m1 Hst Hen Eg Hsame) as (m2 & q' & r' & E & Ho & _).
    by exists m2.
  - exists m1. unfold undo_staged. rewrite Eg. split; [done|]. apply own_steps_refl.
Qed.

(** What stays of the request of a victim's entry. *)
Lemma undone m m' selected en :
  (∀ en, en ∈ selected → staged m en) →
  (∀ en', en' ∈ selected → rid_of m (entry_req en') = rid_of m (entry_req en) →
     entry_req en' = entry_req en) →
  en ∈ selected →
  step_stays (undo_staged (staged_by_rid m selected)) m m' (rid_of m (entry_req en)) →
  ∃ en', en' ∈ selected ∧ entry_req en' = entry_req en ∧ unappended m m' en'.
Proof.
  intros Hst Huniq Hen (m1 & m2 & Hsame & E & Hbody).
  destruct (staged_by_rid_mem m selected en Hen) as [[oid segment] Eg].
  pose proof Eg as (en' & Hen' & <- & <- & Hr)%staged_lookup.
  pose proof (Huniq en' Hen' Hr) as Hreq. rewrite <- Hr in *.
  destruct (undo_entry_run m selected en' m1 Hst Hen' Eg Hsame)
    as (m2' & q2 & r' & E2 & _ & Hb & Hq2 & Hr2).
  replace m2' with m2 in * by congruence.
  exists en'. split; [done|]. split; [done|]. exists r'.
  assert (rid_is (m_omni m) (rid_of m (entry_req en')) (entry_req en') = true) as Hri.
  { destruct Hb as (q & _ & _ & _ & _ & Hq & _). unfold rid_of, rid_is. unfold req_at in *.
    rewrite Hq. by apply bool_decide_eq_true. }
  specialize (Hbody _ Hri). unfold body_at in Hbody. rewrite Hq2 in Hbody.
  destruct (req_at m' (entry_req en')) as [q'|] eqn:Hq'; [|done]. exists q'.
  split; [done|]. split; [done|]. rewrite <- Hr2. by apply (inj Some).
Qed.

(** ** The guarantee *)

(** What planning establishes before it calls the budget. *)
Record budget_ready (m : Moss) (selected : list Entry) : Prop := {
  br_ok : moss_ok m;
  br_rows : rows_apart m;
  br_live : ∀ rid oid, od_get rid (live_requests m) = Some oid →
    holding (m_omni m) oid = true ∧ not_launched m rid;
  br_selected : ∀ en, en ∈ selected →
    od_get (rid_of m (entry_req en)) (live_requests m) = Some (entry_req en) ∧ staged m en
}.

Lemma selected_live m selected :
  (∀ en, en ∈ selected → od_get (rid_of m (entry_req en)) (live_requests m) = Some (entry_req en)) →
  foldl (fun d en => od_setdefault (rid_of m (entry_req en)) (entry_req en) d) (live_requests m)
    selected = live_requests m.
Proof.
  generalize (live_requests m). intros live. induction selected as [|en l IH]; intros Hs; [done|].
  cbn [foldl]. unfold od_setdefault at 2. unfold od_mem. rewrite (Hs en) by constructor.
  apply IH. intros en' He. apply Hs. by constructor.
Qed.

(** The slots the pool counts free. *)
Definition free_count (m : Moss) : Z :=
  Z.of_nat (size (free_slots (kp_allocator (o_pool (m_omni m))))).

Definition evictions (victims : list string) : list (string * pyexn) :=
  map (fun rid => (rid, pool_exhausted)) victims.

Lemma evictions_fst victims : (evictions victims).*1 = victims.
Proof. induction victims as [|rid l IH]; [done|]. cbn. f_equal. exact IH. Qed.

Lemma evicted_rids victims :
  map out_rid (map (fun p => OError p.1 p.2) (evictions victims)) = victims.
Proof. induction victims as [|rid l IH]; [done|]. cbn. f_equal. exact IH. Qed.

Context (Hcount : counts_free) (Hlaw : moss_release_law H) (Hentry : h_is_entry_rank H = true).

Lemma enforce_run m selected :
  budget_ready m selected →
  let victims := choose_victims m (length (live_requests m)) (live_requests m) (free_count m) selected in
  ∃ m', enforce_extend_memory_budget H MH selected m = (Ok (survivors m victims selected), m') ∧
    chosen m (live_requests m) (free_count m) selected victims ∧
    all_failed H (evictions victims) m m' ∧
    ∀ en, en ∈ selected → rid_of m (entry_req en) ∈ victims →
      ∃ en', en' ∈ selected ∧ entry_req en' = entry_req en ∧ unappended m m' en'.
Proof.
  intros [Hok Hrows Hlive Hsel] victims.
  assert (chosen m (live_requests m) (free_count m) selected victims) as Hch.
  { apply choose_victims_chosen; [apply live_requests_ok|done|].
    intros en He. eapply od_get_key. by apply Hsel. }
  assert (∀ rid, rid ∈ victims → not_launched m rid) as Hn.
  { intros rid Hr%(ch_live _ _ _ _ _ Hch). apply od_mem_true in Hr. unfold od_mem in Hr.
    destruct (od_get rid (live_requests m)) eqn:E; [|done]. by apply (Hlive rid n). }
  destruct (fail_after_run H MH Hlaw Hentry (undo_staged (staged_by_rid m selected))
    (evictions victims) m Hok) as (m' & E & Ha & Hst).
  { rewrite evictions_fst. apply Hch. }
  { rewrite evictions_fst. intros rid Hr. split; [by apply Hn|].
    apply undo_staged_runs. intros en He. by apply Hsel. }
  exists m'. split; [|split; [done|]; split; [done|]].
  2:{ rewrite evictions_fst in Hst. intros en Hen Hr. apply (undone m m' selected en).
      - intros en' He. by apply Hsel.
      - intros en' He Hre. destruct (Hsel en Hen) as [E1 _], (Hsel en' He) as [E2 _]. congruence.
      - done.
      - by apply Hst. }
  unfold enforce_extend_memory_budget. erewrite moss_bind_run by reflexivity.
  rewrite Hcount, selected_live by (intros en He; by apply Hsel). fold (free_count m). fold victims.
  unfold fail_after, evictions in E. rewrite mforeach_map in E. cbn [fst snd] in E.
  rewrite (moss_bind_run _ _ _ _ _ E). done.
Qed.

Lemma victims_freed m selected victims m' :
  budget_ready m selected → chosen m (live_requests m) (free_count m) selected victims →
  all_failed H (evictions victims) m m' →
  free_count m + victims_cost m (live_requests m) victims ≤ free_count m'.
Proof.
  intros [Hok Hrows Hlive Hsel] Hch Ha.
  set (live := live_requests m) in *.
  set (oid_of := fun rid => default 0%nat (od_get rid live)).
  assert (∀ rid, rid ∈ victims → od_get rid live = Some (oid_of rid) ∧ placed m (oid_of rid) ∧
    rid_is (m_omni m) rid (oid_of rid) = true ∧ holding (m_omni m) (oid_of rid) = true) as Hv.
  { intros rid Hr%(ch_live _ _ _ _ _ Hch). apply od_mem_true in Hr. unfold od_mem in Hr.
    unfold oid_of. destruct (od_get rid live) as [oid|] eqn:E; [|done]. simpl.
    destruct (Hlive rid oid E) as [Hh _]. destruct (live_placed m rid oid Hok E Hh). done. }
  replace (victims_cost m live victims) with (sum_Z (map (realtime_kv_cost m) (map oid_of victims))).
  - apply (freed_enough (evictions victims)); [done|done| |].
    + apply NoDup_map_in; [|apply Hch]. intros r1 r2 H1 H2 Heq.
      destruct (Hv r1 H1) as (_ & _ & Hr1 & _), (Hv r2 H2) as (_ & _ & Hr2 & _).
      rewrite Heq in Hr1. apply rid_is_true in Hr1 as (q1 & Hq1 & <-), Hr2 as (q2 & Hq2 & <-).
      congruence.
    + intros oid Ho. apply list_elem_of_In, in_map_iff in Ho as (rid & <- & Hr%list_elem_of_In).
      destruct (Hv rid Hr) as (_ & Hp & Hri & Hh). split; [|done]. rewrite evictions_fst.
      apply rid_is_true in Hri as (q & Hq & <-). unfold owned, req_at. rewrite Hq.
      by apply bool_decide_eq_true.
  - unfold victims_cost. rewrite map_map. f_equal. apply map_ext_in.
    intros rid Hr%list_elem_of_In. unfold victim_cost. by rewrite (proj1 (Hv rid Hr)).
Qed.
End Fit.

(** C10: The memory budget keeps its promise before the extend batch allocates: the victims are
    distinct live sessions, each at least as heavy as every survivor and none evicted once the
    rest fits; each is reported and released; the request of an evicted entry is left, but for
    its phase and accounting record, as it was before its append; nobody else is touched, the
    survivors stay staged, and their extends fit the free slots, or none survives. *)
Theorem extend_budget_holds `{ME : MossEnv} {Out} H (MH : MossHooks (Out := Out)) m selected :
  release_frees H → counts_free → moss_release_law H → h_is_entry_rank H = true →
  budget_ready m selected →
  ∃ victims m', enforce_extend_memory_budget H MH selected m = (Ok (survivors m victims selected), m') ∧
    chosen m (live_requests m) (free_count m) selected victims ∧
    all_failed H (evictions victims) m m' ∧
    (∀ en, en ∈ selected → rid_of m (entry_req en) ∈ victims →
       ∃ en', en' ∈ selected ∧ entry_req en' = entry_req en ∧ unappended m m' en') ∧
    (survivors m victims selected = [] ∨
     ∃ n, available_size (kp_allocator (o_pool (m_omni m'))) = Some n ∧
       needed (survivors m victims selected) ≤ n) ∧
    ∀ en, en ∈ survivors m victims selected → staged m' en.
Proof.
  intros Hfrees Hcount Hlaw Hentry Hr.
  destruct (enforce_run H MH Hcount Hlaw Hentry m selected Hr) as (m' & E & Hch & Ha & Hun).
  eexists _, m'. split; [exact E|]. split; [exact Hch|]. split; [exact Ha|]. split; [exact Hun|].
  split.
  - pose proof (victims_freed H Hfrees m selected _ m' Hr Hch Ha) as Hf.
    destruct (ch_fits _ _ _ _ _ Hch) as [Hx|Hx]; [by left|right].
    exists (free_count m'). split; [apply Hcount|]. lia.
  - intros en [Hen Hv]%elem_of_lfilter. destruct (br_selected _ _ Hr en Hen) as [_ Hst].
    destruct Hst as (q & r & r1 & recs & Hq & Hrest). exists q, r, r1, recs. split; [|done].
    rewrite (af_others _ _ _ _ Ha); [done|]. rewrite evictions_fst. unfold owned. rewrite Hq.
    unfold not_victim, rid_of in Hv. rewrite Hq in Hv. by apply negb_true_iff in Hv.
Qed.

(** ** Witness *)

#[local] Existing Instance demo_env.

(** Session [a] before it is extended, with its row bound. *)
Definition demo_before : Req (Segment unit) (Z * Z) :=
  demo_session "a" 0 2 DECODING <| x_page_row := Some [4; 5; 0; 0; 0; 0] |>.

Definition demo_staged : Req (Segment unit) (Z * Z) :=
  (append_segment_to_request app pair demo_append demo_before).2.

(** The object of [a] with its realtime half replaced, and the demonstration state with it. *)
Definition demo_a (x : Req (Segment unit) (Z * Z)) : ReqObj :=
  demo_object "a" 0 0 2 DECODING
    <| q_ext := {| e_req := x; e_kv_allocated_len := Some 2; e_kv_committed_len := 2;
                   e_keep_ignore_eos := false |} |>.

Definition demo_with (qa : ReqObj) (sessions : gmap string Session) : Moss :=
  demo_moss <| m_omni := demo_omni <| o_reqs :=
    {[0%nat := qa; 1%nat := demo_object "b" 1 1 3 WAITING_FOR_EVENT]} |> |>
    <| m_sessions := sessions |>.

(** The demonstration state with the append of [a] staged: it needs five slots of three. *)
Definition demo_tight : Moss := demo_with (demo_a demo_staged) (m_sessions demo_moss).

Definition demo_selected : list Entry := [(0%nat, sg_events demo_append, demo_append)].

Lemma demo_release_frees : release_frees demo_hooks.
Proof.
  intros q pool (_ & Hp & _). cbn. unfold row_slots, held_len in *.
  destruct (q_req_pool_idx q) as [i|]; [|split; [done|set_solver]]. split; [done|]. fields.
  unfold positive_part. rewrite Forall_forall in Hp. apply set_eq. intros x.
  specialize (Hp x). set_solver.
Qed.

Lemma demo_in_use l : l = [4; 5] ∨ l = [6; 7; 8] → in_use l (kp_allocator (o_pool demo_omni)).
Proof.
  change (kp_allocator (o_pool demo_omni)) with ({[ 1; 2; 3 ]} : gset Z).
  assert (@free_slots Alloc env_allocator ({[ 1; 2; 3 ]} : gset Z) = ({[ 1; 2; 3 ]} : gset Z)) as Hf
    by by vm_compute.
  intros [->| ->]; (split; [by apply (bool_decide_unpack _); vm_compute|]);
    (split; [by repeat (apply Forall_cons; split; [done|])|]); rewrite Hf; set_solver by lia.
Qed.

Section DemoWith.
Context (qa : ReqObj) (sessions : gmap string Session).
Context (Hslots : row_slots (kp_table (o_pool demo_omni)) qa = [4; 5]).
Context (Hcommitted : committed_kv (req_state qa) = 2) (Hrid : q_rid qa = "a") (Hdata : q_data qa = Some 0%nat).

Lemma demo_with_objects oid q :
  req_at (demo_with qa sessions) oid = Some q →
  oid = 0%nat ∧ q = qa ∨ oid = 1%nat ∧ q = demo_object "b" 1 1 3 WAITING_FOR_EVENT.
Proof.
  unfold req_at, demo_with. fields. rewrite lookup_insert.
  case_decide as E; [intros [= <-]; left; by subst oid|].
  rewrite lookup_singleton. case_decide; [|done]. intros [= <-]. right. by subst oid.
Qed.

Lemma demo_with_ok : moss_ok (demo_with qa sessions).
Proof.
  assert (rid_is (m_omni (demo_with qa sessions)) "a" 0 = true) as Ha
    by (apply rid_is_true; by exists qa).
  assert (rid_is (m_omni (demo_with qa sessions)) "b" 1 = true) as Hb by by vm_compute.
  constructor.
  - split; [apply NoDup_nil_2|]. split; [done|]. by vm_compute.
  - intros oid Ho. by apply not_elem_of_nil in Ho.
  - apply NoDup_singleton.
  - intros rid oid. change (m_parked_reqs (demo_with qa sessions)) with [("b", 1%nat)]. simpl.
    case_decide; [|done]. intros [= <-]. subst rid. split; [done|]. apply not_elem_of_nil.
  - intros oid q did Hq Hd. destruct (demo_with_objects oid q Hq) as [[-> ->]|[-> ->]].
    + rewrite Hdata in Hd. injection Hd as <-. rewrite Hrid. by exists (demo_data 0).
    + injection Hd as <-. by exists (demo_data 1).
  - intros rid oid. change (m_accounting_records (demo_with qa sessions)) with [("a", 0%nat); ("b", 1%nat)].
    simpl. case_decide; [intros [= <-]; by subst rid|].
    case_decide; [intros [= <-]; by subst rid|done].
Qed.

Lemma demo_with_rows : rows_apart (demo_with qa sessions).
Proof.
  assert (row_slots (kp_table (o_pool demo_omni)) (demo_object "b" 1 1 3 WAITING_FOR_EVENT) = [6; 7; 8])
    as Hb by by vm_compute.
  constructor; change (o_pool (m_omni (demo_with qa sessions))) with (o_pool demo_omni).
  - intros oid q _ [[_ ->]|[_ ->]]%demo_with_objects; apply demo_in_use; rewrite ?Hslots, ?Hb; auto.
  - intros oid q _ [[_ ->]|[_ ->]]%demo_with_objects _.
    + rewrite Hslots, Hcommitted. by vm_compute.
    + rewrite Hb. by vm_compute.
  - intros oid oid' q q' _ _ Hne [[-> ->]|[-> ->]]%demo_with_objects [[-> ->]|[-> ->]]%demo_with_objects;
      try done; rewrite Hslots, Hb; set_solver by lia.
Qed.
End DemoWith.

Lemma demo_budget_ready : budget_ready demo_tight demo_selected.
Proof.
  constructor; [by apply demo_with_ok|apply demo_with_rows; by vm_compute| |].
  - intros rid oid Hget.
    assert (live_requests demo_tight = [("a", 0%nat); ("b", 1%nat)]) as E by by vm_compute.
    rewrite E in Hget. split; [|by intros bid o]. simpl in Hget.
    case_decide; [injection Hget as <-; by vm_compute|].
    case_decide; [injection Hget as <-; by vm_compute|done].
  - intros en ->%list_elem_of_singleton. split; [by vm_compute|].
    eexists _, demo_before, demo_staged, None. split; [reflexivity|]. split; [by repeat split|].
    split; [by vm_compute|]. by vm_compute.
Qed.

Lemma extend_budget_holds_witness :
  ∃ m', enforce_extend_memory_budget demo_hooks demo_moss_hooks demo_selected demo_tight =
      (Ok demo_selected, m') ∧
    o_outbox (m_omni m') = [OError "b" pool_exhausted] ∧
    ∃ n, available_size (kp_allocator (o_pool (m_omni m'))) = Some n ∧ needed demo_selected ≤ n.
Proof.
  destruct (extend_budget_holds demo_hooks demo_moss_hooks demo_tight demo_selected
    demo_release_frees (fun _ => eq_refl) demo_law eq_refl demo_budget_ready)
    as (victims & m' & E & Hch & Ha & _ & Hfit & _).
  assert (victims = ["b"]) as ->.
  { assert ((enforce_extend_memory_budget demo_hooks demo_moss_hooks demo_selected demo_tight).2 = m')
      as Em by by rewrite E.
    transitivity (map out_rid (o_outbox (m_omni m'))).
    - rewrite (af_outbox _ _ _ _ Ha). symmetry. apply evicted_rids.
    - rewrite <- Em. by vm_compute. }
  exists m'. split; [exact E|]. split; [exact (af_outbox _ _ _ _ Ha)|].
  destruct Hfit as [Hx|Hx]; [discriminate Hx|exact Hx].
Defined.
