(* ===== verification/MossRound.v ===== *)
(** * The realtime scheduler: planning a round

    Models the scheduling rounds of [MossVLRealtimeScheduler]
    ([src/sglang_omni/models/moss_vl_realtime/scheduler.py]): building a segment from the
    drained events of a request, selecting the requests to extend, the frame-window pass, the
    rate limit and the capacity guard of decode, and the planner hooks that call them.

    The segment builder is [Segment.build] over the processor, the tokenizer and the digest; the
    frame resolver maps an event to its image.  Applying a window plan to a request and
    preparing the extend batch work on other views of the request and the batch: they are
    parameters here and are modelled in [FrameApply] and [BatchAdapter].  The upstream planners
    are parameters that call the hooks of this scheduler. *)
From stdpp Require Import pretty.
From S2P Require Import Prelude PyNum Payload Accounting SessionState Visibility KVLayout FramePlan RuntimeState Segment.
From S2P Require Import FrameApply BatchAdapter Extend Odict OmniState Silent Intake Terminal MossState MossAbort MossStep MossDemo MossFail MossAll MossBudget.
Local Open Scope Z_scope.

Section Round.
Context `{ME : MossEnv} {Out Image : Type} (H : Hooks) (MH : MossHooks (Out := Out)).
Abbreviation MM := (M Moss).

Record RoundHooks : Type := {
  rh_processor : string → list Image → result (Processed Pixels);
  rh_tokenizer : string → result tensor;
  rh_digest : string → Z;
  rh_pad_value : Z → Z;
  rh_image_token_id : Z;
  rh_merge_size : Z;
  rh_frame_resolver : FramePromptEvent → result Image;
  rh_frame_window : option WindowConfig;
  rh_apply_window : nat → WindowPlan → list FrameRecord → MM unit;
  rh_prepare_for_extend : list nat → MM nat;
  (** upstream's prefill plan: the batch to run and the running batch *)
  rh_prefill_plan : option nat → MM (option nat * option nat);
  (** upstream's plan of a round, given the prefill hook *)
  rh_next_plan : (option nat → MM (option nat * option nat)) → option nat → option nat →
    MM (option nat * option nat)
}.

Context (RH : RoundHooks).

(** ** Building a segment *)

Definition history_of (st : RuntimeState) : History :=
  {| h_mrope_positions := r_mrope_positions st; h_visible_counts := r_visible_frame_counts st;
     h_grid_thw := r_full_grid_thw st; h_next_mrope_position := r_next_mrope_position st;
     h_committed_encoder_length := r_encoder_length st;
     h_committed_decoder_length := Some (r_decoder_length st); h_pending_text_tokens := 1 |}.

(** [_resolve_frame_events_tp] on one rank. *)
Definition resolve_frame_events (frame_events : list FramePromptEvent) : result (list Image) :=
  rmapM (rh_frame_resolver RH) frame_events.

Definition at_req (oid : nat) : MM (Req (Segment Pixels) Range) :=
  m ← get;
  lift (match req_at m oid with
        | Some q => Ok (e_req (q_ext q))
        | None => Raise (OtherError "no such object")
        end).

(** [_build_segment]. *)
Definition build_segment (oid : nat) (events : list FramePromptEvent) : MM (Segment Pixels) :=
  _ ← on_req oid (refresh_fill_ids env_fill_ids);
  r ← at_req oid;
  _ ← guard_raise (negb (zlength (x_fill_ids r) - token_total (x_state r) =? 1))
        (RuntimeError "realtime event must coalesce with exactly one pending sampled token");
  images ← lift (resolve_frame_events (List.filter has_frame events));
  lift (build (rh_processor RH) (rh_tokenizer RH) (rh_digest RH) (rh_pad_value RH)
          (rh_image_token_id RH) (rh_merge_size RH) events images (history_of (x_state r))).

(** ** Selecting the requests to extend *)

Definition decoding_or_waiting (p : Phase) : bool :=
  match p with DECODING | WAITING_FOR_EVENT => true | _ => false end.

Definition has_events (m : Moss) (rid : string) : bool :=
  match m_sessions m !! rid with
  | Some session => negb (bool_decide (s_pending_events session = []))
  | None => false
  end.

Definition extendable (m : Moss) (oid : nat) : bool :=
  match req_at m oid with
  | Some q => has_events m (q_rid q) && decoding_or_waiting (r_phase (req_state q))
              && negb (finished q)
  | None => false
  end.

(** The body of the [try]: build, guard, bind, append and stage. *)
Definition stage_extend (oid : nat) (events : list FramePromptEvent) : MM (Segment Pixels) :=
  segment ← build_segment oid events;
  m ← get;
  r ← at_req oid;
  let table := kp_table (o_pool (m_omni m)) in
  _ ← lift (guard_realtime_context_capacity (x_state r) (zlength (raw_append_ids segment))
              (row_width table));
  _ ← on_req oid (bind_realtime_page_row
        (match req_at m oid with Some q => q_req_pool_idx q | None => None end) table);
  _ ← on_req oid (append_segment_to_request env_fill_ids env_extend_range segment);
  _ ← (match rh_frame_window RH with
       | None => mret tt
       | Some _ =>
           records ← lift (stage_segment_frame_records segment (rh_merge_size RH));
           on_req oid (stage_frame_records records)
       end);
  mret segment.

Definition set_failure_seq (seq : Z) (a : RealtimeAccounting) : RealtimeAccounting :=
  {| a_session_id := a_session_id a; a_vision := a_vision a; a_text_input := a_text_input a;
     a_text_output := a_text_output a; a_step := a_step a; a_output_step := a_output_step a;
     a_frozen := a_frozen a; a_retired_at := a_retired_at a; a_failure_code := a_failure_code a;
     a_failure_seq := Some seq |}.

Definition note_failure_seq (oid : nat) (events : list FramePromptEvent) : MM unit :=
  match last events with
  | None => mret tt
  | Some ev => on_state oid (on_accounting (modify (set_failure_seq (ev_seq_no ev))) tt)
  end.

(** One candidate; every queued event is drained at once. *)
Definition select_request (oid : nat) : MM (list Entry) :=
  m ← get;
  let rid := rid_of m oid in
  if negb (extendable m oid) then mret [] else
  events ← on_sessions (on_session rid (drain None));
  try_except (segment ← stage_extend oid events; mret [(oid, events, segment)])
    (fun e => _ ← note_failure_seq oid events; _ ← fail_request H MH rid e; mret []).

(** The candidates in order, no identifier twice. *)
Fixpoint select_loop (seen : list string) (reqs : list nat) : MM (list Entry) :=
  match reqs with
  | [] => mret []
  | oid :: reqs' =>
      m ← get;
      let rid := rid_of m oid in
      if bool_decide (rid ∈ seen) then select_loop seen reqs' else
      selected ← select_request oid;
      rest ← select_loop (rid :: seen) reqs';
      mret (selected ++ rest)
  end.

Definition select_extensions : MM (list Entry) :=
  m ← get;
  selected ← select_loop [] (running_reqs m ++ map snd (m_parked_reqs m));
  match selected with
  | [] => mret []
  | _ => enforce_extend_memory_budget H MH selected
  end.

(** Woken requests leave the parking and the running batch. *)
Definition wake_selected (selected_ids : list string) : MM unit :=
  _ ← modify (fun m => m
        <| m_parked_reqs := filter (fun p => p.1 ∉ selected_ids) (m_parked_reqs m) |>
        <| m_parked_since := filter (fun p => p.1 ∉ selected_ids) (m_parked_since m) |>);
  m ← get;
  match o_running_batch (m_omni m) with
  | None => mret tt
  | Some bid =>
      _ ← set_reqs bid (List.filter (fun oid => negb (bool_decide (rid_of m oid ∈ selected_ids)))
                          (batch_reqs m bid));
      set_not_full bid
  end.

(** Preparation failed: every selected request is un-appended and failed. *)
Definition discard_selected (selected : list Entry) (e : pyexn) : MM unit :=
  mforeach (fun en =>
    _ ← on_req (entry_req en) (undo_appended_segment env_fill_ids (entry_segment en));
    m ← get; fail_request H MH (rid_of m (entry_req en)) e) selected.

(** [_materialize_realtime_extensions]. *)
Definition materialize_realtime_extensions : MM (option nat) :=
  selected ← select_extensions;
  match selected with
  | [] => mret None
  | _ =>
      batch ← try_except (b ← rh_prepare_for_extend RH (map entry_req selected); mret (Some b))
                (fun e => _ ← discard_selected selected e; mret None);
      match batch with
      | None => mret None
      | Some b =>
          m ← get;
          _ ← wake_selected (map (fun en => rid_of m (entry_req en)) selected);
          mret (Some b)
      end
  end.

(** ** The frame-window pass *)

Definition window_candidate (m : Moss) (oid : nat) : bool :=
  match req_at m oid with
  | None => false
  | Some q =>
      let st := req_state q in
      negb (finished q) && negb (r_append_inflight st) && decoding_or_waiting (r_phase st)
      && match r_frame_records st, r_req_pool_index st with
         | Some (_ :: _), Some _ => true
         | _, _ => false
         end
  end.

(** The first object of each identifier that is not finished, if it qualifies. *)
Fixpoint window_candidates (m : Moss) (seen : list string) (reqs : list nat) : list nat :=
  match reqs with
  | [] => []
  | oid :: reqs' =>
      if bool_decide (rid_of m oid ∈ seen) || is_finished m oid then window_candidates m seen reqs'
      else (if window_candidate m oid then [oid] else [])
           ++ window_candidates m (rid_of m oid :: seen) reqs'
  end.

Definition window_round (config : WindowConfig) (oid : nat) : MM unit :=
  m ← get;
  try_except
    (r ← at_req oid;
     records ← lift (match r_frame_records (x_state r) with
                     | Some records => Ok records
                     | None => Raise (TypeError "'NoneType' object is not iterable")
                     end);
     plan ← lift (plan_frame_window records config);
     match plan with
     | None => mret tt
     | Some plan => rh_apply_window RH oid plan records
     end)
    (fail_request H MH (rid_of m oid)).

(** [_evaluate_frame_window]. *)
Definition evaluate_frame_window : MM unit :=
  match rh_frame_window RH with
  | None => mret tt
  | Some config =>
      m ← get;
      let candidates := window_candidates m [] (running_reqs m ++ map snd (m_parked_reqs m)) in
      if bool_decide (candidates = []) || bool_decide (m_extend_batch m ≠ None) then mret tt else
      _ ← resolve_pending_async H MH;
      mforeach (window_round config) candidates
  end.

(** ** Decode: rate, capacity, retraction *)

(** [_decode_rate_limited]: every running request is inside its interval. *)
Definition decode_rate_limited (m : Moss) : bool :=
  match running_reqs m with
  | [] => false
  | reqs => forallb (fun oid => match req_at m oid with
              | Some q => negb (f_le (r_next_decode_not_before (req_state q)) (m_clock m))
              | None => false
              end) reqs
  end.

(** [_stamp_batch_launch] at the time of the launch. *)
Definition stamp_batch_launch (bid : nat) : MM unit :=
  m ← get;
  mforeach (fun oid => on_state oid (modify (fun st => st <| r_next_decode_not_before :=
      f_add (m_clock m) (f_div (f_of_Z 1) (r_max_tokens_per_turn st)) |>))) (batch_reqs m bid).

(** [_has_pending_realtime_events]. *)
Definition has_pending_realtime_events (m : Moss) : bool :=
  existsb (fun oid => negb (is_finished m oid) && has_events m (rid_of m oid))
    (running_reqs m ++ map snd (m_parked_reqs m)).

(** [_abort_retracted_realtime_requests]. *)
Definition retracted (m : Moss) : list string :=
  map (rid_of m) (List.filter (is_retracted m) (o_waiting_queue (m_omni m))).

Definition session_retracted : pyexn := RuntimeError
  "realtime session was retracted under memory pressure and cannot be re-prefilled; the session is aborted".

Definition abort_retracted_realtime_requests : MM unit :=
  m ← get; fail_all H MH (map (fun rid => (rid, session_retracted)) (retracted m)).

(** The running requests the next decode step has no room for, with the numbers of the error. *)
Definition capacity_violations (m : Moss) : list (string * (Z * Z * Z * Z)) :=
  foldl (fun d oid => match req_at m oid with
    | Some q =>
        match realtime_decode_capacity_error (req_state q) (e_kv_allocated_len (q_ext q))
                (row_width (kp_table (o_pool (m_omni m)))) with
        | Some error => if finished q then d else od_set (q_rid q) error d
        | None => d
        end
    | None => d
    end) [] (running_reqs m).

Definition no_decode_room (error : Z * Z * Z * Z) : pyexn :=
  let '(projected, limit, positions, width) := error in
  ContextExhaustedError ("realtime request exhausted the context length before decode: "
    ++ "projected token positions " ++ pretty projected ++ "/" ++ pretty limit ++ ", "
    ++ "KV positions " ++ pretty positions ++ "/" ++ pretty width).

(** [_guard_decode_capacity]. *)
Definition guard_decode_capacity : MM unit :=
  m ← get;
  _ ← (if bool_decide (capacity_violations m ≠ []) then resolve_pending_async H MH else mret tt);
  m ← get;
  fail_all H MH (map (fun p => (p.1, no_decode_room p.2)) (capacity_violations m)).

(** ** The planner hooks *)

(** [_RealtimeDecodeDeferred]. *)
Definition decode_deferred : pyexn := OtherError "_RealtimeDecodeDeferred".

Definition set_running (bid : option nat) : MM unit := on_omni (assign_to o_running_batch bid).

(** [get_new_batch_prefill]; [from_batch], which gives the running batch its realtime class and
    keeps its contents, leaves no trace here. *)
Definition get_new_batch_prefill (running_batch : option nat) : MM (option nat * option nat) :=
  _ ← set_running running_batch;
  _ ← on_omni (assign_to o_last_batch None);
  _ ← evaluate_frame_window;
  m ← get;
  _ ← (match m_extend_batch m with
       | None => b ← materialize_realtime_extensions; modify (assign m_extend_batch b)
       | Some _ => mret tt
       end);
  m ← get;
  match m_extend_batch m with
  | Some b =>
      _ ← modify (assign m_extend_batch None);
      mret (Some b, o_running_batch (m_omni m))
  | None =>
      '(to_run, running) ← rh_prefill_plan RH (o_running_batch (m_omni m));
      _ ← set_running running;
      match to_run with
      | Some b => mret (Some b, running)
      | None =>
          _ ← guard_decode_capacity;
          m ← get;
          _ ← guard_raise (decode_rate_limited m) decode_deferred;
          _ ← preempt_decode_memory_pressure H MH;
          m ← get;
          mret (None, o_running_batch (m_omni m))
      end
  end.

(** The generic [get_next_batch_to_run]. *)
Definition base_get_next_batch_to_run : MM (option nat) :=
  m ← get;
  '(to_run, running) ← rh_next_plan RH get_new_batch_prefill (o_running_batch (m_omni m))
                         (o_last_batch (m_omni m));
  _ ← set_running running;
  mret to_run.

(** [get_next_batch_to_run]. *)
Definition get_next_batch_to_run : MM (option nat) :=
  _ ← expire_parked_requests H MH;
  _ ← abort_retracted_realtime_requests;
  m ← get;
  _ ← (if bool_decide (m_extend_batch m = None) && has_pending_realtime_events m
       then resolve_pending_async H MH else mret tt);
  try_except base_get_next_batch_to_run
    (fun e => if bool_decide (e = decode_deferred) then mret None else throw e).

(** [stop]: every parked request is aborted. *)
Definition stop_parked : MM unit :=
  m ← get; mforeach (fun rid => abort H MH rid false) (od_keys (m_parked_reqs m)).
End Round.
