(* ===== verification/MossSelect.v ===== *)
(** * The realtime scheduler: selecting the requests to extend

    What the selection of a planning round does, whatever the processor, the tokenizer and the
    frame resolver raise: every request with pending events is either staged for the extend
    batch or failed on its own, and the requests that stay staged after the memory budget fit
    the pool. *)
From S2P Require Import Prelude PyNum Payload Accounting SessionState Visibility KVLayout FramePlan RuntimeState Segment.
From S2P Require Import FrameApply BatchAdapter Extend Odict OmniState Silent Intake Terminal MossState MossAbort MossStep MossDemo MossFail MossAll MossBudget MossFit MossRound.
Local Open Scope Z_scope.

Lemma same_kv_refl st : same_kv st st.
Proof. done. Qed.

Lemma same_kv_trans st st1 st2 : same_kv st st1 → same_kv st1 st2 → same_kv st st2.
Proof. intros [] []. split; congruence. Qed.

(** ** Statements of a request that keep its identity and its lengths *)

Section Keeps.
Context {Pixels Range : Type}.
Abbreviation SReq := (Req (Segment Pixels) Range).

Definition keeps {B} (f : M SReq B) : Prop := ∀ r, same_kv (x_state r) (x_state (f r).2).

Lemma keeps_kv_bind {A B} (f : M SReq A) (g : A → M SReq B) :
  keeps f → (∀ a, keeps (g a)) → keeps (f ≫= g).
Proof.
  intros Hf Hg r. unfold mbind, M_bind. specialize (Hf r). destruct (f r) as [[a|e] r1]; [|done].
  eapply same_kv_trans; [exact Hf|]. apply Hg.
Qed.

Lemma keeps_get {B} (g : SReq → M SReq B) : (∀ r, keeps (g r)) → keeps (get ≫= g).
Proof. intros Hg r. apply Hg. Qed.

Lemma keeps_ret {B} (b : B) : keeps (mret b).
Proof. done. Qed.

Lemma keeps_lift {B} (b : result B) : keeps (lift b).
Proof. done. Qed.

Lemma keeps_guard b e : keeps (guard_raise b e).
Proof. done. Qed.

Lemma keeps_throw {B} e : keeps (throw (A := B) e).
Proof. done. Qed.

Lemma keeps_modify f : (∀ r, same_kv (x_state r) (x_state (f r))) → keeps (modify f).
Proof. done. Qed.

(** A statement that reads the request before assigning a state made from it. *)
Lemma keeps_read {B} (f : SReq → M SReq B) :
  (∀ r, same_kv (x_state r) (x_state (f r r).2)) → keeps (get ≫= f).
Proof. intros Hf r. apply Hf. Qed.

Ltac keep_step :=
  lazymatch goal with
  | |- keeps (_ ≫= _) => apply keeps_kv_bind; [|intros]
  | |- keeps (if ?b then _ else _) => destruct b
  | |- keeps (match ?x with _ => _ end) => destruct x
  | |- keeps (modify _) => by apply keeps_modify
  | |- keeps _ => first [apply keeps_ret | apply keeps_lift | apply keeps_guard | apply keeps_throw]
  end.

Lemma refresh_keeps fill_ids : keeps (refresh_fill_ids fill_ids).
Proof. by apply keeps_modify. Qed.

Lemma bind_row_keeps index table : keeps (bind_realtime_page_row index table).
Proof. unfold bind_realtime_page_row. repeat keep_step. Qed.

Lemma page_row_keeps : keeps page_row.
Proof. by intros r. Qed.

Lemma decode_allowance_keeps : keeps decode_allowance.
Proof.
  apply keeps_read. intros r. destruct (r_decode_allowance (x_state r)); [done|].
  unfold guard_raise, lift, raise_if, mbind, M_bind. by destruct (_ <=? 0).
Qed.

Lemma check_pending_keeps fill_ids : keeps (check_pending fill_ids).
Proof.
  unfold check_pending. apply keeps_get. intros r0. apply keeps_kv_bind; [apply refresh_keeps|].
  intros _. apply keeps_read. intros r. unfold guard_raise, lift, raise_if, mbind, M_bind, page_row, get.
  destruct (negb _); [done|]. destruct (last (x_fill_ids r)); [|done]. simpl.
  destruct (x_page_row _); [|done]. by destruct (existsb _ _).
Qed.

Lemma stage_segment_keeps (segment : Segment Pixels) : keeps (stage_segment segment).
Proof.
  unfold stage_segment, stage_with. repeat keep_step. by intros r.
Qed.

Lemma append_keeps fill_ids extend_range (segment : Segment Pixels) :
  keeps (append_segment_to_request fill_ids extend_range segment).
Proof.
  unfold append_segment_to_request. apply keeps_kv_bind; [apply check_pending_keeps|]. intros _.
  apply keeps_kv_bind; [by apply keeps_modify|]. intros _.
  apply keeps_kv_bind; [by apply keeps_modify|]. intros _.
  apply keeps_kv_bind; [apply stage_segment_keeps|]. intros _.
  apply keeps_kv_bind; [repeat keep_step|]. intros _.
  apply keeps_kv_bind; [apply decode_allowance_keeps|]. intros a.
  apply keeps_kv_bind; [by apply keeps_modify|]. intros _.
  apply keeps_kv_bind; [apply page_row_keeps|]. intros row. apply keeps_get. intros r.
  apply keeps_kv_bind; [by apply keeps_modify|]. intros _.
  apply keeps_kv_bind; [by apply keeps_modify|]. intros _.
  apply keeps_kv_bind; [apply refresh_keeps|]. intros _. apply keeps_get. intros r2.
  apply keeps_kv_bind; [by apply keeps_modify|]. intros _. by apply keeps_modify.
Qed.

Lemma stage_records_keeps records :
  keeps (stage_frame_records (Pixels := Pixels) (Range := Range) records).
Proof. unfold stage_frame_records, stage_with. repeat keep_step. Qed.
End Keeps.

(** ** Statements that touch one request *)

(** The result and the state of a statement that returns. *)
Definition returns {S A} (f : M S A) (s : S) : result (A * S) :=
  let '(r, s') := f s in a ← r; Ok (a, s').

Section Computes.
Context `{ME : MossEnv}.
Context (rid : string) (oid : nat) (index : option Z) (pool : KVPool).
Abbreviation SReq := (Req (Segment Pixels) Range).

(** The object is the request [rid] with this realtime half, the row and the pool. *)
Definition here (m : Moss) (r : SReq) : Prop :=
  ∃ q, req_at m oid = Some q ∧ q_rid q = rid ∧ q_req_pool_idx q = index ∧ e_req (q_ext q) = r ∧
    o_pool (m_omni m) = pool.

(** The statement changes only the request's own objects and session; it returns what [g]
    computes from the realtime half and leaves the half [g] leaves, or raises what [g] raises. *)
Definition computes {A} (f : M Moss A) (g : SReq → result (A * SReq)) : Prop :=
  ∀ m r, here m r → ∃ m', own_steps [rid] m m' ∧
    match g r with
    | Ok (a, x) => f m = (Ok a, m') ∧ here m' x
    | Raise e => f m = (Raise e, m')
    end.

Lemma computes_ext {A} (f : M Moss A) g g' : (∀ r, g r = g' r) → computes f g → computes f g'.
Proof. intros Hg Hf m r Hm. rewrite <- Hg. by apply Hf. Qed.

Lemma computes_bind {A B} (f : M Moss A) (k : A → M Moss B) g h :
  computes f g → (∀ a, computes (k a) (h a)) → computes (f ≫= k) (fun r => '(a, x) ← g r; h a x).
Proof.
  intros Hf Hk m r Hm. destruct (Hf m r Hm) as (m1 & Ho & Hr). unfold mbind, M_bind, result_bind.
  destruct (g r) as [[a x]|e]; [|exists m1; by rewrite Hr].
  destruct Hr as [-> Hx]. destruct (Hk a m1 x Hx) as (m2 & Ho2 & Hr2). exists m2.
  split; [by eapply own_steps_trans|done].
Qed.

Lemma computes_get {B} (k : Moss → M Moss B) g :
  (∀ m r, here m r → computes (k m) g) → computes (get ≫= k) g.
Proof. intros Hk m r Hm. by apply (Hk m r Hm). Qed.

Lemma computes_lift {A} (a : result A) : computes (lift a) (fun r => x ← a; Ok (x, r)).
Proof. intros m r Hm. exists m. split; [apply own_steps_refl|]. by destruct a. Qed.

Lemma computes_on_req {B} (f : M SReq B) : keeps f → computes (on_req oid f) (returns f).
Proof.
  intros Hk m r (q & Hq & Hr & Hi & <- & Hp). specialize (Hk (e_req (q_ext q))). unfold returns.
  destruct (f (e_req (q_ext q))) as [res x] eqn:E.
  destruct (on_req_own rid oid f m q res x) as (m' & E' & Ho & Hq');
    [unfold rid_is, req_at in *; rewrite Hq; by apply bool_decide_eq_true|done..|].
  exists m'. split; [done|]. destruct res as [b|e]; [|done]. split; [done|]. eexists. split; [exact Hq'|].
  repeat split; try done. rewrite (os_only _ _ _ Ho). done.
Qed.

Lemma computes_at_req : computes (at_req oid) (fun r => Ok (r, r)).
Proof.
  intros m r (q & Hq & Hr & Hi & He & Hp). exists m. split; [apply own_steps_refl|].
  split; [|by exists q]. unfold at_req, get, lift, mbind, M_bind. by rewrite Hq, He.
Qed.
End Computes.

(** The object is the request [rid] and its realtime half satisfies [R]. *)
Definition obj `{ME : MossEnv} (rid : string) (oid : nat) (R : Req (Segment Pixels) Range → Prop) (m : Moss) : Prop :=
  ∃ q, req_at m oid = Some q ∧ q_rid q = rid ∧ R (e_req (q_ext q)).

Section Select.
Context `{ME : MossEnv} {Out Image : Type} (H : Hooks) (MH : MossHooks (Out := Out)).
Context (RH : RoundHooks (Image := Image)).
Abbreviation SReq := (Req (Segment Pixels) Range).

(** A request with its fill ids computed anew. *)
Definition refreshed (r : SReq) : SReq := r <| x_fill_ids := env_fill_ids (x_origin_input_ids r) (x_output_ids r) |>.

(** What staging makes of a request: the segment is built from the frames and texts of [events]
    behind the request's history, the guard lets it pass, the row is bound, the segment appended
    and its records staged. *)
Definition staging (index : option Z) (table : Table) (events : list FramePromptEvent) (r0 : SReq)
    : result (Segment Pixels * SReq) :=
  let r := refreshed r0 in
  _ ← raise_if (negb (zlength (x_fill_ids r) - token_total (x_state r) =? 1))
        (RuntimeError "realtime event must coalesce with exactly one pending sampled token");
  images ← resolve_frame_events RH (List.filter has_frame events);
  segment ← build (rh_processor RH) (rh_tokenizer RH) (rh_digest RH) (rh_pad_value RH) (rh_image_token_id RH)
              (rh_merge_size RH) events images (history_of (x_state r));
  _ ← guard_realtime_context_capacity (x_state r) (zlength (raw_append_ids segment)) (row_width table);
  '(_, bound) ← returns (bind_realtime_page_row index table) r;
  '(_, appended) ← returns (append_segment_to_request env_fill_ids env_extend_range segment) bound;
  records ← match rh_frame_window RH with
            | None => Ok None
            | Some _ => stage_segment_frame_records segment (rh_merge_size RH)
            end;
  '(_, x) ← returns (stage_frame_records records) appended;
  Ok (segment, x).

Lemma stage_records_computes rid oid index pool (segment : Segment Pixels) :
  computes rid oid index pool
    (match rh_frame_window RH with
     | None => mret tt
     | Some _ => records ← lift (stage_segment_frame_records segment (rh_merge_size RH));
                 on_req oid (stage_frame_records records)
     end)
    (fun r => records ← match rh_frame_window RH with
                        | None => Ok None
                        | Some _ => stage_segment_frame_records segment (rh_merge_size RH)
                        end;
              returns (stage_frame_records records) r).
Proof.
  destruct (rh_frame_window RH).
  - eapply computes_ext; [|eapply computes_bind; [apply computes_lift|]].
    2:{ intros recs. apply computes_on_req, stage_records_keeps. }
    intros r. cbv beta. by destruct (stage_segment_frame_records _ _).
  - by apply (computes_ext _ _ _ _ _ _ _ (fun r => eq_refl)), (computes_lift _ _ _ _ (Ok tt)).
Qed.

Lemma build_segment_computes rid oid index pool events :
  computes rid oid index pool (build_segment RH oid events)
    (fun r0 => let r := refreshed r0 in
       _ ← raise_if (negb (zlength (x_fill_ids r) - token_total (x_state r) =? 1))
             (RuntimeError "realtime event must coalesce with exactly one pending sampled token");
       images ← resolve_frame_events RH (List.filter has_frame events);
       segment ← build (rh_processor RH) (rh_tokenizer RH) (rh_digest RH) (rh_pad_value RH) (rh_image_token_id RH)
                   (rh_merge_size RH) events images (history_of (x_state r));
       Ok (segment, r)).
Proof.
  unfold build_segment. eapply computes_ext; [|
    eapply computes_bind; [apply computes_on_req, refresh_keeps|intros ?];
    eapply computes_bind; [apply computes_at_req|intros r];
    eapply computes_bind; [apply computes_lift|intros ?];
    eapply computes_bind; [apply computes_lift|intros images]; apply computes_lift].
  intros r0. cbv beta. cbn -[raise_if resolve_frame_events build]. fold (refreshed r0).
  destruct (raise_if _ _); [|done]. cbn -[resolve_frame_events build].
  by destruct (resolve_frame_events _ _).
Qed.

Lemma stage_extend_computes rid oid index pool events :
  computes rid oid index pool (stage_extend RH oid events) (staging index (kp_table pool) events).
Proof.
  unfold stage_extend. eapply computes_ext; [|
    eapply computes_bind; [apply build_segment_computes|intros segment];
    apply computes_get; intros m r0 (q & Hq & _ & Hi & _ & Hp); rewrite Hq, Hi, Hp;
    eapply computes_bind; [apply computes_at_req|intros r];
    eapply computes_bind; [apply computes_lift|intros ?];
    eapply computes_bind; [apply computes_on_req, bind_row_keeps|intros ?];
    eapply computes_bind; [apply computes_on_req, append_keeps|intros ?];
    eapply computes_bind; [apply stage_records_computes|intros ?]; apply (computes_lift _ _ _ _ (Ok segment))].
  intros r0. unfold staging. set (r := refreshed r0). cbv zeta.
  destruct (raise_if _ _); [|done]. cbn -[resolve_frame_events build returns].
  destruct (resolve_frame_events _ _) as [images|]; [|done]. cbn -[build returns].
  destruct (build _ _ _ _ _ _ _ _ _) as [segment|]; [|done]. cbn -[returns].
  destruct (guard_realtime_context_capacity _ _ _); [|done]. cbn -[returns].
  destruct (returns (bind_realtime_page_row _ _) _) as [[? bound]|]; [|done]. cbn -[returns].
  destruct (returns (append_segment_to_request _ _ _) _) as [[? appended]|]; [|done]. cbn -[returns].
  by destruct (rh_frame_window RH); [destruct (stage_segment_frame_records _ _)|].
Qed.

(** The staged half of a request. *)
Definition staged_half (segment : Segment Pixels) (x : SReq) : Prop :=
  ∃ r r1 recs, clean r ∧ append_segment_to_request env_fill_ids env_extend_range segment r = (Ok tt, r1) ∧
    stage_frame_records recs r1 = (Ok tt, x).

Lemma returns_Ok {S A} (f : M S A) s a x : returns f s = Ok (a, x) → f s = (Ok a, x).
Proof. unfold returns. destruct (f s) as [[b|e] s']; simpl; [by intros [= -> ->]|done]. Qed.

Lemma staging_half index table events r segment x :
  clean r → staging index table events r = Ok (segment, x) → staged_half segment x.
Proof.
  intros Hc. unfold staging. cbv zeta. intros Hs.
  repeat (inv_ok; try match goal with x : _ * _ |- _ => destruct x end).
  repeat match goal with H : returns _ _ = Ok _ |- _ => apply returns_Ok in H end.
  repeat match goal with u : unit |- _ => destruct u end.
  match goal with
  | Hb : bind_realtime_page_row _ _ _ = (_, ?b), Ha : append_segment_to_request _ _ _ ?b = (_, ?a), Hr : stage_frame_records ?recs ?a = _ |- _ =>
      exists b, a, recs; split; [|by split]; clear Ha Hr; unfold bind_realtime_page_row in Hb; inv_ok; exact Hc
  end.
Qed.
Context (Hlaw : moss_release_law H) (Hentry : h_is_entry_rank H = true).

Definition pending_of (m : Moss) (rid : string) : list FramePromptEvent :=
  match m_sessions m !! rid with Some session => s_pending_events session | None => [] end.

Lemma drain_own rid m session :
  m_sessions m !! rid = Some session →
  ∃ m1, on_sessions (on_session rid (drain None)) m = (Ok (s_pending_events session), m1) ∧
    own_steps [rid] m m1 ∧ (∀ oid, req_at m1 oid = req_at m oid).
Proof.
  intros Hs. unfold on_sessions, zoom.
  assert (on_session rid (drain None) (m_sessions m) =
    (Ok (s_pending_events session), <[rid := set_pending [] session]> (m_sessions m))) as ->.
  { unfold on_session, drain. mrun. rewrite Hs.
    unfold zdrop, ztake, zlength. rewrite Nat2Z.id, drop_all, firstn_all. done. }
  eexists. split; [reflexivity|]. split; [|done]. constructor; [by destruct m as [[]]| |done|].
  - intros rid' Hr. fields. rewrite lookup_insert_ne; [done|].
    rewrite list_elem_of_singleton in Hr. congruence.
  - intros oid q Hq. by exists q.
Qed.

Lemma note_failure_own rid oid events m :
  rid_is (m_omni m) rid oid = true →
  ∃ m1, note_failure_seq oid events m = (Ok tt, m1) ∧ own_steps [rid] m m1.
Proof.
  intros Hr. unfold note_failure_seq. destruct (last events) as [ev|].
  2:{ exists m. split; [done|]. apply own_steps_refl. }
  pose proof Hr as (q & Hq & Hrid)%rid_is_true.
  set (f := on_accounting _ tt).
  assert (∃ st, f (req_state q) = (Ok tt, st) ∧ same_kv (req_state q) st) as (st & Ef & Hkv).
  { unfold f, on_accounting. mrun. destruct (r_accounting (req_state q)); by eexists. }
  eexists. split; [by apply (on_state_run oid f m q)|]. constructor; [by destruct m as [[]]|done| |].
  - intros oid' Ho. unfold req_at. fields. rewrite lookup_alter_ne; [done|]. intros <-.
    apply owned_one in Hr. congruence.
  - intros oid' q' Hq'. unfold req_at in *. fields. destruct (decide (oid' = oid)) as [->|Hne].
    + rewrite lookup_alter_eq, Hq. eexists. split; [done|]. by replace q' with q by congruence.
    + rewrite lookup_alter_ne by done. by exists q'.
Qed.

(** The candidate is staged, or failed after steps of its own. *)
Lemma select_request_run rid oid m q :
  moss_ok m → req_at m oid = Some q → q_rid q = rid →
  not_launched m rid → extendable m oid = true →
  ∃ m0, own_steps [rid] m m0 ∧
    match staging (q_req_pool_idx q) (kp_table (o_pool (m_omni m))) (pending_of m rid) (e_req (q_ext q)) with
    | Ok (segment, x) =>
        select_request H MH RH oid m = (Ok [(oid, pending_of m rid, segment)], m0) ∧ obj rid oid (eq x) m0
    | Raise e => ∃ m', select_request H MH RH oid m = (Ok [], m') ∧ all_failed H [(rid, e)] m0 m'
    end.
Proof.
  intros Hok Hq Hrid Hn He. unfold select_request. erewrite moss_bind_run by reflexivity.
  rewrite He. cbn [negb].
  assert (rid_of m oid = rid) as -> by (unfold rid_of; by rewrite Hq).
  assert (∃ session, m_sessions m !! rid = Some session) as [session Hses].
  { unfold extendable, has_events in He. rewrite Hq, Hrid in He.
    destruct (m_sessions m !! rid); [by eexists|done]. }
  destruct (drain_own rid m session Hses) as (m1 & E1 & Ho1 & Hsame1).
  rewrite (moss_bind_run _ _ _ _ _ E1).
  assert (pending_of m rid = s_pending_events session) as -> by (unfold pending_of; by rewrite Hses).
  set (events := s_pending_events session).
  destruct (stage_extend_computes rid oid (q_req_pool_idx q) (o_pool (m_omni m)) events m1 (e_req (q_ext q)))
    as (m2 & Ho2 & E2).
  { exists q. rewrite Hsame1, (os_only _ _ _ Ho1). by repeat split. }
  pose proof (own_steps_trans _ _ _ _ Ho1 Ho2) as Ho.
  unfold try_except. destruct (staging _ _ _ _) as [[segment x]|e].
  { destruct E2 as [E2 (q2 & Hq2 & Hr2 & _ & Hx & _)]. exists m2. split; [done|]. split; [|by exists q2].
    by rewrite (moss_bind_run _ _ _ _ _ E2). }
  assert ((stage_extend RH oid events ≫= fun segment => mret [(oid, events, segment)]) m1 =
    (Raise e, m2)) as -> by (unfold mbind, M_bind; by rewrite E2).
  assert (rid_is (m_omni m2) rid oid = true) as Hr.
  { rewrite (rid_is_same (m_omni m)) by by eapply own_rids.
    unfold rid_is, req_at in *. rewrite Hq. by apply bool_decide_eq_true. }
  destruct (note_failure_own rid oid events m2 Hr) as (m3 & E3 & Ho3).
  pose proof (own_steps_trans _ _ _ _ Ho Ho3) as Ho'.
  destruct (fail_request_run H MH Hlaw Hentry rid e m3) as (m4 & E4 & Hf);
    [by eapply own_ok|by eapply own_not_launched|].
  exists m3. split; [done|]. exists m4. split; [|by apply all_failed_one].
  rewrite (moss_bind_run _ _ _ _ _ E3), (moss_bind_run _ _ _ _ _ E4). done.
Qed.

(** ** The loop *)

Definition entry_rid (m : Moss) (en : Entry) : string := rid_of m (entry_req en).

(** Staging the candidate as it was, with all its pending events, on the page table that giving
    rows back leaves, comes to [outcome]. *)
Definition comes_to (m : Moss) (oid : nat) (outcome : result (Segment Pixels * SReq)) : Prop :=
  ∃ q qs, req_at m oid = Some q ∧ clean (e_req (q_ext q)) ∧
    staging (q_req_pool_idx q) (kp_table (give_back H qs (o_pool (m_omni m)))) (pending_of m (q_rid q))
      (e_req (q_ext q)) = outcome.

Definition staged_from (m : Moss) (en : Entry) (x : SReq) : Prop :=
  comes_to m (entry_req en) (Ok (entry_segment en, x)).

Lemma staged_from_half m en x : staged_from m en x → staged_half (entry_segment en) x.
Proof. intros (q & qs & _ & Hc & Hs). by eapply staging_half. Qed.

Lemma obj_impl rid oid (R R' : SReq → Prop) m : (∀ x, R x → R' x) → obj rid oid R m → obj rid oid R' m.
Proof. intros Hi (q & Hq & Hr & HR). exists q. auto. Qed.

(** The candidates: one object per identifier, nothing staged for one that is to be extended. *)
Record select_ready (m : Moss) (seen : list string) (reqs : list nat) : Prop := {
  sl_ok : moss_ok m;
  sl_reqs : ∀ oid, oid ∈ reqs → ∃ q, req_at m oid = Some q ∧
    (q_rid q ∉ seen → extendable m oid = true → clean (e_req (q_ext q)) ∧ not_launched m (q_rid q));
  sl_unique : ∀ oid oid', oid ∈ reqs → oid' ∈ reqs → rid_of m oid = rid_of m oid' → oid = oid'
}.

(** Each request with events was staged or failed: [m0] is the state with the own steps of all
    of them, [m'] the one after the failures. *)
Record selection (m : Moss) (seen : list string) (reqs : list nat) (l : list Entry)
    (fs : list (string * pyexn)) (m0 m' : Moss) : Prop := {
  se_own : own_steps (map (entry_rid m) l ++ fs.*1) m m0;
  se_failed : all_failed H fs m0 m';
  se_nodup : NoDup (map (entry_rid m) l ++ fs.*1);
  se_from : ∀ rid, rid ∈ map (entry_rid m) l ++ fs.*1 ↔
    ∃ oid, oid ∈ reqs ∧ rid_of m oid = rid ∧ rid ∉ seen ∧ extendable m oid = true;
  se_staged : ∀ en, en ∈ l → entry_req en ∈ reqs ∧ en.1.2 = pending_of m (entry_rid m en) ∧
    obj (entry_rid m en) (entry_req en) (staged_from m en) m';
  se_raised : ∀ rid e, (rid, e) ∈ fs → ∃ oid, oid ∈ reqs ∧ rid_of m oid = rid ∧ comes_to m oid (Raise e)
}.

(** Nothing of the other requests moved. *)
Record elsewhere (rid : string) (m m1 : Moss) : Prop := {
  el_ok : moss_ok m1;
  el_rids : same_rids (o_reqs (m_omni m)) (o_reqs (m_omni m1));
  el_reqs : ∀ oid, rid_of m oid ≠ rid → req_at m1 oid = req_at m oid;
  el_sessions : ∀ rid', rid' ≠ rid → m_sessions m1 !! rid' = m_sessions m !! rid';
  el_launched : ∀ rid', not_launched m rid' → not_launched m1 rid';
  el_pool : ∃ qs, o_pool (m_omni m1) = give_back H qs (o_pool (m_omni m))
}.

Lemma rid_of_same m m' oid :
  same_rids (o_reqs (m_omni m)) (o_reqs (m_omni m')) → rid_of m' oid = rid_of m oid.
Proof.
  intros Hs. specialize (Hs oid). unfold rid_of, req_at.
  destruct (o_reqs (m_omni m) !! oid), (o_reqs (m_omni m') !! oid); [|done..].
  simpl in Hs. by injection Hs.
Qed.

Lemma rid_of_owned m rid oid : rid_of m oid ≠ rid → owned m [rid] oid = false.
Proof.
  unfold rid_of, owned. destruct (req_at m oid) as [q|]; [|done]. intros Hne.
  apply bool_decide_eq_false. by rewrite list_elem_of_singleton.
Qed.

Lemma owned_at m oid q rids : req_at m oid = Some q → owned m rids oid = bool_decide (q_rid q ∈ rids).
Proof. intros Hq. unfold owned. by rewrite Hq. Qed.

Lemma own_elsewhere rid m m0 : moss_ok m → own_steps [rid] m m0 → elsewhere rid m m0.
Proof.
  intros Hok Ho. constructor.
  - by eapply own_ok.
  - by eapply own_rids.
  - intros oid Hr. by apply (os_others _ _ _ Ho), rid_of_owned.
  - intros rid' Hne. apply (os_sessions _ _ _ Ho). by rewrite list_elem_of_singleton.
  - intros rid'. by eapply own_not_launched.
  - exists []. by rewrite (os_only _ _ _ Ho).
Qed.

Lemma failed_elsewhere rid e m m0 m1 :
  own_steps [rid] m m0 → all_failed H [(rid, e)] m0 m1 → elsewhere rid m m1.
Proof.
  intros Ho Hf. apply (own_all_failed H rid e m) in Hf; [|done]. constructor.
  - apply Hf.
  - apply Hf.
  - intros oid Hr. by apply (af_others _ _ _ _ Hf), rid_of_owned.
  - intros rid' Hne. rewrite (af_sessions _ _ _ _ Hf), decide_False; [done|].
    cbn. by rewrite list_elem_of_singleton.
  - intros rid'. by eapply all_failed_not_launched.
  - destruct (af_rows _ _ _ _ Hf) as (qs & _ & _ & _ & Hpool). by exists qs.*2.
Qed.

Lemma give_back_app qs qs' pool : give_back H qs' (give_back H qs pool) = give_back H (qs ++ qs') pool.
Proof. unfold give_back. by rewrite foldl_app. Qed.

Section Elsewhere.
Context (rid : string) (m m1 : Moss) (He : elsewhere rid m m1).

Lemma elsewhere_extendable oid : rid_of m oid ≠ rid → extendable m1 oid = extendable m oid.
Proof.
  intros Hne. unfold extendable, has_events. rewrite (el_reqs _ _ _ He) by done.
  destruct (req_at m oid) as [q|] eqn:Hq; [|done].
  assert (q_rid q ≠ rid) by (unfold rid_of in Hne; by rewrite Hq in Hne).
  by rewrite (el_sessions _ _ _ He).
Qed.

Lemma elsewhere_ready oid seen reqs :
  rid_of m oid = rid → select_ready m seen (oid :: reqs) → select_ready m1 (rid :: seen) reqs.
Proof.
  intros Hrid [Hok Hreqs Hun]. constructor.
  - apply He.
  - intros oid' Ho. destruct (Hreqs oid') as (q & Hq & Hc); [by constructor|].
    pose proof (el_rids _ _ _ He oid') as Hx. unfold req_at in Hq. rewrite Hq in Hx.
    destruct (o_reqs (m_omni m1) !! oid') as [q1|] eqn:Hq1; [|done]. injection Hx as Hx.
    exists q1. split; [done|]. rewrite Hx. intros [Hne Hseen]%not_elem_of_cons Hext.
    assert (rid_of m oid' ≠ rid) as Hne' by (unfold rid_of, req_at; by rewrite Hq).
    rewrite elsewhere_extendable in Hext by done.
    pose proof (el_reqs _ _ _ He oid' Hne') as Hsame. unfold req_at in Hsame.
    replace q1 with q by congruence. destruct (Hc Hseen Hext) as [Hc1 Hc2]. split; [done|].
    by apply He.
  - intros o o' Ho Ho'. rewrite !(rid_of_same m m1) by apply He.
    intros Heq. apply Hun; [by constructor|by constructor|done].
Qed.

Lemma elsewhere_from reqs seen oid rid' :
  rid_of m oid = rid → rid' ≠ rid →
  (∃ o, o ∈ reqs ∧ rid_of m1 o = rid' ∧ rid' ∉ rid :: seen ∧ extendable m1 o = true) ↔
  (∃ o, o ∈ oid :: reqs ∧ rid_of m o = rid' ∧ rid' ∉ seen ∧ extendable m o = true).
Proof.
  intros Hrid Hne. split.
  - intros (o & Ho & Hr & [_ Hseen]%not_elem_of_cons & Hext). exists o.
    rewrite (rid_of_same m m1) in Hr by apply He.
    split; [by constructor|]. split; [done|]. split; [done|].
    rewrite <- elsewhere_extendable; [done|congruence].
  - intros (o & Ho & Hr & Hseen & Hext). exists o.
    apply elem_of_cons in Ho as [->|Ho]; [congruence|]. split; [done|].
    rewrite (rid_of_same m m1) by apply He. split; [done|]. split; [by apply not_elem_of_cons|].
    rewrite elsewhere_extendable; [done|congruence].
Qed.

Lemma elsewhere_comes_to oid outcome : rid_of m oid ≠ rid → comes_to m1 oid outcome → comes_to m oid outcome.
Proof.
  intros Hne (q & qs & Hq & Hc & Hs). destruct (el_pool _ _ _ He) as [qs0 Hp].
  rewrite (el_reqs _ _ _ He) in Hq by done. exists q, (qs0 ++ qs). split; [done|]. split; [done|].
  rewrite <- give_back_app, <- Hp. unfold pending_of in *. rewrite (el_sessions _ _ _ He) in Hs; [done|].
  unfold rid_of in Hne. by rewrite Hq in Hne.
Qed.
End Elsewhere.

(** The rest of the loop, seen from the state before the first candidate. *)
Record rest_selected (rid : string) (m m1 : Moss) (seen : list string) (oid : nat) (reqs : list nat)
    (l : list Entry) (fs : list (string * pyexn)) (m' : Moss) : Prop := {
  re_rids : map (entry_rid m1) l = map (entry_rid m) l;
  re_new : rid ∉ map (entry_rid m) l ++ fs.*1;
  re_from : ∀ rid', rid' ≠ rid → rid' ∈ map (entry_rid m) l ++ fs.*1 ↔
    ∃ o, o ∈ oid :: reqs ∧ rid_of m o = rid' ∧ rid' ∉ seen ∧ extendable m o = true;
  re_staged : ∀ en, en ∈ l → entry_req en ∈ oid :: reqs ∧ en.1.2 = pending_of m (entry_rid m en) ∧
    obj (entry_rid m en) (entry_req en) (staged_from m en) m';
  re_raised : ∀ rid' e, (rid', e) ∈ fs → ∃ o, o ∈ oid :: reqs ∧ rid_of m o = rid' ∧ comes_to m o (Raise e)
}.

Lemma rest_of rid m m1 seen oid reqs l fs m0 m' :
  elsewhere rid m m1 → rid_of m oid = rid → selection m1 (rid :: seen) reqs l fs m0 m' →
  rest_selected rid m m1 seen oid reqs l fs m'.
Proof.
  intros He Hrid [_ _ _ Hfrom Hst Hra].
  assert (∀ en, entry_rid m1 en = entry_rid m en) as Hen by (intros en; apply rid_of_same, He).
  assert (map (entry_rid m1) l = map (entry_rid m) l) as Hmap by by apply map_ext.
  assert (rid ∉ map (entry_rid m) l ++ fs.*1) as Hnew.
  { rewrite <- Hmap. intros (o & _ & _ & Hs & _)%Hfrom. apply Hs. constructor. }
  constructor; [done|done| | |].
  - intros rid' Hne. rewrite <- Hmap, Hfrom. by eapply elsewhere_from.
  - intros en Hin. destruct (Hst en Hin) as (H1 & H2 & H3). rewrite <- Hen.
    assert (entry_rid m en ≠ rid) as Hne.
    { intros E. apply Hnew. apply elem_of_app. left. rewrite <- E. apply list_elem_of_In, in_map, list_elem_of_In, Hin. }
    assert (∀ r, r ≠ rid → pending_of m1 r = pending_of m r) as Hpend by (intros r Hr; unfold pending_of; by rewrite (el_sessions _ _ _ He)).
    split; [by constructor|]. split; [rewrite H2; apply Hpend; by rewrite Hen|].
    eapply obj_impl; [|exact H3]. intros x Hx. by eapply elsewhere_comes_to.
  - intros rid' e Hin. destruct (Hra rid' e Hin) as (o & Ho & Hr & Hc). exists o.
    rewrite (rid_of_same m m1) in Hr by apply He. split; [by constructor|]. split; [done|].
    eapply elsewhere_comes_to; [exact He| |exact Hc]. rewrite Hr. intros ->. apply Hnew, elem_of_app. right.
    apply list_elem_of_In, in_map_iff. exists (rid, e). by rewrite <- list_elem_of_In.
Qed.

Lemma from_first m seen oid reqs rid :
  select_ready m seen (oid :: reqs) → rid_of m oid = rid → rid ∉ seen →
  (∃ o, o ∈ oid :: reqs ∧ rid_of m o = rid ∧ rid ∉ seen ∧ extendable m o = true) ↔
  extendable m oid = true.
Proof.
  intros Hr Hrid Hs. split; [|intros He; exists oid; repeat split; [constructor|done..]].
  intros (o & Ho & Hor & _ & He). replace oid with o; [done|].
  apply (sl_unique _ _ _ Hr); [done|constructor|congruence].
Qed.

(** The selected identifiers, with one more in front. *)
Lemma from_cons m seen oid reqs rid L L' :
  select_ready m seen (oid :: reqs) → rid_of m oid = rid → rid ∉ seen → extendable m oid = true →
  (∀ rid', rid' ≠ rid → rid' ∈ L ↔
    ∃ o, o ∈ oid :: reqs ∧ rid_of m o = rid' ∧ rid' ∉ seen ∧ extendable m o = true) →
  L' ≡ₚ rid :: L → ∀ rid', rid' ∈ L' ↔
    ∃ o, o ∈ oid :: reqs ∧ rid_of m o = rid' ∧ rid' ∉ seen ∧ extendable m o = true.
Proof.
  intros Hr Hrid Hs He HL HP rid'. rewrite HP, elem_of_cons. destruct (decide (rid' = rid)) as [->|Hne].
  - rewrite (from_first m seen oid reqs rid) by done. tauto.
  - rewrite HL by done. tauto.
Qed.

Lemma selection_nil seen m : select_ready m seen [] → selection m seen [] [] [] m m.
Proof.
  intros Hr. constructor; [apply own_steps_refl|apply all_failed_nil, Hr|by constructor| | |].
  - intros rid. split; [by intros ?%not_elem_of_nil|by intros (o & ?%not_elem_of_nil & _)].
  - by intros en ?%not_elem_of_nil.
  - by intros rid e ?%not_elem_of_nil.
Qed.

(** The first candidate's identifier was seen before. *)
Lemma selection_seen m seen oid reqs l fs m0 m' :
  rid_of m oid ∈ seen → selection m seen reqs l fs m0 m' → selection m seen (oid :: reqs) l fs m0 m'.
Proof.
  intros Hseen [H1 H2 H3 H4 H5 H6]. constructor; [done..| | |].
  - intros rid'. rewrite H4. split; intros (o & Ho & Hx); exists o; (split; [|done]).
    + by constructor.
    + apply elem_of_cons in Ho as [->|]; [|done]. destruct Hx as (<- & Hn & _). by destruct Hn.
  - intros en Hin. destruct (H5 en Hin) as [? ?]. split; [by constructor|done].
  - intros rid e Hin. destruct (H6 rid e Hin) as (o & ? & ?). exists o. split; [by constructor|done].
Qed.

Lemma ready_seen m seen oid reqs : select_ready m seen (oid :: reqs) → select_ready m seen reqs.
Proof.
  intros [Hok Hq Hu]. constructor; [done| |].
  - intros o Ho. apply Hq. by constructor.
  - intros o o' Ho Ho'. apply Hu; by constructor.
Qed.

Section Head.
Context (m m1 m0 m' : Moss) (seen : list string) (oid : nat) (reqs : list nat) (l : list Entry)
  (fs : list (string * pyexn)).
Abbreviation rid := (rid_of m oid).
Context (Hr : select_ready m seen (oid :: reqs)) (Hseen : rid ∉ seen).
Context (Hs : selection m1 (rid :: seen) reqs l fs m0 m').

(** It has nothing to extend. *)
Lemma selection_skipped : m1 = m → extendable m oid = false → selection m seen (oid :: reqs) l fs m0 m'.
Proof.
  intros -> He. assert (elsewhere rid m m) as Hel by (apply own_elsewhere; [apply Hr|apply own_steps_refl]).
  destruct (rest_of rid m m seen oid reqs l fs m0 m' Hel eq_refl Hs) as [R1 R2 R3 R4 R5].
  destruct Hs as [H1 H2 H3 _ _ _]. constructor; [done..| |done|done].
  intros rid'. destruct (decide (rid' = rid)) as [->|Hne]; [|by apply R3].
  rewrite (from_first m seen oid reqs rid) by done. rewrite He. by split.
Qed.

(** It is staged. *)
Lemma selection_staged segment x :
  own_steps [rid] m m1 → extendable m oid = true → obj rid oid (eq x) m1 → comes_to m oid (Ok (segment, x)) →
  selection m seen (oid :: reqs) ((oid, pending_of m rid, segment) :: l) fs m0 m'.
Proof.
  intros Ho He (q0 & Hq0 & Hr0 & ->) Hcomes.
  assert (elsewhere rid m m1) as Hel by (apply own_elsewhere; [apply Hr|done]).
  destruct (rest_of rid m m1 seen oid reqs l fs m0 m' Hel eq_refl Hs) as [R1 R2 R3 R4 R5].
  destruct Hs as [H1 H2 H3 _ _ _]. rewrite R1 in *.
  assert (entry_rid m (oid, pending_of m rid, segment) = rid) as Er by done.
  constructor; cbn [map app]; rewrite ?Er.
  - by apply (own_steps_app [rid] _ m m1).
  - done.
  - by constructor.
  - by apply (from_cons m seen oid reqs rid (map (entry_rid m) l ++ fs.*1)).
  - intros en [->|Hin]%elem_of_cons; [|by apply R4]. rewrite Er. split; [constructor|].
    split; [done|]. exists q0. split; [|by split].
    rewrite (af_others _ _ _ _ H2), (os_others _ _ _ H1); [done| |].
    + by rewrite (owned_at m1 oid q0), Hr0, bool_decide_false.
    + rewrite (owned_same m1), (owned_at m1 oid q0), Hr0; [|done|by eapply own_rids].
      apply bool_decide_eq_false. intros Hi. apply R2, elem_of_app. by right.
  - done.
Qed.

(** It fails. *)
Lemma selection_failed e m2 :
  own_steps [rid] m m2 → all_failed H [(rid, e)] m2 m1 → extendable m oid = true → comes_to m oid (Raise e) →
  ∃ m3, selection m seen (oid :: reqs) l ((rid, e) :: fs) m3 m'.
Proof.
  intros Ho Hf He Hcomes. assert (elsewhere rid m m1) as Hel by by eapply failed_elsewhere.
  destruct (rest_of rid m m1 seen oid reqs l fs m0 m' Hel eq_refl Hs) as [R1 R2 R3 R4 R5].
  destruct Hs as [H1 H2 H3 _ _ _]. rewrite R1 in *.
  destruct (own_steps_commute H (map (entry_rid m) l ++ fs.*1) [(rid, e)] m2 m1 m0) as (m3 & H4 & H5); [|done..|].
  { intros rid' Hin. cbn. rewrite list_elem_of_singleton. by intros ->. }
  assert (map (entry_rid m) l ++ ((rid, e) :: fs).*1 ≡ₚ rid :: map (entry_rid m) l ++ fs.*1) as HP
    by (cbn; by rewrite Permutation_middle).
  exists m3. constructor; [| | | |done|].
  - apply (own_steps_weaken ([rid] ++ (map (entry_rid m) l ++ fs.*1))); [|by eapply own_steps_app].
    intros rid'. by rewrite HP.
  - apply (all_failed_app H [(rid, e)] fs m3 m0 m'); [|done..]. cbn. constructor.
    + intros Hi. apply R2, elem_of_app. by right.
    + by apply NoDup_app in H3 as (_ & _ & H3).
  - rewrite HP. by constructor.
  - by eapply (from_cons m seen oid reqs rid (map (entry_rid m) l ++ fs.*1)).
  - intros rid' e' [[= -> ->]|Hin]%elem_of_cons; [|by apply R5]. exists oid. by repeat split; [constructor|..].
Qed.
End Head.

Lemma select_loop_run reqs : ∀ seen m, select_ready m seen reqs →
  ∃ l fs m0 m', select_loop H MH RH seen reqs m = (Ok l, m') ∧ selection m seen reqs l fs m0 m'.
Proof.
  induction reqs as [|oid reqs IH]; intros seen m Hr.
  { exists [], [], m, m. split; [done|]. by apply selection_nil. }
  cbn [select_loop]. erewrite moss_bind_run by reflexivity. set (rid := rid_of m oid).
  case_bool_decide as Hseen.
  { destruct (IH seen m) as (l & fs & m0 & m' & E & Hs); [by eapply ready_seen|].
    exists l, fs, m0, m'. split; [exact E|]. by apply selection_seen. }
  destruct (sl_reqs _ _ _ Hr oid) as (q & Hq & Hx); [constructor|].
  assert (q_rid q = rid) as Hqr by (unfold rid, rid_of; by rewrite Hq).
  destruct (extendable m oid) eqn:He.
  2:{ assert (elsewhere rid m m) as Hel by (apply own_elsewhere; [apply Hr|apply own_steps_refl]).
    destruct (IH (rid :: seen) m) as (l & fs & m0 & m' & E & Hs); [by eapply elsewhere_ready|].
    exists l, fs, m0, m'. split; [|by apply (selection_skipped m m)].
    assert (select_request H MH RH oid m = (Ok [], m)) as Es.
    { unfold select_request. erewrite moss_bind_run by reflexivity. by rewrite He. }
    rewrite (moss_bind_run _ _ _ _ _ Es), (moss_bind_run _ _ _ _ _ E). done. }
  rewrite Hqr in Hx. destruct (Hx Hseen eq_refl) as [Hc Hn].
  destruct (select_request_run rid oid m q) as (m0 & Ho & Hcase); [apply Hr|done..|].
  assert (comes_to m oid (staging (q_req_pool_idx q) (kp_table (o_pool (m_omni m))) (pending_of m rid) (e_req (q_ext q)))) as Hcomes.
  { exists q, []. by rewrite Hqr. }
  destruct (staging _ _ _ _) as [[segment x]|e].
  - destruct Hcase as [E Hobj]. assert (elsewhere rid m m0) as Hel by (apply own_elsewhere; [apply Hr|done]).
    destruct (IH (rid :: seen) m0) as (l & fs & m2 & m' & E' & Hs); [by eapply elsewhere_ready|].
    exists ((oid, pending_of m rid, segment) :: l), fs, m2, m'. split; [|by apply (selection_staged m m0 m2 m' seen oid reqs l fs Hr Hseen Hs segment x)].
    rewrite (moss_bind_run _ _ _ _ _ E), (moss_bind_run _ _ _ _ _ E'). done.
  - destruct Hcase as (m1 & E & Hf). assert (elsewhere rid m m1) as Hel by by eapply failed_elsewhere.
    destruct (IH (rid :: seen) m1) as (l & fs & m2 & m' & E' & Hs); [by eapply elsewhere_ready|].
    destruct (selection_failed m m1 m2 m' seen oid reqs l fs Hr Hseen Hs e m0) as [m3 Hsel]; [done..|].
    exists l, ((rid, e) :: fs), m3, m'. split; [|done].
    rewrite (moss_bind_run _ _ _ _ _ E), (moss_bind_run _ _ _ _ _ E'). done.
Qed.
End Select.
