(* ===== verification/MossPlan.v ===== *)
(** * The realtime scheduler: from the selection to the extend batch

    The selection of a planning round with its memory budget: from a state in which every
    running and parked request has one object with its own row, the requests with events are
    staged or failed one by one, and those that stay staged fit the pool. *)
From S2P Require Import Prelude PyNum Payload Accounting SessionState Visibility KVLayout FramePlan RuntimeState Segment.
From S2P Require Import FrameApply BatchAdapter Extend Odict OmniState Silent Intake Terminal MossState MossAbort MossStep MossDemo MossFail MossBody MossAll MossBudget MossFit MossRound MossSelect.
Local Open Scope Z_scope.

Section Plan.
Context `{ME : MossEnv} {Out Image : Type} (H : Hooks) (MH : MossHooks (Out := Out)).
Context (RH : RoundHooks (Image := Image)).

(** The requests the scheduler considers. *)
Definition candidates (m : Moss) : list nat := running_reqs m ++ map snd (m_parked_reqs m).

Definition one_object_each (m : Moss) : Prop :=
  ∀ oid oid', oid ∈ candidates m → oid' ∈ candidates m → rid_of m oid = rid_of m oid' → oid = oid'.

Record plan_ready (m : Moss) : Prop := {
  pr_ok : moss_ok m;
  pr_rows : rows_apart m;
  pr_objects : ∀ oid, oid ∈ candidates m → ∃ q, req_at m oid = Some q ∧
    holding (m_omni m) oid = true ∧ not_launched m (q_rid q) ∧
    (extendable m oid = true → clean (e_req (q_ext q)));
  pr_unique : one_object_each m
}.

(** ** The live dictionary *)

Lemma live_covers m oid : oid ∈ candidates m → rid_of m oid ∈ od_keys (live_requests m).
Proof.
  assert (∀ k v (d : list (string * nat)) k0, k0 ∈ od_keys d ∨ k0 = k → k0 ∈ od_keys (od_set k v d))
    as Hset.
  { intros k v d k0 Hk. rewrite od_set_keys. destruct (od_mem k d) eqn:E.
    - destruct Hk as [Hk| ->]; [done|]. by apply od_mem_true.
    - rewrite elem_of_app, list_elem_of_singleton. tauto. }
  assert (∀ k v (d : list (string * nat)) k0, k0 ∈ od_keys d ∨ k0 = k →
    k0 ∈ od_keys (od_setdefault k v d)) as Hdef.
  { intros k v d k0 Hk. rewrite od_setdefault_keys. destruct (od_mem k d) eqn:E.
    - destruct Hk as [Hk| ->]; [done|]. by apply od_mem_true.
    - rewrite elem_of_app, list_elem_of_singleton. tauto. }
  assert (∀ f : string → nat → list (string * nat) → list (string * nat),
    (∀ k v d k0, k0 ∈ od_keys d ∨ k0 = k → k0 ∈ od_keys (f k v d)) →
    ∀ l d, (oid ∈ l ∨ rid_of m oid ∈ od_keys d) →
    rid_of m oid ∈ od_keys (foldl (fun d o => f (rid_of m o) o d) d l)) as Hfold.
  { intros f Hf. induction l as [|o l IH]; intros d Hd; cbn [foldl].
    - destruct Hd as [Hd|Hd]; [by apply not_elem_of_nil in Hd|done].
    - apply IH. rewrite elem_of_cons in Hd. destruct Hd as [[->|Hd]|Hd]; [right|by left|right];
        apply Hf; tauto. }
  unfold candidates. rewrite elem_of_app. intros Ho. unfold live_requests.
  apply (Hfold od_setdefault Hdef). destruct Ho as [Ho|Ho]; [right|by left].
  apply (Hfold od_set Hset). by left.
Qed.

Lemma live_candidate m rid oid :
  od_get rid (live_requests m) = Some oid → rid_of m oid = rid ∧ oid ∈ candidates m.
Proof.
  intros Hget%od_get_elem. destruct (live_requests_ok m) as [_ Hl].
  destruct (Hl rid oid Hget) as [Hr Ho]. split; [done|]. unfold candidates. by rewrite elem_of_app.
Qed.

Lemma live_get m oid :
  one_object_each m → oid ∈ candidates m → od_get (rid_of m oid) (live_requests m) = Some oid.
Proof.
  intros Hu Ho. destruct (od_get (rid_of m oid) (live_requests m)) as [o|] eqn:E.
  - destruct (live_candidate m _ _ E) as [Hr Ho']. f_equal. by apply Hu.
  - apply od_get_None in E. by apply live_covers in Ho.
Qed.

(** ** What stays under consideration *)

Lemma candidates_own rids m m1 : own_steps rids m m1 → candidates m1 = candidates m.
Proof. intros Hs. rewrite (os_only _ _ _ Hs). done. Qed.

Lemma running_failed l m m' oid :
  all_failed H l m m' → oid ∈ running_reqs m' ↔ oid ∈ running_reqs m ∧ owned m l.*1 oid = false.
Proof.
  intros Ha. assert (o_running_batch (m_omni m') = o_running_batch (m_omni m)) as Hb.
  { pose proof (af_slots _ _ _ _ Ha) as Hs. unfold slots in Hs. congruence. }
  unfold running_reqs. rewrite Hb. destruct (o_running_batch (m_omni m)) as [bid|] eqn:Eb.
  2:{ pose proof (not_elem_of_nil oid). tauto. }
  unfold batch_reqs. rewrite (af_batches _ _ _ _ Ha), bool_decide_true.
  - by rewrite elem_of_lfilter, negb_true_iff.
  - unfold batch_slots. rewrite Eb. simpl. constructor.
Qed.

Lemma candidates_failed l m m' oid :
  all_failed H l m m' → moss_ok m →
  oid ∈ candidates m' ↔ oid ∈ candidates m ∧ owned m l.*1 oid = false.
Proof.
  intros Ha Hok. unfold candidates. rewrite !elem_of_app, (af_parked _ _ _ _ Ha).
  rewrite (running_failed l m m' oid Ha).
  assert (oid ∈ map snd (filter (fun p => p.1 ∉ l.*1) (m_parked_reqs m)) ↔
    oid ∈ map snd (m_parked_reqs m) ∧ owned m l.*1 oid = false) as ->; [|tauto].
  assert (∀ rid, (rid, oid) ∈ m_parked_reqs m → rid ∉ l.*1 ↔ owned m l.*1 oid = false) as Hp.
  { intros rid Hin. apply (od_elem_get _ _ _ (ok_parked_wf _ Hok)) in Hin.
    destruct (ok_parked _ Hok rid oid Hin) as [(q & Hq & <-)%rid_is_true _].
    rewrite (owned_at m oid q) by done. by rewrite bool_decide_eq_false. }
  rewrite !list_elem_of_In, !in_map_iff. split.
  - intros ([rid o] & Ho & Hin%list_elem_of_In). simpl in Ho. subst o.
    apply list_elem_of_filter in Hin as [Hn Hin]. split; [|by apply (Hp rid)].
    exists (rid, oid). split; [done|by apply list_elem_of_In].
  - intros (([rid o] & Ho & Hin%list_elem_of_In) & Hown). simpl in Ho. subst o.
    exists (rid, oid). split; [done|]. apply list_elem_of_In, list_elem_of_filter.
    split; [by apply (Hp rid)|done].
Qed.

(** ** The budget is ready *)

Lemma plan_select_ready m : plan_ready m → select_ready m [] (candidates m).
Proof.
  intros [Hok Hrows Hobj Hu]. constructor; [done| |exact Hu].
  intros oid Ho. destruct (Hobj oid Ho) as (q & Hq & _ & Hn & Hc). exists q. split; [done|].
  intros _ He. split; [by apply Hc|done].
Qed.

Lemma selection_budget_ready m l fs m0 m' :
  release_frees H → plan_ready m → selection H RH m [] (candidates m) l fs m0 m' → budget_ready m' l.
Proof.
  intros Hfrees [Hok Hrows Hobj Hu] [Hown Hf Hnd Hfrom Hst _].
  assert (moss_ok m0) as Hok0 by by eapply own_ok.
  assert (∀ oid, rid_of m0 oid = rid_of m oid) as Hr0 by (intros; by eapply rid_of_same, own_rids).
  assert (∀ oid, rid_of m' oid = rid_of m oid) as Hr'.
  { intros oid. rewrite <- Hr0. apply rid_of_same, Hf. }
  assert (∀ oid, oid ∈ candidates m' ↔ oid ∈ candidates m ∧ owned m fs.*1 oid = false) as Hcand.
  { intros oid. rewrite (candidates_failed fs m0 m' oid Hf Hok0), (candidates_own _ _ _ Hown).
    rewrite (owned_same m); [done|]. by eapply own_rids. }
  assert (one_object_each m') as Hu'.
  { intros o o' [Ho _]%Hcand [Ho' _]%Hcand. rewrite !Hr'. by apply Hu. }
  constructor.
  - apply Hf.
  - eapply (failed_rows_apart H Hfrees); [|exact Hf]. by eapply own_rows_apart.
  - intros rid oid [Hr Ho]%live_candidate. apply Hcand in Ho as [Ho Hn].
    destruct (Hobj oid Ho) as (q & Hq & Hh & Hl & _).
    assert (q_rid q = rid) as Hqr by (rewrite Hr' in Hr; unfold rid_of in Hr; by rewrite Hq in Hr).
    split.
    + rewrite <- (own_holding _ _ _ Hown) in Hh. unfold holding in *.
      pose proof (af_others _ _ _ _ Hf oid) as Hx. unfold req_at in Hx. rewrite Hx; [done|].
      rewrite (owned_same m); [done|]. by eapply own_rids.
    + rewrite <- Hqr. eapply all_failed_not_launched; [exact Hf|]. by eapply own_not_launched.
  - intros en Hin. destruct (Hst en Hin) as (Ho & _ & q & Hq & Hqr & (r & r1 & recs & Hc & Hap & Hrec)%staged_from_half).
    split; [|by exists q, r, r1, recs]. apply live_get; [done|]. apply Hcand. split; [done|].
    destruct (Hobj _ Ho) as (q0 & Hq0 & _). rewrite (owned_at m _ q0) by done.
    apply bool_decide_eq_false. intros Hi. apply NoDup_app in Hnd as (_ & Hd & _).
    apply (Hd (q_rid q0)); [|done]. apply list_elem_of_In, in_map_iff. exists en.
    split; [|by apply list_elem_of_In]. unfold entry_rid, rid_of. by rewrite Hq0.
Qed.

Context (Hlaw : moss_release_law H) (Hentry : h_is_entry_rank H = true).

Lemma select_extensions_run m :
  release_frees H → counts_free → plan_ready m →
  ∃ l fs m0 m1 victims m',
    select_extensions H MH RH m = (Ok (survivors m1 victims l), m') ∧
    selection H RH m [] (candidates m) l fs m0 m1 ∧ budget_ready m1 l ∧
    chosen m1 (live_requests m1) (free_count m1) l victims ∧
    all_failed H (evictions victims) m1 m' ∧
    ∀ en, en ∈ l → rid_of m1 (entry_req en) ∈ victims →
      ∃ en', en' ∈ l ∧ entry_req en' = entry_req en ∧ unappended m1 m' en'.
Proof.
  intros Hfrees Hcount Hp.
  destruct (select_loop_run H MH RH Hlaw Hentry (candidates m) [] m) as (l & fs & m0 & m1 & E & Hs).
  { by apply plan_select_ready. }
  assert (budget_ready m1 l) as Hb by by eapply selection_budget_ready.
  unfold select_extensions. erewrite moss_bind_run by reflexivity. fold (candidates m).
  rewrite (moss_bind_run _ _ _ _ _ E). destruct l as [|en l].
  - exists [], fs, m0, m1, [], m1. split; [done|]. split; [done|]. split; [done|].
    split; [by apply no_victims; left|]. split; [apply all_failed_nil, Hs|].
    by intros en ?%not_elem_of_nil.
  - destruct (enforce_run H MH Hcount Hlaw Hentry m1 (en :: l) Hb) as (m' & E' & Hch & Ha & Hun).
    eexists (en :: l), fs, m0, m1, _, m'. by split_and!.
Qed.
(** ** The decode guard *)

(** The next decode step has no room for the request. *)
Definition no_room (m : Moss) (oid : nat) : bool :=
  match req_at m oid with
  | Some q => negb (finished q) &&
      match realtime_decode_capacity_error (req_state q) (e_kv_allocated_len (q_ext q))
              (row_width (kp_table (o_pool (m_omni m)))) with Some _ => true | None => false end
  | None => false
  end.

(** The row and the context hold the next step: the slot after what is committed and allocated is
    inside the row, and the images appended so far, the tokens behind them, the pending token and
    the one the step samples stay within the context limit, which is the width of the row when
    none is set. *)
Record room_for_step (width : Z) (q : ReqObj) : Prop := {
  rs_row : ∀ n, n = committed_kv (req_state q) ∨ e_kv_allocated_len (q_ext q) = Some n → n < width;
  rs_context : ∀ n limit,
    n = committed_kv (req_state q) ∨ e_kv_allocated_len (q_ext q) = Some n →
    (r_context_limit (req_state q) = Some limit ∧ limit ≠ 0) ∨
    ((r_context_limit (req_state q) = None ∨ r_context_limit (req_state q) = Some 0) ∧ limit = width) →
    effective_appended_encoder_length (req_state q) + (n - r_encoder_length (req_state q)) + 1 + 1 ≤ limit
}.

Lemma room_spec w q :
  realtime_decode_capacity_error (req_state q) (e_kv_allocated_len (q_ext q)) w = None ↔
  room_for_step w q.
Proof.
  unfold realtime_decode_capacity_error. set (st := req_state q). set (c := committed_kv st).
  assert (∀ limit, ((r_context_limit st = Some limit ∧ limit ≠ 0) ∨
    ((r_context_limit st = None ∨ r_context_limit st = Some 0) ∧ limit = w)) ↔
    limit = limit_or (r_context_limit st) w) as Hlim.
  { intros limit. unfold limit_or. destruct (r_context_limit st) as [l|]; [|naive_solver].
    destruct (Z.eqb_spec l 0); naive_solver. }
  set (n := Z.max _ _).
  assert (∀ k, (k = c ∨ e_kv_allocated_len (q_ext q) = Some k) → k ≤ n) as Hle.
  { unfold n. intros k [->| ->]; simpl; lia. }
  assert (n = c ∨ e_kv_allocated_len (q_ext q) = Some n) as Hmax.
  { unfold n. destruct (e_kv_allocated_len (q_ext q)) as [a|]; simpl; [|left; lia].
    destruct (Z.max_spec c a) as [[_ ->]|[_ ->]]; auto. }
  clearbody n. destruct (_ || _) eqn:E; split; [done| |intros _|done].
  - intros [R1 R2]. specialize (R1 n Hmax). specialize (R2 n _ Hmax (proj2 (Hlim _) eq_refl)).
    fold st in R2. exfalso. apply orb_true_iff in E as [?%Z.ltb_lt|?%Z.ltb_lt]; lia.
  - apply orb_false_iff in E as [?%Z.ltb_ge ?%Z.ltb_ge]. constructor.
    + intros k Hk%Hle. lia.
    + intros k limit Hk%Hle ->%Hlim. fold st. lia.
Qed.

Lemma no_room_spec m oid q :
  req_at m oid = Some q →
  no_room m oid = true ↔
    finished q = false ∧ ¬ room_for_step (row_width (kp_table (o_pool (m_omni m)))) q.
Proof.
  intros Hq. unfold no_room. rewrite Hq, andb_true_iff, negb_true_iff. apply and_iff_compat_l.
  rewrite <- room_spec. destruct (realtime_decode_capacity_error _ _ _); naive_solver.
Qed.

Lemma capacity_violations_spec m :
  od_wf (capacity_violations m) ∧
  ∀ rid, rid ∈ od_keys (capacity_violations m) ↔
    ∃ oid, oid ∈ running_reqs m ∧ rid_of m oid = rid ∧ no_room m oid = true.
Proof.
  unfold capacity_violations. set (f := fun d oid => _).
  assert (∀ l d, od_wf d → od_wf (foldl f d l) ∧
    ∀ rid, rid ∈ od_keys (foldl f d l) ↔
      rid ∈ od_keys d ∨ ∃ oid, oid ∈ l ∧ rid_of m oid = rid ∧ no_room m oid = true) as Hgen.
  { induction l as [|oid l IH]; intros d Hd; cbn [foldl].
    - split; [done|]. intros rid. split; [by left|].
      intros [?|(o & ?%not_elem_of_nil & _)]; done.
    - assert (od_wf (f d oid) ∧ ∀ rid, rid ∈ od_keys (f d oid) ↔
        rid ∈ od_keys d ∨ rid_of m oid = rid ∧ no_room m oid = true) as [Hwf Hk].
      { unfold f, no_room, rid_of. destruct (req_at m oid) as [q|] eqn:Hq; [|naive_solver].
        destruct (realtime_decode_capacity_error _ _ _) as [e|]; simpl;
          [|rewrite andb_false_r; naive_solver].
        destruct (finished q); simpl; [naive_solver|]. split; [by apply od_set_wf|].
        intros rid. rewrite od_set_keys. destruct (od_mem (q_rid q) d) eqn:E.
        - apply od_mem_true in E. naive_solver.
        - rewrite elem_of_app, list_elem_of_singleton. naive_solver. }
      destruct (IH _ Hwf) as [Hwf2 Hk2]. split; [done|]. intros rid. rewrite Hk2, Hk.
      split; [intros [[?|[? ?]]|(o & ? & ?)]|intros [?|(o & [->|?]%elem_of_cons & ? & ?)]]; eauto 6.
      + right. exists oid. split; [constructor|done].
      + right. exists o. split; [by constructor|done]. }
  destruct (Hgen (running_reqs m) []) as [Hwf Hk]; [constructor|]. split; [done|].
  intros rid. rewrite Hk. split; [intros [?%not_elem_of_nil|?]; done|by right].
Qed.

Definition too_long (m : Moss) : list (string * pyexn) :=
  map (fun p => (p.1, no_decode_room p.2)) (capacity_violations m).

Lemma too_long_fst m : (too_long m).*1 = od_keys (capacity_violations m).
Proof. unfold too_long, od_keys. induction (capacity_violations m) as [|p l IH]; [done|]. cbn. by f_equal. Qed.

Lemma guard_run m :
  moss_ok m → o_async_pending (m_omni m) = None →
  ∃ m', guard_decode_capacity H MH m = (Ok tt, m') ∧ all_failed H (too_long m) m m'.
Proof.
  intros Hok Hp. destruct (capacity_violations_spec m) as [Hwf _].
  destruct (fail_all_run H MH Hlaw Hentry (too_long m) m Hok) as (m' & E & Ha).
  { by rewrite too_long_fst. }
  { intros rid _ bid oid Hb. congruence. }
  exists m'. split; [|done]. unfold guard_decode_capacity. erewrite moss_bind_run by reflexivity.
  assert ((if bool_decide (capacity_violations m ≠ []) then resolve_pending_async H MH else mret tt) m =
    (Ok tt, m)) as E0.
  { case_bool_decide; [|done]. unfold resolve_pending_async. erewrite moss_bind_run by reflexivity.
    by rewrite Hp. }
  rewrite (moss_bind_run _ _ _ _ _ E0). exact E.
Qed.

(** Nobody is left without room. *)
Lemma failed_no_room m m' oid :
  release_frees H → rows_apart m → moss_ok m → all_failed H (too_long m) m m' →
  oid ∈ running_reqs m' → no_room m' oid = false.
Proof.
  intros Hfrees Hrows Hok Ha Ho. destruct (rows_freed_of H Hfrees _ m m' Hrows Ha) as (qs & Hf).
  apply (running_failed _ m m' oid Ha) in Ho as [Ho Hown].
  unfold no_room. rewrite (rf_table _ _ _ _ Hf), (af_others _ _ _ _ Ha) by done.
  fold (no_room m oid). destruct (no_room m oid) eqn:E; [|done].
  assert (rid_of m oid ∈ (too_long m).*1) as Hin.
  { rewrite too_long_fst. apply capacity_violations_spec. by exists oid. }
  unfold owned, rid_of, no_room in *. destruct (req_at m oid); [|done].
  by apply bool_decide_eq_false in Hown.
Qed.
End Plan.

(** C9: Selecting the requests to extend cannot break the scheduler: whatever the processor, the
    tokenizer and the frame resolver raise, each candidate with pending events is staged - the
    segment appended to it is the one built from all its pending events with their resolved
    images behind its history - or, exactly when this raises, failed alone with what it raised;
    no other request is touched, none is selected twice, the requests the memory budget evicts
    are as they were before their append, and what stays selected fits the free slots of the
    pool. *)
Theorem extensions_selected `{ME : MossEnv} {Out Image} H (MH : MossHooks (Out := Out))
    (RH : RoundHooks (Image := Image)) m :
  release_frees H → counts_free → moss_release_law H → h_is_entry_rank H = true → plan_ready m →
  ∃ l fs m0 m1 victims m',
    select_extensions H MH RH m = (Ok (survivors m1 victims l), m') ∧
    selection H RH m [] (candidates m) l fs m0 m1 ∧
    chosen m1 (live_requests m1) (free_count m1) l victims ∧
    all_failed H (evictions victims) m1 m' ∧
    (∀ en, en ∈ l → rid_of m1 (entry_req en) ∈ victims →
       ∃ en', en' ∈ l ∧ entry_req en' = entry_req en ∧ unappended m1 m' en') ∧
    (survivors m1 victims l = [] ∨
     ∃ n, available_size (kp_allocator (o_pool (m_omni m'))) = Some n ∧
       needed (survivors m1 victims l) ≤ n).
Proof.
  intros Hfrees Hcount Hlaw Hentry Hp.
  destruct (select_extensions_run H MH RH Hlaw Hentry m Hfrees Hcount Hp)
    as (l & fs & m0 & m1 & victims & m' & E & Hs & Hb & Hch & Ha & Hun).
  exists l, fs, m0, m1, victims, m'. split_and!; [done..|].
  destruct (ch_fits _ _ _ _ _ Hch) as [Hx|Hx]; [by left|right].
  exists (free_count m'). split; [apply Hcount|].
  pose proof (victims_freed H Hfrees m1 l victims m' Hb Hch Ha) as Hf. lia.
Qed.

(** C20: The decode guard: with no step in flight, planning a decode never raises and fails,
    each alone, exactly the unfinished running requests without room for the next step; every
    unfinished request still in the running batch has it: the slot behind everything committed
    and allocated is inside its row, and its appended images, the tokens behind them, the
    pending token and the one the step samples stay within its context limit. *)
Theorem decode_capacity_guarded `{ME : MossEnv} {Out} H (MH : MossHooks (Out := Out)) m :
  release_frees H → moss_release_law H → h_is_entry_rank H = true →
  moss_ok m → rows_apart m → o_async_pending (m_omni m) = None →
  ∃ m', guard_decode_capacity H MH m = (Ok tt, m') ∧ all_failed H (too_long m) m m' ∧
    (∀ rid, rid ∈ (too_long m).*1 ↔
      ∃ oid q, oid ∈ running_reqs m ∧ req_at m oid = Some q ∧ q_rid q = rid ∧
        finished q = false ∧ ¬ room_for_step (row_width (kp_table (o_pool (m_omni m)))) q) ∧
    (∀ oid q, oid ∈ running_reqs m' → req_at m' oid = Some q → finished q = false →
      room_for_step (row_width (kp_table (o_pool (m_omni m')))) q).
Proof.
  intros Hfrees Hlaw Hentry Hok Hrows Hp.
  destruct (guard_run H MH Hlaw Hentry m Hok Hp) as (m' & E & Ha).
  exists m'. split; [done|]. split; [done|]. split.
  { intros rid. rewrite too_long_fst, (proj2 (capacity_violations_spec m)). split.
    - intros (oid & Ho & <- & Hn). unfold rid_of. destruct (req_at m oid) as [q|] eqn:Hq.
      + exists oid, q. by apply (no_room_spec m oid q Hq) in Hn.
      + unfold no_room in Hn. by rewrite Hq in Hn.
    - intros (oid & q & Ho & Hq & <- & Hn). exists oid. split; [done|].
      split; [unfold rid_of; by rewrite Hq|by apply (no_room_spec m oid q Hq)]. }
  intros oid q Ho Hq Hfin. pose proof (failed_no_room H m m' oid Hfrees Hrows Hok Ha Ho) as Hx.
  apply room_spec. unfold no_room in Hx. rewrite Hq, Hfin in Hx.
  by destruct (realtime_decode_capacity_error _ _ _).
Qed.

(** ** Witness *)

#[local] Existing Instance demo_env.

Definition demo_prompt : FramePromptEvent :=
  {| ev_request_id := "a"; ev_session_id := "s"; ev_seq_no := 4; ev_timestamp := NInt 3;
     ev_frame_ref := None; ev_prompt := Some "hi"; ev_final := false; ev_fingerprint := None |}.

Definition demo_round : RoundHooks (Image := unit) :=
  {| rh_processor := demo_processor; rh_tokenizer := demo_tokenizer; rh_digest := fun _ => 17;
     rh_pad_value := fun h => h + 1; rh_image_token_id := 9; rh_merge_size := 2;
     rh_frame_resolver := fun _ => Raise (ValueError "no frame"); rh_frame_window := None;
     rh_apply_window := fun _ _ _ => mret tt; rh_prepare_for_extend := fun _ => mret 1%nat;
     rh_prefill_plan := fun b => mret (None, b); rh_next_plan := fun hook b _ => hook b |}.

(** Both sessions have a prompt pending; [a] can take it, [b] has no pending token. *)
Definition demo_prompted : Moss :=
  demo_with (demo_a (demo_session "a" 0 2 DECODING <| x_state :=
      demo_state "a" 0 2 DECODING <| r_next_mrope_position := 2 |>
        <| r_mrope_positions := Some ([0; 1], [0; 1], [0; 1]) |>
        <| r_visible_frame_counts := Some [0; 0] |> |>))
    {["a" := set_pending [demo_prompt] (new_session "a" "s");
      "b" := set_pending [demo_prompt] (new_session "b" "s")]}.

Lemma demo_plan_ready : plan_ready demo_prompted.
Proof.
  assert (candidates demo_prompted = [0%nat; 1%nat]) as Ec by by vm_compute.
  constructor; [by apply demo_with_ok|apply demo_with_rows; by vm_compute| |].
  - intros oid Ho. rewrite Ec in Ho.
    apply elem_of_cons in Ho as [->|[->|Ho%not_elem_of_nil]%elem_of_cons]; [..|done];
      (eexists; split; [reflexivity|]; split; [by vm_compute|]; split; [by intros bid o|]);
      intros _; by repeat split.
  - intros oid oid' Ho Ho'. rewrite Ec in Ho, Ho'.
    apply elem_of_cons in Ho as [->|[->|Ho%not_elem_of_nil]%elem_of_cons]; [..|done];
      apply elem_of_cons in Ho' as [->|[->|Ho'%not_elem_of_nil]%elem_of_cons]; try done;
      intros Hx; vm_compute in Hx; discriminate Hx.
Qed.

Lemma extensions_selected_witness :
  ∃ l m', select_extensions demo_hooks demo_moss_hooks demo_round demo_prompted = (Ok l, m') ∧
    map entry_req l = [0%nat] ∧ map out_rid (o_outbox (m_omni m')) = ["b"] ∧ l ≠ [] ∧
    ∃ n, available_size (kp_allocator (o_pool (m_omni m'))) = Some n ∧ needed l ≤ n.
Proof.
  destruct (extensions_selected demo_hooks demo_moss_hooks demo_round demo_prompted
    demo_release_frees (fun _ => eq_refl) demo_law eq_refl demo_plan_ready)
    as (l & fs & m0 & m1 & victims & m' & E & _ & _ & _ & _ & Hfit).
  assert (match select_extensions demo_hooks demo_moss_hooks demo_round demo_prompted with
          | (Ok l, m) => bool_decide (map entry_req l = [0%nat]) &&
                         bool_decide (map out_rid (o_outbox (m_omni m)) = ["b"])
          | _ => false end = true) as Hrun by by vm_compute.
  rewrite E in Hrun. apply andb_true_iff in Hrun as [H1%bool_decide_eq_true H2%bool_decide_eq_true].
  eexists _, m'. split; [exact E|]. split; [exact H1|]. split; [exact H2|].
  assert (survivors m1 victims l ≠ []) as Hne by (intros Hx; rewrite Hx in H1; discriminate H1).
  split; [exact Hne|]. destruct Hfit as [Hx|Hx]; [destruct (Hne Hx)|exact Hx].
Defined.

(** The demonstration state with the row of [a] almost full. *)
Definition demo_long : Moss :=
  demo_with (demo_a (demo_session "a" 0 2 DECODING <| x_state :=
      demo_state "a" 0 2 DECODING <| r_context_limit := Some 3 |> |>)) (m_sessions demo_moss).

Lemma decode_capacity_guarded_witness :
  (too_long demo_long).*1 = ["a"] ∧
  ∃ m', guard_decode_capacity demo_hooks demo_moss_hooks demo_long = (Ok tt, m') ∧
    map out_rid (o_outbox (m_omni m')) = ["a"].
Proof.
  assert ((too_long demo_long).*1 = ["a"]) as Hl by by vm_compute.
  split; [exact Hl|].
  destruct (decode_capacity_guarded demo_hooks demo_moss_hooks demo_long demo_release_frees demo_law
    eq_refl) as (m' & E & Ha & _).
  - by apply demo_with_ok.
  - apply demo_with_rows; by vm_compute.
  - reflexivity.
  - exists m'. split; [exact E|]. rewrite (af_outbox _ _ _ _ Ha), map_app, map_map. cbn [out_rid].
    change (map out_rid (o_outbox (m_omni demo_long))) with (@nil string). exact Hl.
Defined.
