(* ===== verification/Coord.v ===== *)
(** * The pipeline coordinator

    Models [Coordinator] ([src/sglang_omni/pipeline/coordinator.py]): the stage registry with its
    replicas, the request table, completion futures, stream queues and abort tasks, and the
    operations on them.

    The coordinator is a single-threaded [asyncio] program: between two suspension points its
    code runs alone.  A method that suspends is cut there: [submit_request] ends where the
    message is handed to the control plane and [submit_sent]/[submit_failed] go on from it, and so
    on.  [CoordSteps] puts the pieces together.  Request objects, futures and queues are shared
    between the tables and the suspended methods: they live in stores, by identity.  Putting on
    an unbounded [asyncio.Queue] does not suspend. *)
From S2P Require Import Prelude Odict.

(** ** Data *)

Inductive RequestState : Type := R_PENDING | R_RUNNING | R_COMPLETED | R_FAILED | R_ABORTED.

#[global] Instance RequestState_eq_dec : EqDecision RequestState.
Proof. solve_decision. Defined.

Record ReplicaInfo : Type := {
  ri_dp_rank : nat; ri_endpoint : string; ri_inflight : nat; ri_capacity : option nat
}.

#[global] Instance eta_ReplicaInfo : Eta ReplicaInfo := fun r =>
  {| ri_dp_rank := ri_dp_rank r; ri_endpoint := ri_endpoint r; ri_inflight := ri_inflight r;
     ri_capacity := ri_capacity r |}.

(** [is_full]. *)
Definition is_full (r : ReplicaInfo) : bool :=
  match ri_capacity r with Some c => c <=? ri_inflight r | None => false end.

(** The result of a request: what its one terminal stage sent, or the results by stage. *)
Inductive Output (V : Type) : Type :=
| OneResult (v : V)
| Merged (l : list (string * V)).
Arguments OneResult {V} v.
Arguments Merged {V} l.

Inductive Future (V : Type) : Type :=
| FPending
| FResult (v : Output V)
| FException (e : pyexn)
| FCancelled.
Arguments FPending {V}.
Arguments FResult {V} v.
Arguments FException {V} e.
Arguments FCancelled {V}.

Definition done {V} (f : Future V) : bool := match f with FPending => false | _ => true end.

Record CompleteMessage (V : Type) : Type := {
  cm_request_id : string; cm_from_stage : string; cm_success : bool; cm_result : option V;
  cm_error : option string
}.
Arguments cm_request_id {V} c.
Arguments cm_from_stage {V} c.
Arguments cm_success {V} c.
Arguments cm_result {V} c.
Arguments cm_error {V} c.

(** What a stream's consumer takes from its queue. *)
Inductive QMsg (V Chunk : Type) : Type :=
| QComplete (c : CompleteMessage V)
| QStream (from_stage : string) (chunk : Chunk).
Arguments QComplete {V Chunk} c.
Arguments QStream {V Chunk} from_stage chunk.

Record RequestInfo (V : Type) : Type := {
  i_state : RequestState;
  i_current_stage : option string;
  i_terminal_stages : option (gset string);
  i_result : option (Output (option V));
  i_error : option string;
  i_owner_endpoint : option string;
  i_owner_dp_rank : option nat
}.
Arguments i_state {V} r.
Arguments i_current_stage {V} r.
Arguments i_terminal_stages {V} r.
Arguments i_result {V} r.
Arguments i_error {V} r.
Arguments i_owner_endpoint {V} r.
Arguments i_owner_dp_rank {V} r.

#[global] Instance eta_RequestInfo {V} : Eta (RequestInfo V) := fun i =>
  {| i_state := i_state i; i_current_stage := i_current_stage i;
     i_terminal_stages := i_terminal_stages i; i_result := i_result i; i_error := i_error i;
     i_owner_endpoint := i_owner_endpoint i; i_owner_dp_rank := i_owner_dp_rank i |}.

(** A message handed to the control plane. *)
Inductive Sent (Request : Type) : Type :=
| SentSubmit (endpoint rid : string) (r : Request)
| SentUpdate (endpoint rid : string)
| SentAbort (rid : string).
Arguments SentSubmit {Request} endpoint rid r.
Arguments SentUpdate {Request} endpoint rid.
Arguments SentAbort {Request} rid.

Section Coordinator.
Context {V Chunk Request : Type}.

Record Coord : Type := {
  k_entry_stage : string;
  k_terminal_stages : gset string;
  k_partial_results : gmap string (list (string * option V));
  k_stages : list (string * list ReplicaInfo);
  k_rr_cursors : gmap string nat;
  k_requests : list (string * nat);
  k_completion_futures : gmap string nat;
  k_stream_queues : gmap string nat;
  k_abort_tasks : gmap string nat;
  k_running : bool;
  k_fatal_error : option string;
  (** the objects *)
  k_next : nat;
  k_infos : gmap nat (RequestInfo V);
  k_futures : gmap nat (Future (option V));
  k_queues : gmap nat (list (QMsg V Chunk));
  k_sent : list (Sent Request)
}.

#[global] Instance eta_Coord : Eta Coord := fun s =>
  {| k_entry_stage := k_entry_stage s; k_terminal_stages := k_terminal_stages s;
     k_partial_results := k_partial_results s; k_stages := k_stages s;
     k_rr_cursors := k_rr_cursors s; k_requests := k_requests s;
     k_completion_futures := k_completion_futures s; k_stream_queues := k_stream_queues s;
     k_abort_tasks := k_abort_tasks s; k_running := k_running s;
     k_fatal_error := k_fatal_error s; k_next := k_next s; k_infos := k_infos s;
     k_futures := k_futures s; k_queues := k_queues s; k_sent := k_sent s |}.

(** [__init__] and [start]. *)
Definition new_coordinator (entry : string) (terminal : list string) : Coord :=
  {| k_entry_stage := entry; k_terminal_stages := list_to_set terminal; k_partial_results := ∅;
     k_stages := []; k_rr_cursors := ∅; k_requests := []; k_completion_futures := ∅;
     k_stream_queues := ∅; k_abort_tasks := ∅; k_running := true; k_fatal_error := None;
     k_next := 0; k_infos := ∅; k_futures := ∅; k_queues := ∅; k_sent := [] |}.

Abbreviation MC := (M Coord).

(** The object a request's identifier stands for. *)
Definition request_of (s : Coord) (rid : string) : option nat := od_get rid (k_requests s).

Definition info_of (s : Coord) (rid : string) : option (RequestInfo V) :=
  request_of s rid ≫= fun oid => k_infos s !! oid.

Definition tracked (s : Coord) (rid : string) : bool := od_mem rid (k_requests s).

Definition on_info (oid : nat) (f : RequestInfo V → RequestInfo V) : MC unit :=
  modify (fun s => s <| k_infos := alter f oid (k_infos s) |>).

(** A new object gets the next identity. *)
Definition new_id : MC nat :=
  s ← get; _ ← assign_to k_next (S (k_next s)); mret (k_next s).

(** ** Stages and replicas *)

(** [register_stage]. *)
Definition register_stage (name endpoint : string) (dp_rank capacity : option nat) : MC unit :=
  modify (fun s =>
    let replicas := default [] (od_get name (k_stages s)) in
    s <| k_stages := od_set name (replicas ++
      [{| ri_dp_rank := default (length replicas) dp_rank; ri_endpoint := endpoint;
          ri_inflight := 0; ri_capacity := capacity |}]) (k_stages s) |>).

Definition replicas (s : Coord) (name : string) : list ReplicaInfo :=
  default [] (od_get name (k_stages s)).

(** [_replica_for], as the place of the replica. *)
Fixpoint rank_index (dp_rank : nat) (l : list ReplicaInfo) : option nat :=
  match l with
  | [] => None
  | r :: l' => if ri_dp_rank r =? dp_rank then Some 0 else S <$> rank_index dp_rank l'
  end.

Definition on_replica (name : string) (i : nat) (f : ReplicaInfo → ReplicaInfo) : MC unit :=
  modify (fun s => s <| k_stages := od_set name (alter f i (replicas s name)) (k_stages s) |>).

(** The first offset whose replica has room. *)
Definition free_offset (l : list ReplicaInfo) (cursor : nat) : option nat :=
  List.find (fun offset => match l !! ((cursor + offset) mod length l) with
                           | Some r => negb (is_full r)
                           | None => false
                           end) (seq 0 (length l)).

(** [_select_replica] of a registered stage. *)
Definition select_replica (name : string) : MC nat :=
  s ← get;
  let l := replicas s name in
  let cursor := default 0 (k_rr_cursors s !! name) mod length l in
  let offset := default 0 (free_offset l cursor) in
  _ ← modify (fun s => s <| k_rr_cursors :=
                <[name := (cursor + offset + 1) mod length l]> (k_rr_cursors s) |>);
  mret ((cursor + offset) mod length l).

(** [info.current_stage or self.entry_stage]. *)
Definition stage_or_entry (s : Coord) (stage : option string) : string :=
  match stage with
  | Some name => if String.eqb name "" then k_entry_stage s else name
  | None => k_entry_stage s
  end.

(** [_release_replica]. *)
Definition release_replica (oid : nat) : MC unit :=
  s ← get;
  match k_infos s !! oid with
  | None => mret tt
  | Some info =>
      match i_owner_dp_rank info with
      | None => mret tt
      | Some dp_rank =>
          let name := stage_or_entry s (i_current_stage info) in
          _ ← (match rank_index dp_rank (replicas s name) with
               | Some i => on_replica name i (fun r => r <| ri_inflight := ri_inflight r - 1 |>)
               | None => mret tt
               end);
          on_info oid (fun info => info <| i_owner_dp_rank := None |> <| i_owner_endpoint := None |>)
      end
  end.

(** ** Futures and queues *)

Definition future_of (s : Coord) (rid : string) : option (Future (option V)) :=
  k_completion_futures s !! rid ≫= fun fid => k_futures s !! fid.

(** [future = self._completion_futures.get(rid)]; set it if it is not done. *)
Definition settle (rid : string) (v : Coord → Future (option V)) : MC unit :=
  modify (fun s =>
    match k_completion_futures s !! rid with
    | Some fid =>
        match k_futures s !! fid with
        | Some FPending => s <| k_futures := <[fid := v s]> (k_futures s) |>
        | _ => s
        end
    | None => s
    end).

(** [_reject_completion_future]. *)
Definition reject_completion_future (rid : string) (exc : pyexn) : MC unit :=
  settle rid (fun s => match k_stream_queues s !! rid with
                       | Some _ => FCancelled
                       | None => FException exc
                       end).

(** [if rid in self._stream_queues: await self._stream_queues[rid].put(msg)]. *)
Definition put_queue (rid : string) (msg : QMsg V Chunk) : MC unit :=
  modify (fun s => match k_stream_queues s !! rid with
                   | Some qid => s <| k_queues := alter (fun q => q ++ [msg]) qid (k_queues s) |>
                   | None => s
                   end).

(** The failure the coordinator itself reports to a stream. *)
Definition own_failure (rid error : string) : QMsg V Chunk :=
  QComplete {| cm_request_id := rid; cm_from_stage := "coordinator"; cm_success := false;
               cm_result := None; cm_error := Some error |}.

Definition forget_request (rid : string) : MC unit :=
  modify (fun s => s <| k_requests := od_pop rid (k_requests s) |>).

Definition forget_partials (rid : string) : MC unit :=
  modify (fun s => s <| k_partial_results := delete rid (k_partial_results s) |>).

(** [fail_pending_requests]. *)
Definition fail_one (message : string) (p : string * nat) : MC unit :=
  _ ← on_info p.2 (fun info => info <| i_state := R_FAILED |> <| i_error := Some message |>);
  _ ← reject_completion_future p.1 (RuntimeError message);
  _ ← put_queue p.1 (own_failure p.1 message);
  release_replica p.2.

Definition fail_pending_requests (message : string) : MC unit :=
  _ ← modify (fun s => s <| k_running := false |> <| k_fatal_error := Some message |>);
  s ← get;
  _ ← mforeach (fail_one message) (k_requests s);
  modify (fun s => s <| k_requests := [] |> <| k_partial_results := ∅ |>).
End Coordinator.
Arguments Coord : clear implicits.
