(* ===== verification/CoordOps.v ===== *)
(** * The pipeline coordinator: requests

    The methods of [Coordinator] ([src/sglang_omni/pipeline/coordinator.py]) that admit, route,
    complete, stream and abort requests, each cut at its suspension points. *)
From S2P Require Import Prelude Odict Coord.

Section Ops.
Context {V Chunk Request : Type}.
Context (resolver : option (Request → result (option (list string)))).
Abbreviation MC := (M (Coord V Chunk Request)).

(** ** Terminal stages *)

(** [_resolve_terminal_stages]. *)
Definition resolve_terminal_stages (request : Request) : MC (gset string) :=
  s ← get;
  match resolver with
  | None => mret (k_terminal_stages s)
  | Some f =>
      resolved ← lift (f request);
      match resolved with
      | None => mret (k_terminal_stages s)
      | Some stages =>
          let resolved_stages : gset string := list_to_set stages in
          _ ← guard_raise (bool_decide (resolved_stages = ∅))
                (ValueError "terminal_stages_resolver returned no terminal stages");
          _ ← guard_raise (negb (bool_decide (resolved_stages ⊆ k_terminal_stages s)))
                (ValueError "terminal_stages_resolver returned stages outside the static terminal stages");
          mret resolved_stages
      end
  end.

(** [_expected_terminal_stages]. *)
Definition expected_terminal_stages (s : Coord V Chunk Request) (rid : string) : gset string :=
  match info_of s rid ≫= i_terminal_stages with
  | Some stages => stages
  | None => k_terminal_stages s
  end.

(** ** Admission *)

(** [_request_id_is_reserved]. *)
Definition request_id_is_reserved (s : Coord V Chunk Request) (rid : string) : bool :=
  tracked s rid || bool_decide (is_Some (k_completion_futures s !! rid))
  || bool_decide (is_Some (k_stream_queues s !! rid)) || bool_decide (is_Some (k_abort_tasks s !! rid)).

Definition entry_replicas (s : Coord V Chunk Request) : list ReplicaInfo := replicas s (k_entry_stage s).

(** The guards of [_submit_request], up to the choice of the replica. *)
Definition admit_request (rid : string) (dp_rank : option nat) : MC nat :=
  s ← get;
  _ ← lift (match k_fatal_error s with Some error => Raise (RuntimeError error) | None => Ok tt end);
  _ ← guard_raise (request_id_is_reserved s rid) (ValueError ("Request " ++ rid ++ " already exists"));
  _ ← guard_raise (bool_decide (entry_replicas s = []))
        (ValueError ("Entry stage " ++ k_entry_stage s ++ " not registered"));
  match dp_rank with
  | None => select_replica (k_entry_stage s)
  | Some rank =>
      lift (match rank_index rank (entry_replicas s) with
            | Some i => Ok i
            | None => Raise (ValueError ("Entry stage " ++ k_entry_stage s ++ " has no such replica"))
            end)
  end.

(** The table entries of an admitted request. *)
Definition track_request (rid : string) (queue : option nat) (terminal : gset string)
    (replica : ReplicaInfo) : MC unit :=
  oid ← new_id;
  fid ← new_id;
  modify (fun s => s
    <| k_infos := <[oid := {| i_state := R_PENDING; i_current_stage := Some (k_entry_stage s);
                               i_terminal_stages := Some terminal; i_result := None;
                               i_error := None; i_owner_endpoint := Some (ri_endpoint replica);
                               i_owner_dp_rank := Some (ri_dp_rank replica) |}]> (k_infos s) |>
    <| k_requests := od_set rid oid (k_requests s) |>
    <| k_futures := <[fid := FPending]> (k_futures s) |>
    <| k_completion_futures := <[rid := fid]> (k_completion_futures s) |>
    <| k_stream_queues := match queue with
                          | Some qid => <[rid := qid]> (k_stream_queues s)
                          | None => k_stream_queues s
                          end |>).

(** [_submit_request] up to the [await] of the control plane; the endpoint it sends to. *)
Definition submit_request (rid : string) (request : Request) (queue dp_rank : option nat)
    : MC string :=
  i ← admit_request rid dp_rank;
  s ← get;
  replica ← lift (match entry_replicas s !! i with
                  | Some r => Ok r
                  | None => Raise (IndexError "list index out of range")
                  end);
  _ ← on_replica (k_entry_stage s) i (fun r => r <| ri_inflight := S (ri_inflight r) |>);
  terminal ← resolve_terminal_stages request;
  _ ← track_request rid queue terminal replica;
  mret (ri_endpoint replica).

(** [_submit_request] after the message was sent. *)
Definition submit_sent (endpoint rid : string) (request : Request) : MC unit :=
  _ ← modify (fun s => s <| k_sent := k_sent s ++ [SentSubmit endpoint rid request] |>);
  s ← get;
  match request_of s rid with
  | Some oid => on_info oid (fun info => info <| i_state := R_RUNNING |>)
  | None => mret tt
  end.

(** [_submit_request] when sending raised. *)
Definition submit_failed (rid : string) (e : pyexn) : MC unit :=
  s ← get;
  oid ← lift (match request_of s rid with Some oid => Ok oid | None => Raise (KeyError rid) end);
  _ ← release_replica oid;
  throw e.

(** [self._completion_futures[rid]]. *)
Definition completion_future (rid : string) : MC nat :=
  s ← get;
  lift (match k_completion_futures s !! rid with Some fid => Ok fid | None => Raise (KeyError rid) end).

(** [self._completion_futures.pop(rid, None)]. *)
Definition drop_future (rid : string) : MC unit :=
  modify (fun s => s <| k_completion_futures := delete rid (k_completion_futures s) |>).

(** ** Abort *)

(** What [abort] waits for, if it does. *)
Inductive AbortCall : Type :=
| NotAborted
| Joins (tid : nat)
| Starts (tid : nat).

Definition over (st : RequestState) : bool :=
  match st with R_COMPLETED | R_FAILED | R_ABORTED => true | _ => false end.

(** [abort] up to the [await] of the abort task. *)
Definition abort (rid : string) : MC AbortCall :=
  s ← get;
  match k_abort_tasks s !! rid with
  | Some tid => mret (Joins tid)
  | None =>
      match info_of s rid with
      | None => mret NotAborted
      | Some info =>
          if over (i_state info) then mret NotAborted else
          tid ← new_id;
          _ ← modify (fun s => s <| k_abort_tasks := <[rid := tid]> (k_abort_tasks s) |>);
          mret (Starts tid)
      end
  end.

(** [_run_abort] after the broadcast. *)
Definition run_abort (rid : string) : MC bool :=
  _ ← modify (fun s => s <| k_sent := k_sent s ++ [SentAbort rid] |>);
  s ← get;
  match request_of s rid with
  | None => mret false
  | Some oid =>
      _ ← on_info oid (fun info => info <| i_state := R_ABORTED |>);
      _ ← reject_completion_future rid (OtherError ("CancelledError: Request " ++ rid ++ " aborted"));
      _ ← put_queue rid (own_failure rid "aborted");
      _ ← release_replica oid;
      _ ← forget_request rid;
      _ ← forget_partials rid;
      mret true
  end.

(** [_on_abort_task_done]. *)
Definition on_abort_task_done (rid : string) (tid : nat) : MC unit :=
  modify (fun s => if bool_decide (k_abort_tasks s !! rid = Some tid)
                   then s <| k_abort_tasks := delete rid (k_abort_tasks s) |> else s).

(** ** Completion and streams *)

(** The end of a request whose output is [out]. *)
Definition complete_request (rid : string) (oid : nat) (out : Output (option V)) : MC unit :=
  on_info oid (fun info => info <| i_state := R_COMPLETED |> <| i_result := Some out |>).

(** A successful completion of a tracked request. *)
Definition complete_one (oid : nat) (msg : CompleteMessage V) : MC unit :=
  let rid := cm_request_id msg in
  _ ← complete_request rid oid (OneResult (cm_result msg));
  _ ← settle rid (fun _ => FResult (OneResult (cm_result msg)));
  _ ← put_queue rid (QComplete msg);
  _ ← release_replica oid;
  forget_request rid.

Definition complete_part (oid : nat) (expected : gset string) (msg : CompleteMessage V) : MC unit :=
  let rid := cm_request_id msg in
  _ ← modify (fun s => s <| k_partial_results :=
        <[rid := od_set (cm_from_stage msg) (cm_result msg) (default [] (k_partial_results s !! rid))]>
          (k_partial_results s) |>);
  _ ← put_queue rid (QComplete msg);
  s ← get;
  let partials := default [] (k_partial_results s !! rid) in
  if bool_decide (list_to_set (od_keys partials) ⊂ expected) then mret tt else
  _ ← forget_partials rid;
  _ ← complete_request rid oid (Merged partials);
  _ ← settle rid (fun _ => FResult (Merged partials));
  _ ← release_replica oid;
  forget_request rid.

(** [_handle_completion]; the object of a failed request, whose handling goes on after the
    broadcast of the abort. *)
Definition handle_completion (msg : CompleteMessage V) : MC (option nat) :=
  let rid := cm_request_id msg in
  s ← get;
  match request_of s rid with
  | None => mret None
  | Some oid =>
      if negb (cm_success msg) then
        _ ← on_info oid (fun info => info <| i_state := R_FAILED |> <| i_error := cm_error msg |>);
        mret (Some oid)
      else
        let expected := expected_terminal_stages s rid in
        if negb (bool_decide (expected = ∅)) && negb (bool_decide (cm_from_stage msg ∈ expected))
        then mret None
        else
          _ ← (if size expected <=? 1 then complete_one oid msg else complete_part oid expected msg);
          mret None
  end.

(** [msg.error or "Unknown error"]. *)
Definition error_or_unknown (msg : CompleteMessage V) : string :=
  match cm_error msg with
  | Some error => if String.eqb error "" then "Unknown error" else error
  | None => "Unknown error"
  end.

(** [_handle_completion] of a failure, after the broadcast. *)
Definition completion_failed (oid : nat) (msg : CompleteMessage V) : MC unit :=
  let rid := cm_request_id msg in
  _ ← modify (fun s => s <| k_sent := k_sent s ++ [SentAbort rid] |>);
  _ ← forget_partials rid;
  _ ← reject_completion_future rid (RuntimeError (error_or_unknown msg));
  _ ← put_queue rid (QComplete msg);
  _ ← release_replica oid;
  forget_request rid.

(** [_handle_stream]. *)
Definition handle_stream (rid from_stage : string) (chunk : Chunk) : MC unit :=
  put_queue rid (QStream from_stage chunk).

(** ** Updates *)

Definition truthy (stage : option string) : bool :=
  match stage with Some name => negb (String.eqb name "") | None => false end.

(** [update_request] up to the send; the endpoint it sends to. *)
Definition update_request (rid : string) (stage_name : option string) : MC string :=
  s ← get;
  info ← lift (match info_of s rid with
               | Some info => Ok info
               | None => Raise (KeyError ("Request " ++ rid ++ " does not exist"))
               end);
  _ ← guard_raise (negb (bool_decide (i_state info = R_RUNNING)))
        (RuntimeError ("Request " ++ rid ++ " is not running"));
  let target := if truthy stage_name then default "" stage_name
                else stage_or_entry s (i_current_stage info) in
  match stage_name, i_owner_endpoint info with
  | None, Some endpoint => mret endpoint
  | _, _ =>
      lift (match replicas s target with
            | r :: _ => Ok (ri_endpoint r)
            | [] => Raise (ValueError ("Stage " ++ target ++ " is not registered"))
            end)
  end.

Definition update_sent (endpoint rid : string) : MC unit :=
  modify (fun s => s <| k_sent := k_sent s ++ [SentUpdate endpoint rid] |>).

(** ** Health *)

Definition state_value (st : RequestState) : string :=
  match st with
  | R_PENDING => "pending" | R_RUNNING => "running" | R_COMPLETED => "completed"
  | R_FAILED => "failed" | R_ABORTED => "aborted"
  end.

(** [state_counts] of [health]. *)
Definition state_counts (s : Coord V Chunk Request) : list (string * nat) :=
  foldl (fun d p => match k_infos s !! p.2 with
    | Some info => let st := state_value (i_state info) in od_set st (S (default 0 (od_get st d))) d
    | None => d
    end) [] (k_requests s).

Record Health : Type := {
  h_running : bool; h_stages : list string; h_entry_stage : string; h_total_requests : nat;
  h_pending_completions : nat; h_request_states : list (string * nat)
}.

(** [health]. *)
Definition health (s : Coord V Chunk Request) : Health :=
  {| h_running := k_running s; h_stages := od_keys (k_stages s); h_entry_stage := k_entry_stage s;
     h_total_requests := length (k_requests s);
     h_pending_completions := size (k_completion_futures s); h_request_states := state_counts s |}.

(** [stop], and the messages of [shutdown_stages]. *)
Definition stop : MC unit := modify (fun s => s <| k_running := false |>).

Definition shutdown_messages (s : Coord V Chunk Request) : list (string * string) :=
  k_stages s ≫= fun p => map (fun r => (p.1, ri_endpoint r)) p.2.
End Ops.
