(* ===== verification/CoordSteps.v ===== *)
(** * The pipeline coordinator: interleavings

    [asyncio] runs one coroutine at a time and switches only where one is suspended.  A [World]
    is the coordinator with its suspended coroutines; an [Event] resumes one of them, starts a
    new one or delivers a message, and runs it up to its next suspension ([step]).  Any order of
    events is possible: the theorems hold for all of them.

    The coroutines are the callers inside [submit] ([submit_to_replica]) and [stream], the abort
    tasks, and the completion loop ([run_completion_loop]), which handles one message at a time.
    A coroutine that returned or raised leaves its outcome in [w_outcomes]. *)
From S2P Require Import Prelude Odict Coord CoordOps.

Section Steps.
Context {V Chunk Request : Type}.
Context (resolver : option (Request → result (option (list string)))).
Abbreviation C := (Coord V Chunk Request).

Inductive Task : Type :=
(** in [_submit_request], awaiting the control plane; a stream has a queue *)
| TSending (rid endpoint : string) (request : Request) (queue : option nat)
(** [submit], awaiting the future *)
| TAwait (rid : string) (fid : nat)
(** [stream], at [queue.get()] or at a [yield]; [yielded] is the stage whose completion was
    yielded and not yet counted *)
| TStream (rid : string) (qid : nat) (expected completed : gset string) (yielded : option string)
(** [stream], in its [finally], awaiting an abort task *)
| TClosing (rid : string) (qid tid : nat) (outcome : result (option (Output (option V))))
(** [_run_abort], awaiting the broadcast *)
| TAbort (rid : string).

(** [run_completion_loop]: awaiting a message, awaiting the broadcast for a failed request, or
    ended by an exception. *)
Inductive Loop : Type := Idle | Failing (oid : nat) (msg : CompleteMessage V) | Dead.

Record World : Type := {
  w_coord : C;
  w_tasks : gmap nat Task;
  w_loop : Loop;
  w_outcomes : gmap nat (result (option (Output (option V))))
}.

#[global] Instance eta_World : Eta World := fun w =>
  {| w_coord := w_coord w; w_tasks := w_tasks w; w_loop := w_loop w; w_outcomes := w_outcomes w |}.

Inductive Event : Type :=
| ESubmit (rid : string) (request : Request) (dp_rank : option nat)
| EStream (rid : string) (request : Request) (dp_rank : option nat)
| ESent (tid : nat)
| ESendFailed (tid : nat) (e : pyexn)
| EResult (tid : nat)
| ENext (tid : nat)
| EClose (tid : nat)
| EResume (tid : nat)
| EAbort (rid : string)
| EBroadcast (tid : nat) (failure : option pyexn)
| EAbortDone (rid : string) (tid : nat)
| ERecv (msg : CompleteMessage V)
| ERecvStream (rid from_stage : string) (chunk : Chunk)
| ELoopBroadcast (failure : option pyexn)
| EUpdate (rid : string) (stage_name : option string)
| EFailPending (message : string).

(** ** Running a piece of a coroutine *)

Definition set_coord (c : C) (w : World) : World := w <| w_coord := c |>.

Definition set_task (tid : nat) (t : Task) (w : World) : World :=
  w <| w_tasks := <[tid := t]> (w_tasks w) |>.

(** The coroutine is over. *)
Definition finish (tid : nat) (outcome : result (option (Output (option V)))) (w : World) : World :=
  w <| w_tasks := delete tid (w_tasks w) |> <| w_outcomes := <[tid := outcome]> (w_outcomes w) |>.

(** Run a piece of code of the coordinator. *)
Definition run {A} (f : M C A) (w : World) : result A * World :=
  let '(r, c) := f (w_coord w) in (r, set_coord c w).

(** The end of [stream]'s [finally]. *)
Definition close_stream (rid : string) (qid : nat) : M C unit :=
  modify (fun s => if bool_decide (k_stream_queues s !! rid = Some qid)
                   then s <| k_stream_queues := delete rid (k_stream_queues s) |>
                          <| k_completion_futures := delete rid (k_completion_futures s) |>
                   else s).

Definition end_stream (tid : nat) (rid : string) (qid : nat)
    (outcome : result (option (Output (option V)))) (w : World) : World :=
  finish tid outcome (run (close_stream rid qid) w).2.

(** An abort and the task it starts. *)
Definition call_abort (rid : string) (w : World) : option nat * World :=
  match run (abort rid) w with
  | (Ok (Starts t), w1) => (Some t, set_task t (TAbort rid) w1)
  | (Ok (Joins t), w1) => (Some t, w1)
  | (_, w1) => (None, w1)
  end.

(** [stream]'s [finally], left with [outcome]. *)
Definition stream_finally (tid : nat) (rid : string) (qid : nat)
    (outcome : result (option (Output (option V)))) (w : World) : World :=
  let s := w_coord w in
  if bool_decide (k_stream_queues s !! rid = Some qid) && tracked s rid then
    match call_abort rid w with
    | (Some t, w1) => set_task tid (TClosing rid qid t outcome) w1
    | (None, w1) => end_stream tid rid qid outcome w1
    end
  else end_stream tid rid qid outcome w.

(** ** Admission *)

Definition new_queue : M C nat :=
  qid ← new_id; _ ← modify (fun s => s <| k_queues := <[qid := []]> (k_queues s) |>); mret qid.

Definition start_submit (rid : string) (request : Request) (queue : option nat)
    (dp_rank : option nat) (tid : nat) (w : World) : World :=
  match run (submit_request resolver rid request queue dp_rank) w with
  | (Ok endpoint, w1) => set_task tid (TSending rid endpoint request queue) w1
  | (Raise e, w1) => finish tid (Raise e) w1
  end.

Definition start_stream (rid : string) (request : Request) (dp_rank : option nat) (tid : nat)
    (w : World) : World :=
  match run new_queue w with
  | (Ok qid, w1) => start_submit rid request (Some qid) dp_rank tid w1
  | (Raise e, w1) => finish tid (Raise e) w1
  end.

(** The message was sent. *)
Definition sent (tid : nat) (rid endpoint : string) (request : Request) (queue : option nat)
    (w : World) : World :=
  let w1 := (run (submit_sent endpoint rid request) w).2 in
  match queue with
  | Some qid => set_task tid (TStream rid qid (expected_terminal_stages (w_coord w1) rid) ∅ None) w1
  | None => match run (completion_future rid) w1 with
            | (Ok fid, w2) => set_task tid (TAwait rid fid) w2
            | (Raise e, w2) => finish tid (Raise e) w2
            end
  end.

(** Sending raised; a cancelled caller skips the handler. *)
Definition send_failed (tid : nat) (rid : string) (queue : option nat) (e : pyexn) (w : World)
    : World :=
  match run (submit_failed rid e) w with
  | (r, w1) =>
      let e' := match r with Ok _ => e | Raise e' => e' end in
      match queue with
      | Some qid => stream_finally tid rid qid (Raise e') w1
      | None => finish tid (Raise e') w1
      end
  end.

Definition cancelled_error : pyexn := OtherError "CancelledError".

(** ** Waiting *)

Definition outcome_of (f : Future (option V)) : result (option (Output (option V))) :=
  match f with
  | FResult out => Ok (Some out)
  | FException e => Raise e
  | FCancelled | FPending => Raise cancelled_error
  end.

(** The consumer of a stream asks for the next message. *)
Definition counted (completed : gset string) (yielded : option string) : gset string :=
  match yielded with Some stage => {[stage]} ∪ completed | None => completed end.

Definition stream_next (tid : nat) (rid : string) (qid : nat) (expected completed : gset string)
    (yielded : option string) (w : World) : World :=
  let completed' := counted completed yielded in
  if bool_decide (is_Some yielded) && (bool_decide (expected = ∅) || bool_decide (expected ⊆ completed'))
  then stream_finally tid rid qid (Ok None) w
  else
    match k_queues (w_coord w) !! qid with
    | Some (msg :: rest) =>
        let w1 := w <| w_coord := w_coord w <| k_queues := <[qid := rest]> (k_queues (w_coord w)) |> |> in
        match msg with
        | QComplete c =>
            if cm_success c then set_task tid (TStream rid qid expected completed' (Some (cm_from_stage c))) w1
            else stream_finally tid rid qid (Raise (RuntimeError (error_or_unknown c))) w1
        | QStream _ _ => set_task tid (TStream rid qid expected completed' None) w1
        end
    | _ => set_task tid (TStream rid qid expected completed' None) w
    end.

(** The caller is cancelled, or closes its stream. *)
Definition cancel (tid : nat) (t : Task) (w : World) : option World :=
  match t with
  | TSending rid _ _ None => Some (finish tid (Raise cancelled_error) w)
  | TSending rid _ _ (Some qid) => Some (stream_finally tid rid qid (Raise cancelled_error) w)
  | TAwait rid fid =>
      if match k_futures (w_coord w) !! fid with Some f => done f | None => false end
      then Some (finish tid (Raise cancelled_error) (run (drop_future rid) w).2)
      else Some (set_coord (w_coord w <| k_futures := alter (fun f => if done f then f else FCancelled) fid
                                          (k_futures (w_coord w)) |>) w)
  | TStream rid qid _ _ _ => Some (stream_finally tid rid qid (Raise cancelled_error) w)
  | TClosing rid qid _ _ => Some (end_stream tid rid qid (Raise cancelled_error) w)
  | TAbort _ => None
  end.

(** ** Steps *)

Definition step (ev : Event) (w : World) : option World :=
  match ev with
  | ESubmit rid request dp_rank =>
      match run new_id w with
      | (Ok tid, w1) => Some (start_submit rid request None dp_rank tid w1)
      | _ => None
      end
  | EStream rid request dp_rank =>
      match run new_id w with
      | (Ok tid, w1) => Some (start_stream rid request dp_rank tid w1)
      | _ => None
      end
  | ESent tid =>
      match w_tasks w !! tid with
      | Some (TSending rid endpoint request queue) => Some (sent tid rid endpoint request queue w)
      | _ => None
      end
  | ESendFailed tid e =>
      match w_tasks w !! tid with
      | Some (TSending rid _ _ queue) => Some (send_failed tid rid queue e w)
      | _ => None
      end
  | EResult tid =>
      match w_tasks w !! tid with
      | Some (TAwait rid fid) =>
          match k_futures (w_coord w) !! fid with
          | Some f => if done f then Some (finish tid (outcome_of f) (run (drop_future rid) w).2) else None
          | None => None
          end
      | _ => None
      end
  | ENext tid =>
      match w_tasks w !! tid with
      | Some (TStream rid qid expected completed yielded) =>
          Some (stream_next tid rid qid expected completed yielded w)
      | _ => None
      end
  | EClose tid => w_tasks w !! tid ≫= fun t => cancel tid t w
  | EResume tid =>
      match w_tasks w !! tid with
      | Some (TClosing rid qid t outcome) =>
          match w_tasks w !! t with
          | None => Some (end_stream tid rid qid outcome w)
          | Some _ => None
          end
      | _ => None
      end
  | EAbort rid => Some (call_abort rid w).2
  | EBroadcast tid failure =>
      match w_tasks w !! tid with
      | Some (TAbort rid) =>
          let w1 := match failure with None => (run (run_abort rid) w).2 | Some _ => w end in
          Some (w1 <| w_tasks := delete tid (w_tasks w1) |>)
      | _ => None
      end
  | EAbortDone rid tid =>
      match w_tasks w !! tid with
      | None => Some (run (on_abort_task_done rid tid) w).2
      | Some _ => None
      end
  | ERecv msg =>
      match w_loop w with
      | Idle =>
          match run (handle_completion msg) w with
          | (Ok (Some oid), w1) => Some (w1 <| w_loop := Failing oid msg |>)
          | (_, w1) => Some w1
          end
      | _ => None
      end
  | ERecvStream rid from_stage chunk =>
      match w_loop w with
      | Idle => Some (run (handle_stream rid from_stage chunk) w).2
      | _ => None
      end
  | ELoopBroadcast failure =>
      match w_loop w with
      | Failing oid msg =>
          match failure with
          | None => Some ((run (completion_failed oid msg) w).2 <| w_loop := Idle |>)
          | Some _ => Some (w <| w_loop := Dead |>)
          end
      | _ => None
      end
  | EUpdate rid stage_name =>
      match run (update_request rid stage_name) w with
      | (Ok endpoint, w1) => Some (run (update_sent endpoint rid) w1).2
      | (Raise _, w1) => Some w1
      end
  | EFailPending message => Some (run (fail_pending_requests message) w).2
  end.

(** A sequence of events, each enabled. *)
Fixpoint steps (evs : list Event) (w : World) : option World :=
  match evs with
  | [] => Some w
  | ev :: evs' => step ev w ≫= steps evs'
  end.

(** The coordinator started with its stages registered. *)
Record Registration : Type := {
  rg_name : string; rg_endpoint : string; rg_dp_rank : option nat; rg_capacity : option nat
}.

Definition registered (entry : string) (terminal : list string) (regs : list Registration) : C :=
  (mforeach (fun r => register_stage (rg_name r) (rg_endpoint r) (rg_dp_rank r) (rg_capacity r)) regs
    (new_coordinator entry terminal)).2.

Definition started (entry : string) (terminal : list string) (regs : list Registration) : World :=
  {| w_coord := registered entry terminal regs; w_tasks := ∅; w_loop := Idle; w_outcomes := ∅ |}.

(** What the coordinator can come to. *)
Definition reachable (entry : string) (terminal : list string) (regs : list Registration)
    (w : World) : Prop :=
  ∃ evs, steps evs (started entry terminal regs) = Some w.

Lemma reachable_ind entry terminal regs (P : World → Prop) :
  P (started entry terminal regs) →
  (∀ ev w w', reachable entry terminal regs w → P w → step ev w = Some w' → P w') →
  ∀ w, reachable entry terminal regs w → P w.
Proof.
  intros H0 Hs w [evs Hevs]. revert w Hevs. induction evs as [|ev evs IH] using rev_ind; intros w Hevs.
  - by injection Hevs as <-.
  - assert (∀ l1 l2 w0, steps (l1 ++ l2) w0 = steps l1 w0 ≫= steps l2) as Happ.
    { clear. induction l1 as [|e l1 IH]; intros l2 w0; simpl; [done|].
      destruct (step e w0) as [w1|]; simpl; [apply IH|done]. }
    rewrite Happ in Hevs. destruct (steps evs (started entry terminal regs)) as [w1|] eqn:E; [|done].
    simpl in Hevs. destruct (step ev w1) as [w2|] eqn:E2; [|done]. injection Hevs as <-.
    apply (Hs ev w1); [by exists evs|by apply IH|done].
Qed.
End Steps.
Arguments Task : clear implicits.
Arguments World : clear implicits.
Arguments Event : clear implicits.
Arguments Loop : clear implicits.
