(* ===== verification/CoordInv.v ===== *)
(** * The pipeline coordinator: invariants

    What every piece of the coordinator's code keeps: the tables are consistent, a future that
    is not done belongs to a tracked request, and the queue of a stream whose request is gone
    holds what ends the stream. *)
From S2P Require Import Prelude Odict Coord CoordOps CoordSteps.

Section Inv.
Context {V Chunk Request : Type}.
Context (resolver : option (Request → result (option (list string)))).
Abbreviation C := (Coord V Chunk Request).
Implicit Types (s : C) (rid : string).

(** The stages whose success the queue reports, and whether it reports a failure. *)
Definition completions (q : list (QMsg V Chunk)) : list (CompleteMessage V) :=
  omap (fun m => match m with QComplete c => Some c | QStream _ _ => None end) q.

Definition succeeded (q : list (QMsg V Chunk)) : gset string :=
  list_to_set (map cm_from_stage (List.filter cm_success (completions q))).

Definition reports_failure (q : list (QMsg V Chunk)) : Prop :=
  ∃ c, c ∈ completions q ∧ cm_success c = false.

(** A consumer that was delivered [d] reaches its end within [q]. *)
Definition conclusive (T d : gset string) (q : list (QMsg V Chunk)) : Prop :=
  reports_failure q ∨ (T ⊆ d ∪ succeeded q ∧ d ∪ succeeded q ≠ ∅).

(** No resolver narrows the terminal stages of a request. *)
Definition static : Prop := resolver = None.

(** [D] is what the consumer of each stream was already delivered. *)
Record cinv (D : string → gset string) (s : C) : Prop := {
  ci_wf : od_wf (k_requests s);
  ci_infos : ∀ rid oid, request_of s rid = Some oid → is_Some (k_infos s !! oid);
  ci_futures : ∀ rid fid, k_completion_futures s !! rid = Some fid →
    ∃ f, k_futures s !! fid = Some f ∧ (done f = false → tracked s rid = true);
  ci_inj : ∀ rid rid' fid, k_completion_futures s !! rid = Some fid →
    k_completion_futures s !! rid' = Some fid → rid' = rid;
  ci_queues : ∀ rid qid, k_stream_queues s !! rid = Some qid → is_Some (k_queues s !! qid);
  ci_qinj : ∀ rid rid' qid, k_stream_queues s !! rid = Some qid →
    k_stream_queues s !! rid' = Some qid → rid' = rid;
  ci_partials : ∀ rid, is_Some (k_partial_results s !! rid) →
    tracked s rid = true ∧ 1 < size (expected_terminal_stages s rid);
  ci_fresh_infos : ∀ oid, is_Some (k_infos s !! oid) → oid < k_next s;
  ci_fresh_futures : ∀ fid, is_Some (k_futures s !! fid) → fid < k_next s;
  ci_fresh_queues : ∀ qid, is_Some (k_queues s !! qid) → qid < k_next s;
  ci_terminal : static → ∀ rid info, info_of s rid = Some info →
    i_terminal_stages info = Some (k_terminal_stages s);
  ci_keys : static → ∀ rid p, k_partial_results s !! rid = Some p →
    list_to_set (od_keys p) ⊆ k_terminal_stages s;
  ci_streams : static → ∀ rid qid q, k_stream_queues s !! rid = Some qid → k_queues s !! qid = Some q →
    (∀ p, k_partial_results s !! rid = Some p → list_to_set (od_keys p) ⊆ D rid ∪ succeeded q) ∧
    (tracked s rid = false → conclusive (k_terminal_stages s) (D rid) q)
}.

(** ** Small facts *)

Lemma tracked_request s rid : tracked s rid = true ↔ is_Some (request_of s rid).
Proof.
  unfold tracked, request_of, od_mem. destruct (od_get rid (k_requests s)); [by split; [eexists|]|].
  split; [done|by intros [? ?]].
Qed.

Lemma untracked_request s rid : tracked s rid = false ↔ request_of s rid = None.
Proof. unfold tracked, request_of, od_mem. by destruct (od_get rid (k_requests s)). Qed.

Lemma completions_app q q' : completions (q ++ q') = completions q ++ completions q'.
Proof. apply omap_app. Qed.

Lemma succeeded_app q q' : succeeded (q ++ q') = succeeded q ∪ succeeded q'.
Proof.
  unfold succeeded. rewrite completions_app, List.filter_app, map_app, list_to_set_app_L. done.
Qed.

Lemma reports_app q q' : reports_failure (q ++ q') ↔ reports_failure q ∨ reports_failure q'.
Proof.
  unfold reports_failure. rewrite completions_app. setoid_rewrite elem_of_app. naive_solver.
Qed.

Lemma succeeded_one c : succeeded [QComplete c] = if cm_success c then {[cm_from_stage c]} else ∅.
Proof. unfold succeeded. simpl. destruct (cm_success c); simpl; set_solver. Qed.

Lemma conclusive_app T d q q' : conclusive T d q → conclusive T d (q ++ q').
Proof.
  unfold conclusive. rewrite reports_app, succeeded_app.
  intros [?|[? ?]]; [tauto|]. right. set_solver.
Qed.

Lemma expected_static D s rid :
  cinv D s → static → expected_terminal_stages s rid = k_terminal_stages s.
Proof.
  intros Hi Hs. unfold expected_terminal_stages.
  destruct (info_of s rid) as [info|] eqn:E; [|done]. simpl. by rewrite (ci_terminal _ _ Hi Hs rid info).
Qed.

(** ** What a piece of code leaves alone *)

(** The futures and queues that are registered, and the terminal stages. *)
Record same_tables (s s' : C) : Prop := {
  st_futures : k_completion_futures s' = k_completion_futures s;
  st_queues : k_stream_queues s' = k_stream_queues s;
  st_terminal : k_terminal_stages s' = k_terminal_stages s;
  st_next : k_next s ≤ k_next s'
}.

#[global] Instance same_tables_preorder : PreOrder same_tables.
Proof.
  split; [by constructor|]. intros s1 s2 s3 [] []. constructor; try congruence. lia.
Qed.

Definition framed {A} (f : M C A) : Prop := ∀ s, same_tables s (f s).2.

Lemma framed_bind {A B} (f : M C A) (g : A → M C B) : framed f → (∀ a, framed (g a)) → framed (f ≫= g).
Proof.
  intros Hf Hg s. unfold mbind, M_bind. specialize (Hf s). destruct (f s) as [[a|e] s1]; [|done].
  etrans; [exact Hf|apply Hg].
Qed.

Lemma framed_get {B} (g : C → M C B) : (∀ s, framed (g s)) → framed (get ≫= g).
Proof. intros Hg s. apply Hg. Qed.

Lemma framed_modify g : (∀ s, same_tables s (g s)) → framed (modify g).
Proof. done. Qed.

Lemma framed_ret {A} (a : A) : framed (mret a).
Proof. by intros s. Qed.

Lemma framed_lift {A} (r : result A) : framed (lift r).
Proof. by intros s. Qed.

Lemma framed_throw {A} e : framed (throw (A := A) e).
Proof. by intros s. Qed.

Lemma framed_foreach {A} (f : A → M C unit) l : (∀ x, framed (f x)) → framed (mforeach f l).
Proof.
  intros Hf. induction l as [|x l IH]; [apply framed_ret|]. apply framed_bind; [apply Hf|]. done.
Qed.
End Inv.

Create HintDb coord.

(** Walk through a piece of code whose assignments are seen to keep the tables. *)
Ltac frame_step :=
  lazymatch goal with
  | |- framed (get ≫= _) => apply framed_get; intros ?
  | |- framed (_ ≫= _) => apply framed_bind; [|intros ?]
  | |- framed (if ?b then _ else _) => destruct b
  | |- framed (match ?x with _ => _ end) => destruct x
  | |- framed (mforeach _ _) => apply framed_foreach; intros ?
  | |- framed (mret _) => apply framed_ret
  | |- framed (lift _) => apply framed_lift
  | |- framed (guard_raise _ _) => apply framed_lift
  | |- framed (throw _) => apply framed_throw
  | |- framed (modify _) => apply framed_modify; intros ?; by constructor
  | |- framed _ => solve [eauto with coord]
  end.

Section Frames.
Context {V Chunk Request : Type}.
Context (resolver : option (Request → result (option (list string)))).
Abbreviation C := (Coord V Chunk Request).

Lemma on_info_framed oid f : framed (on_info oid f : M C _).
Proof. by apply framed_modify. Qed.

Lemma settle_framed rid v : framed (settle rid v : M C _).
Proof.
  apply framed_modify. intros s. destruct (k_completion_futures s !! rid) as [fid|]; [|done].
  destruct (k_futures s !! fid) as [[]|]; by constructor.
Qed.

Lemma put_queue_framed rid msg :
  framed (put_queue rid msg : M C _).
Proof.
  apply framed_modify. intros s. destruct (k_stream_queues s !! rid) as [qid|]; by constructor.
Qed.

Lemma on_replica_framed name i f :
  framed (on_replica name i f : M C _).
Proof. by apply framed_modify. Qed.

Hint Resolve on_info_framed settle_framed put_queue_framed on_replica_framed : coord.

Lemma new_id_framed : framed (new_id : M C _).
Proof. intros s. constructor; try done. cbn. fields. lia. Qed.

Lemma release_replica_framed oid :
  framed (release_replica oid : M C _).
Proof. unfold release_replica. repeat frame_step. Qed.

Hint Resolve new_id_framed release_replica_framed : coord.

Lemma reject_framed rid exc :
  framed (reject_completion_future rid exc : M C _).
Proof. apply settle_framed. Qed.

Hint Resolve reject_framed : coord.

Lemma fail_pending_framed message :
  framed (fail_pending_requests message : M C _).
Proof. unfold fail_pending_requests, fail_one. repeat frame_step. Qed.

Lemma select_replica_framed name :
  framed (select_replica name : M C _).
Proof. unfold select_replica. repeat frame_step. Qed.

Lemma resolve_terminal_framed request :
  framed (resolve_terminal_stages resolver request : M C _).
Proof. unfold resolve_terminal_stages. repeat frame_step. Qed.

Hint Resolve select_replica_framed resolve_terminal_framed : coord.

Lemma admit_framed rid dp_rank : framed (admit_request rid dp_rank : M C _).
Proof. unfold admit_request. repeat frame_step. Qed.

Lemma submit_sent_framed endpoint rid request :
  framed (submit_sent endpoint rid request : M C _).
Proof. unfold submit_sent. repeat frame_step. Qed.

Lemma submit_failed_framed rid e :
  framed (submit_failed rid e : M C _).
Proof. unfold submit_failed. repeat frame_step. Qed.

Lemma abort_framed rid : framed (abort rid : M C _).
Proof. unfold abort. repeat frame_step. Qed.

Lemma forget_request_framed rid : framed (forget_request rid : M C _).
Proof. by apply framed_modify. Qed.

Lemma forget_partials_framed rid : framed (forget_partials rid : M C _).
Proof. by apply framed_modify. Qed.

Hint Resolve forget_request_framed forget_partials_framed : coord.

Lemma run_abort_framed rid : framed (run_abort rid : M C _).
Proof. unfold run_abort. repeat frame_step. Qed.

Lemma on_abort_task_done_framed rid tid :
  framed (on_abort_task_done rid tid : M C _).
Proof.
  apply framed_modify. intros s. by case_bool_decide; constructor.
Qed.

Lemma handle_completion_framed msg :
  framed (handle_completion msg : M C _).
Proof.
  unfold handle_completion, complete_one, complete_part, complete_request. repeat frame_step.
Qed.

Lemma completion_failed_framed oid msg :
  framed (completion_failed oid msg : M C _).
Proof. unfold completion_failed. repeat frame_step. Qed.

Lemma update_request_framed rid stage_name :
  framed (update_request rid stage_name : M C _).
Proof. unfold update_request. repeat frame_step. Qed.
End Frames.

(** ** What a piece of code keeps *)

Section Keep.
Context {V Chunk Request : Type}.
Context (resolver : option (Request → result (option (list string)))).
Abbreviation C := (Coord V Chunk Request).
Abbreviation cinv := (cinv resolver).
Implicit Types (s : C) (D : string → gset string).

(** The future of the request is done, its stream was told the end, its partial results are
    gone. *)
Definition settled (rid : string) s : Prop :=
  ∀ fid f, k_completion_futures s !! rid = Some fid → k_futures s !! fid = Some f → done f = true.

Definition told D (rid : string) s : Prop :=
  static resolver → ∀ qid q, k_stream_queues s !! rid = Some qid → k_queues s !! qid = Some q →
    conclusive (k_terminal_stages s) (D rid) q.

Definition no_partials (rid : string) s : Prop := k_partial_results s !! rid = None.

(** The consistent states of a piece of code that ends the request. *)
Record ending D (rid : string) (a b c : bool) s : Prop := {
  en_inv : cinv D s;
  en_settled : a = true → settled rid s;
  en_told : b = true → told D rid s;
  en_partials : c = true → no_partials rid s
}.

(** Nothing of the invariant changed. *)
Lemma core_same D s s' :
  k_requests s' = k_requests s → k_completion_futures s' = k_completion_futures s →
  k_stream_queues s' = k_stream_queues s → k_partial_results s' = k_partial_results s →
  k_futures s' = k_futures s → k_queues s' = k_queues s → k_infos s' = k_infos s →
  k_terminal_stages s' = k_terminal_stages s → k_next s' = k_next s → cinv D s → cinv D s'.
Proof.
  destruct s, s'. simpl. intros -> -> -> -> -> -> -> -> -> Hi.
  destruct Hi. by constructor.
Qed.

Lemma core_same_ending D rid a b c s s' :
  k_requests s' = k_requests s → k_completion_futures s' = k_completion_futures s →
  k_stream_queues s' = k_stream_queues s → k_partial_results s' = k_partial_results s →
  k_futures s' = k_futures s → k_queues s' = k_queues s → k_infos s' = k_infos s →
  k_terminal_stages s' = k_terminal_stages s → k_next s' = k_next s →
  ending D rid a b c s → ending D rid a b c s'.
Proof.
  intros E1 E2 E3 E4 E5 E6 E7 E8 E9 [H1 H2 H3 H4]. constructor.
  - by eapply core_same.
  - unfold settled in *. by rewrite E2, E5.
  - unfold told in *. by rewrite E3, E6, E8.
  - unfold no_partials in *. by rewrite E4.
Qed.

Lemma on_info_ending D rid a b c oid f :
  (∀ info, i_terminal_stages (f info) = i_terminal_stages info) →
  triple (ending D rid a b c) (on_info oid f) (fun _ => ending D rid a b c).
Proof.
  intros Hf. apply triple_modify. intros s [Hi Hs Ht Hn]. constructor; [|done..].
  assert (∀ rid', info_of (s <| k_infos := alter f oid (k_infos s) |>) rid' ≫= i_terminal_stages =
    info_of s rid' ≫= i_terminal_stages) as Hterm.
  { intros rid'. unfold info_of, request_of. fields. destruct (od_get rid' (k_requests s)) as [o|]; [|done].
    simpl. destruct (decide (o = oid)) as [->|Hne].
    - rewrite lookup_alter_eq. destruct (k_infos s !! oid); simpl; [apply Hf|done].
    - by rewrite lookup_alter_ne. }
  destruct Hi as [H1 H2 H3 H4 H5 H6 H7 H8 H9 H10 H11 H12 H13]. constructor; try done.
  - intros rid' o Ho. specialize (H2 rid' o Ho). fields. rewrite lookup_alter. case_decide; [|done].
    subst o. destruct H2 as [info ->]. by eexists.
  - intros rid' Hp. destruct (H7 rid' Hp) as [Ht' Hsz]. split; [done|].
    unfold expected_terminal_stages in *. by rewrite Hterm.
  - intros o Ho. apply H8. fields. rewrite lookup_alter in Ho. case_decide; [|done].
    subst o. destruct (k_infos s !! oid); [by eexists|]. by destruct Ho.
  - intros Hst rid' info Hinfo. specialize (Hterm rid'). rewrite Hinfo in Hterm. simpl in Hterm.
    destruct (info_of s rid') as [info0|] eqn:E.
    + simpl in Hterm. rewrite Hterm. by apply (H11 Hst rid').
    + unfold info_of, request_of in *. fields. destruct (od_get rid' (k_requests s)) as [o|]; [|done].
      simpl in *. rewrite lookup_alter in Hinfo. case_decide; [|congruence]. subst o. by rewrite E in Hinfo.
Qed.

Lemma on_replica_ending D rid a b c name i f :
  triple (ending D rid a b c) (on_replica name i f) (fun _ => ending D rid a b c).
Proof. apply triple_modify. intros s. by apply core_same_ending. Qed.

Lemma release_replica_ending D rid a b c oid :
  triple (ending D rid a b c) (release_replica oid) (fun _ => ending D rid a b c).
Proof.
  unfold release_replica. apply triple_get_inv. intros s _.
  destruct (k_infos s !! oid) as [info|]; [|apply triple_ret].
  destruct (i_owner_dp_rank info) as [r|]; [|apply triple_ret].
  apply triple_bind with (fun _ => ending D rid a b c).
  - destruct (rank_index _ _); [apply on_replica_ending|apply triple_ret].
  - intros _. by apply on_info_ending.
Qed.

Lemma settle_ending D rid a b c v :
  (∀ s, done (v s) = true) →
  triple (ending D rid a b c) (settle rid v) (fun _ => ending D rid true b c).
Proof.
  intros Hv. apply triple_modify. intros s [Hi Hs Ht Hn].
  destruct (k_completion_futures s !! rid) as [fid|] eqn:Ef.
  2:{ constructor; [done| |done..]. intros _ fid f Hfid. congruence. }
  destruct (k_futures s !! fid) as [f0|] eqn:Ef0.
  2:{ constructor; [done| |done..]. intros _ fid' f Hfid. congruence. }
  assert (done f0 = true → ending D rid true b c s) as Hdone.
  { intros Hd. constructor; [done| |done..]. intros _ fid' f Hfid Hf. congruence. }
  destruct f0; try by apply Hdone.
  constructor; [|intros _ fid' f; fields; intros Hfid; replace fid' with fid by congruence;
    rewrite lookup_insert_eq; by intros [= <-]|done..].
  destruct Hi as [H1 H2 H3 H4 H5 H6 H7 H8 H9 H10 H11 H12 H13]. constructor; try done.
  - intros rid' fid' Hfid'. destruct (H3 rid' fid' Hfid') as (f' & Hf' & Hd). fields.
    destruct (decide (fid' = fid)) as [->|Hne].
    + exists (v s). rewrite lookup_insert_eq. split; [done|]. by rewrite Hv.
    + exists f'. by rewrite lookup_insert_ne.
  - intros fid' Hf'. fields. apply H9. rewrite lookup_insert in Hf'. case_decide; [by subst fid'|done].
Qed.


(** The queue of the request's stream with one more message. *)
Definition pushed (rid : string) (msg : QMsg V Chunk) s : C :=
  match k_stream_queues s !! rid with
  | Some qid => s <| k_queues := alter (fun q => q ++ [msg]) qid (k_queues s) |>
  | None => s
  end.

Lemma pushed_queue rid msg s rid' qid q :
  k_stream_queues s !! rid' = Some qid → k_queues (pushed rid msg s) !! qid = Some q →
  (∀ rid1 rid2 qid, k_stream_queues s !! rid1 = Some qid → k_stream_queues s !! rid2 = Some qid → rid2 = rid1) →
  ∃ q0, k_queues s !! qid = Some q0 ∧ q = if decide (rid' = rid) then q0 ++ [msg] else q0.
Proof.
  intros Hq Hl Hinj. unfold pushed in Hl. destruct (k_stream_queues s !! rid) as [qid0|] eqn:E.
  - fields. rewrite lookup_alter in Hl. case_decide as Hqq.
    + subst qid0. assert (rid' = rid) as Hr by (symmetry; by apply (Hinj rid' rid qid)).
      destruct (k_queues s !! qid) as [q0|]; [|done]. injection Hl as <-. exists q0.
      by rewrite decide_True.
    + exists q. rewrite decide_False by congruence. done.
  - exists q. rewrite decide_False by congruence. done.
Qed.

(** Pushing a message, with the partial results of the request replaced. *)
Lemma push_inv D rid msg parts s :
  cinv D s → (∀ rid', rid' ≠ rid → parts !! rid' = k_partial_results s !! rid') →
  (∀ p, parts !! rid = Some p → tracked s rid = true ∧ 1 < size (expected_terminal_stages s rid) ∧
    (static resolver → list_to_set (od_keys p) ⊆ k_terminal_stages s ∧
      ∀ qid q, k_stream_queues s !! rid = Some qid → k_queues s !! qid = Some q →
        list_to_set (od_keys p) ⊆ D rid ∪ succeeded (q ++ [msg]))) →
  cinv D (pushed rid msg (s <| k_partial_results := parts |>)).
Proof.
  intros Hi Hother Hrid. pose proof Hi as [H1 H2 H3 H4 H5 H6 H7 H8 H9 H10 H11 H12 H13].
  set (s1 := s <| k_partial_results := parts |>).
  assert (∀ {B} (g : C → B), (∀ s q, g (s <| k_queues := q |>) = g s) → g (pushed rid msg s1) = g s1)
    as Hsame.
  { intros B g Hg. unfold pushed. destruct (k_stream_queues s1 !! rid); [apply Hg|done]. }
  assert (k_requests (pushed rid msg s1) = k_requests s) as E1 by by rewrite (Hsame _ k_requests).
  assert (k_infos (pushed rid msg s1) = k_infos s) as E2 by by rewrite (Hsame _ k_infos).
  assert (k_completion_futures (pushed rid msg s1) = k_completion_futures s) as E3
    by by rewrite (Hsame _ k_completion_futures).
  assert (k_futures (pushed rid msg s1) = k_futures s) as E4 by by rewrite (Hsame _ k_futures).
  assert (k_stream_queues (pushed rid msg s1) = k_stream_queues s) as E5
    by by rewrite (Hsame _ k_stream_queues).
  assert (k_partial_results (pushed rid msg s1) = parts) as E6 by by rewrite (Hsame _ k_partial_results).
  assert (k_terminal_stages (pushed rid msg s1) = k_terminal_stages s) as E7
    by by rewrite (Hsame _ k_terminal_stages).
  assert (k_next (pushed rid msg s1) = k_next s) as E8 by by rewrite (Hsame _ k_next).
  assert (∀ qid, is_Some (k_queues (pushed rid msg s1) !! qid) ↔ is_Some (k_queues s !! qid)) as E9.
  { intros qid. unfold pushed. change (k_stream_queues s1) with (k_stream_queues s).
    destruct (k_stream_queues s !! rid) as [qid0|]; [|done]. fields.
    change (k_queues s1) with (k_queues s). rewrite lookup_alter. case_decide; [|done].
    subst qid0. by rewrite fmap_is_Some. }
  assert (∀ rid' qid q, k_stream_queues s !! rid' = Some qid → k_queues (pushed rid msg s1) !! qid = Some q →
    ∃ q0, k_queues s !! qid = Some q0 ∧ q = if decide (rid' = rid) then q0 ++ [msg] else q0) as E10.
  { intros rid' qid q Hq Hl. by apply (pushed_queue rid msg s1 rid' qid q Hq Hl). }
  set (s2 := pushed rid msg s1) in *. clearbody s2.
  assert (∀ rid', tracked s2 rid' = tracked s rid') as Htr by (intros; unfold tracked; by rewrite E1).
  assert (∀ rid', expected_terminal_stages s2 rid' = expected_terminal_stages s rid') as Hex.
  { intros rid'. unfold expected_terminal_stages, info_of, request_of. by rewrite E1, E2, E7. }
  constructor; rewrite ?E1, ?E2, ?E3, ?E4, ?E5, ?E6, ?E7, ?E8; try done.
  - unfold request_of. rewrite E1. exact H2.
  - intros rid' fid Hf. rewrite Htr. by apply H3.
  - intros rid' qid Hq. by apply E9, (H5 rid').
  - intros rid' Hp. rewrite Htr, Hex. destruct (decide (rid' = rid)) as [->|Hne].
    + destruct Hp as [p Hp]. by destruct (Hrid p Hp) as (? & ? & _).
    + apply H7. by rewrite <- Hother.
  - intros qid Hq. by apply H10, E9.
  - intros Hst rid' info. unfold info_of, request_of. rewrite E1, E2. by apply H11.
  - intros Hst rid' p Hp. destruct (decide (rid' = rid)) as [->|Hne].
    + by apply (Hrid p Hp).
    + apply (H12 Hst rid'). by rewrite <- Hother.
  - intros Hst rid' qid q Hq Hl.
    destruct (E10 rid' qid q Hq Hl) as (q0 & Hq0 & ->).
    destruct (H13 Hst rid' qid q0 Hq Hq0) as [Hp Hc]. rewrite Htr.
    destruct (decide (rid' = rid)) as [->|Hne]; [split|split].
    + intros p Hpp. destruct (Hrid p Hpp) as (_ & _ & Hk). apply (proj2 (Hk Hst) qid); done.
    + intros Hu. by apply conclusive_app, Hc.
    + intros p Hpp. apply Hp. by rewrite <- Hother.
    + exact Hc.
Qed.

Lemma put_queue_pushed rid msg s : put_queue rid msg s = (Ok tt, pushed rid msg s).
Proof. done. Qed.

Lemma put_inv D rid msg s : cinv D s → cinv D (pushed rid msg s).
Proof.
  intros Hi. replace s with (s <| k_partial_results := k_partial_results s |>) at 1 by by destruct s.
  apply push_inv; [done..|]. intros p Hp.
  destruct (ci_partials _ _ _ Hi rid) as [Ht Hs]; [by eexists|]. split; [done|]. split; [done|].
  intros Hst. split; [by apply (ci_keys _ _ _ Hi Hst rid)|]. intros qid q Hq Hl.
  destruct (ci_streams _ _ _ Hi Hst rid qid q Hq Hl) as [Hp' _]. rewrite succeeded_app.
  specialize (Hp' p Hp). set_solver.
Qed.

Lemma put_ending D rid a b c (b' : bool) msg :
  (b' = true → b = true ∨ ∀ s qid q, static resolver → ending D rid a b c s →
    k_stream_queues s !! rid = Some qid → k_queues s !! qid = Some q →
    conclusive (k_terminal_stages s) (D rid) (q ++ [msg])) →
  triple (ending D rid a b c) (put_queue rid msg) (fun _ => ending D rid a b' c).
Proof.
  intros Hb s Hs. exists tt, (pushed rid msg s). split; [done|].
  pose proof Hs as [Hi Hset Htold Hpart].
  assert (k_completion_futures (pushed rid msg s) = k_completion_futures s ∧
    k_futures (pushed rid msg s) = k_futures s ∧ k_stream_queues (pushed rid msg s) = k_stream_queues s ∧
    k_partial_results (pushed rid msg s) = k_partial_results s ∧
    k_terminal_stages (pushed rid msg s) = k_terminal_stages s) as (E1 & E2 & E3 & E4 & E5).
  { unfold pushed. by destruct (k_stream_queues s !! rid). }
  constructor; [by apply put_inv|unfold settled; by rewrite E1, E2| |unfold no_partials; by rewrite E4].
  intros Hbt Hst qid q. rewrite E3, E5. intros Hq Hl.
  destruct (pushed_queue rid msg s rid qid q Hq Hl) as (q0 & Hq0 & ->); [apply Hi|].
  rewrite decide_True by done. destruct (Hb Hbt) as [Hb1|Hb1]; [|by apply (Hb1 s qid)].
  by apply conclusive_app, (Htold Hb1 Hst qid).
Qed.

Lemma failure_conclusive T d q c : cm_success c = false → conclusive T d (q ++ [QComplete c : QMsg V Chunk]).
Proof.
  intros Hc. left. apply reports_app. right. exists c. split; [|done]. by apply list_elem_of_singleton.
Qed.

Lemma forget_partials_ending D rid a b c :
  triple (ending D rid a b c) (forget_partials rid) (fun _ => ending D rid a b true).
Proof.
  apply triple_modify. intros s [Hi Hs Ht Hn].
  constructor; [|done..|intros _; unfold no_partials; fields; apply lookup_delete_eq].
  destruct Hi as [H1 H2 H3 H4 H5 H6 H7 H8 H9 H10 H11 H12 H13]. constructor; try done; fields.
  - intros rid' Hp. apply H7. rewrite lookup_delete in Hp. case_decide; [by destruct Hp|done].
  - intros Hst rid' p Hp. apply (H12 Hst rid'). rewrite lookup_delete in Hp. by case_decide.
  - intros Hst rid' qid q Hq Hl. destruct (H13 Hst rid' qid q Hq Hl) as [Hp Hc]. split; [|done].
    intros p Hpp. apply Hp. rewrite lookup_delete in Hpp. by case_decide.
Qed.

Lemma tracked_forget rid s rid' :
  tracked (s <| k_requests := od_pop rid (k_requests s) |>) rid' = if decide (rid' = rid) then false else tracked s rid'.
Proof.
  unfold tracked, od_mem. fields. case_decide as E; [by rewrite E, od_get_pop|by rewrite od_get_pop_ne].
Qed.

(** The request may go: its waiters know. *)
Lemma forget_request_ending D rid :
  triple (ending D rid true true true) (forget_request rid) (fun _ => cinv D).
Proof.
  apply triple_modify. intros s [Hi Hs Ht Hn]. specialize (Hs eq_refl). specialize (Ht eq_refl).
  specialize (Hn eq_refl). destruct Hi as [H1 H2 H3 H4 H5 H6 H7 H8 H9 H10 H11 H12 H13].
  assert (∀ rid', rid' ≠ rid →
    info_of (s <| k_requests := od_pop rid (k_requests s) |>) rid' = info_of s rid') as Hinfo.
  { intros rid' Hne. unfold info_of, request_of. fields. by rewrite od_get_pop_ne. }
  constructor; try done.
  - by apply od_pop_wf.
  - intros rid' oid Hr. apply (H2 rid'). unfold request_of in *. fields.
    destruct (decide (rid' = rid)) as [->|Hne]; [by rewrite od_get_pop in Hr|by rewrite od_get_pop_ne in Hr].
  - intros rid' fid Hf. destruct (H3 rid' fid Hf) as (f & Hf1 & Hd). exists f. split; [done|].
    intros Hdn. rewrite tracked_forget. case_decide as E; [|by apply Hd].
    subst rid'. specialize (Hs fid f Hf Hf1). congruence.
  - intros rid' Hp. destruct (decide (rid' = rid)) as [->|Hne].
    + destruct Hp as [p Hp]. unfold no_partials in Hn. fields. congruence.
    + rewrite tracked_forget, decide_False by done. unfold expected_terminal_stages.
      rewrite Hinfo by done. by apply H7.
  - intros Hst rid' info. destruct (decide (rid' = rid)) as [->|Hne].
    + unfold info_of, request_of. fields. by rewrite od_get_pop.
    + rewrite Hinfo by done. by apply H11.
  - intros Hst rid' qid q Hq Hl. destruct (H13 Hst rid' qid q Hq Hl) as [Hp Hc]. split; [done|].
    rewrite tracked_forget. case_decide as E; [|done]. intros _. subst rid'. by apply (Ht Hst qid).
Qed.
End Keep.
