(* ===== verification/CoordKeep.v ===== *)
(** * The pipeline coordinator: its operations keep the invariant *)
From S2P Require Import Prelude Odict Coord CoordOps CoordSteps CoordInv.

Section Operations.
Context {V Chunk Request : Type}.
Context (resolver : option (Request → result (option (list string)))).
Abbreviation C := (Coord V Chunk Request).
Abbreviation cinv := (CoordInv.cinv (V := V) (Chunk := Chunk) resolver).
Abbreviation ending := (CoordInv.ending (V := V) (Chunk := Chunk) resolver).
Implicit Types (s : C) (D : string → gset string).

Lemma cinv_ending D rid s : cinv D s ↔ ending D rid false false false s.
Proof. split; [by constructor|by intros []]. Qed.

Lemma ending_inv D rid a b c s : ending D rid a b c s → cinv D s.
Proof. by intros []. Qed.

Lemma from_inv {A} D rid (f : M C A) Q :
  triple (ending D rid false false false) f Q → triple (cinv D) f Q.
Proof. intros Hf s Hs. by apply Hf, cinv_ending. Qed.

Lemma triple_frame {A} (P : C → Prop) (f : M C A) (Q R : C → Prop) :
  triple P f (fun _ => Q) → (∀ s, R s → R (f s).2) →
  triple (fun s => P s ∧ R s) f (fun _ s => Q s ∧ R s).
Proof.
  intros Hf Hr s [HP HR]. destruct (Hf s HP) as (a & s' & E & HQ). exists a, s'.
  specialize (Hr s HR). rewrite E in Hr. done.
Qed.

Lemma log_ending D rid a b c l :
  triple (ending D rid a b c) (modify (fun s : C => s <| k_sent := k_sent s ++ l |>))
    (fun _ => ending D rid a b c).
Proof. apply triple_modify. intros s. by apply core_same_ending. Qed.

Lemma reject_ending D rid a b c exc :
  triple (ending D rid a b c) (reject_completion_future rid exc) (fun _ => ending D rid true b c).
Proof. apply settle_ending. intros s. by destruct (k_stream_queues s !! rid). Qed.

Lemma put_failure_ending D rid a b c msg :
  cm_success msg = false →
  triple (ending D rid a b c) (put_queue rid (QComplete msg)) (fun _ => ending D rid a true c).
Proof. intros Hm. apply put_ending. intros _. right. intros. by apply failure_conclusive. Qed.

(** ** The ends of a request *)

Lemma run_abort_keeps D rid : triple (cinv D) (run_abort rid) (fun _ => cinv D).
Proof.
  apply (from_inv D rid).
  unfold run_abort. eapply triple_bind; [apply log_ending|]. intros []. cbv beta. apply triple_get_inv.
  intros s _. destruct (request_of s rid) as [oid|].
  2:{ eapply triple_conseq; [apply triple_ret|done|]. intros ? s'. apply ending_inv. }
  eapply triple_bind; [by apply on_info_ending|]. intros []. cbv beta.
  eapply triple_bind; [apply reject_ending|]. intros []. cbv beta.
  eapply triple_bind; [by apply put_failure_ending|]. intros []. cbv beta.
  eapply triple_bind; [apply release_replica_ending|]. intros []. cbv beta.
  (* the source drops the request before its partial results: neither reads the other *)
  intros s' Hs'. destruct (forget_partials_ending resolver D rid true true false s' Hs') as ([] & s1 & E1 & H1).
  destruct (forget_request_ending resolver D rid s1 H1) as ([] & s2 & E2 & H2).
  exists true, s2. split; [|done]. injection E1 as <-. injection E2 as <-. by destruct s'.
Qed.

Lemma completion_failed_keeps D oid msg :
  cm_success msg = false → triple (cinv D) (completion_failed oid msg) (fun _ => cinv D).
Proof.
  intros Hm. set (rid := cm_request_id msg).
  apply (from_inv D rid).
  unfold completion_failed. fold rid. eapply triple_bind; [apply log_ending|]. intros []. cbv beta.
  eapply triple_bind; [apply forget_partials_ending|]. intros []. cbv beta.
  eapply triple_bind; [apply reject_ending|]. intros []. cbv beta.
  eapply triple_bind; [by apply put_failure_ending|]. intros []. cbv beta.
  eapply triple_bind; [apply release_replica_ending|]. intros []. cbv beta. apply forget_request_ending.
Qed.

(** What a success needs to end the request: its partial results are gone, and with it the
    stream has all it waits for. *)
Definition completes D (msg : CompleteMessage V) s : Prop :=
  no_partials (cm_request_id msg) s ∧
  ∀ qid q, static resolver → k_stream_queues s !! cm_request_id msg = Some qid →
    k_queues s !! qid = Some q →
    conclusive (k_terminal_stages s) (D (cm_request_id msg)) (q ++ [QComplete msg]).

Lemma complete_one_keeps D oid msg s :
  cinv D s → completes D msg s → ∃ s', complete_one oid msg s = (Ok tt, s') ∧ cinv D s'.
Proof.
  intros Hi [Hn Hc]. set (rid := cm_request_id msg) in *.
  set (R s' := k_queues s' = k_queues s ∧ k_stream_queues s' = k_stream_queues s ∧
    k_terminal_stages s' = k_terminal_stages s).
  assert (triple (fun s' => ending D rid false false true s' ∧ R s') (complete_one oid msg)
    (fun _ => cinv D)) as Ht.
  2:{ destruct (Ht s) as ([] & s' & E & H'); [|by exists s']. split; [by constructor|done]. }
  unfold complete_one, complete_request. fold rid.
  apply triple_bind with (fun _ s' => ending D rid false false true s' ∧ R s').
  { apply triple_frame; [by apply on_info_ending|done]. }
  intros _. apply triple_bind with (fun _ s' => ending D rid true false true s' ∧ R s').
  { apply triple_frame; [by apply settle_ending|]. intros s1 H1. cbn.
    destruct (k_completion_futures s1 !! rid) as [fid|]; [|done].
    by destruct (k_futures s1 !! fid) as [[]|]. }
  intros _. apply triple_bind with (fun _ => ending D rid true true true).
  { intros s1 (H1 & E1 & E2 & E3). exists tt, (pushed rid (QComplete msg) s1). split; [done|].
    pose proof (put_ending resolver D rid true false true false (QComplete msg) ltac:(done) s1 H1)
      as (u & s2 & E & H2). rewrite put_queue_pushed in E. injection E as _ <-.
    destruct H2 as [P1 P2 P3 P4]. constructor; [done|done| |done]. intros _ Hst qid q.
    assert (k_stream_queues (pushed rid (QComplete msg) s1) = k_stream_queues s1 ∧
      k_terminal_stages (pushed rid (QComplete msg) s1) = k_terminal_stages s1) as [-> ->]
      by (unfold pushed; by destruct (k_stream_queues s1 !! rid)).
    intros Hq Hl. destruct (pushed_queue rid (QComplete msg) s1 rid qid q Hq Hl) as (q0 & Hq0 & ->);
      [apply H1|]. rewrite decide_True by done. rewrite E3. apply (Hc qid); [done|congruence..]. }
  intros []. cbv beta. eapply triple_bind; [apply release_replica_ending|]. intros []. cbv beta. apply forget_request_ending.
Qed.

Lemma od_set_keys_set {W} k (v : W) (d : list (string * W)) :
  (list_to_set (od_keys (od_set k v d)) : gset string) = {[k]} ∪ list_to_set (od_keys d).
Proof.
  rewrite od_set_keys. destruct (od_mem k d) eqn:E; [apply od_mem_true in E; set_solver|].
  rewrite list_to_set_app_L. simpl. set_solver.
Qed.

(** The state of [complete_part] once the stage's result is stored and the stream told. *)
Definition joined (msg : CompleteMessage V) s : C :=
  pushed (cm_request_id msg) (QComplete msg) (s <| k_partial_results :=
    <[cm_request_id msg := od_set (cm_from_stage msg) (cm_result msg)
        (default [] (k_partial_results s !! cm_request_id msg))]> (k_partial_results s) |>).

Lemma joined_inv D msg s :
  cinv D s → cm_success msg = true → tracked s (cm_request_id msg) = true →
  1 < size (expected_terminal_stages s (cm_request_id msg)) →
  cm_from_stage msg ∈ expected_terminal_stages s (cm_request_id msg) →
  cinv D (joined msg s).
Proof.
  intros Hi Hok Ht Hsize Hin. apply push_inv; [done| |].
  { intros rid' Hne. by rewrite lookup_insert_ne. }
  intros p. rewrite lookup_insert_eq. intros [= <-]. split; [done|]. split; [done|].
  intros Hst. rewrite (expected_static resolver D) in Hin by done. rewrite od_set_keys_set.
  set (old := default [] (k_partial_results s !! cm_request_id msg)).
  assert (list_to_set (od_keys old) ⊆ k_terminal_stages s) as Hold.
  { unfold old. destruct (k_partial_results s !! cm_request_id msg) as [p|] eqn:E; [|set_solver].
    by apply (ci_keys _ _ _ Hi Hst (cm_request_id msg)). }
  split; [set_solver|]. intros qid q Hq Hl. rewrite succeeded_app, succeeded_one, Hok.
  destruct (ci_streams _ _ _ Hi Hst _ qid q Hq Hl) as [Hp _].
  assert (list_to_set (od_keys old) ⊆ D (cm_request_id msg) ∪ succeeded q) as Hd.
  { unfold old. destruct (k_partial_results s !! cm_request_id msg) as [p|] eqn:E; [|set_solver].
    by apply Hp. }
  set_solver.
Qed.

Lemma joined_fields msg s :
  k_partial_results (joined msg s) !! cm_request_id msg =
    Some (od_set (cm_from_stage msg) (cm_result msg)
            (default [] (k_partial_results s !! cm_request_id msg))) ∧
  k_stream_queues (joined msg s) = k_stream_queues s ∧
  k_terminal_stages (joined msg s) = k_terminal_stages s ∧
  k_completion_futures (joined msg s) = k_completion_futures s ∧
  k_requests (joined msg s) = k_requests s.
Proof.
  unfold joined, pushed. fields.
  destruct (k_stream_queues s !! cm_request_id msg); fields; by rewrite lookup_insert_eq.
Qed.

(** The request's end, with every stage's result. *)
Definition merge_end rid oid (partials : list (string * option V)) : M C unit :=
  _ ← forget_partials rid;
  _ ← complete_request rid oid (Merged partials);
  _ ← settle rid (fun _ => FResult (Merged partials));
  _ ← release_replica oid;
  forget_request rid.

Lemma complete_part_joined oid expected msg s :
  let rid := cm_request_id msg in
  let partials := od_set (cm_from_stage msg) (cm_result msg) (default [] (k_partial_results s !! rid)) in
  complete_part oid expected msg s =
    (if bool_decide (list_to_set (od_keys partials) ⊂ expected) then mret tt else merge_end rid oid partials)
      (joined msg s).
Proof.
  intros rid partials. destruct (joined_fields msg s) as (E1 & _).
  transitivity ((s1 ← get; let partials := default [] (k_partial_results s1 !! rid) in
    if bool_decide (list_to_set (od_keys partials) ⊂ expected) then mret tt
    else merge_end rid oid partials) (joined msg s)); [done|].
  unfold mbind at 1, M_bind at 1, get. cbv zeta. fold rid in E1. by rewrite E1.
Qed.

Lemma complete_part_keeps D oid msg s :
  cinv D s → cm_success msg = true → tracked s (cm_request_id msg) = true →
  1 < size (expected_terminal_stages s (cm_request_id msg)) →
  cm_from_stage msg ∈ expected_terminal_stages s (cm_request_id msg) →
  ∃ s', complete_part oid (expected_terminal_stages s (cm_request_id msg)) msg s = (Ok tt, s') ∧ cinv D s'.
Proof.
  intros Hi Hok Ht Hsize Hin. pose proof (joined_inv D msg s Hi Hok Ht Hsize Hin) as Hj.
  destruct (joined_fields msg s) as (E1 & E2 & E3 & E4 & E5).
  set (rid := cm_request_id msg) in *. set (expected := expected_terminal_stages s rid) in *.
  set (partials := od_set (cm_from_stage msg) (cm_result msg) _) in *.
  rewrite complete_part_joined. cbv zeta. fold rid partials.
  case_bool_decide as Hwait; [by exists (joined msg s)|].
  assert (ending D rid false true false (joined msg s)) as He.
  { constructor; [done|done| |done]. intros _ Hst qid q Hq Hl.
    destruct (ci_streams _ _ _ Hj Hst rid qid q Hq Hl) as [Hp _]. specialize (Hp _ E1).
    pose proof (ci_keys _ _ _ Hj Hst rid partials E1) as Hk. rewrite E3 in Hk |- *.
    unfold expected in Hwait. rewrite (expected_static resolver D) in Hwait by done.
    assert (cm_from_stage msg ∈ (list_to_set (od_keys partials) : gset string)) as Hs
      by (unfold partials; rewrite od_set_keys_set; apply elem_of_union_l, elem_of_singleton_2; done).
    clearbody partials. right. split.
    - destruct (decide (k_terminal_stages s ⊆ (list_to_set (od_keys partials) : gset string))) as [Hsub|Hsub].
      + by etrans.
      + by destruct Hwait.
    - intros Hempty. rewrite Hempty in Hp. by apply Hp in Hs as ?%not_elem_of_empty. }
  destruct (triple_bind (ending D rid false true false) (forget_partials rid)
    (fun _ => ending D rid false true true)
    (fun _ => _ ← complete_request rid oid (Merged partials);
      _ ← settle rid (fun _ => FResult (Merged partials));
      _ ← release_replica oid;
      forget_request rid) (fun _ => cinv D) (forget_partials_ending resolver D rid false true false))
    with (s := joined msg s) as ([] & s' & E & H'); [|done|by exists s'].
  intros []. unfold complete_request. eapply triple_bind; [by apply on_info_ending|].
  intros []. cbv beta. eapply triple_bind; [by apply settle_ending|].
  intros []. cbv beta. eapply triple_bind; [apply release_replica_ending|].
  intros []. cbv beta. apply forget_request_ending.
Qed.

Lemma subset_of_one (X : gset string) x : size X ≤ 1 → x ∈ X → X = {[x]}.
Proof.
  intros Hs Hx. apply set_eq. intros y. rewrite elem_of_singleton. split; [|by intros ->].
  intros Hy. destruct (decide (y = x)) as [|Hne]; [done|].
  assert (size ({[x]} ∪ {[y]} : gset string) ≤ size X) as Hle by (apply subseteq_size; set_solver).
  rewrite size_union in Hle by set_solver. rewrite !size_singleton in Hle. lia.
Qed.

(** A completion message never raises; a failure leaves its request for after the broadcast. *)
Lemma handle_completion_keeps D msg :
  triple (cinv D) (handle_completion msg)
    (fun r s => cinv D s ∧ match r with Some _ => cm_success msg = false | None => True end).
Proof.
  intros s Hi. unfold handle_completion. set (rid := cm_request_id msg).
  unfold mbind at 1, M_bind at 1, get. destruct (request_of s rid) as [oid|] eqn:Er.
  2:{ by exists None, s. }
  assert (tracked s rid = true) as Ht by (apply tracked_request; by eexists).
  destruct (cm_success msg) eqn:Eok; cbn [negb].
  2:{ match goal with |- context [on_info oid ?f] =>
        destruct (on_info_ending resolver D rid false false false oid f (fun _ => eq_refl) s)
          as ([] & s1 & E & H1); [by apply cinv_ending|] end.
      exists (Some oid), s1. unfold mbind, M_bind. rewrite E. split; [done|].
      split; [by eapply ending_inv|done]. }
  destruct (negb (bool_decide (expected_terminal_stages s rid = ∅)) &&
    negb (bool_decide (cm_from_stage msg ∈ expected_terminal_stages s rid))) eqn:Eign;
    [by exists None, s|].
  assert (expected_terminal_stages s rid = ∅ ∨ cm_from_stage msg ∈ expected_terminal_stages s rid) as Hin.
  { apply andb_false_iff in Eign as [E|E]; apply negb_false_iff, bool_decide_eq_true in E; auto. }
  assert (∃ s1, (if size (expected_terminal_stages s rid) <=? 1 then complete_one oid msg
    else complete_part oid (expected_terminal_stages s rid) msg) s = (Ok tt, s1) ∧ cinv D s1)
    as (s1 & E & H1).
  2:{ exists None, s1. unfold mbind, M_bind. rewrite E. done. }
  destruct (Nat.leb_spec (size (expected_terminal_stages s rid)) 1) as [Hle|Hgt].
  - apply complete_one_keeps; [done|]. split.
    + fold rid. unfold no_partials. destruct (k_partial_results s !! rid) eqn:E; [|done].
      destruct (ci_partials _ _ _ Hi rid) as [_ Hs]; [by eexists|]. lia.
    + fold rid. intros qid q Hst Hq Hl. rewrite (expected_static resolver D) in Hin, Hle by done.
      right. rewrite succeeded_app, succeeded_one, Eok. split; [|set_solver].
      destruct Hin as [->|Hin]; [set_solver|]. rewrite (subset_of_one _ _ Hle Hin). set_solver.
  - destruct Hin as [Hin|Hin]; [rewrite Hin, size_empty in Hgt; lia|].
    by apply complete_part_keeps.
Qed.

(** ** Failing everything *)

Lemma settle_other D rid rid' a b c v :
  (∀ s, done (v s) = true) →
  triple (ending D rid a b c) (settle rid' v) (fun _ => ending D rid a b c).
Proof.
  intros Hv s [Hi Hs Ht Hn].
  destruct (settle_ending resolver D rid' false false false v Hv s) as (u & s' & E & H'); [by constructor|].
  exists u, s'. split; [done|].
  assert (k_stream_queues s' = k_stream_queues s ∧ k_queues s' = k_queues s ∧
    k_partial_results s' = k_partial_results s ∧ k_terminal_stages s' = k_terminal_stages s ∧
    k_completion_futures s' = k_completion_futures s) as (E1 & E2 & E3 & E4 & E5).
  { injection E as _ <-. destruct (k_completion_futures s !! rid') as [fid|]; [|done].
    by destruct (k_futures s !! fid) as [[]|]. }
  constructor; [by eapply ending_inv| |unfold told; by rewrite E1, E2, E4|unfold no_partials; by rewrite E3].
  intros Ha fid f. rewrite E5. intros Hf Hl. injection E as _ <-.
  destruct (k_completion_futures s !! rid') as [fid'|] eqn:Ef; [|by apply (Hs Ha fid)].
  destruct (k_futures s !! fid') as [[]|] eqn:Ef'; try by apply (Hs Ha fid).
  fields. rewrite lookup_insert in Hl. case_decide; [|by apply (Hs Ha fid)].
  injection Hl as <-. apply Hv.
Qed.

Lemma put_other D rid rid' a b c msg :
  triple (ending D rid a b c) (put_queue rid' msg) (fun _ => ending D rid a b c).
Proof.
  intros s [Hi Hs Ht Hn]. exists tt, (pushed rid' msg s). split; [done|].
  assert (k_completion_futures (pushed rid' msg s) = k_completion_futures s ∧
    k_futures (pushed rid' msg s) = k_futures s ∧ k_stream_queues (pushed rid' msg s) = k_stream_queues s ∧
    k_partial_results (pushed rid' msg s) = k_partial_results s ∧
    k_terminal_stages (pushed rid' msg s) = k_terminal_stages s) as (E1 & E2 & E3 & E4 & E5).
  { unfold pushed. by destruct (k_stream_queues s !! rid'). }
  constructor; [by apply put_inv|unfold settled; by rewrite E1, E2| |unfold no_partials; by rewrite E4].
  intros Hb Hst qid q. rewrite E3, E5. intros Hq Hl.
  destruct (pushed_queue rid' msg s rid qid q Hq Hl) as (q0 & Hq0 & ->); [apply Hi|].
  specialize (Ht Hb Hst qid q0 Hq Hq0). case_decide; [by apply conclusive_app|done].
Qed.

Lemma fail_one_other D rid message p a b c :
  triple (ending D rid a b c) (fail_one message p) (fun _ => ending D rid a b c).
Proof.
  unfold fail_one. eapply triple_bind; [by apply on_info_ending|].
  intros []. cbv beta. eapply triple_bind; [apply settle_other; intros s; by destruct (k_stream_queues s !! p.1)|].
  intros []. cbv beta. eapply triple_bind; [apply put_other|].
  intros []. cbv beta. apply release_replica_ending.
Qed.

Lemma fail_one_own D message p a b c :
  triple (ending D p.1 a b c) (fail_one message p) (fun _ => ending D p.1 true true c).
Proof.
  unfold fail_one. eapply triple_bind; [by apply on_info_ending|].
  intros []. cbv beta. eapply triple_bind; [apply reject_ending|].
  intros []. cbv beta. eapply triple_bind; [by apply put_failure_ending|].
  intros []. cbv beta. apply release_replica_ending.
Qed.

Lemma fail_loop D message rid l :
  rid ∈ od_keys l → triple (cinv D) (mforeach (fail_one message) l) (fun _ => ending D rid true true false).
Proof.
  intros Hin. apply (from_inv D rid). revert Hin.
  induction l as [|p l IH]; [by intros ?%not_elem_of_nil|]. cbn [od_keys map mforeach].
  destruct (decide (rid = p.1)) as [->|Hne].
  - intros _. eapply triple_bind; [apply fail_one_own|]. intros []. cbv beta.
    apply triple_foreach. intros p' _. apply fail_one_other.
  - intros [?|Hin]%elem_of_cons; [done|]. eapply triple_bind; [apply fail_one_other|].
    intros []. cbv beta. by apply IH.
Qed.

(** A piece of code keeps the request table. *)
Definition same_requests {A} (f : M C A) : Prop := ∀ s, k_requests (f s).2 = k_requests s.

Lemma same_requests_bind {A B} (f : M C A) (g : A → M C B) :
  same_requests f → (∀ a, same_requests (g a)) → same_requests (f ≫= g).
Proof.
  intros Hf Hg s. unfold mbind, M_bind. specialize (Hf s). destruct (f s) as [[a|e] s1]; [|done].
  by rewrite (Hg a s1).
Qed.

Lemma same_requests_foreach {A} (f : A → M C unit) l :
  (∀ x, same_requests (f x)) → same_requests (mforeach f l).
Proof. intros Hf. induction l as [|x l IH]; [by intros s|]. by apply same_requests_bind. Qed.

Lemma settle_requests rid v : same_requests (settle rid v).
Proof.
  intros s. cbn. destruct (k_completion_futures s !! rid) as [fid|]; [|done].
  by destruct (k_futures s !! fid) as [[]|].
Qed.

Lemma put_requests rid msg : same_requests (put_queue rid msg).
Proof. intros s. cbn. by destruct (k_stream_queues s !! rid). Qed.

Lemma release_requests oid : same_requests (release_replica oid).
Proof.
  unfold release_replica. apply (same_requests_bind get); [done|]. intros s.
  destruct (k_infos s !! oid) as [info|]; [|done]. destruct (i_owner_dp_rank info); [|done].
  apply same_requests_bind; [by destruct (rank_index _ _)|done].
Qed.

Lemma fail_one_requests message p : same_requests (fail_one message p).
Proof.
  unfold fail_one. apply same_requests_bind; [done|]. intros _.
  apply same_requests_bind; [apply settle_requests|]. intros _.
  apply same_requests_bind; [apply put_requests|]. intros _. apply release_requests.
Qed.

(** Every caller is told. *)
Lemma fail_pending_keeps D message : triple (cinv D) (fail_pending_requests message) (fun _ => cinv D).
Proof.
  intros s0 H0. unfold fail_pending_requests.
  set (s := s0 <| k_running := false |> <| k_fatal_error := Some message |>).
  assert (cinv D s) as Hi by by apply (core_same resolver D s0).
  pose proof (same_requests_foreach (fail_one message) (k_requests s) (fail_one_requests message) s) as Hr.
  assert (∃ s1, mforeach (fail_one message) (k_requests s) s = (Ok tt, s1) ∧ cinv D s1 ∧
    ∀ rid, tracked s rid = true → ending D rid true true false s1) as (s1 & E & H1 & Hend).
  { destruct (triple_foreach (cinv D) (fail_one message) (k_requests s)) with (s := s)
      as ([] & s1 & E & H1); [|done|].
    - intros p _ s2 H2. destruct (fail_one_other D p.1 message p false false false s2)
        as (u & s3 & E3 & H3); [by apply cinv_ending|]. exists u, s3. split; [done|]. by eapply ending_inv.
    - exists s1. split; [done|]. split; [done|]. intros rid Ht.
      destruct (fail_loop D message rid (k_requests s)) with (s := s) as (u & s2 & E2 & H2); [|done|].
      + by apply od_mem_true.
      + rewrite E in E2. by injection E2 as _ <-. }
  rewrite E in Hr. simpl in Hr.
  assert (∀ rid, tracked s rid = tracked s1 rid) as Htr by (intros; unfold tracked; by rewrite Hr).
  eexists tt, _. split.
  { unfold mbind, M_bind, get, modify. fold s. rewrite E. done. }
  assert (∀ rid fid f, k_completion_futures s1 !! rid = Some fid → k_futures s1 !! fid = Some f →
    done f = true) as Hdone.
  { intros rid fid f Hf Hl. destruct (done f) eqn:Ed; [done|].
    destruct (ci_futures _ _ _ H1 rid fid Hf) as (f' & Hf' & Ht). rewrite Hl in Hf'.
    injection Hf' as <-. specialize (Ht Ed). rewrite <- Htr in Ht.
    symmetry. rewrite <- Ed. symmetry. by apply (en_settled _ _ _ _ _ _ _ (Hend rid Ht) eq_refl fid). }
  destruct H1 as [H1 H2 H3 H4 H5 H6 H7 H8 H9 H10 H11 H12 H13]. constructor; try done; fields.
  - constructor.
  - intros rid fid Hf. destruct (H3 rid fid Hf) as (f & Hf' & _). exists f. split; [done|].
    intros Hd. by rewrite (Hdone rid fid f) in Hd.
  - intros rid Hp. rewrite lookup_empty in Hp. by destruct Hp.
  - intros Hst rid qid q Hq Hl. split; [done|]. intros _.
    destruct (tracked s rid) eqn:Ht.
    + by apply (en_told _ _ _ _ _ _ _ (Hend rid Ht) eq_refl Hst qid).
    + destruct (H13 Hst rid qid q Hq Hl) as [_ Hc]. apply Hc. by rewrite <- Htr.
Qed.

(** ** Pieces that may raise *)

Abbreviation pres D := (stable (cinv D)).

Lemma pres_triple {A} D (f : M C A) Q :
  triple (cinv D) f Q → (∀ a s, Q a s → cinv D s) → pres D f.
Proof. intros Hf HQ s Hs. destruct (Hf s Hs) as (a & s' & -> & H'). by apply (HQ a). Qed.

Lemma select_replica_pres D name : pres D (select_replica name).
Proof.
  apply stable_get. intros s. apply stable_bind; [|intros; apply stable_ret].
  apply stable_modify. intros s'. by apply core_same.
Qed.

Lemma on_replica_pres D name i f : pres D (on_replica name i f).
Proof. apply stable_modify. intros s'. by apply core_same. Qed.

Lemma on_info_pres D oid f :
  (∀ info, i_terminal_stages (f info) = i_terminal_stages info) → pres D (on_info oid f).
Proof.
  intros Hf s Hs. destruct (on_info_ending resolver D "" false false false oid f Hf s)
    as (u & s' & E & H'); [by apply cinv_ending|]. rewrite E. by eapply ending_inv.
Qed.

Lemma release_pres D oid : pres D (release_replica oid).
Proof.
  intros s Hs. destruct (release_replica_ending resolver D "" false false false oid s)
    as (u & s' & E & H'); [by apply cinv_ending|]. rewrite E. by eapply ending_inv.
Qed.

(** Nothing but a new object's identity. *)
Lemma next_pres D s n : k_next s ≤ n → cinv D s → cinv D (s <| k_next := n |>).
Proof.
  intros Hn [H1 H2 H3 H4 H5 H6 H7 H8 H9 H10 H11 H12 H13]. constructor; try done; fields;
    intros x Hx; eapply Nat.lt_le_trans; eauto.
Qed.

Lemma new_id_pres D : pres D new_id.
Proof. intros s Hs. cbn. apply next_pres; [lia|done]. Qed.

Lemma admit_pres D rid dp_rank : pres D (admit_request rid dp_rank).
Proof.
  apply stable_get. intros s. apply stable_bind; [apply stable_lift|]. intros _.
  apply stable_bind; [apply stable_lift|]. intros _. apply stable_bind; [apply stable_lift|]. intros _.
  destruct dp_rank; [apply stable_lift|apply select_replica_pres].
Qed.

Lemma resolve_terminal_state request s : (resolve_terminal_stages resolver request s).2 = s.
Proof.
  unfold resolve_terminal_stages. destruct resolver as [f|]; [|done].
  unfold mbind, M_bind, get, lift. destruct (f request) as [[stages|]|]; [|done..].
  unfold guard_raise, raise_if, lift. case_bool_decide; [done|]. by case_bool_decide.
Qed.

Lemma resolve_terminal_static request s stages :
  static resolver → (resolve_terminal_stages resolver request s).1 = Ok stages → stages = k_terminal_stages s.
Proof. unfold static, resolve_terminal_stages. intros ->. by intros [= <-]. Qed.

Lemma submit_sent_pres D endpoint rid request : pres D (submit_sent endpoint rid request).
Proof.
  apply stable_bind; [by apply stable_modify; intros s; apply core_same|]. intros _. apply stable_get. intros s.
  destruct (request_of s rid); [by apply on_info_pres|apply stable_ret].
Qed.

Lemma submit_failed_pres D rid e : pres D (submit_failed rid e).
Proof.
  apply stable_get. intros s. apply stable_bind; [apply stable_lift|]. intros oid.
  apply stable_bind; [apply release_pres|]. intros _ s'. done.
Qed.

Lemma abort_pres D rid : pres D (abort rid).
Proof.
  apply stable_get. intros s. destruct (k_abort_tasks s !! rid); [apply stable_ret|].
  destruct (info_of s rid) as [info|]; [|apply stable_ret]. destruct (over (i_state info)); [apply stable_ret|].
  apply stable_bind; [apply new_id_pres|]. intros tid.
  apply stable_bind; [by apply stable_modify; intros s'; apply core_same|]. intros _. apply stable_ret.
Qed.

Lemma abort_task_done_pres D rid tid : pres D (on_abort_task_done rid tid).
Proof. apply stable_modify. intros s Hs. case_bool_decide; [by apply (core_same resolver D s)|done]. Qed.

Lemma update_pres D rid stage_name : pres D (update_request rid stage_name).
Proof.
  apply stable_get. intros s. apply stable_bind; [apply stable_lift|]. intros info.
  apply stable_bind; [apply stable_lift|]. intros _.
  destruct stage_name; [apply stable_lift|]. destruct (i_owner_endpoint info); [apply stable_ret|apply stable_lift].
Qed.

Lemma update_sent_pres D endpoint rid : pres D (update_sent endpoint rid).
Proof. apply stable_modify. intros s. by apply core_same. Qed.

Lemma drop_future_pres D rid : pres D (drop_future rid).
Proof.
  apply stable_modify. intros s [H1 H2 H3 H4 H5 H6 H7 H8 H9 H10 H11 H12 H13]. constructor; try done; fields.
  - intros rid' fid Hf. apply H3. rewrite lookup_delete in Hf. by case_decide.
  - intros r r' fid Hf Hf'. rewrite lookup_delete in Hf, Hf'. repeat case_decide; try done. by apply (H4 r r' fid).
Qed.

Lemma close_stream_pres D rid qid : pres D (close_stream rid qid).
Proof.
  apply stable_modify. intros s Hi. case_bool_decide; [|done].
  destruct (drop_future_pres D rid s Hi) as [H1 H2 H3 H4 H5 H6 H7 H8 H9 H10 H11 H12 H13].
  constructor; try done; fields.
  - intros r q Hq. apply (H5 r). rewrite lookup_delete in Hq. by case_decide.
  - intros r r' q Hq Hq'. rewrite lookup_delete in Hq, Hq'. repeat case_decide; try done. by apply (H6 r r' q).
  - intros Hst r qid' q Hq Hl. apply (H13 Hst r qid'); [|done]. rewrite lookup_delete in Hq. by case_decide.
Qed.

(** An unregistered queue. *)
Lemma new_queue_inv D s :
  cinv D s → ∃ s', new_queue s = (Ok (k_next s), s') ∧ cinv D s' ∧ same_tables s s' ∧
    k_queues s' !! k_next s = Some [] ∧ k_next s' = S (k_next s) ∧
    (∀ rid, k_stream_queues s' !! rid ≠ Some (k_next s)).
Proof.
  intros Hi. eexists. split; [reflexivity|]. pose proof Hi as [H1 H2 H3 H4 H5 H6 H7 H8 H9 H10 H11 H12 H13].
  assert (∀ rid, k_stream_queues s !! rid ≠ Some (k_next s)) as Hnew.
  { intros rid Hq. apply H5, H10 in Hq. lia. }
  split; [|split; [constructor; fields; [done..|lia]|split; [fields; apply lookup_insert_eq|split; [done|exact Hnew]]]].
  constructor; try done; fields.
  - intros rid qid Hq. rewrite lookup_insert. case_decide; [by eexists|by apply (H5 rid)].
  - intros x Hx. apply H8 in Hx. lia.
  - intros x Hx. apply H9 in Hx. lia.
  - intros x Hx. rewrite lookup_insert in Hx. case_decide; [lia|]. apply H10 in Hx. lia.
  - intros Hst rid qid q Hq Hl. rewrite lookup_insert_ne in Hl; [by apply (H13 Hst rid qid)|].
    intros <-. by apply (Hnew rid).
Qed.

(** The stream of the request is new: nothing was delivered. *)
Definition fresh_stream D rid : string → gset string := fun r => if decide (r = rid) then ∅ else D r.

Lemma track_request_inv D rid queue terminal replica s :
  cinv D s → request_id_is_reserved s rid = false → (static resolver → terminal = k_terminal_stages s) →
  (∀ qid, queue = Some qid → k_queues s !! qid = Some [] ∧ ∀ r, k_stream_queues s !! r ≠ Some qid) →
  ∃ s', track_request rid queue terminal replica s = (Ok tt, s') ∧ cinv (fresh_stream D rid) s' ∧
    k_completion_futures s' = <[rid := S (k_next s)]> (k_completion_futures s) ∧
    k_stream_queues s' = match queue with Some qid => <[rid := qid]> (k_stream_queues s)
                         | None => k_stream_queues s end ∧
    k_terminal_stages s' = k_terminal_stages s ∧ k_next s' = S (S (k_next s)) ∧
    (∀ qid, k_queues s' !! qid = k_queues s !! qid).
Proof.
  intros Hi Hres Hterm Hqueue. eexists. split; [reflexivity|]. fields.
  split; [|by destruct queue].
  unfold request_id_is_reserved in Hres. rewrite !orb_false_iff, !bool_decide_eq_false in Hres.
  destruct Hres as [[[Ht Hcf] Hsq] _].
  assert (k_completion_futures s !! rid = None) as Hcf' by (by apply eq_None_not_Some).
  assert (k_stream_queues s !! rid = None) as Hsq' by (by apply eq_None_not_Some).
  pose proof Hi as [H1 H2 H3 H4 H5 H6 H7 H8 H9 H10 H11 H12 H13].
  assert (k_partial_results s !! rid = None) as Hpart.
  { destruct (k_partial_results s !! rid) eqn:E; [|done]. destruct (H7 rid); [by eexists|congruence]. }
  set (info := {| i_state := R_PENDING; i_current_stage := _; i_terminal_stages := _; i_result := _;
                  i_error := _; i_owner_endpoint := _; i_owner_dp_rank := _ |}).
  match goal with |- CoordInv.cinv _ _ ?x => set (s' := x) end.
  assert (∀ r, tracked s' r = if decide (r = rid) then true else tracked s r) as Htr.
  { intros r. unfold tracked, od_mem, s'. fields. case_decide as E; [by rewrite E, od_get_set|].
    by rewrite od_get_set_ne. }
  assert (∀ r, r ≠ rid → info_of s' r = info_of s r) as Hinfo.
  { intros r Hr. unfold info_of, request_of, s'. fields. rewrite od_get_set_ne by done.
    destruct (od_get r (k_requests s)) as [o|] eqn:E; [|done]. simpl. rewrite lookup_insert_ne; [done|].
    intros <-. specialize (H8 _ (H2 r _ E)). lia. }
  constructor.
  - by apply od_set_wf.
  - intros r oid. unfold request_of, s'. fields. destruct (decide (r = rid)) as [->|Hr].
    + rewrite od_get_set. intros [= <-]. rewrite lookup_insert_eq. by eexists.
    + rewrite od_get_set_ne by done. intros Ho. rewrite lookup_insert. case_decide; [by eexists|by apply (H2 r)].
  - intros r fid. rewrite Htr. unfold s'. fields. rewrite lookup_insert. case_decide as E.
    + intros [= <-]. exists FPending. rewrite lookup_insert_eq. split; [done|]. by rewrite decide_True.
    + intros Hf. destruct (H3 r fid Hf) as (f & Hf1 & Hd). exists f.
      rewrite lookup_insert_ne by (intros <-; assert (S (k_next s) < k_next s) by (apply H9; by eexists); lia).
      split; [done|]. by rewrite decide_False.
  - intros r r' fid. unfold s'. fields.
    assert (∀ x, k_completion_futures s !! x = Some (S (k_next s)) → False) as Hno.
    { intros x Hx. destruct (H3 x _ Hx) as (f & Hf & _).
      assert (S (k_next s) < k_next s) by (apply H9; by eexists). lia. }
    rewrite !lookup_insert. repeat case_decide; subst; try done; [|intros ? [= <-]; by edestruct Hno|apply H4].
    intros [= <-] Hx. by destruct (Hno r').
  - intros r qid. unfold s'. fields. destruct queue as [q|]; [|apply H5]. rewrite lookup_insert.
    case_decide; [|apply H5]. intros [= <-]. destruct (Hqueue q eq_refl) as [-> _]. by eexists.
  - intros r r' qid. unfold s'. fields. destruct queue as [q|]; [|apply H6].
    destruct (Hqueue q eq_refl) as [_ Hno]. rewrite !lookup_insert.
    repeat case_decide; subst; try done; [| |apply H6].
    + intros [= <-] Hx. by destruct (Hno r').
    + intros Hx [= <-]. by destruct (Hno r).
  - intros r Hp. change (k_partial_results s') with (k_partial_results s) in Hp. rewrite Htr. destruct (decide (r = rid)) as [->|Hr].
    + rewrite Hpart in Hp. by destruct Hp.
    + unfold expected_terminal_stages. rewrite Hinfo by done. by apply H7.
  - intros oid. unfold s'. fields. rewrite lookup_insert. case_decide; [lia|]. intros Ho. apply H8 in Ho. lia.
  - intros fid. unfold s'. fields. rewrite lookup_insert. case_decide; [lia|]. intros Ho. apply H9 in Ho. lia.
  - intros qid. unfold s'. fields. intros Ho. apply H10 in Ho. lia.
  - intros Hst r i Hr. destruct (decide (r = rid)) as [->|Hne].
    + unfold info_of, request_of, s' in Hr. fields. rewrite od_get_set in Hr. simpl in Hr.
      rewrite lookup_insert_eq in Hr. injection Hr as <-. unfold info. simpl. by rewrite Hterm.
    + rewrite Hinfo in Hr by done. by apply (H11 Hst r).
  - intros Hst r p. unfold s'. fields. apply (H12 Hst).
  - intros Hst r qid q. rewrite Htr. unfold s', fresh_stream. fields. intros Hq Hl.
    destruct (decide (r = rid)) as [->|Hne].
    + split; [|done]. intros p Hp. congruence.
    + apply (H13 Hst r qid); [|done]. destruct queue; [|done]. by rewrite lookup_insert_ne in Hq.
Qed.
End Operations.
