(* ===== verification/CoordWorld.v ===== *)
(** * The pipeline coordinator: no waiter is stranded

    The invariant of the coordinator together with its suspended coroutines, kept by every
    event, and what it means for the callers: whoever still waits is waiting for a request the
    coordinator tracks. *)
From S2P Require Import Prelude Odict Coord CoordOps CoordSteps CoordInv CoordKeep.

Section World.
Context {V Chunk Request : Type}.
Context (resolver : option (Request → result (option (list string)))).
Abbreviation C := (Coord V Chunk Request).
Abbreviation W := (World V Chunk Request).
Abbreviation T := (Task V Request).
Abbreviation cinv := (CoordInv.cinv (V := V) (Chunk := Chunk) resolver).
Implicit Types (s : C) (w : W) (D : string → gset string) (t : T).

(** The identifier whose caller the coroutine is, and its queue. *)
Definition holder t : option string :=
  match t with
  | TSending rid _ _ _ | TAwait rid _ | TStream rid _ _ _ _ | TClosing rid _ _ _ => Some rid
  | TAbort _ => None
  end.

Definition task_queue t : option nat :=
  match t with
  | TSending _ _ _ queue => queue
  | TStream _ qid _ _ _ | TClosing _ qid _ _ => Some qid
  | TAwait _ _ | TAbort _ => None
  end.

Definition delivered D t : Prop :=
  match t with
  | TSending rid _ _ (Some _) => D rid = ∅
  | TStream rid _ _ completed yielded => D rid = counted completed yielded
  | _ => True
  end.

(** A stream knows its terminal stages and has not counted them all. *)
Definition unfinished s t : Prop :=
  match t with
  | TStream _ _ expected completed _ => static resolver →
      expected = k_terminal_stages s ∧ (completed = ∅ ∨ ¬ expected ⊆ completed)
  | _ => True
  end.

(** The caller's future and queue are registered. *)
Definition registered_task s t rid : Prop :=
  is_Some (k_completion_futures s !! rid) ∧
  (∀ qid, task_queue t = Some qid → k_stream_queues s !! rid = Some qid) ∧
  (∀ fid, t = TAwait rid fid → k_completion_futures s !! rid = Some fid).

Record winv D w : Prop := {
  wi_coord : cinv D (w_coord w);
  wi_fresh : ∀ tid, is_Some (w_tasks w !! tid) → tid < k_next (w_coord w);
  wi_held : ∀ tid t rid, w_tasks w !! tid = Some t → holder t = Some rid →
    registered_task (w_coord w) t rid;
  wi_one : ∀ tid tid' t t' rid, w_tasks w !! tid = Some t → w_tasks w !! tid' = Some t' →
    holder t = Some rid → holder t' = Some rid → tid' = tid;
  wi_delivered : ∀ tid t, w_tasks w !! tid = Some t → delivered D t;
  wi_unfinished : ∀ tid t, w_tasks w !! tid = Some t → unfinished (w_coord w) t;
  wi_loop : ∀ oid msg, w_loop w = Failing oid msg → cm_success msg = false
}.

(** ** Moves *)

Lemma registered_same s s' t rid :
  same_tables s s' → registered_task s t rid → registered_task s' t rid.
Proof. intros [E1 E2 _ _]. unfold registered_task. by rewrite E1, E2. Qed.

Lemma unfinished_same s s' t :
  k_terminal_stages s' = k_terminal_stages s → unfinished s t → unfinished s' t.
Proof. unfold unfinished. by intros ->. Qed.

(** The coordinator runs a piece of code that registers and drops nothing. *)
Lemma set_coord_keeps D w s :
  winv D w → cinv D s → same_tables (w_coord w) s → winv D (set_coord s w).
Proof.
  intros [H1 H2 H3 H4 H5 H6 H7] Hs Hsame. pose proof Hsame as [_ _ Et En].
  constructor; unfold set_coord; fields; try done.
  - intros tid Ht. apply H2 in Ht. lia.
  - intros tid t rid Ht Hh. eapply registered_same; [done|]. by apply (H3 tid).
  - intros tid t Ht. eapply unfinished_same; [done|]. by apply (H6 tid).
Qed.

Lemma run_keeps {A} D w (f : M C A) : stable (cinv D) f → framed f → winv D w → winv D (run f w).2.
Proof.
  intros Hp Hf Hw. unfold run. specialize (Hp (w_coord w) (wi_coord _ _ Hw)). specialize (Hf (w_coord w)).
  destruct (f (w_coord w)) as [r s]. by apply set_coord_keeps.
Qed.

Lemma run_pair {A} w (f : M C A) : run f w = ((run f w).1, (run f w).2).
Proof. by destruct (run f w). Qed.

Lemma run_triple {A} D w (f : M C A) Q :
  triple (cinv D) f Q → (∀ a s, Q a s → cinv D s) → framed f → winv D w → winv D (run f w).2.
Proof. intros Hf HQ Hfr. apply run_keeps; [|done]. by eapply pres_triple. Qed.

(** A coroutine goes on waiting, elsewhere. *)
Lemma retask D w tid t0 t :
  winv D w → w_tasks w !! tid = Some t0 → holder t = holder t0 →
  (∀ rid, holder t = Some rid → registered_task (w_coord w) t rid) →
  delivered D t → unfinished (w_coord w) t → winv D (set_task tid t w).
Proof.
  intros [H1 H2 H3 H4 H5 H6 H7] Ht0 Hh Hreg Hd Hu. constructor; unfold set_task; fields; try done.
  - intros tid'. rewrite lookup_insert. case_decide; [subst; intros _; by apply H2|apply H2].
  - intros tid' t' rid'. rewrite lookup_insert. case_decide; [by intros [= <-]; apply Hreg|apply H3].
  - intros i j ti tj r. rewrite !lookup_insert. repeat case_decide; subst; try done.
    + intros [= <-] Hj Hr Hr'. rewrite Hh in Hr. by apply (H4 i j t0 tj r).
    + intros Hi [= <-] Hr Hr'. rewrite Hh in Hr'. by apply (H4 i j ti t0 r).
    + apply H4.
  - intros tid' t'. rewrite lookup_insert. case_decide; [by intros [= <-]|apply H5].
  - intros tid' t'. rewrite lookup_insert. case_decide; [by intros [= <-]|apply H6].
Qed.

(** A coroutine nobody holds is added or removed. *)
Lemma add_abort D w tid rid : winv D w → tid < k_next (w_coord w) → w_tasks w !! tid = None →
  winv D (set_task tid (TAbort rid) w).
Proof.
  intros [H1 H2 H3 H4 H5 H6 H7] Hlt Hnew. constructor; unfold set_task; fields; try done.
  - intros tid'. rewrite lookup_insert. case_decide; [by subst|apply H2].
  - intros tid' t' rid'. rewrite lookup_insert. case_decide; [by intros [= <-]|apply H3].
  - intros i j ti tj r. rewrite !lookup_insert. repeat case_decide; subst; try done;
      [by intros [= <-]|by intros ? [= <-]|apply H4].
  - intros tid' t'. rewrite lookup_insert. case_decide; [by intros [= <-]|apply H5].
  - intros tid' t'. rewrite lookup_insert. case_decide; [by intros [= <-]|apply H6].
Qed.

Lemma drop_task D w tid outcomes :
  winv D w → winv D (w <| w_tasks := delete tid (w_tasks w) |> <| w_outcomes := outcomes |>).
Proof.
  intros [H1 H2 H3 H4 H5 H6 H7].
  assert (∀ i t, delete tid (w_tasks w) !! i = Some t → w_tasks w !! i = Some t) as Hsub.
  { intros i t. rewrite lookup_delete. by case_decide. }
  constructor; fields; try done.
  - intros i [t Hi]. apply H2. exists t. by apply Hsub.
  - intros i t rid Hi. by apply (H3 i t rid), Hsub.
  - intros i j ti tj r Hi Hj. apply (H4 i j ti tj r); by apply Hsub.
  - intros i t Hi. by apply (H5 i t), Hsub.
  - intros i t Hi. by apply (H6 i t), Hsub.
Qed.

(** A caller leaves, and its registrations with it. *)
Lemma leave D w tid t rid s outcome :
  winv D w → w_tasks w !! tid = Some t → holder t = Some rid → cinv D s →
  (∀ r, r ≠ rid → k_completion_futures s !! r = k_completion_futures (w_coord w) !! r ∧
    k_stream_queues s !! r = k_stream_queues (w_coord w) !! r) →
  k_terminal_stages s = k_terminal_stages (w_coord w) → k_next (w_coord w) ≤ k_next s →
  winv D (finish tid outcome (set_coord s w)).
Proof.
  intros [H1 H2 H3 H4 H5 H6 H7] Ht Hh Hs Hoth Hterm Hnext.
  assert (∀ i t', delete tid (w_tasks w) !! i = Some t' → w_tasks w !! i = Some t' ∧ i ≠ tid) as Hsub.
  { intros i t'. rewrite lookup_delete. case_decide; [done|]. intros Hi. split; [done|congruence]. }
  constructor; unfold finish, set_coord; fields; try done.
  - intros i [t' Hi]. apply Hsub in Hi as [Hi _]. assert (i < k_next (w_coord w)) by (apply H2; by eexists). lia.
  - intros i t' r Hi Hr. apply Hsub in Hi as [Hi Hne].
    assert (r ≠ rid) as Hrr. { intros ->. apply Hne. by apply (H4 tid i t t' rid). }
    destruct (Hoth r Hrr) as [E1 E2]. unfold registered_task. rewrite E1, E2. by apply (H3 i).
  - intros i j ti tj r Hi Hj. apply (H4 i j ti tj r); by apply Hsub.
  - intros i t' Hi. apply Hsub in Hi as [Hi _]. by apply (H5 i).
  - intros i t' Hi. apply Hsub in Hi as [Hi _]. apply (unfinished_same (w_coord w)); [done|by apply (H6 i)].
Qed.

(** ** The parts of a step *)

Lemma abort_starts rid s tid s' :
  abort rid s = (Ok (Starts tid), s') → tid = k_next s ∧ k_next s' = S (k_next s).
Proof.
  unfold abort, mbind, M_bind, get. destruct (k_abort_tasks s !! rid); [done|].
  destruct (info_of s rid) as [info|]; [|done]. destruct (over (i_state info)); [done|].
  cbn. intros [= <- <-]. done.
Qed.

Lemma call_abort_keeps D w rid :
  winv D w → winv D (call_abort rid w).2 ∧
    (∀ tid t, w_tasks w !! tid = Some t → w_tasks (call_abort rid w).2 !! tid = Some t).
Proof.
  intros Hw. pose proof (run_keeps D w (abort rid) (abort_pres resolver D rid) (abort_framed rid) Hw) as H1.
  unfold call_abort, run in *. destruct (abort rid (w_coord w)) as [r s] eqn:E. cbn in H1.
  destruct r as [[| |tid]|]; try done. apply abort_starts in E as [-> En]. simpl.
  assert (w_tasks w !! k_next (w_coord w) = None) as Hnone.
  { destruct (w_tasks w !! k_next (w_coord w)) eqn:Et; [|done].
    assert (k_next (w_coord w) < k_next (w_coord w)) by (apply (wi_fresh _ _ Hw); by eexists). lia. }
  split.
  - apply add_abort; [done| |done]. unfold set_coord. fields. lia.
  - intros tid t Ht. unfold set_task, set_coord. fields. rewrite lookup_insert_ne; [done|]. congruence.
Qed.

Lemma end_stream_keeps D w tid t rid qid outcome :
  winv D w → w_tasks w !! tid = Some t → holder t = Some rid → winv D (end_stream tid rid qid outcome w).
Proof.
  intros Hw Ht Hh. unfold end_stream, run. pose proof (close_stream_pres resolver D rid qid _ (wi_coord _ _ Hw)) as Hs.
  destruct (close_stream rid qid (w_coord w)) as [r s] eqn:E. cbn in Hs |- *.
  apply (leave D w tid t rid); try done; unfold close_stream, modify in E; injection E as _ <-;
    case_bool_decide; fields; try done.
  intros r' Hr. by rewrite !lookup_delete_ne.
Qed.

Lemma stream_finally_keeps D w tid t rid qid outcome :
  winv D w → w_tasks w !! tid = Some t → holder t = Some rid → task_queue t = Some qid →
  winv D (stream_finally tid rid qid outcome w).
Proof.
  intros Hw Ht Hh Hq. unfold stream_finally.
  destruct (bool_decide _ && tracked _ rid); [|by eapply end_stream_keeps].
  destruct (call_abort_keeps D w rid Hw) as [H1 Hkeep]. specialize (Hkeep tid t Ht).
  destruct (call_abort rid w) as [[tid'|] w1]; simpl in *; [|by eapply end_stream_keeps].
  apply (retask D w1 tid t); try done.
  intros r [= <-]. destruct (wi_held _ _ H1 tid t rid Hkeep Hh) as (Hf & Hqq & _).
  split; [done|]. split; [|done]. intros q [= <-]. by apply Hqq.
Qed.

(** ** Admission *)

Lemma admit_state rid dp_rank s r s' :
  admit_request rid dp_rank s = (r, s') →
  (∃ rr, s' = s <| k_rr_cursors := rr |>) ∧ (is_ok r = true → request_id_is_reserved s rid = false).
Proof.
  unfold admit_request, mbind, M_bind, get, lift, guard_raise, raise_if.
  assert (∃ rr, s = s <| k_rr_cursors := rr |>) as Hself by (exists (k_rr_cursors s); by destruct s).
  destruct (k_fatal_error s); [by intros [= <- <-]|].
  unfold lift. destruct (request_id_is_reserved s rid); [by intros [= <- <-]|].
  case_bool_decide; [by intros [= <- <-]|]. destruct dp_rank as [rank|].
  - intros [= <- <-]. done.
  - unfold select_replica, mbind, M_bind, get, modify. intros [= <- <-]. split; [by eexists|done].
Qed.

Lemma submit_request_spec D rid request queue dp_rank s r s' :
  cinv D s →
  (∀ qid, queue = Some qid → k_queues s !! qid = Some [] ∧ ∀ r, k_stream_queues s !! r ≠ Some qid) →
  submit_request resolver rid request queue dp_rank s = (r, s') →
  match r with
  | Raise _ => cinv D s' ∧ same_tables s s'
  | Ok _ => request_id_is_reserved s rid = false ∧ cinv (fresh_stream D rid) s' ∧
      is_Some (k_completion_futures s' !! rid) ∧
      (∀ qid, queue = Some qid → k_stream_queues s' !! rid = Some qid) ∧
      (∀ r, r ≠ rid → k_completion_futures s' !! r = k_completion_futures s !! r ∧
        k_stream_queues s' !! r = k_stream_queues s !! r) ∧
      k_terminal_stages s' = k_terminal_stages s ∧ k_next s ≤ k_next s'
  end.
Proof.
  intros Hi Hq. unfold submit_request. unfold mbind at 1, M_bind at 1.
  pose proof (admit_pres resolver D rid dp_rank s Hi) as Ha.
  destruct (admit_request rid dp_rank s) as [ra s1] eqn:Ea. simpl in Ha.
  destruct (admit_state _ _ _ _ _ Ea) as [[rr ->] Hres].
  destruct ra as [i|e]; [|intros [= <- <-]; split; [done|by constructor]]. specialize (Hres eq_refl).
  set (s1 := s <| k_rr_cursors := rr |>) in *. unfold mbind at 1, M_bind at 1, get.
  unfold mbind at 1, M_bind at 1, lift. destruct (entry_replicas s1 !! i) as [replica|];
    [|intros [= <- <-]; split; [done|by constructor]].
  unfold mbind at 1, M_bind at 1, on_replica, modify. set (s2 := s1 <| k_stages := _ |>).
  assert (cinv D s2) as H2 by by apply (core_same resolver D s1).
  unfold mbind at 1, M_bind at 1.
  pose proof (resolve_terminal_state resolver request s2) as Hrs.
  pose proof (resolve_terminal_static resolver request s2) as Hrt.
  destruct (resolve_terminal_stages resolver request s2) as [rt s3]. simpl in Hrs, Hrt. subst s3.
  destruct rt as [terminal|e]; [|intros [= <- <-]; split; [done|by constructor]].
  destruct (track_request_inv resolver D rid queue terminal replica s2 H2) as (s4 & E4 & H4 & Ecf & Esq & Et & En & _).
  - exact Hres.
  - intros Hst. by apply Hrt.
  - exact Hq.
  - unfold mbind, M_bind. rewrite E4. intros [= <- <-]. split; [done|]. split; [done|].
    rewrite Ecf, Esq, Et, En. split; [rewrite lookup_insert_eq; by eexists|]. split; [|split].
    + intros qid ->. by rewrite lookup_insert_eq.
    + intros r Hr. rewrite lookup_insert_ne by done. split; [done|].
      destruct queue; [by rewrite lookup_insert_ne|done].
    + split; [done|]. unfold s2, s1. fields. lia.
Qed.

(** A new caller. *)
Lemma start_submit_keeps D w tid rid request queue dp_rank :
  winv D w → w_tasks w !! tid = None → tid < k_next (w_coord w) →
  (∀ qid, queue = Some qid → k_queues (w_coord w) !! qid = Some [] ∧
    ∀ r, k_stream_queues (w_coord w) !! r ≠ Some qid) →
  ∃ D', winv D' (start_submit resolver rid request queue dp_rank tid w).
Proof.
  intros Hw Hnew Hlt Hq. unfold start_submit, run.
  destruct (submit_request resolver rid request queue dp_rank (w_coord w)) as [r s] eqn:E.
  apply (submit_request_spec D) in E; [|apply Hw|done].
  destruct r as [endpoint|e].
  2:{ destruct E as [Hs Hsame]. exists D. apply drop_task. by apply set_coord_keeps. }
  destruct E as (Hres & Hs & Hcf & Hsq & Hoth & Ht & Hn). exists (fresh_stream D rid).
  pose proof Hw as [H1 H2 H3 H4 H5 H6 H7].
  assert (∀ i t r, w_tasks w !! i = Some t → holder t = Some r → r ≠ rid) as Hnone.
  { intros i t r Hi Hr ->. destruct (H3 i t rid Hi Hr) as [Hf _].
    unfold request_id_is_reserved in Hres. rewrite (bool_decide_true _ Hf), orb_true_r in Hres. done. }
  constructor; unfold set_task, set_coord; fields; try done.
  - intros i. rewrite lookup_insert. case_decide; [subst; lia|]. intros Hi%H2. lia.
  - intros i t r. rewrite lookup_insert. case_decide.
    + intros [= <-] [= <-]. by split.
    + intros Hi Hr. destruct (Hoth r) as [E1 E2]; [by apply (Hnone i t)|].
      unfold registered_task. rewrite E1, E2. by apply (H3 i).
  - intros i j ti tj r. rewrite !lookup_insert. repeat case_decide; subst; try done.
    + intros [= <-] Hj [= <-] Hr. by destruct (Hnone j tj rid Hj Hr).
    + intros Hi [= <-] Hr [= <-]. by destruct (Hnone i ti rid Hi Hr).
    + apply H4.
  - intros i t. rewrite lookup_insert. case_decide.
    + intros [= <-]. destruct queue; simpl; [|done]. unfold fresh_stream. by rewrite decide_True.
    + intros Hi. specialize (H5 i t Hi). unfold delivered, fresh_stream in *.
      destruct t as [r ? ? [|]| |r ? ? ? ?| |]; try done; rewrite decide_False; try done;
        by apply (Hnone i _ r Hi).
  - intros i t. rewrite lookup_insert. case_decide; [by intros [= <-]|].
    intros Hi. apply (unfinished_same (w_coord w)); [done|by apply (H6 i)].
Qed.

Lemma new_task_keeps D w :
  winv D w → ∃ w1, run new_id w = (Ok (k_next (w_coord w)), w1) ∧ winv D w1 ∧
    w_tasks w1 !! k_next (w_coord w) = None ∧ k_next (w_coord w) < k_next (w_coord w1).
Proof.
  intros Hw. eexists. split; [reflexivity|]. split; [|split].
  - apply set_coord_keeps; [done| |constructor; fields; [done..|lia]]. apply next_pres; [lia|apply Hw].
  - unfold set_coord. fields. destruct (w_tasks w !! k_next (w_coord w)) eqn:E; [|done].
    assert (k_next (w_coord w) < k_next (w_coord w)) by (apply (wi_fresh _ _ Hw); by eexists). lia.
  - unfold set_coord. fields. lia.
Qed.

(** ** Sending *)

Lemma sent_keeps D w tid rid endpoint request queue :
  winv D w → w_tasks w !! tid = Some (TSending rid endpoint request queue) →
  winv D (sent tid rid endpoint request queue w).
Proof.
  intros Hw Ht. unfold sent.
  pose proof (run_keeps D w (submit_sent endpoint rid request) (submit_sent_pres resolver D _ _ _)
    (submit_sent_framed _ _ _) Hw) as H1.
  assert (w_tasks (run (submit_sent endpoint rid request) w).2 !! tid = Some (TSending rid endpoint request queue))
    as Ht1 by (unfold run; by destruct (submit_sent _ _ _ _)).
  set (w1 := (run (submit_sent endpoint rid request) w).2) in *. clearbody w1.
  destruct (wi_held _ _ H1 tid _ rid Ht1 eq_refl) as ([fid Hf] & Hq & _). simpl in Hq.
  destruct queue as [qid|].
  - apply (retask D w1 tid (TSending rid endpoint request (Some qid))); try done.
    + intros r [= <-]. split; [by eexists|]. split; [|done]. intros q [= <-]. by apply Hq.
    + exact (wi_delivered _ _ H1 tid _ Ht1).
    + intros Hst. split; [|by left]. apply (expected_static resolver D); [apply H1|done].
  - assert (run (completion_future rid) w1 = (Ok fid, w1)) as ->.
    { unfold run, completion_future, mbind, M_bind, get, lift. rewrite Hf. by destruct w1. }
    apply (retask D w1 tid (TSending rid endpoint request None)); try done.
    intros r [= <-]. split; [by eexists|]. split; [done|]. by intros f [= <-].
Qed.

Lemma send_failed_keeps D w tid rid endpoint request queue e :
  winv D w → w_tasks w !! tid = Some (TSending rid endpoint request queue) →
  winv D (send_failed tid rid queue e w).
Proof.
  intros Hw Ht. unfold send_failed.
  pose proof (run_keeps D w (submit_failed rid e) (submit_failed_pres resolver D _ _)
    (submit_failed_framed _ _) Hw) as H1.
  assert (w_tasks (run (submit_failed rid e) w).2 = w_tasks w) as Ht1
    by (unfold run; by destruct (submit_failed _ _ _)).
  destruct (run (submit_failed rid e) w) as [r w1]. simpl in *. rewrite <- Ht1 in Ht.
  destruct queue as [qid|]; [by eapply stream_finally_keeps|]. by apply drop_task.
Qed.

(** ** Streaming *)

(** The consumer takes a message: what it was delivered grows with it. *)
Lemma take_message D s rid qid msg rest d' :
  cinv D s → k_stream_queues s !! rid = Some qid → k_queues s !! qid = Some (msg :: rest) →
  (static resolver → D rid ∪ succeeded (msg :: rest) ⊆ d' ∪ succeeded rest ∧
    (tracked s rid = false → reports_failure (msg :: rest) → conclusive (k_terminal_stages s) d' rest)) →
  cinv (fun r => if decide (r = rid) then d' else D r) (s <| k_queues := <[qid := rest]> (k_queues s) |>).
Proof.
  intros Hi Hq Hl Hd. destruct Hi as [H1 H2 H3 H4 H5 H6 H7 H8 H9 H10 H11 H12 H13].
  constructor; try done; fields.
  - intros r q Hr. rewrite lookup_insert. case_decide; [by eexists|by apply (H5 r)].
  - intros q. rewrite lookup_insert. case_decide; [|apply H10]. subst q. intros _. apply H10. by eexists.
  - intros Hst r q qs Hr. destruct (Hd Hst) as [Hsub Hfail]. destruct (decide (r = rid)) as [->|Hne].
    + replace q with qid by congruence. rewrite lookup_insert_eq. intros [= <-].
      destruct (H13 Hst rid qid _ Hq Hl) as [Hp Hc]. split.
      * intros p Hpp. specialize (Hp p Hpp). set_solver.
      * intros Hu. destruct (Hc Hu) as [Hc'|[Hc1 Hc2]]; [by apply Hfail|]. right. set_solver.
    + rewrite lookup_insert_ne; [by apply (H13 Hst)|]. intros <-. apply Hne. by apply (H6 rid r qid).
Qed.

Lemma cinv_ext D D' s : (∀ r, D r = D' r) → cinv D s → cinv D' s.
Proof.
  intros HD [H1 H2 H3 H4 H5 H6 H7 H8 H9 H10 H11 H12 H13]. constructor; try done.
  intros Hst r q qs. rewrite <- HD. by apply H13.
Qed.

(** The consumer of a stream goes on, with [d'] delivered. *)
Lemma redeliver D w tid t0 t rid s d' :
  let D' := fun r => if decide (r = rid) then d' else D r in
  winv D w → w_tasks w !! tid = Some t0 → holder t0 = Some rid → holder t = Some rid →
  registered_task (w_coord w) t rid → delivered D' t → unfinished (w_coord w) t →
  cinv D' s → same_tables (w_coord w) s → winv D' (set_task tid t (set_coord s w)).
Proof.
  intros D' [H1 H2 H3 H4 H5 H6 H7] Ht0 Hh0 Hh Hreg Hd Hu Hs Hsame. pose proof Hsame as [_ _ Et En].
  constructor; unfold set_task, set_coord; fields; try done.
  - intros i. rewrite lookup_insert. intros Hi. apply (Nat.lt_le_trans _ (k_next (w_coord w))); [|done].
    case_decide; [subst; apply H2; by eexists|by apply H2].
  - intros i t' r. rewrite lookup_insert. case_decide.
    + intros [= <-] Hr. replace r with rid by congruence. by eapply registered_same.
    + intros Hi Hr. eapply registered_same; [done|]. by apply (H3 i).
  - intros i j ti tj r. rewrite !lookup_insert. repeat case_decide; subst; try done.
    + intros [= <-] Hj Hr Hr'. apply (H4 i j t0 tj r); congruence.
    + intros Hi [= <-] Hr Hr'. apply (H4 i j ti t0 r); congruence.
    + apply H4.
  - intros i t'. rewrite lookup_insert. case_decide as Hi; [by intros [= <-]|]. intros Ht'.
    specialize (H5 i t' Ht'). destruct (holder t') as [r|] eqn:Hr; [|by destruct t'].
    assert (r ≠ rid) as Hne. { intros ->. apply Hi. by apply (H4 i tid t' t0 rid). }
    destruct t' as [r' ? ? [|]| |r' ? ? ? ?| |]; try done; simpl in Hr; injection Hr as ->; simpl in *;
      unfold D'; by rewrite decide_False.
  - intros i t'. rewrite lookup_insert. case_decide; [intros [= <-]|intros Hi; specialize (H6 i t' Hi)];
      by eapply unfinished_same.
Qed.

(** A queue no stream has. *)
Lemma unregistered_queue D s qid rest :
  cinv D s → (∀ r, k_stream_queues s !! r ≠ Some qid) → qid < k_next s →
  cinv D (s <| k_queues := <[qid := rest]> (k_queues s) |>).
Proof.
  intros [H1 H2 H3 H4 H5 H6 H7 H8 H9 H10 H11 H12 H13] Hno Hlt. constructor; try done; fields.
  - intros r q Hr. rewrite lookup_insert. case_decide; [by eexists|by apply (H5 r)].
  - intros q. rewrite lookup_insert. case_decide; [by subst|apply H10].
  - intros Hst r q qs Hr. rewrite lookup_insert_ne; [by apply (H13 Hst)|]. intros <-. by apply (Hno r).
Qed.

Definition popped w qid rest : W :=
  w <| w_coord := w_coord w <| k_queues := <[qid := rest]> (k_queues (w_coord w)) |> |>.

(** The consumer takes a failure and leaves. *)
Lemma take_failure D w tid rid qid expected completed yielded c rest outcome :
  winv D w → w_tasks w !! tid = Some (TStream rid qid expected completed yielded) →
  k_queues (w_coord w) !! qid = Some (QComplete c :: rest) → cm_success c = false →
  winv D (stream_finally tid rid qid outcome (popped w qid rest)).
Proof.
  intros Hw Ht Hl Hc. destruct (wi_held _ _ Hw tid _ rid Ht eq_refl) as (_ & Hq & _).
  specialize (Hq qid eq_refl). pose proof (wi_coord _ _ Hw) as Hi.
  destruct (tracked (w_coord w) rid) eqn:Htr.
  - apply (stream_finally_keeps D _ tid (TStream rid qid expected completed yielded)); try done.
    apply (set_coord_keeps D w); [done| |by constructor].
    apply (cinv_ext (fun r => if decide (r = rid) then D rid else D r)).
    { intros r. by case_decide; subst. }
    apply (take_message D _ rid qid (QComplete c)); [done..|]. intros _.
    change (QComplete c :: rest) with ([QComplete c] ++ rest). rewrite succeeded_app, succeeded_one, Hc.
    split; [set_solver|congruence].
  - unfold stream_finally. assert (tracked (w_coord (popped w qid rest)) rid = false) as -> by done.
    rewrite andb_false_r. pose proof (close_stream_pres resolver D rid qid _ Hi) as Hs.
    unfold end_stream, run, close_stream, modify in *. simpl in Hs |- *. rewrite bool_decide_true in * by done.
    simpl. match goal with |- winv D (finish _ _ (set_coord ?s _)) =>
      change (winv D (finish tid outcome (set_coord s w))) end.
    apply (leave D w tid (TStream rid qid expected completed yielded) rid); try done.
    + apply (unregistered_queue D _ qid rest Hs).
      * intros r'. fields. rewrite lookup_delete. case_decide; [done|].
        intros Hr'. by destruct (ci_qinj _ _ _ Hi rid r' qid).
      * fields. apply (ci_fresh_queues _ _ _ Hi). by eexists.
    + intros r' Hne. fields. by rewrite !lookup_delete_ne.
Qed.

Lemma stream_next_keeps D w tid rid qid expected completed yielded :
  winv D w → w_tasks w !! tid = Some (TStream rid qid expected completed yielded) →
  ∃ D', winv D' (stream_next tid rid qid expected completed yielded w).
Proof.
  intros Hw Ht. unfold stream_next. cbv zeta.
  destruct (wi_held _ _ Hw tid _ rid Ht eq_refl) as (Hf & Hq & _). pose proof (Hq qid eq_refl) as Hqid.
  pose proof (wi_delivered _ _ Hw tid _ Ht) as Hd. simpl in Hd.
  pose proof (wi_unfinished _ _ Hw tid _ Ht) as Hu. simpl in Hu.
  destruct (bool_decide (is_Some yielded) && _) eqn:Eend.
  { exists D. by eapply stream_finally_keeps. }
  assert (∀ y, unfinished (w_coord w) (TStream rid qid expected (counted completed yielded) y)) as Hu'.
  { intros y Hst. destruct (Hu Hst) as [HT Hc]. split; [done|]. destruct yielded as [stage|]; [|done].
    right. intros Hsub. rewrite bool_decide_true in Eend by by eexists. simpl in Eend.
    apply orb_false_iff in Eend as [_ E]. by apply bool_decide_eq_false in E. }
  assert (∀ y, registered_task (w_coord w) (TStream rid qid expected (counted completed yielded) y) rid) as Hreg.
  { intros y. split; [done|]. by split; [intros q [= <-]|]. }
  destruct (k_queues (w_coord w) !! qid) as [[|msg rest]|] eqn:Hl.
  - exists D. apply (retask D w tid _ _ Hw Ht); try done. intros r [= <-]. apply Hreg.
  - fold (popped w qid rest).
    assert (∀ t d', holder t = Some rid → registered_task (w_coord w) t rid →
      delivered (fun r => if decide (r = rid) then d' else D r) t → unfinished (w_coord w) t →
      (D rid ∪ succeeded (msg :: rest) ⊆ d' ∪ succeeded rest) → (¬ reports_failure [msg]) →
      ∃ D', winv D' (set_task tid t (popped w qid rest))) as Htake.
    { intros t d' Hh Hr Hdd Huu Hsub Hfail. exists (fun r => if decide (r = rid) then d' else D r).
      change (popped w qid rest) with (set_coord (w_coord (popped w qid rest)) w).
      eapply (redeliver D w tid _ t rid _ d' Hw Ht); try done.
      apply (take_message D _ rid qid msg); [apply Hw|done..|]. intros Hst. split; [done|].
      intros Htr Hrep. change (msg :: rest) with ([msg] ++ rest) in Hrep.
      apply reports_app in Hrep as [?|Hrep]; [done|by left]. }
    destruct msg as [c|from_stage chunk].
    + destruct (cm_success c) eqn:Ec.
      * apply (Htake _ (counted (counted completed yielded) (Some (cm_from_stage c)))); try done.
        -- simpl. by rewrite decide_True.
        -- change (QComplete c :: rest) with ([QComplete c] ++ rest).
           rewrite succeeded_app, succeeded_one, Ec, Hd. simpl. set_solver.
        -- intros (c' & ->%list_elem_of_singleton & Hc'). congruence.
      * exists D. by eapply take_failure.
    + apply (Htake _ (counted completed yielded)); try done.
      * simpl. by rewrite decide_True.
      * by rewrite Hd.
      * by intros (c' & ?%not_elem_of_nil & _).
  - exists D. apply (retask D w tid _ _ Hw Ht); try done. intros r [= <-]. apply Hreg.
Qed.
End World.
