(* ===== verification/CoordSafe.v ===== *)
(** * The pipeline coordinator: every event keeps the invariant

    [step_keeps] collects the pieces of [CoordWorld]; [reachable_inv] is the invariant of the
    coordinator at work.  From it: a caller of [submit] whose future is not done, or a consumer
    with nothing to take, waits for a request the coordinator tracks, and a stream whose request
    is gone comes to its end. *)
From S2P Require Import Prelude Odict Coord CoordOps CoordSteps CoordInv CoordKeep CoordWorld.

Section Safe.
Context {V Chunk Request : Type}.
Context (resolver : option (Request → result (option (list string)))).
Abbreviation C := (Coord V Chunk Request).
Abbreviation W := (World V Chunk Request).
Abbreviation cinv := (CoordInv.cinv (V := V) (Chunk := Chunk) resolver).
Abbreviation winv := (CoordWorld.winv (V := V) (Chunk := Chunk) resolver).
Abbreviation step := (CoordSteps.step (V := V) (Chunk := Chunk) resolver).
Implicit Types (s : C) (w : W) (D : string → gset string).

(** ** The remaining events *)

Lemma cancel_future_inv D s fid :
  cinv D s →
  cinv D (s <| k_futures := alter (fun f => if done f then f else FCancelled) fid (k_futures s) |>).
Proof.
  intros [H1 H2 H3 H4 H5 H6 H7 H8 H9 H10 H11 H12 H13]. constructor; try done; fields.
  - intros rid f Hf. destruct (H3 rid f Hf) as (v & Hv & Hd). rewrite lookup_alter.
    case_decide; [subst f|by exists v]. rewrite Hv. eexists. split; [done|].
    by destruct (done v) eqn:E; [rewrite E|].
  - intros f. rewrite lookup_alter. case_decide; [|apply H9]. rewrite fmap_is_Some. subst. apply H9.
Qed.

(** [submit] returns or raises what the future holds, and frees the identifier. *)
Lemma result_keeps D w tid rid fid outcome :
  winv D w → w_tasks w !! tid = Some (TAwait rid fid) →
  winv D (finish tid outcome (run (drop_future rid) w).2).
Proof.
  intros Hw Ht. pose proof (drop_future_pres resolver D rid _ (wi_coord _ _ _ Hw)) as Hs.
  unfold run, drop_future, modify in *. simpl in *.
  apply (leave resolver D w tid (TAwait rid fid) rid); try done.
  intros r Hr. fields. by rewrite lookup_delete_ne.
Qed.

Lemma cancel_keeps D w tid t w' :
  winv D w → w_tasks w !! tid = Some t → cancel tid t w = Some w' → winv D w'.
Proof.
  intros Hw Ht. unfold cancel.
  destruct t as [rid ep r [qid|]|rid fid|rid qid e c y|rid qid k o|rid]; try done;
    [| |destruct (match k_futures (w_coord w) !! fid with Some f => done f | None => false end)|..];
    intros [= <-].
  - by eapply stream_finally_keeps.
  - by apply drop_task.
  - by eapply result_keeps.
  - apply set_coord_keeps; [done|apply cancel_future_inv, Hw|by constructor].
  - by eapply stream_finally_keeps.
  - by eapply end_stream_keeps.
Qed.

Lemma start_stream_keeps D w tid rid request dp_rank :
  winv D w → w_tasks w !! tid = None → tid < k_next (w_coord w) →
  ∃ D', winv D' (start_stream resolver rid request dp_rank tid w).
Proof.
  intros Hw Hnew Hlt. unfold start_stream, run.
  destruct (new_queue_inv resolver D (w_coord w) (wi_coord _ _ _ Hw)) as (s' & -> & Hs & Hsame & Hq & Hn & Hno).
  apply (start_submit_keeps resolver D); try done.
  - by apply set_coord_keeps.
  - unfold set_coord. fields. rewrite Hn. lia.
  - by intros qid [= <-].
Qed.

Lemma set_loop_keeps D w l :
  winv D w → (∀ oid msg, l = Failing oid msg → cm_success msg = false) → winv D (w <| w_loop := l |>).
Proof. intros [H1 H2 H3 H4 H5 H6 H7] Hl. by constructor. Qed.

Lemma handle_pres D msg : stable (cinv D) (handle_completion msg : M C _).
Proof. eapply pres_triple; [apply handle_completion_keeps|]. by intros a s [? _]. Qed.

Lemma recv_keeps D w msg r w1 :
  winv D w → run (handle_completion msg) w = (r, w1) →
  winv D w1 ∧ (∀ oid, r = Ok (Some oid) → cm_success msg = false).
Proof.
  intros Hw E. pose proof (run_keeps resolver D w _ (handle_pres D msg) (handle_completion_framed msg) Hw) as H1.
  rewrite E in H1. split; [done|]. intros oid ->.
  destruct (handle_completion_keeps resolver D msg (w_coord w) (wi_coord _ _ _ Hw)) as (a & s' & E' & _ & Ha).
  unfold run in E. rewrite E' in E. by injection E as -> _.
Qed.

Lemma put_stream_pres D rid from_stage chunk : stable (cinv D) (handle_stream rid from_stage chunk : M C _).
Proof.
  intros s Hs. destruct (put_other resolver D rid rid false false false (QStream from_stage chunk) s)
    as (u & s' & E & H'); [by apply cinv_ending|].
  unfold handle_stream. rewrite E. by eapply ending_inv.
Qed.

(** Every event keeps the invariant. *)
Lemma step_keeps D ev w w' : winv D w → step ev w = Some w' → ∃ D', winv D' w'.
Proof.
  intros Hw. destruct ev as [rid request rank|rid request rank|tid|tid e|tid|tid|tid|tid|rid|tid failure
    |rid tid|msg|rid from chunk|failure|rid stage|message]; cbn [step].
  - destruct (new_task_keeps resolver D w Hw) as (w1 & -> & H1 & Hn & Hlt). intros <-%(inj Some).
    by apply (start_submit_keeps resolver D).
  - destruct (new_task_keeps resolver D w Hw) as (w1 & -> & H1 & Hn & Hlt). intros <-%(inj Some).
    by apply (start_stream_keeps D).
  - destruct (w_tasks w !! tid) as [[rid ep r q| | | |]|] eqn:Ht; try done. intros <-%(inj Some).
    exists D. by apply sent_keeps.
  - destruct (w_tasks w !! tid) as [[rid ep r q| | | |]|] eqn:Ht; try done. intros <-%(inj Some).
    exists D. by eapply send_failed_keeps.
  - destruct (w_tasks w !! tid) as [[|rid fid| | |]|] eqn:Ht; try done.
    destruct (k_futures (w_coord w) !! fid) as [f|]; [|done]. destruct (done f); [|done]. intros <-%(inj Some).
    exists D. by eapply result_keeps.
  - destruct (w_tasks w !! tid) as [[| |rid qid e c y| |]|] eqn:Ht; try done. intros <-%(inj Some).
    by apply (stream_next_keeps resolver D).
  - destruct (w_tasks w !! tid) as [t|] eqn:Ht; [|done]. intros E. exists D. by eapply cancel_keeps.
  - destruct (w_tasks w !! tid) as [[| | |rid qid k o|]|] eqn:Ht; try done.
    destruct (w_tasks w !! k); [done|]. intros <-%(inj Some). exists D. by eapply end_stream_keeps.
  - intros <-%(inj Some). exists D. by apply call_abort_keeps.
  - destruct (w_tasks w !! tid) as [[| | | |rid]|] eqn:Ht; try done. intros <-%(inj Some). exists D.
    set (w1 := match failure with Some _ => w | None => _ end).
    apply (drop_task resolver D w1 tid (w_outcomes w1)). unfold w1. destruct failure; [done|].
    eapply run_triple; [apply run_abort_keeps|done|apply run_abort_framed|done].
  - destruct (w_tasks w !! tid); [done|]. intros <-%(inj Some). exists D.
    apply run_keeps; [apply abort_task_done_pres|apply on_abort_task_done_framed|done].
  - destruct (w_loop w); try done. destruct (run (handle_completion msg) w) as [r w1] eqn:E.
    destruct (recv_keeps D w msg r w1 Hw E) as [H1 Hm].
    destruct r as [[oid|]|]; intros <-%(inj Some); exists D; [|done..].
    apply set_loop_keeps; [done|]. intros ? ? [= <- <-]. by apply (Hm oid).
  - destruct (w_loop w); try done. intros <-%(inj Some). exists D.
    apply run_keeps; [apply put_stream_pres|apply put_queue_framed|done].
  - destruct (w_loop w) as [|oid msg|] eqn:El; try done. pose proof (wi_loop _ _ _ Hw oid msg El) as Hm.
    destruct failure; intros <-%(inj Some); exists D; apply set_loop_keeps; try done.
    eapply run_triple; [by apply completion_failed_keeps|done|apply completion_failed_framed|done].
  - destruct (run (update_request rid stage) w) as [r w1] eqn:E.
    assert (winv D w1) as H1.
    { pose proof (run_keeps resolver D w _ (update_pres resolver D rid stage) (update_request_framed rid stage) Hw) as H1.
      by rewrite E in H1. }
    destruct r; intros <-%(inj Some); exists D; [|done]. apply run_keeps; [apply update_sent_pres|by constructor|done].
  - intros <-%(inj Some). exists D.
    eapply run_triple; [apply fail_pending_keeps|done|apply fail_pending_framed|done].
Qed.

(** ** The start *)

Lemma registered_inv entry terminal regs :
  cinv (fun _ => ∅) (registered entry terminal regs).
Proof.
  unfold registered. assert (cinv (fun _ => ∅) (new_coordinator entry terminal)) as H0.
  { constructor; try done; unfold new_coordinator, request_of, info_of; fields; try done.
    1: apply NoDup_nil_2. all: by intros ? []. }
  revert H0. generalize (new_coordinator entry terminal : C). induction regs as [|r regs IH]; intros s Hs; [done|].
  apply IH. by apply (core_same resolver (fun _ => ∅) s).
Qed.

Lemma reachable_inv entry terminal regs w :
  reachable resolver entry terminal regs w → ∃ D, winv D w.
Proof.
  revert w. apply reachable_ind; [|intros ev w w' _ [D IH] Hstep].
  - exists (fun _ => ∅). constructor; unfold started; fields; try done.
    + apply registered_inv.
    + by intros tid [? ?].
  - by apply (step_keeps D ev w).
Qed.

(** ** Waiting *)

(** A caller of [submit] awaits a future that is not done. *)
Definition awaiting w tid rid fid : Prop :=
  w_tasks w !! tid = Some (TAwait rid fid) ∧ k_futures (w_coord w) !! fid = Some FPending.

(** A consumer of a stream waits on an empty queue. *)
Definition starving w tid rid qid : Prop :=
  ∃ expected completed, w_tasks w !! tid = Some (TStream rid qid expected completed None) ∧
    k_queues (w_coord w) !! qid = Some [].

Lemma waiting_await D w tid rid fid :
  winv D w → w_tasks w !! tid = Some (TAwait rid fid) →
  k_completion_futures (w_coord w) !! rid = Some fid ∧
  ∃ f, k_futures (w_coord w) !! fid = Some f ∧ (done f = false → tracked (w_coord w) rid = true).
Proof.
  intros Hw Ht. destruct (wi_held _ _ _ Hw tid _ rid Ht eq_refl) as (_ & _ & Hf).
  specialize (Hf fid eq_refl). split; [done|]. by apply (ci_futures _ _ _ (wi_coord _ _ _ Hw) rid).
Qed.

(** What the consumer of an untracked request finds in its queue. *)
Lemma orphan_queue D w tid rid qid expected completed yielded :
  static resolver → winv D w → w_tasks w !! tid = Some (TStream rid qid expected completed yielded) →
  ∃ q, k_queues (w_coord w) !! qid = Some q ∧
    (completed = ∅ ∨ ¬ expected ⊆ completed) ∧
    (tracked (w_coord w) rid = false → conclusive expected (counted completed yielded) q).
Proof.
  intros Hst Hw Ht. destruct (wi_held _ _ _ Hw tid _ rid Ht eq_refl) as (_ & Hq & _).
  specialize (Hq qid eq_refl). pose proof (wi_coord _ _ _ Hw) as Hi.
  destruct (ci_queues _ _ _ Hi rid qid Hq) as [q Hl]. exists q. split; [done|].
  destruct (wi_unfinished _ _ _ Hw tid _ Ht Hst) as [-> Hu]. split; [done|].
  rewrite <- (wi_delivered _ _ _ Hw tid _ Ht). by apply (ci_streams _ _ _ Hi Hst rid qid q Hq Hl).
Qed.

Lemma conclusive_nil (T d : gset string) : conclusive (V := V) (Chunk := Chunk) T d [] → T ⊆ d ∧ d ≠ ∅.
Proof.
  intros [(c & Hc & _)|[Hs Hne]]; [by apply not_elem_of_nil in Hc|].
  assert (d ∪ succeeded (V := V) (Chunk := Chunk) [] = d) as E by (unfold succeeded; simpl; set_solver).
  by rewrite E in *.
Qed.

(** The consumer that takes nothing from an empty queue waits for a tracked request. *)
Lemma empty_queue_tracked D w tid rid qid expected completed yielded :
  static resolver → winv D w → w_tasks w !! tid = Some (TStream rid qid expected completed yielded) →
  k_queues (w_coord w) !! qid = Some [] →
  bool_decide (is_Some yielded) && (bool_decide (expected = ∅) || bool_decide (expected ⊆ counted completed yielded)) = false →
  tracked (w_coord w) rid = true.
Proof.
  intros Hst Hw Ht Hq Hend. destruct (orphan_queue D w tid _ _ _ _ _ Hst Hw Ht) as (q & Hl & Hu & Hc).
  replace q with (@nil (QMsg V Chunk)) in * by congruence.
  destruct (tracked (w_coord w) rid); [done|]. apply conclusive_nil in Hc as [Hs Hne]; [|done].
  destruct yielded as [stage|]; simpl in *; [|by destruct Hu].
  apply orb_false_iff in Hend as [_ E]. by apply bool_decide_eq_false in E.
Qed.

(** ** Streams whose request is gone *)

Lemma stream_finally_orphan w tid rid qid outcome :
  tracked (w_coord w) rid = false →
  w_tasks (stream_finally tid rid qid outcome w) !! tid = None ∧
  w_outcomes (stream_finally tid rid qid outcome w) !! tid = Some outcome.
Proof.
  intros Ht. unfold stream_finally. rewrite Ht, andb_false_r. unfold end_stream, run.
  destruct (close_stream rid qid (w_coord w)) as [r s]. unfold finish, set_coord. fields.
  by rewrite lookup_delete_eq, lookup_insert_eq.
Qed.

(** How a stream with [q] in its queue may end by itself. *)
Definition ends_by (q : list (QMsg V Chunk)) (outcome : result (option (Output (option V)))) : Prop :=
  outcome = Ok None ∨
  ∃ c, QComplete c ∈ q ∧ cm_success c = false ∧ outcome = Raise (RuntimeError (error_or_unknown c)).

Definition ended w tid q : Prop :=
  w_tasks w !! tid = None ∧ ∃ outcome, w_outcomes w !! tid = Some outcome ∧ ends_by q outcome.

Lemma ended_more w tid q msg : ended w tid q → ended w tid (msg :: q).
Proof.
  intros [H (o & Ho & He)]. split; [done|]. exists o. split; [done|].
  destruct He as [?|(c & Hc & ?)]; [by left|]. right. exists c. split; [by right|done].
Qed.

Lemma orphan_drains D w tid rid qid expected completed yielded q :
  static resolver → winv D w → w_tasks w !! tid = Some (TStream rid qid expected completed yielded) →
  tracked (w_coord w) rid = false → k_queues (w_coord w) !! qid = Some q →
  ∃ n w', n ≤ S (length q) ∧ steps resolver (replicate n (ENext tid)) w = Some w' ∧ ended w' tid q.
Proof.
  intros Hst. revert D w completed yielded. induction q as [|msg q IH]; intros D w completed yielded Hw Ht Htr Hq.
  all: destruct (bool_decide (is_Some yielded) && (bool_decide (expected = ∅)
    || bool_decide (expected ⊆ counted completed yielded))) eqn:Eend.
  1,3: exists 1; eexists; split; [lia|]; cbn [replicate steps CoordSteps.step]; rewrite Ht; cbn;
    split; [done|]; unfold stream_next; rewrite Eend;
    destruct (stream_finally_orphan w tid rid qid (Ok None) Htr); split; [done|]; eexists; split; [done|by left].
  - rewrite (empty_queue_tracked D w tid rid qid expected completed yielded) in Htr by done. done.
  - destruct (step_keeps D (ENext tid) w (stream_next tid rid qid expected completed yielded w) Hw) as [D' Hw'].
    { cbn [CoordSteps.step]. by rewrite Ht. }
    assert (∀ c y, stream_next tid rid qid expected completed yielded w =
        set_task tid (TStream rid qid expected c y) (popped w qid q) →
      ∃ n w', n ≤ S (length (msg :: q)) ∧ steps resolver (replicate n (ENext tid)) w = Some w' ∧
        ended w' tid (msg :: q)) as Hnext.
    { intros c y E. rewrite E in Hw'. destruct (IH _ _ c y Hw') as (n & w' & Hn & Hs & He).
      - unfold set_task. fields. by rewrite lookup_insert_eq.
      - exact Htr.
      - unfold set_task, popped. fields. by rewrite lookup_insert_eq.
      - exists (S n), w'. split; [simpl; lia|]. split; [|by apply ended_more].
        cbn [replicate steps CoordSteps.step]. rewrite Ht. simpl. by rewrite E. }
    unfold stream_next in Hnext. rewrite Eend, Hq in Hnext. destruct msg as [c|from chunk].
    2:{ by eapply Hnext. }
    destruct (cm_success c) eqn:Ec; [by eapply Hnext|]. clear Hnext IH.
    exists 1. eexists. split; [lia|]. cbn [replicate steps CoordSteps.step]. rewrite Ht. cbn.
    split; [done|]. unfold stream_next. rewrite Eend, Hq, Ec.
    destruct (stream_finally_orphan (popped w qid q) tid rid qid (Raise (RuntimeError (error_or_unknown c))) Htr).
    split; [done|]. eexists. split; [done|]. right. exists c. by split; [left|].
Qed.

(** ** Theorems *)

(** C6: No caller is left waiting for a request that is gone. In every state the coordinator can
    reach, whatever the order of submissions, completions, aborts, cancellations and failures, a
    caller of [submit] or [submit_to_replica] whose future is not done has that future
    registered under a request that is still tracked; and, when no resolver narrows the terminal
    stages, so has a consumer of [stream] that waits on an empty queue. *)
Theorem no_waiter_stranded entry terminal regs w tid rid :
  reachable resolver entry terminal regs w →
  (∀ fid, awaiting w tid rid fid →
     tracked (w_coord w) rid = true ∧ k_completion_futures (w_coord w) !! rid = Some fid) ∧
  (resolver = None → ∀ qid, starving w tid rid qid →
     tracked (w_coord w) rid = true ∧ k_stream_queues (w_coord w) !! rid = Some qid).
Proof.
  intros [D Hw]%reachable_inv. split.
  - intros fid [Ht Hf]. destruct (waiting_await D w tid rid fid Hw Ht) as (Hr & f & Hf' & Hd).
    split; [|done]. apply Hd. by replace f with (@FPending (option V)) by congruence.
  - intros Hst qid (expected & completed & Ht & Hq). split; [by eapply empty_queue_tracked|].
    by apply (wi_held _ _ _ Hw tid _ rid Ht eq_refl).
Qed.

(** C14: A stream whose request is gone comes to its end: without a resolver, its consumer takes
    at most what its queue holds and one step more, and then returns, or raises the failure the
    queue reports. *)
Theorem orphaned_stream_ends entry terminal regs w tid rid qid expected completed yielded q :
  resolver = None → reachable resolver entry terminal regs w →
  w_tasks w !! tid = Some (TStream rid qid expected completed yielded) →
  tracked (w_coord w) rid = false → k_queues (w_coord w) !! qid = Some q →
  ∃ n w', n ≤ S (length q) ∧ steps resolver (replicate n (ENext tid)) w = Some w' ∧ ended w' tid q.
Proof. intros Hst [D Hw]%reachable_inv. by apply (orphan_drains D). Qed.
End Safe.

(** ** Examples *)

Definition demo_registrations : list Registration :=
  [{| rg_name := "in"; rg_endpoint := "e0"; rg_dp_rank := None; rg_capacity := Some 1 |};
   {| rg_name := "in"; rg_endpoint := "e1"; rg_dp_rank := None; rg_capacity := None |}].

Definition demo_run (evs : list (Event nat nat unit)) : World nat nat unit :=
  default (started "in" ["t"; "u"] demo_registrations)
    (steps None evs (started "in" ["t"; "u"] demo_registrations)).

Definition demo_message (rid stage : string) (v : nat) : CompleteMessage nat :=
  {| cm_request_id := rid; cm_from_stage := stage; cm_success := true; cm_result := Some v; cm_error := None |}.

(** A submission and a stream are under way. *)
Definition demo_waiting : list (Event nat nat unit) :=
  [ESubmit "a" tt None; ESent 0; EStream "b" tt None; ESent 3; ERecvStream "b" "t" 7; ENext 3].

(** The stream's request is over before its consumer looks. *)
Definition demo_orphan : list (Event nat nat unit) :=
  demo_waiting ++ [ERecv (demo_message "b" "t" 1); ERecv (demo_message "b" "u" 2)].

Lemma no_waiter_stranded_witness :
  reachable None "in" ["t"; "u"] demo_registrations (demo_run demo_waiting) ∧
  w_tasks (demo_run demo_waiting) !! 0 = Some (TAwait "a" 2) ∧
  k_futures (w_coord (demo_run demo_waiting)) !! 2 = Some FPending ∧
  tracked (w_coord (demo_run demo_waiting)) "a" = true.
Proof.
  assert (reachable None "in" ["t"; "u"] demo_registrations (demo_run demo_waiting)) as Hr
    by (exists demo_waiting; vm_compute; reflexivity).
  assert (w_tasks (demo_run demo_waiting) !! 0 = Some (TAwait "a" 2)) as Ht by (vm_compute; reflexivity).
  assert (k_futures (w_coord (demo_run demo_waiting)) !! 2 = Some FPending) as Hf by (vm_compute; reflexivity).
  split; [exact Hr|]. split; [exact Ht|]. split; [exact Hf|].
  exact (proj1 (proj1 (no_waiter_stranded None "in" ["t"; "u"] demo_registrations _ 0 "a" Hr) 2 (conj Ht Hf))).
Defined.

Lemma orphaned_stream_ends_witness :
  ∃ n w', n ≤ 3 ∧ steps None (replicate n (ENext 3)) (demo_run demo_orphan) = Some w' ∧
    ended w' 3 [QComplete (demo_message "b" "t" 1); QComplete (demo_message "b" "u" 2)].
Proof.
  apply (orphaned_stream_ends None "in" ["t"; "u"] demo_registrations (demo_run demo_orphan) 3 "b" 4
    {["t"; "u"]} ∅ None [QComplete (demo_message "b" "t" 1); QComplete (demo_message "b" "u" 2)]);
    [|exists demo_orphan|..]; vm_compute; reflexivity.
Defined.
