(* ===== verification/CoordRun.v ===== *)
(** * The pipeline coordinator: what every event keeps

    A property of the coordinator that its few primitive changes keep - a request object's
    state, the release of a replica, a settled future, an admission - is kept by every event
    ([steps_keep]). *)
From S2P Require Import Prelude Odict Coord CoordOps CoordSteps CoordInv.

Section Run.
Context {V Chunk Request : Type}.
Context (resolver : option (Request → result (option (list string)))).
Abbreviation C := (Coord V Chunk Request).
Abbreviation W := (World V Chunk Request).
Implicit Types (s : C) (w : W).

(** A change of a request object that leaves its place alone. *)
Definition keeps_owner (f : RequestInfo V → RequestInfo V) : Prop :=
  ∀ info, i_owner_dp_rank (f info) = i_owner_dp_rank info ∧
    i_owner_endpoint (f info) = i_owner_endpoint info ∧ i_current_stage (f info) = i_current_stage info.

Definition cancel_future fid s : C :=
  s <| k_futures := alter (fun f => if done f then f else FCancelled) fid (k_futures s) |>.

(** The fields such a property may speak of. *)
Record same_places s s' : Prop := {
  sp_infos : k_infos s' = k_infos s;
  sp_stages : k_stages s' = k_stages s;
  sp_futures : k_futures s' = k_futures s;
  sp_entry : k_entry_stage s' = k_entry_stage s;
  sp_terminal : k_terminal_stages s' = k_terminal_stages s;
  sp_next : k_next s ≤ k_next s'
}.

Class Kept (P : C → Prop) : Prop := {
  kept_same : ∀ s s', same_places s s' → P s → P s';
  kept_info : ∀ oid f, keeps_owner f → stable P (on_info oid f);
  kept_release : ∀ oid, stable P (release_replica oid);
  kept_settle : ∀ rid v, (∀ s, done (v s) = true) → stable P (settle rid v);
  kept_cancel : ∀ fid s, P s → P (cancel_future fid s);
  kept_submit : ∀ rid request queue dp_rank, stable P (submit_request resolver rid request queue dp_rank)
}.

Context (P : C → Prop) `{!Kept P}.

Lemma kept_modify (g : C → C) : (∀ s, same_places s (g s)) → stable P (modify g).
Proof. intros Hg s. by apply kept_same. Qed.

Local Ltac same := apply kept_modify; intros ?; repeat case_match; constructor; fields; (done || lia).

Lemma put_queue_kept rid msg : stable P (put_queue rid msg).
Proof. unfold put_queue. same. Qed.

Lemma forget_request_kept rid : stable P (forget_request rid).
Proof. unfold forget_request. same. Qed.

Lemma forget_partials_kept rid : stable P (forget_partials rid).
Proof. unfold forget_partials. same. Qed.

Lemma reject_kept rid exc : stable P (reject_completion_future rid exc).
Proof. apply kept_settle. intros s. by destruct (k_stream_queues s !! rid). Qed.

Lemma log_kept l : stable P (modify (fun s : C => s <| k_sent := k_sent s ++ l |>)).
Proof. same. Qed.

Lemma new_id_kept : stable P new_id.
Proof. intros s. apply kept_same. constructor; unfold new_id; simpl; fields; (done || lia). Qed.

Local Ltac pieces :=
  repeat match goal with
  | |- stable _ (get ≫= _) => apply stable_get; intros ?
  | |- stable _ (_ ≫= _) => apply stable_bind; [|intros ?]
  | |- stable _ (mret _) => apply stable_ret
  | |- stable _ (lift _) => apply stable_lift
  | |- stable _ (guard_raise _ _) => apply stable_lift
  | |- stable _ (throw _) => by intros ?
  | |- stable _ new_id => apply new_id_kept
  | |- stable _ (put_queue _ _) => apply put_queue_kept
  | |- stable _ (forget_request _) => apply forget_request_kept
  | |- stable _ (forget_partials _) => apply forget_partials_kept
  | |- stable _ (reject_completion_future _ _) => apply reject_kept
  | |- stable _ (release_replica _) => apply kept_release
  | |- stable _ (on_info _ _) => apply kept_info; by intros ?
  | |- stable _ (settle _ _) => apply kept_settle; by intros ?
  | |- stable _ (modify (fun s => s <| k_sent := _ |>)) => apply log_kept
  | |- stable _ (modify _) => same
  | |- stable _ (match _ with _ => _ end) => case_match
  end.

Lemma run_abort_kept rid : stable P (run_abort rid).
Proof. unfold run_abort. pieces. Qed.

Lemma completion_failed_kept oid msg : stable P (completion_failed oid msg).
Proof. unfold completion_failed. pieces. Qed.

Lemma handle_completion_kept msg : stable P (handle_completion msg).
Proof.
  unfold handle_completion. pieces.
  - unfold complete_one, complete_request. pieces.
  - unfold complete_part, complete_request. pieces.
Qed.

Lemma fail_pending_kept message : stable P (fail_pending_requests message).
Proof.
  unfold fail_pending_requests. pieces. apply stable_foreach. intros p. unfold fail_one. pieces.
Qed.

Lemma abort_kept rid : stable P (abort rid).
Proof. unfold abort. pieces. Qed.

Lemma submit_sent_kept endpoint rid request : stable P (submit_sent endpoint rid request).
Proof. unfold submit_sent. pieces. Qed.

Lemma submit_failed_kept rid e : stable P (submit_failed rid e).
Proof. unfold submit_failed. pieces. Qed.

Lemma update_request_kept rid stage_name : stable P (update_request rid stage_name).
Proof. unfold update_request. pieces. Qed.

(** ** Events *)

Lemma run_kept {A} (f : M C A) w : stable P f → P (w_coord w) → P (w_coord (run f w).2).
Proof. intros Hf Hw. unfold run. specialize (Hf _ Hw). by destruct (f (w_coord w)). Qed.

Lemma run_coord {A} (f : M C A) w : w_coord (run f w).2 = (f (w_coord w)).2.
Proof. unfold run. by destruct (f (w_coord w)). Qed.

Lemma call_abort_kept rid w : P (w_coord w) → P (w_coord (call_abort rid w).2).
Proof.
  intros Hw. pose proof (run_kept (abort rid) w (abort_kept rid) Hw) as H.
  unfold call_abort. by destruct (run (abort rid) w) as [[[]|] w1].
Qed.

Lemma end_stream_kept tid rid qid outcome w : P (w_coord w) → P (w_coord (end_stream tid rid qid outcome w)).
Proof. intros Hw. change (P (w_coord (run (close_stream rid qid) w).2)). apply run_kept; [|done]. unfold close_stream. same. Qed.

Lemma stream_finally_kept tid rid qid outcome w :
  P (w_coord w) → P (w_coord (stream_finally tid rid qid outcome w)).
Proof.
  intros Hw. unfold stream_finally. case_match; [|by apply end_stream_kept].
  pose proof (call_abort_kept rid w Hw) as H1.
  destruct (call_abort rid w) as [[t|] w1]; [done|by apply end_stream_kept].
Qed.

Lemma start_submit_kept rid request queue dp_rank tid w :
  P (w_coord w) → P (w_coord (start_submit resolver rid request queue dp_rank tid w)).
Proof.
  intros Hw. pose proof (run_kept _ w (kept_submit rid request queue dp_rank) Hw) as H1.
  unfold start_submit. by destruct (run _ w) as [[] w1].
Qed.

Lemma start_stream_kept rid request dp_rank tid w :
  P (w_coord w) → P (w_coord (start_stream resolver rid request dp_rank tid w)).
Proof.
  intros Hw. assert (stable P new_queue) as Hq by (unfold new_queue; pieces).
  pose proof (run_kept _ w Hq Hw) as H1.
  unfold start_stream. destruct (run new_queue w) as [[] w1]; [by apply start_submit_kept|done].
Qed.

Lemma sent_kept tid rid endpoint request queue w :
  P (w_coord w) → P (w_coord (sent tid rid endpoint request queue w)).
Proof.
  intros Hw. unfold sent. pose proof (run_kept _ w (submit_sent_kept endpoint rid request) Hw) as H1.
  destruct queue as [qid|]; [done|]. assert (stable P (completion_future rid)) as Hc by (unfold completion_future; pieces).
  pose proof (run_kept _ _ Hc H1) as H2. by destruct (run (completion_future rid) _) as [[] w2].
Qed.

Lemma send_failed_kept tid rid queue e w :
  P (w_coord w) → P (w_coord (send_failed tid rid queue e w)).
Proof.
  intros Hw. unfold send_failed. pose proof (run_kept _ w (submit_failed_kept rid e) Hw) as H1.
  destruct (run (submit_failed rid e) w) as [r w1].
  destruct queue as [qid|]; [by apply stream_finally_kept|done].
Qed.

Lemma stream_next_kept tid rid qid expected completed yielded w :
  P (w_coord w) → P (w_coord (stream_next tid rid qid expected completed yielded w)).
Proof.
  intros Hw. unfold stream_next. case_match; [by apply stream_finally_kept|].
  destruct (k_queues (w_coord w) !! qid) as [[|msg rest]|]; try done. cbv zeta.
  assert (P (w_coord w <| k_queues := <[qid := rest]> (k_queues (w_coord w)) |>)) as H1
    by (by apply (kept_same (w_coord w))).
  destruct msg as [c|]; [|done]. destruct (cm_success c); [done|by apply stream_finally_kept].
Qed.

Lemma cancel_kept tid t w w' : P (w_coord w) → cancel tid t w = Some w' → P (w_coord w').
Proof.
  intros Hw. unfold cancel. destruct t as [rid ep r [qid|]|rid fid|rid qid e c y|rid qid k o|rid];
    try done; [| |destruct (match k_futures (w_coord w) !! fid with Some f => done f | None => false end)|..];
    intros <-%(inj Some); [by apply stream_finally_kept|done| |by apply (kept_cancel fid)
      |by apply stream_finally_kept|by apply end_stream_kept].
  change (P (w_coord (run (drop_future rid) w).2)). apply run_kept; [|done]. unfold drop_future. same.
Qed.

Lemma step_kept ev w w' : P (w_coord w) → step resolver ev w = Some w' → P (w_coord w').
Proof.
  intros Hw. destruct ev as [rid request rank|rid request rank|tid|tid e|tid|tid|tid|tid|rid|tid failure
    |rid tid|msg|rid from chunk|failure|rid stage|message]; cbn [step].
  - pose proof (run_kept _ w new_id_kept Hw) as H1. destruct (run new_id w) as [[] w1]; [|done].
    intros <-%(inj Some). by apply start_submit_kept.
  - pose proof (run_kept _ w new_id_kept Hw) as H1. destruct (run new_id w) as [[] w1]; [|done].
    intros <-%(inj Some). by apply start_stream_kept.
  - repeat case_match; try done. intros <-%(inj Some). by apply sent_kept.
  - repeat case_match; try done. intros <-%(inj Some). by apply send_failed_kept.
  - repeat case_match; try done. intros <-%(inj Some). match goal with |- context [drop_future ?r] => change (P (w_coord (run (drop_future r) w).2)) end.
    apply run_kept; [|done]. unfold drop_future. same.
  - repeat case_match; try done. intros <-%(inj Some). by apply stream_next_kept.
  - destruct (w_tasks w !! tid); [|done]. by apply cancel_kept.
  - repeat case_match; try done. intros <-%(inj Some). by apply end_stream_kept.
  - intros <-%(inj Some). by apply call_abort_kept.
  - repeat case_match; try done; intros <-%(inj Some); [done|].
    match goal with |- context [run_abort ?r] => change (P (w_coord (run (run_abort r) w).2)) end.
    apply run_kept; [apply run_abort_kept|done].
  - repeat case_match; try done. intros <-%(inj Some). apply run_kept; [|done]. unfold on_abort_task_done. same.
  - destruct (w_loop w); try done. pose proof (run_kept _ w (handle_completion_kept msg) Hw) as H1.
    destruct (run (handle_completion msg) w) as [[[oid|]|] w1]; by intros <-%(inj Some).
  - repeat case_match; try done. intros <-%(inj Some). apply run_kept; [apply put_queue_kept|done].
  - destruct (w_loop w) as [|oid msg|]; try done. destruct failure; intros <-%(inj Some); [done|].
    change (P (w_coord (run (completion_failed oid msg) w).2)). apply run_kept; [apply completion_failed_kept|done].
  - pose proof (run_kept _ w (update_request_kept rid stage) Hw) as H1.
    destruct (run (update_request rid stage) w) as [[] w1]; intros <-%(inj Some); [|done].
    apply run_kept; [|done]. unfold update_sent. same.
  - intros <-%(inj Some). apply run_kept; [apply fail_pending_kept|done].
Qed.

Lemma steps_keep evs w w' : P (w_coord w) → steps resolver evs w = Some w' → P (w_coord w').
Proof.
  revert w. induction evs as [|ev evs IH]; intros w Hw; simpl; [by intros [= <-]|].
  destruct (step resolver ev w) as [w1|] eqn:E; [|done]. simpl. apply IH. by eapply step_kept.
Qed.
End Run.
