(* ===== verification/CoordOcc.v ===== *)
(** * The pipeline coordinator: occupancy and results

    The occupancy counters of the entry stage's replicas ([occ], [occupancy_exact]), and that a
    future, once settled, stays what it is ([settled_result_final]). *)
From S2P Require Import Prelude Odict Coord CoordOps CoordSteps CoordInv CoordKeep CoordWorld CoordSafe CoordRun.

Section Occ.
Context {V Chunk Request : Type}.
Context (resolver : option (Request → result (option (list string)))).
Abbreviation C := (Coord V Chunk Request).
Abbreviation W := (World V Chunk Request).
Implicit Types (s : C) (w : W).

(** ** Counting *)

Abbreviation holds rank := (fun p : nat * RequestInfo V => i_owner_dp_rank p.2 = Some rank).

Definition holders (rank : nat) (m : gmap nat (RequestInfo V)) : nat := size (filter (holds rank) m).

(** The request objects that hold a slot of the replica. *)
Definition owned s rank : nat := holders rank (k_infos s).

Definition holds_one rank (info : RequestInfo V) : nat :=
  if decide (i_owner_dp_rank info = Some rank) then 1 else 0.

Lemma holders_fresh rank m oid info :
  m !! oid = None → holders rank (<[oid := info]> m) = holds_one rank info + holders rank m.
Proof.
  intros Hf. unfold holders, holds_one. destruct (decide (i_owner_dp_rank info = Some rank)) as [Hi|Hi].
  - rewrite map_filter_insert_True by done. rewrite map_size_insert_None; [done|].
    by apply map_lookup_filter_None; left.
  - rewrite map_filter_insert_False by done. by rewrite delete_id.
Qed.

Lemma holders_delete rank m oid info :
  m !! oid = Some info → holders rank m = holds_one rank info + holders rank (delete oid m).
Proof.
  intros Hl. rewrite <- (holders_fresh rank (delete oid m) oid info) by apply lookup_delete_eq.
  by rewrite insert_delete_id.
Qed.

Lemma holders_alter rank m oid info f :
  m !! oid = Some info →
  holds_one rank info + holders rank (alter f oid m) = holds_one rank (f info) + holders rank m.
Proof.
  intros Hl. rewrite (holders_delete rank m oid info Hl).
  assert (alter f oid m = <[oid := f info]> (delete oid m)) as ->.
  { apply map_eq. intros i. rewrite lookup_alter, lookup_insert. case_decide; [by subst; rewrite Hl|].
    by rewrite lookup_delete_ne. }
  rewrite holders_fresh by apply lookup_delete_eq. lia.
Qed.

(** ** The invariant *)

Record occ (entry : string) (T : gset string) s : Prop := {
  oc_ranks : NoDup (map ri_dp_rank (entry_replicas s));
  oc_count : ∀ i r, entry_replicas s !! i = Some r → ri_inflight r = owned s (ri_dp_rank r);
  oc_place : ∀ oid info, k_infos s !! oid = Some info → i_current_stage info = Some (k_entry_stage s);
  oc_owner : ∀ oid info rank, k_infos s !! oid = Some info → i_owner_dp_rank info = Some rank →
    ∃ i r, entry_replicas s !! i = Some r ∧ ri_dp_rank r = rank ∧
      i_owner_endpoint info = Some (ri_endpoint r);
  oc_fresh : ∀ oid, is_Some (k_infos s !! oid) → oid < k_next s;
  oc_entry : k_entry_stage s = entry;
  oc_terminal : k_terminal_stages s = T
}.

(** The resolver returns none or some of the static terminal stages. *)
Definition resolver_ok (T : gset string) : Prop :=
  ∀ f request, resolver = Some f → ∃ o, f request = Ok o ∧
    ∀ stages, o = Some stages → list_to_set (C := gset string) stages ≠ ∅ ∧ list_to_set stages ⊆ T.

Lemma resolve_ok request s :
  resolver_ok (k_terminal_stages s) → ∃ T, resolve_terminal_stages resolver request s = (Ok T, s).
Proof.
  intros Hr. unfold resolve_terminal_stages. unfold resolver_ok in Hr. destruct resolver as [f|]; [|by eexists].
  destruct (Hr f request eq_refl) as (o & E & Ho). unfold mbind, M_bind, get, lift. rewrite E.
  destruct o as [stages|]; [|by eexists]. destruct (Ho stages eq_refl) as [H1 H2].
  unfold guard_raise, raise_if, lift. rewrite bool_decide_false, bool_decide_true by done. by eexists.
Qed.

Lemma rank_index_Some rank l i : rank_index rank l = Some i → ∃ r, l !! i = Some r ∧ ri_dp_rank r = rank.
Proof.
  revert i. induction l as [|r l IH]; intros i; simpl; [done|]. destruct (Nat.eqb_spec (ri_dp_rank r) rank).
  - intros [= <-]. by exists r.
  - destruct (rank_index rank l) as [j|]; [|done]. intros [= <-]. by apply IH.
Qed.

Lemma rank_index_in rank l r : r ∈ l → ri_dp_rank r = rank → is_Some (rank_index rank l).
Proof.
  induction l as [|r0 l IH]; [by intros ?%not_elem_of_nil|]. intros Hr E. simpl.
  destruct (Nat.eqb_spec (ri_dp_rank r0) rank); [by eexists|].
  apply elem_of_cons in Hr as [->|Hr]; [done|]. destruct (IH Hr E) as [j ->]. by eexists.
Qed.

Lemma rank_inj s i j r r' :
  NoDup (map ri_dp_rank (entry_replicas s)) → entry_replicas s !! i = Some r →
  entry_replicas s !! j = Some r' → ri_dp_rank r = ri_dp_rank r' → i = j.
Proof.
  intros Hn Hi Hj E. eapply NoDup_lookup; [exact Hn| |]; rewrite list_lookup_fmap.
  - by rewrite Hi.
  - by rewrite Hj, E.
Qed.

(** Changing the counter of one replica. *)
Definition counted_at (i : nat) (g : nat → nat) s : C :=
  s <| k_stages := od_set (k_entry_stage s)
         (alter (fun r => r <| ri_inflight := g (ri_inflight r) |>) i (entry_replicas s)) (k_stages s) |>.

Lemma counted_replicas i g s :
  entry_replicas (counted_at i g s) = alter (fun r => r <| ri_inflight := g (ri_inflight r) |>) i (entry_replicas s).
Proof. unfold entry_replicas at 1, replicas, counted_at. fields. by rewrite od_get_set. Qed.

Lemma counted_ranks i g s :
  map ri_dp_rank (entry_replicas (counted_at i g s)) = map ri_dp_rank (entry_replicas s).
Proof.
  rewrite counted_replicas. generalize (entry_replicas s). intros l. revert i.
  induction l as [|r l IH]; intros [|i]; simpl; [done..|]. f_equal. apply IH.
Qed.

Lemma counted_lookup i g s j r' :
  entry_replicas (counted_at i g s) !! j = Some r' →
  ∃ r, entry_replicas s !! j = Some r ∧ ri_dp_rank r' = ri_dp_rank r ∧ ri_endpoint r' = ri_endpoint r ∧
    ri_inflight r' = if decide (j = i) then g (ri_inflight r) else ri_inflight r.
Proof.
  rewrite counted_replicas. destruct (decide (j = i)) as [->|Hne].
  - rewrite list_lookup_alter_eq. destruct (entry_replicas s !! i) as [r|]; [|done]. intros [= <-]. by exists r.
  - rewrite list_lookup_alter_ne by done. intros Hr. by exists r'.
Qed.

Lemma counted_some i g s j r :
  entry_replicas s !! j = Some r → ∃ r', entry_replicas (counted_at i g s) !! j = Some r' ∧
    ri_dp_rank r' = ri_dp_rank r ∧ ri_endpoint r' = ri_endpoint r.
Proof.
  intros Hr. rewrite counted_replicas. destruct (decide (j = i)) as [->|Hne].
  - rewrite list_lookup_alter_eq, Hr. by eexists.
  - rewrite list_lookup_alter_ne by done. by exists r.
Qed.

(** ** Preservation *)

Lemma occ_same entry T s s' : same_places s s' → occ entry T s → occ entry T s'.
Proof.
  intros [E1 E2 E3 E4 E5 E6] [H1 H2 H3 H4 H5 H6 H7].
  assert (entry_replicas s' = entry_replicas s) as Er by (unfold entry_replicas, replicas; by rewrite E4, E2).
  constructor; unfold owned; rewrite ?Er, ?E1, ?E4, ?E5; try done.
  intros oid Ho. apply H5 in Ho. lia.
Qed.

Lemma occ_info entry T oid f : keeps_owner f → stable (occ entry T) (on_info oid f).
Proof.
  intros Hf s [H1 H2 H3 H4 H5 H6 H7]. set (s' := (on_info oid f s).2).
  assert (∀ o info', k_infos s' !! o = Some info' → ∃ info, k_infos s !! o = Some info ∧
    i_owner_dp_rank info' = i_owner_dp_rank info ∧ i_owner_endpoint info' = i_owner_endpoint info ∧
    i_current_stage info' = i_current_stage info) as Hl.
  { intros o info'. unfold s', on_info, modify. simpl. fields. rewrite lookup_alter. case_decide; [subst o|by eexists].
    destruct (k_infos s !! oid) as [info|]; [|done]. intros [= <-]. exists info. split; [done|apply Hf]. }
  constructor; try done.
  - intros i r Hr. rewrite (H2 i r Hr). unfold owned, s', on_info, modify. simpl. fields.
    destruct (k_infos s !! oid) as [info|] eqn:E.
    + pose proof (holders_alter (ri_dp_rank r) (k_infos s) oid info f E) as Hh. unfold holds_one in Hh.
      destruct (Hf info) as (Ei & _). rewrite Ei in Hh. lia.
    + by rewrite alter_id by (intros ?; congruence).
  - intros o info' Ho. destruct (Hl o info' Ho) as (info & E & _ & _ & ->). by apply (H3 o).
  - intros o info' rank Ho Hr. destruct (Hl o info' Ho) as (info & E & E1 & E2 & _).
    rewrite E2. apply (H4 o info rank); [done|congruence].
  - intros o [info' Ho]. destruct (Hl o info' Ho) as (info & E & _). apply H5. by eexists.
Qed.

(** The release of a slot. *)
Lemma release_slot_state entry T oid info s rank :
  occ entry T s → k_infos s !! oid = Some info → i_owner_dp_rank info = Some rank →
  ∃ i, rank_index rank (entry_replicas s) = Some i ∧
    (release_replica oid s).2 = (on_info oid (fun info => info <| i_owner_dp_rank := None |>
      <| i_owner_endpoint := None |>) (counted_at i (fun n => n - 1) s)).2.
Proof.
  intros Ho Hl Hr. destruct (oc_owner _ _ _ Ho oid info rank Hl Hr) as (i & r & Hi & Er & _).
  destruct (rank_index_in rank (entry_replicas s) r (list_elem_of_lookup_2 _ _ _ Hi) Er) as [j Hj].
  exists j. split; [done|]. unfold release_replica, mbind, M_bind, get. rewrite Hl, Hr.
  pose proof (oc_place _ _ _ Ho oid info Hl) as Hp.
  assert (stage_or_entry s (i_current_stage info) = k_entry_stage s) as ->.
  { rewrite Hp. simpl. destruct (String.eqb_spec (k_entry_stage s) ""); congruence. }
  unfold entry_replicas in Hj. rewrite Hj. done.
Qed.

Lemma counted_owner entry T i g s oid info rank :
  occ entry T s → k_infos s !! oid = Some info → i_owner_dp_rank info = Some rank →
  ∃ j r, entry_replicas (counted_at i g s) !! j = Some r ∧ ri_dp_rank r = rank ∧
    i_owner_endpoint info = Some (ri_endpoint r).
Proof.
  intros Ho Hl Hr. destruct (oc_owner _ _ _ Ho oid info rank Hl Hr) as (j & r & Hj & Er & Ee).
  destruct (counted_some i g s j r Hj) as (r' & Hr' & E1 & E2). exists j, r'. by rewrite E1, E2.
Qed.

Lemma occ_release entry T oid : stable (occ entry T) (release_replica oid).
Proof.
  intros s Ho. destruct (k_infos s !! oid) as [info|] eqn:Hl.
  2:{ unfold release_replica, mbind, M_bind, get. by rewrite Hl. }
  destruct (i_owner_dp_rank info) as [rank|] eqn:Hr.
  2:{ unfold release_replica, mbind, M_bind, get. by rewrite Hl, Hr. }
  destruct (release_slot_state entry T oid info s rank Ho Hl Hr) as (i & Hi & ->).
  destruct (rank_index_Some _ _ _ Hi) as (r0 & Hr0 & Er0).
  pose proof Ho as [H1 H2 H3 H4 H5 H6 H7]. set (f := fun info => _). set (s1 := counted_at i _ s).
  assert (∀ o info', alter f oid (k_infos s) !! o = Some info' → o ≠ oid ∧ k_infos s !! o = Some info' ∨
    o = oid ∧ info' = f info) as Hcase.
  { intros o info'. rewrite lookup_alter. case_decide; [subst o; rewrite Hl|by left].
    intros [= <-]. by right. }
  constructor.
  - change (NoDup (map ri_dp_rank (entry_replicas s1))). unfold s1. by rewrite counted_ranks.
  - intros j r Hj. change (entry_replicas s1 !! j = Some r) in Hj.
    change (ri_inflight r = holders (ri_dp_rank r) (alter f oid (k_infos s))).
    destruct (counted_lookup _ _ _ _ _ Hj) as (r' & Hr' & Er & _ & ->). rewrite Er.
    pose proof (holders_alter (ri_dp_rank r') (k_infos s) oid info f Hl) as Hh.
    specialize (H2 j r' Hr'). unfold owned in H2. unfold holds_one, f in Hh. simpl in Hh. rewrite Hr in Hh.
    destruct (decide (j = i)) as [->|Hne].
    + replace r' with r0 in * by congruence. rewrite decide_True in Hh by congruence. fold f in Hh. simpl in Hh. lia.
    + rewrite decide_False in Hh.
      * fold f in Hh. simpl in Hh. lia.
      * intros [= E]. apply Hne. by apply (rank_inj s j i r' r0 H1); [..|congruence].
  - intros o info' [[_ E]|[-> ->]]%Hcase; [by apply (H3 o)|]. exact (H3 oid info Hl).
  - intros o info' rank' [[_ E]|[-> ->]]%Hcase Hrank; [|done].
    by apply (counted_owner entry T i (fun n => n - 1) s o).
  - intros o [info' [[_ E]|[-> _]]%Hcase]; apply H5; by eexists.
  - done.
  - done.
Qed.

Lemma occ_settle entry T rid v : stable (occ entry T) (settle rid v).
Proof.
  intros s Ho. assert (∃ fs, (settle rid v s).2 = s <| k_futures := fs |>) as [fs ->].
  { unfold settle, modify. simpl. repeat case_match; try (by eexists); exists (k_futures s); by destruct s. }
  by destruct Ho.
Qed.

Lemma occ_cancel entry T fid s : occ entry T s → occ entry T (cancel_future fid s).
Proof. by intros []. Qed.

(** An admission takes a slot of the replica it chose. *)
Lemma occ_admitted entry T i r s rid queue terminal :
  occ entry T s → entry_replicas s !! i = Some r →
  occ entry T (track_request rid queue terminal r (counted_at i S s)).2.
Proof.
  intros Ho Hi. pose proof Ho as [H1 H2 H3 H4 H5 H6 H7]. set (s1 := counted_at i S s).
  assert (k_infos s !! k_next s = None) as Hnew.
  { destruct (k_infos s !! k_next s) eqn:E; [|done].
    assert (k_next s < k_next s) by (apply H5; by eexists). lia. }
  set (info := {| i_state := R_PENDING; i_current_stage := Some (k_entry_stage s);
    i_terminal_stages := Some terminal; i_result := None; i_error := None;
    i_owner_endpoint := Some (ri_endpoint r); i_owner_dp_rank := Some (ri_dp_rank r) |} : RequestInfo V).
  constructor.
  - change (NoDup (map ri_dp_rank (entry_replicas s1))). unfold s1. by rewrite counted_ranks.
  - intros j r' Hj. change (entry_replicas s1 !! j = Some r') in Hj.
    change (ri_inflight r' = holders (ri_dp_rank r') (<[k_next s := info]> (k_infos s))).
    destruct (counted_lookup _ _ _ _ _ Hj) as (r0 & Hr0 & Er & _ & ->). rewrite Er.
    rewrite (holders_fresh _ _ _ _ Hnew). specialize (H2 j r0 Hr0). unfold owned in H2.
    unfold holds_one, info. simpl. destruct (decide (j = i)) as [->|Hne].
    + replace r with r0 by congruence. rewrite decide_True by done. lia.
    + rewrite decide_False; [lia|]. intros [= E]. apply Hne. by apply (rank_inj s j i r0 r H1).
  - intros o info'. change (<[k_next s := info]> (k_infos s) !! o = Some info' → i_current_stage info' = Some (k_entry_stage s)).
    rewrite lookup_insert. case_decide; [by intros [= <-]|apply H3].
  - intros o info' rank. change (<[k_next s := info]> (k_infos s) !! o = Some info' → i_owner_dp_rank info' = Some rank →
      ∃ j r0, entry_replicas s1 !! j = Some r0 ∧ ri_dp_rank r0 = rank ∧ i_owner_endpoint info' = Some (ri_endpoint r0)).
    rewrite lookup_insert. case_decide.
    + intros [= <-] [= <-]. destruct (counted_some i S s i r Hi) as (r1 & Hr1 & E1 & E2).
      exists i, r1. split; [done|]. split; [done|]. unfold info. simpl. by rewrite E2.
    + intros Hl Hr. by apply (counted_owner entry T i S s o).
  - intros o. change (is_Some (<[k_next s := info]> (k_infos s) !! o) → o < S (S (k_next s))).
    rewrite lookup_insert. case_decide; [lia|]. intros Hl%H5. lia.
  - done.
  - done.
Qed.

Lemma occ_submit entry T rid request queue dp_rank :
  resolver_ok T → stable (occ entry T) (submit_request resolver rid request queue dp_rank).
Proof.
  intros Hres s Ho. unfold submit_request. unfold mbind at 1, M_bind at 1.
  destruct (admit_request rid dp_rank s) as [ra s1] eqn:Ea. apply admit_state in Ea as [[rr ->] _].
  set (s1 := s <| k_rr_cursors := rr |>).
  assert (occ entry T s1) as H1 by (by apply (occ_same entry T s)).
  destruct ra as [i|e]; [|done]. unfold mbind at 1, M_bind at 1, get.
  unfold mbind at 1, M_bind at 1, lift. destruct (entry_replicas s1 !! i) as [r|] eqn:Hi; [|done].
  unfold mbind at 1, M_bind at 1. unfold on_replica, modify. fold (entry_replicas s1).
  change (s1 <| k_stages := _ |>) with (counted_at i S s1).
  unfold mbind at 1, M_bind at 1.
  destruct (resolve_ok request (counted_at i S s1)) as [terminal ->].
  { change (resolver_ok (k_terminal_stages s1)). by rewrite (oc_terminal _ _ _ H1). }
  pose proof (occ_admitted entry T i r s1 rid queue terminal H1 Hi) as H2.
  unfold mbind, M_bind. by destruct (track_request rid queue terminal r _) as [[] s2].
Qed.

Lemma occ_kept entry T : resolver_ok T → Kept resolver (occ entry T).
Proof.
  intros Hr. constructor.
  - apply occ_same.
  - apply occ_info.
  - apply occ_release.
  - intros rid v _. apply occ_settle.
  - apply occ_cancel.
  - intros rid request queue dp_rank. by apply occ_submit.
Qed.

(** ** The start *)

Lemma registered_fresh entry terminal regs :
  let s : C := registered entry terminal regs in
  (∀ name i r, replicas s name !! i = Some r → ri_inflight r = 0) ∧ k_infos s = ∅ ∧
  k_entry_stage s = entry ∧ k_terminal_stages s = list_to_set terminal.
Proof.
  unfold registered. set (P s := (∀ name i r, replicas s name !! i = Some r → ri_inflight r = 0) ∧
    k_infos s = ∅ ∧ k_entry_stage s = entry ∧ k_terminal_stages s = list_to_set terminal).
  assert (P (new_coordinator entry terminal)) as H0 by (by split).
  apply (stable_foreach P); [|exact H0]. intros x s (Ha & Hb & Hc & Hd). split; [|done].
  intros name i r. unfold register_stage, modify, replicas. simpl. fields.
  destruct (decide (name = rg_name x)) as [->|Hne]; [|rewrite od_get_set_ne by done; apply Ha].
  rewrite od_get_set. simpl. intros [Hl|[_ Hl]]%lookup_app_Some; [by eapply (Ha (rg_name x))|].
  apply list_elem_of_lookup_2, list_elem_of_singleton in Hl. by subst r.
Qed.

Lemma registered_occ entry terminal regs :
  NoDup (map ri_dp_rank (replicas (registered entry terminal regs : C) entry)) →
  occ entry (list_to_set terminal) (registered entry terminal regs).
Proof.
  intros Hn. destruct (registered_fresh entry terminal regs) as (H1 & H2 & H3 & H4).
  constructor; try done; unfold entry_replicas; rewrite ?H3; try done.
  - intros i r Hr. rewrite (H1 _ _ _ Hr). unfold owned, holders. by rewrite H2, map_filter_empty, map_size_empty.
  - intros oid info. by rewrite H2.
  - intros oid info rank. by rewrite H2.
  - intros oid [info Hi]. by rewrite H2 in Hi.
Qed.

(** ** Settled futures *)

Definition is_settled fid (f : Future (option V)) s : Prop := k_futures s !! fid = Some f ∧ fid < k_next s.

Lemma settled_modify fid f (g : C → C) :
  (∀ s, is_settled fid f s → k_futures (g s) !! fid = k_futures s !! fid ∧ k_next s ≤ k_next (g s)) →
  stable (is_settled fid f) (modify g).
Proof.
  intros Hg s Hs. destruct (Hg s Hs) as [E1 E2]. destruct Hs. unfold is_settled, modify. simpl.
  rewrite E1. split; [done|lia].
Qed.

Lemma settled_release fid f oid : stable (is_settled fid f) (release_replica oid : M C _).
Proof.
  unfold release_replica. apply stable_get. intros s. destruct (k_infos s !! oid) as [info|]; [|apply stable_ret].
  destruct (i_owner_dp_rank info); [|apply stable_ret].
  apply stable_bind; [destruct (rank_index _ _); by intros ?|]. by intros _ ?.
Qed.

Lemma settled_submit fid f rid request queue dp_rank :
  stable (is_settled fid f) (submit_request resolver rid request queue dp_rank : M C _).
Proof.
  unfold submit_request. apply stable_bind.
  - intros s Hs. destruct (admit_request rid dp_rank s) as [ra s1] eqn:Ea. by apply admit_state in Ea as [[rr ->] _].
  - intros i. apply stable_get. intros s. apply stable_bind; [apply stable_lift|]. intros r.
    apply stable_bind; [by intros ? Hs; exact Hs|]. intros _. apply stable_bind.
    + intros s1 Hs. by rewrite resolve_terminal_state.
    + intros terminal. apply stable_bind; [|intros; apply stable_ret]. intros s1 [H1 H2].
      split.
      * change (<[S (k_next s1) := FPending]> (k_futures s1) !! fid = Some f). rewrite lookup_insert_ne; [done|lia].
      * change (fid < S (S (k_next s1))). lia.
Qed.

Lemma settled_kept fid f : done f = true → Kept resolver (is_settled fid f).
Proof.
  intros Hd. constructor.
  - intros s s' [_ _ E _ _ En] [H1 H2]. split; [by rewrite E|lia].
  - by intros oid g _ s Hs.
  - apply settled_release.
  - intros rid v _ s [H1 H2]. split; unfold settle, modify; simpl.
    + destruct (k_completion_futures s !! rid) as [fid'|]; [|done].
      destruct (k_futures s !! fid') as [f'|] eqn:E; [|done]. destruct f'; try done.
      fields. rewrite lookup_insert_ne; [done|]. intros ->. rewrite H1 in E. injection E as ->. done.
    + destruct (k_completion_futures s !! rid) as [fid'|]; [|done]. by destruct (k_futures s !! fid') as [[]|].
  - intros fid' s [H1 H2]. split; [|done]. unfold cancel_future. fields. rewrite lookup_alter.
    case_decide; [subst fid'|done]. rewrite H1. simpl. by rewrite Hd.
  - intros rid request queue dp_rank. apply settled_submit.
Qed.

(** ** Theorems *)

(** C12: Occupancy is exact: if the entry replicas have distinct ranks and the resolver keeps to
    the static terminal stages, then in every reachable state each replica's [inflight] is the
    number of request objects that hold a slot of it - the clamp at zero never bites -, a
    request that holds one holds it of a registered replica, and an update of a running request
    that holds one goes to the endpoint of that replica. *)
Theorem occupancy_exact entry terminal regs w :
  NoDup (map ri_dp_rank (replicas (registered entry terminal regs : C) entry)) →
  resolver_ok (list_to_set terminal) → reachable resolver entry terminal regs w →
  (∀ i r, entry_replicas (w_coord w) !! i = Some r → ri_inflight r = owned (w_coord w) (ri_dp_rank r)) ∧
  (∀ rid info rank, info_of (w_coord w) rid = Some info → i_owner_dp_rank info = Some rank →
     ∃ i r, entry_replicas (w_coord w) !! i = Some r ∧ ri_dp_rank r = rank ∧ 0 < ri_inflight r ∧
       (i_state info = R_RUNNING → update_request rid None (w_coord w) = (Ok (ri_endpoint r), w_coord w))).
Proof.
  intros Hn Hr [evs Hs].
  assert (occ entry (list_to_set terminal) (w_coord w)) as Ho.
  { eapply (steps_keep resolver _ (Kept0 := occ_kept entry (list_to_set terminal) Hr)); [|done].
    by apply registered_occ. }
  split; [apply (oc_count _ _ _ Ho)|]. intros rid info rank Hi Hrank. pose proof Hi as Hi'.
  unfold info_of in Hi. destruct (request_of (w_coord w) rid) as [oid|] eqn:Eo; [|done]. simpl in Hi.
  destruct (oc_owner _ _ _ Ho oid info rank Hi Hrank) as (i & r & Hr' & Er & Ee).
  exists i, r. split; [done|]. split; [done|]. split.
  - rewrite (oc_count _ _ _ Ho i r Hr'). unfold owned. rewrite (holders_delete _ _ oid info Hi).
    unfold holds_one. rewrite decide_True by congruence. lia.
  - intros Hst. unfold update_request, mbind, M_bind, get, lift, guard_raise, raise_if, lift. rewrite Hi', Hst, Ee. done.
Qed.

(** C35: A settled result is final: once a request's future is done, no later event - a second
    completion, an abort, a failure, a cancellation, the reuse of the identifier - changes it.
    *)
Theorem settled_result_final entry terminal regs w evs w' fid f :
  reachable resolver entry terminal regs w → k_futures (w_coord w) !! fid = Some f → done f = true →
  steps resolver evs w = Some w' → is_settled fid f (w_coord w').
Proof.
  intros [D Hw]%reachable_inv Hf Hd Hs.
  apply (steps_keep resolver (is_settled fid f) (Kept0 := settled_kept fid f Hd) evs w w'); [|done].
  split; [done|]. apply (ci_fresh_futures _ _ _ (wi_coord _ _ _ Hw)). by eexists.
Qed.
End Occ.

Lemma occupancy_exact_witness :
  ∃ r, entry_replicas (w_coord (demo_run demo_waiting)) !! 0 = Some r ∧ ri_inflight r = 1 ∧
    owned (w_coord (demo_run demo_waiting)) (ri_dp_rank r) = 1.
Proof.
  assert (reachable None "in" ["t"; "u"] demo_registrations (demo_run demo_waiting)) as Hr
    by (exists demo_waiting; vm_compute; reflexivity).
  destruct (occupancy_exact None "in" ["t"; "u"] demo_registrations (demo_run demo_waiting)) as [H _].
  - vm_compute. repeat constructor; set_solver.
  - intros f request E. discriminate E.
  - exact Hr.
  - eexists. split; [vm_compute; reflexivity|]. split; [reflexivity|]. symmetry.
    apply (H 0 {| ri_dp_rank := 0; ri_endpoint := "e0"; ri_inflight := 1; ri_capacity := Some 1 |}).
    vm_compute. reflexivity.
Defined.

Lemma settled_result_final_witness :
  is_settled 2 (FException (OtherError "CancelledError: Request a aborted"))
    (w_coord (demo_run (demo_waiting ++ [EAbort "a"; EBroadcast 7 None; ERecv (demo_message "a" "t" 1)]))).
Proof.
  eapply (settled_result_final None "in" ["t"; "u"] demo_registrations
    (demo_run (demo_waiting ++ [EAbort "a"; EBroadcast 7 None])) [ERecv (demo_message "a" "t" 1)]).
  - exists (demo_waiting ++ [EAbort "a"; EBroadcast 7 None]). vm_compute. reflexivity.
  - vm_compute. reflexivity.
  - reflexivity.
  - vm_compute. reflexivity.
Defined.
