(* ===== verification/CoordMerge.v ===== *)
(** * The pipeline coordinator: merged results and replica selection

    A request with several terminal stages is resolved by the completion that covers them
    ([terminal_stages_merged]); the replicas of a stage are taken in turn
    ([selection_round_robin]). *)
From S2P Require Import Prelude Odict Coord CoordOps CoordSteps CoordInv CoordKeep.

Section Merge.
Context {V Chunk Request : Type}.
Abbreviation C := (Coord V Chunk Request).
Abbreviation Msg := (CompleteMessage V).
Implicit Types (s : C).

(** ** Completions of one request *)

(** The results by stage: the last of a stage counts, at its first place. *)
Definition collect (msgs : list Msg) : list (string * option V) :=
  foldl (fun d m => od_set (cm_from_stage m) (cm_result m) d) [] msgs.

Definition stages_of (msgs : list Msg) : gset string := list_to_set (map cm_from_stage msgs).

Definition terminal_message rid (E : gset string) (m : Msg) : Prop :=
  cm_request_id m = rid ∧ cm_success m = true ∧ cm_from_stage m ∈ E.

Lemma collect_snoc msgs m :
  collect (msgs ++ [m]) = od_set (cm_from_stage m) (cm_result m) (collect msgs).
Proof. unfold collect. by rewrite foldl_app. Qed.

Lemma stages_snoc msgs m : stages_of (msgs ++ [m]) = stages_of msgs ∪ {[cm_from_stage m]}.
Proof. unfold stages_of. rewrite map_app, list_to_set_app_L. simpl. set_solver. Qed.

Lemma collect_wf msgs : od_wf (collect msgs).
Proof.
  induction msgs as [|m msgs IH] using rev_ind; [apply NoDup_nil_2|].
  rewrite collect_snoc. by apply od_set_wf.
Qed.

Lemma collect_keys msgs : list_to_set (od_keys (collect msgs)) = stages_of msgs.
Proof.
  induction msgs as [|m msgs IH] using rev_ind; [done|].
  rewrite collect_snoc, od_set_keys_set, stages_snoc, IH. set_solver.
Qed.

(** A stage's entry is the last result it sent. *)
Lemma collect_last msgs m later :
  Forall (fun m' => cm_from_stage m' ≠ cm_from_stage m) later →
  od_get (cm_from_stage m) (collect (msgs ++ m :: later)) = Some (cm_result m).
Proof.
  induction later as [|m' later IH] using rev_ind; intros Hl.
  - rewrite collect_snoc. apply od_get_set.
  - apply Forall_app in Hl as [Hl Hm]. inversion Hm as [|? ? Hne _]; subst.
    change (m :: later ++ [m']) with ((m :: later) ++ [m']). rewrite app_assoc, collect_snoc.
    rewrite od_get_set_ne by congruence. by apply IH.
Qed.

(** ** One completion *)

Lemma release_replica_spec oid s :
  ∃ st m, release_replica oid s = (Ok tt, s <| k_stages := st |> <| k_infos := m |>) ∧
    ∀ o info, k_infos s !! o = Some info → ∃ info', m !! o = Some info' ∧
      i_state info' = i_state info ∧ i_result info' = i_result info.
Proof.
  unfold release_replica, mbind, M_bind, get.
  assert (∃ st m, (Ok tt, s) = (Ok tt, s <| k_stages := st |> <| k_infos := m |>) ∧
    ∀ o info, k_infos s !! o = Some info → ∃ info', m !! o = Some info' ∧
      i_state info' = i_state info ∧ i_result info' = i_result info) as Hself.
  { exists (k_stages s), (k_infos s). split; [by destruct s|]. intros o info Ho. by exists info. }
  destruct (k_infos s !! oid) as [info|] eqn:Hl; [|exact Hself].
  destruct (i_owner_dp_rank info) as [rank|]; [|exact Hself]. clear Hself.
  set (f := fun info : RequestInfo V => info <| i_owner_dp_rank := None |> <| i_owner_endpoint := None |>).
  exists (match rank_index rank (replicas s (stage_or_entry s (i_current_stage info))) with
          | Some i => od_set (stage_or_entry s (i_current_stage info))
              (alter (fun r => r <| ri_inflight := ri_inflight r - 1 |>) i
                (replicas s (stage_or_entry s (i_current_stage info)))) (k_stages s)
          | None => k_stages s end), (alter f oid (k_infos s)).
  split; [destruct (rank_index rank _); by destruct s|].
  intros o i Ho. rewrite lookup_alter. case_decide; [subst o|by exists i]. rewrite Hl in Ho |- *.
  injection Ho as ->. by exists (f i).
Qed.

(** The request waits for the other stages, having [d]. *)
Record collecting rid oid fid (E : gset string) (d : list (string * option V)) s : Prop := {
  co_request : request_of s rid = Some oid;
  co_info : is_Some (k_infos s !! oid);
  co_registered : k_completion_futures s !! rid = Some fid;
  co_pending : k_futures s !! fid = Some FPending;
  co_expected : expected_terminal_stages s rid = E;
  co_partials : default [] (k_partial_results s !! rid) = d
}.

Record resolved rid oid fid (d : list (string * option V)) s : Prop := {
  re_future : k_futures s !! fid = Some (FResult (Merged d));
  re_gone : request_of s rid = None;
  re_partials : k_partial_results s !! rid = None;
  re_info : ∃ info, k_infos s !! oid = Some info ∧ i_state info = R_COMPLETED ∧
    i_result info = Some (Merged d)
}.

Lemma handle_terminal rid oid E msg s :
  request_of s rid = Some oid → expected_terminal_stages s rid = E → 1 < size E →
  terminal_message rid E msg →
  handle_completion msg s =
    (let '(r, s') := complete_part oid E msg s in
     (match r with Ok _ => Ok None | Raise e => Raise e end, s')).
Proof.
  intros Hr <- HE (<- & Hok & Hin). unfold handle_completion. unfold mbind at 1, M_bind at 1, get.
  rewrite Hr, Hok. cbn [negb]. rewrite bool_decide_false by (intros He; rewrite He, size_empty in HE; lia).
  rewrite bool_decide_true by done. cbn [negb andb]. rewrite (proj2 (Nat.leb_gt _ _)) by lia.
  unfold mbind at 1, M_bind at 1. by destruct (complete_part _ _ _ _) as [[] s1].
Qed.

(** The stage's result is stored and the stream told. *)
Lemma collecting_joined rid oid fid E d msg s :
  collecting rid oid fid E d s → cm_request_id msg = rid →
  collecting rid oid fid E (od_set (cm_from_stage msg) (cm_result msg) d) (joined msg s).
Proof.
  intros [H1 H2 H3 H4 H5 H6] <-. destruct (joined_fields msg s) as (E1 & E2 & E3 & E4 & E5).
  assert (k_futures (joined msg s) = k_futures s ∧ k_infos (joined msg s) = k_infos s) as [Ef Ei]
    by (unfold joined, pushed; fields; by destruct (k_stream_queues s !! cm_request_id msg)).
  constructor; unfold expected_terminal_stages, info_of, request_of in *; rewrite ?Ef, ?Ei, ?E3, ?E4, ?E5; try done.
  by rewrite E1, H6.
Qed.

Lemma merge_end_resolves rid oid fid E d s :
  collecting rid oid fid E d s → ∃ s', merge_end rid oid d s = (Ok tt, s') ∧ resolved rid oid fid d s'.
Proof.
  intros [H1 [info H2] H3 H4 H5 H6]. unfold merge_end, forget_partials, complete_request, on_info, settle.
  do 3 (unfold mbind at 1, M_bind at 1, modify at 1). fields. rewrite H3, H4.
  set (s1 := _ <| k_futures := _ |>). unfold mbind, M_bind.
  destruct (release_replica_spec oid s1) as (st & m & -> & Hm).
  assert (k_infos s1 !! oid = Some (info <| i_state := R_COMPLETED |> <| i_result := Some (Merged d) |>)) as Hl.
  { unfold s1. fields. by rewrite lookup_alter_eq, H2. }
  destruct (Hm oid _ Hl) as (info' & Hi & E1 & E2). eexists. split; [done|]. constructor; unfold forget_request, modify; fields.
  - unfold s1. fields. by rewrite lookup_insert_eq.
  - unfold request_of. fields. apply od_get_pop.
  - unfold s1. fields. apply lookup_delete_eq.
  - exists info'. split; [done|]. by split.
Qed.

Lemma one_completion rid oid fid E d msg s :
  collecting rid oid fid E d s → 1 < size E → terminal_message rid E msg →
  let d' := od_set (cm_from_stage msg) (cm_result msg) d in
  ∃ s', handle_completion msg s = (Ok None, s') ∧
    if bool_decide (list_to_set (od_keys d') ⊂ E) then collecting rid oid fid E d' s'
    else resolved rid oid fid d' s'.
Proof.
  intros Hc HE Hm d'. pose proof Hm as (Hrid & _).
  rewrite (handle_terminal rid oid E msg s) by (done || apply Hc).
  rewrite complete_part_joined. cbv zeta. rewrite Hrid, (co_partials _ _ _ _ _ _ Hc). fold d'.
  pose proof (collecting_joined rid oid fid E d msg s Hc Hrid) as Hj. fold d' in Hj.
  case_bool_decide; [by eexists|].
  destruct (merge_end_resolves rid oid fid E d' _ Hj) as (s' & -> & Hr). by exists s'.
Qed.

(** ** All of them *)

Definition handle_completions (msgs : list Msg) : M C unit :=
  mforeach (fun m => _ ← handle_completion m; mret tt) msgs.

Lemma collecting_prefix rid oid fid E d msgs s :
  collecting rid oid fid E d s → 1 < size E → Forall (terminal_message rid E) msgs →
  list_to_set (od_keys d) ∪ stages_of msgs ⊂ E →
  ∃ s', handle_completions msgs s = (Ok tt, s') ∧
    collecting rid oid fid E (foldl (fun d m => od_set (cm_from_stage m) (cm_result m) d) d msgs) s'.
Proof.
  intros Hc HE. revert d s Hc. induction msgs as [|m msgs IH]; intros d s Hc Hall Hlt; [by exists s|].
  inversion Hall as [|? ? Hm Hmsgs]; subst.
  set (d' := od_set (cm_from_stage m) (cm_result m) d).
  assert (list_to_set (od_keys d') ∪ stages_of msgs ⊂ E) as Hlt'.
  { unfold d'. rewrite od_set_keys_set. unfold stages_of in *. simpl in Hlt.
    eapply strict_trans_r; [|exact Hlt]. set_solver. }
  destruct (one_completion rid oid fid E d m s Hc HE Hm) as (s1 & E1 & H1). cbv zeta in H1. fold d' in H1.
  rewrite bool_decide_true in H1. 2:{ eapply strict_trans_r; [|exact Hlt']. set_solver. }
  destruct (IH d' s1 H1 Hmsgs Hlt') as (s' & E' & H'). exists s'. split; [|exact H'].
  unfold handle_completions in *. cbn [mforeach]. unfold mbind at 1, M_bind at 1.
  unfold mbind at 1, M_bind at 1. by rewrite E1.
Qed.

(** What is said of a request that is gone changes nothing. *)
Lemma resolved_silent rid oid fid d s msg :
  resolved rid oid fid d s → cm_request_id msg = rid → handle_completion msg s = (Ok None, s).
Proof.
  intros [_ Hg _ _] <-. unfold handle_completion, mbind, M_bind, get. by rewrite Hg.
Qed.

(** C13: A request with several terminal stages is resolved exactly by the completion that
    covers them: after any successful completions of its terminal stages that leave one out -
    repeated ones included - it is still tracked and its future pending; the first that
    completes the set resolves the future with every stage's last result, drops the request,
    marks it completed, and whatever comes for it later changes nothing. *)
Theorem terminal_stages_merged rid oid fid E s msgs m :
  1 < size E → collecting rid oid fid E [] s →
  Forall (terminal_message rid E) (msgs ++ [m]) →
  stages_of msgs ≠ E → stages_of (msgs ++ [m]) = E →
  ∃ s1 s2, handle_completions msgs s = (Ok tt, s1) ∧
    tracked s1 rid = true ∧ k_futures s1 !! fid = Some FPending ∧
    handle_completion m s1 = (Ok None, s2) ∧ resolved rid oid fid (collect (msgs ++ [m])) s2 ∧
    (∀ stage, stage ∈ od_keys (collect (msgs ++ [m])) ↔ stage ∈ E) ∧
    (∀ early m' later, msgs ++ [m] = early ++ m' :: later →
      Forall (fun m'' => cm_from_stage m'' ≠ cm_from_stage m') later →
      od_get (cm_from_stage m') (collect (msgs ++ [m])) = Some (cm_result m')) ∧
    (∀ msg, cm_request_id msg = rid → handle_completion msg s2 = (Ok None, s2)).
Proof.
  intros HE Hc Hall Hne Heq. apply Forall_app in Hall as [Hall Hm]. inversion Hm as [|? ? Hm' _]; subst x l.
  assert (stages_of msgs ⊆ E) as Hsub by (rewrite <- Heq, stages_snoc; set_solver).
  destruct (collecting_prefix rid oid fid E [] msgs s Hc HE Hall) as (s1 & E1 & H1).
  { simpl. rewrite union_empty_l_L. split; [done|]. intros Hge. apply Hne. by apply set_eq_subseteq. }
  fold (collect msgs) in H1. exists s1.
  destruct (one_completion rid oid fid E (collect msgs) m s1 H1 HE Hm') as (s2 & E2 & H2). cbv zeta in H2.
  rewrite <- collect_snoc in H2. rewrite collect_keys, Heq, bool_decide_false in H2 by apply (irreflexivity (⊂)).
  exists s2. split; [done|]. split; [apply tracked_request; rewrite (co_request _ _ _ _ _ _ H1); by eexists|].
  split; [apply H1|]. split; [done|]. split; [done|]. split; [|split].
  - intros stage. rewrite <- Heq, <- collect_keys. by rewrite elem_of_list_to_set.
  - intros early m' later -> Hl. by apply collect_last.
  - intros msg. by apply (resolved_silent rid oid fid (collect (msgs ++ [m]))).
Qed.

(** ** Replica selection *)

Definition full_at (l : list ReplicaInfo) i : Prop := ∃ r, l !! i = Some r ∧ is_full r = true.
Definition free_at (l : list ReplicaInfo) i : Prop := ∃ r, l !! i = Some r ∧ is_full r = false.

Lemma find_seq (f : nat → bool) a n :
  match List.find f (seq a n) with
  | Some o => a ≤ o < a + n ∧ f o = true ∧ ∀ o', a ≤ o' < o → f o' = false
  | None => ∀ o, a ≤ o < a + n → f o = false
  end.
Proof.
  revert a. induction n as [|n IH]; intros a; simpl; [intros; lia|].
  destruct (f a) eqn:E; [repeat split; try lia; done|]. specialize (IH (S a)).
  destruct (List.find f (seq (S a) n)) as [o|].
  - destruct IH as (H1 & H2 & H3). split; [lia|]. split; [done|]. intros o' Ho.
    destruct (decide (o' = a)) as [->|]; [done|]. apply H3. lia.
  - intros o Ho. destruct (decide (o = a)) as [->|]; [done|]. apply IH. lia.
Qed.

(** Where the next selection of the stage starts. *)
Definition cursor_of s name : nat := default 0 (k_rr_cursors s !! name) mod length (replicas s name).

Lemma free_offset_spec l c :
  c < length l →
  match free_offset l c with
  | Some o => o < length l ∧ free_at l ((c + o) mod length l) ∧
      ∀ o', o' < o → full_at l ((c + o') mod length l)
  | None => ∀ i, i < length l → full_at l i
  end.
Proof.
  intros Hc. unfold free_offset. set (f := fun offset => _). pose proof (find_seq f 0 (length l)) as Hf.
  assert (∀ o, is_Some (l !! ((c + o) mod length l))) as Hin.
  { intros o. apply lookup_lt_is_Some_2, Nat.mod_upper_bound. lia. }
  assert (∀ o, f o = false → full_at l ((c + o) mod length l)) as Hfull.
  { intros o. unfold f. destruct (Hin o) as [r Hr]. rewrite Hr. intros E%negb_false_iff. by exists r. }
  destruct (List.find f (seq 0 (length l))) as [o|].
  - destruct Hf as (H1 & H2 & H3). split; [lia|]. split.
    + unfold f in H2. destruct (Hin o) as [r Hr]. rewrite Hr in H2. apply negb_true_iff in H2. by exists r.
    + intros o' Ho. apply Hfull, H3. lia.
  - intros i Hi. assert (∃ o, o < length l ∧ (c + o) mod length l = i) as (o & Ho & <-).
    { destruct (Nat.leb_spec c i); [exists (i - c)|exists (i + length l - c)]; split; try lia.
      - replace (c + (i - c)) with i by lia. by apply Nat.mod_small.
      - replace (c + (i + length l - c)) with (i + 1 * length l) by lia. rewrite Nat.Div0.mod_add.
        by apply Nat.mod_small. }
    apply Hfull, Hf. lia.
Qed.

Fixpoint select_many (name : string) (k : nat) : M C (list nat) :=
  match k with
  | 0 => mret []
  | S k' => i ← select_replica name; l ← select_many name k'; mret (i :: l)
  end.

(** The state after a selection. *)
Definition turned name i s : C :=
  s <| k_rr_cursors := <[name := (i + 1) mod length (replicas s name)]> (k_rr_cursors s) |>.

Lemma select_spec name s :
  replicas s name ≠ [] →
  let l := replicas s name in let c := cursor_of s name in
  ∃ o, o < length l ∧ select_replica name s = (Ok ((c + o) mod length l), turned name ((c + o) mod length l) s) ∧
    (free_at l ((c + o) mod length l) ∨ o = 0 ∧ ∀ i, i < length l → full_at l i) ∧
    (∀ o', o' < o → full_at l ((c + o') mod length l)).
Proof.
  intros Hne l c. assert (0 < length l) as Hpos by (destruct l eqn:E; [done|simpl; lia]).
  assert (c < length l) as Hc by (apply Nat.mod_upper_bound; lia).
  pose proof (free_offset_spec l c Hc) as Hf.
  assert (select_replica name s = (Ok ((c + default 0 (free_offset l c)) mod length l),
    turned name ((c + default 0 (free_offset l c)) mod length l) s)) as ->.
  { unfold select_replica, mbind, M_bind, get, modify, turned. fold l.
    change (default 0 (k_rr_cursors s !! name) mod length l) with c.
    by rewrite (Nat.Div0.add_mod_idemp_l (c + default 0 (free_offset l c)) 1). }
  exists (default 0 (free_offset l c)). destruct (free_offset l c) as [o|]; simpl.
  - destruct Hf as (H1 & H2 & H3). by repeat split; [..|left|].
  - split; [done|]. split; [done|]. split; [by right|]. lia.
Qed.

Lemma select_many_round name k s :
  replicas s name ≠ [] → (∀ i, i < length (replicas s name) → free_at (replicas s name) i) →
  ∃ s', select_many name k s =
    (Ok (map (fun j => (cursor_of s name + j) mod length (replicas s name)) (seq 0 k)), s').
Proof.
  intros Hne Hfree. revert s Hne Hfree. induction k as [|k IH]; intros s Hne Hfree; [by eexists|].
  destruct (select_spec name s Hne) as (o & Ho & E & _ & Hfull).
  assert (o = 0) as ->.
  { destruct o as [|o]; [done|]. destruct (Hfull 0) as (r & Hr & Hf); [lia|].
    destruct (Hfree _ (lookup_lt_Some _ _ _ Hr)) as (r' & Hr' & Hf'). congruence. }
  set (n := length (replicas s name)) in *. set (c := cursor_of s name) in *.
  assert (c < n) as Hc by (apply Nat.mod_upper_bound; lia).
  destruct (IH (turned name ((c + 0) mod n) s)) as [s' E']; [done..|]. exists s'.
  cbn [select_many]. unfold mbind at 1, M_bind at 1. rewrite E. unfold mbind at 1, M_bind at 1. rewrite E'.
  unfold mret, M_ret. do 2 f_equal. simpl. f_equal. rewrite <- seq_shift, map_map. apply map_ext. intros j.
  assert (cursor_of (turned name ((c + 0) mod n) s) name = (c + 1) mod n) as ->.
  { unfold cursor_of, turned. fields. rewrite lookup_insert_eq. simpl. change (length (replicas _ name)) with n.
    rewrite Nat.Div0.mod_mod, Nat.add_0_r, Nat.Div0.add_mod_idemp_l. done. }
  change (length (replicas (turned name ((c + 0) mod n) s) name)) with n.
  rewrite Nat.Div0.add_mod_idemp_l. f_equal. lia.
Qed.

(** Replicas are taken in turn: a selection takes the first replica from the cursor on that
    has room, or the one at the cursor when none has, and leaves the cursor behind it; when
    every replica has room, as many selections as there are replicas take each exactly once. *)
Theorem selection_round_robin name s :
  replicas s name ≠ [] →
  let l := replicas s name in let c := cursor_of s name in
  (∃ o, o < length l ∧ select_replica name s = (Ok ((c + o) mod length l), turned name ((c + o) mod length l) s) ∧
     (free_at l ((c + o) mod length l) ∨ o = 0 ∧ ∀ i, i < length l → full_at l i) ∧
     (∀ o', o' < o → full_at l ((c + o') mod length l))) ∧
  ((∀ i, i < length l → free_at l i) →
    ∃ picks s', select_many name (length l) s = (Ok picks, s') ∧ picks ≡ₚ seq 0 (length l)).
Proof.
  intros Hne l c. split; [by apply select_spec|]. intros Hfree.
  destruct (select_many_round name (length l) s Hne Hfree) as [s' E]. fold l in E. rewrite E.
  eexists _, s'. split; [done|]. apply round_permutation. apply Nat.mod_upper_bound.
  fold l. intros E0%length_zero_iff_nil. by apply Hne.
Qed.
End Merge.

(** ** Examples *)

Definition demo_part (stage : string) (v : nat) : CompleteMessage nat :=
  {| cm_request_id := "r"; cm_from_stage := stage; cm_success := true; cm_result := Some v; cm_error := None |}.

Definition demo_coord : Coord nat nat unit :=
  let replica rank full := {| ri_dp_rank := rank; ri_endpoint := "e"; ri_inflight := if full : bool then 1 else 0;
                              ri_capacity := Some 1 |} in
  new_coordinator "in" ["t"; "u"] <| k_stages := [("in", [replica 0 true; replica 1 false; replica 2 false])] |>
    <| k_requests := [("r", 0)] |>
    <| k_infos := {[0 := {| i_state := R_RUNNING; i_current_stage := Some "in"; i_terminal_stages := None;
         i_result := None; i_error := None; i_owner_endpoint := Some "e"; i_owner_dp_rank := Some 0 |}]} |>
    <| k_futures := {[1 := FPending]} |> <| k_completion_futures := {["r" := 1]} |> <| k_next := 2 |>.

Lemma terminal_stages_merged_witness :
  ∃ s1 s2, handle_completions [demo_part "t" 1; demo_part "t" 2] demo_coord = (Ok tt, s1) ∧
    handle_completion (demo_part "u" 3) s1 = (Ok None, s2) ∧
    k_futures s2 !! 1 = Some (FResult (Merged [("t", Some 2); ("u", Some 3)])).
Proof.
  destruct (terminal_stages_merged (Request := unit) "r" 0 1 {["t"; "u"]} demo_coord [demo_part "t" 1; demo_part "t" 2]
    (demo_part "u" 3)) as (s1 & s2 & H1 & _ & _ & H2 & H3 & _).
  - vm_compute. lia.
  - constructor; try (vm_compute; reflexivity). vm_compute. by eexists.
  - repeat constructor; vm_compute; reflexivity.
  - intros H. vm_compute in H. discriminate H.
  - vm_compute. reflexivity.
  - exists s1, s2. split; [exact H1|]. split; [exact H2|]. exact (re_future _ _ _ _ _ H3).
Defined.

Lemma selection_round_robin_witness :
  ∃ o, o < 3 ∧ (select_replica "in" demo_coord).1 = Ok (o mod 3).
Proof.
  destruct (selection_round_robin (V := nat) (Chunk := nat) (Request := unit) "in" demo_coord) as [(o & Ho & E & _) _].
  - intros H. vm_compute in H. discriminate H.
  - exists o. split; [exact Ho|]. rewrite E. reflexivity.
Defined.
