(* ===== verification/CoordAdmin.v ===== *)
(** * The pipeline coordinator: administrative operations

    [admin] sends an operation to every replica of its target stages and waits for their results
    ([_handle_admin_result]); [_aggregate_admin_results] makes the answer out of them.  The
    operations under way are [self._admin_ops], a finite map by operation identifier; admin
    results arrive one at a time, between the suspensions of [admin]. *)
From S2P Require Import Prelude PyNum Odict Coord.

(** ** Values *)

(** A JSON-like value of a result's [data]. *)
Inductive Val : Type :=
| VNone
| VBool (b : bool)
| VNum (n : num)
| VStr (t : string)
| VList (l : list Val)
| VDict (d : list (string * Val)).

(** [bool(v)]. *)
Definition val_true (v : Val) : bool :=
  match v with
  | VNone => false
  | VBool b => b
  | VNum (NInt z) => negb (Z.eqb z 0)
  | VNum (NFloat f) => match f with SpecFloat.S754_zero _ => false | _ => true end
  | VStr t => negb (String.eqb t "")
  | VList l => match l with [] => false | _ => true end
  | VDict d => match d with [] => false | _ => true end
  end.

Abbreviation Data := (list (string * Val)).

(** [data.get(key)], as a condition. *)
Definition flag (key : string) (d : Data) : bool :=
  match od_get key d with Some v => val_true v | None => false end.

Record AdminResult : Type := {
  ar_op_id : string; ar_stage : string; ar_action : string; ar_success : bool;
  ar_message : string; ar_data : Data; ar_error : option string; ar_rank : option Z;
  ar_role : option string; ar_dp_rank : option Z
}.

Definition opt_str (o : option string) : Val := match o with Some t => VStr t | None => VNone end.
Definition opt_int (o : option Z) : Val := match o with Some z => VNum (NInt z) | None => VNone end.

(** [AdminResult.to_dict]. *)
Definition result_dict (r : AdminResult) : Data :=
  [("op_id", VStr (ar_op_id r)); ("stage", VStr (ar_stage r)); ("action", VStr (ar_action r));
   ("success", VBool (ar_success r)); ("message", VStr (ar_message r)); ("data", VDict (ar_data r));
   ("error", opt_str (ar_error r)); ("rank", opt_int (ar_rank r)); ("role", opt_str (ar_role r))]
  ++ match ar_dp_rank r with Some z => [("dp_rank", VNum (NInt z))] | None => [] end.

(** [is_update_action]. *)
Definition is_update_action (action : string) : bool :=
  bool_decide (action ∈ ["init_weights_update_group"; "destroy_weights_update_group";
    "update_weights_from_disk"; "update_weights_from_tensor"; "update_weights_from_distributed"]).

(** ** Operations under way *)

Inductive AdminFuture : Type :=
| AFPending
| AFResult (results : list (string * list AdminResult))
| AFCancelled.

(** [_AdminPendingOperation]. *)
Record AdminOp : Type := {
  ap_expected : gset string;
  ap_action : string;
  ap_results : list (string * list AdminResult);
  ap_counts : list (string * nat);
  ap_future : AdminFuture
}.

#[global] Instance eta_AdminOp : Eta AdminOp := fun p =>
  {| ap_expected := ap_expected p; ap_action := ap_action p; ap_results := ap_results p;
     ap_counts := ap_counts p; ap_future := ap_future p |}.

Section Admin.
Context {V Chunk Request : Type}.
Abbreviation C := (Coord V Chunk Request).

Definition str_lt (a b : string) : bool :=
  match String.compare a b with Lt => true | _ => false end.

(** [_resolve_admin_stages]. *)
Definition resolve_admin_stages (s : C) (stages : option (list string)) : result (list string) :=
  match stages with
  | None => Ok (stable_sort str_lt (od_keys (k_stages s)))
  | Some resolved =>
      if forallb (fun name => od_mem name (k_stages s)) resolved then Ok resolved
      else Raise (ValueError "Unknown admin target stage(s)")
  end.

(** [admin] up to its operation; the stages it is for. *)
Definition admin_targets (s : C) (stages : option (list string)) : result (list string) :=
  _ ← raise_if (negb (k_running s)) (RuntimeError "Coordinator is not running");
  target_stages ← resolve_admin_stages s stages;
  _ ← raise_if (bool_decide (target_stages = [])) (ValueError "No stages registered for admin operation");
  Ok target_stages.

Definition new_admin_op (s : C) (action : string) (target_stages : list string) : AdminOp :=
  {| ap_expected := list_to_set target_stages; ap_action := action; ap_results := [];
     ap_counts := foldl (fun d name => od_set name (length (replicas s name)) d) [] target_stages;
     ap_future := AFPending |}.

(** The messages [admin] sends. *)
Definition admin_messages (s : C) (target_stages : list string) : list (string * string) :=
  target_stages ≫= fun name => map (fun r => (name, ri_endpoint r)) (replicas s name).
End Admin.

Abbreviation Ops := (gmap string AdminOp).

(** [admin] entering its wait, timing out, and leaving. *)
Definition admin_begin (op_id : string) (op : AdminOp) (ops : Ops) : Ops := <[op_id := op]> ops.

Definition admin_timeout (op_id : string) (ops : Ops) : Ops :=
  alter (fun op => match ap_future op with AFPending => op <| ap_future := AFCancelled |> | _ => op end)
    op_id ops.

Definition admin_end (op_id : string) (ops : Ops) : Ops := delete op_id ops.

(** [_handle_admin_result], for its operation. *)
Definition record_result (r : AdminResult) (op : AdminOp) : AdminOp :=
  let results := od_set (ar_stage r) (default [] (od_get (ar_stage r) (ap_results op)) ++ [r]) (ap_results op) in
  let counts := match od_get (ar_stage r) (ap_counts op) with
                | Some remaining => od_set (ar_stage r) (remaining - 1) (ap_counts op)
                | None => ap_counts op
                end in
  let op' := op <| ap_results := results |> <| ap_counts := counts |> in
  if bool_decide (ap_expected op ⊆ list_to_set (od_keys results))
     && forallb (fun p => p.2 =? 0) counts
  then match ap_future op with
       | AFPending => op' <| ap_future := AFResult results |>
       | _ => op'
       end
  else op'.

(** [_handle_admin_result]. *)
Definition handle_admin_result (r : AdminResult) (ops : Ops) : Ops :=
  alter (record_result r) (ar_op_id r) ops.

(** ** The answer *)

(** [(item.dp_rank is None, item.dp_rank or 0)]. *)
Definition rank_lt (a b : AdminResult) : bool :=
  match ar_dp_rank a, ar_dp_rank b with
  | Some x, Some y => Z.ltb x y
  | Some _, None => true
  | None, _ => false
  end.

Definition errors_of (items : list AdminResult) : list string :=
  omap (fun r => match ar_error r with
                 | Some e => if String.eqb e "" then None else Some e
                 | None => None
                 end) items.

Definition join_errors (errors : list string) : string := String.concat "; " errors.

(** [_merge_stage_replica_results]. *)
Definition merge_stage_replica_results (op_id action stage_name : string) (items : list AdminResult)
    : result AdminResult :=
  match items with
  | [item] => Ok item
  | _ =>
      let ordered := stable_sort rank_lt items in
      match ordered with
      | [] => Raise (IndexError "list index out of range")
      | first :: _ =>
          let errors := errors_of ordered in
          let success := forallb ar_success ordered in
          Ok {| ar_op_id := op_id; ar_stage := stage_name; ar_action := action; ar_success := success;
                ar_message := if success then ar_message first else join_errors errors;
                ar_data := od_set "replica_results"
                             (VList (map (fun item => VDict (result_dict item)) ordered)) (ar_data first);
                ar_error := if success then None
                            else if String.eqb (join_errors errors) "" then ar_error first
                            else Some (join_errors errors);
                ar_rank := ar_rank first; ar_role := ar_role first; ar_dp_rank := None |}
      end
  end.

Record AdminReply : Type := {
  rp_op_id : string; rp_action : string; rp_success : bool; rp_message : string; rp_results : list Data
}.

(** Neither skipped nor unsupported. *)
Definition counts_as_update (item : AdminResult) : bool :=
  negb (flag "skipped" (ar_data item)) && negb (flag "unsupported" (ar_data item)).

Fixpoint merge_stages (op_id action : string) (results_by_stage : list (string * list AdminResult))
    : result (list AdminResult) :=
  match results_by_stage with
  | [] => Ok []
  | (stage, items) :: rest =>
      item ← merge_stage_replica_results op_id action stage items;
      items' ← merge_stages op_id action rest;
      Ok (item :: items')
  end.

(** [_aggregate_admin_results]. *)
Definition aggregate_admin_results (op_id action : string) (results_by_stage : list (string * list AdminResult))
    : result AdminReply :=
  results ← merge_stages op_id action results_by_stage;
  let updated_results := List.filter counts_as_update results in
  let success := if is_update_action action
                 then negb (bool_decide (updated_results = [])) && forallb ar_success updated_results
                 else forallb ar_success results in
  let errors := errors_of results in
  Ok {| rp_op_id := op_id; rp_action := action; rp_success := success;
        rp_message := if success then "ok"
                      else if bool_decide (errors = []) then "admin operation did not complete successfully"
                      else join_errors errors;
        rp_results := map result_dict results |}.
