(* ===== verification/CoordReply.v ===== *)
(** * The pipeline coordinator: administrative operations are answered by all

    The future of an operation is set by the result that completes it and not before, which is
    when all replicas have answered if none answers twice ([admin_answered_by_all]); what the answer says of success ([admin_reply_sound]). *)
From S2P Require Import Prelude PyNum Odict Coord CoordAdmin.

Section Reply.
Context {V Chunk Request : Type}.
Abbreviation C := (Coord V Chunk Request).
Implicit Types (s : C).

(** ** Collecting results *)

Definition of_stage (stage : string) (rs : list AdminResult) : list AdminResult :=
  List.filter (fun r => bool_decide (ar_stage r = stage)) rs.

(** The results by stage, in the order they came. *)
Definition by_stage (rs : list AdminResult) : list (string * list AdminResult) :=
  foldl (fun d r => od_set (ar_stage r) (default [] (od_get (ar_stage r) d) ++ [r]) d) [] rs.

(** Of every target stage as many results have come as it has replicas, and one at least: what the
    coordinator counts.  It does not look at who sent them. *)
Definition results_complete s (targets : list string) (rs : list AdminResult) : Prop :=
  ∀ stage, stage ∈ targets → of_stage stage rs ≠ [] ∧ length (replicas s stage) ≤ length (of_stage stage rs).

#[global] Instance results_complete_dec s targets rs : Decision (results_complete s targets rs).
Proof.
  refine (cast_if (decide (Forall (fun stage => of_stage stage rs ≠ [] ∧
    length (replicas s stage) ≤ length (of_stage stage rs)) targets))); unfold results_complete;
    by rewrite <- Forall_forall.
Defined.

Lemma of_stage_snoc stage rs r :
  of_stage stage (rs ++ [r]) = of_stage stage rs ++ (if decide (ar_stage r = stage) then [r] else []).
Proof. unfold of_stage. rewrite List.filter_app. simpl. case_bool_decide; by case_decide. Qed.

Lemma results_complete_app s targets rs rs' :
  results_complete s targets rs → results_complete s targets (rs ++ rs').
Proof.
  intros Hc stage [H1 H2]%Hc. unfold of_stage in *. rewrite List.filter_app, length_app.
  split; [by intros [? _]%app_eq_nil|lia].
Qed.

Lemma by_stage_snoc rs r :
  by_stage (rs ++ [r]) = od_set (ar_stage r) (default [] (od_get (ar_stage r) (by_stage rs)) ++ [r]) (by_stage rs).
Proof. unfold by_stage. by rewrite foldl_app. Qed.

Lemma by_stage_get rs stage :
  od_get stage (by_stage rs) = if decide (of_stage stage rs = []) then None else Some (of_stage stage rs).
Proof.
  induction rs as [|r rs IH] using rev_ind; [done|]. rewrite by_stage_snoc, of_stage_snoc.
  destruct (decide (ar_stage r = stage)) as [->|Hne].
  - rewrite od_get_set, IH. rewrite (decide_False (P := of_stage stage rs ++ [r] = []))
      by (by destruct (of_stage stage rs)).
    by case_decide as E; [rewrite E|].
  - rewrite od_get_set_ne by done. by rewrite app_nil_r.
Qed.

Lemma by_stage_keys rs stage : stage ∈ od_keys (by_stage rs) ↔ of_stage stage rs ≠ [].
Proof.
  rewrite <- od_mem_true. unfold od_mem. rewrite by_stage_get. by case_decide.
Qed.

Definition initial_counts s (targets : list string) : list (string * nat) :=
  foldl (fun d name => od_set name (length (replicas s name)) d) [] targets.

Lemma counts_spec s targets :
  od_wf (initial_counts s targets) ∧
  ∀ stage, od_get stage (initial_counts s targets) =
    if decide (stage ∈ targets) then Some (length (replicas s stage)) else None.
Proof.
  unfold initial_counts. induction targets as [|name targets [IH1 IH2]] using rev_ind; [split; [apply NoDup_nil_2|done]|].
  rewrite foldl_app. simpl. split; [by apply od_set_wf|]. intros stage.
  destruct (decide (stage = name)) as [->|Hne].
  - rewrite od_get_set. rewrite decide_True; [done|]. rewrite elem_of_app. right. by apply list_elem_of_singleton.
  - rewrite od_get_set_ne, IH2 by done. apply decide_ext. rewrite elem_of_app, list_elem_of_singleton. naive_solver.
Qed.

(** The operation's record after the results [rs]. *)
Record recorded s targets rs (op : AdminOp) : Prop := {
  rc_expected : ap_expected op = list_to_set targets;
  rc_results : ap_results op = by_stage rs;
  rc_wf : od_wf (ap_counts op);
  rc_counts : ∀ stage, od_get stage (ap_counts op) =
    if decide (stage ∈ targets) then Some (length (replicas s stage) - length (of_stage stage rs)) else None
}.

Lemma recorded_done s targets rs op :
  recorded s targets rs op →
  bool_decide (ap_expected op ⊆ list_to_set (od_keys (ap_results op))) && forallb (fun p => p.2 =? 0) (ap_counts op)
    = bool_decide (results_complete s targets rs).
Proof.
  intros [H1 H2 H3 H4]. rewrite H1, H2. apply eq_true_iff_eq.
  rewrite andb_true_iff, !bool_decide_eq_true, forallb_forall. split.
  - intros [Hk Hc] stage Hs. split.
    + apply by_stage_keys. apply (elem_of_list_to_set (C := gset string)), Hk. by apply elem_of_list_to_set.
    + specialize (H4 stage). rewrite decide_True in H4 by done. apply od_get_elem in H4.
      apply list_elem_of_In, Hc in H4. simpl in H4. apply Nat.eqb_eq in H4. lia.
  - intros Ha. split.
    + intros stage Hs%elem_of_list_to_set. apply elem_of_list_to_set, by_stage_keys. by apply Ha.
    + intros [stage n] Hin%list_elem_of_In. apply (od_elem_get _ _ _ H3) in Hin. rewrite H4 in Hin.
      case_decide as Hs; [|done]. injection Hin as <-. simpl. apply Nat.eqb_eq. destruct (Ha stage Hs). lia.
Qed.

Lemma record_recorded s targets rs op r :
  recorded s targets rs op → recorded s targets (rs ++ [r]) (record_result r op) ∧
  ap_future (record_result r op) =
    (if bool_decide (results_complete s targets (rs ++ [r])) then
       match ap_future op with AFPending => AFResult (by_stage (rs ++ [r])) | f => f end
     else ap_future op).
Proof.
  intros [H1 H2 H3 H4]. set (op' := op <| ap_results := by_stage (rs ++ [r]) |>
    <| ap_counts := match od_get (ar_stage r) (ap_counts op) with
                    | Some n => od_set (ar_stage r) (n - 1) (ap_counts op) | None => ap_counts op end |>).
  assert (recorded s targets (rs ++ [r]) op') as Hr.
  { constructor; unfold op'; fields; try done.
    - destruct (od_get (ar_stage r) (ap_counts op)); [by apply od_set_wf|done].
    - intros stage. rewrite of_stage_snoc. pose proof (H4 stage) as Hst. pose proof (H4 (ar_stage r)) as Hr.
      destruct (decide (ar_stage r = stage)) as [E|Hne].
      + rewrite E in *. rewrite Hr, length_app. simpl. destruct (decide (stage ∈ targets)); [|done].
        rewrite od_get_set. f_equal. lia.
      + rewrite app_nil_r, <- Hst. destruct (od_get (ar_stage r) (ap_counts op)); [|done].
        by rewrite od_get_set_ne by congruence. }
  assert (record_result r op = if bool_decide (results_complete s targets (rs ++ [r]))
    then match ap_future op with AFPending => op' <| ap_future := AFResult (by_stage (rs ++ [r])) |> | _ => op' end
    else op') as ->.
  { pose proof (recorded_done _ _ _ _ Hr) as E. unfold op' in E. fields.
    unfold record_result. rewrite <- E, H2, <- by_stage_snoc. done. }
  case_bool_decide; [|done]. destruct (ap_future op) eqn:Ef; split; try done. by destruct Hr.
Qed.

(** The own results of an operation. *)
Definition own_results (op_id : string) (rs : list AdminResult) : list AdminResult :=
  List.filter (fun r => bool_decide (ar_op_id r = op_id)) rs.

(** What the operation's future is after the results [rs]. *)
Definition answered_as s targets rs (f : AdminFuture) : Prop :=
  (¬ results_complete s targets rs ∧ f = AFPending) ∨
  ∃ pre r post, rs = pre ++ r :: post ∧ ¬ results_complete s targets pre ∧ results_complete s targets (pre ++ [r]) ∧
    f = AFResult (by_stage (pre ++ [r])).

Lemma answered_step s targets rs op r :
  recorded s targets rs op → answered_as s targets rs (ap_future op) →
  answered_as s targets (rs ++ [r]) (ap_future (record_result r op)).
Proof.
  intros Hr Hf. destruct (record_recorded s targets rs op r Hr) as [_ ->].
  destruct Hf as [[Hn ->]|(pre & r' & post & -> & H1 & H2 & ->)].
  - case_bool_decide as Ha; [|by left]. right. by exists rs, r, [].
  - right. exists pre, r', (post ++ [r]). rewrite <- app_assoc. simpl. by case_bool_decide.
Qed.

Definition handle_admin_results (rs : list AdminResult) (ops : Ops) : Ops :=
  foldl (fun ops r => handle_admin_result r ops) ops rs.

Lemma handle_own s targets op_id op0 (ops : Ops) rs :
  ops !! op_id = Some op0 → recorded s targets [] op0 → answered_as s targets [] (ap_future op0) →
  ∃ op, handle_admin_results rs ops !! op_id = Some op ∧ recorded s targets (own_results op_id rs) op ∧
    answered_as s targets (own_results op_id rs) (ap_future op).
Proof.
  intros H0 Hr0 Ha0. induction rs as [|r rs (op & Hop & Hr & Ha)] using rev_ind; [by exists op0|].
  unfold handle_admin_results, own_results in *. rewrite foldl_app, List.filter_app. cbn [foldl List.filter].
  unfold handle_admin_result at 1. rewrite lookup_alter. case_bool_decide as E.
  - rewrite decide_True, E, Hop by done. eexists. split; [done|].
    split; [by apply record_recorded|by apply answered_step].
  - rewrite decide_False, app_nil_r by done. by exists op.
Qed.

(** ** The answer *)

(** The result that stands for a stage: the one of its lowest replica. *)
Definition leading (items : list AdminResult) : option AdminResult := head (stable_sort rank_lt items).

Definition stage_counts (items : list AdminResult) : Prop :=
  ∃ first, leading items = Some first ∧ counts_as_update first = true.

(** The result of a replica is in the answer, alone or among those of its stage. *)
Definition reported_in (item : AdminResult) (d : Data) : Prop :=
  d = result_dict item ∨
  ∃ data l, od_get "data" d = Some (VDict data) ∧ od_get "replica_results" data = Some (VList l) ∧
    VDict (result_dict item) ∈ l.

Lemma merge_spec op_id action stage items :
  items ≠ [] → ∃ item, merge_stage_replica_results op_id action stage items = Ok item ∧
    (ar_success item = true ↔ ∀ r, r ∈ items → ar_success r = true) ∧
    (counts_as_update item = true ↔ stage_counts items) ∧
    (∀ r, r ∈ items → reported_in r (result_dict item)).
Proof.
  intros Hne. destruct items as [|x [|y items]]; [done| |].
  - exists x. split; [done|]. split; [|split].
    + split; [by intros ? r ->%list_elem_of_singleton|]. intros Hr. apply Hr. by left.
    + split; [by exists x|]. by intros (f & [= ->] & ?).
    + intros r ->%list_elem_of_singleton. by left.
  - unfold merge_stage_replica_results. set (l := x :: y :: items) in *. clearbody l. clear x y items.
    pose proof (stable_sort_perm rank_lt l) as Hp. unfold stage_counts, leading.
    destruct (stable_sort rank_lt l) as [|first rest] eqn:Es; [by apply Permutation_nil_l in Hp; subst|].
    eexists. split; [done|]. cbn [ar_success]. split; [|split].
    + rewrite forallb_forall. setoid_rewrite <- list_elem_of_In. by setoid_rewrite Hp.
    + unfold counts_as_update, flag. cbn [ar_data]. rewrite !od_get_set_ne by done. simpl.
      split; [by exists first|]. by intros (f & [= <-] & ?).
    + intros r Hr. right. eexists _, _. split; [done|]. split; [apply od_get_set|].
      apply list_elem_of_fmap. exists r. split; [done|]. by rewrite Hp.
Qed.

Lemma merge_stages_spec op_id action l :
  Forall (fun p => p.2 ≠ []) l → ∃ items, merge_stages op_id action l = Ok items ∧
    Forall2 (fun p item => (ar_success item = true ↔ ∀ r, r ∈ p.2 → ar_success r = true) ∧
      (counts_as_update item = true ↔ stage_counts p.2) ∧
      (∀ r, r ∈ p.2 → reported_in r (result_dict item))) l items.
Proof.
  induction l as [|[stage rs] l IH]; intros Hl; [by exists []|]. inversion Hl as [|? ? Hne Hl']; subst.
  destruct (merge_spec op_id action stage rs Hne) as (item & E & Hi). destruct (IH Hl') as (items & E' & Hi').
  exists (item :: items). simpl. rewrite E. simpl. rewrite E'. split; [done|]. by constructor.
Qed.

Definition answered_stage (items : list AdminResult) : Prop := ∀ r, r ∈ items → ar_success r = true.

(** The replicas of the stage that sent its results, in their order. *)
Definition senders s (stage : string) (rs : list AdminResult) (who : list nat) : Prop :=
  length who = length (of_stage stage rs) ∧ ∀ i, i ∈ who → i < length (replicas s stage).

(** When no replica answers twice, the count is complete when every replica has answered. *)
Lemma complete_all s targets rs (who : string → list nat) :
  (∀ stage, stage ∈ targets → senders s stage rs (who stage) ∧ NoDup (who stage)) →
  results_complete s targets rs ↔
  ∀ stage, stage ∈ targets → of_stage stage rs ≠ [] ∧ ∀ i, i < length (replicas s stage) → i ∈ who stage.
Proof.
  intros Hwho. unfold results_complete. split; intros Hc stage Hs; destruct (Hc stage Hs) as [H1 H2];
    (split; [done|]); destruct (Hwho stage Hs) as [[Hlen Hlt] Hnd].
  - assert (who stage ⊆+ seq 0 (length (replicas s stage))) as Hsub.
    { apply NoDup_submseteq; [done|]. intros i Hi%Hlt. apply elem_of_seq. lia. }
    apply submseteq_length_Permutation in Hsub; [|rewrite length_seq, Hlen; lia].
    intros i Hi. rewrite Hsub. apply elem_of_seq. lia.
  - rewrite <- Hlen. assert (seq 0 (length (replicas s stage)) ⊆+ who stage) as Hsub.
    { apply NoDup_submseteq; [apply NoDup_seq|]. intros i [_ Hi]%elem_of_seq. apply H2. lia. }
    apply submseteq_length in Hsub. by rewrite length_seq in Hsub.
Qed.

(** ** Theorems *)

(** C30: Whatever results of other operations come in between, the future of an administrative
    operation is pending until as many results have come for every target stage as it has
    replicas, and the result that completes the count sets it to the results by stage, each in
    the order they came; if no replica answers twice, that is when every replica of every target
    stage has answered. *)
Theorem admin_answered_by_all s stages action targets op_id (ops : Ops) rs :
  admin_targets s stages = Ok targets →
  let own := own_results op_id rs in
  ∃ op, handle_admin_results rs (admin_begin op_id (new_admin_op s action targets) ops) !! op_id = Some op ∧
    answered_as s targets own (ap_future op) ∧
    (results_complete s targets own → ap_future op ≠ AFPending) ∧
    (∀ who : string → list nat,
       (∀ stage, stage ∈ targets → senders s stage own (who stage) ∧ NoDup (who stage)) →
       ap_future op ≠ AFPending ↔
       ∀ stage, stage ∈ targets →
         of_stage stage own ≠ [] ∧ ∀ i, i < length (replicas s stage) → i ∈ who stage) ∧
    (∀ stage, od_get stage (by_stage own) =
       if decide (of_stage stage own = []) then None else Some (of_stage stage own)).
Proof.
  intros Ht own. assert (targets ≠ []) as Hne.
  { unfold admin_targets in Ht. destruct (raise_if _ _); [|done]. simpl in Ht.
    destruct (resolve_admin_stages s stages) as [l|]; [|done]. simpl in Ht.
    case_bool_decide; [done|]. simpl in Ht. congruence. }
  destruct (handle_own s targets op_id (new_admin_op s action targets)
    (admin_begin op_id (new_admin_op s action targets) ops) rs) as (op & Hop & _ & Ha).
  - apply lookup_insert_eq.
  - destruct (counts_spec s targets) as [H1 H2]. constructor; try done. intros stage.
    unfold new_admin_op. fields. rewrite H2. simpl. by rewrite Nat.sub_0_r.
  - left. split; [|done]. intros Hall. destruct targets as [|stage targets]; [done|].
    destruct (Hall stage) as [H _]; [by left|]. by apply H.
  - exists op. split; [exact Hop|]. split; [exact Ha|]. fold own in Ha.
    assert (ap_future op ≠ AFPending ↔ results_complete s targets own) as Hiff.
    { destruct Ha as [[Hn ->]|(pre & r & post & Eo & _ & Hc & ->)]; [naive_solver|]. split; [|done].
      intros _. rewrite Eo. replace (pre ++ r :: post) with ((pre ++ [r]) ++ post) by by rewrite <- app_assoc.
      by apply results_complete_app. }
    split; [by rewrite Hiff|]. split; [|apply by_stage_get].
    intros who Hwho. rewrite Hiff. by apply complete_all.
Qed.

(** What the aggregated reply says of the results. *)
Theorem admin_reply_sound op_id action l :
  Forall (fun p => p.2 ≠ []) l →
  ∃ reply, aggregate_admin_results op_id action l = Ok reply ∧
    (rp_success reply = true ↔
      if is_update_action action
      then (∃ p, p ∈ l ∧ stage_counts p.2) ∧ (∀ p, p ∈ l → stage_counts p.2 → answered_stage p.2)
      else ∀ p, p ∈ l → answered_stage p.2) ∧
    (rp_success reply = true → rp_message reply = "ok") ∧
    (∀ p r, p ∈ l → r ∈ p.2 → ∃ d, d ∈ rp_results reply ∧ reported_in r d).
Proof.
  intros Hl. destruct (merge_stages_spec op_id action l Hl) as (items & E & Hi).
  unfold aggregate_admin_results. rewrite E. simpl. eexists. split; [done|]. cbn [rp_success rp_message rp_results].
  assert (∀ p, p ∈ l → ∃ item, item ∈ items ∧ (ar_success item = true ↔ answered_stage p.2) ∧
    (counts_as_update item = true ↔ stage_counts p.2) ∧ (∀ r, r ∈ p.2 → reported_in r (result_dict item))) as Hto.
  { intros p [i Hp]%list_elem_of_lookup. destruct (Forall2_lookup_l _ _ _ _ _ Hi Hp) as (item & Hl' & H).
    exists item. split; [by eapply list_elem_of_lookup_2|exact H]. }
  assert (∀ item, item ∈ items → ∃ p, p ∈ l ∧ (ar_success item = true ↔ answered_stage p.2) ∧
    (counts_as_update item = true ↔ stage_counts p.2)) as Hfrom.
  { intros item [i Hp]%list_elem_of_lookup. destruct (Forall2_lookup_r _ _ _ _ _ Hi Hp) as (p & Hl' & H1 & H2 & _).
    exists p. split; [by eapply list_elem_of_lookup_2|done]. }
  split; [|split].
  - destruct (is_update_action action).
    + rewrite andb_true_iff, negb_true_iff, bool_decide_eq_false, forallb_forall. split.
      * intros [Hne Hall]. split.
        -- destruct (List.filter counts_as_update items) as [|item rest] eqn:Ef; [done|].
           assert (item ∈ List.filter counts_as_update items) as Hin by (rewrite Ef; by left).
           apply list_elem_of_In, filter_In in Hin as [Hin Hc]. apply list_elem_of_In in Hin.
           destruct (Hfrom item Hin) as (p & Hp & _ & H2). exists p. split; [done|by apply H2].
        -- intros p Hp Hc. destruct (Hto p Hp) as (item & Hin & H1 & H2 & _). apply H1, Hall, filter_In.
           split; [by apply list_elem_of_In|by apply H2].
      * intros [(p & Hp & Hc) Hall]. split.
        -- destruct (Hto p Hp) as (item & Hin & _ & H2 & _). intros Hnil.
           assert (In item (List.filter counts_as_update items)) as H by
             (apply filter_In; split; [by apply list_elem_of_In|by apply H2]).
           rewrite Hnil in H. by destruct H.
        -- intros item [Hin Hc']%filter_In. apply list_elem_of_In in Hin.
           destruct (Hfrom item Hin) as (p' & Hp' & H1 & H2). apply H1, Hall; [done|by apply H2].
    + rewrite forallb_forall. split.
      * intros Hall p Hp. destruct (Hto p Hp) as (item & Hin & H1 & _). apply H1, Hall. by apply list_elem_of_In.
      * intros Hall item Hin%list_elem_of_In. destruct (Hfrom item Hin) as (p & Hp & H1 & _). by apply H1, Hall.
  - by intros ->.
  - intros p r Hp Hr. destruct (Hto p Hp) as (item & Hin & _ & _ & H). exists (result_dict item).
    split; [|by apply H]. apply list_elem_of_fmap. by exists item.
Qed.
End Reply.

(** ** Examples *)

Definition demo_stages : Coord nat nat unit :=
  let replica rank := {| ri_dp_rank := rank; ri_endpoint := "e"; ri_inflight := 0; ri_capacity := None |} in
  new_coordinator "in" [] <| k_stages := [("b", [replica 0; replica 1]); ("a", [replica 0])] |>.

Definition demo_result (stage : string) (rank : option Z) (success : bool) (error : option string) : AdminResult :=
  {| ar_op_id := "op"; ar_stage := stage; ar_action := "pause_generation"; ar_success := success; ar_message := "";
     ar_data := []; ar_error := error; ar_rank := None; ar_role := None; ar_dp_rank := rank |}.

Lemma admin_answered_by_all_witness :
  admin_targets demo_stages None = Ok ["a"; "b"] ∧
  ∃ op, handle_admin_results [demo_result "b" (Some 1%Z) true None; demo_result "a" None true None;
      demo_result "b" (Some 0%Z) false (Some "busy")]
      (admin_begin "op" (new_admin_op demo_stages "pause_generation" ["a"; "b"]) ∅) !! "op" = Some op ∧
    ap_future op ≠ AFPending.
Proof.
  assert (admin_targets demo_stages None = Ok ["a"; "b"]) as Ht by (vm_compute; reflexivity).
  split; [exact Ht|].
  destruct (admin_answered_by_all demo_stages None "pause_generation" ["a"; "b"] "op" ∅
    [demo_result "b" (Some 1%Z) true None; demo_result "a" None true None;
      demo_result "b" (Some 0%Z) false (Some "busy")] Ht) as (op & H1 & _ & H2 & _).
  exists op. split; [exact H1|]. apply H2.
  apply (bool_decide_unpack _). vm_compute. exact I.
Defined.

Lemma admin_reply_sound_witness :
  ∃ reply, aggregate_admin_results "op" "pause_generation"
      [("b", [demo_result "b" (Some 1%Z) true None; demo_result "b" (Some 0%Z) false (Some "busy")])] = Ok reply ∧
    (rp_success reply = true ↔ answered_stage
      [demo_result "b" (Some 1%Z) true None; demo_result "b" (Some 0%Z) false (Some "busy")]).
Proof.
  destruct (admin_reply_sound "op" "pause_generation"
    [("b", [demo_result "b" (Some 1%Z) true None; demo_result "b" (Some 0%Z) false (Some "busy")])])
    as (reply & H1 & H2 & _ & _).
  - by repeat constructor.
  - exists reply. split; [exact H1|]. rewrite H2. vm_compute (is_update_action _). cbv iota.
    split; [intros H; apply (H ("b", _)); by left|]. intros H p ->%list_elem_of_singleton. exact H.
Defined.
