(* ===== verification/CoordEdge.v ===== *)
(** * The pipeline coordinator: corner cases

    Runs of the model that show where the code falls short of what it means to do: a slot lost to
    a resolver's error, an identifier lost to a failed send, a late failure that drops another
    request, and a stream that waits for stages its request does not have. *)
From S2P Require Import Prelude Odict Coord CoordOps CoordSteps CoordSafe CoordOcc.

(** The events of [evs], with the resolver. *)
Definition resolver_run (resolver : option (unit → result (option (list string)))) (evs : list (Event nat nat unit))
    : World nat nat unit :=
  default (started "in" ["t"; "u"] demo_registrations)
    (steps resolver evs (started "in" ["t"; "u"] demo_registrations)).

Definition failing_resolver : option (unit → result (option (list string))) :=
  Some (fun _ => Raise (ValueError "no such output")).

Definition narrowing_resolver : option (unit → result (option (list string))) :=
  Some (fun _ => Ok (Some ["t"])).

(** A submission whose terminal stages cannot be resolved is refused, and its slot stays taken. *)
Example resolver_error_leaks_slot :
  let w := resolver_run failing_resolver [ESubmit "a" tt None] in
  w_outcomes w !! 0 = Some (Raise (ValueError "no such output")) ∧
  k_requests (w_coord w) = [] ∧
  map ri_inflight (entry_replicas (w_coord w)) = [1; 0].
Proof. vm_compute. repeat split. Qed.

(** A submission whose message could not be sent has left, and its identifier stays reserved. *)
Example failed_send_keeps_identifier :
  let w := resolver_run None [ESubmit "a" tt None; ESendFailed 0 (OtherError "ZMQError"); ESubmit "a" tt None] in
  w_outcomes w !! 0 = Some (Raise (OtherError "ZMQError")) ∧
  w_outcomes w !! 3 = Some (Raise (ValueError "Request a already exists")) ∧
  w_tasks w = ∅ ∧ tracked (w_coord w) "a" = true.
Proof. vm_compute. repeat split. Qed.

(** The failure of a request that was aborted meanwhile is charged to its successor: the new
    request of the same identifier is dropped, with the old error. *)
Definition late_failure : list (Event nat nat unit) :=
  [ESubmit "a" tt None; ESent 0; EAbort "a";
   ERecv {| cm_request_id := "a"; cm_from_stage := "t"; cm_success := false; cm_result := None; cm_error := Some "boom" |};
   EBroadcast 3 None; EAbortDone "a" 3; EResult 0;
   ESubmit "a" tt None; ESent 4; ELoopBroadcast None].

Example late_failure_drops_successor :
  let w := resolver_run None late_failure in
  tracked (w_coord w) "a" = false ∧
  k_futures (w_coord w) !! 6 = Some (FException (RuntimeError "boom")) ∧
  map ri_inflight (entry_replicas (w_coord w)) = [0; 1].
Proof. vm_compute. repeat split. Qed.

(** A stream whose request completes before its submission returns takes the static terminal
    stages for its own, and waits for a stage that will not answer. *)
Example narrowed_stream_waits :
  let w := resolver_run narrowing_resolver
    [EStream "a" tt None; ERecv (demo_message "a" "t" 1); ESent 0; ENext 0; ENext 0] in
  w_tasks w !! 0 = Some (TStream "a" 1 {["t"; "u"]} {["t"]} None) ∧
  k_queues (w_coord w) !! 1 = Some [] ∧ tracked (w_coord w) "a" = false.
Proof. vm_compute. repeat split. Qed.
