(* ===== verification/Edge.v ===== *)
(** * Edge sessions: one websocket session

    Models [VideoRealtimeSession] ([src/sglang_omni/serve/video_realtime.py]): the client's
    messages, the session's state and the pieces of its coroutines between two suspensions.
    [EdgeSteps] puts the pieces together.

    JSON decoding and the typing of fields are done by the standard library and pydantic: a
    message arrives with typed fields, and the bounds pydantic checks are checked here.  Strings
    are ASCII.  An [asyncio.Event] is an identity in [e_events]; frames live in the [FrameStore];
    what the session hands to the model and to the client is logged ([e_submitted], [e_sent]).
    [asyncio.Condition] is never held over a suspension, so its bodies are atomic. *)
From S2P Require Import Prelude PyNum Payload FrameStore.
From Stdlib Require Import Ascii SpecFloat.
Local Open Scope Z_scope.

Definition MAX_INPUT_QUEUE_CAPACITY : Z := 256.

(** ** Client messages *)

(** [value.strip()] is empty. *)
Definition is_space (c : ascii) : bool :=
  bool_decide (code c ∈ [9; 10; 11; 12; 13; 28; 29; 30; 31; 32]%nat).
Definition blank (s : string) : bool := forallb is_space (chars s).

Record Configure : Type := {
  cf_prompt : string; cf_system_prompt : option string; cf_prefill_messages : option (list (string * string));
  cf_max_new_tokens : Z; cf_max_tokens_per_turn : pyfloat; cf_temperature : pyfloat; cf_top_p : pyfloat;
  cf_input_queue_capacity : Z; cf_benchmark_ignore_eos : bool; cf_include_usage : bool
}.

Record FrameMeta : Type := {
  fm_seq_no : Z; fm_timestamp : pyfloat; fm_prompt : option string; fm_final : bool
}.

Record PromptInput : Type := { pi_seq_no : Z; pi_prompt : string; pi_final : bool }.

Inductive ClientMessage : Type :=
| MConfigure (c : Configure)
| MFrame (m : FrameMeta)
| MPrompt (p : PromptInput)
| MAbort
| MUnsupported
| MInvalid (msg : string).

Definition f_nonneg (f : pyfloat) : bool := num_le (NInt 0) (NFloat f).
Definition f_positive (f : pyfloat) : bool := num_lt (NInt 0) (NFloat f).

Definition text_length (s : string) : Z := Z.of_nat (String.length s).

(** The fields of [VideoSessionConfigure]. *)
Definition validate_configure (c : Configure) : result Configure :=
  let prefill_ok := match cf_prefill_messages c with
    | None => true
    | Some l => (1 <=? zlength l) && (zlength l <=? 64) && forallb (fun m => text_length m.2 <=? 131072) l
                && (foldr (fun m n => text_length m.2 + n) 0 l <=? 131072)
    end in
  if prefill_ok && (0 <? cf_max_new_tokens c) && f_positive (cf_max_tokens_per_turn c)
     && f_finite (cf_max_tokens_per_turn c)
     && f_nonneg (cf_temperature c) && num_le (NFloat (cf_temperature c)) (NInt 2)
     && f_positive (cf_top_p c) && num_le (NFloat (cf_top_p c)) (NInt 1)
     && (1 <=? cf_input_queue_capacity c) && (cf_input_queue_capacity c <=? MAX_INPUT_QUEUE_CAPACITY)
  then Ok c else Raise (ValueError "ValidationError").

(** [VideoFrameMetadata], with its normalised prompt. *)
Definition validate_frame (m : FrameMeta) : result FrameMeta :=
  if (0 <=? fm_seq_no m) && f_nonneg (fm_timestamp m)
  then Ok {| fm_seq_no := fm_seq_no m; fm_timestamp := fm_timestamp m;
             fm_prompt := match fm_prompt m with
                          | Some value => if blank value then None else Some value
                          | None => None
                          end;
             fm_final := fm_final m |}
  else Raise (ValueError "ValidationError").

(** [VideoPromptInput]. *)
Definition validate_prompt (p : PromptInput) : result PromptInput :=
  if (0 <=? pi_seq_no p) && negb (String.eqb (pi_prompt p) "") && negb (blank (pi_prompt p))
  then Ok p else Raise (ValueError "ValidationError").

(** ** Messages to the client *)

Inductive OutMsg : Type :=
| OCreated
| OConfigured (capacity : Z)
| OReady (turn_id : Z)
| OFrameReady (seq_no : Z)
| OFrameAccepted (seq_no : Z) (timestamp : pyfloat) (final : bool) (pending : nat) (interrupts : bool)
| OPromptAccepted (seq_no : Z) (final : bool) (pending : nat)
| OUsage
| OInterrupted (turn_id next_turn_id seq_no : Z)
| OSilence (turn_id : Z) (seq_no : option Z) (timestamp : option num) (silence_seq : Z)
| OProcessed (frame : bool) (seq_no : Z) (timestamp : num) (final : bool) (pending : nat)
    (turns : option (Z * Z))
| ODelta (delta : string) (turn_id : Z)
| ODone (finish_reason : string) (turn_id : Z)
| OSessionDone (aborted : bool)
| OError (error_code message : string).

(** What the model reports: a chunk of [client.generate]. *)
Inductive Chunk : Type :=
| KUsage
| KReady (turn_id : Z)
| KInterrupted (turn_id next_turn_id seq_no : Z)
| KSilence (turn_id : Z) (seq_no : option Z) (timestamp : option num) (silence_seq : Z)
| KProcessed (frame : bool) (seq_no : Z) (timestamp : num) (final : bool) (turns : option (Z * Z))
| KText (text : string) (finish_reason : option string) (turn_id : option Z).

(** ** The session *)

Record Edge : Type := {
  e_allow_benchmark : bool;
  e_pending_frame : option FrameMeta;
  e_capacity : Z;
  e_outstanding : gset Z;
  e_accepted : gmap Z nat;
  e_frame_refs : gmap Z string;
  e_last_timestamp : pyfloat;
  e_next_seq_no : Z;
  e_configured : bool;
  e_ready : bool;
  e_turn : Z;
  e_final_received : bool;
  e_request_finished : bool;
  e_abort_sent : bool;
  e_closed : bool;
  e_streamed : string;
  e_store : Store;
  e_next : nat;
  e_events : gmap nat bool;
  e_submitted : list FramePromptEvent;
  e_sent : list OutMsg
}.

#[global] Instance eta_Edge : Eta Edge := fun s =>
  {| e_allow_benchmark := e_allow_benchmark s; e_pending_frame := e_pending_frame s;
     e_capacity := e_capacity s; e_outstanding := e_outstanding s; e_accepted := e_accepted s;
     e_frame_refs := e_frame_refs s; e_last_timestamp := e_last_timestamp s;
     e_next_seq_no := e_next_seq_no s; e_configured := e_configured s; e_ready := e_ready s;
     e_turn := e_turn s; e_final_received := e_final_received s;
     e_request_finished := e_request_finished s; e_abort_sent := e_abort_sent s;
     e_closed := e_closed s; e_streamed := e_streamed s; e_store := e_store s; e_next := e_next s;
     e_events := e_events s; e_submitted := e_submitted s; e_sent := e_sent s |}.

(** [__init__]. *)
Definition new_edge (allow_benchmark : bool) (store : Store) : Edge :=
  {| e_allow_benchmark := allow_benchmark; e_pending_frame := None; e_capacity := 4;
     e_outstanding := ∅; e_accepted := ∅; e_frame_refs := ∅; e_last_timestamp := S754_zero false;
     e_next_seq_no := 0; e_configured := false; e_ready := false; e_turn := 0;
     e_final_received := false; e_request_finished := false; e_abort_sent := false; e_closed := false;
     e_streamed := ""; e_store := store; e_next := 0; e_events := ∅; e_submitted := []; e_sent := [] |}.

Abbreviation ME := (M Edge).

Definition set_closed : ME unit := assign_to e_closed true.

(** A message reached the client. *)
Definition log_sent (m : OutMsg) : ME unit := modify (fun s => s <| e_sent := e_sent s ++ [m] |>).

Definition on_store {A} (m : M Store A) : ME A := zoom e_store (fun st s => s <| e_store := st |>) m.

(** ** Credits *)

Definition pending_events (s : Edge) : nat := size (e_outstanding s).

(** What [_reserve_input] waits for. *)
Definition has_credit (s : Edge) : bool := e_closed s || (Z.of_nat (pending_events s) <? e_capacity s).

(** The rest of [_reserve_input]. *)
Definition reserve_input (seq_no : Z) : ME unit :=
  s ← get;
  _ ← guard_raise (e_closed s) (RuntimeError "realtime session is closed");
  _ ← guard_raise (bool_decide (seq_no ∈ e_outstanding s)) (ValueError "event is already pending");
  modify (fun s => s <| e_outstanding := {[seq_no]} ∪ e_outstanding s |>
                     <| e_accepted := <[seq_no := e_next s]> (e_accepted s) |>
                     <| e_events := <[e_next s := false]> (e_events s) |> <| e_next := S (e_next s) |>).

(** [accepted.set()] of the event registered for [seq_no], if there is one. *)
Definition set_accepted (seq_no : Z) : ME unit :=
  modify (fun s => match e_accepted s !! seq_no with
                   | Some v => s <| e_events := <[v := true]> (e_events s) |>
                   | None => s
                   end).

(** [_release_input]. *)
Definition release_input (seq_no : Z) : ME unit :=
  _ ← modify (fun s => s <| e_outstanding := e_outstanding s ∖ {[seq_no]} |>);
  _ ← set_accepted seq_no;
  modify (fun s => s <| e_accepted := delete seq_no (e_accepted s) |>).

(** [_close_input_queue]. *)
Definition close_input_queue : ME unit :=
  _ ← (s ← get; mforeach (fun p => set_accepted p.1) (map_to_list (e_accepted s)));
  modify (fun s => s <| e_accepted := ∅ |> <| e_outstanding := ∅ |>).

(** [_validate_event_order]. *)
Definition validate_event_order (seq_no : Z) (timestamp : pyfloat) : ME unit :=
  s ← get;
  _ ← guard_raise (negb (seq_no =? e_next_seq_no s)) (ValueError "unexpected seq_no");
  guard_raise (f_lt timestamp (e_last_timestamp s)) (ValueError "timestamp moved backwards").

(** ** Inputs *)

(** [configure] up to its [await]. *)
Definition configure (c : Configure) : ME OutMsg :=
  s ← get;
  _ ← guard_raise (e_configured s) (ValueError "session is already configured");
  _ ← guard_raise (cf_benchmark_ignore_eos c && negb (e_allow_benchmark s))
        (ValueError "benchmark_ignore_eos requires server benchmark mode");
  _ ← assign_to e_capacity (cf_input_queue_capacity c);
  _ ← assign_to e_configured true;
  mret (OConfigured (cf_input_queue_capacity c)).

(** The guards [prepare_frame] and [handle_prompt] share. *)
Definition input_guards : ME unit :=
  s ← get;
  _ ← guard_raise (negb (e_configured s)) (ValueError "configure the session first");
  _ ← guard_raise (negb (e_ready s)) (ValueError "wait for session.ready");
  _ ← guard_raise (e_final_received s) (ValueError "session already received its final event");
  guard_raise (bool_decide (is_Some (e_pending_frame s)))
    (ValueError "previous frame metadata is still awaiting binary data").

(** [prepare_frame] before and after its wait for credit. *)
Definition prepare_frame (m : FrameMeta) : ME unit :=
  _ ← input_guards; validate_event_order (fm_seq_no m) (fm_timestamp m).

Definition frame_reserved (m : FrameMeta) : ME OutMsg :=
  _ ← reserve_input (fm_seq_no m);
  _ ← assign_to e_pending_frame (Some m);
  mret (OFrameReady (fm_seq_no m)).

(** [handle_prompt] before its wait for credit. *)
Definition prepare_prompt (p : PromptInput) : ME unit :=
  _ ← input_guards; s ← get; validate_event_order (pi_seq_no p) (e_last_timestamp s).

(** A [VideoRealtimeSubmissionError], which ends the session. *)
Definition submission_error (what : string) : pyexn := OtherError ("VideoRealtimeSubmissionError: " ++ what).
Definition is_submission_error (e : pyexn) : bool :=
  match e with OtherError m => String.prefix "VideoRealtimeSubmissionError" m | _ => false end.

(** The event under submission. *)
Record Submission : Type := {
  sb_seq_no : Z; sb_final : bool; sb_interrupts : bool;
  (** of a frame: its timestamp and its reference *)
  sb_frame : option (pyfloat * string)
}.

Section Session.
Context (request_id session_id : string).
Context (bracketed_ok : list ascii → bool) (new_name : gmap string bytes → result string).
Context (sha256 : bytes → string).

(** [FramePromptEvent(...)]. *)
Definition session_event (seq_no : Z) (timestamp : pyfloat) (frame_ref prompt : option string) (final : bool)
    (fingerprint : option string) : result FramePromptEvent :=
  make_event (VStr request_id) (VStr session_id) (VNum (NInt seq_no)) (VNum (NFloat timestamp))
    (opt_text frame_ref) (opt_text prompt) (VBool final) (opt_text fingerprint).

(** [self.client.update_request(...)], started. *)
Definition submit_event (ev : FramePromptEvent) : ME unit :=
  _ ← lift (to_dict ev);
  modify (fun s => s <| e_submitted := e_submitted s ++ [ev] |>).

(** The error path of a submission. *)
Definition submission_failed (sb : Submission) : ME unit :=
  _ ← release_input (sb_seq_no sb);
  _ ← match sb_frame sb with
      | Some (_, ref) =>
          _ ← modify (fun s => s <| e_frame_refs := delete (sb_seq_no sb) (e_frame_refs s) |>);
          on_store (discard bracketed_ok request_id ref)
      | None => mret tt
      end;
  throw (submission_error "failed to submit event").

(** [handle_prompt] after its wait for credit, up to the submission. *)
Definition prompt_reserved (p : PromptInput) : ME Submission :=
  _ ← reserve_input (pi_seq_no p);
  s ← get;
  let sb := {| sb_seq_no := pi_seq_no p; sb_final := pi_final p; sb_interrupts := true; sb_frame := None |} in
  ev ← try_except (lift (session_event (pi_seq_no p) (e_last_timestamp s) None (Some (pi_prompt p)) (pi_final p) None))
         (fun e => _ ← release_input (pi_seq_no p); throw e);
  _ ← try_except (submit_event ev) (fun _ => submission_failed sb);
  mret sb.

(** [self.frame_store.put(...)] with its handlers. *)
Definition store_frame (m : FrameMeta) (payload : bytes) : ME string :=
  try_except (on_store (put_frame new_name request_id payload))
    (fun e => _ ← release_input (fm_seq_no m);
              match e with
              | ValueError _ => throw e
              | _ => throw (submission_error "failed to store frame event")
              end).

(** [handle_frame_bytes] up to the submission. *)
Definition handle_frame_bytes (payload : bytes) : ME Submission :=
  s ← get;
  match e_pending_frame s with
  | None => throw (ValueError "binary frame must follow input.frame metadata")
  | Some m =>
      _ ← assign_to e_pending_frame None;
      ref ← store_frame m payload;
      ev ← try_except (lift (session_event (fm_seq_no m) (fm_timestamp m) (Some ref) (fm_prompt m) (fm_final m)
                               (Some (sha256 payload))))
             (fun e => _ ← release_input (fm_seq_no m); _ ← on_store (discard bracketed_ok request_id ref); throw e);
      _ ← modify (fun s => s <| e_frame_refs := <[fm_seq_no m := ref]> (e_frame_refs s) |>);
      let sb := {| sb_seq_no := fm_seq_no m; sb_final := fm_final m;
                   sb_interrupts := bool_decide (is_Some (fm_prompt m)); sb_frame := Some (fm_timestamp m, ref) |} in
      _ ← try_except (submit_event ev) (fun _ => submission_failed sb);
      mret sb
  end.

(** The submission was taken: the message that says so. *)
Definition submitted (sb : Submission) : ME OutMsg :=
  _ ← modify (fun s => s <| e_next_seq_no := e_next_seq_no s + 1 |> <| e_final_received := sb_final sb |>);
  _ ← match sb_frame sb with
      | Some (timestamp, _) => assign_to e_last_timestamp timestamp
      | None => mret tt
      end;
  s ← get;
  mret (match sb_frame sb with
        | Some (timestamp, _) =>
            OFrameAccepted (sb_seq_no sb) timestamp (sb_final sb) (pending_events s) (sb_interrupts sb)
        | None => OPromptAccepted (sb_seq_no sb) (sb_final sb) (pending_events s)
        end).

(** ** Chunks of the response *)

(** The event of [accepted_by_seq] that [stream_response] awaits before it handles the chunk. *)
Definition awaited (s : Edge) (k : Chunk) : option nat :=
  match k with
  | KInterrupted _ _ seq_no | KProcessed _ seq_no _ _ _ => e_accepted s !! seq_no
  | _ => None
  end.

(** A frame the model has consumed. *)
Definition forget_frame (seq_no : Z) : ME unit :=
  s ← get;
  _ ← modify (fun s => s <| e_frame_refs := delete seq_no (e_frame_refs s) |>);
  match e_frame_refs s !! seq_no with
  | Some ref => on_store (forget bracketed_ok request_id ref)
  | None => mret tt
  end.

(** [text] without the text already streamed, in a terminal chunk. *)
Definition terminal_text (streamed text : string) : string :=
  if negb (String.eqb text "") && negb (String.eqb streamed "") && String.prefix streamed text
  then String.substring (String.length streamed) (String.length text - String.length streamed) text
  else text.

(** A chunk, once its event was accepted: the messages it sends. *)
Definition handle_chunk (k : Chunk) : ME (list OutMsg) :=
  match k with
  | KUsage => mret [OUsage]
  | KReady turn_id => _ ← assign_to e_ready true; mret [OReady turn_id]
  | KInterrupted turn_id next_turn_id seq_no => mret [OInterrupted turn_id next_turn_id seq_no]
  | KSilence turn_id seq_no timestamp silence_seq => mret [OSilence turn_id seq_no timestamp silence_seq]
  | KProcessed frame seq_no timestamp final turns =>
      _ ← forget_frame seq_no;
      _ ← release_input seq_no;
      s ← get;
      _ ← match turns with
          | Some (_, turn_id) => assign_to e_turn turn_id
          | None => mret tt
          end;
      mret [OProcessed frame seq_no timestamp final (pending_events s) turns]
  | KText text finish_reason turn_id =>
      s ← get;
      let delta := match finish_reason with None => text | Some _ => terminal_text (e_streamed s) text end in
      _ ← (match finish_reason with None => assign_to e_streamed (e_streamed s +:+ text) | Some _ => mret tt end);
      mret ((if String.eqb delta "" then [] else [ODelta delta (default (e_turn s) turn_id)])
            ++ match finish_reason with Some reason => [ODone reason (e_turn s)] | None => [] end)
  end.

(** The response ended. *)
Definition response_ended : ME unit :=
  _ ← assign_to e_request_finished true;
  on_store (cleanup request_id).

(** [_release_local_resources], once the response task is over. *)
Definition release_local_resources : ME unit :=
  _ ← on_store (cleanup request_id);
  _ ← modify (fun s => s <| e_frame_refs := ∅ |> <| e_pending_frame := None |>);
  close_input_queue.
End Session.
