(* ===== verification/EdgeSteps.v ===== *)
(** * Edge sessions: interleavings

    The coroutines of [VideoRealtimeSession]: [_receive_inputs], [_process_inputs],
    [stream_response], and [run] with its teardown.  A [World] is the session with the place each
    of them is suspended at; an [Event] resumes one, with what it was waiting for, and runs it to
    its next suspension ([step]).  Any order of events is possible.

    A send that fails raises [RuntimeError] when the websocket is closed, or an error nothing
    catches ([OSError], [WebSocketDisconnect]).  [run] leaves its wait when the receiver or the
    worker is over ([EFinish]) or when it is itself cancelled ([EInterrupted]).  Cancelling a coroutine ends it where it is
    suspended: no handler of the session catches [CancelledError]. *)
From S2P Require Import Prelude PyNum Payload FrameStore Edge.
From Stdlib Require Import Ascii.
Local Open Scope Z_scope.

(** What the client's message comes to. *)
Inductive Raw : Type :=
| RawDisconnect
| RawOther
| RawBytes (payload : bytes)
| RawInvalid (message : string)
| RawJson (m : ClientMessage).

Inductive Input : Type := InBytes (payload : bytes) | InJson (m : ClientMessage).

(** A validated input that waits for credit. *)
Inductive Waiting : Type := WaitFrame (m : FrameMeta) | WaitPrompt (p : PromptInput).

(** [_process_inputs]. *)
Inductive Worker : Type :=
| WNone
| WIdle
| WConfigured (m : OutMsg)
| WCredit (x : Waiting)
| WFrameReady (m : OutMsg)
| WSubmitting (sb : Submission)
| WAccepting (seq_no : Z) (m : OutMsg)
| WAborting
| WRejecting (close : bool) (m : OutMsg)
| WDone.

(** [_receive_inputs]. *)
Inductive Receiver : Type := RWaiting | RRejecting (stop : bool) (m : OutMsg) | RDone.

(** [stream_response]. *)
Inductive Responder : Type :=
| PNone
| PChunk
| PAccepted (event : nat) (k : Chunk)
| PSending (m : OutMsg) (rest : list OutMsg)
| PFinishing
| PRejecting (m : OutMsg)
| PClosing
| PDone.

(** [run] and [_teardown]. *)
Inductive Phase : Type :=
| PhCreating | PhRunning | PhStopping | PhCancelling | PhAborting | PhNotifying | PhClosing | PhEnded.

Record World : Type := {
  x_edge : Edge; x_inputs : list Input; x_worker : Worker; x_receiver : Receiver;
  x_responder : Responder; x_phase : Phase
}.

#[global] Instance eta_EdgeWorld : Eta World := fun w =>
  {| x_edge := x_edge w; x_inputs := x_inputs w; x_worker := x_worker w; x_receiver := x_receiver w;
     x_responder := x_responder w; x_phase := x_phase w |}.

(** How a send, or another awaited call, came back. *)
Inductive Back : Type := Returned | RaisedRuntime (message : string) | RaisedOther.

Inductive Event : Type :=
| ECreated (b : Back)
| EReceive (raw : Raw)
| ETimeout
| EReceiverSent (delivered : bool)
| EInput
| ECredit
| EWorkerBack (b : Back)
| EWorkerSent (delivered : bool)
| EChunk (k : Chunk)
| EChunkError (message : string)
| EChunksEnd
| EAccepted
| EResponderBack (b : Back)
| EResponderSent (delivered : bool)
| EFinish
| EInterrupted
| ECancel
| ETeardown
| EAbortBack
| ENotified (delivered : bool)
| EWebsocketClosed.

Section Steps.
Context (request_id session_id : string).
Context (bracketed_ok : list ascii → bool) (new_name : gmap string bytes → result string).
Context (sha256 : bytes → string).

Definition run {A} (f : ME A) (w : World) : result A * World :=
  let '(r, s) := f (x_edge w) in (r, w <| x_edge := s |>).

Definition exec (f : ME unit) (w : World) : World := (run f w).2.

Definition deliver (delivered : bool) (m : OutMsg) (w : World) : World :=
  if delivered then exec (log_sent m) w else w.

(** [str(exc)]. *)
Definition exn_text (e : pyexn) : string :=
  match e with
  | TypeError m | ValueError m | RuntimeError m | KeyError m | IndexError m | AssertionError m
  | OverflowError m | FileNotFoundError m | ContextExhaustedError m | TimeoutError m | OtherError m => m
  end.

(** ** The worker *)

(** The head of its loop. *)
Definition worker_loop (w : World) : World :=
  w <| x_worker := if e_closed (x_edge w) then WDone else WIdle |>.

(** Its handlers: a submission error ends the session, the errors of an input are reported, any
    other ends the coroutine. *)
Definition worker_raised (e : pyexn) (w : World) : World :=
  w <| x_worker :=
    if is_submission_error e then WRejecting true (OError "input_submission_failed" (exn_text e))
    else match e with
         | TypeError _ | ValueError _ | RuntimeError _ => WRejecting false (OError "invalid_request" (exn_text e))
         | _ => WDone
         end |>.

Definition worker_step {A} (f : ME A) (next : A → World → World) (w : World) : World :=
  match run f w with
  | (Ok a, w1) => next a w1
  | (Raise e, w1) => worker_raised e w1
  end.

Definition set_worker (wk : Worker) (w : World) : World := w <| x_worker := wk |>.

(** [_reserve_input] and what follows it. *)
Definition worker_reserved (x : Waiting) : World → World :=
  match x with
  | WaitFrame m => worker_step (frame_reserved m) (fun msg => set_worker (WFrameReady msg))
  | WaitPrompt p => worker_step (prompt_reserved request_id session_id bracketed_ok p)
                      (fun sb => set_worker (WSubmitting sb))
  end.

(** [wait_for] returns at once when there is credit. *)
Definition worker_reserve (x : Waiting) (w : World) : World :=
  if has_credit (x_edge w) then worker_reserved x w else set_worker (WCredit x) w.

(** [abort_request], up to the client's abort: whether there is one to wait for. *)
Definition abort_request : ME bool :=
  s ← get;
  if e_abort_sent s then mret false else _ ← assign_to e_abort_sent true; mret true.

(** One item: [handle_frame_bytes] or [handle_json]. *)
Definition worker_item (x : Input) (w : World) : World :=
  match x with
  | InBytes payload =>
      worker_step (handle_frame_bytes request_id session_id bracketed_ok new_name sha256 payload)
        (fun sb => set_worker (WSubmitting sb)) w
  | InJson (MConfigure c) =>
      worker_step (c' ← lift (validate_configure c); configure c') (fun msg => set_worker (WConfigured msg)) w
  | InJson (MFrame m) =>
      worker_step (m' ← lift (validate_frame m); _ ← prepare_frame m'; mret m')
        (fun m' => worker_reserve (WaitFrame m')) w
  | InJson (MPrompt p) =>
      worker_step (p' ← lift (validate_prompt p); _ ← prepare_prompt p'; mret p')
        (fun p' => worker_reserve (WaitPrompt p')) w
  | InJson MAbort =>
      worker_step (_ ← set_closed; abort_request)
        (fun waits => if waits then set_worker WAborting else worker_loop) w
  | InJson MUnsupported => worker_raised (ValueError "unsupported event type") w
  | InJson (MInvalid message) => worker_raised (ValueError message) w
  end.

(** A send or a call came back to it. *)
Definition worker_back (b : Back) (w : World) : option World :=
  let failed := match b with
                | RaisedRuntime message => worker_raised (RuntimeError message)
                | _ => worker_raised (OtherError "OSError")
                end in
  match x_worker w with
  | WConfigured m =>
      Some (match b with
            | Returned => worker_loop (exec (log_sent m) w <| x_responder := PChunk |>)
            | _ => failed w
            end)
  | WFrameReady m =>
      Some (match b with Returned => worker_loop (exec (log_sent m) w) | _ => failed w end)
  | WSubmitting sb =>
      Some (match b with
            | Returned => worker_step (submitted sb) (fun m => set_worker (WAccepting (sb_seq_no sb) m)) w
            | _ => worker_step (submission_failed request_id bracketed_ok sb) (fun _ => worker_loop) w
            end)
  | WAccepting seq_no m =>
      Some (match b with
            | Returned => worker_loop (exec (set_accepted seq_no) (exec (log_sent m) w))
            | _ => failed w
            end)
  | WAborting => Some (match b with Returned => worker_loop w | _ => failed w end)
  | _ => None
  end.

(** ** The receiver *)

Definition receiver_loop (w : World) : World :=
  w <| x_receiver := if e_closed (x_edge w) then RDone else RWaiting |>.

Definition receiver_stop (code message : string) (w : World) : World :=
  exec set_closed w <| x_receiver := RRejecting true (OError code message) |>.

(** The queue of inputs takes one more, unless the client is too far ahead. *)
Definition enqueue (x : Input) (w : World) : World :=
  if 2 * e_capacity (x_edge w) + 2 <=? zlength (x_inputs w)
  then receiver_stop "input_queue_full" "too many queued input messages" w
  else receiver_loop (w <| x_inputs := x_inputs w ++ [x] |>).

Definition receive (raw : Raw) (w : World) : World :=
  match raw with
  | RawDisconnect | RawJson MAbort => exec set_closed w <| x_receiver := RDone |>
  | RawOther => receiver_loop w
  | RawBytes payload =>
      if MAX_FRAME_BYTES <? zlength payload
      then receiver_stop "frame_too_large" "frame payload exceeds max_frame_bytes" w
      else enqueue (InBytes payload) w
  | RawInvalid message => w <| x_receiver := RRejecting false (OError "invalid_request" message) |>
  | RawJson m => enqueue (InJson m) w
  end.

(** ** The response *)

Definition set_responder (p : Responder) (w : World) : World := w <| x_responder := p |>.

Definition send_all (msgs : list OutMsg) : World → World :=
  match msgs with
  | [] => set_responder PChunk
  | m :: rest => set_responder (PSending m rest)
  end.

(** The [except] of [stream_response]. *)
Definition responder_raised (message : string) (w : World) : World :=
  if e_abort_sent (x_edge w) then set_responder PDone w
  else set_responder (PRejecting (OError "response_failed" message)) w.

Definition responder_chunk (k : Chunk) (w : World) : World :=
  match run (handle_chunk request_id bracketed_ok k) w with
  | (Ok msgs, w1) => send_all msgs w1
  | (Raise e, w1) => responder_raised (exn_text e) w1
  end.

(** Both ends of [stream_response]. *)
Definition response_closed (w : World) : World :=
  set_responder PClosing (exec (_ ← set_closed; close_input_queue) w).

(** ** Teardown *)

(** After the abort: the response task is cancelled, and everything local is released. *)
Definition teardown_release (w : World) : World :=
  let w1 := exec (release_local_resources request_id)
              (w <| x_responder := match x_responder w with PNone => PNone | _ => PDone end |>) in
  w1 <| x_phase := if e_request_finished (x_edge w1) then PhClosing else PhNotifying |>.

(** [run]'s [finally], then [_finish_run], which cancels the tasks and waits for them. *)
Definition finish_run (w : World) : World := exec set_closed w <| x_phase := PhStopping |>.

Definition cancel_tasks (w : World) : World :=
  w <| x_worker := WDone |> <| x_receiver := RDone |> <| x_phase := PhCancelling |>.

(** [_teardown] up to its abort. *)
Definition begin_teardown (w : World) : World :=
  let w1 := exec set_closed w in
  if negb (e_request_finished (x_edge w1)) && e_configured (x_edge w1)
  then match run abort_request w1 with
       | (Ok true, w2) => w2 <| x_phase := PhAborting |>
       | (_, w2) => teardown_release w2
       end
  else teardown_release w1.

(** ** Steps *)

Definition step (ev : Event) (w : World) : option World :=
  match ev, x_phase w with
  | ECreated Returned, PhCreating =>
      Some (exec (log_sent OCreated) w <| x_worker := WIdle |> <| x_receiver := RWaiting |> <| x_phase := PhRunning |>)
  | ECreated _, PhCreating => Some (finish_run w)
  | EReceive raw, _ => match x_receiver w with RWaiting => Some (receive raw w) | _ => None end
  | ETimeout, _ =>
      match x_receiver w with
      | RWaiting =>
          Some (if e_configured (x_edge w) then receiver_loop w
                else receiver_stop "configuration_timeout" "session.configure was not received" w)
      | _ => None
      end
  | EReceiverSent delivered, _ =>
      match x_receiver w with
      | RRejecting stop m =>
          let w1 := deliver delivered m w in
          Some (if stop : bool then w1 <| x_receiver := RDone |> else receiver_loop w1)
      | _ => None
      end
  | EInput, _ =>
      match x_worker w, x_inputs w with
      | WIdle, x :: rest =>
          let w1 := w <| x_inputs := rest |> in
          Some (if e_closed (x_edge w1) then w1 <| x_worker := WDone |> else worker_item x w1)
      | _, _ => None
      end
  | ECredit, _ =>
      match x_worker w with
      | WCredit x => if has_credit (x_edge w) then Some (worker_reserved x w) else None
      | _ => None
      end
  | EWorkerBack b, _ => worker_back b w
  | EWorkerSent delivered, _ =>
      match x_worker w with
      | WRejecting close m =>
          let w1 := deliver delivered m w in
          Some (worker_loop (if close : bool then exec set_closed w1 else w1))
      | _ => None
      end
  | EChunk k, _ =>
      match x_responder w with
      | PChunk => Some (match awaited (x_edge w) k with
                        | Some v => set_responder (PAccepted v k) w
                        | None => responder_chunk k w
                        end)
      | _ => None
      end
  | EAccepted, _ =>
      match x_responder w with
      | PAccepted v k => if default false (e_events (x_edge w) !! v) then Some (responder_chunk k w) else None
      | _ => None
      end
  | EChunkError message, _ =>
      match x_responder w with PChunk => Some (responder_raised message w) | _ => None end
  | EChunksEnd, _ =>
      match x_responder w with
      | PChunk => Some (set_responder PFinishing (exec (response_ended request_id) w))
      | _ => None
      end
  | EResponderBack b, _ =>
      match x_responder w with
      | PSending m rest =>
          Some (match b with
                | Returned => send_all rest (exec (log_sent m) w)
                | _ => responder_raised "send failed" w
                end)
      | PFinishing =>
          Some (match b with
                | Returned => response_closed (exec (log_sent (OSessionDone false)) w)
                | _ => responder_raised "send failed" w
                end)
      | PClosing => Some (set_responder PDone w)
      | _ => None
      end
  | EResponderSent delivered, _ =>
      match x_responder w with
      | PRejecting m => Some (response_closed (deliver delivered m w))
      | _ => None
      end
  | EFinish, PhRunning =>
      match x_receiver w, x_worker w with
      | RDone, _ | _, WDone => Some (finish_run w)
      | _, _ => None
      end
  | EInterrupted, (PhCreating | PhRunning) => Some (finish_run w)
  | ECancel, PhStopping => Some (cancel_tasks w)
  | ETeardown, PhCancelling => Some (begin_teardown w)
  | EAbortBack, PhAborting => Some (teardown_release w)
  | ENotified delivered, PhNotifying => Some (deliver delivered (OSessionDone true) w <| x_phase := PhClosing |>)
  | EWebsocketClosed, PhClosing => Some (w <| x_phase := PhEnded |>)
  | _, _ => None
  end.

Definition started (allow_benchmark : bool) (store : Store) : World :=
  {| x_edge := new_edge allow_benchmark store; x_inputs := []; x_worker := WNone; x_receiver := RDone;
     x_responder := PNone; x_phase := PhCreating |}.

Fixpoint steps (evs : list Event) (w : World) : option World :=
  match evs with
  | [] => Some w
  | ev :: evs' => step ev w ≫= steps evs'
  end.
End Steps.
