(* ===== verification/EdgeInv.v ===== *)
(** * Edge sessions: invariants

    What the coroutines of a session keep: the events handed to the model are ones its queue
    accepts, credits stay within the capacity, and every frame is known by its reference. *)
From S2P Require Import Prelude PyNum Payload SessionState FrameStore Edge EdgeSteps.
Local Open Scope Z_scope.

Section Inv.
Context (request_id session_id : string).
Context (bracketed_ok : list Ascii.ascii → bool) (new_name : gmap string bytes → result string).
Context (sha256 : bytes → string).
Implicit Types (e : Edge) (w : World).

(** ** The events handed to the model *)

Definition accept_all (evs : list FramePromptEvent) : M SessionState.Session unit := mforeach accept evs.

(** Their timestamps are floats already. *)
Definition sound_event (ev : FramePromptEvent) : Prop := wf_event ev ∧ ∃ ts, ev_timestamp ev = NFloat ts.

(** The model's queue takes all of them, and [sess] is what they make of it. *)
Definition accepted_as e (sess : SessionState.Session) : Prop :=
  accept_all (e_submitted e) (new_session request_id session_id) = (Ok tt, sess) ∧
  s_request_id sess = request_id ∧ s_session_id sess = session_id ∧ Forall sound_event (e_submitted e).

(** The next event the queue takes. *)
Definition next_ok e (seq_no : Z) (timestamp : pyfloat) : Prop :=
  seq_no = e_next_seq_no e ∧ f_lt timestamp (e_last_timestamp e) = false ∧ e_final_received e = false.

(** No submission is under way. *)
Record settled e : Prop := {
  se_session : ∃ sess, accepted_as e sess ∧ s_next_seq_no sess = e_next_seq_no e ∧
    s_final_received sess = e_final_received e ∧
    (s_last_timestamp sess = None ∨ s_last_timestamp sess = Some (e_last_timestamp e));
  se_pending : ∀ m, e_pending_frame e = Some m → next_ok e (fm_seq_no m) (fm_timestamp m)
}.

(** [sb] is under way: the queue has it already. *)
Record submitting (sb : Submission) e : Prop := {
  su_session : ∃ sess, accepted_as e sess ∧ s_next_seq_no sess = e_next_seq_no e + 1 ∧
    s_final_received sess = sb_final sb ∧
    s_last_timestamp sess = Some (match sb_frame sb with Some (t, _) => t | None => e_last_timestamp e end);
  su_seq : sb_seq_no sb = e_next_seq_no e;
  su_pending : e_pending_frame e = None
}.

Definition waiting_ok (x : Waiting) e : Prop :=
  match x with
  | WaitFrame m => next_ok e (fm_seq_no m) (fm_timestamp m)
  | WaitPrompt p => pi_seq_no p = e_next_seq_no e ∧ e_final_received e = false
  end.

Definition worker_ok (wk : Worker) e : Prop :=
  match wk with
  | WSubmitting sb => submitting sb e
  | WRejecting true _ | WDone => ∃ sess, accepted_as e sess
  | WCredit x => settled e ∧ e_pending_frame e = None ∧ waiting_ok x e ∧ e_configured e = true
  | _ => settled e
  end.

(** ** Credits *)

(** Whose credit is out: an event under way, or one the model has and has not reported. *)
Definition out_ok (wk : Worker) e (seq_no : Z) : Prop :=
  e_closed e = true ∨ seq_no < e_next_seq_no e ∨
  (∃ m, e_pending_frame e = Some m ∧ fm_seq_no m = seq_no) ∨
  (∃ sb, wk = WSubmitting sb ∧ sb_seq_no sb = seq_no).

Record credits (wk : Worker) e : Prop := {
  cr_capacity : 1 ≤ e_capacity e ≤ MAX_INPUT_QUEUE_CAPACITY;
  cr_bound : Z.of_nat (pending_events e) ≤ e_capacity e;
  cr_configured : e_configured e = false → e_outstanding e = ∅;
  cr_dom : dom (e_accepted e) = e_outstanding e;
  cr_out : ∀ seq_no, seq_no ∈ e_outstanding e → out_ok wk e seq_no
}.

(** ** What the other coroutines leave alone *)

Record calm e e' : Prop := {
  ca_pending : e_pending_frame e' = e_pending_frame e;
  ca_next : e_next_seq_no e' = e_next_seq_no e;
  ca_last : e_last_timestamp e' = e_last_timestamp e;
  ca_final : e_final_received e' = e_final_received e;
  ca_submitted : e_submitted e' = e_submitted e;
  ca_capacity : e_capacity e' = e_capacity e;
  ca_configured : e_configured e' = e_configured e;
  ca_out : e_outstanding e' ⊆ e_outstanding e;
  ca_dom : dom (e_accepted e) = e_outstanding e → dom (e_accepted e') = e_outstanding e';
  ca_closed : e_closed e = true → e_closed e' = true;
  ca_abort : e_abort_sent e = true → e_abort_sent e' = true;
  ca_refs : e_frame_refs e' ⊆ e_frame_refs e
}.

#[global] Instance calm_preorder : PreOrder calm.
Proof.
  split; [by constructor|]. intros e1 e2 e3 [] []. constructor; try congruence; try (by etrans); auto.
Qed.

Definition quiet {A} (f : ME A) : Prop := ∀ e, calm e (f e).2.

Lemma bind_quiet {A B} (f : ME A) (g : A → ME B) : quiet f → (∀ a, quiet (g a)) → quiet (f ≫= g).
Proof.
  intros Hf Hg e. unfold mbind, M_bind. specialize (Hf e). destruct (f e) as [[a|ex] e1]; [|done].
  etrans; [exact Hf|apply Hg].
Qed.

Lemma get_quiet {B} (g : Edge → ME B) : (∀ e, quiet (g e)) → quiet (get ≫= g).
Proof. intros Hg e. apply Hg. Qed.

Lemma ret_quiet {A} (a : A) : quiet (mret a).
Proof. by intros e. Qed.

Lemma quiet_throw {A} ex : quiet (throw (A := A) ex).
Proof. by intros e. Qed.

Lemma modify_quiet g : (∀ e, calm e (g e)) → quiet (modify g).
Proof. done. Qed.

Lemma quiet_foreach {A} (f : A → ME unit) l : (∀ x, quiet (f x)) → quiet (mforeach f l).
Proof. intros Hf. induction l as [|x l IH]; [apply ret_quiet|]. by apply bind_quiet; [apply Hf|]. Qed.

Lemma quiet_store {A} (m : M Store A) : quiet (on_store m).
Proof. intros e. unfold on_store, zoom. destruct (m (e_store e)). by constructor. Qed.

Lemma log_sent_quiet m : quiet (log_sent m).
Proof. by constructor. Qed.

Lemma set_closed_quiet : quiet set_closed.
Proof. by constructor. Qed.

Lemma set_accepted_quiet seq_no : quiet (set_accepted seq_no).
Proof. apply modify_quiet. intros e. destruct (e_accepted e !! seq_no); by constructor. Qed.

Lemma set_accepted_state seq_no e :
  ∃ ev, set_accepted seq_no e = (Ok tt, e <| e_events := ev |>).
Proof.
  unfold set_accepted, modify. destruct (e_accepted e !! seq_no); [by eexists|].
  exists (e_events e). by destruct e.
Qed.

Lemma release_input_state seq_no e :
  ∃ ev, release_input seq_no e = (Ok tt, e <| e_outstanding := e_outstanding e ∖ {[seq_no]} |>
    <| e_events := ev |> <| e_accepted := delete seq_no (e_accepted e) |>).
Proof.
  unfold release_input. unfold mbind at 1, M_bind at 1, modify at 1. unfold mbind, M_bind.
  destruct (set_accepted_state seq_no (e <| e_outstanding := e_outstanding e ∖ {[seq_no]} |>)) as [ev ->].
  by exists ev.
Qed.

Lemma release_input_quiet seq_no : quiet (release_input seq_no).
Proof.
  intros e. destruct (release_input_state seq_no e) as [ev ->]. constructor; try done; fields; [set_solver|].
  intros Hd. rewrite dom_delete_L, Hd. done.
Qed.

Lemma close_input_queue_quiet : quiet close_input_queue.
Proof.
  unfold close_input_queue. apply bind_quiet.
  - apply get_quiet. intros e. apply quiet_foreach. intros p. apply set_accepted_quiet.
  - intros _. apply modify_quiet. intros e. by constructor.
Qed.

Lemma forget_frame_quiet seq_no : quiet (forget_frame request_id bracketed_ok seq_no).
Proof.
  unfold forget_frame. apply get_quiet. intros e. apply bind_quiet.
  - apply modify_quiet. intros e'. constructor; try done; fields. apply delete_subseteq.
  - intros _. destruct (e_frame_refs e !! seq_no); [apply quiet_store|apply ret_quiet].
Qed.

Lemma handle_chunk_quiet k : quiet (handle_chunk request_id bracketed_ok k).
Proof.
  destruct k as [|turn|turn nt seq|turn seq ts ss|frame seq ts final turns|text reason turn]; unfold handle_chunk;
    try apply ret_quiet.
  - by apply bind_quiet; [constructor|intros _; apply ret_quiet].
  - apply bind_quiet; [apply forget_frame_quiet|]. intros _. apply bind_quiet; [apply release_input_quiet|].
    intros _. apply get_quiet. intros e. apply bind_quiet; [|intros _; apply ret_quiet].
    destruct turns as [[]|]; [by constructor|apply ret_quiet].
  - apply get_quiet. intros e. apply bind_quiet; [|intros _; apply ret_quiet].
    destruct reason; [apply ret_quiet|by constructor].
Qed.

Lemma response_ended_quiet : quiet (response_ended request_id).
Proof. apply bind_quiet; [by constructor|]. intros _. apply quiet_store. Qed.

Lemma abort_request_quiet : quiet abort_request.
Proof.
  apply get_quiet. intros e. destruct (e_abort_sent e); [apply ret_quiet|].
  by apply bind_quiet; [constructor|intros _; apply ret_quiet].
Qed.

(** ** Calm changes keep the worker's facts *)

Lemma settled_calm e e' : calm e e' → settled e → settled e'.
Proof.
  intros [] [H1 H2]. constructor; unfold accepted_as, next_ok in *;
    rewrite ?ca_pending0, ?ca_next0, ?ca_last0, ?ca_final0, ?ca_submitted0; done.
Qed.

Lemma submitting_calm sb e e' : calm e e' → submitting sb e → submitting sb e'.
Proof.
  intros [] [H1 H2 H3]. constructor; unfold accepted_as in *;
    rewrite ?ca_pending0, ?ca_next0, ?ca_last0, ?ca_final0, ?ca_submitted0; done.
Qed.

Lemma worker_ok_calm wk e e' : calm e e' → worker_ok wk e → worker_ok wk e'.
Proof.
  intros Hc. destruct wk as [| |m|x|m|sb|seq m| |[] m|]; simpl;
    try (by apply settled_calm); try (by apply submitting_calm).
  - intros (Hs & Hp & Hx & Hcf). split; [by eapply settled_calm|]. destruct Hc.
    rewrite ca_pending0, ca_configured0. split; [done|]. split; [|done].
    destruct x; unfold waiting_ok, next_ok in *; by rewrite ?ca_next0, ?ca_last0, ?ca_final0.
  - intros [sess H]. exists sess. destruct Hc. unfold accepted_as in *. by rewrite ca_submitted0.
  - intros [sess H]. exists sess. destruct Hc. unfold accepted_as in *. by rewrite ca_submitted0.
Qed.

Lemma credits_calm wk e e' : calm e e' → credits wk e → credits wk e'.
Proof.
  intros Hc [H1 H2 H3 H4 H5]. destruct Hc. constructor.
  - by rewrite ca_capacity0.
  - rewrite ca_capacity0. unfold pending_events in *. apply subseteq_size in ca_out0. lia.
  - rewrite ca_configured0. intros Hcf. specialize (H3 Hcf). set_solver.
  - by apply ca_dom0.
  - intros seq_no Hs. apply ca_out0, H5 in Hs. unfold out_ok in *. rewrite ca_pending0, ca_next0.
    destruct Hs as [?|?]; [left; auto|by right].
Qed.
End Inv.
