(* ===== verification/EdgeWorker.v ===== *)
(** * Edge sessions: the input worker

    Each piece of [_process_inputs] keeps the worker's facts: what it checked before a wait still
    holds after it, and a submission either counts or ends the session. *)
From S2P Require Import Prelude PyNum Payload SessionState FrameStore Edge EdgeSteps EdgeInv.
Local Open Scope Z_scope.

Section Worker.
Context (request_id session_id : string).
Context (bracketed_ok : list Ascii.ascii → bool) (new_name : gmap string bytes → result string).
Context (new_name_safe : ∀ env name, new_name env = Ok name → safe_name name).
Context (sha256 : bytes → string).
Implicit Types (e : Edge) (w : World).

Abbreviation settled := (EdgeInv.settled request_id session_id).
Abbreviation submitting := (EdgeInv.submitting request_id session_id).
Abbreviation worker_ok := (EdgeInv.worker_ok request_id session_id).

(** A reference [put] hands out. *)
Definition safe_ref (ref : string) : Prop := ∃ name, safe_name name ∧ ref = "shm://" +:+ name.

Definition frame_safe (wk : Worker) : Prop :=
  match wk with
  | WSubmitting sb => ∀ t ref, sb_frame sb = Some (t, ref) → safe_ref ref
  | _ => True
  end.

(** The worker's facts. *)
Record facts (wk : Worker) e : Prop := {
  fa_worker : worker_ok wk e;
  fa_credits : credits wk e;
  fa_frame : frame_safe wk
}.

Lemma facts_calm wk e e' : calm e e' → facts wk e → facts wk e'.
Proof.
  intros Hc [H1 H2 H3]. constructor; [by eapply worker_ok_calm|by eapply credits_calm|done].
Qed.

(** ** Places *)

(** The facts of a worker between two inputs. *)
Abbreviation resting e := (facts WIdle e).

Lemma credits_move wk wk' e : (∀ sb, wk ≠ WSubmitting sb) → credits wk e → credits wk' e.
Proof.
  intros Hwk [H1 H2 H3 H4 H5]. constructor; try done. intros seq_no Hs.
  destruct (H5 seq_no Hs) as [?|[?|[?|(sb & E & _)]]]; [by left|by right; left|by right; right; left|].
  by destruct (Hwk sb).
Qed.

Lemma settled_session e : settled e → ∃ sess, accepted_as request_id session_id e sess.
Proof. intros [(sess & H & _) _]. by exists sess. Qed.

Lemma resting_done e : resting e → facts WDone e.
Proof.
  intros [H1 H2 _]. constructor; [by apply settled_session|by apply (credits_move WIdle)|done].
Qed.

Lemma resting_reject e close m : resting e → facts (WRejecting close m) e.
Proof.
  intros [H1 H2 _]. constructor; [|by apply (credits_move WIdle)|done].
  destruct close; [by apply settled_session|done].
Qed.

Lemma resting_at wk e :
  match wk with
  | WNone | WIdle | WConfigured _ | WFrameReady _ | WAccepting _ _ | WAborting | WRejecting false _ =>
      facts wk e → resting e
  | _ => True
  end.
Proof.
  destruct wk as [| |m|x|m|sb|seq m| |[] m|]; try done; intros [H1 H2 H3]; constructor; try done;
    by (eapply credits_move; [|exact H2]).
Qed.

Lemma worker_loop_facts w :
  resting (x_edge w) → facts (x_worker (worker_loop w)) (x_edge (worker_loop w)).
Proof.
  intros H. unfold worker_loop. fields. destruct (e_closed (x_edge w)); [by apply resting_done|done].
Qed.

Lemma worker_raised_facts ex w :
  resting (x_edge w) → facts (x_worker (worker_raised ex w)) (x_edge (worker_raised ex w)).
Proof.
  intros H. unfold worker_raised. fields. destruct (is_submission_error ex); [by apply resting_reject|].
  destruct ex; by (apply resting_reject || apply resting_done).
Qed.

(** A submission error needs less. *)
Lemma submission_raised_facts ex w :
  is_submission_error ex = true → facts WDone (x_edge w) →
  facts (x_worker (worker_raised ex w)) (x_edge (worker_raised ex w)).
Proof.
  intros E [H1 H2 _]. unfold worker_raised. fields. rewrite E.
  constructor; [done|by apply (credits_move WDone)|done].
Qed.

(** A step that returns or raises. *)
Lemma worker_step_facts {A} (f : ME A) next w :
  (∀ a e, f (x_edge w) = (Ok a, e) → facts (x_worker (next a (w <| x_edge := e |>)))
                                          (x_edge (next a (w <| x_edge := e |>)))) →
  (∀ ex e, f (x_edge w) = (Raise ex, e) → resting e ∨ is_submission_error ex = true ∧ facts WDone e) →
  facts (x_worker (worker_step f next w)) (x_edge (worker_step f next w)).
Proof.
  intros Hok Hraise. unfold worker_step, run. destruct (f (x_edge w)) as [[a|ex] e] eqn:E; [by apply Hok|].
  destruct (Hraise ex e eq_refl) as [H|[Hs H]]; [by apply worker_raised_facts|by apply submission_raised_facts].
Qed.

(** ** Checks *)

Lemma validate_configure_capacity c c' :
  validate_configure c = Ok c' → 1 ≤ cf_input_queue_capacity c' ≤ MAX_INPUT_QUEUE_CAPACITY.
Proof.
  unfold validate_configure. destruct (_ && _) eqn:E; [|done]. intros [= <-].
  rewrite !andb_true_iff in E. lia.
Qed.

Lemma configure_facts c e r e' :
  resting e → 1 ≤ cf_input_queue_capacity c ≤ MAX_INPUT_QUEUE_CAPACITY → configure c e = (r, e') →
  resting e' ∧ (e' = e ∨ e' = e <| e_capacity := cf_input_queue_capacity c |> <| e_configured := true |>).
Proof.
  intros H Hc. unfold configure, mbind, M_bind, get, guard_raise, raise_if, lift.
  destruct (e_configured e) eqn:Ec; [by intros [= <- <-]; split; [|left]|].
  destruct (cf_benchmark_ignore_eos c && _); [by intros [= <- <-]; split; [|left]|].
  intros [= <- <-]. split; [|by right]. destruct H as [[H1 H2] [C1 C2 C3 C4 C5] _]. constructor; [|constructor|done].
  - constructor; done.
  - done.
  - unfold pending_events. fields. rewrite (C3 Ec), size_empty. lia.
  - done.
  - done.
  - intros seq_no. fields. rewrite (C3 Ec). by intros ?%elem_of_empty.
Qed.

Lemma input_guards_spec e r e' :
  input_guards e = (r, e') → e' = e ∧
    (is_ok r = true → e_configured e = true ∧ e_final_received e = false ∧ e_pending_frame e = None).
Proof.
  unfold input_guards, mbind, M_bind, get, guard_raise, raise_if, lift.
  destruct (e_configured e); [|by intros [= <- <-]]. destruct (e_ready e); [|by intros [= <- <-]].
  destruct (e_final_received e); [by intros [= <- <-]|]. case_bool_decide as Hp; [by intros [= <- <-]|].
  intros [= <- <-]. split; [done|]. intros _. split; [done|]. split; [done|]. by apply eq_None_not_Some.
Qed.

Lemma validate_order_spec seq_no ts e r e' :
  validate_event_order seq_no ts e = (r, e') → e' = e ∧
    (is_ok r = true → seq_no = e_next_seq_no e ∧ f_lt ts (e_last_timestamp e) = false).
Proof.
  unfold validate_event_order, mbind, M_bind, get, guard_raise, raise_if, lift.
  destruct (Z.eqb_spec seq_no (e_next_seq_no e)); simpl; [|by intros [= <- <-]].
  destruct (f_lt ts (e_last_timestamp e)); by intros [= <- <-].
Qed.

Lemma prepare_frame_spec m e r e' :
  prepare_frame m e = (r, e') → e' = e ∧
    (is_ok r = true → e_configured e = true ∧ e_pending_frame e = None ∧ next_ok e (fm_seq_no m) (fm_timestamp m)).
Proof.
  unfold prepare_frame, mbind, M_bind. destruct (input_guards e) as [r1 e1] eqn:E1.
  apply input_guards_spec in E1 as [-> H1]. destruct r1; [|by intros [= <- <-]].
  intros E2. apply validate_order_spec in E2 as [-> H2]. split; [done|]. intros Hr.
  destruct (H1 eq_refl) as (?&?&?). destruct (H2 Hr). by repeat split.
Qed.

Lemma prepare_prompt_spec p e r e' :
  prepare_prompt p e = (r, e') → e' = e ∧
    (is_ok r = true → e_configured e = true ∧ e_pending_frame e = None ∧ waiting_ok (WaitPrompt p) e).
Proof.
  unfold prepare_prompt, mbind, M_bind, get. destruct (input_guards e) as [r1 e1] eqn:E1.
  apply input_guards_spec in E1 as [-> H1]. destruct r1; [|by intros [= <- <-]].
  intros E2. apply validate_order_spec in E2 as [-> H2]. split; [done|]. intros Hr.
  destruct (H1 eq_refl) as (?&?&?). destruct (H2 Hr). by repeat split.
Qed.

(** ** Reserving credit *)

Definition reserved (seq_no : Z) e : Edge :=
  e <| e_outstanding := {[seq_no]} ∪ e_outstanding e |> <| e_accepted := <[seq_no := e_next e]> (e_accepted e) |>
    <| e_events := <[e_next e := false]> (e_events e) |> <| e_next := S (e_next e) |>.

Lemma reserve_spec seq_no e r e' :
  reserve_input seq_no e = (r, e') →
  (∃ m, (r = Raise (RuntimeError m) ∨ r = Raise (ValueError m)) ∧ e' = e) ∨
  (r = Ok tt ∧ e_closed e = false ∧ seq_no ∉ e_outstanding e ∧ e' = reserved seq_no e).
Proof.
  unfold reserve_input, mbind, M_bind, get, guard_raise, raise_if, lift.
  destruct (e_closed e); [intros [= <- <-]; left; eexists; by split; [left|]|].
  case_bool_decide; intros [= <- <-]; [left; eexists; by split; [right|]|by right].
Qed.

Lemma credits_reserved seq_no e :
  credits WIdle e → e_pending_frame e = None → e_configured e = true → has_credit e = true →
  e_closed e = false → seq_no ∉ e_outstanding e → ∀ wk p,
  (∀ e', e_pending_frame e' = p → e_next_seq_no e' = e_next_seq_no e → out_ok wk e' seq_no) →
  credits wk (reserved seq_no e <| e_pending_frame := p |>).
Proof.
  intros [C1 C2 C3 C4 C5] Hp Hcf Hcr Hcl Hnew wk p Hout. unfold reserved. constructor; unfold pending_events; fields; try done.
  - unfold has_credit in Hcr. rewrite Hcl in Hcr. simpl in Hcr. apply Z.ltb_lt in Hcr. unfold pending_events in Hcr.
    rewrite size_union by set_solver. rewrite size_singleton. lia.
  - congruence.
  - rewrite dom_insert_L, C4. done.
  - intros x [->%elem_of_singleton|Hx]%elem_of_union.
    + specialize (Hout (reserved seq_no e <| e_pending_frame := p |>) eq_refl eq_refl). exact Hout.
    + destruct (C5 x Hx) as [?|[?|[(m & Hm & _)|(sb & ? & _)]]]; [by left|by right; left|congruence|done].
Qed.

Lemma settled_reserved seq_no e p :
  settled e → (∀ m, p = Some m → next_ok e (fm_seq_no m) (fm_timestamp m)) →
  settled (reserved seq_no e <| e_pending_frame := p |>).
Proof. intros [H1 H2] Hp. by constructor. Qed.

(** The metadata of a frame got its credit. *)
Lemma frame_reserved_facts m e :
  resting e → e_pending_frame e = None → e_configured e = true → has_credit e = true →
  next_ok e (fm_seq_no m) (fm_timestamp m) → resting (frame_reserved m e).2.
Proof.
  intros H Hp Hcf Hcr Hok. unfold frame_reserved, mbind, M_bind.
  destruct (reserve_input (fm_seq_no m) e) as [r e1] eqn:E.
  apply reserve_spec in E as [(msg & [-> | ->] & ->)|(-> & Hcl & Hnew & ->)]; [done..|].
  change (resting (reserved (fm_seq_no m) e <| e_pending_frame := Some m |>)).
  destruct H as [H1 H2 _]. constructor; [| |done].
  - apply settled_reserved; [done|]. by intros m' [= <-].
  - apply credits_reserved; try done. intros e' Hp' _. right; right; left. by exists m.
Qed.

(** ** Submitting *)

Lemma session_event_Ok seq_no ts ref prompt final fp ev :
  session_event request_id session_id seq_no ts ref prompt final fp = Ok ev →
  wf_event ev ∧ ev_request_id ev = request_id ∧ ev_session_id ev = session_id ∧ ev_seq_no ev = seq_no ∧
  ev_timestamp ev = NFloat ts ∧ ev_final ev = final.
Proof.
  intros (Hwf & E1 & E2 & E3 & E4 & _ & _ & E7 & _)%make_event_Ok. split; [done|]. repeat split; congruence.
Qed.

(** The queue takes an event that is next. *)
Lemma accept_next ev sess ts :
  s_request_id sess = ev_request_id ev → s_session_id sess = ev_session_id ev →
  s_final_received sess = false → s_next_seq_no sess = ev_seq_no ev → ev_timestamp ev = NFloat ts →
  timestamp_backwards (s_last_timestamp sess) (NFloat ts) = false →
  ∃ sess', accept ev sess = (Ok tt, sess') ∧ s_request_id sess' = s_request_id sess ∧
    s_session_id sess' = s_session_id sess ∧ s_next_seq_no sess' = s_next_seq_no sess + 1 ∧
    s_final_received sess' = ev_final ev ∧ s_last_timestamp sess' = Some ts.
Proof.
  intros E1 E2 E3 E4 E5 E6. unfold accept, mbind, M_bind, get, guard_raise, raise_if, lift, modify.
  rewrite E1, E2, E3, E4, E5, !String.eqb_refl, Z.eqb_refl. simpl. rewrite E6. simpl. eexists. split; [done|]. done.
Qed.

Lemma accept_all_snoc evs ev sess sess1 sess2 :
  accept_all evs sess = (Ok tt, sess1) → accept ev sess1 = (Ok tt, sess2) →
  accept_all (evs ++ [ev]) sess = (Ok tt, sess2).
Proof.
  unfold accept_all. revert sess. induction evs as [|x evs IH]; intros sess; simpl.
  - intros [= ->] E. unfold mbind, M_bind. by rewrite E.
  - unfold mbind, M_bind. destruct (accept x sess) as [[[]|] s1]; [|done]. apply IH.
Qed.

Lemma submit_event_spec ev e ts :
  ev_timestamp ev = NFloat ts →
  submit_event ev e = (Ok tt, e <| e_submitted := e_submitted e ++ [ev] |>).
Proof. intros E. unfold submit_event, to_dict, mbind, M_bind, lift. by rewrite E. Qed.

(** A valid event that is next, submitted. *)
Lemma submitted_facts sb ev ts e :
  settled e → e_pending_frame e = None → sb_seq_no sb = e_next_seq_no e →
  f_lt ts (e_last_timestamp e) = false → e_final_received e = false → wf_event ev →
  ev_request_id ev = request_id → ev_session_id ev = session_id → ev_seq_no ev = sb_seq_no sb →
  ev_timestamp ev = NFloat ts → ev_final ev = sb_final sb →
  ts = match sb_frame sb with Some (t, _) => t | None => e_last_timestamp e end →
  submitting sb (e <| e_submitted := e_submitted e ++ [ev] |>).
Proof.
  intros [(sess & (Hacc & Hr & Hs & Hwf) & Hn & Hf & Hl) _] Hp Hseq Hts Hfin Hev E1 E2 E3 E4 E5 ->.
  destruct (accept_next ev sess (match sb_frame sb with Some (t, _) => t | None => e_last_timestamp e end))
    as (sess' & Ha & Hr' & Hs' & Hn' & Hf' & Hl'); try congruence.
  { destruct Hl as [-> | ->]; [done|exact Hts]. }
  constructor; try done. exists sess'. unfold accepted_as. fields.
  split; [split; [by eapply accept_all_snoc|]|].
  - split; [congruence|]. split; [congruence|]. apply Forall_app. split; [done|]. constructor; [|done]. split; [done|by eexists].
  - split; [congruence|]. split; [congruence|done].
Qed.

Lemma release_reserved_calm seq_no e : calm e (release_input seq_no (reserved seq_no e)).2.
Proof.
  destruct (release_input_state seq_no (reserved seq_no e)) as [ev ->]. unfold reserved.
  constructor; try done; fields; [set_solver|]. intros Hd. rewrite dom_delete_L, dom_insert_L, Hd. done.
Qed.

Lemma reserved_credits_at seq_no e wk :
  credits WIdle e → e_pending_frame e = None → e_configured e = true → has_credit e = true →
  e_closed e = false → seq_no ∉ e_outstanding e → (∀ e', out_ok wk e' seq_no) → credits wk (reserved seq_no e).
Proof.
  intros H1 H2 H3 H4 H5 H6 H7.
  assert (reserved seq_no e = reserved seq_no e <| e_pending_frame := None |>) as ->
    by (unfold reserved; destruct e; simpl in *; by subst).
  by apply credits_reserved.
Qed.

(** A prompt got its credit. *)
Lemma prompt_reserved_facts p e :
  resting e → e_pending_frame e = None → e_configured e = true → has_credit e = true →
  waiting_ok (WaitPrompt p) e →
  match prompt_reserved request_id session_id bracketed_ok p e with
  | (Ok sb, e') => facts (WSubmitting sb) e'
  | (Raise ex, e') => resting e'
  end.
Proof.
  intros H Hp Hcf Hcr [Hseq Hfin]. unfold prompt_reserved. unfold mbind at 1, M_bind at 1.
  destruct (reserve_input (pi_seq_no p) e) as [r e1] eqn:E.
  apply reserve_spec in E as [(msg & [-> | ->] & ->)|(-> & Hcl & Hnew & ->)]; [done..|].
  unfold mbind at 1, M_bind at 1, get. unfold mbind at 1, M_bind at 1, try_except at 1, lift.
  destruct (session_event request_id session_id (pi_seq_no p) _ None _ _ None) as [ev|ex] eqn:Eev.
  - apply session_event_Ok in Eev as (Hwf & E1 & E2 & E3 & E4 & E5).
    unfold mbind, M_bind, try_except. rewrite (submit_event_spec ev _ _ E4). unfold mret, M_ret. cbn.
    destruct H as [H1 H2 _]. set (sb := {| sb_seq_no := pi_seq_no p; sb_final := pi_final p; sb_interrupts := true;
      sb_frame := None |}). constructor; [| |done].
    + apply (submitted_facts sb ev (e_last_timestamp e) (reserved (pi_seq_no p) e)); try done.
      * destruct H1 as [H1 _]. constructor; [exact H1|]. intros m Hm. unfold reserved in Hm. simpl in Hm. congruence.
      * apply num_lt_irrefl.
    + apply (reserved_credits_at (pi_seq_no p) e (WSubmitting sb)) in H2; try done.
      * destruct H2 as [C1 C2 C3 C4 C5]. by constructor.
      * intros e'. right; right; right. by exists sb.
  - pose proof (release_reserved_calm (pi_seq_no p) e) as Hc. unfold mbind, M_bind.
    destruct (release_input_state (pi_seq_no p) (reserved (pi_seq_no p) e)) as [evs Er]. rewrite Er in Hc |- *.
    by eapply facts_calm.
Qed.

(** ** Frames *)

(** The facts while a frame's bytes are handled: its credit is out, and nothing else expects it. *)
Record handling (seq_no : Z) e : Prop := {
  ha_settled : settled e;
  ha_credits : ∀ wk, (∀ e', out_ok wk e' seq_no) → credits wk e;
  ha_pending : e_pending_frame e = None;
  ha_released : credits WIdle (release_input seq_no e).2
}.

Lemma handling_start m e :
  resting e → e_pending_frame e = Some m → handling (fm_seq_no m) (e <| e_pending_frame := None |>).
Proof.
  intros [[H1 H2] [C1 C2 C3 C4 C5] _] Hp. constructor; try done.
  - intros wk Hwk. constructor; try done. intros x Hx. destruct (C5 x Hx) as [?|[?|[(m' & Hm & <-)|(sb & ? & _)]]];
      [by left|by right; left| |done]. replace m' with m by (fields; congruence). apply Hwk.
  - destruct (release_input_state (fm_seq_no m) (e <| e_pending_frame := None |>)) as [ev ->]. fields.
    constructor; unfold pending_events; fields; try done.
    + unfold pending_events in C2. assert (size (e_outstanding e ∖ {[fm_seq_no m]}) ≤ size (e_outstanding e))%nat.
      { apply subseteq_size. set_solver. } lia.
    + intros Hcf. rewrite (C3 Hcf). set_solver.
    + rewrite dom_delete_L, C4. done.
    + intros x [Hx Hne]%elem_of_difference. destruct (C5 x Hx) as [?|[?|[(m' & Hm & <-)|(sb & ? & _)]]];
        [by left|by right; left| |done]. exfalso. apply Hne, elem_of_singleton. congruence.
Qed.

(** Frames and the store are not the worker's facts. *)
Lemma handling_frames seq_no e e' :
  handling seq_no e → (∃ st refs, e' = e <| e_store := st |> <| e_frame_refs := refs |>) → handling seq_no e'.
Proof.
  intros [[H1 H2] C P R] (st & refs & ->). constructor; try done.
  - intros wk Hwk. specialize (C wk Hwk). by destruct C.
  - destruct (release_input_state seq_no (e <| e_store := st |> <| e_frame_refs := refs |>)) as [ev ->].
    destruct (release_input_state seq_no e) as [ev' E]. rewrite E in R. destruct R as [C1 C2 C3 C4 C5]. by constructor.
Qed.

Lemma handling_store seq_no e st : handling seq_no e → handling seq_no (e <| e_store := st |>).
Proof. intros H. apply (handling_frames _ e); [done|]. exists st, (e_frame_refs e). by destruct e. Qed.

Lemma handling_refs seq_no e refs : handling seq_no e → handling seq_no (e <| e_frame_refs := refs |>).
Proof. intros H. apply (handling_frames _ e); [done|]. exists (e_store e), refs. by destruct e. Qed.

(** The credit of a frame that is given up. *)
Lemma handling_released seq_no e : handling seq_no e → resting (release_input seq_no e).2.
Proof.
  intros [H1 C P R]. destruct (release_input_state seq_no e) as [ev E]. rewrite E in R |- *.
  constructor; [|done|done]. destruct H1 as [H1 H2]. by constructor.
Qed.

Lemma store_frame_spec m payload e :
  handling (fm_seq_no m) e →
  match store_frame request_id new_name m payload e with
  | (Ok ref, e') => handling (fm_seq_no m) e' ∧ safe_ref ref ∧ e_last_timestamp e' = e_last_timestamp e ∧
      e_next_seq_no e' = e_next_seq_no e ∧ e_final_received e' = e_final_received e
  | (Raise ex, e') => resting e'
  end.
Proof.
  intros H. unfold store_frame, try_except, on_store, zoom.
  destruct (put_frame new_name request_id payload (e_store e)) as [[ref|ex] st] eqn:Ep.
  - split; [by apply handling_store|]. split; [|done].
    unfold put_frame in Ep. inv_ok. eexists. split; [by eapply new_name_safe|done].
  - pose proof (handling_released _ _ (handling_store _ _ st H)) as Hr. unfold mbind, M_bind.
    destruct (release_input_state (fm_seq_no m) (e <| e_store := st |>)) as [ev E]. rewrite E in Hr |- *.
    by destruct ex.
Qed.

(** The bytes of a frame arrived. *)
Lemma handle_frame_bytes_facts payload e :
  resting e →
  match handle_frame_bytes request_id session_id bracketed_ok new_name sha256 payload e with
  | (Ok sb, e') => facts (WSubmitting sb) e'
  | (Raise ex, e') => resting e'
  end.
Proof.
  intros H. unfold handle_frame_bytes. unfold mbind at 1, M_bind at 1, get.
  destruct (e_pending_frame e) as [m|] eqn:Hp; [|done].
  pose proof (se_pending _ _ _ (fa_worker _ _ H) m Hp) as (Hseq & Hts & Hfin).
  unfold mbind at 1, M_bind at 1, assign_to, modify.
  pose proof (store_frame_spec m payload _ (handling_start m e H Hp)) as Hst.
  unfold mbind at 1, M_bind at 1.
  destruct (store_frame request_id new_name m payload (e <| e_pending_frame := None |>)) as [[ref|ex] e1]; [|done].
  destruct Hst as (Hh & Href & El & En & Ef). unfold mbind at 1, M_bind at 1, try_except at 1, lift.
  destruct (session_event request_id session_id (fm_seq_no m) (fm_timestamp m) _ _ _ _) as [ev|ex] eqn:Eev.
  - apply session_event_Ok in Eev as (Hwf & E1 & E2 & E3 & E4 & E5).
    set (e2 := e1 <| e_frame_refs := <[fm_seq_no m := ref]> (e_frame_refs e1) |>).
    set (sb := {| sb_seq_no := fm_seq_no m; sb_final := fm_final m;
      sb_interrupts := bool_decide (is_Some (fm_prompt m)); sb_frame := Some (fm_timestamp m, ref) |}).
    assert (handling (fm_seq_no m) e2) as H2 by by apply handling_refs.
    unfold mbind, M_bind, modify, try_except. rewrite (submit_event_spec ev _ _ E4).
    change (facts (WSubmitting sb) (e2 <| e_submitted := e_submitted e2 ++ [ev] |>)). constructor.
    + apply (submitted_facts sb ev (fm_timestamp m) e2); try done;
        [apply (ha_settled _ _ H2)|apply (ha_pending _ _ H2)|unfold e2; fields; congruence..].
    + destruct (ha_credits _ _ H2 (WSubmitting sb)) as [C1 C2 C3 C4 C5]; [|by constructor].
      intros e'. right; right; right. by exists sb.
    + intros t ref' [= _ <-]. done.
  - pose proof (handling_released _ _ Hh) as Hr. unfold mbind, M_bind.
    destruct (release_input_state (fm_seq_no m) e1) as [evs E]. rewrite E in Hr |- *.
    unfold on_store, zoom. destruct (discard bracketed_ok request_id ref _) as [[u|ex'] st];
      (eapply facts_calm; [|exact Hr]; by constructor).
Qed.

Lemma discard_safe ref st : safe_ref ref → ∃ st', discard bracketed_ok request_id ref st = (Ok tt, st').
Proof.
  intros (name & Hs & ->). unfold discard, mbind, M_bind, lift. rewrite shared_memory_name_ref by done.
  unfold forget_name, unlink_if_present, modify. by eexists.
Qed.

(** The submission failed: the session will end. *)
Lemma submission_failed_facts sb e :
  facts (WSubmitting sb) e →
  match submission_failed request_id bracketed_ok sb e with
  | (Ok _, e') => False
  | (Raise ex, e') => is_submission_error ex = true ∧ facts WDone e'
  end.
Proof.
  intros [[(sess & Hacc & _) H2 H3] [C1 C2 C3 C4 C5] Hsafe].
  assert (∀ e', calm e e' → e_outstanding e' = e_outstanding e ∖ {[sb_seq_no sb]} → facts WDone e') as Hdone.
  { intros e' Hc Ho. constructor; [| |done].
    - exists sess. destruct Hc. unfold accepted_as in *. by rewrite ca_submitted.
    - destruct Hc. constructor.
      + by rewrite ca_capacity.
      + rewrite ca_capacity. unfold pending_events in *. apply subseteq_size in ca_out. lia.
      + rewrite ca_configured, Ho. intros Hcf. rewrite (C3 Hcf). set_solver.
      + by apply ca_dom.
      + rewrite Ho. intros x [Hx Hne]%elem_of_difference. unfold out_ok. rewrite ca_pending, ca_next.
        destruct (C5 x Hx) as [?|[?|[?|(sb' & [= <-] & E)]]]; [left; auto|auto|auto|].
        exfalso. by apply Hne, elem_of_singleton. }
  unfold submission_failed. unfold mbind at 1, M_bind at 1.
  pose proof (release_input_quiet (sb_seq_no sb) e) as Hc.
  destruct (release_input_state (sb_seq_no sb) e) as [ev E]. rewrite E in Hc |- *. simpl in Hc.
  unfold mbind at 1, M_bind at 1. destruct (sb_frame sb) as [[t ref]|] eqn:Ef.
  - unfold mbind at 1, M_bind at 1, modify, on_store, zoom.
    match goal with |- context [discard _ _ _ ?st] => destruct (discard_safe ref st) as [st' ->] end;
      [by eapply Hsafe|]. split; [reflexivity|]. apply Hdone; [|done].
    etrans; [exact Hc|]. constructor; try done. apply delete_subseteq.
  - split; [reflexivity|]. by apply Hdone.
Qed.

(** The submission was taken. *)
Lemma submitted_taken sb e r e' :
  facts (WSubmitting sb) e → submitted sb e = (r, e') → resting e' ∧ ∃ m, r = Ok m.
Proof.
  intros [[(sess & Hacc & Hn & Hf & Hl) H2 H3] [C1 C2 C3 C4 C5] _] E.
  assert (e' = e <| e_next_seq_no := e_next_seq_no e + 1 |> <| e_final_received := sb_final sb |>
    <| e_last_timestamp := match sb_frame sb with Some (t, _) => t | None => e_last_timestamp e end |> ∧ ∃ m, r = Ok m)
    as [-> Hr].
  { unfold submitted in E. destruct (sb_frame sb) as [[t ref]|]; injection E as <- <-; split; try (by eexists); by destruct e. }
  split; [|done]. constructor; [| |done].
  - constructor; fields.
    + exists sess. unfold accepted_as in *. fields. split; [done|]. split; [done|]. split; [done|]. by right.
    + congruence.
  - constructor; unfold pending_events in *; fields; try done. intros x Hx.
    destruct (C5 x Hx) as [?|[?|[?|(sb' & [= <-] & E')]]]; unfold out_ok; fields; [by left|right; left; lia|auto|].
    right; left. lia.
Qed.

(** ** The worker's steps *)

Lemma set_worker_facts wk w e : facts wk e →
  facts (x_worker (set_worker wk (w <| x_edge := e |>))) (x_edge (set_worker wk (w <| x_edge := e |>))).
Proof. done. Qed.

Lemma worker_reserved_facts x w :
  resting (x_edge w) → e_pending_frame (x_edge w) = None → e_configured (x_edge w) = true →
  has_credit (x_edge w) = true → waiting_ok x (x_edge w) →
  let w' := worker_reserved request_id session_id bracketed_ok x w in facts (x_worker w') (x_edge w').
Proof.
  intros H Hp Hcf Hcr Hx. destruct x as [m|p]; apply worker_step_facts.
  - pose proof (frame_reserved_facts m (x_edge w) H Hp Hcf Hcr Hx) as Hf. intros msg e E. rewrite E in Hf.
    destruct Hf as [F1 F2 _]. constructor; [done|by apply (credits_move WIdle)|done].
  - pose proof (frame_reserved_facts m (x_edge w) H Hp Hcf Hcr Hx) as Hf. intros ex e E. rewrite E in Hf. by left.
  - pose proof (prompt_reserved_facts p (x_edge w) H Hp Hcf Hcr Hx) as Hf. intros sb e E. by rewrite E in Hf.
  - pose proof (prompt_reserved_facts p (x_edge w) H Hp Hcf Hcr Hx) as Hf. intros ex e E. rewrite E in Hf. by left.
Qed.

Lemma worker_reserve_facts x w :
  resting (x_edge w) → e_pending_frame (x_edge w) = None → e_configured (x_edge w) = true →
  waiting_ok x (x_edge w) →
  let w' := worker_reserve request_id session_id bracketed_ok x w in facts (x_worker w') (x_edge w').
Proof.
  intros H Hp Hcf Hx. unfold worker_reserve. destruct (has_credit (x_edge w)) eqn:E; [by apply worker_reserved_facts|].
  destruct H as [H1 H2 _]. constructor; [done|by apply (credits_move WIdle)|done].
Qed.

(** An input is handled. *)
Lemma worker_item_facts x w :
  resting (x_edge w) →
  let w' := worker_item request_id session_id bracketed_ok new_name sha256 x w in facts (x_worker w') (x_edge w').
Proof.
  intros H. destruct x as [payload|[c|m|p| | |message]]; cbn [worker_item].
  - pose proof (handle_frame_bytes_facts payload (x_edge w) H) as Hf.
    apply worker_step_facts; intros ? e E; rewrite E in Hf; [done|by left].
  - apply worker_step_facts; unfold mbind, M_bind, lift; destruct (validate_configure c) as [c'|ex] eqn:Ev;
      try done; [| |by intros ? ? [= <- <-]; left].
    + intros msg e E. apply configure_facts in E as [[F1 F2 _] _]; [|done|by eapply validate_configure_capacity].
      constructor; [done|by apply (credits_move WIdle)|done].
    + intros ex e E. left. by apply configure_facts in E as [? _]; [|done|eapply validate_configure_capacity].
  - apply worker_step_facts; unfold mbind, M_bind, lift; destruct (validate_frame m) as [m'|ex] eqn:Ev;
      try done; [| |by intros ? ? [= <- <-]; left];
      destruct (prepare_frame m' (x_edge w)) as [[[]|ex'] e'] eqn:Ep; try done;
      apply prepare_frame_spec in Ep as [-> Hok].
    + intros a e [= <- <-]. destruct (Hok eq_refl) as (? & ? & ?). by apply worker_reserve_facts.
    + intros ex e [= <- <-]. by left.
  - apply worker_step_facts; unfold mbind, M_bind, lift; destruct (validate_prompt p) as [p'|ex] eqn:Ev;
      try done; [| |by intros ? ? [= <- <-]; left];
      destruct (prepare_prompt p' (x_edge w)) as [[[]|ex'] e'] eqn:Ep; try done;
      apply prepare_prompt_spec in Ep as [-> Hok].
    + intros a e [= <- <-]. destruct (Hok eq_refl) as (? & ? & ?). by apply worker_reserve_facts.
    + intros ex e [= <- <-]. by left.
  - assert (∀ r e, (_ ← set_closed; abort_request) (x_edge w) = (r, e) → resting e) as Hr.
    { intros r e E. assert (quiet (_ ← set_closed; abort_request)) as Hq
        by (apply bind_quiet; [apply set_closed_quiet|intros _; apply abort_request_quiet]).
      specialize (Hq (x_edge w)). rewrite E in Hq. by eapply facts_calm. }
    apply worker_step_facts.
    + intros waits e E. specialize (Hr _ _ E). destruct waits; [|by apply worker_loop_facts].
      destruct Hr as [F1 F2 _]. constructor; [done|by apply (credits_move WIdle)|done].
    + intros ex e E. left. by eapply Hr.
  - by apply worker_raised_facts.
  - by apply worker_raised_facts.
Qed.

Lemma exec_facts wk f w : quiet f → facts wk (x_edge w) → facts wk (x_edge (exec f w)).
Proof.
  intros Hf H. unfold exec, run. specialize (Hf (x_edge w)). destruct (f (x_edge w)) as [r e].
  by eapply facts_calm.
Qed.

(** What it awaited came back. *)
Lemma worker_back_facts b w w' :
  facts (x_worker w) (x_edge w) → worker_back request_id bracketed_ok b w = Some w' →
  facts (x_worker w') (x_edge w').
Proof.
  intros H. pose proof (resting_at (x_worker w) (x_edge w)) as Hrest. unfold worker_back.
  destruct (x_worker w) as [| |m|x|m|sb|seq m| |close m|] eqn:Ew; try done; intros <-%(inj Some).
  - specialize (Hrest H). destruct b; [|by apply worker_raised_facts..].
    apply worker_loop_facts. by apply (exec_facts WIdle); [apply log_sent_quiet|].
  - specialize (Hrest H). destruct b; [|by apply worker_raised_facts..].
    apply worker_loop_facts. by apply (exec_facts WIdle); [apply log_sent_quiet|].
  - pose proof (submission_failed_facts sb (x_edge w) H) as Hf.
    destruct b; apply worker_step_facts.
    + intros m e E. apply submitted_taken in E as [[F1 F2 _] _]; [|done].
      constructor; [done|by apply (credits_move WIdle)|done].
    + intros ex e E. by apply submitted_taken in E as [_ [? ?]].
    + intros a e E. by rewrite E in Hf.
    + intros ex e E. rewrite E in Hf. by right.
    + intros a e E. by rewrite E in Hf.
    + intros ex e E. rewrite E in Hf. by right.
  - specialize (Hrest H). destruct b; [|by apply worker_raised_facts..].
    apply worker_loop_facts. apply exec_facts; [apply set_accepted_quiet|].
    by apply exec_facts; [apply log_sent_quiet|].
  - specialize (Hrest H). destruct b; [by apply worker_loop_facts|by apply worker_raised_facts..].
Qed.
End Worker.
