(* ===== verification/EdgeWorld.v ===== *)
(** * Edge sessions: every event keeps the invariant

    The invariant of a session with its coroutines ([einv]), kept by every event, and what is
    left when the session is over. *)
From S2P Require Import Prelude PyNum Payload SessionState FrameStore Edge EdgeSteps EdgeInv EdgeWorker.
Local Open Scope Z_scope.

Section World.
Context (request_id session_id : string).
Context (bracketed_ok : list Ascii.ascii → bool) (new_name : gmap string bytes → result string).
Context (new_name_safe : ∀ env name, new_name env = Ok name → safe_name name).
Context (sha256 : bytes → string).
Implicit Types (e : Edge) (w : World).

Abbreviation facts := (EdgeWorker.facts request_id session_id).
Abbreviation step := (EdgeSteps.step request_id session_id bracketed_ok new_name sha256).

(** The tasks of the session are cancelled. *)
Definition cancelled w : bool :=
  match x_phase w with PhCancelling | PhAborting | PhNotifying | PhClosing | PhEnded => true | _ => false end.

(** Its local resources are released. *)
Definition released_phase w : bool :=
  match x_phase w with PhNotifying | PhClosing | PhEnded => true | _ => false end.

Record clean e : Prop := {
  cl_refs : e_frame_refs e = ∅;
  cl_pending : e_pending_frame e = None;
  cl_outstanding : e_outstanding e = ∅;
  cl_accepted : e_accepted e = ∅;
  cl_store : names_by_request (e_store e) !! request_id = None
}.

(** Its request, if there was one, is over. *)
Definition over e : Prop :=
  e_configured e = true → e_request_finished e = true ∨ e_abort_sent e = true.

Record einv w : Prop := {
  ei_facts : facts (x_worker w) (x_edge w);
  ei_created : x_phase w = PhCreating → x_worker w = WNone ∧ x_receiver w = RDone;
  ei_inputs : zlength (x_inputs w) ≤ 2 * MAX_INPUT_QUEUE_CAPACITY + 2;
  ei_stopping : x_phase w = PhStopping → e_closed (x_edge w) = true;
  ei_cancelled : cancelled w = true →
    x_worker w = WDone ∧ x_receiver w = RDone ∧ e_closed (x_edge w) = true;
  ei_released : released_phase w = true → (x_responder w = PNone ∨ x_responder w = PDone) ∧ clean (x_edge w);
  ei_aborting : x_phase w = PhAborting → e_abort_sent (x_edge w) = true;
  ei_aborted : released_phase w = true → over (x_edge w)
}.

(** ** A closed session stays closed *)

Abbreviation shut := (fun e : Edge => e_closed e = true).

Lemma quiet_shut {A} (f : ME A) : quiet f → stable shut f.
Proof. intros Hf e He. by apply (ca_closed _ _ (Hf e)). Qed.

Lemma store_shut {A} (m : M Store A) : stable shut (on_store m).
Proof. apply quiet_shut, quiet_store. Qed.

Local Ltac pieces :=
  repeat match goal with
  | |- stable _ (get ≫= _) => apply stable_get; intros ?
  | |- stable _ (_ ≫= _) => apply stable_bind; [|intros ?]
  | |- stable _ (try_except _ _) => apply stable_try; [|intros ?]
  | |- stable _ (mret _) => apply stable_ret
  | |- stable _ (lift _) => apply stable_lift
  | |- stable _ (guard_raise _ _) => apply stable_lift
  | |- stable _ (throw _) => by intros ?
  | |- stable _ (on_store _) => apply store_shut
  | |- stable _ (release_input _) => apply quiet_shut, release_input_quiet
  | |- stable _ (modify _) => by intros ?
  | |- stable _ (match _ with _ => _ end) => case_match
  end.

Lemma reserve_shut seq_no : stable shut (reserve_input seq_no).
Proof. unfold reserve_input. pieces. Qed.

Lemma submission_failed_shut sb : stable shut (submission_failed request_id bracketed_ok sb).
Proof. unfold submission_failed. pieces. Qed.

Lemma frame_reserved_shut m : stable shut (frame_reserved m).
Proof. unfold frame_reserved. pieces. apply reserve_shut. Qed.

Lemma prompt_reserved_shut p : stable shut (prompt_reserved request_id session_id bracketed_ok p).
Proof.
  unfold prompt_reserved. pieces; [apply reserve_shut| |apply submission_failed_shut].
  unfold submit_event. pieces.
Qed.

Lemma handle_frame_bytes_shut payload :
  stable shut (handle_frame_bytes request_id session_id bracketed_ok new_name sha256 payload).
Proof.
  unfold handle_frame_bytes. pieces; try (unfold store_frame; pieces); try (unfold submit_event; pieces).
  apply submission_failed_shut.
Qed.

Lemma submitted_shut sb : stable shut (submitted sb).
Proof. unfold submitted. pieces. Qed.

(** ** What the worker's steps leave alone *)

Record aside w w' : Prop := {
  as_phase : x_phase w' = x_phase w;
  as_inputs : x_inputs w' = x_inputs w;
  as_receiver : x_receiver w' = x_receiver w;
  as_closed : e_closed (x_edge w) = true → e_closed (x_edge w') = true
}.

#[global] Instance aside_preorder : PreOrder aside.
Proof. split; [by constructor|]. intros w1 w2 w3 [] []. constructor; try congruence. auto. Qed.

Lemma worker_raised_aside ex w : aside w (worker_raised ex w).
Proof. by constructor. Qed.

Lemma worker_loop_aside w : aside w (worker_loop w).
Proof. by constructor. Qed.

Lemma exec_aside f w : stable shut f → aside w (exec f w).
Proof.
  intros Hf. unfold exec, run. pose proof (Hf (x_edge w)) as H. destruct (f (x_edge w)) as [r e]. by constructor.
Qed.

Lemma worker_step_aside {A} (f : ME A) next w :
  stable shut f → (∀ a e, aside (w <| x_edge := e |>) (next a (w <| x_edge := e |>))) →
  aside w (worker_step f next w).
Proof.
  intros Hf Hn. unfold worker_step, run. pose proof (Hf (x_edge w)) as H.
  destruct (f (x_edge w)) as [[a|ex] e].
  - etrans; [|apply Hn]. by constructor.
  - etrans; [|apply worker_raised_aside]. by constructor.
Qed.

Lemma worker_reserved_aside x w : aside w (worker_reserved request_id session_id bracketed_ok x w).
Proof.
  destruct x; apply worker_step_aside; try by constructor.
  - apply frame_reserved_shut.
  - apply prompt_reserved_shut.
Qed.

Lemma worker_reserve_aside x w : aside w (worker_reserve request_id session_id bracketed_ok x w).
Proof. unfold worker_reserve. destruct (has_credit _); [apply worker_reserved_aside|by constructor]. Qed.

Lemma worker_item_aside x w :
  aside w (worker_item request_id session_id bracketed_ok new_name sha256 x w).
Proof.
  destruct x as [payload|[c|m|p| | |message]]; cbn [worker_item]; try apply worker_raised_aside;
    apply worker_step_aside.
  - apply handle_frame_bytes_shut.
  - by constructor.
  - unfold configure. pieces.
  - by constructor.
  - unfold prepare_frame, input_guards, validate_event_order. pieces.
  - intros a e. apply worker_reserve_aside.
  - unfold prepare_prompt, input_guards, validate_event_order. pieces.
  - intros a e. apply worker_reserve_aside.
  - apply quiet_shut, bind_quiet; [apply set_closed_quiet|]. intros _. apply abort_request_quiet.
  - intros [] e; by constructor.
Qed.

Lemma worker_back_aside b w w' :
  worker_back request_id bracketed_ok b w = Some w' → aside w w'.
Proof.
  unfold worker_back.
  destruct (x_worker w) as [| |m|x|m|sb|seq m| |close m|]; try done; intros <-%(inj Some).
  - destruct b; try apply worker_raised_aside. etrans; [|apply worker_loop_aside].
    by etrans; [apply (exec_aside (log_sent m)); apply quiet_shut, log_sent_quiet|constructor].
  - destruct b; try apply worker_raised_aside. etrans; [|apply worker_loop_aside].
    apply exec_aside, quiet_shut, log_sent_quiet.
  - destruct b; apply worker_step_aside; try (by constructor); try apply submission_failed_shut. apply submitted_shut.
  - destruct b; try apply worker_raised_aside. etrans; [|apply worker_loop_aside].
    etrans; [|apply exec_aside, quiet_shut, set_accepted_quiet]. apply exec_aside, quiet_shut, log_sent_quiet.
  - destruct b; try apply worker_raised_aside. apply worker_loop_aside.
Qed.

(** ** Moves *)

(** Before the tasks are cancelled, what a coroutine does is judged by the facts and the queue. *)
Lemma live_keeps w w' :
  einv w → cancelled w = false → x_phase w ≠ PhCreating → x_phase w' = x_phase w →
  facts (x_worker w') (x_edge w') → zlength (x_inputs w') ≤ 2 * MAX_INPUT_QUEUE_CAPACITY + 2 →
  (e_closed (x_edge w) = true → e_closed (x_edge w') = true) → einv w'.
Proof.
  intros [H1 H2 H3 H4 H5 H6 H7 H8] Hc Hcr Hp Hf Hi Hcl. unfold cancelled, released_phase in *.
  constructor; unfold cancelled, released_phase; rewrite ?Hp; try done;
    [auto|congruence|by destruct (x_phase w)..].
Qed.

(** Whoever is not waiting in its place is not there any more. *)
Lemma live_receiver w : einv w → x_receiver w ≠ RDone → cancelled w = false.
Proof. intros Hw Hr. destruct (cancelled w) eqn:E; [|done]. by destruct (ei_cancelled w Hw E) as (_ & ? & _). Qed.

Lemma live_worker w : einv w → x_worker w ≠ WDone → cancelled w = false.
Proof. intros Hw Hr. destruct (cancelled w) eqn:E; [|done]. by destruct (ei_cancelled w Hw E) as (? & _). Qed.

Lemma live_responder w :
  einv w → x_responder w ≠ PNone → x_responder w ≠ PDone → released_phase w = false.
Proof.
  intros Hw H1 H2. destruct (released_phase w) eqn:E; [|done]. by destruct (ei_released w Hw E) as ([?|?] & _).
Qed.

(** A quiet change by a coroutine that is not the worker. *)
Lemma calm_keeps w w' :
  einv w → released_phase w = false → calm (x_edge w) (x_edge w') → x_worker w' = x_worker w →
  x_phase w' = x_phase w → x_inputs w' = x_inputs w → (x_receiver w = RDone → x_receiver w' = RDone) → einv w'.
Proof.
  intros [H1 H2 H3 H4 H5 H6 H7 H8] Hr Hc Ew Ep Ei Er. unfold cancelled, released_phase in *. pose proof (ca_closed _ _ Hc).
  constructor; unfold cancelled, released_phase; rewrite ?Ew, ?Ep, ?Ei; try done.
  - by eapply facts_calm.
  - intros Hcr. destruct (H2 Hcr). auto.
  - auto.
  - intros Hcc. destruct (H5 Hcc) as (? & ? & ?). auto.
  - congruence.
  - intros Hpa. by apply (ca_abort _ _ Hc), H7.
  - congruence.
Qed.

Lemma exec_edge f w : x_edge (exec f w) = (f (x_edge w)).2.
Proof. unfold exec, run. by destruct (f (x_edge w)). Qed.

Lemma exec_calm f w : quiet f → calm (x_edge w) (x_edge (exec f w)).
Proof. intros Hf. rewrite exec_edge. apply Hf. Qed.

Lemma exec_other f w :
  x_worker (exec f w) = x_worker w ∧ x_phase (exec f w) = x_phase w ∧ x_inputs (exec f w) = x_inputs w ∧
  x_receiver (exec f w) = x_receiver w ∧ x_responder (exec f w) = x_responder w.
Proof. unfold exec, run. by destruct (f (x_edge w)). Qed.

(** ** The receiver *)

Lemma receive_keeps raw w : einv w → x_receiver w ≠ RDone → x_phase w ≠ PhCreating → einv (receive raw w).
Proof.
  intros Hw Hr Hcr. pose proof (live_receiver w Hw Hr) as Hlive.
  assert (released_phase w = false) as Hrel by (unfold cancelled, released_phase in *; by destruct (x_phase w)).
  assert (∀ code message, einv (receiver_stop code message w)) as Hstop.
  { intros code message. unfold receiver_stop. apply (calm_keeps w); done. }
  assert (∀ x, einv (enqueue x w)) as Henq.
  { intros x. unfold enqueue. destruct (Z.leb_spec (2 * e_capacity (x_edge w) + 2) (zlength (x_inputs w))); [done|].
    apply (live_keeps w); try done; [apply Hw|]. unfold receiver_loop. fields. rewrite zlength_snoc.
    pose proof (cr_capacity _ _ (fa_credits _ _ _ _ (ei_facts w Hw))). lia. }
  destruct raw as [| |payload|message|[]]; cbn [receive]; try apply Henq.
  - apply (calm_keeps w); done.
  - by apply (calm_keeps w).
  - destruct (_ <? _); [apply Hstop|apply Henq].
  - by apply (calm_keeps w).
  - apply (calm_keeps w); done.
Qed.

(** ** The response *)

Lemma responder_raised_keeps message w :
  einv w → released_phase w = false → einv (responder_raised message w).
Proof.
  intros Hw Hr. unfold responder_raised. destruct (e_abort_sent (x_edge w)); by apply (calm_keeps w).
Qed.

Lemma responder_chunk_keeps k w :
  einv w → released_phase w = false → einv (responder_chunk request_id bracketed_ok k w).
Proof.
  intros Hw Hr. unfold responder_chunk, run. pose proof (handle_chunk_quiet request_id bracketed_ok k (x_edge w)) as Hq.
  destruct (handle_chunk request_id bracketed_ok k (x_edge w)) as [[msgs|ex] e]; simpl in Hq.
  - destruct msgs; by apply (calm_keeps w).
  - apply responder_raised_keeps; [|done]. by apply (calm_keeps w).
Qed.

Lemma exec_keeps f w : einv w → released_phase w = false → quiet f → einv (exec f w).
Proof.
  intros Hw Hr Hf. destruct (exec_other f w) as (E1 & E2 & E3 & E4 & E5).
  apply (calm_keeps w); try done; [by apply exec_calm|congruence].
Qed.

Lemma response_closed_keeps w : einv w → released_phase w = false → einv (response_closed w).
Proof.
  intros Hw Hr. unfold response_closed.
  assert (einv (exec (_ ← set_closed; close_input_queue) w)) as H1.
  { apply exec_keeps; try done. apply bind_quiet; [apply set_closed_quiet|]. intros _. apply close_input_queue_quiet. }
  apply (calm_keeps _ _ H1); try done. unfold released_phase in *. by destruct (exec_other (_ ← set_closed; close_input_queue) w) as (_ & -> & _).
Qed.

Lemma deliver_keeps delivered m w : einv w → released_phase w = false → einv (deliver delivered m w).
Proof. intros Hw Hr. unfold deliver. destruct delivered; [|done]. by apply exec_keeps. Qed.
(** ** The end *)

Lemma facts_stopped wk e : e_closed e = true → facts wk e → facts WDone e.
Proof.
  intros Hcl [H1 [C1 C2 C3 C4 _] _]. constructor; [|constructor; try done; by left|done].
  destruct wk as [| |m|x|m|sb|seq m| |[] m|]; try (by apply settled_session in H1); try done.
  - destruct H1 as (H1 & _). by apply settled_session.
  - destruct H1 as [(sess & H1 & _) _ _]. by exists sess.
Qed.

Lemma set_accepted_all l e :
  ∃ ev, mforeach (λ p : Z * nat, set_accepted p.1) l e = (Ok tt, e <| e_events := ev |>).
Proof.
  revert e. induction l as [|p l IH]; intros e; [by exists (e_events e); destruct e|].
  simpl. unfold mbind, M_bind. destruct (set_accepted_state p.1 e) as [ev ->].
  destruct (IH (e <| e_events := ev |>)) as [ev' ->]. by exists ev'.
Qed.

Lemma close_input_queue_state e :
  ∃ ev, close_input_queue e = (Ok tt, e <| e_events := ev |> <| e_accepted := ∅ |> <| e_outstanding := ∅ |>).
Proof.
  unfold close_input_queue, mbind, M_bind, get. destruct (set_accepted_all (map_to_list (e_accepted e)) e) as [ev ->].
  by exists ev.
Qed.

(** Releasing leaves nothing of the session. *)
Lemma release_local_spec e :
  ∃ e', release_local_resources request_id e = (Ok tt, e') ∧ clean e' ∧ e_submitted e' = e_submitted e ∧
    e_capacity e' = e_capacity e ∧ e_closed e' = e_closed e ∧ (over e → over e') ∧
    e_sent e' = e_sent e ∧ e_next_seq_no e' = e_next_seq_no e ∧ e_configured e' = e_configured e.
Proof.
  unfold release_local_resources, on_store, zoom. unfold mbind at 1, M_bind at 1.
  destruct (cleanup_spec (λ _, Raise (KeyError "name")) ltac:(done) request_id (e_store e)) as (st & -> & Hn & _).
  unfold mbind, M_bind, modify.
  match goal with |- context [close_input_queue ?e1] => destruct (close_input_queue_state e1) as [ev ->] end.
  eexists. split; [done|]. split; [|done]. constructor; fields; try done. rewrite Hn. apply lookup_delete_eq.
Qed.

Lemma facts_released e e' :
  facts WDone e → clean e' → e_submitted e' = e_submitted e → e_capacity e' = e_capacity e → facts WDone e'.
Proof.
  intros [[sess H1] [C1 C2 C3 C4 C5] _] [R1 R2 R3 R4 R5] E1 E2. constructor; [|constructor|done].
  - exists sess. unfold accepted_as in *. by rewrite E1.
  - by rewrite E2.
  - unfold pending_events. rewrite R3, size_empty, E2. lia.
  - done.
  - by rewrite R3, R4.
  - rewrite R3. set_solver.
Qed.

Lemma teardown_release_keeps w :
  einv w → x_worker w = WDone → x_receiver w = RDone → e_closed (x_edge w) = true → over (x_edge w) →
  einv (teardown_release request_id w).
Proof.
  intros Hw Ewk Er Hcl Hov. unfold teardown_release, exec, run.
  destruct (release_local_spec (x_edge w)) as (e' & E & Hclean & E1 & E2 & E3 & E4 & _).
  pose proof (ei_facts w Hw) as Hf. rewrite Ewk in Hf.
  change (x_edge (w <| x_responder := _ |>)) with (x_edge w). rewrite E. fields.
  constructor; fields; rewrite ?Ewk; try done.
  - by eapply facts_released.
  - by destruct (e_request_finished e').
  - apply Hw.
  - by destruct (e_request_finished e').
  - intros _. split_and!; try done. congruence.
  - intros _. split; [|done]. destruct (x_responder w); auto.
  - by destruct (e_request_finished e').
  - auto.
Qed.
(** ** Every event *)

Lemma live_created w : einv w → x_worker w ≠ WNone → x_phase w ≠ PhCreating.
Proof. intros Hw H Hp. by destruct (ei_created w Hw Hp). Qed.

Lemma live_released w : cancelled w = false → released_phase w = false.
Proof. unfold cancelled, released_phase. by destruct (x_phase w). Qed.

(** What the worker does is judged by its facts. *)
Lemma worker_keeps w w' :
  einv w → x_worker w ≠ WDone → x_worker w ≠ WNone → aside w w' → facts (x_worker w') (x_edge w') → einv w'.
Proof.
  intros Hw H1 H2 [A1 A2 A3 A4] Hf. apply (live_keeps w); try done.
  - by apply live_worker.
  - by apply live_created.
  - rewrite A2. apply Hw.
Qed.

Lemma finish_run_keeps w : einv w → cancelled w = false → einv (finish_run w).
Proof.
  intros Hw Hl. assert (einv (exec set_closed w)) as [F1 F2 F3 F4 F5 F6 F7 F8].
  { apply exec_keeps; [done|by apply live_released|apply set_closed_quiet]. }
  by constructor.
Qed.

Lemma cancel_tasks_keeps w : einv w → x_phase w = PhStopping → einv (cancel_tasks w).
Proof.
  intros [F1 F2 F3 F4 F5 F6 F7 F8] Hp. specialize (F4 Hp). constructor; unfold cancelled, released_phase; fields; try done.
  by apply (facts_stopped (x_worker w)).
Qed.

Lemma begin_teardown_keeps w : einv w → x_phase w = PhCancelling → einv (begin_teardown request_id w).
Proof.
  intros Hw Hp. destruct (ei_cancelled w Hw) as (E1 & E2 & E3); [by unfold cancelled; rewrite Hp|].
  assert (einv (exec set_closed w)) as H1.
  { apply exec_keeps; [done|by unfold released_phase; rewrite Hp|apply set_closed_quiet]. }
  unfold begin_teardown. set (w1 := exec set_closed w) in *.
  destruct (_ && _) eqn:Eb.
  2: { apply teardown_release_keeps; try done. intros Hcf. rewrite Hcf, andb_true_r in Eb. left. by apply negb_false_iff. }
  unfold run, abort_request. unfold mbind, M_bind, get. destruct (e_abort_sent (x_edge w1)) eqn:Ea.
  - apply teardown_release_keeps; try done. by right.
  - destruct H1 as [G1 G2 G3 G4 G5 G6 G7 G8]. constructor; unfold cancelled, released_phase; fields; try done.
    by eapply facts_calm; [|exact G1].
Qed.

Lemma created_keeps w : einv w → x_phase w = PhCreating →
  einv (exec (log_sent OCreated) w <| x_worker := WIdle |> <| x_receiver := RWaiting |> <| x_phase := PhRunning |>).
Proof.
  intros Hw Hp. assert (einv (exec (log_sent OCreated) w)) as [F1 F2 F3 F4 F5 F6 F7 F8].
  { apply exec_keeps; [done|by unfold released_phase; rewrite Hp|apply log_sent_quiet]. }
  destruct (F2 Hp) as [Ew _]. rewrite Ew in F1.
  constructor; unfold cancelled, released_phase; fields; try done.
  destruct F1 as [G1 G2 _]. constructor; [done|by apply (credits_move WNone)|done].
Qed.

Lemma notified_keeps delivered w : einv w → x_phase w = PhNotifying →
  einv (deliver delivered (OSessionDone true) w <| x_phase := PhClosing |>).
Proof.
  intros [F1 F2 F3 F4 F5 F6 F7 F8] Hp. unfold cancelled, released_phase in *. rewrite Hp in *.
  destruct (F6 eq_refl) as [Hr [R1 R2 R3 R4 R5]].
  destruct delivered; constructor; unfold cancelled, released_phase; fields; try done.
  by eapply facts_calm; [|exact F1].
Qed.

Lemma ended_keeps w : einv w → x_phase w = PhClosing → einv (w <| x_phase := PhEnded |>).
Proof.
  intros [F1 F2 F3 F4 F5 F6 F7 F8] Hp. unfold cancelled, released_phase in *. rewrite Hp in *.
  by constructor; unfold cancelled, released_phase; fields.
Qed.
Lemma worker_sent_keeps close m delivered w :
  einv w → x_worker w = WRejecting close m →
  einv (worker_loop (if close : bool then exec set_closed (deliver delivered m w) else deliver delivered m w)).
Proof.
  intros Hw Ew. assert (cancelled w = false) as Hl by (apply live_worker; [done|by rewrite Ew]).
  assert (x_phase w ≠ PhCreating) as Hc by (apply live_created; [done|by rewrite Ew]).
  assert (einv (deliver delivered m w)) as H1 by (apply deliver_keeps; [done|by apply live_released]).
  assert (aside w (deliver delivered m w)) as Ha.
  { destruct delivered; [|reflexivity]. apply exec_aside, quiet_shut, log_sent_quiet. }
  assert (x_worker (deliver delivered m w) = WRejecting close m) as Ew1 by by destruct delivered.
  assert (cancelled (deliver delivered m w) = false) as Hl1 by (apply live_worker; [done|by rewrite Ew1]).
  set (w1 := deliver delivered m w) in *. clearbody w1. pose proof (ei_facts w1 H1) as Hf. rewrite Ew1 in Hf.
  destruct close.
  - assert (einv (exec set_closed w1)) as H2.
    { apply exec_keeps; [done|by apply live_released|apply set_closed_quiet]. }
    apply (live_keeps _ _ H2); try done; [by rewrite <- (as_phase _ _ Ha) in Hc|..].
    + apply (facts_stopped (WRejecting true m)); [done|]. apply exec_facts; [apply set_closed_quiet|done].
    + apply H2.
  - apply (live_keeps _ _ H1); try done; [by rewrite <- (as_phase _ _ Ha) in Hc| |apply H1].
    apply worker_loop_facts. exact (resting_at _ _ (WRejecting false m) _ Hf).
Qed.

Lemma input_keeps x rest w :
  einv w → x_worker w = WIdle → x_inputs w = x :: rest →
  einv (if e_closed (x_edge w) then w <| x_inputs := rest |> <| x_worker := WDone |>
        else worker_item request_id session_id bracketed_ok new_name sha256 x (w <| x_inputs := rest |>)).
Proof.
  intros Hw Ew Ei. assert (cancelled w = false) as Hl by (apply live_worker; [done|by rewrite Ew]).
  assert (x_phase w ≠ PhCreating) as Hc by (apply live_created; [done|by rewrite Ew]).
  pose proof (ei_facts w Hw) as Hf. pose proof (ei_inputs w Hw) as Hi. rewrite Ei, zlength_cons in Hi. rewrite Ew in Hf.
  assert (einv (w <| x_inputs := rest |>)) as H1.
  { apply (live_keeps w); try done; fields; [by rewrite Ew|lia]. }
  destruct (e_closed (x_edge w)) eqn:E.
  - apply (live_keeps _ _ H1); try done; [|fields; lia]. by apply (facts_stopped WIdle).
  - apply (worker_keeps _ _ H1); [fields; by rewrite Ew..|apply worker_item_aside|by apply worker_item_facts].
Qed.

Lemma live_response w : einv w → x_responder w ≠ PNone → x_responder w ≠ PDone → einv w ∧ released_phase w = false.
Proof. intros Hw H1 H2. split; [done|by apply live_responder]. Qed.

(** Whose event it is. *)
Inductive Actor : Type := AReceiver | AWorker | AResponse | ARun.

Definition actor (ev : Event) : Actor :=
  match ev with
  | EReceive _ | ETimeout | EReceiverSent _ => AReceiver
  | EInput | ECredit | EWorkerBack _ | EWorkerSent _ => AWorker
  | EChunk _ | EChunkError _ | EChunksEnd | EAccepted | EResponderBack _ | EResponderSent _ => AResponse
  | _ => ARun
  end.

Lemma receiver_event_keeps ev w w' :
  actor ev = AReceiver → einv w → step ev w = Some w' → einv w'.
Proof.
  intros Ha Hw. destruct ev as [b|raw| |delivered| | |b|delivered|k|message| | |b|delivered| | | | | |delivered|];
    try discriminate; cbn [EdgeSteps.step].
  - destruct (x_receiver w) eqn:Er; try done. intros <-%(inj Some). apply receive_keeps; [done|by rewrite Er|].
    intros Hp. destruct (ei_created w Hw Hp). congruence.
  - destruct (x_receiver w) eqn:Er; try done. intros <-%(inj Some).
    assert (released_phase w = false) by (apply live_released, live_receiver; [done|by rewrite Er]).
    destruct (e_configured _); apply (calm_keeps w); try done; fields; congruence.
  - destruct (x_receiver w) as [|stop m|] eqn:Er; try done. intros <-%(inj Some).
    assert (released_phase w = false) as Hr by (apply live_released, live_receiver; [done|by rewrite Er]).
    assert (x_receiver w = RDone → False) as Hnr by congruence.
    destruct stop, delivered; apply (calm_keeps w); try done; fields; by intros ?%Hnr.
Qed.

Lemma worker_event_keeps ev w w' :
  actor ev = AWorker → einv w → step ev w = Some w' → einv w'.
Proof.
  intros Ha Hw. destruct ev as [b|raw| |delivered| | |b|delivered|k|message| | |b|delivered| | | | | |delivered|];
    try discriminate; cbn [EdgeSteps.step].
  - destruct (x_worker w) eqn:Ew; try done. destruct (x_inputs w) as [|x rest] eqn:Ei; [done|].
    intros <-%(inj Some). pose proof (input_keeps x rest w Hw Ew Ei) as H. exact H.
  - destruct (x_worker w) as [| |m|x|m|sb|seq m| |close m|] eqn:Ew; try done.
    destruct (has_credit _) eqn:Ec; [|done]. intros <-%(inj Some).
    pose proof (ei_facts w Hw) as Hf. rewrite Ew in Hf. destruct Hf as [(Hs & Hp & Hx & Hcf) Hcr _].
    apply (worker_keeps w); [done|by rewrite Ew..|apply worker_reserved_aside|].
    apply (worker_reserved_facts request_id session_id bracketed_ok new_name); try done. constructor; [done|by apply (credits_move (WCredit x))|done].
  - intros Hb. apply (worker_keeps w); [done| | |by eapply worker_back_aside|].
    + intros E. unfold worker_back in Hb. by rewrite E in Hb.
    + intros E. unfold worker_back in Hb. by rewrite E in Hb.
    + eapply worker_back_facts; [done|apply Hw|done].
  - destruct (x_worker w) as [| |m|x|m|sb|seq m| |close m|] eqn:Ew; try done. intros <-%(inj Some).
    by apply worker_sent_keeps.
Qed.

Lemma response_event_keeps ev w w' :
  actor ev = AResponse → einv w → step ev w = Some w' → einv w'.
Proof.
  intros Ha Hw. destruct ev as [b|raw| |delivered| | |b|delivered|k|message| | |b|delivered| | | | | |delivered|];
    try discriminate; cbn [EdgeSteps.step].
  - destruct (x_responder w) eqn:Er; try done. intros <-%(inj Some).
    destruct (live_response w) as [_ Hr]; [done|by rewrite Er..|].
    destruct (awaited _ k); [by apply (calm_keeps w)|by apply responder_chunk_keeps].
  - destruct (x_responder w) eqn:Er; try done. intros <-%(inj Some).
    destruct (live_response w) as [_ Hr]; [done|by rewrite Er..|]. by apply responder_raised_keeps.
  - destruct (x_responder w) eqn:Er; try done. intros <-%(inj Some).
    destruct (live_response w) as [_ Hr]; [done|by rewrite Er..|].
    assert (einv (exec (response_ended request_id) w)) as H1 by (apply exec_keeps; try done; apply response_ended_quiet).
    apply (calm_keeps _ _ H1); try done. unfold released_phase in *. by destruct (exec_other (response_ended request_id) w) as (_ & -> & _).
  - destruct (x_responder w) as [| |v k| | | | |] eqn:Er; try done. destruct (default _ _); [|done]. intros <-%(inj Some).
    destruct (live_response w) as [_ Hr]; [done|by rewrite Er..|]. by apply responder_chunk_keeps.
  - destruct (x_responder w) as [| |v k|m rest| |m| |] eqn:Er; try done; intros <-%(inj Some);
      (destruct (live_response w) as [_ Hr]; [done|by rewrite Er..|]).
    + destruct b; try by apply responder_raised_keeps.
      assert (einv (exec (log_sent m) w)) as H1 by by apply exec_keeps.
      destruct rest; by apply (calm_keeps _ _ H1).
    + destruct b; try by apply responder_raised_keeps. apply response_closed_keeps; [by apply exec_keeps|done].
    + by apply (calm_keeps w).
  - destruct (x_responder w) as [| |v k|m rest| |m| |] eqn:Er; try done; intros <-%(inj Some);
      (destruct (live_response w) as [_ Hr]; [done|by rewrite Er..|]).
    apply response_closed_keeps; [by apply deliver_keeps|]. by destruct delivered.
Qed.

Lemma run_event_keeps ev w w' :
  actor ev = ARun → einv w → step ev w = Some w' → einv w'.
Proof.
  intros Ha Hw. destruct ev as [b|raw| |delivered| | |b|delivered|k|message| | |b|delivered| | | | | |delivered|];
    try discriminate; cbn [EdgeSteps.step].
  - destruct b, (x_phase w) eqn:Hp; try done; intros <-%(inj Some);
      [by apply created_keeps|by apply finish_run_keeps; [|unfold cancelled; rewrite Hp]..].
  - destruct (x_phase w) eqn:Hp; try done. intros Hf.
    assert (w' = finish_run w) as -> by (destruct (x_receiver w), (x_worker w); by simplify_eq).
    by apply finish_run_keeps; [|unfold cancelled; rewrite Hp].
  - destruct (x_phase w) eqn:Hp; try done; intros <-%(inj Some); by apply finish_run_keeps; [|unfold cancelled; rewrite Hp].
  - destruct (x_phase w) eqn:Hp; try done; intros <-%(inj Some). by apply cancel_tasks_keeps.
  - destruct (x_phase w) eqn:Hp; try done; intros <-%(inj Some). by apply begin_teardown_keeps.
  - destruct (x_phase w) eqn:Hp; try done; intros <-%(inj Some).
    destruct (ei_cancelled w Hw) as (E1 & E2 & E3); [by unfold cancelled; rewrite Hp|]. apply teardown_release_keeps; try done. right. by apply (ei_aborting w Hw).
  - destruct (x_phase w) eqn:Hp; try done; intros <-%(inj Some). by apply notified_keeps.
  - destruct (x_phase w) eqn:Hp; try done; intros <-%(inj Some). by apply ended_keeps.
Qed.

Lemma event_keeps ev w w' : einv w → step ev w = Some w' → einv w'.
Proof.
  intros Hw Hs. destruct (actor ev) eqn:E; [by eapply receiver_event_keeps|by eapply worker_event_keeps|
    by eapply response_event_keeps|by eapply run_event_keeps].
Qed.
End World.
