(* ===== verification/EdgeSafe.v ===== *)
(** * Edge sessions: what a session guarantees

    Of every reachable state: the model's queue takes what the session handed it, in order and
    without an exception; credits and the input queue keep their bounds; and the teardown comes
    to an end that leaves nothing of the session. *)
From S2P Require Import Prelude PyNum Payload SessionState FrameStore Edge EdgeSteps EdgeInv EdgeWorker EdgeWorld.
Local Open Scope Z_scope.

Section Safe.
Context (request_id session_id : string).
Context (bracketed_ok : list Ascii.ascii → bool) (new_name : gmap string bytes → result string).
Context (sha256 : bytes → string).
Implicit Types (e : Edge) (w : World).

Abbreviation steps := (EdgeSteps.steps request_id session_id bracketed_ok new_name sha256).
Abbreviation einv := (EdgeWorld.einv request_id session_id).

Lemma started_einv allow store : einv (started allow store).
Proof.
  constructor; try done. constructor; [| |done].
  - constructor; [|done]. exists (new_session request_id session_id). split; [by repeat constructor|]. auto.
  - by constructor.
Qed.

(** A state a session comes to. *)
Definition reachable (allow_benchmark : bool) (store : Store) w : Prop :=
  ∃ evs, steps evs (started allow_benchmark store) = Some w.

(** ** The model's side *)

(** The scheduler opens the request's queue and ingests the dictionaries it is sent. *)
Definition ingest_all (data : list (gmap string pyval)) : M Controller unit :=
  _ ← open request_id session_id;
  mforeach (fun d => _ ← ingest request_id (UData (ODict d)); mret tt) data.

Lemma accept_pending ev sess sess' :
  accept ev sess = (Ok tt, sess') → s_pending_events sess' = s_pending_events sess ++ [ev].
Proof.
  unfold accept, mbind, M_bind, get, guard_raise, raise_if, lift, modify.
  repeat case_match; intros; by simplify_eq/=.
Qed.

Lemma accept_all_pending evs sess sess' :
  accept_all evs sess = (Ok tt, sess') → s_pending_events sess' = s_pending_events sess ++ evs.
Proof.
  unfold accept_all. revert sess. induction evs as [|ev evs IH]; intros sess; simpl.
  - intros [= <-]. by rewrite app_nil_r.
  - unfold mbind, M_bind. destruct (accept ev sess) as [[[]|] s1] eqn:E; [|done].
    intros ->%IH. rewrite (accept_pending _ _ _ E). by rewrite <- app_assoc.
Qed.

(** A sound event is rebuilt as it was. *)
Lemma sound_roundtrip ev : sound_event ev → ∃ d, to_dict ev = Ok d ∧ from_dict (ODict d) = Ok ev.
Proof.
  intros [Hwf [ts Hts]]. destruct (roundtrip_event ev Hwf) as (d & f & Hf & Hd & Hr). exists d. split; [done|].
  rewrite Hr. rewrite Hts in Hf. simpl in Hf. simplify_eq/=. f_equal. destruct ev. simpl in *. by subst.
Qed.

Lemma ingest_one d ev sess sess' (c : Controller) :
  c !! request_id = Some sess → from_dict (ODict d) = Ok ev → accept ev sess = (Ok tt, sess') →
  ingest request_id (UData (ODict d)) c = (Ok ev, <[request_id := sess']> c).
Proof.
  intros Hc Hd Ha. unfold ingest, on_session, mbind, M_bind, get, lift, update_event. rewrite Hc, Hd, Ha. done.
Qed.

Lemma ingest_accepted evs sess sess' (c : Controller) :
  accept_all evs sess = (Ok tt, sess') → Forall sound_event evs → c !! request_id = Some sess →
  ∃ data, rmapM to_dict evs = Ok data ∧
    mforeach (λ d, _ ← ingest request_id (UData (ODict d)); mret tt) data c = (Ok tt, <[request_id := sess']> c).
Proof.
  unfold accept_all. revert sess c. induction evs as [|ev evs IH]; intros sess c; simpl.
  - intros [= <-] _ Hc. exists []. split; [done|]. simpl. by rewrite insert_id.
  - unfold mbind at 1, M_bind at 1. destruct (accept ev sess) as [[[]|] s1] eqn:E; [|done].
    intros Hall [Hev Hevs]%Forall_cons Hc. destruct (sound_roundtrip ev Hev) as (d & Hd & Hr).
    destruct (IH s1 (<[request_id := s1]> c) Hall Hevs) as (data & Hm & Hi); [apply lookup_insert_eq|].
    exists (d :: data). rewrite Hd. simpl. rewrite Hm. split; [done|]. cbn [mforeach].
    unfold mbind, M_bind. rewrite (ingest_one d ev sess s1 c Hc Hr E). etrans; [exact Hi|].
    by rewrite insert_insert_eq.
Qed.

Context (new_name_safe : ∀ env name, new_name env = Ok name → safe_name name).

Lemma steps_einv evs w w' : einv w → steps evs w = Some w' → einv w'.
Proof.
  revert w. induction evs as [|ev evs IH]; intros w Hw; simpl; [by intros [= <-]|].
  destruct (step _ _ _ _ _ ev w) as [w1|] eqn:E; [|done]. simpl. apply IH.
  by eapply event_keeps.
Qed.

Lemma reachable_einv allow store w : reachable allow store w → einv w.
Proof. intros [evs Hs]. exact (steps_einv _ _ _ (started_einv allow store) Hs). Qed.

Lemma facts_accepted wk e : facts request_id session_id wk e → ∃ sess, accepted_as request_id session_id e sess.
Proof.
  intros [H1 _ _]. destruct wk as [| |m|x|m|sb|seq m| |[] m|]; try (by apply settled_session in H1); try done.
  - destruct H1 as (H1 & _). by apply settled_session.
  - destruct H1 as [(sess & H1 & _) _ _]. by exists sess.
Qed.

(** C7: What a session hands to the model is taken: after any interleaving of client messages,
    chunks, failures and the teardown, the events the session submitted serialise, and the
    scheduler, opening the request's queue and ingesting these dictionaries in order, raises
    nothing and ends with exactly these events in its queue. *)
Theorem edge_events_accepted allow store w :
  reachable allow store w →
  ∃ data c sess, rmapM to_dict (e_submitted (x_edge w)) = Ok data ∧ ingest_all data ∅ = (Ok tt, c) ∧
    session_get request_id c = Some sess ∧ s_pending_events sess = e_submitted (x_edge w).
Proof.
  intros Hs. pose proof (reachable_einv _ _ _ Hs) as [Hf _ _ _ _ _ _ _].
  destruct (facts_accepted _ _ Hf) as (sess & Hacc & _ & _ & Hev).
  destruct (ingest_accepted _ _ _ {[request_id := new_session request_id session_id]} Hacc Hev) as (data & Hd & Hi);
    [apply lookup_singleton_eq|].
  eexists data, _, sess. split; [done|]. split; [exact Hi|]. split; [apply lookup_insert_eq|].
  by apply accept_all_pending in Hacc.
Qed.

(** C33: A client never outruns its credits: in every state a session reaches, the events whose
    credit is out number at most the configured capacity, itself at most 256; each of them is
    one under way or one the model has, unless the session is closed; and the queue of messages
    stays within its maximal size, so that [put_nowait] cannot fail. *)
Theorem edge_credits_bounded allow store w :
  reachable allow store w →
  Z.of_nat (pending_events (x_edge w)) ≤ e_capacity (x_edge w) ≤ MAX_INPUT_QUEUE_CAPACITY ∧
  (∀ seq_no, seq_no ∈ e_outstanding (x_edge w) → out_ok (x_worker w) (x_edge w) seq_no) ∧
  zlength (x_inputs w) ≤ 2 * MAX_INPUT_QUEUE_CAPACITY + 2.
Proof.
  intros Hs. pose proof (reachable_einv _ _ _ Hs) as [[_ [C1 C2 C3 C4 C5] _] _ Hi _ _ _ _ _].
  split; [lia|]. by split.
Qed.

(** ** The teardown *)

(** How many steps of [run] and [_teardown] are left at most. *)
Definition rank (p : Phase) : nat :=
  match p with
  | PhCreating => 7
  | PhRunning => 6
  | PhStopping => 5
  | PhCancelling => 4
  | PhAborting => 3
  | PhNotifying => 2
  | PhClosing => 1
  | PhEnded => 0
  end.

(** [run] does not wait for its two tasks any more: one of them is over, or the end has begun. *)
Definition ending (w : World) : Prop :=
  x_phase w ≠ PhCreating ∧ (x_phase w = PhRunning → x_receiver w = RDone ∨ x_worker w = WDone).

(** An event of [run] or [_teardown], their being cancelled included. *)
Definition of_run (ev : Event) : bool := match actor ev with ARun => true | _ => false end.

Definition run_events (evs : list Event) : nat := length (List.filter of_run evs).

Lemma teardown_release_rank w : (rank (x_phase (teardown_release request_id w)) ≤ 2)%nat.
Proof.
  unfold teardown_release. set (w1 := exec _ _). clearbody w1. fields. destruct (e_request_finished _); simpl; lia.
Qed.

Lemma begin_teardown_rank w : (rank (x_phase (begin_teardown request_id w)) ≤ 3)%nat.
Proof.
  unfold begin_teardown. pose proof teardown_release_rank as Hr.
  destruct (_ && _); [|by etrans; [apply Hr|lia]].
  destruct (run abort_request _) as [[[]|] w2]; [simpl; lia|by etrans; [apply Hr|lia]..].
Qed.

Abbreviation step := (step request_id session_id bracketed_ok new_name sha256).

Lemma run_event_rank ev w w' :
  of_run ev = true → step ev w = Some w' → (rank (x_phase w') < rank (x_phase w))%nat.
Proof.
  intros Ha. destruct ev as [b|raw| |delivered| | |b|delivered|k|message| | |b|delivered| | | | | |delivered|];
    try discriminate; cbn [EdgeSteps.step].
  - destruct b, (x_phase w); try done; intros <-%(inj Some); simpl; lia.
  - destruct (x_phase w); try done. intros Hf.
    assert (w' = finish_run w) as -> by (destruct (x_receiver w), (x_worker w); by simplify_eq). simpl; lia.
  - destruct (x_phase w); try done; intros <-%(inj Some); simpl; lia.
  - destruct (x_phase w); try done; intros <-%(inj Some); simpl; lia.
  - destruct (x_phase w); try done; intros <-%(inj Some). apply Nat.lt_succ_r, begin_teardown_rank.
  - destruct (x_phase w); try done; intros <-%(inj Some). apply Nat.lt_succ_r, teardown_release_rank.
  - destruct (x_phase w); try done; intros <-%(inj Some). destruct delivered; simpl; lia.
  - destruct (x_phase w); try done; intros <-%(inj Some); simpl; lia.
Qed.

(** The other coroutines neither move [run] nor come back once they are over. *)
Record waits (w w' : World) : Prop := {
  wt_phase : x_phase w' = x_phase w;
  wt_receiver : x_receiver w = RDone → x_receiver w' = RDone;
  wt_worker : x_worker w = WDone → x_worker w' = WDone
}.

#[local] Instance waits_trans : Transitive waits.
Proof. intros w1 w2 w3 [P1 R1 W1] [P2 R2 W2]. constructor; [congruence|auto..]. Qed.

Lemma waits_exec f w : waits w (exec f w).
Proof. destruct (exec_other f w) as (E1 & E2 & _ & E4 & _). by constructor; rewrite ?E1, ?E2, ?E4. Qed.

Lemma waits_deliver b m w : waits w (deliver b m w).
Proof. unfold deliver. destruct b; [apply waits_exec|by constructor]. Qed.

Lemma waits_responder p w : waits w (set_responder p w).
Proof. by constructor. Qed.

Lemma waits_receiver r w : x_receiver w ≠ RDone → waits w (w <| x_receiver := r |>).
Proof. by constructor. Qed.

Lemma waits_receive raw w : x_receiver w ≠ RDone → waits w (receive raw w).
Proof.
  intros Hr. assert (∀ r x, waits x (exec set_closed w) → waits x (exec set_closed w <| x_receiver := r |>)) as Hstop.
  { intros r x Hx. etrans; [exact Hx|]. apply waits_receiver.
    by destruct (exec_other set_closed w) as (_ & _ & _ & -> & _). }
  assert (∀ x, waits w (enqueue x w)) as Hq.
  { intros x. unfold enqueue. destruct (_ <=? _); [apply Hstop, waits_exec|by constructor]. }
  destruct raw as [| |payload|message|[]]; try apply Hq; try (by constructor); try apply Hstop, waits_exec.
  cbn [receive]. destruct (_ <? _); [apply Hstop, waits_exec|apply Hq].
Qed.

Lemma waits_aside w w' : x_worker w ≠ WDone → aside w w' → waits w w'.
Proof. intros Hw [A1 A2 A3 A4]. constructor; congruence. Qed.

Lemma waits_raised message w : waits w (responder_raised message w).
Proof. unfold responder_raised. destruct (e_abort_sent _); apply waits_responder. Qed.

Lemma waits_chunk k w : waits w (responder_chunk request_id bracketed_ok k w).
Proof.
  unfold responder_chunk. pose proof (waits_exec (_ ← handle_chunk request_id bracketed_ok k; mret tt) w) as Hx.
  unfold exec, run in *. revert Hx. unfold mbind, M_bind.
  destruct (handle_chunk _ _ k (x_edge w)) as [[msgs|e] s]; intros Hx; (etrans; [exact Hx|]).
  - destruct msgs; apply waits_responder.
  - apply waits_raised.
Qed.

Lemma waits_closed w : waits w (response_closed w).
Proof. etrans; [apply waits_exec|]. apply waits_responder. Qed.

Lemma other_waits ev w w' : of_run ev = false → step ev w = Some w' → waits w w'.
Proof.
  intros Ha. destruct ev as [b|raw| |delivered| | |b|delivered|k|message| | |b|delivered| | | | | |delivered|];
    try discriminate; cbn [EdgeSteps.step].
  - destruct (x_receiver w) eqn:Er; try done. intros <-%(inj Some). apply waits_receive. congruence.
  - destruct (x_receiver w) eqn:Er; try done. intros <-%(inj Some).
    destruct (e_configured _); [apply waits_receiver; congruence|]. etrans; [apply (waits_exec set_closed)|].
    apply waits_receiver. destruct (exec_other set_closed w) as (_ & _ & _ & -> & _). congruence.
  - destruct (x_receiver w) as [|stop m|] eqn:Er; try done. intros <-%(inj Some).
    assert (x_receiver (deliver delivered m w) ≠ RDone) as Hr by (destruct delivered; simpl; congruence).
    destruct stop; (etrans; [apply (waits_deliver delivered m)|by apply waits_receiver]).
  - destruct (x_worker w) eqn:Ew; try done. destruct (x_inputs w) as [|i rest]; [done|]. intros <-%(inj Some).
    assert (waits w (w <| x_inputs := rest |>)) as Hi by by constructor. etrans; [exact Hi|].
    apply waits_aside; [fields; congruence|]. destruct (e_closed _); [by constructor|apply worker_item_aside].
  - destruct (x_worker w) eqn:Ew; try done. destruct (has_credit _); [|done]. intros <-%(inj Some).
    apply waits_aside; [congruence|apply worker_reserved_aside].
  - intros Hb. apply waits_aside; [|by eapply worker_back_aside].
    intros E. unfold worker_back in Hb. by rewrite E in Hb.
  - destruct (x_worker w) as [| |m|i|m|sb|n m| |close m|] eqn:Ew; try done. intros <-%(inj Some).
    assert (x_worker (deliver delivered m w) = WRejecting close m) as Ed by by destruct delivered.
    etrans; [apply (waits_deliver delivered m)|]. apply waits_aside; [|].
    + by rewrite Ed.
    + destruct close; [|apply worker_loop_aside].
      etrans; [apply (exec_aside set_closed), quiet_shut, set_closed_quiet|apply worker_loop_aside].
  - destruct (x_responder w); try done. intros <-%(inj Some).
    destruct (awaited _ _); [apply waits_responder|apply waits_chunk].
  - destruct (x_responder w); try done. intros <-%(inj Some). apply waits_raised.
  - destruct (x_responder w); try done. intros <-%(inj Some). etrans; [apply waits_exec|apply waits_responder].
  - destruct (x_responder w); try done. destruct (default _ _); [|done]. intros <-%(inj Some). apply waits_chunk.
  - destruct (x_responder w) as [| |v k|m rest| |m| |]; try done; intros <-%(inj Some).
    + destruct b; try apply waits_raised. etrans; [apply (waits_exec (log_sent m))|].
      destruct rest; apply waits_responder.
    + destruct b; try apply waits_raised. etrans; [apply waits_exec|apply waits_closed].
    + apply waits_responder.
  - destruct (x_responder w); try done. intros <-%(inj Some). etrans; [apply waits_deliver|apply waits_closed].
Qed.

Lemma run_events_bound evs w w' :
  steps evs w = Some w' → (run_events evs + rank (x_phase w') ≤ rank (x_phase w))%nat.
Proof.
  revert w. induction evs as [|ev evs IH]; intros w; simpl; [by intros [= <-]|].
  destruct (step ev w) as [w1|] eqn:E; [|done]. simpl. intros Hs%IH. unfold run_events in *. simpl.
  destruct (of_run ev) eqn:Ho.
  - pose proof (run_event_rank ev w w1 Ho E). simpl. lia.
  - by rewrite <- (wt_phase _ _ (other_waits ev w w1 Ho E)).
Qed.

Lemma ending_step ev w w' : ending w → step ev w = Some w' → ending w'.
Proof.
  intros [Hc Hr] E. destruct (of_run ev) eqn:Ho.
  - pose proof (run_event_rank ev w w' Ho E) as Hlt. unfold ending.
    destruct (x_phase w'), (x_phase w); simpl in Hlt; try lia; by try (split; [done|]).
  - destruct (other_waits ev w w' Ho E) as [H1 H2 H3]. unfold ending. rewrite H1. split; [done|].
    intros [?|?]%Hr; auto.
Qed.

Lemma ending_steps evs w w' : ending w → steps evs w = Some w' → ending w'.
Proof.
  revert w. induction evs as [|ev evs IH]; intros w Hw; simpl; [by intros [= <-]|].
  destruct (step ev w) as [w1|] eqn:E; [|done]. apply IH. by eapply ending_step.
Qed.

(** While the end is not reached, [run] can take its next step. *)
Lemma ending_enabled w :
  ending w → x_phase w ≠ PhEnded → ∃ ev w', of_run ev = true ∧ step ev w = Some w'.
Proof.
  intros [Hc Hr] He. destruct (x_phase w) eqn:Hp; try done.
  - exists EFinish, (finish_run w). split; [done|]. cbn [EdgeSteps.step]. rewrite Hp.
    destruct (Hr eq_refl) as [-> | ->]; [done|]. by destruct (x_receiver w).
  - exists ECancel. cbn [EdgeSteps.step]. rewrite Hp. by eexists.
  - exists ETeardown. cbn [EdgeSteps.step]. rewrite Hp. by eexists.
  - exists EAbortBack. cbn [EdgeSteps.step]. rewrite Hp. by eexists.
  - exists (ENotified false). cbn [EdgeSteps.step]. rewrite Hp. by eexists.
  - exists EWebsocketClosed. cbn [EdgeSteps.step]. rewrite Hp. by eexists.
Qed.

(** C15: From any state a session reaches, [run] and its teardown take at most seven more steps,
    whatever the other coroutines do in between; once the receiver or the input worker is over,
    or the end has begun, [run] can always take its next step until it has ended; and once it
    has ended, its tasks are over, no frame of the request is recorded in the store or in the
    session, no credit is out, and a request that was configured and whose response did not end
    was aborted. *)
Theorem edge_ends_clean allow store w :
  reachable allow store w →
  (∀ evs w', steps evs w = Some w' →
     (run_events evs ≤ rank (x_phase w) ≤ 7)%nat ∧
     (ending w → x_phase w' ≠ PhEnded → ∃ ev w'', of_run ev = true ∧ step ev w' = Some w'')) ∧
  (x_phase w = PhEnded →
    x_worker w = WDone ∧ x_receiver w = RDone ∧ (x_responder w = PNone ∨ x_responder w = PDone) ∧
    clean request_id (x_edge w) ∧ over (x_edge w)).
Proof.
  intros Hs. split.
  { intros evs w' Hw'. split.
    - pose proof (run_events_bound _ _ _ Hw'). split; [lia|]. destruct (x_phase w); simpl; lia.
    - intros He Hp. apply ending_enabled; [by eapply ending_steps|done]. }
  pose proof (reachable_einv _ _ _ Hs) as [_ _ _ _ H5 H6 _ H8]. intros Hp.
  unfold cancelled, released_phase in *. rewrite Hp in *. destruct (H5 eq_refl) as (? & ? & _).
  destruct (H6 eq_refl). split; [done|]. split; [done|]. split; [done|]. split; [done|]. by apply H8.
Qed.
End Safe.

(** ** A session *)

Definition demo_configure : Configure :=
  {| cf_prompt := ""; cf_system_prompt := None; cf_prefill_messages := None; cf_max_new_tokens := 64;
     cf_max_tokens_per_turn := f_of_Z 8; cf_temperature := f_of_Z 0;
     cf_top_p := f_of_Z 1; cf_input_queue_capacity := 1; cf_benchmark_ignore_eos := false;
     cf_include_usage := false |}.

(** A frame, and a prompt that waits for its credit. *)
Definition demo_frame : FrameMeta :=
  {| fm_seq_no := 0; fm_timestamp := f_of_Z 1; fm_prompt := Some " "; fm_final := false |}.
Definition demo_prompt : PromptInput := {| pi_seq_no := 1; pi_prompt := "what now?"; pi_final := true |}.

Definition demo_inputs : list Event :=
  [ECreated Returned; EReceive (RawJson (MConfigure demo_configure)); EInput; EWorkerBack Returned;
   EChunk (KReady 0); EResponderBack Returned;
   EReceive (RawJson (MFrame demo_frame)); EReceive (RawBytes [1; 2]); EReceive (RawJson (MPrompt demo_prompt));
   EInput; EWorkerBack Returned; EInput; EWorkerBack Returned; EWorkerBack Returned; EInput].

Definition demo_processed : list Event :=
  [EChunk (KProcessed true 0 (NFloat (f_of_Z 1)) false None); EAccepted; EResponderBack Returned;
   ECredit; EWorkerBack Returned; EWorkerBack Returned].

Definition demo_end : list Event :=
  [EReceive RawDisconnect; EFinish; ECancel; ETeardown; EAbortBack; ENotified true; EWebsocketClosed].

Abbreviation demo_steps := (EdgeSteps.steps "r" "s" (fun _ => true) demo_name (fun _ => "f")).
Abbreviation demo_started := (started false demo_store).

(** The prompt has to wait until the frame is reported. *)
Example demo_waits :
  (x_worker <$> demo_steps demo_inputs demo_started) = Some (WCredit (WaitPrompt demo_prompt)) ∧
  (map ev_seq_no ∘ e_submitted ∘ x_edge <$> demo_steps (demo_inputs ++ demo_processed) demo_started) = Some [0; 1].
Proof. split; vm_compute; reflexivity. Qed.

Lemma demo_name_safe env name : demo_name env = Ok name → safe_name name.
Proof. intros H. by destruct (demo_name_new env name H). Qed.

Definition demo_after (evs : list Event) : World := default demo_started (demo_steps evs demo_started).

Lemma edge_events_accepted_witness :
  ∃ data c sess, rmapM to_dict (e_submitted (x_edge (demo_after (demo_inputs ++ demo_processed)))) = Ok data ∧
    ingest_all "r" "s" data ∅ = (Ok tt, c) ∧ session_get "r" c = Some sess ∧
    map ev_final (s_pending_events sess) = [false; true].
Proof.
  assert (demo_steps (demo_inputs ++ demo_processed) demo_started
    = Some (demo_after (demo_inputs ++ demo_processed))) as E by (vm_compute; reflexivity).
  destruct (edge_events_accepted "r" "s" (fun _ => true) demo_name (fun _ => "f") demo_name_safe false demo_store _ (ex_intro _ _ E))
    as (data & c & sess & Hd & Hi & Hs & Hp).
  exists data, c, sess. split; [exact Hd|]. split; [exact Hi|]. split; [exact Hs|]. rewrite Hp. vm_compute. reflexivity.
Defined.

Lemma edge_credits_bounded_witness :
  e_outstanding (x_edge (demo_after demo_inputs)) = {[0]} ∧
  out_ok (x_worker (demo_after demo_inputs)) (x_edge (demo_after demo_inputs)) 0.
Proof.
  assert (demo_steps demo_inputs demo_started = Some (demo_after demo_inputs)) as E by (vm_compute; reflexivity).
  destruct (edge_credits_bounded "r" "s" (fun _ => true) demo_name (fun _ => "f") demo_name_safe false demo_store _ (ex_intro _ _ E))
    as (_ & Ho & _).
  split; [vm_compute; reflexivity|]. apply Ho. vm_compute. reflexivity.
Defined.

Lemma edge_ends_clean_witness :
  names_by_request (e_store (x_edge (demo_after (demo_inputs ++ demo_end)))) !! "r" = None ∧
  e_abort_sent (x_edge (demo_after (demo_inputs ++ demo_end))) = true.
Proof.
  assert (demo_steps (demo_inputs ++ demo_end) demo_started = Some (demo_after (demo_inputs ++ demo_end)))
    as E by (vm_compute; reflexivity).
  destruct (edge_ends_clean "r" "s" (fun _ => true) demo_name (fun _ => "f") demo_name_safe false demo_store _ (ex_intro _ _ E)) as [_ H].
  destruct H as (_ & _ & _ & [_ _ _ _ Hc] & Ho); [vm_compute; reflexivity|]. split; [exact Hc|].
  destruct Ho as [Ho|Ho]; [vm_compute; reflexivity|vm_compute in Ho; discriminate Ho|exact Ho].
Defined.
