(* ===== verification/EdgeTold.v ===== *)
(** * Edge sessions: accepted before processed

    A client hears that an event was accepted before it hears that the model processed it, or
    interrupted a turn for it: the response waits for the [asyncio.Event] the worker sets after
    its message. *)
From S2P Require Import Prelude PyNum Payload SessionState FrameStore Edge EdgeSteps EdgeInv EdgeWorker EdgeWorld.
Local Open Scope Z_scope.

Implicit Types (e : Edge) (w : World) (s : Z) (v : nat).

(** ** What is said, and what is known *)

(** The event a chunk, or a message, reports on. *)
Definition about_in (k : Chunk) : option Z :=
  match k with KInterrupted _ _ s | KProcessed _ s _ _ _ => Some s | _ => None end.
Definition about (m : OutMsg) : option Z :=
  match m with OInterrupted _ _ s | OProcessed _ s _ _ _ _ => Some s | _ => None end.

(** The event a message announces as accepted. *)
Definition accepts (m : OutMsg) : option Z :=
  match m with OFrameAccepted s _ _ _ _ | OPromptAccepted s _ _ => Some s | _ => None end.

Definition announced e s : Prop := ∃ m, m ∈ e_sent e ∧ accepts m = Some s.

(** The event under submission; a worker that takes no more. *)
Definition sub (wk : Worker) : option Z := match wk with WSubmitting sb => Some (sb_seq_no sb) | _ => None end.
Definition dead (wk : Worker) : bool := match wk with WDone | WRejecting true _ => true | _ => false end.

(** The model was handed the event, and its submission did not fail. *)
Definition given (wk : Worker) e s : Prop := 0 ≤ s ∧ (s < e_next_seq_no e ∨ sub wk = Some s).

(** The event will never count. *)
Definition failed (wk : Worker) e s : Prop := e_next_seq_no e ≤ s ∧ dead wk = true.

Definition said (wk : Worker) e s : Prop := announced e s ∨ failed wk e s.

(** Whoever reports on [s] has to wait for [v]. *)
Definition unset e v : Prop := default false (e_events e !! v) = false.
Definition waits e s v : Prop := e_accepted e !! s = Some v ∧ unset e v.

Record told (wk : Worker) e : Prop := {
  to_inj : ∀ s1 s2 v, e_accepted e !! s1 = Some v → e_accepted e !! s2 = Some v → s1 = s2;
  to_fresh : ∀ s v, e_accepted e !! s = Some v → (v < e_next e)%nat;
  to_announced : ∀ s, announced e s → s < e_next_seq_no e;
  to_given : ∀ s, given wk e s → announced e s ∨ ∃ v, waits e s v;
  to_frame : dead wk = false → ∀ m, e_pending_frame e = Some m → ∃ v, waits e (fm_seq_no m) v
}.

Definition held (wk : Worker) e s v : Prop := said wk e s ∨ given wk e s ∧ waits e s v.

Definition response_ok (wk : Worker) e (p : Responder) : Prop :=
  match p with
  | PAccepted v k => ∀ s, about_in k = Some s → held wk e s v
  | PSending m rest => ∀ m', m' ∈ m :: rest → accepts m' = None ∧ ∀ s, about m' = Some s → said wk e s
  | PRejecting m => about m = None ∧ accepts m = None
  | _ => True
  end.

(** The messages under way. *)
Definition worker_msg (wk : Worker) e : Prop :=
  match wk with
  | WConfigured m => about m = None ∧ accepts m = None ∧ e_configured e = true
  | WFrameReady m | WRejecting _ m => about m = None ∧ accepts m = None
  | WAccepting s m => about m = None ∧ accepts m = Some s ∧ s < e_next_seq_no e
  | _ => True
  end.
Definition receiver_msg (r : Receiver) : Prop :=
  match r with RRejecting _ m => about m = None ∧ accepts m = None | _ => True end.

(** What was said so far. *)
Definition log_ok (wk : Worker) e : Prop :=
  ∀ i m s, e_sent e !! i = Some m → about m = Some s →
    (∃ j m', (j < i)%nat ∧ e_sent e !! j = Some m' ∧ accepts m' = Some s) ∨ failed wk e s.

(** ** The worker's moves *)

Record moves (wk : Worker) e (wk' : Worker) e' : Prop := {
  mv_log : ∃ l, e_sent e' = e_sent e ++ l ∧ Forall (λ m, about m = None) l;
  mv_failed : ∀ s, failed wk e s → failed wk' e' s;
  mv_given : ∀ s, given wk e s → given wk' e' s ∨ failed wk' e' s;
  mv_same : ∀ s v v', given wk e s → e_accepted e !! s = Some v → e_accepted e' !! s = Some v' → v' = v;
  mv_told : told wk e → told wk' e';
  mv_configured : e_configured e = true → e_configured e' = true
}.

Lemma announced_app e e' l s : e_sent e' = e_sent e ++ l → announced e s → announced e' s.
Proof. intros E (m & Hm & Ha). exists m. rewrite E. set_solver. Qed.

Lemma moves_said wk e wk' e' s : moves wk e wk' e' → said wk e s → said wk' e' s.
Proof.
  intros [[l [El _]] Hf _ _ _ _] [Ha|Ha]; [left; by eapply announced_app|right; auto].
Qed.

Lemma moves_response wk e wk' e' p :
  moves wk e wk' e' → told wk e → response_ok wk e p → response_ok wk' e' p.
Proof.
  intros Hm Ht. destruct p as [| |v k|m rest| |m| |]; simpl; try done.
  - intros H s Hs. destruct (H s Hs) as [Hsaid|(Hg & Ha & Hu)]; [left; by eapply moves_said|].
    destruct (mv_given _ _ _ _ Hm s Hg) as [Hg'|Hf]; [|by left; right].
    destruct (to_given _ _ (mv_told _ _ _ _ Hm Ht) s Hg') as [Han|(v' & Ha' & Hu')]; [by left; left|].
    right. split; [done|]. by rewrite <- (mv_same _ _ _ _ Hm s v v' Hg Ha Ha').
  - intros H m' Hin. destruct (H m' Hin) as [Ha Hs]. split; [done|]. intros s Hab. eapply moves_said; [done|]. by apply Hs.
Qed.

Lemma moves_log wk e wk' e' : moves wk e wk' e' → log_ok wk e → log_ok wk' e'.
Proof.
  intros [(l & El & Hl) Hf _ _ _ _] H i m s. rewrite El. rewrite lookup_app.
  destruct (e_sent e !! i) as [m0|] eqn:Ei.
  - intros [= ->] Hs. destruct (H i m s Ei Hs) as [(j & m' & Hj & Hm' & Ha)|Hx]; [left|right; auto].
    exists j, m'. rewrite lookup_app, Hm'. auto.
  - intros Hm Hs. apply list_elem_of_lookup_2 in Hm. rewrite Forall_forall in Hl. rewrite (Hl _ Hm) in Hs. done.
Qed.

(** ** The kinds of moves *)

(** The part of the session they are about. *)
Record same e e' : Prop := {
  sm_accepted : e_accepted e' = e_accepted e;
  sm_events : e_events e' = e_events e;
  sm_next : e_next e' = e_next e;
  sm_seq : e_next_seq_no e' = e_next_seq_no e;
  sm_sent : e_sent e' = e_sent e;
  sm_pending : e_pending_frame e' = e_pending_frame e;
  sm_configured : e_configured e = true → e_configured e' = true
}.

#[global] Instance same_preorder : PreOrder same.
Proof. split; [by constructor|]. intros e1 e2 e3 [] []. constructor; try congruence. auto. Qed.

Lemma same_said wk e e' s : same e e' → said wk e s → said wk e' s.
Proof. intros []. unfold said, announced, failed. by rewrite sm_sent0, sm_seq0. Qed.

Lemma same_told wk e e' : same e e' → told wk e → told wk e'.
Proof.
  intros [] [T1 T2 T3 T4 T5]. unfold given, announced, waits, unset in *.
  constructor; unfold given, announced, waits, unset;
    rewrite ?sm_accepted0, ?sm_events0, ?sm_next0, ?sm_seq0, ?sm_sent0, ?sm_pending0; done.
Qed.

(** The events registered so far are as they were. *)
Definition keeps_events e e' : Prop :=
  (e_next e ≤ e_next e')%nat ∧ ∀ v, (v < e_next e)%nat → e_events e' !! v = e_events e !! v.

(** Only the place changes, and something is said. *)
Lemma moves_grown wk e wk' e' l :
  e_accepted e' = e_accepted e → keeps_events e e' → e_next_seq_no e' = e_next_seq_no e →
  e_pending_frame e' = e_pending_frame e → e_sent e' = e_sent e ++ l →
  Forall (λ m, about m = None ∧ ∀ s, accepts m = Some s → s < e_next_seq_no e) l →
  (dead wk = true → dead wk' = true) → sub wk' = None → (sub wk = None ∨ dead wk' = true) →
  (∀ s, sub wk = Some s → s = e_next_seq_no e) →
  (e_configured e = true → e_configured e' = true) → moves wk e wk' e'.
Proof.
  intros S1 [S3 S2] S4 S6 El Hl Hd Hs' Hs Hsub Hcf. constructor.
  - exists l. split; [done|]. eapply Forall_impl; [exact Hl|]. by intros m [].
  - unfold failed. rewrite S4. naive_solver.
  - intros s [H0 Hg]. unfold given, failed. rewrite S4. destruct Hg as [Hg|Hg]; [naive_solver|].
    destruct Hs as [Hs|Hs]; [congruence|]. right. split; [|done]. rewrite (Hsub s Hg). lia.
  - intros s v v' _. rewrite S1. congruence.
  - intros [T1 T2 T3 T4 T5].
    assert (∀ s v, waits e s v → waits e' s v) as Hw.
    { intros s v [Ha Hu]. split; [by rewrite S1|]. unfold unset. rewrite S2; [done|by eapply T2]. }
    constructor; rewrite ?S1, ?S4, ?S6.
    + done.
    + intros s v Hv. apply T2 in Hv. lia.
    + intros s (m & Hm & Ha). rewrite El in Hm. apply elem_of_app in Hm as [Hm|Hm]; [apply T3; by exists m|].
      rewrite Forall_forall in Hl. by apply (Hl m Hm).
    + intros s [H0 [H1|H1]]; [|congruence]. rewrite S4 in H1.
      destruct (T4 s) as [Ha|[v Hv]]; [split; auto|left; by eapply announced_app|right; eauto].
    + intros Hd' m Hm. destruct (T5 (ltac:(destruct (dead wk); [rewrite Hd in Hd'; done|done])) m Hm) as [v Hv]. eauto.
  - done.
Qed.

Lemma moves_same wk e wk' e' :
  same e e' → (dead wk = true → dead wk' = true) → sub wk' = None → (sub wk = None ∨ dead wk' = true) →
  (∀ s, sub wk = Some s → s = e_next_seq_no e) → moves wk e wk' e'.
Proof.
  intros [S1 S2 S3] ? ? ? ?. apply (moves_grown _ _ _ _ []); try done; [|by rewrite app_nil_r].
  split; [by rewrite S3|]. by rewrite S2.
Qed.

(** Credit is taken for the next event. *)
Lemma moves_reserved wk e wk' e' s0 :
  s0 = e_next_seq_no e → e_pending_frame e = None → sub wk = None → dead wk = false → dead wk' = false →
  (∀ s, sub wk' = Some s → s = s0) → (∀ m, e_pending_frame e' = Some m → fm_seq_no m = s0) →
  e_accepted e' = <[s0 := e_next e]> (e_accepted e) → e_events e' = <[e_next e := false]> (e_events e) →
  e_next e' = S (e_next e) → e_next_seq_no e' = e_next_seq_no e → e_sent e' = e_sent e →
  (e_configured e = true → e_configured e' = true) → moves wk e wk' e'.
Proof.
  intros -> Hp Hs Hd Hd' Hs' Hp' Ea Ee En Eq Et Hcf. constructor.
  - exists []. by rewrite app_nil_r.
  - intros s [_ ?]. congruence.
  - intros s [H0 [Hg|Hg]]; [|congruence]. left. split; [done|]. left. by rewrite Eq.
  - intros s v v' [H0 [Hg|Hg]]; [|congruence]. rewrite Ea, lookup_insert_ne by lia. congruence.
  - intros [T1 T2 T3 T4 T5].
    assert (∀ s v, e_accepted e !! s = Some v → s ≠ e_next_seq_no e → unset e v → waits e' s v) as Hold.
    { intros s v Hv Hne Hu. split; [by rewrite Ea, lookup_insert_ne|]. unfold unset. rewrite Ee, lookup_insert_ne; [done|].
      intros <-. apply T2 in Hv. lia. }
    assert (waits e' (e_next_seq_no e) (e_next e)) as Hnew.
    { split; [by rewrite Ea, lookup_insert_eq|]. unfold unset. by rewrite Ee, lookup_insert_eq. }
    constructor.
    + intros s1 s2 v. rewrite Ea, !lookup_insert_Some.
      intros [[<- <-]|[_ H1]] [[<- H2]|[_ H2]]; try done; [by apply T2 in H2; lia|subst v; by apply T2 in H1; lia|by eapply T1].
    + intros s v. rewrite Ea, En, lookup_insert_Some. intros [[_ <-]|[_ H]]; [lia|]. apply T2 in H. lia.
    + unfold announced. rewrite Et, Eq. exact T3.
    + intros s [H0 [Hg|Hg]]; [|rewrite (Hs' s Hg); right; by eexists]. rewrite Eq in Hg.
      destruct (T4 s) as [Ha|(v & Ha & Hu)]; [split; auto|left; unfold announced; by rewrite Et|].
      right. exists v. apply Hold; [done|lia|done].
    + intros _ m Hm. rewrite (Hp' m Hm). by eexists.
  - done.
Qed.

(** Credit is given back. *)
Definition set_of e s0 : gmap nat bool :=
  match e_accepted e !! s0 with Some v => <[v := true]> (e_events e) | None => e_events e end.

Lemma waits_other wk e s0 s v : told wk e → waits e s v → s ≠ s0 → default false (set_of e s0 !! v) = false.
Proof.
  intros Ht [Ha Hu] Hne. unfold set_of. destruct (e_accepted e !! s0) as [v0|] eqn:E; [|done].
  rewrite lookup_insert_ne; [done|]. intros ->. by destruct Hne; eapply (to_inj _ _ Ht).
Qed.

Lemma moves_released wk e wk' e' s0 :
  e_accepted e' = delete s0 (e_accepted e) → e_events e' = set_of e s0 → e_next e' = e_next e →
  e_next_seq_no e' = e_next_seq_no e → e_sent e' = e_sent e →
  (∀ m, told wk e → e_pending_frame e' = Some m → dead wk' = false → e_pending_frame e = Some m ∧ fm_seq_no m ≠ s0) →
  (dead wk = true → dead wk' = true) → (∀ s, sub wk' = Some s → sub wk = Some s) →
  (∀ s, sub wk = Some s → sub wk' = Some s ∨ dead wk' = true ∧ s = e_next_seq_no e) →
  (given wk' e' s0 → announced e s0) →
  (e_configured e = true → e_configured e' = true) → moves wk e wk' e'.
Proof.
  intros Ea Ee En Eq Et Hp Hd Hs1 Hs2 Hg0 Hcf. constructor.
  - exists []. by rewrite app_nil_r.
  - unfold failed. rewrite Eq. naive_solver.
  - intros s [H0 Hg]. unfold given, failed. rewrite Eq. destruct Hg as [Hg|Hg]; [naive_solver|].
    destruct (Hs2 s Hg) as [|[? ->]]; [left; auto|right; split; [lia|done]].
  - intros s v v' _. rewrite Ea, lookup_delete_Some. intros H1 [_ H2]. congruence.
  - intros Ht. pose proof Ht as [T1 T2 T3 T4 T5].
    assert (∀ s v, waits e s v → s ≠ s0 → waits e' s v) as Hold.
    { intros s v Hw Hne. pose proof (waits_other _ _ s0 _ _ Ht Hw Hne) as Hu. destruct Hw as [Ha _].
      split; [by rewrite Ea, lookup_delete_ne|]. unfold unset. by rewrite Ee. }
    constructor.
    + intros s1 s2 v. rewrite Ea, !lookup_delete_Some. intros [_ H1] [_ H2]. by eapply T1.
    + intros s v. rewrite Ea, En, lookup_delete_Some. intros [_ H]. by eapply T2.
    + unfold announced. rewrite Et, Eq. exact T3.
    + intros s Hg. unfold announced. rewrite Et. destruct (decide (s = s0)) as [->|Hne]; [left; by apply Hg0|].
      destruct (T4 s) as [Ha|(v & Hw)]; [|by left|right; eauto].
      destruct Hg as [H0 [Hg|Hg]]; split; auto. left. by rewrite <- Eq.
    + intros Hd' m Hm. destruct (Hp m Ht Hm Hd') as [Hm' Hne].
      destruct (T5 (ltac:(destruct (dead wk); [rewrite Hd in Hd'; done|done])) m Hm') as [v Hv]. eauto.
  - done.
Qed.

(** The submission counts. *)
Lemma moves_submitted wk e wk' e' :
  sub wk = Some (e_next_seq_no e) → sub wk' = None → dead wk = false → dead wk' = false →
  e_accepted e' = e_accepted e → e_events e' = e_events e → e_next e' = e_next e →
  e_next_seq_no e' = e_next_seq_no e + 1 → e_sent e' = e_sent e → e_pending_frame e' = None →
  (e_configured e = true → e_configured e' = true) → moves wk e wk' e'.
Proof.
  intros Hs Hs' Hd Hd' Ea Ee En Eq Et Ep Hcf.
  assert (∀ s, given wk e s → given wk' e' s) as Hg.
  { intros s [H0 [Hg|Hg]]; (split; [done|]); left; rewrite Eq; [lia|]. rewrite Hs in Hg. simplify_eq. lia. }
  constructor.
  - exists []. by rewrite app_nil_r.
  - intros s [_ ?]. congruence.
  - auto.
  - intros s v v' _. rewrite Ea. congruence.
  - intros [T1 T2 T3 T4 T5]. constructor; unfold waits, unset, announced in *; rewrite ?Ea, ?Ee, ?En, ?Eq, ?Et, ?Ep; try done.
    + intros s Ha. apply T3 in Ha. lia.
    + intros s [H0 [Hs0|Hs0]]; [|congruence]. rewrite Eq in Hs0. apply T4. split; [done|].
      destruct (decide (s = e_next_seq_no e)) as [->|]; [by right|left; lia].
  - done.
Qed.

(** The client is told, and the event is set. *)
Lemma moves_accepted wk e wk' e' m s0 :
  sub wk = None → sub wk' = None → dead wk = false → about m = None → accepts m = Some s0 → s0 < e_next_seq_no e →
  (∀ m', e_pending_frame e = Some m' → fm_seq_no m' ≠ s0) →
  e_accepted e' = e_accepted e → e_events e' = set_of e s0 → e_next e' = e_next e →
  e_next_seq_no e' = e_next_seq_no e → e_sent e' = e_sent e ++ [m] → e_pending_frame e' = e_pending_frame e →
  (e_configured e = true → e_configured e' = true) → moves wk e wk' e'.
Proof.
  intros Hs Hs' Hd Hm Hacc Hlt Hpend Ea Ee En Eq Et Ep Hcf. constructor.
  - exists [m]. split; [done|]. by repeat constructor.
  - intros s [_ ?]. congruence.
  - intros s [H0 [Hg|Hg]]; [|congruence]. left. split; [done|]. left. by rewrite Eq.
  - intros s v v' _. rewrite Ea. congruence.
  - intros Ht. pose proof Ht as [T1 T2 T3 T4 T5].
    assert (∀ s v, waits e s v → s ≠ s0 → waits e' s v) as Hold.
    { intros s v Hw Hne. pose proof (waits_other _ _ s0 _ _ Ht Hw Hne) as Hu. destruct Hw as [Ha _].
      split; [by rewrite Ea|]. unfold unset. by rewrite Ee. }
    constructor; rewrite ?Ea, ?En, ?Eq, ?Ep; try done.
    + intros s (m' & Hin & Ha). rewrite Et in Hin. apply elem_of_app in Hin as [Hin|Hin]; [apply T3; by exists m'|].
      apply list_elem_of_singleton in Hin as ->. simplify_eq/=. lia.
    + intros s [H0 [Hg|Hg]]; [|congruence]. rewrite Eq in Hg. destruct (decide (s = s0)) as [->|Hne].
      * left. exists m. rewrite Et. set_solver.
      * destruct (T4 s) as [Ha|(v & Hw)]; [split; auto|left; by eapply announced_app|right; eauto].
    + intros _ m' Hm'. destruct (T5 Hd m' Hm') as [v Hv]. eauto.
  - done.
Qed.
