(* ===== verification/EdgeHeard.v ===== *)
(** * Edge sessions: accepted before processed, over every run

    The worker's pieces are moves in the sense of [EdgeTold], and so every event keeps what was
    said in order. *)
From S2P Require Import Prelude PyNum Payload SessionState FrameStore Edge EdgeSteps EdgeInv EdgeWorker EdgeWorld EdgeSafe EdgeTold.
Local Open Scope Z_scope.

Section Heard.
Context (request_id session_id : string).
Context (bracketed_ok : list Ascii.ascii → bool) (new_name : gmap string bytes → result string).
Context (new_name_safe : ∀ env name, new_name env = Ok name → safe_name name).
Context (sha256 : bytes → string).
Implicit Types (e : Edge) (w : World) (s : Z) (v : nat).

Abbreviation facts := (EdgeWorker.facts request_id session_id).
Abbreviation einv := (EdgeWorld.einv request_id session_id).
Abbreviation step := (EdgeSteps.step request_id session_id bracketed_ok new_name sha256).
Abbreviation steps := (EdgeSteps.steps request_id session_id bracketed_ok new_name sha256).

(** ** Exact results *)

Lemma release_exact s e :
  release_input s e = (Ok tt, e <| e_outstanding := e_outstanding e ∖ {[s]} |> <| e_events := set_of e s |>
    <| e_accepted := delete s (e_accepted e) |>).
Proof.
  unfold release_input, set_accepted, set_of, mbind, M_bind, modify. simpl. by destruct (e_accepted e !! s).
Qed.

Lemma set_accepted_exact s e : set_accepted s e = (Ok tt, e <| e_events := set_of e s |>).
Proof.
  unfold set_accepted, set_of, modify. destruct (e_accepted e !! s); [done|]. by destruct e.
Qed.

(** A worker that is free to take an event, or to give it up. *)
Definition free (wk : Worker) : Prop := sub wk = None ∧ dead wk = false.

(** Where a step of the worker may land when it raised. *)
Definition gives_up (wk : Worker) e ex e' : Prop :=
  ∀ wk', sub wk' = None → (is_submission_error ex = true → dead wk' = true) → moves wk e wk' e'.

Lemma moves_place wk wk' e e' : free wk → sub wk' = None → same e e' → moves wk e wk' e'.
Proof. intros [H1 H2] H3 Hs. apply moves_same; try done; [congruence|by left|by intros s; rewrite H1]. Qed.

Lemma frame_reserved_moves m wk e :
  free wk → e_pending_frame e = None → fm_seq_no m = e_next_seq_no e →
  match frame_reserved m e with
  | (Ok msg, e') => msg = OFrameReady (fm_seq_no m) ∧ moves wk e (WFrameReady msg) e'
  | (Raise ex, e') => gives_up wk e ex e'
  end.
Proof.
  intros [H1 H2] Hp Hseq. unfold frame_reserved, mbind, M_bind. destruct (reserve_input (fm_seq_no m) e) as [r e1] eqn:E.
  apply reserve_spec in E as [(msg & [-> | ->] & ->)|(-> & Hcl & Hnew & ->)].
  1, 2: intros wk' Hs _; by apply moves_place.
  split; [done|]. apply (moves_reserved _ _ _ _ (fm_seq_no m)); try done. by intros m' [= <-].
Qed.

Lemma prompt_reserved_moves p wk e :
  free wk → e_pending_frame e = None → pi_seq_no p = e_next_seq_no e → dom (e_accepted e) = e_outstanding e →
  match prompt_reserved request_id session_id bracketed_ok p e with
  | (Ok sb, e') => moves wk e (WSubmitting sb) e'
  | (Raise ex, e') => gives_up wk e ex e'
  end.
Proof.
  intros [H1 H2] Hp Hseq Hdom. unfold prompt_reserved. unfold mbind at 1, M_bind at 1.
  destruct (reserve_input (pi_seq_no p) e) as [r e1] eqn:E.
  apply reserve_spec in E as [(msg & [-> | ->] & ->)|(-> & Hcl & Hnew & ->)].
  1, 2: intros wk' Hs _; by apply moves_place.
  unfold mbind at 1, M_bind at 1, get. unfold mbind at 1, M_bind at 1, try_except at 1, lift.
  destruct (session_event request_id session_id (pi_seq_no p) _ None _ _ None) as [ev|ex] eqn:Eev.
  - apply session_event_Ok in Eev as (_ & _ & _ & _ & E4 & _).
    unfold mbind, M_bind, try_except. rewrite (submit_event_spec ev _ _ E4). unfold mret, M_ret. cbn.
    apply (moves_reserved _ _ _ _ (pi_seq_no p)); try done; simpl; [by intros s [= <-]|]. intros m. by rewrite Hp.
  - unfold mbind, M_bind. rewrite release_exact. intros wk' Hs _.
    assert (e_accepted e !! pi_seq_no p = None) as Hnone by (apply not_elem_of_dom; congruence).
    apply (moves_grown _ _ _ _ []); try done; simpl.
    + unfold reserved. fields. by rewrite delete_insert_id.
    + split; unfold reserved, set_of; fields; [lia|]. intros v Hv. rewrite lookup_insert_eq.
      by rewrite !lookup_insert_ne by lia.
    + by rewrite app_nil_r.
    + congruence.
    + by left.
    + intros s. by rewrite H1.
Qed.

(** The frame's credit is given back. *)
Lemma frame_released wk e e1 e' m ex :
  free wk → e_pending_frame e = Some m → fm_seq_no m = e_next_seq_no e →
  same (e <| e_pending_frame := None |>) e1 → same (release_input (fm_seq_no m) e1).2 e' → gives_up wk e ex e'.
Proof.
  intros [H1 H2] Hp Hseq [S1 S2 S3 S4 S5 S6 S7] S'. rewrite release_exact in S'. destruct S' as [R1 R2 R3 R4 R5 R6 R7].
  intros wk' Hs _. simpl in *. apply (moves_released _ _ _ _ (fm_seq_no m)); try congruence.
  - rewrite R2. unfold set_of. by rewrite S1, S2.
  - intros [_ [Hg|Hg]]; [rewrite R4, S4 in Hg; lia|congruence].
  - intros Hc. by apply R7, S7.
Qed.

Lemma same_store e st : same e (e <| e_store := st |>).
Proof. by constructor. Qed.

Lemma handle_frame_bytes_moves payload wk e :
  free wk → (∀ m, e_pending_frame e = Some m → fm_seq_no m = e_next_seq_no e) →
  match handle_frame_bytes request_id session_id bracketed_ok new_name sha256 payload e with
  | (Ok sb, e') => moves wk e (WSubmitting sb) e'
  | (Raise ex, e') => gives_up wk e ex e'
  end.
Proof.
  intros Hfree Hpend. unfold handle_frame_bytes. unfold mbind at 1, M_bind at 1, get.
  destruct (e_pending_frame e) as [m|] eqn:Hp; [|intros wk' Hs _; by apply moves_place].
  specialize (Hpend m eq_refl). unfold mbind at 1, M_bind at 1, assign_to, modify.
  set (e0 := e <| e_pending_frame := None |>). unfold mbind at 1, M_bind at 1.
  unfold store_frame, try_except at 1, on_store at 1, zoom at 1.
  destruct (put_frame new_name request_id payload (e_store e0)) as [[ref|ex] st] eqn:Est.
  2: { unfold mbind, M_bind. pose proof (release_exact (fm_seq_no m) (e0 <| e_store := st |>)) as Er. rewrite Er.
       assert (∀ ex', gives_up wk e ex' (release_input (fm_seq_no m) (e0 <| e_store := st |>)).2) as Hg.
       { intros ex'. by eapply (frame_released _ _ (e0 <| e_store := st |>)). }
       rewrite Er in Hg. destruct ex; apply Hg. }
  unfold mbind at 1, M_bind at 1, try_except at 1, lift.
  destruct (session_event request_id session_id (fm_seq_no m) (fm_timestamp m) _ _ _ _) as [ev|ex] eqn:Eev.
  - apply session_event_Ok in Eev as (_ & _ & _ & _ & E4 & _).
    unfold mbind, M_bind, modify, try_except. rewrite (submit_event_spec ev _ _ E4). unfold mret, M_ret. cbn.
    destruct Hfree as [H1 H2]. constructor.
    + exists []. by rewrite app_nil_r.
    + intros s [_ ?]. congruence.
    + intros s [H0 [Hg|Hg]]; [|congruence]. left. split; [done|]. by left.
    + intros s v v' _ Ha Hb. simpl in Hb. congruence.
    + intros [T1 T2 T3 T4 T5]. constructor; try done.
      intros s [H0 [Hg|[= <-]]]; [apply T4; split; auto|right; by apply T5].
    + done.
  - unfold mbind, M_bind. rewrite release_exact. unfold on_store, zoom.
    destruct (discard bracketed_ok request_id ref _) as [[u|ex'] st'];
      (eapply (frame_released _ _ (e0 <| e_store := st |>)); [done|exact Hp|done|done|];
       rewrite release_exact; by constructor).
Qed.

Lemma submission_failed_moves sb e :
  sb_seq_no sb = e_next_seq_no e → e_pending_frame e = None →
  match submission_failed request_id bracketed_ok sb e with
  | (Ok _, e') => True
  | (Raise ex, e') => ∀ wk', sub wk' = None → dead wk' = true → moves (WSubmitting sb) e wk' e'
  end.
Proof.
  intros Hseq Hp. unfold submission_failed. unfold mbind at 1, M_bind at 1. rewrite release_exact.
  assert (∀ e', same (release_input (sb_seq_no sb) e).2 e' →
    ∀ wk', sub wk' = None → dead wk' = true → moves (WSubmitting sb) e wk' e') as Hm.
  { rewrite release_exact. intros e' [R1 R2 R3 R4 R5 R6 R7] wk' Hs Hd. simpl in *.
    apply (moves_released _ _ _ _ (sb_seq_no sb)); try congruence.
    - intros s [= <-]. right. by split.
    - intros [_ [Hg|Hg]]; [lia|congruence].
    - done. }
  rewrite release_exact in Hm. unfold mbind, M_bind. destruct (sb_frame sb) as [[t ref]|].
  - unfold modify, on_store, zoom. destruct (discard bracketed_ok request_id ref _) as [[u|ex] st];
      unfold throw; apply Hm; by constructor.
  - unfold throw, mret, M_ret. apply Hm. by constructor.
Qed.

Lemma submitted_moves sb e r e' :
  sb_seq_no sb = e_next_seq_no e → e_pending_frame e = None → submitted sb e = (r, e') →
  ∃ m, r = Ok m ∧ about m = None ∧ accepts m = Some (sb_seq_no sb) ∧ e_next_seq_no e' = e_next_seq_no e + 1 ∧
    moves (WSubmitting sb) e (WAccepting (sb_seq_no sb) m) e'.
Proof.
  intros Hseq Hp E. unfold submitted in E.
  destruct (sb_frame sb) as [[t ref]|]; injection E as <- <-; (eexists; split_and!; [done..|]);
    apply moves_submitted; try done; simpl; congruence.
Qed.

(** ** The worker's steps *)

(** The response is not started yet. *)
Definition is_configured (wk : Worker) : bool := match wk with WConfigured _ => true | _ => false end.

(** Where a step from the place [wk] and the session [e] ends. *)
Definition lands (wk : Worker) e (p : Responder) w' : Prop :=
  moves wk e (x_worker w') (x_edge w') ∧ worker_msg (x_worker w') (x_edge w') ∧ x_responder w' = p ∧
  (is_configured (x_worker w') = true → p = PNone).

Lemma worker_raised_lands wk e ex w :
  gives_up wk e ex (x_edge w) → lands wk e (x_responder w) (worker_raised ex w).
Proof.
  intros H. unfold lands, worker_raised. fields. split; [|by repeat case_match].
  destruct (is_submission_error ex) eqn:E; [by apply H|]. destruct ex; by apply H.
Qed.

Lemma worker_loop_lands wk e p w :
  x_responder w = p → (∀ wk', sub wk' = None → moves wk e wk' (x_edge w)) → lands wk e p (worker_loop w).
Proof. intros <- H. unfold lands, worker_loop. fields. destruct (e_closed (x_edge w)); (split; [by apply H|done]). Qed.

Lemma worker_step_lands {A} (f : ME A) next w wk e p :
  x_responder w = p →
  (∀ a e', f (x_edge w) = (Ok a, e') → lands wk e p (next a (w <| x_edge := e' |>))) →
  (∀ ex e', f (x_edge w) = (Raise ex, e') → gives_up wk e ex e') →
  lands wk e p (worker_step f next w).
Proof.
  intros Hp Hok Hraise. unfold worker_step, run. destruct (f (x_edge w)) as [[a|ex] e'] eqn:E; [by apply Hok|].
  specialize (Hraise ex e' eq_refl).
  pose proof (worker_raised_lands wk e ex (w <| x_edge := e' |>) Hraise) as H. fields. by rewrite Hp in H.
Qed.

Lemma set_worker_lands wk e p wk' w :
  x_responder w = p → moves wk e wk' (x_edge w) → worker_msg wk' (x_edge w) →
  (is_configured wk' = true → p = PNone) → lands wk e p (set_worker wk' w).
Proof. done. Qed.

Lemma worker_reserved_lands x wk w :
  free wk → e_pending_frame (x_edge w) = None → waiting_ok x (x_edge w) →
  dom (e_accepted (x_edge w)) = e_outstanding (x_edge w) →
  lands wk (x_edge w) (x_responder w) (worker_reserved request_id session_id bracketed_ok x w).
Proof.
  intros Hf Hp Hx Hdom. destruct x as [m|p]; apply worker_step_lands; try done.
  - destruct Hx as (Hx & _). pose proof (frame_reserved_moves m wk (x_edge w) Hf Hp Hx) as H.
    intros msg e' E. rewrite E in H. by destruct H as [-> H].
  - destruct Hx as (Hx & _). pose proof (frame_reserved_moves m wk (x_edge w) Hf Hp Hx) as H.
    intros ex e' E. by rewrite E in H.
  - destruct Hx as (Hx & _). pose proof (prompt_reserved_moves p wk (x_edge w) Hf Hp Hx Hdom) as H.
    intros sb e' E. by rewrite E in H.
  - destruct Hx as (Hx & _). pose proof (prompt_reserved_moves p wk (x_edge w) Hf Hp Hx Hdom) as H.
    intros ex e' E. by rewrite E in H.
Qed.

Lemma worker_reserve_lands x wk w :
  free wk → e_pending_frame (x_edge w) = None → waiting_ok x (x_edge w) →
  dom (e_accepted (x_edge w)) = e_outstanding (x_edge w) →
  lands wk (x_edge w) (x_responder w) (worker_reserve request_id session_id bracketed_ok x w).
Proof.
  intros Hf Hp Hx Hdom. unfold worker_reserve. destruct (has_credit _); [by apply worker_reserved_lands|].
  by apply set_worker_lands; [|apply moves_place| |].
Qed.
Lemma configure_lands c w :
  (e_configured (x_edge w) = false → x_responder w = PNone) →
  lands WIdle (x_edge w) (x_responder w)
    (worker_step (c' ← lift (validate_configure c); configure c') (fun msg => set_worker (WConfigured msg)) w).
Proof.
  intros Hp. apply worker_step_lands; [done|..]; unfold mbind at 1, M_bind at 1, lift.
  - intros msg e'. destruct (validate_configure c) as [c'|]; [|done].
    unfold configure, mbind, M_bind, get, guard_raise, raise_if, lift.
    destruct (e_configured (x_edge w)); [done|]. destruct (_ && _); [done|]. intros [= <- <-].
    apply set_worker_lands; [done| |done|by intros _; apply Hp]. by apply moves_place.
  - intros ex e' E wk' Hs _. apply moves_place; [done|done|].
    destruct (validate_configure c) as [c'|]; [|by simplify_eq].
    unfold configure, mbind, M_bind, get, guard_raise, raise_if, lift in E.
    destruct (e_configured (x_edge w)); [by simplify_eq|]. by destruct (_ && _); simplify_eq.
Qed.

Lemma settled_pending e m :
  EdgeInv.settled request_id session_id e → e_pending_frame e = Some m → fm_seq_no m = e_next_seq_no e.
Proof. intros Hs Hm. by destruct (se_pending _ _ _ Hs m Hm). Qed.

(** An input is handled. *)
Lemma worker_item_lands x w :
  facts WIdle (x_edge w) → (e_configured (x_edge w) = false → x_responder w = PNone) →
  lands WIdle (x_edge w) (x_responder w) (worker_item request_id session_id bracketed_ok new_name sha256 x w).
Proof.
  intros Hf Hp. pose proof (fa_worker _ _ _ _ Hf) as Hs. pose proof (cr_dom _ _ (fa_credits _ _ _ _ Hf)) as Hdom.
  assert (free WIdle) as Hfree by done.
  assert (∀ ex, gives_up WIdle (x_edge w) ex (x_edge w)) as Hstay by (intros ex wk' Hs' _; by apply moves_place).
  destruct x as [payload|[c|m|p| | |message]]; cbn [worker_item].
  - pose proof (handle_frame_bytes_moves payload WIdle (x_edge w) Hfree (λ m, settled_pending (x_edge w) m Hs)) as H.
    apply worker_step_lands; [done|..]; intros ? e' E; by rewrite E in H.
  - by apply configure_lands.
  - apply worker_step_lands; [done|..]; unfold mbind, M_bind, lift; destruct (validate_frame m) as [m'|ex];
      try done; [| |by intros ? ? [= <- <-]];
      destruct (prepare_frame m' (x_edge w)) as [[[]|ex'] e'] eqn:Ep; try done;
      apply prepare_frame_spec in Ep as [-> Hok].
    + intros a e1 [= <- E1]. destruct (Hok eq_refl) as (_ & Hp1 & Hx).
      pose proof (worker_reserve_lands (WaitFrame m') WIdle (w <| x_edge := e1 |>) Hfree) as Hl.
      simpl in Hl. subst e1. by apply Hl.
    + by intros ex e [= <- <-].
  - apply worker_step_lands; [done|..]; unfold mbind, M_bind, lift; destruct (validate_prompt p) as [p'|ex];
      try done; [| |by intros ? ? [= <- <-]];
      destruct (prepare_prompt p' (x_edge w)) as [[[]|ex'] e'] eqn:Ep; try done;
      apply prepare_prompt_spec in Ep as [-> Hok].
    + intros a e1 [= <- E1]. destruct (Hok eq_refl) as (_ & Hp1 & Hx).
      pose proof (worker_reserve_lands (WaitPrompt p') WIdle (w <| x_edge := e1 |>) Hfree) as Hl.
      simpl in Hl. subst e1. by apply Hl.
    + by intros ex e [= <- <-].
  - assert (∀ r e', (_ ← set_closed; abort_request) (x_edge w) = (r, e') → same (x_edge w) e') as Hsame.
    { intros r e'. unfold abort_request, set_closed, mbind, M_bind, get, assign_to, modify. simpl.
      by destruct (e_abort_sent (x_edge w)); intros [= <- <-]. }
    apply worker_step_lands; [done|..].
    + intros waits' e' E%Hsame. destruct waits'; [by apply set_worker_lands; [|apply moves_place| |]|].
      apply worker_loop_lands; [done|]. intros wk' Hs'. by apply moves_place.
    + intros ex e' E%Hsame wk' Hs' _. by apply moves_place.
  - by apply worker_raised_lands.
  - by apply worker_raised_lands.
Qed.
(** A message of the worker arrived. *)
Lemma moves_spoke wk e wk' m :
  free wk → sub wk' = None → about m = None → accepts m = None →
  moves wk e wk' (e <| e_sent := e_sent e ++ [m] |>).
Proof.
  intros [H1 H2] Hs Ha Hc. apply (moves_grown _ _ _ _ [m]); try done.
  - constructor; [|done]. split; [done|]. intros s. by rewrite Hc.
  - congruence.
  - by left.
  - intros s. by rewrite H1.
Qed.

(** What it awaited came back. *)
Lemma worker_back_lands b w w' :
  facts (x_worker w) (x_edge w) → worker_msg (x_worker w) (x_edge w) →
  worker_back request_id bracketed_ok b w = Some w' →
  lands (x_worker w) (x_edge w) (x_responder w') w' ∧
  (x_responder w' = x_responder w ∨ is_configured (x_worker w) = true ∧ x_responder w' = PChunk).
Proof.
  intros Hf Hm. unfold worker_back.
  assert (∀ wk w1, lands wk (x_edge w) (x_responder w) w1 → lands wk (x_edge w) (x_responder w1) w1 ∧
    (x_responder w1 = x_responder w ∨ is_configured wk = true ∧ x_responder w1 = PChunk)) as Hfin.
  { intros wk w1 Hl. pose proof Hl as (_ & _ & Er & _). rewrite Er. auto. }
  assert (free (x_worker w) → ∀ ex, lands (x_worker w) (x_edge w) (x_responder w) (worker_raised ex w)) as Hraised.
  { intros Hfree ex. apply worker_raised_lands. intros wk' Hs _. by apply moves_place. }
  destruct (x_worker w) as [| |m|x|m|sb|s0 m| |close m|] eqn:Ew; try done; intros <-%(inj Some).
  - destruct Hm as (Ha & Hc & _). destruct b; [|by apply Hfin, Hraised..].
    split; [|by right]. apply worker_loop_lands; [done|]. intros wk' Hs. by apply moves_spoke.
  - destruct Hm as [Ha Hc]. destruct b; [|by apply Hfin, Hraised..].
    apply Hfin, worker_loop_lands; [done|]. intros wk' Hs. by apply moves_spoke.
  - pose proof (fa_worker _ _ _ _ Hf) as [_ Hseq Hp].
    assert (∀ p, x_responder w = p → lands (WSubmitting sb) (x_edge w) p
      (worker_step (submission_failed request_id bracketed_ok sb) (λ _, worker_loop) w)) as Hfail.
    { intros p Ep. pose proof (submission_failed_facts request_id session_id bracketed_ok new_name new_name_safe sb (x_edge w) Hf) as Hff.
      pose proof (submission_failed_moves sb (x_edge w) Hseq Hp) as Hfm.
      apply worker_step_lands; [done|..]; intros a e' E; rewrite E in Hff, Hfm; [done|].
      intros wk' Hs Hd. apply Hfm; [done|]. apply Hd, Hff. }
    destruct b; [|by apply Hfin, Hfail..].
    apply Hfin, worker_step_lands; [done|..]; intros a e' E; apply submitted_moves in E as (m & Em & Ha & Hc & Hn & Hmv); try done.
    simplify_eq. apply set_worker_lands; try done. simpl. split; [done|]. split; [done|lia].
  - destruct Hm as (Ha & Hc & Hlt). destruct b; [|by apply Hfin, Hraised..].
    apply Hfin, worker_loop_lands; [done|]. intros wk' Hs.
    unfold exec, run. simpl. destruct (e_accepted (x_edge w) !! s0) as [v|] eqn:Ea;
      apply (moves_accepted _ _ _ _ m s0); try done; try (unfold set_of; by rewrite Ea);
      intros m' Hm'; rewrite (settled_pending _ _ (fa_worker _ _ _ _ Hf) Hm'); lia.
  - destruct b; [|by apply Hfin, Hraised..].
    apply Hfin, worker_loop_lands; [done|]. intros wk' Hs. by apply moves_place.
Qed.
End Heard.
