(* ===== verification/EdgeOrder.v ===== *)
(** * Edge sessions: accepted before processed, over every run

    Every event keeps what was said in order: whoever reports on an event that counts does so
    after it was announced. *)
From S2P Require Import Prelude PyNum Payload SessionState FrameStore Edge EdgeSteps EdgeInv EdgeWorker EdgeWorld EdgeSafe EdgeTold EdgeHeard.
Local Open Scope Z_scope.

Section Order.
Context (request_id session_id : string).
Context (bracketed_ok : list Ascii.ascii → bool) (new_name : gmap string bytes → result string).
Context (new_name_safe : ∀ env name, new_name env = Ok name → safe_name name).
Context (sha256 : bytes → string).
Implicit Types (e : Edge) (w : World) (s : Z) (v : nat).

Abbreviation facts := (EdgeWorker.facts request_id session_id).
Abbreviation einv := (EdgeWorld.einv request_id session_id).
Abbreviation step := (EdgeSteps.step request_id session_id bracketed_ok new_name sha256).
Abbreviation steps := (EdgeSteps.steps request_id session_id bracketed_ok new_name sha256).

(** The response may still speak. *)
Definition live w : bool :=
  negb (released_phase w) && match x_responder w with PClosing | PDone => false | _ => true end.

Record orderly w : Prop := {
  or_worker : worker_msg (x_worker w) (x_edge w);
  or_receiver : receiver_msg (x_receiver w);
  or_log : log_ok (x_worker w) (x_edge w);
  or_start : e_configured (x_edge w) = false ∨ is_configured (x_worker w) = true → x_responder w = PNone;
  or_told : live w = true → told (x_worker w) (x_edge w);
  or_response : response_ok (x_worker w) (x_edge w) (x_responder w)
}.

(** ** Moves and quieter changes *)

Lemma response_moved wk e wk' e' w :
  einv w → (live w = true → told wk e) → moves wk e wk' e' →
  response_ok wk e (x_responder w) → response_ok wk' e' (x_responder w).
Proof.
  intros Hw Ht Hm H. destruct (live w) eqn:El; [by eapply moves_response; [|apply Ht|]|].
  unfold live in El. destruct (released_phase w) eqn:Er; [by destruct (ei_released _ _ w Hw Er) as [[-> | ->] _]|].
  by destruct (x_responder w).
Qed.

(** The worker moved. *)
Lemma orderly_lands w w' :
  orderly w → einv w → lands (x_worker w) (x_edge w) (x_responder w') w' → x_receiver w' = x_receiver w →
  x_phase w' = x_phase w →
  x_responder w' = x_responder w ∨ is_configured (x_worker w) = true ∧ x_responder w' = PChunk → orderly w'.
Proof.
  intros [O1 O2 O3 O4 O5 O6] Hw (Hm & Hmsg & _ & Hcf) Er Ep Hp.
  assert (live w' = true → live w = true) as Hlive.
  { unfold live, released_phase. rewrite Ep. destruct Hp as [-> |[Hc ->]]; [done|]. by rewrite O4 by auto. }
  constructor.
  - done.
  - by rewrite Er.
  - by eapply moves_log.
  - intros [Hx|Hx]; [|auto]. assert (e_configured (x_edge w) = false) as Hy.
    { destruct (e_configured (x_edge w)) eqn:E; [|done]. by rewrite (mv_configured _ _ _ _ Hm E) in Hx. }
    destruct Hp as [-> |[Hc ->]]; [auto|]. destruct (x_worker w); try done. destruct O1 as (_ & _ & O1). congruence.
  - intros Hl. apply (mv_told _ _ _ _ Hm). auto.
  - destruct Hp as [-> |[Hc ->]]; [by eapply response_moved|done].
Qed.

Lemma orderly_moved w w' :
  orderly w → einv w → moves (x_worker w) (x_edge w) (x_worker w') (x_edge w') →
  worker_msg (x_worker w') (x_edge w') → receiver_msg (x_receiver w') → (live w' = true → live w = true) →
  x_responder w' = x_responder w → (is_configured (x_worker w') = true → x_responder w = PNone) → orderly w'.
Proof.
  intros [O1 O2 O3 O4 O5 O6] Hw Hm Hmsg Hr Hlive Hp Hcf. constructor; rewrite ?Hp; try done.
  - by eapply moves_log.
  - intros [Hx|Hx]; [|auto]. apply O4. left.
    destruct (e_configured (x_edge w)) eqn:E; [|done]. by rewrite (mv_configured _ _ _ _ Hm E) in Hx.
  - intros Hl. apply (mv_told _ _ _ _ Hm). auto.
  - by eapply response_moved.
Qed.

(** Something is said by another coroutine; nothing else it looks at changes. *)
Record grows (l : list OutMsg) e e' : Prop := {
  gr_accepted : e_accepted e' = e_accepted e;
  gr_events : e_events e' = e_events e;
  gr_next : e_next e' = e_next e;
  gr_seq : e_next_seq_no e' = e_next_seq_no e;
  gr_sent : e_sent e' = e_sent e ++ l;
  gr_pending : e_pending_frame e' = e_pending_frame e;
  gr_configured : e_configured e' = e_configured e
}.

(** What another coroutine may say. *)
Definition speaks (wk : Worker) e (m : OutMsg) : Prop :=
  accepts m = None ∧ ∀ s, about m = Some s → said wk e s.

Lemma grows_announced l e e' wk s :
  grows l e e' → Forall (speaks wk e) l → announced e' s ↔ announced e s.
Proof.
  intros Hg Hl. split.
  - intros (m & Hm & Ha). rewrite (gr_sent _ _ _ Hg) in Hm. apply elem_of_app in Hm as [Hm|Hm]; [by exists m|].
    rewrite Forall_forall in Hl. destruct (Hl m Hm). congruence.
  - by apply (announced_app _ _ l), Hg.
Qed.

Lemma grows_told l wk e e' : grows l e e' → Forall (speaks wk e) l → told wk e → told wk e'.
Proof.
  intros Hg Hl [T1 T2 T3 T4 T5]. pose proof (λ s, grows_announced l e e' wk s Hg Hl) as Han.
  destruct Hg as [G1 G2 G3 G4 G5 G6 G7]. constructor; unfold waits, unset, given in *; rewrite ?G1, ?G2, ?G3, ?G4, ?G6; try done.
  - intros s. rewrite Han. apply T3.
  - intros s Hs. rewrite Han. by apply T4.
Qed.

Lemma grows_said l wk e e' s : grows l e e' → said wk e s → said wk e' s.
Proof.
  intros Hg [Ha|Hf]; [left; by eapply announced_app; [apply Hg|]|right]. unfold failed in *. by rewrite (gr_seq _ _ _ Hg).
Qed.

Lemma grows_response l wk e e' p : grows l e e' → response_ok wk e p → response_ok wk e' p.
Proof.
  intros Hg. destruct p as [| |v k|m rest| |m| |]; simpl; try done.
  - intros H s Hs. destruct (H s Hs) as [Hx|[Hx [Hy Hz]]]; [left; by eapply grows_said|right].
    destruct Hg. unfold given, waits, unset in *. by rewrite gr_seq0, gr_accepted0, gr_events0.
  - intros H m' Hm'. destruct (H m' Hm') as [Ha Hs]. split; [done|]. intros s Hab. eapply grows_said; [done|auto].
Qed.

Lemma grows_log l wk e e' : e_next_seq_no e' = e_next_seq_no e → e_sent e' = e_sent e ++ l →
  Forall (speaks wk e) l → (length l ≤ 1)%nat → log_ok wk e → log_ok wk e'.
Proof.
  intros Eq Es Hl Hlen H i m s. rewrite Es, lookup_app. unfold failed. rewrite Eq. destruct (e_sent e !! i) as [m0|] eqn:Ei.
  - intros [= ->] Hs. destruct (H i m s Ei Hs) as [(j & m' & Hj & Hm' & Ha)|Hx]; [left|by right].
    exists j, m'. rewrite lookup_app, Hm'. auto.
  - intros Hm Hs. apply lookup_ge_None in Ei. rewrite Forall_forall in Hl.
    destruct (Hl m (list_elem_of_lookup_2 _ _ _ Hm)) as [_ Hsaid].
    destruct (Hsaid s Hs) as [(m' & Hm' & Ha)|Hf]; [left|by right].
    apply list_elem_of_lookup in Hm' as [j Hj]. exists j, m'. rewrite lookup_app, Hj.
    apply lookup_lt_Some in Hj. split; [lia|done].
Qed.

Lemma worker_msg_kept wk e e' :
  e_next_seq_no e' = e_next_seq_no e → e_configured e' = e_configured e → worker_msg wk e → worker_msg wk e'.
Proof. intros E1 E2. unfold worker_msg. destruct wk; by rewrite ?E1, ?E2. Qed.

Lemma orderly_grows l w w' :
  orderly w → grows l (x_edge w) (x_edge w') → Forall (speaks (x_worker w) (x_edge w)) l → (length l ≤ 1)%nat →
  x_worker w' = x_worker w → receiver_msg (x_receiver w') → (live w' = true → live w = true) →
  response_ok (x_worker w) (x_edge w') (x_responder w') → (x_responder w = PNone → x_responder w' = PNone) → orderly w'.
Proof.
  intros [O1 O2 O3 O4 O5 O6] Hg Hl Hlen Ew Hr Hlive Hresp Hp. constructor; rewrite ?Ew; try done.
  - eapply worker_msg_kept; [apply Hg..|done].
  - eapply grows_log; [apply Hg..|done|done|done].
  - rewrite (gr_configured _ _ _ Hg). auto.
  - intros Hlv. eapply grows_told; eauto.
Qed.

(** The response is over. *)
Lemma orderly_over l w w' :
  orderly w → e_next_seq_no (x_edge w') = e_next_seq_no (x_edge w) → e_configured (x_edge w') = e_configured (x_edge w) →
  e_sent (x_edge w') = e_sent (x_edge w) ++ l → Forall (speaks (x_worker w) (x_edge w)) l → (length l ≤ 1)%nat →
  x_worker w' = x_worker w → receiver_msg (x_receiver w') → live w' = false →
  x_responder w' = PNone ∨ x_responder w' = PClosing ∨ x_responder w' = PDone →
  (x_responder w = PNone → x_responder w' = PNone) → orderly w'.
Proof.
  intros [O1 O2 O3 O4 O5 O6] Eq Ec Es Hl Hlen Ew Hr Hlive Hend Hp. constructor; rewrite ?Ew; try done.
  - by eapply worker_msg_kept.
  - by eapply grows_log.
  - rewrite Ec. auto.
  - congruence.
  - by destruct Hend as [-> |[-> | ->]].
Qed.
(** ** The response *)

Lemma moves_still wk e e' : same e e' → moves wk e wk e'.
Proof.
  intros Hs. pose proof Hs as [S1 S2 S3 S4 S5 S6 S7]. constructor.
  - exists []. by rewrite app_nil_r.
  - intros s. unfold failed. by rewrite S4.
  - intros s. unfold given. rewrite S4. by left.
  - intros s v v' _. rewrite S1. congruence.
  - by apply same_told.
  - done.
Qed.

(** A waiting frame is the next event. *)
Lemma facts_pending wk e m :
  facts wk e → dead wk = false → e_pending_frame e = Some m → fm_seq_no m = e_next_seq_no e.
Proof.
  intros [H _ _] Hd Hp. destruct wk as [| |m'|x|m'|sb|s0 m'| |[] m'|]; simpl in *; try done;
    try by eapply settled_pending.
  - destruct H as (H & _). by eapply settled_pending.
  - destruct H as [_ _ H]. congruence.
Qed.

Lemma forget_frame_same s e r e' : forget_frame request_id bracketed_ok s e = (r, e') → same e e'.
Proof.
  unfold forget_frame, mbind, M_bind, get, modify, on_store, zoom, mret, M_ret.
  destruct (e_frame_refs e !! s); [|by intros [= <- <-]]. destruct (forget _ _ _ _) as [[u|ex] st]; by intros [= <- <-].
Qed.

(** What a chunk says, once its event was announced. *)
Lemma handle_chunk_moves k wk e :
  facts wk e → (∀ s, about_in k = Some s → said wk e s) →
  match handle_chunk request_id bracketed_ok k e with
  | (Ok msgs, e') => moves wk e wk e' ∧ e_configured e' = e_configured e ∧ e_next_seq_no e' = e_next_seq_no e ∧
      Forall (speaks wk e') msgs
  | (Raise _, e') => moves wk e wk e' ∧ e_configured e' = e_configured e ∧ e_next_seq_no e' = e_next_seq_no e
  end.
Proof.
  intros Hf Hsaid.
  assert (∀ m e', about m = None → accepts m = None → speaks wk e' m) as Hplain.
  { intros m e' H1 H2. split; [done|]. intros s. by rewrite H1. }
  destruct k as [|turn|turn nt s|turn s ts ss|frame s ts final turns|text reason turn]; unfold handle_chunk.
  - split; [by apply moves_still|]. repeat split; by repeat constructor.
  - split; [by apply moves_still|]. repeat split; by repeat constructor.
  - split; [by apply moves_still|]. split; [done|]. split; [done|]. constructor; [|done]. split; [done|].
    intros s' [= <-]. by apply Hsaid.
  - split; [by apply moves_still|]. repeat split; by repeat constructor.
  - unfold mbind at 1, M_bind at 1. destruct (forget_frame request_id bracketed_ok s e) as [r e1] eqn:E1.
    assert (e_configured e1 = e_configured e) as Ec1.
    { pose proof (forget_frame_quiet request_id bracketed_ok s e) as Hq. rewrite E1 in Hq. apply Hq. }
    apply forget_frame_same in E1. destruct r as [[]|ex]; [|split; [by apply moves_still|split; [done|apply E1]]].
    unfold mbind at 1, M_bind at 1. rewrite release_exact. unfold mbind, M_bind, get.
    destruct E1 as [S1 S2 S3 S4 S5 S6 S7]. specialize (Hsaid s eq_refl).
    match goal with |- context [pending_events ?x] => set (e2 := x) end.
    assert (∀ e', (∃ turn, e' = e2 <| e_turn := turn |>) → moves wk e wk e' ∧
      e_configured e' = e_configured e ∧ e_next_seq_no e' = e_next_seq_no e) as Hmv.
    { intros e' [t ->]. split; [|by split]. apply (moves_released _ _ _ _ s); unfold e2; fields; try done.
      - by rewrite S1.
      - unfold set_of. by rewrite S1, S2.
      - intros m Ht Hp Hd. rewrite S6 in Hp. split; [done|]. rewrite (facts_pending _ _ _ Hf Hd Hp).
        destruct Hsaid as [Ha|[_ ?]]; [apply (to_announced _ _ Ht) in Ha; lia|congruence].
      - by left.
      - intros [_ Hg]. fields. rewrite S4 in Hg. destruct Hsaid as [Ha|[Hle Hd]]; [done|].
        destruct Hg as [?|Hg]; [lia|]. by destruct wk. }
    assert (∀ e', (∃ turn, e' = e2 <| e_turn := turn |>) → speaks wk e' (OProcessed frame s ts final (pending_events e2) turns)) as Hsp.
    { intros e' Ht. destruct (Hmv e' Ht) as [Hm _]. split; [done|]. intros s' [= <-]. by eapply moves_said. }
    destruct turns as [[t0 t]|]; unfold assign_to, modify, mret, M_ret.
    + destruct (Hmv (e2 <| e_turn := t |>)) as (? & ? & ?); [by eexists|]. split_and!; try done.
      constructor; [|done]. apply Hsp. by eexists.
    + assert (∃ turn, e2 = e2 <| e_turn := turn |>) as He2 by (by exists (e_turn e2)).
      destruct (Hmv e2 He2) as (? & ? & ?). split_and!; try done. constructor; [|done]. by apply Hsp.
  - unfold mbind, M_bind, get, assign_to, modify, mret, M_ret.
    destruct reason; simpl; (split; [by apply moves_still|]); (split; [done|]); (split; [done|]);
      case_match; by repeat constructor.
Qed.
(** ** Events *)

Lemma grows_refl e : grows [] e e.
Proof. constructor; try done. by rewrite app_nil_r. Qed.

Lemma speaks_plain wk e m : about m = None → accepts m = None → speaks wk e m.
Proof. intros H1 H2. split; [done|]. intros s. by rewrite H1. Qed.

(** Another coroutine says something plain, the response stays. *)
Lemma orderly_plain l w w' :
  orderly w → grows l (x_edge w) (x_edge w') → Forall (λ m, about m = None ∧ accepts m = None) l → (length l ≤ 1)%nat →
  x_worker w' = x_worker w → receiver_msg (x_receiver w') → (live w' = true → live w = true) →
  x_responder w' = x_responder w → orderly w'.
Proof.
  intros Hw Hg Hl Hlen Ew Hr Hlive Ep. apply (orderly_grows l w); try done.
  - eapply Forall_impl; [exact Hl|]. intros m [H1 H2]. by apply speaks_plain.
  - rewrite Ep. eapply grows_response; [done|]. apply Hw.
  - by rewrite Ep.
Qed.

(** The response goes somewhere else. *)
Lemma orderly_response p w :
  orderly w → live w = true → x_responder w ≠ PNone → response_ok (x_worker w) (x_edge w) p →
  orderly (set_responder p w).
Proof.
  intros Hw Hl Hp Hresp. apply (orderly_grows [] w); try done; [apply grows_refl|simpl; lia|apply Hw].
Qed.

Lemma responder_raised_orderly message w :
  orderly w → live w = true → x_responder w ≠ PNone → orderly (responder_raised message w).
Proof. intros. unfold responder_raised. destruct (e_abort_sent _); by apply orderly_response. Qed.

Lemma responder_chunk_orderly k w :
  orderly w → einv w → live w = true → x_responder w ≠ PNone →
  (∀ s, about_in k = Some s → said (x_worker w) (x_edge w) s) → orderly (responder_chunk request_id bracketed_ok k w).
Proof.
  intros Hw Hi Hl Hp Hsaid. unfold responder_chunk, run.
  pose proof (handle_chunk_moves k (x_worker w) (x_edge w) (ei_facts _ _ w Hi) Hsaid) as H.
  destruct (handle_chunk request_id bracketed_ok k (x_edge w)) as [r e'].
  assert (moves (x_worker w) (x_edge w) (x_worker w) e' → e_configured e' = e_configured (x_edge w) →
    e_next_seq_no e' = e_next_seq_no (x_edge w) → orderly (w <| x_edge := e' |>)) as Hmid.
  { intros Hm Ec Eq. apply (orderly_moved w); try done; simpl.
    - eapply worker_msg_kept; [done..|apply Hw].
    - apply Hw.
    - intros Hc. apply (or_start w Hw). by right. }
  destruct r as [msgs|ex].
  - destruct H as (Hm & Ec & Eq & Hs). specialize (Hmid Hm Ec Eq). destruct msgs as [|m rest]; apply orderly_response; try done.
    simpl. intros m' Hm'. rewrite Forall_forall in Hs. by apply Hs.
  - destruct H as (Hm & Ec & Eq). by apply responder_raised_orderly; [apply Hmid| |].
Qed.

Lemma closed_grows e : grows [] e (e <| e_closed := true |>).
Proof. constructor; try done. by rewrite app_nil_r. Qed.

Lemma sent_grows e m : grows [m] e (e <| e_sent := e_sent e ++ [m] |>).
Proof. by constructor. Qed.

Lemma receive_orderly raw w : orderly w → orderly (receive raw w).
Proof.
  intros Hw. pose proof grows_refl as Hr. pose proof closed_grows as Hc.
  assert (∀ code message, orderly (receiver_stop code message w)) as Hstop.
  { intros code message. apply (orderly_plain [] w); try done; try apply Hc; simpl; lia. }
  assert (∀ w1, x_edge w1 = x_edge w → x_worker w1 = x_worker w → x_phase w1 = x_phase w → x_responder w1 = x_responder w →
    orderly (receiver_loop w1)) as Hloop.
  { intros w1 E1 E2 E3 E4. apply (orderly_plain [] w); try done; unfold receiver_loop; fields.
    - rewrite E1. apply Hr.
    - lia.
    - by destruct (e_closed _).
    - unfold live, released_phase. fields. by rewrite E3, E4. }
  assert (∀ x, orderly (enqueue x w)) as Henq.
  { intros x. unfold enqueue. destruct (_ <=? _); [done|by apply Hloop]. }
  assert (∀ m, about m = None → accepts m = None → orderly (w <| x_receiver := RRejecting false m |>)) as Hrej.
  { intros m H1 H2. apply (orderly_plain [] w); try done; try apply Hr; simpl; lia. }
  assert (orderly (exec set_closed w <| x_receiver := RDone |>)) as Hend.
  { apply (orderly_plain [] w); try done; try apply Hc; simpl; lia. }
  destruct raw as [| |payload|message|[]]; cbn [receive]; try apply Henq; try done.
  - by apply Hloop.
  - destruct (_ <? _); [done|apply Henq].
  - by apply Hrej.
Qed.

Lemma response_closed_orderly l w w1 :
  orderly w → x_responder w ≠ PNone →
  e_next_seq_no (x_edge w1) = e_next_seq_no (x_edge w) → e_configured (x_edge w1) = e_configured (x_edge w) →
  e_sent (x_edge w1) = e_sent (x_edge w) ++ l → Forall (speaks (x_worker w) (x_edge w)) l → (length l ≤ 1)%nat →
  x_worker w1 = x_worker w → x_receiver w1 = x_receiver w → orderly (response_closed w1).
Proof.
  intros Hw Hp E1 E2 E3 Hl Hlen E4 E5. unfold response_closed, exec, run.
  unfold mbind at 1, M_bind at 1. unfold set_closed at 1, assign_to, modify.
  destruct (close_input_queue_state (x_edge w1 <| e_closed := true |>)) as [ev E]. rewrite E. unfold set_responder. fields.
  apply (orderly_over l w); fields; try done.
  - rewrite E5. apply Hw.
  - unfold live. fields. by rewrite andb_false_r.
  - auto.
Qed.

Lemma teardown_orderly w :
  orderly w → receiver_msg (x_receiver w) → orderly (teardown_release request_id w).
Proof.
  intros Hw Hr. unfold teardown_release, exec, run.
  destruct (release_local_spec request_id (x_edge w)) as (e' & E & _ & _ & _ & _ & _ & E1 & E2 & E3).
  change (x_edge (w <| x_responder := _ |>)) with (x_edge w). rewrite E. fields.
  apply (orderly_over [] w); fields; try done.
  - by rewrite app_nil_r.
  - lia.
  - unfold live, released_phase. fields. by destruct (e_request_finished e').
  - destruct (x_responder w); auto.
  - by intros ->.
Qed.
(** ** The worker's events *)

(** Nothing but the worker moved. *)
Lemma orderly_worker w w' :
  orderly w → einv w → aside w w' →
  lands (x_worker w) (x_edge w) (x_responder w') w' →
  x_responder w' = x_responder w ∨ is_configured (x_worker w) = true ∧ x_responder w' = PChunk → orderly w'.
Proof. intros Hw Hi [A1 A2 A3 A4] Hl Hp. by apply (orderly_lands w). Qed.

Lemma input_orderly x rest w :
  orderly w → einv w → x_worker w = WIdle → x_inputs w = x :: rest →
  orderly (if e_closed (x_edge w) then w <| x_inputs := rest |> <| x_worker := WDone |>
           else worker_item request_id session_id bracketed_ok new_name sha256 x (w <| x_inputs := rest |>)).
Proof.
  intros Hw Hi Ew Ei. pose proof (ei_facts _ _ w Hi) as Hf. rewrite Ew in Hf.
  destruct (e_closed (x_edge w)) eqn:Ec.
  - apply (orderly_moved w); try done; fields; [|apply Hw]. rewrite Ew. by apply moves_place.
  - set (w1 := w <| x_inputs := rest |>).
    assert (lands WIdle (x_edge w) (x_responder w) (worker_item request_id session_id bracketed_ok new_name sha256 x w1)) as Hl.
    { apply (worker_item_lands request_id session_id bracketed_ok new_name sha256 x w1); [done|].
      intros Hc. apply (or_start w Hw). by left. }
    pose proof (worker_item_aside request_id session_id bracketed_ok new_name sha256 x w1) as [A1 A2 A3 A4].
    pose proof Hl as (_ & _ & Er & _). apply (orderly_lands w); [done|done| |exact A3|exact A1|by left].
    by rewrite Ew, Er.
Qed.

Lemma sent_orderly close m delivered w :
  orderly w → einv w → x_worker w = WRejecting close m →
  orderly (worker_loop (if close : bool then exec set_closed (deliver delivered m w) else deliver delivered m w)).
Proof.
  intros Hw Hi Ew. pose proof (or_worker w Hw) as Hm. rewrite Ew in Hm. destruct Hm as [Ha Hc].
  set (w' := worker_loop _). set (l := if delivered then [m] else []).
  assert (e_accepted (x_edge w') = e_accepted (x_edge w) ∧ keeps_events (x_edge w) (x_edge w') ∧
    e_next_seq_no (x_edge w') = e_next_seq_no (x_edge w) ∧ e_pending_frame (x_edge w') = e_pending_frame (x_edge w) ∧
    e_sent (x_edge w') = e_sent (x_edge w) ++ l ∧ e_configured (x_edge w') = e_configured (x_edge w) ∧
    sub (x_worker w') = None ∧ (close = true → dead (x_worker w') = true) ∧ is_configured (x_worker w') = false ∧
    x_receiver w' = x_receiver w ∧ x_responder w' = x_responder w ∧ x_phase w' = x_phase w ∧
    worker_msg (x_worker w') (x_edge w')) as (E1 & E2 & E3 & E4 & E5 & E6 & E7 & E8 & E9 & Er & Ep & Eph & Emsg).
  { unfold w', l. destruct close, delivered; unfold worker_loop; fields; try (destruct (e_closed (x_edge w)));
      rewrite ?app_nil_r; by split_and!. }
  apply (orderly_moved w); try done.
  - apply (moves_grown _ _ _ _ l); try done.
    + unfold l. destruct delivered; [|done]. constructor; [|done]. split; [done|]. intros s. by rewrite Hc.
    + rewrite Ew. destruct close; [by intros _; apply E8|done].
    + left. by rewrite Ew.
    + intros s. by rewrite Ew.
    + by rewrite E6.
  - rewrite Er. apply Hw.
  - unfold live, released_phase. by rewrite Ep, Eph.
  - congruence.
Qed.

(** The model only reports on events it was handed. *)
Definition honest (ev : Event) w : bool :=
  match ev with
  | EChunk k => match about_in k with
                | Some s => bool_decide (s ∈ map ev_seq_no (e_submitted (x_edge w)))
                | None => true
                end
  | _ => true
  end.

Lemma accept_seq ev sess sess' :
  accept ev sess = (Ok tt, sess') → ev_seq_no ev = s_next_seq_no sess ∧ s_next_seq_no sess' = s_next_seq_no sess + 1.
Proof.
  unfold accept, mbind, M_bind, get, guard_raise, raise_if, lift, modify.
  destruct (negb (String.eqb _ _)); [done|]. destruct (negb (String.eqb _ _)); [done|].
  destruct (s_final_received sess); [done|]. destruct (Z.eqb_spec (ev_seq_no ev) (s_next_seq_no sess)); [|done].
  destruct (timestamp_backwards _ _); [done|]. simpl. destruct (to_float _); [|done]. by intros [= <-].
Qed.

Lemma accept_all_seq evs sess sess' :
  accept_all evs sess = (Ok tt, sess') → s_next_seq_no sess ≤ s_next_seq_no sess' ∧
    ∀ s, s ∈ map ev_seq_no evs → s_next_seq_no sess ≤ s < s_next_seq_no sess'.
Proof.
  unfold accept_all. revert sess. induction evs as [|ev evs IH]; intros sess; simpl.
  - intros [= <-]. split; [lia|]. by intros s ?%elem_of_nil.
  - unfold mbind, M_bind. destruct (accept ev sess) as [[[]|] s1] eqn:E; [|done].
    apply accept_seq in E as [E1 E2]. intros [H1 H2]%IH. split; [lia|].
    intros s [->|Hs]%elem_of_cons; [lia|]. apply H2 in Hs. lia.
Qed.

(** What was handed over counts, or never will. *)
Lemma handed_over wk e s :
  facts wk e → s ∈ map ev_seq_no (e_submitted e) → given wk e s ∨ failed wk e s.
Proof.
  intros [Hwk _ _] Hs.
  assert (∀ sess, accepted_as request_id session_id e sess → 0 ≤ s < s_next_seq_no sess) as Hr.
  { intros sess (Hacc & _). apply accept_all_seq in Hacc as [_ H]. by apply H in Hs. }
  assert (EdgeInv.settled request_id session_id e → given wk e s) as Hset.
  { intros [(sess & Hacc & Hn & _) _]. apply Hr in Hacc. split; [lia|]. left. lia. }
  assert (dead wk = true → given wk e s ∨ failed wk e s) as Hdead.
  { intros Hd. assert (0 ≤ s). { destruct wk as [| |m|x|m|sb|s0 m| |[] m|]; simpl in *; try done; destruct Hwk as [sess Hacc]; apply Hr in Hacc; lia. }
    destruct (decide (s < e_next_seq_no e)); [left; split; auto|right; split; [lia|done]]. }
  destruct wk as [| |m|x|m|sb|s0 m| |[] m|]; simpl in *; auto.
  - left. apply Hset. by destruct Hwk.
  - destruct Hwk as [(sess & Hacc & Hn & _) Hseq _]. apply Hr in Hacc. left. split; [lia|]. simpl.
    destruct (decide (s = e_next_seq_no e)) as [->|]; [right; congruence|left; lia].
Qed.

Lemma chunk_orderly k w :
  orderly w → einv w → x_responder w = PChunk → honest (EChunk k) w = true →
  orderly (match awaited (x_edge w) k with
           | Some v => set_responder (PAccepted v k) w
           | None => responder_chunk request_id bracketed_ok k w
           end).
Proof.
  intros Hw Hi Ep Hh. simpl in Hh.
  assert (∀ s, about_in k = Some s → given (x_worker w) (x_edge w) s ∨ failed (x_worker w) (x_edge w) s) as Hgiven.
  { intros s Hs. rewrite Hs in Hh. apply handed_over; [apply Hi|]. by apply bool_decide_eq_true in Hh. }
  assert (live w = true) as Hl.
  { unfold live. rewrite Ep, andb_true_r. apply negb_true_iff. eapply live_responder; [done|by rewrite Ep..]. }
  pose proof (or_told w Hw Hl) as Ht.
  assert (∀ s, about_in k = Some s → awaited (x_edge w) k = e_accepted (x_edge w) !! s) as Haw.
  { intros s. by destruct k; intros [= <-]. }
  destruct (awaited (x_edge w) k) as [v|] eqn:Ea.
  - apply orderly_response; [done|done|by rewrite Ep|]. intros s Hs. specialize (Haw s Hs).
    destruct (Hgiven s Hs) as [Hg|Hf]; [|by left; right].
    destruct (to_given _ _ Ht s Hg) as [Han|(v' & Ha & Hu)]; [by left; left|]. right.
    rewrite Ha in Haw. injection Haw as ->. split; [done|]. by split.
  - apply responder_chunk_orderly; [done|done|done|by rewrite Ep|]. intros s Hs. specialize (Haw s Hs).
    destruct (Hgiven s Hs) as [Hg|Hf]; [|by right].
    destruct (to_given _ _ Ht s Hg) as [Han|(v' & Ha & Hu)]; [by left|congruence].
Qed.

Lemma begin_teardown_orderly w : orderly w → x_phase w = PhCancelling → orderly (begin_teardown request_id w).
Proof.
  intros Hw Hph. pose proof (or_receiver w Hw) as Hr. unfold begin_teardown.
  assert (orderly (exec set_closed w)) as H1.
  { apply (orderly_plain [] w); try done; try apply closed_grows. simpl; lia. }
  destruct (_ && _); [|by apply teardown_orderly].
  unfold run, abort_request. unfold mbind, M_bind, get. destruct (e_abort_sent _).
  - by apply teardown_orderly.
  - apply (orderly_plain [] w); try done.
    + constructor; try done. simpl. by rewrite app_nil_r.
    + simpl; lia.
    + unfold live, released_phase. simpl. by rewrite Hph.
Qed.
(** ** Every event *)

Lemma responder_live w : einv w → x_responder w ≠ PNone → x_responder w ≠ PDone → x_responder w ≠ PClosing → live w = true.
Proof.
  intros Hi H1 H2 H3. unfold live. rewrite (live_responder _ _ w Hi H1 H2). by destruct (x_responder w).
Qed.

Lemma finish_orderly w : orderly w → released_phase w = false → orderly (finish_run w).
Proof.
  intros Hw Hr. apply (orderly_plain [] w); try done; try apply closed_grows; [simpl; lia|apply Hw|].
  unfold live. by rewrite Hr.
Qed.

Lemma cancel_orderly w : orderly w → einv w → x_phase w = PhStopping → orderly (cancel_tasks w).
Proof.
  intros Hw Hi Hp. apply (orderly_moved w); try done; fields.
  - apply moves_same; try done; [by right|]. intros s Hs. pose proof (fa_worker _ _ _ _ (ei_facts _ _ w Hi)) as Hk.
    destruct (x_worker w); simpl in *; try done. destruct Hk as [_ Hk _]. congruence.
  - unfold live, released_phase. by rewrite Hp.
Qed.

Lemma responder_back_orderly b w w' :
  orderly w → einv w →
  match x_responder w with
  | PSending m rest =>
      Some (match b with
            | Returned => send_all rest (exec (log_sent m) w)
            | _ => responder_raised "send failed" w
            end)
  | PFinishing =>
      Some (match b with
            | Returned => response_closed (exec (log_sent (OSessionDone false)) w)
            | _ => responder_raised "send failed" w
            end)
  | PClosing => Some (set_responder PDone w)
  | _ => None
  end = Some w' → orderly w'.
Proof.
  intros Hw Hi. destruct (x_responder w) as [| |v k|m rest| |m| |] eqn:Ep; try done; intros <-%(inj Some).
  - assert (live w = true) as Hl by (apply responder_live; [done|by rewrite Ep..]).
    pose proof (or_response w Hw) as Hr. rewrite Ep in Hr.
    destruct b; [|by apply responder_raised_orderly; [| |rewrite Ep]..].
    pose proof (sent_grows (x_edge w) m) as Hg.
    assert (∀ p, (p = PChunk ∨ ∃ m' rest', p = PSending m' rest' ∧ ∀ x, x ∈ m' :: rest' → x ∈ rest) →
      orderly (set_responder p (exec (log_sent m) w))) as Hgo.
    { intros p Hcase. apply (orderly_grows [m] w); try done.
      - constructor; [|done]. apply Hr. set_solver.
      - apply Hw.
      - destruct Hcase as [-> |(m' & rest' & -> & Hsub)]; [done|]. intros x Hx.
        destruct (Hr x) as [Hxa Hxs]; [apply Hsub in Hx; set_solver|]. split; [done|].
        intros s Hs. eapply grows_said; [exact Hg|]. by apply Hxs.
      - by rewrite Ep. }
    destruct rest as [|m' rest']; apply Hgo; [by left|right]. by exists m', rest'.
  - assert (live w = true) as Hl by (apply responder_live; [done|by rewrite Ep..]).
    destruct b; [|by apply responder_raised_orderly; [| |rewrite Ep]..].
    apply (response_closed_orderly [OSessionDone false] w); try done; [by rewrite Ep|].
    constructor; [|done]. by apply speaks_plain.
  - apply (orderly_over [] w); try done; fields.
    + by rewrite app_nil_r.
    + lia.
    + apply Hw.
    + unfold live. fields. by rewrite andb_false_r.
    + auto.
    + by rewrite Ep.
Qed.

Lemma receiver_step_orderly ev w w' :
  actor ev = AReceiver → einv w → orderly w → honest ev w = true → step ev w = Some w' → orderly w'.
Proof.
  intros Hac Hi Hw Hh. destruct ev as [b|raw| |delivered| | |b|delivered|k|message| | |b|delivered| | | | | |delivered|];
    try discriminate; cbn [EdgeSteps.step].
  - destruct (x_receiver w); try done. intros <-%(inj Some). by apply receive_orderly.
  - destruct (x_receiver w) eqn:Er; try done. intros <-%(inj Some).
    destruct (e_configured _); apply (orderly_plain [] w); try done; try apply grows_refl; try apply closed_grows;
      try (simpl; lia). unfold receiver_loop. fields. by destruct (e_closed _).
  - destruct (x_receiver w) as [|stop m|] eqn:Er; try done. intros <-%(inj Some).
    pose proof (or_receiver w Hw) as Hm. rewrite Er in Hm.
    apply (orderly_plain (if delivered : bool then [m] else []) w); try done; destruct stop, delivered; try done;
      try apply sent_grows; try apply grows_refl; try (simpl; lia); try (by constructor);
      unfold receiver_loop; fields; by destruct (e_closed _).
Qed.

Lemma worker_step_orderly ev w w' :
  actor ev = AWorker → einv w → orderly w → honest ev w = true → step ev w = Some w' → orderly w'.
Proof.
  intros Hac Hi Hw Hh. destruct ev as [b|raw| |delivered| | |b|delivered|k|message| | |b|delivered| | | | | |delivered|];
    try discriminate; cbn [EdgeSteps.step].
  - destruct (x_worker w) eqn:Ew; try done. destruct (x_inputs w) as [|x rest] eqn:Ei; [done|].
    intros <-%(inj Some). exact (input_orderly x rest w Hw Hi Ew Ei).
  - destruct (x_worker w) as [| |m|x|m|sb|s0 m| |close m|] eqn:Ew; try done.
    destruct (has_credit _) eqn:Ec; [|done]. intros <-%(inj Some).
    pose proof (ei_facts _ _ w Hi) as Hf. rewrite Ew in Hf. destruct Hf as [(Hs & Hp & Hx & Hcf) Hcr _].
    assert (lands (x_worker w) (x_edge w) (x_responder w) (worker_reserved request_id session_id bracketed_ok x w)) as Hl.
    { apply worker_reserved_lands; try done; [by rewrite Ew|]. apply Hcr. }
    pose proof Hl as (_ & _ & Er & _). apply (orderly_worker w); [done|done|apply worker_reserved_aside| |by left].
    by rewrite Er.
  - intros Hb. pose proof (worker_back_aside _ _ _ _ _ Hb) as Ha.
    destruct (worker_back_lands request_id session_id bracketed_ok new_name new_name_safe b w w'
      (ei_facts _ _ w Hi) (or_worker w Hw) Hb) as [Hl Hp].
    by apply (orderly_worker w).
  - destruct (x_worker w) as [| |m|x|m|sb|s0 m| |close m|] eqn:Ew; try done. intros <-%(inj Some).
    by apply sent_orderly.
Qed.

Lemma response_step_orderly ev w w' :
  actor ev = AResponse → einv w → orderly w → honest ev w = true → step ev w = Some w' → orderly w'.
Proof.
  intros Hac Hi Hw Hh. destruct ev as [b|raw| |delivered| | |b|delivered|k|message| | |b|delivered| | | | | |delivered|];
    try discriminate; cbn [EdgeSteps.step].
  - destruct (x_responder w) eqn:Ep; try done. intros <-%(inj Some). by apply chunk_orderly.
  - destruct (x_responder w) eqn:Ep; try done. intros <-%(inj Some).
    apply responder_raised_orderly; [done|apply responder_live; [done|by rewrite Ep..]|by rewrite Ep].
  - destruct (x_responder w) eqn:Ep; try done. intros <-%(inj Some).
    assert (live w = true) as Hl by (apply responder_live; [done|by rewrite Ep..]).
    assert (grows [] (x_edge w) (x_edge (exec (response_ended request_id) w))) as Hg.
    { unfold exec, run, response_ended, mbind, M_bind, assign_to, modify, on_store, zoom.
      destruct (cleanup request_id _) as [r st]. constructor; try done. simpl. by rewrite app_nil_r. }
    destruct (exec_other (response_ended request_id) w) as (E1 & E2 & _ & E4 & E5).
    assert (live (exec (response_ended request_id) w) = true) as Hl1.
    { unfold live, released_phase in *. by rewrite E2, E5. }
    apply orderly_response; [|done|by rewrite E5, Ep|done].
    apply (orderly_plain [] w); try done; [simpl; lia|by rewrite E4; apply Hw].
  - destruct (x_responder w) as [| |v k| | | | |] eqn:Ep; try done. destruct (default _ _) eqn:Ev; [|done].
    intros <-%(inj Some). pose proof (or_response w Hw) as Hr. rewrite Ep in Hr.
    apply responder_chunk_orderly; [done|done|apply responder_live; [done|by rewrite Ep..]|by rewrite Ep|].
    intros s Hs. destruct (Hr s Hs) as [Hsaid|(_ & _ & Hu)]; [done|]. unfold unset in Hu. congruence.
  - by apply responder_back_orderly.
  - destruct (x_responder w) as [| |v k|m rest| |m| |] eqn:Ep; try done; intros <-%(inj Some).
    pose proof (or_response w Hw) as Hr. rewrite Ep in Hr. destruct Hr as [H1 H2].
    apply (response_closed_orderly (if delivered : bool then [m] else []) w); try (by destruct delivered).
    + by rewrite Ep.
    + destruct delivered; simpl; [done|]. by rewrite app_nil_r.
    + destruct delivered; [|done]. constructor; [|done]. by apply speaks_plain.
    + destruct delivered; simpl; lia.
Qed.

Lemma run_step_orderly ev w w' :
  actor ev = ARun → einv w → orderly w → honest ev w = true → step ev w = Some w' → orderly w'.
Proof.
  intros Hac Hi Hw Hh. destruct ev as [b|raw| |delivered| | |b|delivered|k|message| | |b|delivered| | | | | |delivered|];
    try discriminate; cbn [EdgeSteps.step].
  - destruct b, (x_phase w) eqn:Hp; try done; intros <-%(inj Some);
      [|by apply finish_orderly; [|unfold released_phase; rewrite Hp]..].
    destruct (ei_created _ _ w Hi Hp) as [Ew _]. apply (orderly_moved w); try done; fields.
    + rewrite Ew. by apply moves_spoke.
    + unfold live, released_phase. by rewrite Hp.
  - destruct (x_phase w) eqn:Hp; try done. intros Hf.
    assert (w' = finish_run w) as -> by (destruct (x_receiver w), (x_worker w); by simplify_eq).
    by apply finish_orderly; [|unfold released_phase; rewrite Hp].
  - destruct (x_phase w) eqn:Hp; try done; intros <-%(inj Some); by apply finish_orderly; [|unfold released_phase; rewrite Hp].
  - destruct (x_phase w) eqn:Hp; try done; intros <-%(inj Some). by apply cancel_orderly.
  - destruct (x_phase w) eqn:Hp; try done; intros <-%(inj Some). by apply begin_teardown_orderly.
  - destruct (x_phase w) eqn:Hp; try done; intros <-%(inj Some). apply teardown_orderly; [done|apply Hw].
  - destruct (x_phase w) eqn:Hp; try done; intros <-%(inj Some).
    apply (orderly_plain (if delivered : bool then [OSessionDone true] else []) w); try done; destruct delivered; try done;
      try apply sent_grows; try apply grows_refl; try (simpl; lia); try apply Hw; by constructor.
  - destruct (x_phase w) eqn:Hp; try done; intros <-%(inj Some).
    apply (orderly_plain [] w); try done; [apply grows_refl|simpl; lia|apply Hw].
Qed.

Lemma step_orderly ev w w' : einv w → orderly w → honest ev w = true → step ev w = Some w' → orderly w'.
Proof.
  intros Hi Hw Hh Hs. destruct (actor ev) eqn:E; [by eapply receiver_step_orderly|by eapply worker_step_orderly|
    by eapply response_step_orderly|by eapply run_step_orderly].
Qed.
(** ** Runs *)

Fixpoint honest_run (evs : list Event) w : bool :=
  match evs with
  | [] => true
  | ev :: evs' => honest ev w && match step ev w with Some w' => honest_run evs' w' | None => true end
  end.

Lemma steps_orderly evs w w' :
  einv w → orderly w → honest_run evs w = true → steps evs w = Some w' → orderly w'.
Proof.
  revert w. induction evs as [|ev evs IH]; intros w Hi Hw; simpl; [by intros _ [= <-]|].
  intros [Hh Hrun]%andb_true_iff. destruct (step ev w) as [w1|] eqn:E; [|done]. simpl.
  apply IH; [by eapply event_keeps|by eapply step_orderly|done].
Qed.

Lemma started_orderly allow store : orderly (started allow store).
Proof.
  constructor; try done. intros _. constructor; try done.
  - intros s (m & Hm & _). by apply elem_of_nil in Hm.
  - intros s [H0 [H1|H1]]; simpl in *; [lia|done].
Qed.

(** C8: A client hears that an event was accepted before it hears of its effect: on every run in
    which the model reports only on events it was handed, every [input.frame.processed],
    [input.prompt.processed] and [response.turn.interrupted] message for an event whose
    submission succeeded comes after the message that accepted it, however the response and the
    input worker interleave and whatever fails. *)
Theorem edge_accepted_first allow store evs w i m s :
  steps evs (started allow store) = Some w → honest_run evs (started allow store) = true →
  e_sent (x_edge w) !! i = Some m → about m = Some s → s < e_next_seq_no (x_edge w) →
  ∃ j m', (j < i)%nat ∧ e_sent (x_edge w) !! j = Some m' ∧ accepts m' = Some s.
Proof.
  intros Hs Hh Hm Ha Hlt.
  pose proof (steps_orderly _ _ _ (started_einv _ _ allow store) (started_orderly allow store) Hh Hs) as Hw.
  destruct (or_log w Hw i m s Hm Ha) as [H|[Hle _]]; [done|lia].
Qed.
End Order.

(** The chunk comes while the submission is under way; its message waits. *)
Definition demo_early : list Event :=
  take 12 demo_inputs ++
  [EChunk (KProcessed true 0 (NFloat (f_of_Z 1)) false None); EWorkerBack Returned; EWorkerBack Returned; EAccepted;
   EResponderBack Returned].

Lemma edge_accepted_first_witness :
  ∃ w m, demo_steps demo_early demo_started = Some w ∧ e_sent (x_edge w) !! 5%nat = Some m ∧ about m = Some 0 ∧
    ∃ j m', (j < 5)%nat ∧ e_sent (x_edge w) !! j = Some m' ∧ accepts m' = Some 0.
Proof.
  assert (demo_steps demo_early demo_started = Some (default demo_started (demo_steps demo_early demo_started))) as E
    by (vm_compute; reflexivity).
  assert (e_sent (x_edge (default demo_started (demo_steps demo_early demo_started))) !! 5%nat
    = Some (OProcessed true 0 (NFloat (f_of_Z 1)) false 0 None)) as Em by (vm_compute; reflexivity).
  eexists _, _. split; [exact E|]. split; [exact Em|]. split; [reflexivity|].
  apply (edge_accepted_first "r" "s" (fun _ => true) demo_name demo_name_safe (fun _ => "f") false demo_store demo_early _ 5
    (OProcessed true 0 (NFloat (f_of_Z 1)) false 0 None) 0 E);
    [vm_compute; reflexivity|exact Em|reflexivity|vm_compute; reflexivity].
Defined.
