(* ===== verification/EdgeManager.v ===== *)
(** * Edge sessions: the session manager

    Models [VideoRealtimeSessionManager] and the websocket handler
    ([src/sglang_omni/serve/video_realtime.py]).  A session counts from [open] to the end of its
    [close]; of the session object only its replica is read, and [math.isfinite] is applied to
    the configured timeout. *)
From S2P Require Import Prelude PyNum.
Local Open Scope Z_scope.

(** The sessions by their identifier, each with its replica. *)
Record Manager : Type := {
  mg_max_sessions : Z; mg_replica_count : Z; mg_configure_timeout : pyfloat;
  mg_sessions : gmap string (option nat)
}.

#[global] Instance eta_Manager : Eta Manager := fun s =>
  {| mg_max_sessions := mg_max_sessions s; mg_replica_count := mg_replica_count s;
     mg_configure_timeout := mg_configure_timeout s; mg_sessions := mg_sessions s |}.

(** [__init__]. *)
Definition make_manager (max_sessions replica_count : Z) (timeout : pyfloat) : result Manager :=
  _ ← raise_if (negb (f_finite timeout) || num_le (NFloat timeout) (NInt 0))
        (ValueError "configure_timeout_s must be finite and positive");
  _ ← raise_if (max_sessions <? 1) (ValueError "max_sessions must be at least 1");
  _ ← raise_if (replica_count <? 1) (ValueError "replica_count must be at least 1");
  _ ← raise_if (negb (max_sessions mod replica_count =? 0))
        (ValueError "max_sessions must be a multiple of replica_count");
  Ok {| mg_max_sessions := max_sessions; mg_replica_count := replica_count; mg_configure_timeout := timeout;
        mg_sessions := ∅ |}.

(** The sessions on each replica. *)
Fixpoint count_loads (ranks : list (option nat)) (loads : list Z) : result (list Z) :=
  match ranks with
  | [] => Ok loads
  | None :: ranks' => count_loads ranks' loads
  | Some rank :: ranks' =>
      match loads !! rank with
      | None => Raise (IndexError "list index out of range")
      | Some n => count_loads ranks' (<[rank := n + 1]> loads)
      end
  end.

(** [min(free, key=...)]: the first of the least loaded. *)
Fixpoint least_loaded (load : nat → Z) (best : nat) (free : list nat) : nat :=
  match free with
  | [] => best
  | rank :: free' => least_loaded load (if load rank <? load best then rank else best) free'
  end.

Definition no_free_slot : pyexn := RuntimeError "video realtime service has no free session slot".

Definition load_of (loads : list Z) (rank : nat) : Z := default 0 (loads !! rank).

(** [_assign_replica]. *)
Definition assign_replica (mg : Manager) : result (option nat) :=
  if mg_replica_count mg =? 1 then Ok None
  else
    loads ← count_loads (map snd (map_to_list (mg_sessions mg))) (replicate (Z.to_nat (mg_replica_count mg)) 0);
    let per_replica_capacity := mg_max_sessions mg / mg_replica_count mg in
    match List.filter (fun rank => load_of loads rank <? per_replica_capacity)
            (seq 0 (Z.to_nat (mg_replica_count mg))) with
    | [] => Raise no_free_slot
    | rank :: free => Ok (Some (least_loaded (load_of loads) rank free))
    end.

(** [open]; [session_id] is the new session's identifier. *)
Definition open_session (session_id : string) : M Manager (option nat) :=
  mg ← get;
  _ ← guard_raise (mg_max_sessions mg <=? Z.of_nat (size (mg_sessions mg))) no_free_slot;
  dp_rank ← lift (assign_replica mg);
  _ ← modify (fun mg => mg <| mg_sessions := <[session_id := dp_rank]> (mg_sessions mg) |>);
  mret dp_rank.

(** [close]: whatever its teardown does, the session is forgotten. *)
Definition close_session (session_id : string) : M Manager unit :=
  modify (fun mg => mg <| mg_sessions := delete session_id (mg_sessions mg) |>).

(** [video_realtime]: a connection is refused with a code, or becomes a session; the session is
    closed whatever [run] does. *)
Inductive Connection : Type := Refused (close_code : Z) | Opened (dp_rank : option nat).

Definition connect (session_id : string) : M Manager Connection :=
  try_except (dp_rank ← open_session session_id; mret (Opened dp_rank))
    (fun e => match e with RuntimeError _ => mret (Refused 1013) | _ => throw e end).

(** What happens to a manager. *)
Inductive ManagerOp : Type := Connect (session_id : string) | Close (session_id : string).

Definition manager_op (op : ManagerOp) : M Manager unit :=
  match op with
  | Connect session_id => _ ← connect session_id; mret tt
  | Close session_id => close_session session_id
  end.

(** ** The replicas *)

(** The sessions with a replica. *)
Definition on_rank (rank : nat) (sessions : gmap string (option nat)) : gmap string (option nat) :=
  filter (λ p, p.2 = Some rank) sessions.

Definition rank_load (mg : Manager) (rank : nat) : Z := Z.of_nat (size (on_rank rank (mg_sessions mg))).

Lemma count_loads_spec ranks loads loads' :
  count_loads ranks loads = Ok loads' →
  length loads' = length loads ∧
  ∀ rank, (rank < length loads)%nat → load_of loads' rank = load_of loads rank + Z.of_nat (length (filter (.= Some rank) ranks)).
Proof.
  revert loads. induction ranks as [|[r|] ranks IH]; intros loads; simpl.
  - intros [= <-]. split; [done|]. intros. lia.
  - destruct (loads !! r) as [n|] eqn:E; [|done]. intros [Hl H]%IH. rewrite length_insert in Hl. split; [done|].
    intros rank Hr. rewrite H by by rewrite length_insert. rewrite filter_cons. unfold load_of.
    destruct (decide (r = rank)) as [->|Hne].
    + rewrite list_lookup_insert_eq by done. rewrite E. rewrite decide_True by done. simpl. lia.
    + rewrite list_lookup_insert_ne by done. rewrite decide_False by congruence. done.
  - intros [Hl H]%IH. split; [done|]. intros rank Hr. rewrite H by done. rewrite filter_cons.
    by rewrite decide_False.
Qed.

Lemma count_loads_Ok ranks loads :
  Forall (λ r, ∀ rank, r = Some rank → (rank < length loads)%nat) ranks → is_ok (count_loads ranks loads) = true.
Proof.
  revert loads. induction ranks as [|[r|] ranks IH]; intros loads; simpl; [done| |].
  - intros [H1 H2]%Forall_cons. destruct (lookup_lt_is_Some_2 loads r) as [n ->]; [by apply H1|].
    apply IH. by rewrite length_insert.
  - intros [H1 H2]%Forall_cons. by apply IH.
Qed.

Lemma least_loaded_spec load best free :
  least_loaded load best free ∈ best :: free ∧
  ∀ rank, rank ∈ best :: free → load (least_loaded load best free) ≤ load rank.
Proof.
  revert best. induction free as [|r free IH]; intros best; simpl; [set_solver by lia|].
  destruct (Z.ltb_spec (load r) (load best)) as [Hlt|Hge].
  - destruct (IH r) as [H1 H2]. split; [set_solver|].
    intros rank [->|Hr]%elem_of_cons; [specialize (H2 r); set_solver by lia|by apply H2].
  - destruct (IH best) as [H1 H2]. split; [set_solver|].
    intros rank [->|[->|Hr]%elem_of_cons]%elem_of_cons; [apply H2; set_solver| |apply H2; set_solver].
    etrans; [apply (H2 best); set_solver|done].
Qed.

Lemma on_rank_insert rank sessions sid r :
  sessions !! sid = None →
  on_rank rank (<[sid := r]> sessions) = if decide (r = Some rank) then <[sid := r]> (on_rank rank sessions)
                                         else on_rank rank sessions.
Proof.
  intros Hs. unfold on_rank. destruct (decide (r = Some rank)) as [Hr|Hr].
  - by rewrite map_filter_insert_True.
  - rewrite map_filter_insert_False by done. by rewrite delete_id.
Qed.

Lemma on_rank_size_insert rank sessions sid r :
  sessions !! sid = None →
  size (on_rank rank (<[sid := r]> sessions))
  = ((if decide (r = Some rank) then 1 else 0) + size (on_rank rank sessions))%nat.
Proof.
  intros Hs. rewrite on_rank_insert by done. destruct (decide _); [|done].
  rewrite map_size_insert_None; [done|]. apply map_lookup_filter_None_2. by left.
Qed.

(** The list of loads is the map's. *)
Lemma loads_of_sessions rank (sessions : gmap string (option nat)) :
  length (filter (.= Some rank) (map snd (map_to_list sessions))) = size (on_rank rank sessions).
Proof.
  induction sessions as [|sid r sessions Hs IH] using map_ind; [done|].
  rewrite on_rank_size_insert by done. rewrite <- IH.
  assert (map snd (map_to_list (<[sid := r]> sessions)) ≡ₚ r :: map snd (map_to_list sessions)) as Hp
    by by rewrite map_to_list_insert.
  rewrite (Permutation_length (filter_Permutation _ _ _ Hp)). rewrite filter_cons. by destruct (decide _).
Qed.

Lemma sum_with_add {A} (f g h : A → nat) l :
  (∀ x, x ∈ l → f x = g x + h x)%nat → sum_list_with f l = (sum_list_with g l + sum_list_with h l)%nat.
Proof. induction l as [|x l IH]; intros H; simpl; [done|]. rewrite IH, H by set_solver. lia. Qed.

Lemma sum_with_indicator n k :
  (k < n)%nat → sum_list_with (λ r, if decide (Some k = Some r) then 1 else 0)%nat (seq 0 n) = 1%nat.
Proof.
  intros Hk. replace n with (k + (1 + (n - k - 1)))%nat by lia.
  rewrite !seq_app, !sum_list_with_app. simpl. rewrite decide_True by done.
  assert (∀ a b, (k < a ∨ a + b ≤ k)%nat → sum_list_with (λ r, if decide (Some k = Some r) then 1 else 0)%nat (seq a b) = 0%nat) as H0.
  { intros a b. revert a. induction b as [|b IH]; intros a Hab; simpl; [done|].
    rewrite decide_False by (intros [= ->]; lia). apply IH. lia. }
  rewrite !H0 by lia. lia.
Qed.

(** Every session is on a replica. *)
Lemma loads_total n (sessions : gmap string (option nat)) :
  (∀ sid r, sessions !! sid = Some r → ∃ rank, r = Some rank ∧ (rank < n)%nat) →
  size sessions = sum_list_with (λ rank, size (on_rank rank sessions)) (seq 0 n).
Proof.
  induction sessions as [|sid r sessions Hs IH] using map_ind; intros H.
  - rewrite map_size_empty. induction (seq 0 n); simpl; by rewrite ?map_size_empty.
  - destruct (H sid r) as (rank & -> & Hr); [apply lookup_insert_eq|].
    rewrite map_size_insert_None, IH; [|intros s x Hx; apply (H s); rewrite lookup_insert_ne; congruence|done].
    erewrite (sum_with_add (λ rk, size (on_rank rk (<[sid := Some rank]> sessions)))).
    2: { intros rk _. apply (on_rank_size_insert rk _ sid (Some rank) Hs). }
    rewrite sum_with_indicator by done. done.
Qed.

Lemma pigeonhole (f : nat → nat) (per : nat) l :
  (sum_list_with f l < length l * per)%nat → ∃ x, x ∈ l ∧ (f x < per)%nat.
Proof.
  induction l as [|x l IH]; simpl; [lia|]. intros H. destruct (decide (f x < per)%nat); [exists x; set_solver|].
  destruct IH as (y & ? & ?); [lia|]. exists y. set_solver.
Qed.

(** ** The invariant *)

Record spread (mg : Manager) : Prop := {
  sp_max : 1 ≤ mg_max_sessions mg;
  sp_count : 1 ≤ mg_replica_count mg;
  sp_even : mg_max_sessions mg mod mg_replica_count mg = 0;
  sp_size : Z.of_nat (size (mg_sessions mg)) ≤ mg_max_sessions mg;
  sp_one : mg_replica_count mg = 1 → ∀ sid r, mg_sessions mg !! sid = Some r → r = None;
  sp_ranks : mg_replica_count mg ≠ 1 →
    ∀ sid r, mg_sessions mg !! sid = Some r → ∃ rank, r = Some rank ∧ (rank < Z.to_nat (mg_replica_count mg))%nat;
  sp_load : ∀ rank, rank_load mg rank ≤ mg_max_sessions mg / mg_replica_count mg
}.

Lemma size_delete_le {A} sid (m : gmap string A) : (size (delete sid m) ≤ size m)%nat.
Proof. rewrite map_size_delete. destruct (m !! sid); simpl; lia. Qed.

Lemma spread_delete sid mg : spread mg → spread (mg <| mg_sessions := delete sid (mg_sessions mg) |>).
Proof.
  intros [H1 H2 H3 H4 H5 H6 H7]. constructor; fields; try done.
  - assert (size (delete sid (mg_sessions mg)) ≤ size (mg_sessions mg))%nat by apply size_delete_le. lia.
  - intros E s r. rewrite lookup_delete_Some. intros [_ Hs]. by eapply H5.
  - intros E s r. rewrite lookup_delete_Some. intros [_ Hs]. by eapply H6.
  - intros rank. etrans; [|apply (H7 rank)]. unfold rank_load, on_rank. fields. rewrite map_filter_delete.
    apply inj_le, size_delete_le.
Qed.

(** A slot on the replica, or anywhere when there is one. *)
Lemma spread_insert sid r mg :
  spread mg → Z.of_nat (size (mg_sessions mg)) < mg_max_sessions mg →
  match r with
  | None => mg_replica_count mg = 1
  | Some rank => mg_replica_count mg ≠ 1 ∧ (rank < Z.to_nat (mg_replica_count mg))%nat ∧
      rank_load mg rank < mg_max_sessions mg / mg_replica_count mg
  end →
  spread (mg <| mg_sessions := <[sid := r]> (mg_sessions mg) |>).
Proof.
  intros Hsp Hsz Hr. pose proof (spread_delete sid mg Hsp) as [H1 H2 H3 H4 H5 H6 H7]. simpl in *.
  rewrite <- insert_delete_eq. set (m := delete sid (mg_sessions mg)) in *.
  assert (m !! sid = None) as Hm by apply lookup_delete_eq.
  assert (size m ≤ size (mg_sessions mg))%nat by apply size_delete_le.
  constructor; fields; try done.
  - rewrite map_size_insert_None by done. lia.
  - intros E s x. rewrite lookup_insert_Some. intros [[_ <-]|[_ Hs]]; [|by eapply H5].
    destruct r; [by destruct Hr|done].
  - intros E s x. rewrite lookup_insert_Some. intros [[_ <-]|[_ Hs]]; [|by eapply H6].
    destruct r as [rank|]; [|done]. exists rank. by destruct Hr as (_ & ? & _).
  - intros rank. unfold rank_load. fields. rewrite on_rank_size_insert by done.
    specialize (H7 rank). unfold rank_load in H7. simpl in H7. destruct (decide _) as [->|_]; [|lia].
    destruct Hr as (_ & _ & Hl). unfold rank_load in Hl.
    assert (size (on_rank rank m) ≤ size (on_rank rank (mg_sessions mg)))%nat; [|lia].
    unfold on_rank, m. rewrite map_filter_delete. apply size_delete_le.
Qed.

(** What [_assign_replica] gives. *)
Definition assigned (mg : Manager) (r : result (option nat)) : Prop :=
  match r with
  | Ok None => mg_replica_count mg = 1
  | Ok (Some rank) => mg_replica_count mg ≠ 1 ∧ (rank < Z.to_nat (mg_replica_count mg))%nat ∧
      rank_load mg rank < mg_max_sessions mg / mg_replica_count mg ∧
      ∀ rank', (rank' < Z.to_nat (mg_replica_count mg))%nat → rank_load mg rank ≤ rank_load mg rank'
  | Raise _ => False
  end.

Lemma assign_replica_spec mg :
  spread mg → Z.of_nat (size (mg_sessions mg)) < mg_max_sessions mg → assigned mg (assign_replica mg).
Proof.
  intros [H1 H2 H3 H4 H5 H6 H7] Hsz. unfold assign_replica.
  destruct (Z.eqb_spec (mg_replica_count mg) 1) as [E|E]; [done|]. specialize (H6 E).
  set (n := Z.to_nat (mg_replica_count mg)) in *. set (ranks := map snd _).
  assert (is_ok (count_loads ranks (replicate n 0)) = true) as Hok.
  { apply count_loads_Ok. apply Forall_forall. intros r Hr rank ->. rewrite length_replicate.
    apply list_elem_of_fmap in Hr as ([sid x] & Hx & Hin%elem_of_map_to_list).
    destruct (H6 sid x Hin) as (k & -> & Hk). simpl in Hx. congruence. }
  destruct (count_loads ranks (replicate n 0)) as [loads|] eqn:El; [|done]. clear Hok. simpl.
  apply count_loads_spec in El as [Hlen Hl]. rewrite length_replicate in Hl.
  assert (∀ rank, (rank < n)%nat → load_of loads rank = rank_load mg rank) as Hload.
  { intros rank Hr. rewrite Hl by done. unfold rank_load. rewrite <- loads_of_sessions. unfold load_of.
    by rewrite lookup_replicate_2. }
  set (per := mg_max_sessions mg / mg_replica_count mg) in *.
  assert (mg_max_sessions mg = mg_replica_count mg * per) as Hper by (apply Z.div_exact; lia).
  match goal with |- context [List.filter ?f ?l] => set (free := List.filter f l) end.
  assert (∀ rank, rank ∈ free ↔ (rank < n)%nat ∧ load_of loads rank < per) as Hfree.
  { intros rank. unfold free. rewrite list_elem_of_In, filter_In, <- list_elem_of_In, elem_of_seq, Z.ltb_lt.
    naive_solver lia. }
  assert (∃ rank, rank ∈ free) as [r0 Hr0].
  { rewrite (loads_total n) in Hsz by done.
    destruct (pigeonhole (λ rank, size (on_rank rank (mg_sessions mg))) (Z.to_nat per) (seq 0 n)) as (x & Hx & Hp).
    - rewrite length_seq. assert (0 ≤ per) by (apply Z.div_pos; lia). unfold n in *. rewrite <- Z2Nat.inj_mul by lia.
      rewrite <- Hper. lia.
    - exists x. apply elem_of_seq in Hx. apply Hfree. split; [lia|]. rewrite Hload by lia. unfold rank_load. lia. }
  destruct free as [|r free]; [by apply elem_of_nil in Hr0|].
  destruct (least_loaded_spec (load_of loads) r free) as [Hin Hmin].
  set (rank := least_loaded (load_of loads) r free) in *. apply Hfree in Hin as [Hk Hlt].
  rewrite Hload in Hlt by done. split; [done|]. split; [done|]. split; [done|].
  intros rank' Hr'. rewrite <- !Hload by done. destruct (decide (rank' ∈ r :: free)) as [Hi|Hn]; [by apply Hmin|].
  destruct (Z.ltb_spec (load_of loads rank') per); [by destruct Hn; apply Hfree|]. rewrite Hload by done. lia.
Qed.

(** [open], in every case. *)
Lemma open_session_cases sid mg :
  spread mg →
  (mg_max_sessions mg ≤ Z.of_nat (size (mg_sessions mg)) ∧ open_session sid mg = (Raise no_free_slot, mg)) ∨
  (Z.of_nat (size (mg_sessions mg)) < mg_max_sessions mg ∧ ∃ r, assigned mg (Ok r) ∧
    open_session sid mg = (Ok r, mg <| mg_sessions := <[sid := r]> (mg_sessions mg) |>)).
Proof.
  intros Hsp. unfold open_session, mbind, M_bind, get, guard_raise, raise_if, lift.
  destruct (Z.leb_spec (mg_max_sessions mg) (Z.of_nat (size (mg_sessions mg)))) as [Hle|Hlt]; [by left|right].
  split; [done|]. pose proof (assign_replica_spec mg Hsp Hlt) as Ha.
  destruct (assign_replica mg) as [r|]; [|done]. by exists r.
Qed.

Lemma manager_op_keeps op mg r mg' : spread mg → manager_op op mg = (r, mg') → r = Ok tt ∧ spread mg' ∧
  mg_max_sessions mg' = mg_max_sessions mg ∧ mg_replica_count mg' = mg_replica_count mg.
Proof.
  intros Hsp. destruct op as [sid|sid]; cbn [manager_op].
  - unfold connect, try_except. unfold mbind, M_bind.
    destruct (open_session_cases sid mg Hsp) as [[_ ->]|(Hlt & rk & Ha & ->)]; intros [= <- <-]; [done|].
    split; [done|]. split; [|done]. apply spread_insert; [done|done|]. by destruct rk; [destruct Ha as (? & ? & ? & _)|].
  - intros [= <- <-]. split; [done|]. by split; [apply spread_delete|].
Qed.

Lemma manager_ops_keep ops mg r mg' : spread mg → mforeach manager_op ops mg = (r, mg') → r = Ok tt ∧ spread mg' ∧
  mg_max_sessions mg' = mg_max_sessions mg ∧ mg_replica_count mg' = mg_replica_count mg.
Proof.
  revert mg. induction ops as [|op ops IH]; intros mg Hsp; cbn [mforeach]; [by intros [= <- <-]|].
  unfold mbind, M_bind. destruct (manager_op op mg) as [r1 mg1] eqn:E.
  destruct (manager_op_keeps _ _ _ _ Hsp E) as (-> & Hsp1 & <- & <-). by apply IH.
Qed.

Lemma make_manager_spread mx n t mg :
  make_manager mx n t = Ok mg → spread mg ∧ mg_max_sessions mg = mx ∧ mg_replica_count mg = n.
Proof.
  unfold make_manager. intros H. inv_ok. split; [|done]. constructor; fields; try lia; try done; [rewrite map_size_empty; lia|].
  intros rank. unfold rank_load, on_rank. fields. rewrite map_filter_empty, map_size_empty. apply Z.div_pos; lia.
Qed.

(** C32: Sessions are spread evenly and admitted exactly up to the limit: after any sequence of
    connections and closes, none of which raises, there are at most [max_sessions] sessions and
    no replica has more than its share; and the next connection becomes a session if and only if
    there are fewer, on a replica that none has fewer sessions than, and is refused with 1013
    otherwise. *)
Theorem sessions_spread mx n t mg0 ops r mg sid :
  make_manager mx n t = Ok mg0 → mforeach manager_op ops mg0 = (r, mg) →
  r = Ok tt ∧ Z.of_nat (size (mg_sessions mg)) ≤ mx ∧ (∀ rank, rank_load mg rank ≤ mx / n) ∧
  match (connect sid mg).1 with
  | Ok (Refused code) => code = 1013 ∧ Z.of_nat (size (mg_sessions mg)) = mx
  | Ok (Opened rk) => Z.of_nat (size (mg_sessions mg)) < mx ∧
      match rk with
      | None => n = 1
      | Some rank => n ≠ 1 ∧ Z.of_nat rank < n ∧ ∀ rank', Z.of_nat rank' < n → rank_load mg rank ≤ rank_load mg rank'
      end
  | Raise _ => False
  end.
Proof.
  intros (Hsp0 & Emx & En)%make_manager_spread Hops. destruct (manager_ops_keep _ _ _ _ Hsp0 Hops) as (-> & Hsp & E1 & E2).
  rewrite Emx in E1. rewrite En in E2. split; [done|]. pose proof (sp_size _ Hsp) as Hsz. pose proof (sp_load _ Hsp) as Hld.
  rewrite E1 in Hsz, Hld. rewrite E2 in Hld. split; [done|]. split; [done|].
  unfold connect, try_except, mbind, M_bind.
  destruct (open_session_cases sid mg Hsp) as [[Hle ->]|(Hlt & rk & Ha & ->)]; simpl; rewrite ?E1, ?E2 in *.
  - split; [done|lia].
  - split; [done|]. destruct rk as [rank|]; [|congruence]. destruct Ha as (Hn & Hr & _ & Hmin). rewrite E2 in *.
    split; [done|]. split; [lia|]. intros rank' Hr'. apply Hmin. lia.
Qed.

(** Two replicas of two slots: four connections fit, the fifth is refused. *)
Definition demo_ops : list ManagerOp :=
  [Connect "a"; Connect "b"; Connect "c"; Close "a"; Connect "d"; Connect "e"].

Lemma sessions_spread_witness :
  ∃ mg0 mg, make_manager 4 2 (f_of_Z 180) = Ok mg0 ∧ mforeach manager_op demo_ops mg0 = (Ok tt, mg) ∧
    rank_load mg 0 = 2 ∧ (connect "f" mg).1 = Ok (Refused 1013) ∧ Z.of_nat (size (mg_sessions mg)) ≤ 4.
Proof.
  destruct (make_manager 4 2 (f_of_Z 180)) as [mg0|] eqn:E; [|vm_compute in E; discriminate E].
  destruct (mforeach manager_op demo_ops mg0) as [r mg] eqn:Eo.
  pose proof (sessions_spread _ _ _ _ _ _ _ "f" E Eo) as (-> & Hsz & _).
  exists mg0, mg. split; [reflexivity|]. split; [exact Eo|].
  vm_compute in E. injection E as <-. vm_compute in Eo. injection Eo as <-.
  split; [vm_compute; reflexivity|]. split; [vm_compute; reflexivity|]. exact Hsz.
Defined.
