(* ===== verification/Seqlock.v ===== *)
(** * Shared admission: one slot

    Models [SlotCodec] ([src/sglang_omni_router/admission_shm.py]): a slot of shared memory that
    one process writes and others read, under a sequence lock.  The stores of a write and the
    loads of a read interleave in any order of steps; each side's own are in program order, as
    on x86-64.  Field words may tear: while a write stores a field, the word may hold anything
    ([STear]).  The sequence word may tear too ([SLow] stores its low byte), which the
    theorem excludes and [torn_sequence_accepted] shows to be necessary.

    [struct] packs 64-bit integers; the counters stay far below that.  A read's sleeps are left
    out: they only take time. *)
From S2P Require Import Prelude PyNum.
Local Open Scope Z_scope.

(** ** Contents *)

Record Fields : Type := {
  f_inflight : Z; f_peak_sum : Z; f_rejected_total : Z; f_generation : Z; f_pid : Z;
  f_heartbeat_ts : pyfloat
}.

#[global] Instance eta_Fields : Eta Fields := fun s =>
  {| f_inflight := f_inflight s; f_peak_sum := f_peak_sum s; f_rejected_total := f_rejected_total s;
     f_generation := f_generation s; f_pid := f_pid s; f_heartbeat_ts := f_heartbeat_ts s |}.

(** A word of shared memory. *)
Inductive Word : Type := WInt (z : Z) | WFloat (f : pyfloat).

(** The words after the sequence number ([_FIELDS_FORMAT]). *)
Definition words (f : Fields) : list Word :=
  [WInt (f_inflight f); WInt (f_peak_sum f); WInt (f_rejected_total f); WInt (f_generation f);
   WInt (f_pid f); WFloat (f_heartbeat_ts f); WInt 0].

Definition FIELD_WORDS : nat := 7.

Record Slot : Type := { sl_seq : Z; sl_words : list Word }.

#[global] Instance eta_Slot : Eta Slot := fun s => {| sl_seq := sl_seq s; sl_words := sl_words s |}.

Definition SlotView : Type := Z * list Word.

(** A fresh file is zero. *)
Definition fresh_fields : Fields :=
  {| f_inflight := 0; f_peak_sum := 0; f_rejected_total := 0; f_generation := 0; f_pid := 0;
     f_heartbeat_ts := f_of_Z 0 |}.
Definition fresh_slot : Slot := {| sl_seq := 0; sl_words := words fresh_fields |}.

(** ** Writing *)

Inductive Store : Type := StSeq (z : Z) | StField (i : nat) (w : Word).

(** [write]: mark the slot, store the fields, release it. *)
Definition write_stores (seq : Z) (f : Fields) : list Store :=
  let writing_marker := Z.lor seq 1 in
  StSeq writing_marker :: imap StField (words f) ++ [StSeq (writing_marker + 1)].

Definition do_store (st : Store) (s : Slot) : Slot :=
  match st with
  | StSeq z => s <| sl_seq := z |>
  | StField i w => s <| sl_words := <[i := w]> (sl_words s) |>
  end.

(** ** Reading *)

Definition READ_SPIN_LIMIT : nat := 1000.
Definition READ_BACKOFF_LIMIT : nat := Z.to_nat 20000.
Definition read_budget (fail_fast : bool) : nat :=
  if fail_fast then READ_SPIN_LIMIT else (READ_SPIN_LIMIT + READ_BACKOFF_LIMIT)%nat.

(** Where a [read] is: at the start of an attempt, or with the words it has unpacked. *)
Inductive Read : Type :=
| RdStart (attempt : nat)
| RdWords (attempt : nat) (seq_before : Z) (unpacked : option (Z * list Word))
| RdView (v : SlotView)
| RdUnstable.

(** Its next load. *)
Definition read_step (fail_fast : bool) (s : Slot) (r : Read) : Read :=
  match r with
  | RdStart attempt =>
      if (read_budget fail_fast <=? attempt)%nat then RdUnstable
      else if Z.odd (sl_seq s) then RdStart (S attempt) else RdWords attempt (sl_seq s) None
  | RdWords attempt seq_before None => RdWords attempt seq_before (Some (sl_seq s, []))
  | RdWords attempt seq_before (Some (seq, ws)) =>
      match sl_words s !! length ws with
      | Some w => RdWords attempt seq_before (Some (seq, ws ++ [w]))
      | None => if seq_before =? sl_seq s then RdView (seq, ws) else RdStart (S attempt)
      end
  | RdView _ | RdUnstable => r
  end.

(** ** Interleavings *)

(** The memory, the writer's remaining stores, a reader. *)
Record Seqlock : Type := { k_slot : Slot; k_stores : list Store; k_reader : Read }.

#[global] Instance eta_Seqlock : Eta Seqlock := fun s =>
  {| k_slot := k_slot s; k_stores := k_stores s; k_reader := k_reader s |}.

Inductive SeqEvent : Type :=
| SWrite (f : Fields)
| SStore
| STear (w : Word)
| SLow
| SCrash
| SBegin
| SRead.

Definition low_byte (z old : Z) : Z := old - old mod 256 + z mod 256.

Definition seqlock_step (fail_fast : bool) (ev : SeqEvent) (k : Seqlock) : option Seqlock :=
  match ev, k_stores k with
  | SWrite f, [] => Some (k <| k_stores := write_stores (sl_seq (k_slot k)) f |>)
  | SStore, st :: rest => Some (k <| k_slot := do_store st (k_slot k) |> <| k_stores := rest |>)
  | STear w, StField i _ :: _ => Some (k <| k_slot := do_store (StField i w) (k_slot k) |>)
  | SLow, StSeq z :: _ => Some (k <| k_slot := do_store (StSeq (low_byte z (sl_seq (k_slot k)))) (k_slot k) |>)
  | SCrash, _ => Some (k <| k_stores := [] |>)
  | SBegin, _ => Some (k <| k_reader := RdStart 0 |>)
  | SRead, _ => Some (k <| k_reader := read_step fail_fast (k_slot k) (k_reader k) |>)
  | _, _ => None
  end.

Fixpoint seqlock_run (fail_fast : bool) (evs : list SeqEvent) (k : Seqlock) : option Seqlock :=
  match evs with
  | [] => Some k
  | ev :: evs' => seqlock_step fail_fast ev k ≫= seqlock_run fail_fast evs'
  end.

(** Sequence words are stored at once. *)
Definition seq_atomic (evs : list SeqEvent) : bool :=
  forallb (fun ev => match ev with SLow => false | _ => true end) evs.

(** What was ever written. *)
Definition written (evs : list SeqEvent) : list Fields :=
  omap (fun ev => match ev with SWrite f => Some f | _ => None end) evs.

(** ** The invariant *)

Lemma lor_one z : Z.lor z 1 = if Z.odd z then z else z + 1.
Proof.
  pose proof (Z.add_lor_land z 1) as H. change 1 with (Z.ones 1) in H at 2 3. rewrite Z.land_ones in H by lia.
  change (Z.ones 1) with 1 in H. change (2 ^ 1) with 2 in H. rewrite Zmod_odd in H. destruct (Z.odd z); lia.
Qed.

Lemma odd_lor_one z : Z.odd (Z.lor z 1) = true.
Proof.
  rewrite lor_one. destruct (Z.odd z) eqn:E; [done|]. rewrite Z.odd_add, E. done.
Qed.

(** The rest of a write of [f], from its [n]-th field on. *)
Definition tail_stores (n : nat) (f : Fields) (marker : Z) : list Store :=
  drop n (imap StField (words f)) ++ [StSeq (marker + 1)].

Inductive phase (allowed : Fields → Prop) (s : Slot) : list Store → Prop :=
| ph_idle : (Z.odd (sl_seq s) = false → ∃ f, allowed f ∧ sl_words s = words f) → phase allowed s []
| ph_marking f : allowed f → (Z.odd (sl_seq s) = false → ∃ f, allowed f ∧ sl_words s = words f) →
    phase allowed s (write_stores (sl_seq s) f)
| ph_storing f n : allowed f → (n ≤ FIELD_WORDS)%nat → Z.odd (sl_seq s) = true →
    take n (sl_words s) = take n (words f) → phase allowed s (tail_stores n f (sl_seq s)).

(** A read under way: as long as the sequence number is the one it started from, what it has
    unpacked is what the memory holds. *)
Definition reading (s : Slot) (r : Read) : Prop :=
  match r with
  | RdWords _ before u =>
      Z.odd before = false ∧ before ≤ sl_seq s ∧
      (before = sl_seq s → match u with
                           | Some (seq, ws) => seq = before ∧ ws = take (length ws) (sl_words s)
                           | None => True
                           end)
  | _ => True
  end.

Record locked (allowed : Fields → Prop) (k : Seqlock) : Prop := {
  lk_length : length (sl_words (k_slot k)) = FIELD_WORDS;
  lk_phase : phase allowed (k_slot k) (k_stores k);
  lk_reading : reading (k_slot k) (k_reader k)
}.

Lemma phase_mono (P Q : Fields → Prop) s l : (∀ f, P f → Q f) → phase P s l → phase Q s l.
Proof.
  intros H [Hi|f Hf Hi|f n Hf Hn Ho Ht].
  - constructor. intros Ho. destruct (Hi Ho) as (f & ? & ?). eauto.
  - constructor; [auto|]. intros Ho. destruct (Hi Ho) as (f' & ? & ?). eauto.
  - constructor; auto.
Qed.

(** ** Every step keeps it *)

Lemma words_length f : length (words f) = FIELD_WORDS.
Proof. done. Qed.

Lemma tail_stores_S n f marker w : words f !! n = Some w →
  tail_stores n f marker = StField n w :: tail_stores (S n) f marker.
Proof. intros H. do 7 (destruct n as [|n]; [by simpl in H; simplify_eq|]). done. Qed.

Lemma store_keeps P s st rest r :
  length (sl_words s) = FIELD_WORDS → phase P s (st :: rest) → reading s r →
  length (sl_words (do_store st s)) = FIELD_WORDS ∧ phase P (do_store st s) rest ∧ reading (do_store st s) r.
Proof.
  intros Hl Hp Hr. inversion Hp as [|f Hf Hi Hlist|f n Hf Hn Ho Ht Hlist]; simplify_eq.
  - split; [done|]. pose proof (odd_lor_one (sl_seq s)) as Hodd. split.
    + apply (ph_storing P (do_store (StSeq (Z.lor (sl_seq s) 1)) s) f 0); [done|unfold FIELD_WORDS; lia|done|done].
    + destruct r as [|a before u| |]; try done. destruct Hr as (H1 & H2 & _). split; [done|].
      simpl in *. rewrite lor_one in *. split; [destruct (Z.odd (sl_seq s)); lia|]. intros ->. congruence.
  - destruct (decide (n = FIELD_WORDS)) as [->|Hne].
    + unfold tail_stores in Hlist. simpl in Hlist. simplify_eq. simpl. split; [done|]. split.
      * constructor. simpl. intros _. exists f. split; [done|].
        rewrite !take_ge in Ht by (rewrite ?words_length; lia). done.
      * destruct r as [|a before u| |]; try done. destruct Hr as (H1 & H2 & _). simpl. split; [done|]. split; [lia|].
        intros Heq. exfalso. lia.
    + destruct (lookup_lt_is_Some_2 (words f) n) as [w Hw]; [rewrite words_length; lia|].
      rewrite (tail_stores_S n f _ w Hw) in Hlist. simplify_eq. simpl. rewrite length_insert. split; [done|]. split.
      * apply (ph_storing P (do_store (StField n w) s) f (S n)); [done|lia|done|].
        change (sl_words (do_store (StField n w) s)) with (<[n:=w]> (sl_words s)).
        rewrite (take_S_r (words f) n w Hw), (take_S_r _ n w) by (apply list_lookup_insert_eq; lia).
        by rewrite take_insert_ge, Ht by lia.
      * destruct r as [|a before u| |]; try done. destruct Hr as (H1 & H2 & _). simpl. split; [done|]. split; [done|].
        intros ->. congruence.
Qed.

Lemma tear_keeps P s i w w0 rest r :
  length (sl_words s) = FIELD_WORDS → phase P s (StField i w0 :: rest) → reading s r →
  length (sl_words (do_store (StField i w) s)) = FIELD_WORDS ∧
  phase P (do_store (StField i w) s) (StField i w0 :: rest) ∧ reading (do_store (StField i w) s) r.
Proof.
  intros Hl Hp Hr. inversion Hp as [|f Hf Hi Hlist|f n Hf Hn Ho Ht Hlist]; simplify_eq.
  destruct (decide (n = FIELD_WORDS)) as [->|Hne]; [done|].
  destruct (lookup_lt_is_Some_2 (words f) n) as [w1 Hw]; [rewrite words_length; lia|].
  rewrite (tail_stores_S n f _ w1 Hw) in Hlist. simplify_eq. simpl. rewrite length_insert. split; [done|]. split.
  - apply (ph_storing P (do_store (StField i w) s) f i); [done|lia|done|].
    change (sl_words (do_store (StField i w) s)) with (<[i:=w]> (sl_words s)). by rewrite take_insert_ge by lia.
  - destruct r as [|a before u| |]; try done. destruct Hr as (H1 & H2 & _). simpl. split; [done|]. split; [done|].
    intros ->. congruence.
Qed.

Lemma read_keeps ff s r :
  length (sl_words s) = FIELD_WORDS → reading s r → reading s (read_step ff s r).
Proof.
  intros Hl Hr. destruct r as [a|a before [[seq ws]|]|v|]; cbn [read_step]; try done.
  - destruct (_ <=? _)%nat; [done|]. destruct (Z.odd (sl_seq s)) eqn:E; [done|]. split; [done|]. split; [lia|done].
  - destruct Hr as (H1 & H2 & H3). destruct (sl_words s !! length ws) as [w|] eqn:E.
    + split; [done|]. split; [done|]. intros He. destruct (H3 He) as [-> Hws]. split; [done|].
      rewrite length_app. simpl. rewrite Nat.add_1_r. by rewrite (take_S_r _ _ w E), <- Hws.
    + by destruct (_ =? _).
  - destruct Hr as (H1 & H2 & _). split; [done|]. by split.
Qed.

Lemma step_locked ff P ev k k' :
  locked P k → seqlock_step ff ev k = Some k' → seq_atomic [ev] = true →
  locked (λ f, P f ∨ f ∈ written [ev]) k'.
Proof.
  intros [H1 H2 H3] Hs Ha. destruct ev as [f| |w| | | |]; unfold seqlock_step in Hs; try done.
  - destruct (k_stores k) eqn:E; [|done]. injection Hs as <-. constructor; try done. fields.
    apply (ph_marking _ (k_slot k)); [right; by apply list_elem_of_singleton|].
    inversion H2 as [Hi|f0 ? ? Hx|f0 n ? ? ? ? Hx]; simplify_eq.
    + intros Ho. destruct (Hi Ho) as (f1 & ? & ?). exists f1. split; [by left|done].
    + unfold tail_stores in Hx. by destruct (drop n _).
  - destruct (k_stores k) as [|st rest] eqn:E; [done|]. injection Hs as <-.
    destruct (store_keeps P (k_slot k) st rest (k_reader k) H1 H2 H3) as (? & ? & ?).
    constructor; try done. eapply phase_mono; [|done]. auto.
  - destruct (k_stores k) as [|[z|i w0] rest] eqn:E; try done. injection Hs as <-.
    destruct (tear_keeps P (k_slot k) i w w0 rest (k_reader k) H1 H2 H3) as (? & ? & ?).
    constructor; try done. fields. rewrite E. eapply phase_mono; [|done]. auto.
  - injection Hs as <-. constructor; try done. fields. constructor. intros Ho.
    assert (∃ f, P f ∧ sl_words (k_slot k) = words f) as (f & ? & ?); [|exists f; auto].
    inversion H2; auto. congruence.
  - injection Hs as <-. constructor; try done. fields. eapply phase_mono; [|done]. auto.
  - injection Hs as <-. constructor; try done; fields; [eapply phase_mono; [|done]; auto|by apply read_keeps].
Qed.

Lemma locked_mono (P Q : Fields → Prop) k : (∀ f, P f → Q f) → locked P k → locked Q k.
Proof. intros H [H1 H2 H3]. constructor; [done|by eapply phase_mono|done]. Qed.

Lemma run_locked ff P evs k k' :
  locked P k → seqlock_run ff evs k = Some k' → seq_atomic evs = true → locked (λ f, P f ∨ f ∈ written evs) k'.
Proof.
  revert P k. induction evs as [|ev evs IH]; intros P k Hk; simpl.
  - intros [= <-] _. by eapply locked_mono; [|done]; auto.
  - destruct (seqlock_step ff ev k) as [k1|] eqn:E; [|done]. simpl. intros Hr [Ha Hb]%andb_true_iff.
    assert (seq_atomic [ev] = true) as Ha' by (simpl; by rewrite Ha).
    pose proof (step_locked ff P ev k k1 Hk E Ha') as H1. specialize (IH _ _ H1 Hr Hb).
    eapply locked_mono; [|exact IH]. intros f [[Hp|Hw]|Hw]; [by left|right..]; destruct ev; set_solver.
Qed.

Definition seqlock_start : Seqlock := {| k_slot := fresh_slot; k_stores := []; k_reader := RdStart 0 |}.

Lemma start_locked : locked (.= fresh_fields) seqlock_start.
Proof. constructor; try done. constructor. intros _. by exists fresh_fields. Qed.

(** C34: A sequence-locked read of an admission slot is never torn: whatever stores and loads
    interleave, and wherever writers crash in the middle of a write, the load that completes a
    read returns what the slot holds at that very moment, and these are the fields of one write,
    all of them - or of the fresh file. Field words may tear; sequence words are stored at once.
    *)
Theorem seqlock_read_consistent ff evs k k' seq ws :
  seqlock_run ff evs seqlock_start = Some k → seq_atomic evs = true →
  seqlock_step ff SRead k = Some k' → k_reader k ≠ k_reader k' → k_reader k' = RdView (seq, ws) →
  k_slot k' = {| sl_seq := seq; sl_words := ws |} ∧ ∃ f, f ∈ fresh_fields :: written evs ∧ ws = words f.
Proof.
  intros Hrun Ha Hs Hne Hv. destruct (run_locked _ _ _ _ _ start_locked Hrun Ha) as [H1 H2 H3].
  unfold seqlock_step in Hs. injection Hs as <-. fields.
  destruct (k_reader k) as [a|a before [[seq0 ws0]|]|v|] eqn:Er; cbn [read_step] in *; try done.
  - destruct (_ <=? _)%nat; [done|]. by destruct (Z.odd _).
  - destruct H3 as (Ho & Hle & Hsame). destruct (sl_words (k_slot k) !! length ws0) eqn:El; [done|].
    destruct (Z.eqb_spec before (sl_seq (k_slot k))) as [->|]; [|done]. injection Hv as -> ->.
    destruct (Hsame eq_refl) as [-> Hws]. apply lookup_ge_None in El. rewrite take_ge in Hws by lia. subst ws.
    split; [by destruct (k_slot k)|].
    assert (∃ f, (f = fresh_fields ∨ f ∈ written evs) ∧ sl_words (k_slot k) = words f) as (f & Hf & Hw).
    { inversion H2; auto. congruence. }
    exists f. split; [set_solver|done].
Qed.

(** ** Runs *)

Definition demo_fields (n pid : Z) : Fields :=
  {| f_inflight := n; f_peak_sum := n; f_rejected_total := 0; f_generation := 1; f_pid := pid; f_heartbeat_ts := f_of_Z 9 |}.

Definition demo_write (f : Fields) : list SeqEvent := SWrite f :: replicate 9 SStore.

(** A write tears a field while the slot is read; the reader starts over. *)
Definition demo_run : list SeqEvent :=
  demo_write (demo_fields 1 7) ++ replicate 4 SRead ++ [SWrite (demo_fields 2 7); SStore; STear (WInt 99)] ++
  replicate 7 SRead ++ replicate 8 SStore ++ replicate 9 SRead.

Lemma seqlock_read_consistent_witness :
  ∃ k k', seqlock_run true demo_run seqlock_start = Some k ∧ seqlock_step true SRead k = Some k' ∧
    k_slot k' = {| sl_seq := 4; sl_words := words (demo_fields 2 7) |}.
Proof.
  destruct (seqlock_run true demo_run seqlock_start) as [k|] eqn:Ek; [|vm_compute in Ek; discriminate Ek].
  destruct (seqlock_step true SRead k) as [k'|] eqn:Es; [|vm_compute in Ek; injection Ek as <-; vm_compute in Es; discriminate Es].
  exists k, k'. split; [reflexivity|]. split; [exact Es|].
  apply (seqlock_read_consistent true demo_run k k' 4 (words (demo_fields 2 7)) Ek); [reflexivity|exact Es|..];
    vm_compute in Ek; injection Ek as <-; vm_compute in Es; injection Es as <-; [vm_compute; discriminate|vm_compute; reflexivity].
Defined.

(** The sequence word has to be stored at once: when its low byte is stored first, 128 writes
    bring back the number a read started from, and the read returns words of two writes. *)
Example torn_sequence_accepted :
  k_reader <$> seqlock_run true
    (replicate 3 SRead ++ concat (replicate 127 (demo_write (demo_fields 1 7))) ++
     SWrite (demo_fields 2 8) :: replicate 8 SStore ++ SLow :: replicate 7 SRead) seqlock_start
  = Some (RdView (0, WInt 0 :: drop 1 (words (demo_fields 2 8)))).
Proof. vm_compute. reflexivity. Qed.
