(* ===== verification/Admission.v ===== *)
(** * Shared admission: the bound across data planes

    Models [SharedAdmission] and [_aggregate_to_dict]
    ([src/sglang_omni_router/admission_shm.py]) and the supervisor's reclaim
    ([_fold_and_reclaim_slot], [src/sglang_omni_router/supervisor.py]): data-plane processes that
    admit requests against a bound on the sum of their slots, crash and are replaced, and a
    reader of the aggregate, in any interleaving.

    A slot is read at one instant and written between two ([Seqlock] shows that it is so): while
    it is written, or was left half-written by a crash, it is busy, and only a read that gives
    up ([SeqlockUnstableError]) can happen; a read may also give up for other reasons.  Each step
    reads the clock once. *)
From S2P Require Import Prelude PyNum Seqlock.
Local Open Scope Z_scope.

(** A slot: its version, and whether it is being written. *)
Record ASlot : Type := { a_seq : Z; a_busy : bool; a_fields : Fields }.

#[global] Instance eta_ASlot : Eta ASlot := fun s =>
  {| a_seq := a_seq s; a_busy := a_busy s; a_fields := a_fields s |}.

Definition zero_fields (now : pyfloat) : Fields :=
  {| f_inflight := 0; f_peak_sum := 0; f_rejected_total := 0; f_generation := 0; f_pid := 0; f_heartbeat_ts := now |}.

(** The marker of a write, and its end. *)
Definition begin_write (s : ASlot) : ASlot := s <| a_seq := Z.lor (a_seq s) 1 |> <| a_busy := true |>.
Definition write_fields (f : Fields) (s : ASlot) : ASlot := s <| a_fields := f |>.
Definition end_write (s : ASlot) : ASlot := s <| a_seq := a_seq s + 1 |> <| a_busy := false |>.

(** Where a data plane is: between calls, in the sum of [try_acquire] before slot [k], about to
    mark its slot, or writing it before the call returns. *)
Inductive Place : Type :=
| DIdle
| DScan (k : nat) (total : Z)
| DMarking (returns : option bool)
| DWriting (returns : option bool).

(** A [SharedAdmission]. *)
Record Dp : Type := {
  d_generation : Z; d_pid : Z; d_inflight : Z; d_peak_sum : Z; d_rejected_total : Z;
  d_sibling_unstable : bool; d_sibling_probed_at : pyfloat; d_place : Place
}.

#[global] Instance eta_Dp : Eta Dp := fun s =>
  {| d_generation := d_generation s; d_pid := d_pid s; d_inflight := d_inflight s; d_peak_sum := d_peak_sum s;
     d_rejected_total := d_rejected_total s; d_sibling_unstable := d_sibling_unstable s;
     d_sibling_probed_at := d_sibling_probed_at s; d_place := d_place s |}.

(** A data plane's process: to be spawned, running, or reaped and to be reclaimed. *)
Inductive Process : Type := Spawning | Running (d : Dp) | Reaped.

(** The supervisor in [_fold_and_reclaim_slot]. *)
Inductive Supervisor : Type :=
| SupIdle
| SupRead (j : nat)
| SupGot (j : nat) (view : Fields)
| SupMarked (j : nat) (view accumulated : Fields)
| SupFolded (j : nat)
| SupReclaiming (j : nat)
| SupEnding (j : nat)
| SupSkip (j : nat)
| SupSkipping (j : nat).

(** [to_dict]. *)
Record Totals : Type := { t_inflight : Z; t_max_inflight : Z; t_peak_inflight : Z; t_rejected_total : Z }.

(** A reader of the aggregate. *)
Inductive Reader : Type :=
| AggStart (attempt : nat)
| AggViews (attempt : nat) (version_before : Z) (views : list Fields)
| AggDone (totals : Totals)
| AggUnstable.

Record Admission : Type := {
  ad_max_inflight : Z;
  ad_slots : list ASlot;
  ad_retired : ASlot;
  ad_processes : list Process;
  ad_supervisor : Supervisor;
  ad_reader : Reader;
  (** every rejection ever counted *)
  ad_sheds : Z
}.

#[global] Instance eta_Admission : Eta Admission := fun s =>
  {| ad_max_inflight := ad_max_inflight s; ad_slots := ad_slots s; ad_retired := ad_retired s;
     ad_processes := ad_processes s; ad_supervisor := ad_supervisor s; ad_reader := ad_reader s;
     ad_sheds := ad_sheds s |}.

(** A fresh admission file for [n] data planes. *)
Definition zero_slot : ASlot := {| a_seq := 0; a_busy := false; a_fields := fresh_fields |}.

Definition new_admission (max_inflight : Z) (n : nat) : Admission :=
  {| ad_max_inflight := max_inflight; ad_slots := replicate n zero_slot; ad_retired := zero_slot;
     ad_processes := replicate n Spawning; ad_supervisor := SupIdle; ad_reader := AggStart 0; ad_sheds := 0 |}.

(** [__init__]. *)
Definition new_dp (generation pid : Z) : Dp :=
  {| d_generation := generation; d_pid := pid; d_inflight := 0; d_peak_sum := 0; d_rejected_total := 0;
     d_sibling_unstable := false; d_sibling_probed_at := f_of_Z 0; d_place := DMarking None |}.

(** What [_write_own] writes. *)
Definition own_fields (d : Dp) (now : pyfloat) : Fields :=
  {| f_inflight := d_inflight d; f_peak_sum := d_peak_sum d; f_rejected_total := d_rejected_total d;
     f_generation := d_generation d; f_pid := d_pid d; f_heartbeat_ts := now |}.

Definition still_owner (d : Dp) (view : Fields) : bool :=
  (f_generation view =? d_generation d) && (f_pid view =? d_pid d).

(** [_UNSTABLE_REPROBE_SECS], 0.05 in binary64. *)
Definition UNSTABLE_REPROBE_SECS : pyfloat := f_div (f_of_Z 1) (f_of_Z 20).

Definition shed_from_cached_unstable (d : Dp) (now : pyfloat) : bool :=
  d_sibling_unstable d && f_lt (f_sub now (d_sibling_probed_at d)) UNSTABLE_REPROBE_SECS.

(** A rejection that is counted. *)
Definition rejected (d : Dp) : Dp :=
  d <| d_rejected_total := d_rejected_total d + 1 |> <| d_place := DMarking (Some false) |>.

(** The end of [try_acquire]'s sum. *)
Definition decide_acquire (max_inflight total : Z) (d : Dp) : Dp :=
  let d := d <| d_sibling_unstable := false |> in
  if max_inflight <=? total then rejected d
  else d <| d_inflight := d_inflight d + 1 |>
         <| d_peak_sum := if d_peak_sum d <? total + 1 then total + 1 else d_peak_sum d |>
         <| d_place := DMarking (Some true) |>.

(** [_aggregate_to_dict]'s result. *)
Definition totals_of (max_inflight : Z) (views : list Fields) (retired : Fields) : Totals :=
  {| t_inflight := foldr (fun v n => f_inflight v + n) 0 views; t_max_inflight := max_inflight;
     t_peak_inflight := foldr (fun v n => Z.max (f_peak_sum v) n) (f_peak_sum retired) views;
     t_rejected_total := foldr (fun v n => f_rejected_total v + n) 0 views + f_rejected_total retired |}.

Inductive AdEvent : Type :=
| DStart (j : nat) (generation pid : Z)
| DAcquire (j : nat) (stable : bool) (now : pyfloat)
| DSum (j : nat) (stable : bool) (now : pyfloat)
| DMark (j : nat)
| DWritten (j : nat) (now : pyfloat)
| DRelease (j : nat) (stable : bool)
| DTouch (j : nat) (stable : bool)
| DCrash (j : nat)
| SReclaim (j : nat)
| SStep (stable : bool) (now : pyfloat)
| AStart
| ARead (stable : bool).

(** A read: at one instant, or it gives up. *)
Definition read_slot (stable : bool) (s : ASlot) : option (option ASlot) :=
  if stable then if a_busy s then None else Some (Some s) else Some None.

Definition set_process (j : nat) (p : Process) (s : Admission) : Admission :=
  s <| ad_processes := <[j := p]> (ad_processes s) |>.
Definition on_slot (j : nat) (f : ASlot → ASlot) (s : Admission) : Admission :=
  s <| ad_slots := alter f j (ad_slots s) |>.

(** [_write_own] of a process that has made up its mind, and its first store. *)
Definition writes_own (j : nat) (d : Dp) (s : Admission) : Admission := set_process j (Running d) s.

Definition mark_own (j : nat) (d : Dp) (returns : option bool) (s : Admission) : Admission :=
  on_slot j begin_write (set_process j (Running (d <| d_place := DWriting returns |>)) s).

Definition shed (s : Admission) : Admission := s <| ad_sheds := ad_sheds s + 1 |>.

(** [try_acquire] up to the sum. *)
Definition acquire (j : nat) (stable : bool) (now : pyfloat) (d : Dp) (s : Admission) : option Admission :=
  slot ← ad_slots s !! j;
  view ← read_slot stable slot;
  match view with
  | None => Some s
  | Some slot =>
      if negb (still_owner d (a_fields slot)) then Some s
      else if shed_from_cached_unstable d now then Some (shed (writes_own j (rejected d) s))
      else Some (set_process j (Running (d <| d_place := DScan 0 0 |>)) s)
  end.

(** The next slot of the sum; after the last, the decision. *)
Definition sum_slot (j : nat) (stable : bool) (now : pyfloat) (k : nat) (total : Z) (d : Dp) (s : Admission) : option Admission :=
  slot ← ad_slots s !! k;
  view ← read_slot stable slot;
  match view with
  | None => Some (shed (writes_own j (rejected (d <| d_sibling_unstable := true |> <| d_sibling_probed_at := now |>)) s))
  | Some slot =>
      let total := total + f_inflight (a_fields slot) in
      if (S k <? length (ad_slots s))%nat
      then Some (set_process j (Running (d <| d_place := DScan (S k) total |>)) s)
      else let s1 := writes_own j (decide_acquire (ad_max_inflight s) total d) s in
           Some (if ad_max_inflight s <=? total then shed s1 else s1)
  end.

(** [release]. *)
Definition release (j : nat) (stable : bool) (d : Dp) (s : Admission) : option Admission :=
  slot ← ad_slots s !! j;
  view ← read_slot stable slot;
  match view with
  | None => Some s
  | Some slot =>
      if negb (still_owner d (a_fields slot)) || (d_inflight d <=? 0) then Some s
      else Some (writes_own j (d <| d_inflight := d_inflight d - 1 |> <| d_place := DMarking None |>) s)
  end.

(** [touch]. *)
Definition touch (j : nat) (stable : bool) (d : Dp) (s : Admission) : option Admission :=
  slot ← ad_slots s !! j;
  view ← read_slot stable slot;
  match view with
  | Some slot => if still_owner d (a_fields slot) then Some (writes_own j (d <| d_place := DMarking None |>) s) else Some s
  | None => Some s
  end.

(** [_fold_and_reclaim_slot], step by step. *)
Definition supervise (stable : bool) (now : pyfloat) (s : Admission) : option Admission :=
  match ad_supervisor s with
  | SupIdle => None
  | SupRead j =>
      slot ← ad_slots s !! j;
      view ← read_slot stable slot;
      Some (s <| ad_supervisor := match view with Some v => SupGot j (a_fields v) | None => SupSkip j end |>)
  | SupGot j view =>
      r ← read_slot stable (ad_retired s);
      Some (match r with
            | Some v => s <| ad_retired := begin_write (ad_retired s) |> <| ad_supervisor := SupMarked j view (a_fields v) |>
            | None => s <| ad_supervisor := SupSkip j |>
            end)
  | SupMarked j view accumulated =>
      Some (s <| ad_retired := write_fields
                   {| f_inflight := 0; f_peak_sum := Z.max (f_peak_sum accumulated) (f_peak_sum view);
                      f_rejected_total := f_rejected_total accumulated + f_rejected_total view;
                      f_generation := 0; f_pid := 0; f_heartbeat_ts := now |} (ad_retired s) |>
              <| ad_supervisor := SupFolded j |>)
  | SupFolded j => Some (on_slot j begin_write s <| ad_supervisor := SupReclaiming j |>)
  | SupReclaiming j =>
      Some (on_slot j (fun x => end_write (write_fields (zero_fields now) x)) s <| ad_supervisor := SupEnding j |>)
  | SupEnding j => Some (set_process j Spawning s <| ad_retired := end_write (ad_retired s) |> <| ad_supervisor := SupIdle |>)
  | SupSkip j => Some (on_slot j begin_write s <| ad_supervisor := SupSkipping j |>)
  | SupSkipping j =>
      Some (set_process j Spawning (on_slot j (fun x => end_write (write_fields (zero_fields now) x)) s)
              <| ad_supervisor := SupIdle |>)
  end.

Definition AGGREGATE_ATTEMPTS : nat := 4.

(** [_aggregate_to_dict], read by read. *)
Definition aggregate (stable : bool) (s : Admission) : option Admission :=
  let at_reader r := Some (s <| ad_reader := r |>) in
  match ad_reader s with
  | AggStart attempt =>
      if (AGGREGATE_ATTEMPTS <=? attempt)%nat then at_reader AggUnstable
      else r ← read_slot stable (ad_retired s);
           at_reader (match r with Some v => AggViews attempt (a_seq v) [] | None => AggUnstable end)
  | AggViews attempt version_before views =>
      match ad_slots s !! length views with
      | Some slot =>
          r ← read_slot stable slot;
          at_reader (match r with
                     | Some v => AggViews attempt version_before (views ++ [a_fields v])
                     | None => AggUnstable
                     end)
      | None =>
          r ← read_slot stable (ad_retired s);
          at_reader (match r with
                     | Some retired => if a_seq retired =? version_before
                                       then AggDone (totals_of (ad_max_inflight s) views (a_fields retired))
                                       else AggStart (S attempt)
                     | None => AggUnstable
                     end)
      end
  | _ => None
  end.

(** An idle data plane. *)
Definition with_idle (j : nat) (f : Dp → Admission → option Admission) (s : Admission) : option Admission :=
  match ad_processes s !! j with
  | Some (Running d) => match d_place d with DIdle => f d s | _ => None end
  | _ => None
  end.

Definition ad_step (ev : AdEvent) (s : Admission) : option Admission :=
  match ev with
  | DStart j generation pid =>
      match ad_processes s !! j with
      | Some Spawning => Some (writes_own j (new_dp generation pid) s)
      | _ => None
      end
  | DAcquire j stable now => with_idle j (acquire j stable now) s
  | DSum j stable now =>
      match ad_processes s !! j with
      | Some (Running d) => match d_place d with DScan k total => sum_slot j stable now k total d s | _ => None end
      | _ => None
      end
  | DMark j =>
      match ad_processes s !! j with
      | Some (Running d) => match d_place d with DMarking returns => Some (mark_own j d returns s) | _ => None end
      | _ => None
      end
  | DWritten j now =>
      match ad_processes s !! j with
      | Some (Running d) =>
          match d_place d with
          | DWriting _ => Some (on_slot j (fun x => end_write (write_fields (own_fields d now) x))
                                  (set_process j (Running (d <| d_place := DIdle |>)) s))
          | _ => None
          end
      | _ => None
      end
  | DRelease j stable => with_idle j (release j stable) s
  | DTouch j stable => with_idle j (touch j stable) s
  | DCrash j => match ad_processes s !! j with Some (Running _) => Some (set_process j Reaped s) | _ => None end
  | SReclaim j =>
      match ad_supervisor s, ad_processes s !! j with
      | SupIdle, Some Reaped => Some (s <| ad_supervisor := SupRead j |>)
      | _, _ => None
      end
  | SStep stable now => supervise stable now s
  | AStart => Some (s <| ad_reader := AggStart 0 |>)
  | ARead stable => aggregate stable s
  end.

Fixpoint ad_run (evs : list AdEvent) (s : Admission) : option Admission :=
  match evs with
  | [] => Some s
  | ev :: evs' => ad_step ev s ≫= ad_run evs'
  end.

(** The requests in flight, at live data planes. *)
Definition process_inflight (p : Process) : Z := match p with Running d => d_inflight d | _ => 0 end.
Definition in_flight (s : Admission) : Z := foldr (fun p n => process_inflight p + n) 0 (ad_processes s).
