(* ===== verification/AdmissionBound.v ===== *)
(** * Shared admission: the bound is exceeded by less than the number of data planes

    The sum a data plane decides on is not a snapshot: each slot is read at its own time, and the
    others acquire meanwhile.  Still each of them gets at most one more request past a sum that
    started last; the invariant records, for every sum and every grant, what it may have missed. *)
From S2P Require Import Prelude PyNum Seqlock Admission.
Local Open Scope Z_scope.

(** ** Sums *)

Fixpoint zsum (f : nat → Z) (n : nat) : Z := match n with O => 0 | S n' => zsum f n' + f n' end.

Lemma zsum_le f g n : (∀ j, (j < n)%nat → f j ≤ g j) → zsum f n ≤ zsum g n.
Proof. induction n as [|n IH]; intros H; simpl; [done|]. specialize (IH ltac:(auto)). specialize (H n ltac:(lia)). lia. Qed.

Lemma zsum_ext f g n : (∀ j, (j < n)%nat → f j = g j) → zsum f n = zsum g n.
Proof. induction n as [|n IH]; intros H; simpl; [done|]. rewrite IH, H by auto. done. Qed.

Lemma zsum_succ f n : zsum (λ j, f j + 1) n = zsum f n + Z.of_nat n.
Proof. induction n as [|n IH]; simpl; [done|]. rewrite IH. lia. Qed.

(** ** What is recorded *)

Definition inflight_at (s : Admission) (j : nat) : Z := from_option process_inflight 0 (ad_processes s !! j).
Definition scanning (s : Admission) (j : nat) : bool :=
  match ad_processes s !! j with
  | Some (Running d) => match d_place d with DScan _ _ => true | _ => false end
  | _ => false
  end.

(** Time, counted in sums started; whose sum it was; the start and the values of the sum under
    way, and of the one of the last grant. *)
Record Ghost : Type := {
  g_clock : nat; g_owner : nat → nat; g_start : nat → nat; g_reads : nat → nat → Z;
  g_last : nat → option (nat * (nat → Z))
}.

Definition granted_after (g : Ghost) (j t : nat) : Prop := ∃ t' R, g_last g j = Some (t', R) ∧ (t < t')%nat.

(** What a sum started at [t] that read [r] in slot [j] may have missed: one request, unless [j]
    was granted one by a later sum. *)
Definition claim (s : Admission) (g : Ghost) (t : nat) (r : Z) (j : nat) : Prop :=
  0 ≤ r ∧ (granted_after g j t ∨
    (scanning s j = true ∧ (g_start g j < t)%nat ∧ inflight_at s j ≤ r) ∨
    (¬ (scanning s j = true ∧ (g_start g j < t)%nat) ∧ inflight_at s j ≤ r + 1)).

Definition supervised (sup : Supervisor) : option nat :=
  match sup with
  | SupIdle => None
  | SupRead j | SupGot j _ | SupMarked j _ _ | SupFolded j | SupReclaiming j | SupEnding j
  | SupSkip j | SupSkipping j => Some j
  end.

(** The slot of a running data plane. *)
Definition slot_ok (d : Dp) (slot : ASlot) : Prop :=
  0 ≤ d_inflight d ∧
  match d_place d with
  | DWriting _ => a_busy slot = true
  | DMarking _ => d_inflight d ≤ f_inflight (a_fields slot) + 1
  | _ => f_inflight (a_fields slot) = d_inflight d
  end.

Record recorded (n : nat) (s : Admission) (g : Ghost) : Prop := {
  rc_slots : length (ad_slots s) = n;
  rc_processes : length (ad_processes s) = n;
  rc_nonneg : ∀ j slot, ad_slots s !! j = Some slot → 0 ≤ f_inflight (a_fields slot);
  rc_running : ∀ j d slot, ad_processes s !! j = Some (Running d) → ad_slots s !! j = Some slot → slot_ok d slot;
  rc_supervised : ∀ j, supervised (ad_supervisor s) = Some j → ad_processes s !! j = Some Reaped;
  rc_start : ∀ j, scanning s j = true → (g_start g j < g_clock g)%nat ∧ g_owner g (g_start g j) = j ∧
    ∀ t R, g_last g j = Some (t, R) → (t < g_start g j)%nat;
  rc_last : ∀ j t R, g_last g j = Some (t, R) → (t < g_clock g)%nat ∧ g_owner g t = j;
  rc_scan : ∀ i d k total, ad_processes s !! i = Some (Running d) → d_place d = DScan k total →
    (k < n)%nat ∧ total = zsum (g_reads g i) k ∧
    ∀ j, (j < k)%nat → if decide (j = i) then g_reads g i j = d_inflight d
                       else claim s g (g_start g i) (g_reads g i j) j;
  rc_grant : ∀ i t R, g_last g i = Some (t, R) →
    zsum R n < ad_max_inflight s ∧ 0 ≤ R i ∧ inflight_at s i ≤ R i + 1 ∧
    ∀ j, (j < n)%nat → j ≠ i → claim s g t (R j) j;
  rc_none : ∀ i, g_last g i = None → inflight_at s i ≤ 0
}.

(** ** One process moves *)

(** Everything but process [p] and its slot stays. *)
Record only (p : nat) (s s' : Admission) : Prop := {
  on_processes : ∀ j, j ≠ p → ad_processes s' !! j = ad_processes s !! j;
  on_slots : ∀ j, j ≠ p → ad_slots s' !! j = ad_slots s !! j;
  on_length : length (ad_slots s') = length (ad_slots s) ∧ length (ad_processes s') = length (ad_processes s);
  on_max : ad_max_inflight s' = ad_max_inflight s
}.

Lemma only_at p s s' j : only p s s' → j ≠ p → inflight_at s' j = inflight_at s j ∧ scanning s' j = scanning s j.
Proof. intros [H1 _ _ _] Hj. unfold inflight_at, scanning. by rewrite H1. Qed.

(** It is not in a sum, and has no more requests than before. *)
Lemma claim_falls p s s' g t r j :
  only p s s' → scanning s' p = false → inflight_at s' p ≤ inflight_at s p ∨ inflight_at s' p ≤ 0 →
  claim s g t r j → claim s' g t r j.
Proof.
  intros Ho Hs Hx [H0 H]. split; [done|]. destruct (decide (j = p)) as [->|Hne].
  - destruct H as [H|[(H1 & H2 & H3)|[H1 H2]]]; [by left|right; right..]; (split; [by intros [? _]; congruence|lia]).
  - destruct (only_at _ _ _ _ Ho Hne) as [-> ->]. done.
Qed.

(** It starts a sum, later than [t]. *)
Lemma claim_starts p s s' g g' t r j :
  only p s s' → scanning s p = false → inflight_at s' p = inflight_at s p →
  g_last g' = g_last g → (∀ j, j ≠ p → g_start g' j = g_start g j) → (t ≤ g_start g' p)%nat →
  claim s g t r j → claim s' g' t r j.
Proof.
  intros Ho Hs Hx Hl Hst Ht [H0 H]. split; [done|]. unfold granted_after in *. rewrite Hl.
  destruct (decide (j = p)) as [->|Hne].
  - destruct H as [H|[(H1 & H2 & H3)|[H1 H2]]]; [by left|congruence|right; right]. split; [lia|lia].
  - destruct (only_at _ _ _ _ Ho Hne) as [-> ->]. by rewrite Hst.
Qed.

(** Its sum goes on. *)
Lemma claim_sums p s s' g g' t r j :
  only p s s' → scanning s' p = scanning s p → inflight_at s' p = inflight_at s p →
  g_last g' = g_last g → g_start g' = g_start g → claim s g t r j → claim s' g' t r j.
Proof.
  intros Ho Hs Hx Hl Hst. unfold claim, granted_after. rewrite Hl, Hst.
  destruct (decide (j = p)) as [->|Hne]; [by rewrite Hs, Hx|]. by destruct (only_at _ _ _ _ Ho Hne) as [-> ->].
Qed.

(** It is granted a request, by a sum that did not start at [t]. *)
Lemma claim_grants p s s' g g' t r j R :
  only p s s' → scanning s p = true → scanning s' p = false → inflight_at s' p = inflight_at s p + 1 →
  (∀ t0 R0, g_last g p = Some (t0, R0) → (t0 < g_start g p)%nat) →
  g_last g' p = Some (g_start g p, R) → (∀ j, j ≠ p → g_last g' j = g_last g j) → g_start g' = g_start g →
  (j = p → t ≠ g_start g p) → claim s g t r j → claim s' g' t r j.
Proof.
  intros Ho Hs Hs' Hx Hold Hlp Hl Hst Hne0 [H0 H]. split; [done|]. unfold granted_after in *. rewrite Hst.
  destruct (decide (j = p)) as [->|Hne].
  - specialize (Hne0 eq_refl). rewrite Hlp. destruct (decide (t < g_start g p)%nat) as [Hlt|Hge].
    + left. by exists (g_start g p), R.
    + right. right. split; [intros [? _]; congruence|].
      destruct H as [(t0 & R0 & E & Hlt)|[(_ & _ & H)|[H _]]]; [apply Hold in E; lia|lia|].
      destruct H. split; [done|lia].
  - destruct (only_at _ _ _ _ Ho Hne) as [-> ->]. by rewrite Hl.
Qed.

(** ** The record is kept *)

(** What a step owes besides the claims. *)
Record local (p : nat) (s' : Admission) : Prop := {
  lo_nonneg : ∀ slot, ad_slots s' !! p = Some slot → 0 ≤ f_inflight (a_fields slot);
  lo_running : ∀ d slot, ad_processes s' !! p = Some (Running d) → ad_slots s' !! p = Some slot → slot_ok d slot;
  lo_supervised : ∀ j, supervised (ad_supervisor s') = Some j → ad_processes s' !! j = Some Reaped
}.

Lemma nonneg_kept n s g p s' : recorded n s g → only p s s' → local p s' →
  ∀ j slot, ad_slots s' !! j = Some slot → 0 ≤ f_inflight (a_fields slot).
Proof.
  intros Hr Ho Hl j slot Hj. destruct (decide (j = p)) as [->|Hne]; [by eapply lo_nonneg|].
  rewrite (on_slots _ _ _ Ho) in Hj by done. by eapply rc_nonneg.
Qed.

Lemma running_kept n s g p s' : recorded n s g → only p s s' → local p s' →
  ∀ j d slot, ad_processes s' !! j = Some (Running d) → ad_slots s' !! j = Some slot → slot_ok d slot.
Proof.
  intros Hr Ho Hl j d slot Hp Hj. destruct (decide (j = p)) as [->|Hne]; [by eapply lo_running|].
  rewrite (on_slots _ _ _ Ho) in Hj by done. rewrite (on_processes _ _ _ Ho) in Hp by done. by eapply rc_running.
Qed.

Lemma recorded_falls n s g p s' :
  recorded n s g → only p s s' → local p s' → scanning s' p = false →
  inflight_at s' p ≤ inflight_at s p ∨ inflight_at s' p ≤ 0 → recorded n s' g.
Proof.
  intros Hr Ho Hl Hs Hx. pose proof Hr as [R1 R2 R3 R4 R5 R6 R7 R8 R9 R10]. pose proof (on_length _ _ _ Ho) as [L1 L2].
  constructor.
  - congruence.
  - congruence.
  - by eapply nonneg_kept.
  - by eapply running_kept.
  - by apply Hl.
  - intros j Hj. destruct (decide (j = p)) as [->|Hne]; [congruence|].
    destruct (only_at _ _ _ _ Ho Hne) as [_ E]. apply R6. congruence.
  - done.
  - intros i d k total Hi Hd. destruct (decide (i = p)) as [->|Hne].
    { unfold scanning in Hs. rewrite Hi, Hd in Hs. done. }
    rewrite (on_processes _ _ _ Ho) in Hi by done. destruct (R8 i d k total Hi Hd) as (? & ? & H).
    split; [done|]. split; [done|]. intros j Hj. specialize (H j Hj). destruct (decide (j = i)); [done|].
    by eapply claim_falls.
  - intros i t R Hi. rewrite (on_max _ _ _ Ho). destruct (R9 i t R Hi) as (H1 & H2 & H3 & H4).
    split; [done|]. split; [done|]. split.
    + destruct (decide (i = p)) as [->|Hne]; [lia|]. by destruct (only_at _ _ _ _ Ho Hne) as [-> _].
    + intros j Hj Hji. eapply claim_falls; eauto.
  - intros i Hi. destruct (decide (i = p)) as [->|Hne]; [specialize (R10 p Hi); lia|].
    destruct (only_at _ _ _ _ Ho Hne) as [-> _]. auto.
Qed.

Definition start_sum (p : nat) (g : Ghost) : Ghost :=
  {| g_clock := S (g_clock g); g_owner := fun t => if decide (t = g_clock g) then p else g_owner g t;
     g_start := fun j => if decide (j = p) then g_clock g else g_start g j; g_reads := g_reads g; g_last := g_last g |}.

Lemma recorded_starts n s g p s' d :
  recorded n s g → only p s s' → local p s' → (0 < n)%nat → scanning s p = false →
  ad_processes s' !! p = Some (Running d) → d_place d = DScan 0 0 → inflight_at s' p = inflight_at s p →
  recorded n s' (start_sum p g).
Proof.
  intros Hr Ho Hl Hn Hs Hp Hd Hx. pose proof Hr as [R1 R2 R3 R4 R5 R6 R7 R8 R9 R10]. pose proof (on_length _ _ _ Ho) as [L1 L2].
  assert (∀ t r j, (t ≤ g_clock g)%nat → claim s g t r j → claim s' (start_sum p g) t r j) as Hc.
  { intros t r j Ht. apply (claim_starts p s s'); try done; simpl; [by intros ? ?; rewrite decide_False|by rewrite decide_True]. }
  constructor; simpl.
  - congruence.
  - congruence.
  - by eapply nonneg_kept.
  - by eapply running_kept.
  - by apply Hl.
  - intros j Hj. destruct (decide (j = p)) as [->|Hne].
    + split; [lia|]. rewrite decide_True by done. split; [done|]. intros t R Hlast. by destruct (R7 _ _ _ Hlast).
    + destruct (only_at _ _ _ _ Ho Hne) as [_ E]. destruct (R6 j) as (? & ? & ?); [congruence|].
      split; [lia|]. rewrite decide_False by lia. by split.
  - intros j t R Hlast. destruct (R7 _ _ _ Hlast). split; [lia|]. by rewrite decide_False by lia.
  - intros i d' k total Hi Hd'. destruct (decide (i = p)) as [->|Hne].
    + rewrite Hp in Hi. simplify_eq. rewrite Hd in Hd'. simplify_eq. split; [done|]. split; [done|]. lia.
    + rewrite (on_processes _ _ _ Ho) in Hi by done. destruct (R8 i d' k total Hi Hd') as (? & ? & H).
      split; [done|]. split; [done|]. intros j Hj. specialize (H j Hj). destruct (decide (j = i)); [done|].
      apply Hc; [|done]. destruct (R6 i) as (? & _); [unfold scanning; by rewrite Hi, Hd'|lia].
  - intros i t R Hi. rewrite (on_max _ _ _ Ho). destruct (R9 i t R Hi) as (H1 & H2 & H3 & H4).
    split; [done|]. split; [done|]. split.
    + destruct (decide (i = p)) as [->|Hne]; [by rewrite Hx|]. by destruct (only_at _ _ _ _ Ho Hne) as [-> _].
    + intros j Hj Hji. apply Hc; [|auto]. destruct (R7 _ _ _ Hi). lia.
  - intros i Hi. destruct (decide (i = p)) as [->|Hne]; [rewrite Hx; auto|].
    destruct (only_at _ _ _ _ Ho Hne) as [-> _]. auto.
Qed.

(** What is read in a slot at rest. *)
Lemma claim_fresh n s g t k slot :
  recorded n s g → ad_slots s !! k = Some slot → a_busy slot = false → claim s g t (f_inflight (a_fields slot)) k.
Proof.
  intros Hr Hs Hb. pose proof (rc_nonneg _ _ _ Hr _ _ Hs) as Hnn. split; [done|]. right.
  assert (inflight_at s k ≤ f_inflight (a_fields slot) + 1 ∧
          (scanning s k = true → inflight_at s k ≤ f_inflight (a_fields slot))) as [Hx Hsc].
  { unfold inflight_at, scanning. destruct (ad_processes s !! k) as [[|d|]|] eqn:E; simpl; try (split; [lia|done]).
    destruct (rc_running _ _ _ Hr _ _ _ E Hs) as [_ H]. destruct (d_place d); (split; [lia || congruence|done || lia]). }
  destruct (scanning s k) eqn:Es; [|right; split; [by intros []|lia]]. specialize (Hsc eq_refl).
  destruct (decide (g_start g k < t)%nat); [by left|right; split; [by intros []|lia]].
Qed.

(** Its own slot. *)
Lemma own_fresh n s g p d slot :
  recorded n s g → ad_processes s !! p = Some (Running d) → ad_slots s !! p = Some slot → a_busy slot = false →
  scanning s p = true → f_inflight (a_fields slot) = d_inflight d.
Proof.
  intros Hr Hp Hs Hb. unfold scanning. rewrite Hp. destruct (rc_running _ _ _ Hr _ _ _ Hp Hs) as [_ H].
  by destruct (d_place d).
Qed.

Definition read_sum (p k : nat) (r : Z) (g : Ghost) : Ghost :=
  {| g_clock := g_clock g; g_owner := g_owner g; g_start := g_start g;
     g_reads := fun i j => if decide (i = p ∧ j = k) then r else g_reads g i j; g_last := g_last g |}.

(** The values of the sum, one more of them. *)
Lemma reads_extended n s g p d k total slot :
  recorded n s g → ad_processes s !! p = Some (Running d) → d_place d = DScan k total →
  ad_slots s !! k = Some slot → a_busy slot = false →
  let R := g_reads (read_sum p k (f_inflight (a_fields slot)) g) p in
  zsum R (S k) = total + f_inflight (a_fields slot) ∧
  ∀ j, (j < S k)%nat → if decide (j = p) then R j = d_inflight d else claim s g (g_start g p) (R j) j.
Proof.
  intros Hr Hp Hd Hs Hb R. destruct (rc_scan _ _ _ Hr p d k total Hp Hd) as (Hk & -> & H). split.
  - simpl. rewrite (zsum_ext R (g_reads g p)); [|intros j Hj; unfold R; simpl; by rewrite decide_False by lia].
    unfold R. simpl. by rewrite decide_True.
  - intros j Hj. unfold R. simpl. destruct (decide (j = k)) as [->|Hne].
    + rewrite (decide_True (P := p = p ∧ k = k)) by done.
      destruct (decide (k = p)) as [->|]; [|by eapply claim_fresh].
      eapply own_fresh; try done. unfold scanning. by rewrite Hp, Hd.
    + rewrite (decide_False (P := p = p ∧ j = k)) by naive_solver. apply H. lia.
Qed.

Lemma recorded_sums n s g p s' d d' k total slot :
  recorded n s g → only p s s' → local p s' → ad_processes s !! p = Some (Running d) → d_place d = DScan k total →
  ad_slots s !! k = Some slot → a_busy slot = false → (S k < n)%nat →
  ad_processes s' !! p = Some (Running d') → d_place d' = DScan (S k) (total + f_inflight (a_fields slot)) →
  d_inflight d' = d_inflight d → recorded n s' (read_sum p k (f_inflight (a_fields slot)) g).
Proof.
  intros Hr Ho Hl Hp Hd Hs Hb Hk Hp' Hd' Hx. pose proof Hr as [R1 R2 R3 R4 R5 R6 R7 R8 R9 R10].
  pose proof (on_length _ _ _ Ho) as [L1 L2]. destruct (reads_extended _ _ _ _ _ _ _ _ Hr Hp Hd Hs Hb) as [Hsum Hreads].
  assert (scanning s' p = scanning s p) as Hsc by (unfold scanning; by rewrite Hp, Hp', Hd, Hd').
  assert (inflight_at s' p = inflight_at s p) as Hin by (unfold inflight_at; by rewrite Hp, Hp').
  assert (∀ t r j, claim s g t r j → claim s' (read_sum p k (f_inflight (a_fields slot)) g) t r j) as Hc.
  { intros t r j. by apply (claim_sums p s s'). }
  constructor; simpl.
  - congruence.
  - congruence.
  - by eapply nonneg_kept.
  - by eapply running_kept.
  - by apply Hl.
  - intros j Hj. apply R6. destruct (decide (j = p)) as [->|Hne]; [congruence|].
    destruct (only_at _ _ _ _ Ho Hne) as [_ E]. congruence.
  - done.
  - intros i di ki ti Hi Hdi. destruct (decide (i = p)) as [->|Hne].
    + rewrite Hp' in Hi. simplify_eq. rewrite Hd' in Hdi. simplify_eq. split; [done|].
      split; [symmetry; exact Hsum|]. intros j Hj. specialize (Hreads j Hj). simpl in Hreads.
      destruct (decide (j = p)); [by rewrite Hx|by apply Hc].
    + rewrite (on_processes _ _ _ Ho) in Hi by done. destruct (R8 i di ki ti Hi Hdi) as (? & -> & H).
      assert (∀ j, (if decide (i = p ∧ j = k) then f_inflight (a_fields slot) else g_reads g i j) = g_reads g i j) as Hread.
      { intros j. by rewrite decide_False by naive_solver. }
      split; [done|]. split; [apply zsum_ext; intros j _; by rewrite Hread|].
      intros j Hj. specialize (H j Hj). rewrite Hread. destruct (decide (j = i)); [done|by apply Hc].
  - intros i t R Hi. rewrite (on_max _ _ _ Ho). destruct (R9 i t R Hi) as (H1 & H2 & H3 & H4).
    split; [done|]. split; [done|]. split; [|intros j Hj Hji; apply Hc; auto].
    destruct (decide (i = p)) as [->|Hne]; [by rewrite Hin|]. by destruct (only_at _ _ _ _ Ho Hne) as [-> _].
  - intros i Hi. destruct (decide (i = p)) as [->|Hne]; [rewrite Hin; auto|].
    destruct (only_at _ _ _ _ Ho Hne) as [-> _]. auto.
Qed.

Definition grant (p k : nat) (r : Z) (g : Ghost) : Ghost :=
  {| g_clock := g_clock g; g_owner := g_owner g; g_start := g_start g; g_reads := g_reads g;
     g_last := fun i => if decide (i = p) then Some (g_start g p, g_reads (read_sum p k r g) p) else g_last g i |}.

Lemma recorded_grants n s g p s' d d' k total slot :
  recorded n s g → only p s s' → local p s' → ad_processes s !! p = Some (Running d) → d_place d = DScan k total →
  ad_slots s !! k = Some slot → a_busy slot = false → S k = n →
  total + f_inflight (a_fields slot) < ad_max_inflight s → ad_processes s' !! p = Some (Running d') →
  (∃ ret, d_place d' = DMarking ret) → d_inflight d' = d_inflight d + 1 → (p < n)%nat → 0 ≤ d_inflight d →
  recorded n s' (grant p k (f_inflight (a_fields slot)) g).
Proof.
  intros Hr Ho Hl Hp Hd Hs Hb Hk Hlt Hp' [ret Hd'] Hx Hpn Hnn. pose proof Hr as [R1 R2 R3 R4 R5 R6 R7 R8 R9 R10].
  pose proof (on_length _ _ _ Ho) as [L1 L2]. destruct (reads_extended _ _ _ _ _ _ _ _ Hr Hp Hd Hs Hb) as [Hsum Hreads].
  set (g' := grant p k (f_inflight (a_fields slot)) g). set (Rp := g_reads (read_sum p k (f_inflight (a_fields slot)) g) p) in *.
  assert (scanning s p = true) as Hsc by (unfold scanning; by rewrite Hp, Hd).
  assert (scanning s' p = false) as Hsc' by (unfold scanning; by rewrite Hp', Hd').
  assert (inflight_at s p = d_inflight d) as Hin by (unfold inflight_at; by rewrite Hp).
  assert (inflight_at s' p = d_inflight d + 1) as Hin' by (unfold inflight_at; by rewrite Hp').
  destruct (R6 p Hsc) as (Hst & Hown & Hold).
  assert (g_last g' p = Some (g_start g p, Rp)) as Hlp by (simpl; by rewrite decide_True).
  assert (∀ j, j ≠ p → g_last g' j = g_last g j) as Hlo by (intros j Hj; simpl; by rewrite decide_False).
  assert (∀ t r j, (j = p → t ≠ g_start g p) → claim s g t r j → claim s' g' t r j) as Hc.
  { intros t r j Ht. eapply (claim_grants p s s'); try done. by rewrite Hin', Hin. }
  constructor.
  - congruence.
  - congruence.
  - by eapply nonneg_kept.
  - by eapply running_kept.
  - by apply Hl.
  - intros j Hj. destruct (decide (j = p)) as [->|Hne]; [congruence|].
    destruct (only_at _ _ _ _ Ho Hne) as [_ E]. rewrite Hlo by done. apply R6. congruence.
  - intros j t R Hlast. destruct (decide (j = p)) as [->|Hne]; [rewrite Hlp in Hlast; by simplify_eq|].
    rewrite Hlo in Hlast by done. by eapply R7.
  - intros i di ki ti Hi Hdi. destruct (decide (i = p)) as [->|Hne].
    { rewrite Hp' in Hi. simplify_eq. congruence. }
    rewrite (on_processes _ _ _ Ho) in Hi by done. destruct (R8 i di ki ti Hi Hdi) as (? & ? & H).
    split; [done|]. split; [done|]. intros j Hj. specialize (H j Hj). destruct (decide (j = i)); [done|].
    apply Hc; [|done]. intros -> Heq. apply Hne.
    destruct (R6 i) as (_ & Ho' & _); [unfold scanning; by rewrite Hi, Hdi|]. simpl in Heq. congruence.
  - intros i t R Hi. rewrite (on_max _ _ _ Ho). destruct (decide (i = p)) as [->|Hne].
    + rewrite Hlp in Hi. simplify_eq. pose proof (Hreads p Hpn) as Hrp. rewrite decide_True in Hrp by done.
      split; [rewrite Hsum; lia|]. split; [lia|]. split; [lia|].
      intros j Hj Hjp. apply Hc; [done|]. specialize (Hreads j Hj). by rewrite decide_False in Hreads.
    + rewrite Hlo in Hi by done. destruct (R9 i t R Hi) as (H1 & H2 & H3 & H4).
      split; [done|]. split; [done|]. split; [by destruct (only_at _ _ _ _ Ho Hne) as [-> _]|].
      intros j Hj Hji. apply Hc; [|auto]. intros -> ->. apply Hne. destruct (R7 _ _ _ Hi). congruence.
  - intros i Hi. destruct (decide (i = p)) as [->|Hne]; [congruence|].
    rewrite Hlo in Hi by done. destruct (only_at _ _ _ _ Ho Hne) as [-> _]. auto.
Qed.

(** ** The bound *)

Lemma in_flight_zsum s : in_flight s = zsum (inflight_at s) (length (ad_processes s)).
Proof.
  unfold in_flight, inflight_at. induction (ad_processes s) as [|p l IH] using rev_ind; [done|].
  rewrite foldr_app, length_app. simpl. rewrite Nat.add_1_r. simpl.
  rewrite lookup_app_r, Nat.sub_diag by lia. simpl.
  rewrite (zsum_ext _ (λ j, from_option process_inflight 0 (l !! j))).
  2: { intros j Hj. by rewrite lookup_app_l. }
  rewrite <- IH. assert (∀ z, foldr (λ p n, process_inflight p + n) z l = foldr (λ p n, process_inflight p + n) 0 l + z) as Hz.
  { clear. intros z. induction l as [|q l IH]; simpl; [done|]. rewrite IH. lia. }
  rewrite Hz. lia.
Qed.

(** Among those who were granted a request, the one whose sum started last. *)
Lemma latest_grant (g : Ghost) n :
  (∀ j, (j < n)%nat → g_last g j = None) ∨
  ∃ q t R, (q < n)%nat ∧ g_last g q = Some (t, R) ∧ ∀ j, (j < n)%nat → ¬ granted_after g j t.
Proof.
  induction n as [|n [IH|(q & t & R & Hq & E & H)]].
  - left. lia.
  - destruct (g_last g n) as [[t R]|] eqn:E.
    + right. exists n, t, R. split; [lia|]. split; [done|]. intros j Hj (t' & R' & E' & Hlt).
      destruct (decide (j = n)) as [->|]; [simplify_eq; lia|]. rewrite IH in E'; [done|lia].
    + left. intros j Hj. destruct (decide (j = n)) as [->|]; [done|]. apply IH. lia.
  - right. destruct (g_last g n) as [[t' R']|] eqn:E'; [destruct (decide (t < t')%nat)|].
    + exists n, t', R'. split; [lia|]. split; [done|]. intros j Hj (t0 & R0 & E0 & Hlt).
      destruct (decide (j = n)) as [->|]; [simplify_eq; lia|].
      apply (H j); [lia|]. exists t0, R0. split; [done|lia].
    + exists q, t, R. split; [lia|]. split; [done|]. intros j Hj. destruct (decide (j = n)) as [->|]; [|apply H; lia].
      intros (t0 & R0 & E0 & Hlt). rewrite E' in E0. injection E0 as -> ->. lia.
    + exists q, t, R. split; [lia|]. split; [done|]. intros j Hj. destruct (decide (j = n)) as [->|]; [|apply H; lia].
      intros (t0 & R0 & E0 & Hlt). congruence.
Qed.

Lemma recorded_bound n s g : recorded n s g → (0 < n)%nat → 0 ≤ ad_max_inflight s →
  in_flight s ≤ ad_max_inflight s + Z.of_nat n - 1.
Proof.
  intros Hr Hn Hm. rewrite in_flight_zsum, (rc_processes _ _ _ Hr).
  destruct (latest_grant g n) as [Hnone|(q & t & R & Hq & E & Hlate)].
  - assert (zsum (inflight_at s) n ≤ zsum (λ _, 0) n) as H.
    { apply zsum_le. intros j Hj. apply (rc_none _ _ _ Hr). auto. }
    assert (zsum (λ _, 0) n = 0) by (clear; induction n; simpl; lia). lia.
  - destruct (rc_grant _ _ _ Hr _ _ _ E) as (Hsum & H0 & Hown & Hcl).
    assert (zsum (inflight_at s) n ≤ zsum (λ j, R j + 1) n) as H.
    { apply zsum_le. intros j Hj. destruct (decide (j = q)) as [->|Hne]; [done|].
      destruct (Hcl j Hj Hne) as [Hr0 [Ha|[(_ & _ & Hx)|[_ Hx]]]]; [by destruct (Hlate j Hj)|lia|lia]. }
    rewrite zsum_succ in H. lia.
Qed.

(** ** Steps *)

Lemma recorded_same n s s' g :
  recorded n s g → ad_slots s' = ad_slots s → ad_processes s' = ad_processes s → ad_max_inflight s' = ad_max_inflight s →
  (∀ j, supervised (ad_supervisor s') = Some j → ad_processes s !! j = Some Reaped) → recorded n s' g.
Proof.
  intros [R1 R2 R3 R4 R5 R6 R7 R8 R9 R10] E1 E2 E3 Hs.
  unfold claim, scanning, inflight_at in *. constructor; unfold claim, scanning, inflight_at; rewrite ?E1, ?E2, ?E3; done.
Qed.

Lemma only_slot_process p pr f s : only p s (on_slot p f (set_process p pr s)).
Proof.
  constructor; simpl; try done.
  - intros j Hj. by rewrite list_lookup_insert_ne.
  - intros j Hj. by rewrite list_lookup_alter_ne.
  - by rewrite length_alter, length_insert.
Qed.

Lemma only_process p pr s : only p s (set_process p pr s).
Proof. constructor; simpl; try done; [|by rewrite length_insert]. intros j Hj. by rewrite list_lookup_insert_ne. Qed.

Lemma only_slot p f s : only p s (on_slot p f s).
Proof. constructor; simpl; try done; [|by rewrite length_alter]. intros j Hj. by rewrite list_lookup_alter_ne. Qed.

Lemma process_set p pr pr0 s : ad_processes s !! p = Some pr0 → ad_processes (set_process p pr s) !! p = Some pr.
Proof. intros H. simpl. apply list_lookup_insert_eq. by eapply lookup_lt_Some. Qed.

(** Nobody reclaims it. *)
Lemma supervised_other n s g p pr pr' j :
  recorded n s g → ad_processes s !! p = Some pr → pr ≠ Reaped → supervised (ad_supervisor s) = Some j →
  <[p := pr']> (ad_processes s) !! j = Some Reaped.
Proof.
  intros Hr Hp Hne Hj. pose proof (rc_supervised _ _ _ Hr j Hj) as E. rewrite list_lookup_insert_ne; [done|]. congruence.
Qed.

Lemma alter_at {A} (f : A → A) p (l : list A) x : alter f p l !! p = Some x → ∃ y, l !! p = Some y ∧ x = f y.
Proof. rewrite list_lookup_alter_eq. intros (y & -> & ->)%fmap_Some. by exists y. Qed.

(** A process is about to write its slot. *)
Lemma writes_own_recorded n s g p pr d :
  recorded n s g → ad_processes s !! p = Some pr → pr ≠ Reaped → (∀ d0 ret, pr = Running d0 → d_place d0 ≠ DWriting ret) →
  (∃ ret, d_place d = DMarking ret) → 0 ≤ d_inflight d →
  d_inflight d ≤ process_inflight pr ∨ d_inflight d ≤ 0 → recorded n (writes_own p d s) g.
Proof.
  intros Hr Hp Hne Hpl [ret Hd] H0 Hx. pose proof (process_set p (Running d) _ s Hp) as Hset. simpl in Hset.
  apply (recorded_falls n s g p); [done|apply only_process|constructor|..]; simpl.
  - intros slot. apply (rc_nonneg _ _ _ Hr).
  - intros d' slot Hp' Hs. rewrite Hset in Hp'. injection Hp' as <-. split; [done|]. rewrite Hd.
    pose proof (rc_nonneg _ _ _ Hr _ _ Hs). destruct Hx as [Hx|]; [|lia]. destruct pr as [|d0|]; simpl in Hx; [lia| |done].
    destruct (rc_running _ _ _ Hr _ _ _ Hp Hs) as [_ H1]. specialize (Hpl d0).
    destruct (d_place d0) eqn:E; [lia|lia|lia|by edestruct Hpl].
  - intros j Hj. by eapply supervised_other.
  - unfold scanning. simpl. by rewrite Hset, Hd.
  - unfold inflight_at. simpl. by rewrite Hset, Hp.
Qed.

(** A process marks its slot. *)
Lemma mark_own_recorded n s g p d ret :
  recorded n s g → ad_processes s !! p = Some (Running d) → 0 ≤ d_inflight d → recorded n (mark_own p d ret s) g.
Proof.
  intros Hr Hp H0. pose proof (process_set p (Running (d <| d_place := DWriting ret |>)) _ s Hp) as Hset. simpl in Hset.
  apply (recorded_falls n s g p); [done|apply only_slot_process|constructor|..]; simpl.
  - intros slot Hs. apply alter_at in Hs as (slot0 & Hs & ->). exact (rc_nonneg _ _ _ Hr _ _ Hs).
  - intros d' slot Hp' Hs. rewrite Hset in Hp'. injection Hp' as <-.
    apply alter_at in Hs as (slot0 & Hs & ->). by split.
  - intros j Hj. by eapply supervised_other.
  - unfold scanning. simpl. by rewrite Hset.
  - left. unfold inflight_at. simpl. by rewrite Hset, Hp.
Qed.

Lemma shed_recorded n s g : recorded n s g → recorded n (shed s) g.
Proof. intros Hr. apply (recorded_same n s); try done. apply Hr. Qed.

(** The slot at rest of a data plane that is not writing. *)
Lemma running_slot n s g p d slot :
  recorded n s g → ad_processes s !! p = Some (Running d) → ad_slots s !! p = Some slot → slot_ok d slot.
Proof. intros Hr. apply Hr. Qed.

Lemma running_nonneg n s g p d : recorded n s g → ad_processes s !! p = Some (Running d) → 0 ≤ d_inflight d.
Proof.
  intros Hr Hp. destruct (lookup_lt_is_Some_2 (ad_slots s) p) as [slot Hs].
  - rewrite (rc_slots _ _ _ Hr), <- (rc_processes _ _ _ Hr). by eapply lookup_lt_Some.
  - by destruct (running_slot _ _ _ _ _ _ Hr Hp Hs).
Qed.

(** Not writing. *)
Definition settled (d : Dp) : Prop := match d_place d with DIdle | DScan _ _ => True | _ => False end.

(** A change of place other than to a write. *)
Lemma place_local n s g p d d' :
  recorded n s g → ad_processes s !! p = Some (Running d) → d_inflight d' = d_inflight d →
  settled d → settled d' → local p (set_process p (Running d') s).
Proof.
  intros Hr Hp Hx Hd Hd'. pose proof (process_set p (Running d') _ s Hp) as Hset. constructor; simpl.
  - intros slot. apply (rc_nonneg _ _ _ Hr).
  - intros d0 slot Hp' Hs. simpl in Hset. rewrite Hset in Hp'. injection Hp' as <-.
    destruct (running_slot _ _ _ _ _ _ Hr Hp Hs) as [H0 H1]. split; [lia|]. rewrite Hx.
    unfold settled in *. by destruct (d_place d), (d_place d').
  - intros j Hj. by eapply supervised_other.
Qed.

Lemma read_slot_Some stable slot v : read_slot stable slot = Some (Some v) → v = slot ∧ a_busy slot = false.
Proof. unfold read_slot. destruct stable; [|done]. destruct (a_busy slot); [done|]. by intros [= <-]. Qed.

Lemma acquire_recorded n s g j stable now d s' :
  recorded n s g → ad_processes s !! j = Some (Running d) → d_place d = DIdle → acquire j stable now d s = Some s' →
  ∃ g', recorded n s' g'.
Proof.
  intros Hr Hp Hd. unfold acquire. pose proof (running_nonneg _ _ _ _ _ Hr Hp) as Hnn.
  destruct (ad_slots s !! j) as [slot|] eqn:Hs; [|done]. simpl. destruct (read_slot stable slot) as [[v|]|] eqn:Ev; [|by intros [= <-]; exists g|done].
  simpl. destruct (negb _); [by intros [= <-]; exists g|]. destruct (shed_from_cached_unstable d now); intros [= <-].
  - exists g. apply shed_recorded. eapply writes_own_recorded; try done; [intros ? ? [= <-]; congruence|by eexists|by left].
  - exists (start_sum j g). pose proof (process_set j (Running (d <| d_place := DScan 0 0 |>)) _ s Hp) as Hset.
    eapply (recorded_starts n s g j); try done.
    + apply only_process.
    + apply (place_local n s g j d); try done. unfold settled. by rewrite Hd.
    + rewrite <- (rc_processes _ _ _ Hr). apply lookup_lt_Some in Hp. lia.
    + unfold scanning. by rewrite Hp, Hd.
    + unfold inflight_at. rewrite Hset. by rewrite Hp.
Qed.

Lemma sum_slot_recorded n s g j stable now k total d s' :
  recorded n s g → ad_processes s !! j = Some (Running d) → d_place d = DScan k total →
  sum_slot j stable now k total d s = Some s' → ∃ g', recorded n s' g'.
Proof.
  intros Hr Hp Hd. unfold sum_slot. pose proof (running_nonneg _ _ _ _ _ Hr Hp) as Hnn.
  destruct (rc_scan _ _ _ Hr _ _ _ _ Hp Hd) as (Hkn & _).
  destruct (ad_slots s !! k) as [slot|] eqn:Hs; [|done]. simpl. destruct (read_slot stable slot) as [[v|]|] eqn:Ev; [|intros [= <-]|done].
  2: { exists g. apply shed_recorded. eapply writes_own_recorded; try done; [intros ? ? [= <-]; congruence|by eexists|by left]. }
  apply read_slot_Some in Ev as [-> Hb]. simpl. rewrite (rc_slots _ _ _ Hr). destruct (Nat.ltb_spec (S k) n); intros [= <-].
  - exists (read_sum j k (f_inflight (a_fields slot)) g).
    pose proof (process_set j (Running (d <| d_place := DScan (S k) (total + f_inflight (a_fields slot)) |>)) _ s Hp) as Hset.
    eapply (recorded_sums n s g j); try done; [apply only_process|].
    apply (place_local n s g j d); try done. unfold settled. by rewrite Hd.
  - unfold decide_acquire. destruct (Z.leb_spec (ad_max_inflight s) (total + f_inflight (a_fields slot))).
    + exists g. apply shed_recorded. eapply writes_own_recorded; try done; [intros ? ? [= <-]; congruence|by eexists|by left].
    + exists (grant j k (f_inflight (a_fields slot)) g). set (d' := d <| d_sibling_unstable := false |> <| d_inflight := _ |> <| d_peak_sum := _ |> <| d_place := _ |>).
      pose proof (process_set j (Running d') _ s Hp) as Hset.
      eapply (recorded_grants n s g j _ d d'); try done.
      * apply only_process.
      * constructor; simpl.
        -- intros sl. apply (rc_nonneg _ _ _ Hr).
        -- intros d0 sl Hp0 Hsl. simpl in Hset. rewrite Hset in Hp0. injection Hp0 as <-.
           destruct (running_slot _ _ _ _ _ _ Hr Hp Hsl) as [_ H1]. rewrite Hd in H1. split; simpl; lia.
        -- intros i Hi. by eapply supervised_other.
      * lia.
      * by eexists.
      * rewrite <- (rc_processes _ _ _ Hr). by eapply lookup_lt_Some.
Qed.

(** A process dies: its requests die with it. *)
Lemma crash_recorded n s g j d :
  recorded n s g → ad_processes s !! j = Some (Running d) → recorded n (set_process j Reaped s) g.
Proof.
  intros Hr Hp. pose proof (process_set j Reaped _ s Hp) as Hset. simpl in Hset.
  apply (recorded_falls n s g j); [done|apply only_process|constructor|..]; simpl.
  - intros slot. apply (rc_nonneg _ _ _ Hr).
  - intros d' slot Hp' _. congruence.
  - intros i Hi. by eapply supervised_other.
  - unfold scanning. simpl. by rewrite Hset.
  - right. unfold inflight_at. simpl. by rewrite Hset.
Qed.

(** A write ends. *)
Lemma written_recorded n s g j d ret now :
  recorded n s g → ad_processes s !! j = Some (Running d) → d_place d = DWriting ret →
  recorded n (on_slot j (fun x => end_write (write_fields (own_fields d now) x))
               (set_process j (Running (d <| d_place := DIdle |>)) s)) g.
Proof.
  intros Hr Hp Hd. set (d' := d <| d_place := DIdle |>). pose proof (process_set j (Running d') _ s Hp) as Hset. simpl in Hset.
  pose proof (running_nonneg _ _ _ _ _ Hr Hp) as Hnn.
  apply (recorded_falls n s g j); [done|apply only_slot_process|constructor|..]; simpl.
  - intros slot Hs. apply alter_at in Hs as (slot0 & Hs & ->). done.
  - intros d0 slot Hp0 Hs. rewrite Hset in Hp0. injection Hp0 as <-. apply alter_at in Hs as (slot0 & Hs & ->). by split.
  - intros i Hi. by eapply supervised_other.
  - unfold scanning. simpl. by rewrite Hset.
  - left. unfold inflight_at. simpl. by rewrite Hset, Hp.
Qed.

Lemma release_recorded n s g j stable d s' :
  recorded n s g → ad_processes s !! j = Some (Running d) → d_place d = DIdle → release j stable d s = Some s' → recorded n s' g.
Proof.
  intros Hr Hp Hd. unfold release.
  destruct (ad_slots s !! j) as [slot|]; [|done]. simpl. destruct (read_slot stable slot) as [[v|]|]; simpl; [|by intros [= <-]|done].
  destruct (negb (still_owner d (a_fields v)) || (d_inflight d <=? 0)) eqn:E; intros [= <-]; [done|].
  apply orb_false_iff in E as [_ E]. apply Z.leb_gt in E.
  eapply writes_own_recorded; try done; [intros ? ? [= <-]; congruence|by eexists|simpl; lia|left; simpl; lia].
Qed.

Lemma touch_recorded n s g j stable d s' :
  recorded n s g → ad_processes s !! j = Some (Running d) → d_place d = DIdle → touch j stable d s = Some s' → recorded n s' g.
Proof.
  intros Hr Hp Hd. unfold touch. pose proof (running_nonneg _ _ _ _ _ Hr Hp) as Hnn.
  destruct (ad_slots s !! j) as [slot|]; [|done]. simpl. destruct (read_slot stable slot) as [[v|]|]; simpl; [|by intros [= <-]|done].
  destruct (still_owner d (a_fields v)); intros [= <-]; [|done].
  eapply writes_own_recorded; try done; [intros ? ? [= <-]; congruence|by eexists|by left].
Qed.

(** The supervisor's writes to the slot of a reaped process, and its end. *)
Lemma reclaim_recorded n s g j f pr s' :
  recorded n s g → ad_processes s !! j = Some Reaped → (∀ d, pr ≠ Running d) →
  (∀ x, 0 ≤ f_inflight (a_fields x) → 0 ≤ f_inflight (a_fields (f x))) →
  ad_slots s' = alter f j (ad_slots s) → ad_processes s' = <[j := pr]> (ad_processes s) →
  ad_max_inflight s' = ad_max_inflight s →
  (∀ i, supervised (ad_supervisor s') = Some i → i = j ∧ pr = Reaped) → recorded n s' g.
Proof.
  intros Hr Hp Hpr Hf E1 E2 E3 Hs. pose proof (list_lookup_insert_eq (ad_processes s) j pr (lookup_lt_Some _ _ _ Hp)) as Hset.
  apply (recorded_falls n s g j); [done|constructor|constructor|..].
  - intros i Hi. by rewrite E2, list_lookup_insert_ne.
  - intros i Hi. by rewrite E1, list_lookup_alter_ne.
  - by rewrite E1, E2, length_alter, length_insert.
  - done.
  - rewrite E1. intros slot Hs'. apply alter_at in Hs' as (slot0 & Hs' & ->). apply Hf. exact (rc_nonneg _ _ _ Hr _ _ Hs').
  - rewrite E2. intros d slot Hp'. rewrite Hset in Hp'. simplify_eq. by destruct (Hpr d).
  - intros i Hi. rewrite E2. destruct (Hs i Hi) as [-> <-]. done.
  - unfold scanning. rewrite E2, Hset. destruct pr; try done. by destruct (Hpr d).
  - right. unfold inflight_at. rewrite E2, Hset. destruct pr; try done. by destruct (Hpr d).
Qed.

Ltac reclaims :=
  first [eassumption | by intros x Hx | by rewrite list_insert_id | by rewrite list_alter_id | by simpl; intros ? [= <-] | reflexivity | done].

Lemma supervise_recorded n s g stable now s' :
  recorded n s g → supervise stable now s = Some s' → recorded n s' g.
Proof.
  intros Hr. pose proof (rc_supervised _ _ _ Hr) as Hsup. unfold supervise.
  destruct (ad_supervisor s) as [|j|j view|j view acc|j|j|j|j|j] eqn:E; simpl in Hsup; [done|..];
    specialize (Hsup j eq_refl).
  - destruct (ad_slots s !! j) as [slot|]; [|done]. simpl.
    destruct (read_slot stable slot) as [[v|]|]; [intros [= <-]|intros [= <-]|done];
      (eapply recorded_same; [exact Hr|done..|]; simpl; by intros i [= <-]).
  - destruct (read_slot stable (ad_retired s)) as [[v|]|]; [intros [= <-]|intros [= <-]|done];
      (eapply recorded_same; [exact Hr|done..|]; simpl; by intros i [= <-]).
  - intros [= <-]. eapply recorded_same; [exact Hr|done..|]; simpl; by intros i [= <-].
  - intros [= <-]. eapply (reclaim_recorded n s g j begin_write Reaped); reclaims.
  - intros [= <-]. eapply (reclaim_recorded n s g j (fun x => end_write (write_fields (zero_fields now) x)) Reaped); reclaims.
  - intros [= <-]. eapply (reclaim_recorded n s g j id Spawning); reclaims.
  - intros [= <-]. eapply (reclaim_recorded n s g j begin_write Reaped); reclaims.
  - intros [= <-]. eapply (reclaim_recorded n s g j (fun x => end_write (write_fields (zero_fields now) x)) Spawning); reclaims.
Qed.

Lemma aggregate_recorded n s g stable s' : recorded n s g → aggregate stable s = Some s' → recorded n s' g.
Proof.
  intros Hr. pose proof (rc_supervised _ _ _ Hr) as Hsup.
  assert (∀ r, recorded n (s <| ad_reader := r |>) g) as H by (intros r; by eapply recorded_same).
  unfold aggregate. destruct (ad_reader s) as [a|a v views| |]; try done.
  - destruct (AGGREGATE_ATTEMPTS <=? a)%nat; [intros [= <-]; apply H|].
    destruct (read_slot stable (ad_retired s)); [|done]. intros [= <-]. apply H.
  - destruct (ad_slots s !! length views) as [slot|].
    + destruct (read_slot stable slot); [|done]. intros [= <-]. apply H.
    + destruct (read_slot stable (ad_retired s)); [|done]. intros [= <-]. apply H.
Qed.

Lemma ad_step_recorded n s g ev s' : recorded n s g → ad_step ev s = Some s' → ∃ g', recorded n s' g'.
Proof.
  intros Hr. destruct ev as [j ge pid|j st now|j st now|j|j now|j st|j st|j|j|st now| |st]; simpl; unfold with_idle.
  9: { destruct (ad_supervisor s) eqn:E; try done. destruct (ad_processes s !! j) as [[| |]|] eqn:Ep; try done. intros [= <-].
       exists g. eapply recorded_same; try done. simpl. by intros i [= <-]. }
  9: { intros H. exists g. by eapply supervise_recorded. }
  9: { intros [= <-]. exists g. eapply recorded_same; try done. apply Hr. }
  9: { intros H. exists g. by eapply aggregate_recorded. }
  all: destruct (ad_processes s !! j) as [[|d|]|] eqn:Ep; try done.
  - intros [= <-]. exists g. eapply writes_own_recorded; try done; [by eexists|by right].
  - destruct (d_place d) eqn:Ed; try done. by eapply acquire_recorded.
  - destruct (d_place d) eqn:Ed; try done. by eapply sum_slot_recorded.
  - destruct (d_place d) eqn:Ed; try done. intros [= <-]. exists g. eapply mark_own_recorded; try done. by eapply running_nonneg.
  - destruct (d_place d) eqn:Ed; try done. intros [= <-]. exists g. by eapply written_recorded.
  - destruct (d_place d) eqn:Ed; try done. intros H. exists g. by eapply release_recorded.
  - destruct (d_place d) eqn:Ed; try done. intros H. exists g. by eapply touch_recorded.
  - intros [= <-]. exists g. by eapply crash_recorded.
Qed.

Lemma new_recorded M n : recorded n (new_admission M n)
  {| g_clock := 0; g_owner := fun _ => 0%nat; g_start := fun _ => 0%nat; g_reads := fun _ _ => 0; g_last := fun _ => None |}.
Proof.
  assert (∀ j p, replicate n Spawning !! j = Some p → p = Spawning) as H by (intros j p Hj; by apply lookup_replicate in Hj as [-> _]).
  assert (∀ j, scanning (new_admission M n) j = false) as Hs.
  { intros j. unfold scanning. simpl. by destruct (replicate n Spawning !! j) as [p|] eqn:E; [rewrite (H _ _ E)|]. }
  constructor; simpl; try done.
  - apply length_replicate.
  - apply length_replicate.
  - intros j slot Hj. by apply lookup_replicate in Hj as [-> _].
  - intros j d slot Hj. by apply H in Hj.
  - intros j Hj. by rewrite Hs in Hj.
  - intros j d k total Hj. by apply H in Hj.
  - intros i _. unfold inflight_at. simpl. by destruct (replicate n Spawning !! i) as [p|] eqn:E; [rewrite (H _ _ E)|].
Qed.

Lemma ad_run_recorded n evs : ∀ s g s', recorded n s g → ad_run evs s = Some s' → ∃ g', recorded n s' g'.
Proof.
  induction evs as [|ev evs IH]; simpl; intros s g s' Hr; [intros [= <-]; by exists g|].
  destruct (ad_step ev s) as [s1|] eqn:E; [|done]. simpl. destruct (ad_step_recorded _ _ _ _ _ Hr E) as [g1 Hr1]. by apply IH with g1.
Qed.

Lemma ad_step_max ev s s' : ad_step ev s = Some s' → ad_max_inflight s' = ad_max_inflight s.
Proof.
  destruct ev; simpl; unfold with_idle, acquire, sum_slot, release, touch, supervise, aggregate; intros H;
    repeat case_match; simplify_option_eq; repeat case_match; simplify_eq; done.
Qed.

Lemma ad_run_max evs : ∀ s s', ad_run evs s = Some s' → ad_max_inflight s' = ad_max_inflight s.
Proof.
  induction evs as [|ev evs IH]; simpl; intros s s'; [by intros [= <-]|].
  destruct (ad_step ev s) as [s1|] eqn:E; [|done]. simpl. intros H. rewrite (IH _ _ H). by eapply ad_step_max.
Qed.

(** What is in flight past the bound. *)
Definition overshoot (max_inflight : Z) (s : Admission) : Z := in_flight s - max_inflight.

(** C31: The router's admission bound is soft by less than the number of data planes: in any
    interleaving of data planes that sum the slots, decide, write, release, crash and are
    replaced while the supervisor reclaims their slots and others read the aggregate, the
    requests in flight at live data planes never exceed the configured maximum by more than [n -
    1], the documented "at most N-1". *)
Theorem soft_bound M n evs s :
  (0 < n)%nat → 0 ≤ M → ad_run evs (new_admission M n) = Some s → overshoot M s ≤ Z.of_nat n - 1.
Proof.
  intros Hn HM Hrun. pose proof (ad_run_max _ _ _ Hrun) as HE. simpl in HE.
  destruct (ad_run_recorded _ _ _ _ _ (new_recorded M n) Hrun) as [g Hr]. unfold overshoot.
  pose proof (recorded_bound _ _ _ Hr Hn). lia.
Qed.

(** Two data planes and a bound of one request: both read the slots at rest, both are granted. *)
Definition overshoot_run : list AdEvent :=
  let t := f_of_Z 0 in
  [DStart 0 1 10; DStart 1 2 20; DMark 0; DMark 1; DWritten 0 t; DWritten 1 t;
   DAcquire 0 true t; DAcquire 1 true t; DSum 0 true t; DSum 1 true t; DSum 0 true t; DSum 1 true t;
   DMark 0; DMark 1; DWritten 0 t; DWritten 1 t].

Lemma soft_bound_witness :
  ∃ s, ad_run overshoot_run (new_admission 1 2) = Some s ∧ overshoot 1 s = 1 ∧ overshoot 1 s ≤ Z.of_nat 2 - 1.
Proof.
  destruct (ad_run overshoot_run (new_admission 1 2)) as [s|] eqn:E; [|by vm_compute in E].
  exists s. split; [reflexivity|]. split.
  - vm_compute in E. injection E as <-. reflexivity.
  - apply (soft_bound 1 2 overshoot_run s); [lia|lia|exact E].
Defined.
