(* ===== verification/AdmissionCount.v ===== *)
(** * Shared admission: the aggregate never invents a rejection

    A rejection is counted in the slot of the data plane that made it, and moved to the retired
    slot when the data plane is reclaimed; the sequence word of the retired slot is the version
    of these moves.  The invariant accounts, slot by slot, for the rejections made and for those
    already moved. *)
From S2P Require Import Prelude PyNum Seqlock Admission AdmissionBound.
Local Open Scope Z_scope.

(** ** Sums *)

Lemma zsum_plus f g n : zsum (λ j, f j + g j) n = zsum f n + zsum g n.
Proof. induction n as [|n IH]; simpl; [done|]. rewrite IH. lia. Qed.

Definition bump (j : nat) (k : Z) (f : nat → Z) : nat → Z := fun i => if decide (i = j) then f i + k else f i.

Lemma bump_at j k f : bump j k f j = f j + k.
Proof. unfold bump. by rewrite decide_True. Qed.

Lemma bump_ne j k f i : i ≠ j → bump j k f i = f i.
Proof. intros H. unfold bump. by rewrite decide_False. Qed.

Lemma bump_le j k f i : 0 ≤ k → f i ≤ bump j k f i.
Proof. intros H. unfold bump. destruct (decide (i = j)); lia. Qed.

Lemma zsum_bump j k f n : (j < n)%nat → zsum (bump j k f) n = zsum f n + k.
Proof.
  induction n as [|n IH]; intros Hj; [lia|]. simpl. destruct (decide (j = n)) as [->|Hne].
  - rewrite bump_at. rewrite (zsum_ext _ f n); [lia|]. intros i Hi. apply bump_ne. lia.
  - rewrite IH by lia. rewrite bump_ne by lia. lia.
Qed.

(** ** What is counted *)

(** The slot whose count is in the retired slot and still in its own. *)
Definition folding (sup : Supervisor) : option nat :=
  match sup with SupFolded j | SupReclaiming j => Some j | _ => None end.

Definition marked (sup : Supervisor) : bool :=
  match sup with SupMarked _ _ _ | SupFolded _ | SupReclaiming _ | SupEnding _ => true | _ => false end.

(** The rejections of slot [j]: [c] made, [b] of them moved to the retired slot. *)
Record slot_counted (s : Admission) (c b : nat → Z) (j : nat) : Prop := {
  sc_moved : b j ≤ c j;
  sc_running : ∀ d, ad_processes s !! j = Some (Running d) → d_rejected_total d + b j ≤ c j;
  sc_slot : ∀ slot, ad_slots s !! j = Some slot → folding (ad_supervisor s) ≠ Some j →
    f_rejected_total (a_fields slot) + b j ≤ c j
}.

Definition supervisor_counted (sup : Supervisor) (retired : Fields) (c b : nat → Z) : Prop :=
  match sup with
  | SupGot j view => f_rejected_total view + b j ≤ c j
  | SupMarked j view accumulated =>
      f_rejected_total view + b j ≤ c j ∧ f_rejected_total accumulated = f_rejected_total retired
  | _ => True
  end.

(** A reader at a version that has passed starts again; at the present one, nothing moves. *)
Definition reader_counted (n : nat) (s : Admission) (c b : nat → Z) : Prop :=
  match ad_reader s with
  | AggViews _ version views =>
      (length views ≤ n)%nat ∧
      (version < a_seq (ad_retired s) ∨
       version = a_seq (ad_retired s) ∧ a_busy (ad_retired s) = false ∧
       ∀ i view, views !! i = Some view → f_rejected_total view + b i ≤ c i)
  | AggDone totals => t_rejected_total totals ≤ ad_sheds s
  | _ => True
  end.

Record counted (n : nat) (s : Admission) (c b : nat → Z) : Prop := {
  ct_slots : ∀ j, (j < n)%nat → slot_counted s c b j;
  ct_sheds : ad_sheds s = zsum c n;
  ct_retired : f_rejected_total (a_fields (ad_retired s)) = zsum b n;
  ct_busy : a_busy (ad_retired s) = marked (ad_supervisor s);
  ct_even : a_busy (ad_retired s) = negb (Z.even (a_seq (ad_retired s)));
  ct_supervisor : supervisor_counted (ad_supervisor s) (a_fields (ad_retired s)) c b;
  ct_reader : reader_counted n s c b
}.

(** ** A data plane's step *)

Lemma process_counted n s s' c b j k :
  counted n s c b → 0 ≤ k → (j < n)%nat → only j s s' →
  ad_supervisor s' = ad_supervisor s → ad_retired s' = ad_retired s → ad_reader s' = ad_reader s →
  ad_sheds s' = ad_sheds s + k →
  (∀ d, ad_processes s' !! j = Some (Running d) → d_rejected_total d + b j ≤ c j + k) →
  (∀ slot, ad_slots s' !! j = Some slot → folding (ad_supervisor s) ≠ Some j →
     f_rejected_total (a_fields slot) + b j ≤ c j + k) →
  counted n s' (bump j k c) b.
Proof.
  intros [C1 C2 C3 C4 C5 C6 C7] Hk Hj Ho Es Er Ea En Hd Hs. constructor; rewrite ?Er, ?Es; try done.
  - intros i Hi. destruct (C1 i Hi) as [H1 H2 H3]. destruct (decide (i = j)) as [->|Hne].
    + constructor; rewrite ?bump_at, ?Es; [lia|done|done].
    + constructor; rewrite ?bump_ne, ?Es, ?(on_processes _ _ _ Ho), ?(on_slots _ _ _ Ho) by done; done.
  - rewrite zsum_bump by done. lia.
  - unfold supervisor_counted in *. destruct (ad_supervisor s) as [|i|i view|i view acc|i|i|i|i|i]; try done;
      pose proof (bump_le j k c i Hk); [lia|destruct C6; split; [lia|done]].
  - unfold reader_counted in *. rewrite Ea, Er. destruct (ad_reader s) as [|a v views| |]; try done; [|lia].
    destruct C7 as [Hl [H|(H1 & H2 & H3)]]; (split; [done|]); [by left|right]. split; [done|]. split; [done|].
    intros i view Hi. specialize (H3 i view Hi). pose proof (bump_le j k c i Hk). lia.
Qed.

(** A process writes its slot, with or without a rejection. *)
Lemma writes_own_counted n s c b j pr d k :
  counted n s c b → (j < n)%nat → ad_processes s !! j = Some pr → (k = 0 ∨ k = 1) →
  d_rejected_total d + b j ≤ c j + k →
  counted n (if decide (k = 1) then shed (writes_own j d s) else writes_own j d s) (bump j k c) b.
Proof.
  intros Hc Hj Hp Hk Hd. pose proof (process_set j (Running d) _ s Hp) as Hset. simpl in Hset.
  eapply (process_counted n s); try done.
  - lia.
  - destruct (decide (k = 1)); [|apply only_process]. destruct (only_process j (Running d) s). by constructor.
  - by destruct (decide (k = 1)).
  - by destruct (decide (k = 1)).
  - by destruct (decide (k = 1)).
  - destruct (decide (k = 1)) as [->|]; simpl; lia.
  - intros d' Hd'. assert (Some (Running d') = Some (Running d)) as [= ->]; [|done].
    rewrite <- Hset, <- Hd'. by destruct (decide (k = 1)).
  - intros slot Hs Hf. assert (ad_slots s !! j = Some slot) as Hs' by (by destruct (decide (k = 1))).
    pose proof (sc_slot _ _ _ _ (ct_slots _ _ _ _ Hc j Hj) slot Hs' Hf). lia.
Qed.

(** The places of a process do not matter. *)
Lemma move_counted n s c b j d pr :
  counted n s c b → (j < n)%nat → ad_processes s !! j = Some (Running d) →
  (∀ d', pr = Running d' → d_rejected_total d' = d_rejected_total d) → counted n (set_process j pr s) (bump j 0 c) b.
Proof.
  intros Hc Hj Hp Hd. pose proof (process_set j pr _ s Hp) as Hset. simpl in Hset.
  destruct (ct_slots _ _ _ _ Hc j Hj) as [H1 H2 H3]. specialize (H2 d Hp).
  eapply (process_counted n s); try done; simpl.
  - apply only_process.
  - lia.
  - intros d' Hd'. rewrite Hset in Hd'. simplify_eq. rewrite (Hd _ eq_refl). lia.
  - intros slot Hs Hf. specialize (H3 slot Hs Hf). lia.
Qed.

(** ** The steps of a data plane *)

Section data_plane.
Context (n : nat) (s : Admission) (c b : nat → Z) (j : nat) (d : Dp).
Hypotheses (Hc : counted n s c b) (Hj : (j < n)%nat) (Hp : ad_processes s !! j = Some (Running d)).

Lemma made_counted : d_rejected_total d + b j ≤ c j.
Proof using All. by apply (sc_running _ _ _ _ (ct_slots _ _ _ _ Hc j Hj)). Qed.

(** It writes its slot with what it counted. *)
Lemma settles_counted d' : d_rejected_total d' = d_rejected_total d → ∃ c', counted n (writes_own j d' s) c' b.
Proof using All.
  intros Hd. exists (bump j 0 c). apply (writes_own_counted n s c b j (Running d) d' 0); try done; [by left|].
  rewrite Hd. pose proof made_counted. lia.
Qed.

(** It counts one more rejection. *)
Lemma sheds_counted d' : d_rejected_total d' = d_rejected_total d → ∃ c', counted n (shed (writes_own j (rejected d') s)) c' b.
Proof using All.
  intros Hd. exists (bump j 1 c). apply (writes_own_counted n s c b j (Running d) (rejected d') 1); try done; [by right|].
  simpl. rewrite Hd. pose proof made_counted. lia.
Qed.

Lemma moves_counted d' : d_rejected_total d' = d_rejected_total d → ∃ c', counted n (set_process j (Running d') s) c' b.
Proof using All. intros Hd. exists (bump j 0 c). eapply move_counted; try done. by intros ? [= <-]. Qed.

Lemma acquire_counted stable now s' : acquire j stable now d s = Some s' → ∃ c', counted n s' c' b.
Proof using All.
  unfold acquire. destruct (ad_slots s !! j) as [slot|]; [|done]. simpl.
  destruct (read_slot stable slot) as [[v|]|]; simpl; [|by intros [= <-]; exists c|done].
  destruct (negb _); [by intros [= <-]; exists c|].
  destruct (shed_from_cached_unstable d now); intros [= <-]; [by apply sheds_counted|by apply moves_counted].
Qed.

Lemma sum_slot_counted stable now k total s' : sum_slot j stable now k total d s = Some s' → ∃ c', counted n s' c' b.
Proof using All.
  unfold sum_slot. destruct (ad_slots s !! k) as [slot|]; [|done]. simpl.
  destruct (read_slot stable slot) as [[v|]|]; simpl; [|by intros [= <-]; apply sheds_counted|done].
  destruct (S k <? length (ad_slots s))%nat; intros [= <-]; [by apply moves_counted|]. unfold decide_acquire.
  destruct (ad_max_inflight s <=? total + f_inflight (a_fields v)); [by apply sheds_counted|by apply settles_counted].
Qed.

Lemma release_counted stable s' : release j stable d s = Some s' → ∃ c', counted n s' c' b.
Proof using All.
  unfold release. destruct (ad_slots s !! j) as [slot|]; [|done]. simpl.
  destruct (read_slot stable slot) as [[v|]|]; simpl; [|by intros [= <-]; exists c|done].
  destruct (_ || _); intros [= <-]; [by exists c|by apply settles_counted].
Qed.

Lemma touch_counted stable s' : touch j stable d s = Some s' → ∃ c', counted n s' c' b.
Proof using All.
  unfold touch. destruct (ad_slots s !! j) as [slot|]; [|done]. simpl.
  destruct (read_slot stable slot) as [[v|]|]; simpl; [|by intros [= <-]; exists c|done].
  destruct (still_owner _ _); intros [= <-]; [by apply settles_counted|by exists c].
Qed.

Lemma mark_own_counted ret : ∃ c', counted n (mark_own j d ret s) c' b.
Proof using All.
  exists (bump j 0 c). pose proof made_counted. pose proof (process_set j (Running (d <| d_place := DWriting ret |>)) _ s Hp) as Hset.
  simpl in Hset. eapply (process_counted n s); try done; simpl.
  - apply only_slot_process.
  - lia.
  - intros d0 Hd0. rewrite Hset in Hd0. injection Hd0 as <-. simpl. lia.
  - intros slot Hs Hf. apply alter_at in Hs as (slot0 & Hs0 & ->).
    pose proof (sc_slot _ _ _ _ (ct_slots _ _ _ _ Hc j Hj) slot0 Hs0 Hf). simpl. lia.
Qed.

Lemma written_counted now : ∃ c', counted n
  (on_slot j (fun x => end_write (write_fields (own_fields d now) x)) (set_process j (Running (d <| d_place := DIdle |>)) s)) c' b.
Proof using All.
  exists (bump j 0 c). pose proof made_counted. set (d' := d <| d_place := DIdle |>).
  pose proof (process_set j (Running d') _ s Hp) as Hset. simpl in Hset.
  eapply (process_counted n s); try done; simpl.
  - apply only_slot_process.
  - lia.
  - intros d0 Hd0. rewrite Hset in Hd0. injection Hd0 as <-. unfold d'. simpl. lia.
  - intros slot Hs _. apply alter_at in Hs as (slot0 & _ & ->). simpl. lia.
Qed.
End data_plane.

(** ** The supervisor's steps *)

(** Reclaiming, without the slots or the counts. *)
Lemma phase_counted n s c b sup :
  counted n s c b → marked sup = marked (ad_supervisor s) → folding sup = folding (ad_supervisor s) →
  supervisor_counted sup (a_fields (ad_retired s)) c b → counted n (s <| ad_supervisor := sup |>) c b.
Proof.
  intros [C1 C2 C3 C4 C5 C6 C7] Hm Hf Hs. constructor; simpl; try done; [|by rewrite Hm].
  intros j Hj. destruct (C1 j Hj) as [H1 H2 H3]. constructor; simpl; [done|done|by rewrite Hf].
Qed.

(** A slot is marked, or zeroed and given back, while nothing is folded. *)
Lemma reclaims_counted n s s' c b j :
  counted n s c b → ad_processes s !! j = Some Reaped → only j s s' →
  (∀ d, ad_processes s' !! j ≠ Some (Running d)) →
  (∀ slot, ad_slots s' !! j = Some slot → folding (ad_supervisor s') ≠ Some j →
     f_rejected_total (a_fields slot) = 0 ∨
     folding (ad_supervisor s) ≠ Some j ∧ ∃ slot0, ad_slots s !! j = Some slot0 ∧
       f_rejected_total (a_fields slot) = f_rejected_total (a_fields slot0)) →
  (folding (ad_supervisor s) = folding (ad_supervisor s') ∨ folding (ad_supervisor s) = Some j) →
  marked (ad_supervisor s') = marked (ad_supervisor s) → supervisor_counted (ad_supervisor s') (a_fields (ad_retired s)) c b →
  ad_retired s' = ad_retired s → ad_reader s' = ad_reader s → ad_sheds s' = ad_sheds s → counted n s' c b.
Proof.
  intros [C1 C2 C3 C4 C5 C6 C7] Hp Ho Hd Hs Hf Hm Hsup Er Ea En. constructor; rewrite ?Er, ?En, ?Hm; try done.
  - intros i Hi. destruct (C1 i Hi) as [H1 H2 H3]. destruct (decide (i = j)) as [->|Hne].
    + constructor; [done|by intros d ?%Hd|]. intros slot Hsl Hfo.
      destruct (Hs slot Hsl Hfo) as [->|(Hfo' & slot0 & H0 & ->)]; [lia|by apply H3].
    + constructor; rewrite ?(on_processes _ _ _ Ho), ?(on_slots _ _ _ Ho) by done; [done|done|].
      intros slot Hsl Hfo. apply H3; [done|]. destruct Hf as [-> | ->]; congruence.
  - unfold reader_counted in *. by rewrite Ea, Er, En.
Qed.

Lemma lor_one_even z : Z.even z = true → Z.lor z 1 = z + 1.
Proof.
  intros H. apply Z.even_spec in H as [k ->]. rewrite <- Z.add_lor_land.
  replace (Z.land (2 * k) 1) with 0; [lia|]. change 1 with (Z.ones 1). rewrite Z.land_ones by lia.
  rewrite Z.mul_comm, Z.mod_mul by lia. done.
Qed.

(** While the retired slot is held, every reader has a version that has passed. *)
Lemma held_reader n s c b a v views :
  counted n s c b → a_busy (ad_retired s) = true → ad_reader s = AggViews a v views →
  (length views ≤ n)%nat ∧ v < a_seq (ad_retired s).
Proof.
  intros Hc Hb Ha. pose proof (ct_reader _ _ _ _ Hc) as H. unfold reader_counted in H. rewrite Ha in H.
  destruct H as [Hl [H|(_ & H & _)]]; [done|congruence].
Qed.

Lemma mark_counted n s c b j view :
  counted n s c b → ad_supervisor s = SupGot j view → a_busy (ad_retired s) = false →
  counted n (s <| ad_retired := begin_write (ad_retired s) |>
               <| ad_supervisor := SupMarked j view (a_fields (ad_retired s)) |>) c b.
Proof.
  intros [C1 C2 C3 C4 C5 C6 C7] Hsup Hb. rewrite Hb in C5. symmetry in C5. apply negb_false_iff in C5.
  rewrite Hsup in C6. simpl in C6. constructor; simpl; try done.
  - intros i Hi. destruct (C1 i Hi) as [H1 H2 H3]. constructor; simpl; [done|done|].
    intros slot Hs _. apply H3; [done|]. by rewrite Hsup.
  - rewrite lor_one_even by done. by rewrite Z.even_add, C5.
  - unfold reader_counted in *. simpl. destruct (ad_reader s) as [|a v views| |]; try done.
    rewrite lor_one_even by done. destruct C7 as [Hl [H|(-> & _)]]; (split; [done|left; lia]).
Qed.

Lemma fold_counted n s c b j view accumulated now :
  counted n s c b → (j < n)%nat → ad_processes s !! j = Some Reaped → ad_supervisor s = SupMarked j view accumulated →
  counted n (s <| ad_retired := write_fields
                   {| f_inflight := 0; f_peak_sum := Z.max (f_peak_sum accumulated) (f_peak_sum view);
                      f_rejected_total := f_rejected_total accumulated + f_rejected_total view;
                      f_generation := 0; f_pid := 0; f_heartbeat_ts := now |} (ad_retired s) |>
               <| ad_supervisor := SupFolded j |>) c (bump j (f_rejected_total view) b).
Proof.
  intros Hc Hj Hp Hsup. pose proof Hc as [C1 C2 C3 C4 C5 C6 C7]. rewrite Hsup in C4, C6. destruct C6 as [Hv Hacc].
  constructor; simpl; try done.
  - intros i Hi. destruct (C1 i Hi) as [H1 H2 H3]. rewrite Hsup in H3. destruct (decide (i = j)) as [->|Hne].
    + constructor; rewrite ?bump_at; simpl; [lia|congruence|congruence].
    + constructor; rewrite ?bump_ne by done; simpl; [done|done|]. intros slot Hs _. by apply H3.
  - rewrite zsum_bump by done. lia.
  - pose proof (held_reader n s c b) as Hh. unfold reader_counted in *. simpl.
    destruct (ad_reader s) as [|a v views| |]; try done. destruct (Hh a v views Hc C4 eq_refl). split; [done|by left].
Qed.

Lemma ending_counted n s c b j :
  counted n s c b → ad_processes s !! j = Some Reaped → ad_supervisor s = SupEnding j →
  counted n (set_process j Spawning s <| ad_retired := end_write (ad_retired s) |> <| ad_supervisor := SupIdle |>) c b.
Proof.
  intros Hc Hp Hsup. pose proof Hc as [C1 C2 C3 C4 C5 C6 C7]. rewrite Hsup in C4. constructor; simpl; try done.
  - intros i Hi. destruct (C1 i Hi) as [H1 H2 H3]. rewrite Hsup in H3. constructor; simpl; [done| |by intros slot Hs _; apply H3].
    intros d Hd. destruct (decide (i = j)) as [->|Hne].
    + rewrite list_lookup_insert_eq in Hd by (by eapply lookup_lt_Some). done.
    + rewrite list_lookup_insert_ne in Hd by done. by apply H2.
  - rewrite C4 in C5. rewrite Z.even_add. by destruct (Z.even _).
  - pose proof (held_reader n s c b) as Hh. unfold reader_counted in *. simpl.
    destruct (ad_reader s) as [|a v views| |]; try done. destruct (Hh a v views Hc C4 eq_refl). split; [done|left; lia].
Qed.

Ltac keeps_others :=
  constructor; simpl; [intros; by rewrite ?list_lookup_insert_ne|intros; by rewrite ?list_lookup_alter_ne|by rewrite ?length_alter, ?length_insert|done].

Lemma supervise_counted n s g c b stable now s' :
  recorded n s g → counted n s c b → supervise stable now s = Some s' → ∃ b', counted n s' c b'.
Proof.
  intros Hr Hc. pose proof (rc_supervised _ _ _ Hr) as Hsup. unfold supervise.
  destruct (ad_supervisor s) as [|j|j view|j view acc|j|j|j|j|j] eqn:E; simpl in Hsup; [done|..];
    specialize (Hsup j eq_refl); assert (j < n)%nat as Hj by (rewrite <- (rc_processes _ _ _ Hr); by eapply lookup_lt_Some);
    pose proof (ct_slots _ _ _ _ Hc j Hj) as [_ _ Hslot].
  - destruct (ad_slots s !! j) as [slot|] eqn:Es; [|done]. simpl.
    destruct (read_slot stable slot) as [[v|]|] eqn:Ev; [intros [= <-]|intros [= <-]|done]; exists b;
      apply phase_counted; rewrite ?E; try done.
    apply read_slot_Some in Ev as [-> _]. apply Hslot; [done|by rewrite E].
  - destruct (read_slot stable (ad_retired s)) as [[v|]|] eqn:Ev; [intros [= <-]|intros [= <-]|done]; exists b.
    + apply read_slot_Some in Ev as [-> Hb]. by apply mark_counted.
    + apply phase_counted; by rewrite ?E.
  - intros [= <-]. eexists. by eapply fold_counted.
  - intros [= <-]. exists b. eapply (reclaims_counted n s _ c b j); rewrite ?E; try done; simpl; [keeps_others|congruence|by right..].
  - intros [= <-]. exists b. eapply (reclaims_counted n s _ c b j); rewrite ?E; try done; simpl; [keeps_others|congruence|..].
    + intros slot Hs _. apply alter_at in Hs as (slot0 & _ & ->). by left.
    + by right.
  - intros [= <-]. exists b. by apply ending_counted.
  - intros [= <-]. exists b. eapply (reclaims_counted n s _ c b j); rewrite ?E; try done; simpl; [keeps_others|congruence|..].
    + intros slot Hs _. apply alter_at in Hs as (slot0 & Hs & ->). right. split; [done|]. by exists slot0.
    + by left.
  - intros [= <-]. exists b. eapply (reclaims_counted n s _ c b j); rewrite ?E; try done; simpl; [keeps_others|..].
    + rewrite list_lookup_insert_eq by (by eapply lookup_lt_Some). done.
    + intros slot Hs _. apply alter_at in Hs as (slot0 & _ & ->). by left.
    + by left.
Qed.

(** ** The reader's steps *)

(** What is read while nothing moves was made, and was not moved. *)
Lemma views_counted n c b views :
  (length views ≤ n)%nat → (∀ i view, views !! i = Some view → f_rejected_total view + b i ≤ c i) →
  foldr (fun v m => f_rejected_total v + m) 0 views + zsum b (length views) ≤ zsum c (length views).
Proof.
  induction views as [|v views IH] using rev_ind; intros Hl H; [done|]. rewrite length_app in *. simpl in *.
  rewrite Nat.add_1_r in *. simpl. rewrite foldr_app. simpl.
  assert (∀ z, foldr (fun v m => f_rejected_total v + m) z views = foldr (fun v m => f_rejected_total v + m) 0 views + z) as Hz.
  { clear. intros z. induction views as [|u views IH]; simpl; [done|]. rewrite IH. lia. }
  rewrite Hz. specialize (H (length views) v) as Hv. rewrite lookup_app_r, Nat.sub_diag in Hv by lia. specialize (Hv eq_refl).
  assert (foldr (fun v m => f_rejected_total v + m) 0 views + zsum b (length views) ≤ zsum c (length views)); [|lia].
  apply IH; [lia|]. intros i view Hi. apply H. by apply lookup_app_l_Some.
Qed.

Lemma reader_set n s c b r :
  counted n s c b → reader_counted n (s <| ad_reader := r |>) c b → counted n (s <| ad_reader := r |>) c b.
Proof. intros [C1 C2 C3 C4 C5 C6 C7] H. constructor; simpl; try done. intros j Hj. destruct (C1 j Hj). by constructor. Qed.

Lemma aggregate_counted n s g c b stable s' :
  recorded n s g → counted n s c b → aggregate stable s = Some s' → counted n s' c b.
Proof.
  intros Hr Hc. pose proof (ct_reader _ _ _ _ Hc) as Ha. unfold aggregate, reader_counted in *.
  destruct (ad_reader s) as [a|a v views| |]; try done.
  - destruct (AGGREGATE_ATTEMPTS <=? a)%nat; [by intros [= <-]; apply reader_set|].
    destruct (read_slot stable (ad_retired s)) as [[r|]|] eqn:E; [intros [= <-]|by intros [= <-]; apply reader_set|done].
    apply read_slot_Some in E as [-> Hb]. apply reader_set; [done|]. unfold reader_counted. simpl.
    split; [lia|right]. by split_and!.
  - destruct Ha as [Hl Ha]. destruct (ad_slots s !! length views) as [slot|] eqn:Es.
    + destruct (read_slot stable slot) as [[r|]|] eqn:E; [intros [= <-]|by intros [= <-]; apply reader_set|done].
      apply read_slot_Some in E as [-> Hb]. apply reader_set; [done|]. unfold reader_counted. simpl.
      pose proof (lookup_lt_Some _ _ _ Es) as Hlt. rewrite (rc_slots _ _ _ Hr) in Hlt. rewrite length_app. simpl.
      split; [lia|]. destruct Ha as [Ha|(-> & Hb' & Ha)]; [by left|right]. split; [done|]. split; [done|].
      intros i view [Hi|[Hi Hv]]%lookup_app_Some; [by apply Ha|]. apply list_lookup_singleton_Some in Hv as [Hi' <-].
      assert (i = length views) as -> by lia. apply (sc_slot _ _ _ _ (ct_slots _ _ _ _ Hc _ Hlt)); [done|].
      rewrite (ct_busy _ _ _ _ Hc) in Hb'. by destruct (ad_supervisor s).
    + destruct (read_slot stable (ad_retired s)) as [[r|]|] eqn:E; [intros [= <-]|by intros [= <-]; apply reader_set|done].
      apply read_slot_Some in E as [-> Hb]. apply reader_set; [done|]. unfold reader_counted. simpl.
      destruct (Z.eqb_spec (a_seq (ad_retired s)) v) as [<-|]; [|done].
      destruct Ha as [Ha|(_ & _ & Ha)]; [lia|]. pose proof (views_counted n c b views Hl Ha) as Hv.
      apply lookup_ge_None in Es. rewrite (rc_slots _ _ _ Hr) in Es. assert (length views = n) as Hn by lia.
      rewrite Hn in Hv. unfold totals_of. simpl. rewrite (ct_sheds _ _ _ _ Hc), (ct_retired _ _ _ _ Hc). lia.
Qed.

(** ** Runs *)

Lemma ad_step_counted n s g c b ev s' :
  recorded n s g → counted n s c b → ad_step ev s = Some s' → ∃ c' b', counted n s' c' b'.
Proof.
  intros Hr Hc. destruct ev as [j ge pid|j st now|j st now|j|j now|j st|j st|j|j|st now| |st]; simpl; unfold with_idle.
  9: { destruct (ad_supervisor s) eqn:E; try done. destruct (ad_processes s !! j) as [[| |]|] eqn:Ep; try done. intros [= <-].
       exists c, b. apply phase_counted; by rewrite ?E. }
  9: { intros H. exists c. by eapply supervise_counted. }
  9: { intros [= <-]. exists c, b. by apply reader_set. }
  9: { intros H. exists c, b. by eapply aggregate_counted. }
  all: destruct (ad_processes s !! j) as [[|d|]|] eqn:Ep; try done.
  all: assert (j < n)%nat as Hj by (rewrite <- (rc_processes _ _ _ Hr); by eapply lookup_lt_Some).
  2-7: destruct (d_place d) eqn:Ed; try done; intros H; eassert (∃ c', counted n s' c' b) as [? ?]; [|by eauto].
  - intros [= <-]. exists (bump j 0 c), b. pose proof (sc_moved _ _ _ _ (ct_slots _ _ _ _ Hc j Hj)).
    apply (writes_own_counted n s c b j Spawning (new_dp ge pid) 0); try done; [by left|simpl; lia].
  - by eapply acquire_counted.
  - by eapply sum_slot_counted.
  - injection H as <-. by eapply mark_own_counted.
  - injection H as <-. by eapply written_counted.
  - by eapply release_counted.
  - by eapply touch_counted.
  - intros [= <-]. exists (bump j 0 c), b. by eapply move_counted.
Qed.

Lemma new_counted M n : counted n (new_admission M n) (fun _ => 0) (fun _ => 0).
Proof.
  assert (zsum (fun _ => 0) n = 0) as H0 by (induction n; simpl; lia).
  constructor; simpl; try done. intros j _. constructor; simpl; [done|..].
  - intros d Hd. by apply lookup_replicate in Hd as [? _].
  - intros slot Hs _. by apply lookup_replicate in Hs as [-> _].
Qed.

Lemma ad_run_counted n evs : ∀ s g c b s',
  recorded n s g → counted n s c b → ad_run evs s = Some s' → ∃ c' b', counted n s' c' b'.
Proof.
  induction evs as [|ev evs IH]; simpl; intros s g c b s' Hr Hc; [intros [= <-]; by exists c, b|].
  destruct (ad_step ev s) as [s1|] eqn:E; [|done]. simpl. destruct (ad_step_recorded _ _ _ _ _ Hr E) as [g1 Hr1].
  destruct (ad_step_counted _ _ _ _ _ _ _ Hr Hc E) as (c1 & b1 & Hc1). by eapply IH.
Qed.

(** ** The result *)

(** The reader has answered [totals]. *)
Definition reported (s : Admission) (totals : Totals) : Prop := ad_reader s = AggDone totals.

(** The aggregate never invents a rejection: whatever the interleaving of data planes that
    shed, crash and are replaced, of the supervisor that folds their slots into the retired one
    step by step, and of a reader that reads the slots one after the other, a [rejected_total]
    that [_aggregate_to_dict] answers is at most the number of rejections made; in particular a
    count on its way from a slot to the retired slot is not read in both. *)
Theorem rejections_not_invented M n evs s totals :
  ad_run evs (new_admission M n) = Some s → reported s totals → t_rejected_total totals ≤ ad_sheds s.
Proof.
  intros Hrun Hd. destruct (ad_run_counted n evs _ _ _ _ _ (new_recorded M n) (new_counted M n) Hrun) as (c & b & Hc).
  pose proof (ct_reader _ _ _ _ Hc) as H. unfold reader_counted in H. by rewrite Hd in H.
Qed.

(** A data plane sheds and crashes; its slot is read, then folded and reclaimed, before the
    reader's last read, which therefore starts the aggregate again. *)
Definition refold_run : list AdEvent :=
  let t := f_of_Z 0 in
  [DStart 0 1 10; DMark 0; DWritten 0 t; DAcquire 0 true t; DSum 0 true t; DMark 0; DWritten 0 t; DCrash 0;
   ARead true; ARead true; SReclaim 0; SStep true t; SStep true t; SStep true t; SStep true t; SStep true t; SStep true t;
   ARead true; ARead true; ARead true; ARead true].

Lemma rejections_not_invented_witness :
  ∃ s totals, ad_run refold_run (new_admission 0 1) = Some s ∧ reported s totals ∧ t_rejected_total totals = 1 ∧
    t_rejected_total totals ≤ ad_sheds s.
Proof.
  destruct (ad_run refold_run (new_admission 0 1)) as [s|] eqn:E; [|by vm_compute in E].
  destruct (ad_reader s) as [| |totals|] eqn:Er; try (vm_compute in E; injection E as <-; vm_compute in Er; discriminate Er).
  exists s, totals. split; [reflexivity|]. split; [exact Er|]. split.
  - vm_compute in E. injection E as <-. vm_compute in Er. injection Er as <-. reflexivity.
  - apply (rejections_not_invented 0 1 refold_run s totals); [exact E|exact Er].
Defined.
