(* ===== verification/RouterWorker.v ===== *)
(** * The router's view of a worker

    Models [src/sglang_omni_router/worker.py] and the probe of [health.py]: the state of a
    worker, who changes it, and the probes under way, which an operator's decision outdates.
    Times are those of [datetime.now], kept as a number; the log is left out. *)
From Stdlib Require Import Ascii.
From stdpp Require Import pretty.
From S2P Require Import Prelude PyNum.
Local Open Scope Z_scope.

(** ** Identifiers *)

(** [urllib.parse.quote(url, safe="")], on ASCII: letters, digits and [_.-~] stand for
    themselves, any other character for its code. *)
Definition unreserved (c : ascii) : bool :=
  let n := Z.of_N (N_of_ascii c) in
  (48 <=? n) && (n <=? 57) || (65 <=? n) && (n <=? 90) || (97 <=? n) && (n <=? 122) ||
  (n =? 95) || (n =? 46) || (n =? 45) || (n =? 126).

Definition hex_digit (n : N) : ascii := ascii_of_N (if (n <? 10)%N then 48 + n else 55 + n).

Definition quote_char (c : ascii) : string :=
  if unreserved c then String c EmptyString
  else String "%" (String (hex_digit (N_of_ascii c / 16)) (String (hex_digit (N_of_ascii c mod 16)) EmptyString)).

Fixpoint worker_id_from_url (url : string) : string :=
  match url with
  | EmptyString => EmptyString
  | String c url' => quote_char c +:+ worker_id_from_url url'
  end.

(** ** Workers *)

Record WorkerConfig : Type := { wc_url : string; wc_model : option string; wc_capabilities : gset string }.

Inductive WorkerState : Type := STATE_DEAD | STATE_HEALTHY | STATE_UNKNOWN | STATE_UNHEALTHY.

#[global] Instance worker_state_eq_dec : EqDecision WorkerState.
Proof. solve_decision. Defined.

Record Worker : Type := {
  w_config : WorkerConfig;
  w_worker_id : string;
  w_incarnation : string;
  w_health_epoch : Z;
  w_active_requests : Z;
  w_state : WorkerState;
  w_disabled : bool;
  w_consecutive_failures : Z;
  w_consecutive_successes : Z;
  w_routed_requests : Z;
  w_successful_requests : Z;
  w_failed_requests : Z;
  w_routed_by_class : gmap string Z;
  w_successful_by_class : gmap string Z;
  w_failed_by_class : gmap string Z;
  w_last_status_code : option Z;
  w_last_error : option string;
  w_last_checked_at : option Z
}.

#[global] Instance eta_Worker : Eta Worker := fun w =>
  {| w_config := w_config w; w_worker_id := w_worker_id w; w_incarnation := w_incarnation w;
     w_health_epoch := w_health_epoch w; w_active_requests := w_active_requests w; w_state := w_state w;
     w_disabled := w_disabled w; w_consecutive_failures := w_consecutive_failures w;
     w_consecutive_successes := w_consecutive_successes w; w_routed_requests := w_routed_requests w;
     w_successful_requests := w_successful_requests w; w_failed_requests := w_failed_requests w;
     w_routed_by_class := w_routed_by_class w; w_successful_by_class := w_successful_by_class w;
     w_failed_by_class := w_failed_by_class w; w_last_status_code := w_last_status_code w;
     w_last_error := w_last_error w; w_last_checked_at := w_last_checked_at w |}.

(** [Worker(config=...)]; the incarnation is a fresh identifier. *)
Definition new_worker (config : WorkerConfig) (incarnation : string) : Worker :=
  {| w_config := config; w_worker_id := worker_id_from_url (wc_url config); w_incarnation := incarnation;
     w_health_epoch := 0; w_active_requests := 0; w_state := STATE_UNKNOWN; w_disabled := false;
     w_consecutive_failures := 0; w_consecutive_successes := 0; w_routed_requests := 0;
     w_successful_requests := 0; w_failed_requests := 0; w_routed_by_class := ∅; w_successful_by_class := ∅;
     w_failed_by_class := ∅; w_last_status_code := None; w_last_error := None; w_last_checked_at := None |}.

Definition w_url (w : Worker) : string := wc_url (w_config w).
Definition w_model (w : Worker) : option string := wc_model (w_config w).
Definition w_capabilities (w : Worker) : gset string := wc_capabilities (w_config w).
Definition is_healthy (w : Worker) : bool := bool_decide (w_state w = STATE_HEALTHY).
Definition is_dead (w : Worker) : bool := bool_decide (w_state w = STATE_DEAD).
Definition is_routable (w : Worker) : bool := is_healthy w && negb (w_disabled w).
Definition supports (capability : string) (w : Worker) : bool := bool_decide (capability ∈ w_capabilities w).

Definition replace_config (config : WorkerConfig) (w : Worker) : result Worker :=
  if negb (bool_decide (wc_url config = w_url w)) then Raise (ValueError "worker URL cannot be changed")
  else Ok (w <| w_config := config |>).

Definition mark_dead (error : option string) (w : Worker) : Worker :=
  w <| w_state := STATE_DEAD |> <| w_health_epoch := w_health_epoch w + 1 |>
    <| w_last_error := match error with Some _ => error | None => w_last_error w end |>.

Definition clear_dead (w : Worker) : Worker :=
  w <| w_state := if is_dead w then STATE_UNKNOWN else w_state w |>
    <| w_health_epoch := w_health_epoch w + 1 |>
    <| w_consecutive_failures := 0 |> <| w_consecutive_successes := 0 |>.

Definition set_disabled (disabled : bool) (w : Worker) : Worker := w <| w_disabled := disabled |>.

Definition increment_active (w : Worker) : Worker := w <| w_active_requests := w_active_requests w + 1 |>.
Definition decrement_active (w : Worker) : result Worker :=
  if 0 <? w_active_requests w then Ok (w <| w_active_requests := w_active_requests w - 1 |>)
  else Raise (AssertionError "active request count cannot be negative").

Definition increment_counter (key : string) (counters : gmap string Z) : gmap string Z :=
  <[key := default 0 (counters !! key) + 1]> counters.

Definition successful_status (status_code : option Z) : bool :=
  match status_code with Some c => (200 <=? c) && (c <? 400) | None => false end.

Definition record_routed_request (status_code : option Z) (service_class : string) (w : Worker) : Worker :=
  let w := w <| w_routed_requests := w_routed_requests w + 1 |>
             <| w_routed_by_class := increment_counter service_class (w_routed_by_class w) |> in
  if successful_status status_code
  then w <| w_successful_requests := w_successful_requests w + 1 |>
         <| w_successful_by_class := increment_counter service_class (w_successful_by_class w) |>
  else w <| w_failed_requests := w_failed_requests w + 1 |>
         <| w_failed_by_class := increment_counter service_class (w_failed_by_class w) |>.

(** [_record_failure]. *)
Definition record_failure (failure_threshold : Z) (w : Worker) : Worker :=
  let w := w <| w_consecutive_failures := w_consecutive_failures w + 1 |> <| w_consecutive_successes := 0 |> in
  if failure_threshold <=? w_consecutive_failures w then w <| w_state := STATE_UNHEALTHY |> else w.

Definition observed (status_code : option Z) (error : option string) (now : Z) (w : Worker) : Worker :=
  w <| w_last_checked_at := Some now |> <| w_last_status_code := status_code |> <| w_last_error := error |>.

Definition record_health_result (ok : bool) (failure_threshold success_threshold : Z) (status_code : option Z)
    (error : option string) (now : Z) (w : Worker) : Worker :=
  let w := observed status_code error now w in
  if ok then
    let w := w <| w_consecutive_successes := w_consecutive_successes w + 1 |> <| w_consecutive_failures := 0 |> in
    if success_threshold <=? w_consecutive_successes w then w <| w_state := STATE_HEALTHY |> else w
  else record_failure failure_threshold w.

Definition record_request_failure (failure_threshold : Z) (status_code : option Z) (error : option string) (now : Z)
    (w : Worker) : Worker :=
  record_failure failure_threshold (observed status_code error now w).

(** ** Probes and reports *)

(** What a probe comes back with. *)
Inductive ProbeResult : Type :=
| HTTPError (message : string)
| Response (status_code : Z) (text : string).

(** [error] of a response: its text, cut, or its status. *)
Definition probe_error (status_code : Z) (text : string) : option string :=
  if (200 <=? status_code) && (status_code <? 300) then None
  else if bool_decide (text = EmptyString) then Some ("status=" +:+ pretty status_code)
  else Some (String.substring 0 512 text).

(** A worker and the epochs that the probes under way have pinned. *)
Record Monitor : Type := { mo_worker : Worker; mo_probes : list Z }.

#[global] Instance eta_Monitor : Eta Monitor := fun m => {| mo_worker := mo_worker m; mo_probes := mo_probes m |}.

Inductive MonitorEvent : Type :=
| ProbeBegin
| ProbeEnd (i : nat) (r : ProbeResult) (now : Z)
| ReportedFailure (status_code : option Z) (error : option string) (now : Z)
| SessionFailure (status_code : option Z) (error : option string) (now : Z)
| MarkDead (error : option string)
| ClearDead
| SetDisabled (disabled : bool).

Section monitor.
Context (failure_threshold success_threshold : Z).

(** The end of [_check_worker_health]. *)
Definition probe_end (epoch : Z) (r : ProbeResult) (now : Z) (w : Worker) : Worker :=
  if negb (w_health_epoch w =? epoch) then w
  else match r with
       | HTTPError message => record_health_result false failure_threshold success_threshold None (Some message) now w
       | Response status_code text =>
           record_health_result ((200 <=? status_code) && (status_code <? 300)) failure_threshold success_threshold
             (Some status_code) (probe_error status_code text) now w
       end.

(** [_record_worker_request_failure] of the proxy, and [worker_failure] of the control plane. *)
Definition reported_failure (status_code : option Z) (error : option string) (now : Z) (w : Worker) : Worker :=
  if is_dead w then w else record_request_failure failure_threshold status_code error now w.

(** A session's end reports without that guard ([_complete_session]). *)
Definition monitor_step (ev : MonitorEvent) (m : Monitor) : option Monitor :=
  match ev with
  | ProbeBegin =>
      Some (if is_dead (mo_worker m) then m else m <| mo_probes := mo_probes m ++ [w_health_epoch (mo_worker m)] |>)
  | ProbeEnd i r now =>
      epoch ← mo_probes m !! i;
      Some (m <| mo_probes := delete i (mo_probes m) |> <| mo_worker := probe_end epoch r now (mo_worker m) |>)
  | ReportedFailure status_code error now => Some (m <| mo_worker := reported_failure status_code error now (mo_worker m) |>)
  | SessionFailure status_code error now =>
      Some (m <| mo_worker := record_request_failure failure_threshold status_code error now (mo_worker m) |>)
  | MarkDead error => Some (m <| mo_worker := mark_dead error (mo_worker m) |>)
  | ClearDead => Some (m <| mo_worker := clear_dead (mo_worker m) |>)
  | SetDisabled disabled => Some (m <| mo_worker := set_disabled disabled (mo_worker m) |>)
  end.

Fixpoint monitor_run (evs : list MonitorEvent) (m : Monitor) : option Monitor :=
  match evs with
  | [] => Some m
  | ev :: evs' => monitor_step ev m ≫= monitor_run evs'
  end.
End monitor.

Definition new_monitor (config : WorkerConfig) (incarnation : string) : Monitor :=
  {| mo_worker := new_worker config incarnation; mo_probes := [] |}.

(** ** Identifiers tell URLs apart *)

Lemma hex_digit_inj n m : (n < 16)%N → (m < 16)%N → hex_digit n = hex_digit m → n = m.
Proof.
  intros Hn Hm H. unfold hex_digit in H. apply (f_equal N_of_ascii) in H. rewrite !N_ascii_embedding in H.
  - destruct (N.ltb_spec n 10), (N.ltb_spec m 10); lia.
  - destruct (N.ltb_spec m 10); lia.
  - destruct (N.ltb_spec n 10); lia.
Qed.

Lemma quote_char_inj c1 c2 s1 s2 : quote_char c1 +:+ s1 = quote_char c2 +:+ s2 → c1 = c2 ∧ s1 = s2.
Proof.
  assert (unreserved "%" = false) as Hp by reflexivity.
  unfold quote_char. destruct (unreserved c1) eqn:E1, (unreserved c2) eqn:E2; simpl; intros [=]; subst; try congruence; [done|].
  assert (∀ c, (N_of_ascii c / 16 < 16)%N) as Hd.
  { intros c. pose proof (N_ascii_bounded c). apply N.Div0.div_lt_upper_bound. lia. }
  assert (∀ c, (N_of_ascii c mod 16 < 16)%N) as Hm by (intros c; by apply N.mod_lt).
  split; [|done]. rewrite <- (ascii_N_embedding c1), <- (ascii_N_embedding c2). f_equal.
  rewrite (N.div_mod (N_of_ascii c1) 16), (N.div_mod (N_of_ascii c2) 16) by done.
  f_equal; [f_equal|]; apply hex_digit_inj; auto.
Qed.

Lemma worker_id_inj url1 : ∀ url2, worker_id_from_url url1 = worker_id_from_url url2 → url1 = url2.
Proof.
  assert (∀ c s, quote_char c +:+ s ≠ EmptyString) as Hne by (intros c s; unfold quote_char; by destruct (unreserved c)).
  induction url1 as [|c1 url1 IH]; intros [|c2 url2]; simpl; intros H; [done|by destruct (Hne _ _ (eq_sym H))|by destruct (Hne _ _ H)|].
  apply quote_char_inj in H as [-> H]. f_equal. auto.
Qed.

(** ** The verdict *)

(** The reference: how many of the last outcomes are [o], and the most recent run that reached
    its threshold. *)
Fixpoint run_length (o : bool) (outcomes : list bool) : Z :=
  match outcomes with
  | [] => 0
  | o' :: outcomes' => if Bool.eqb o o' then 1 + run_length o outcomes' else 0
  end.

Fixpoint verdict (failure_threshold success_threshold : Z) (outcomes : list bool) : WorkerState :=
  match outcomes with
  | [] => STATE_UNKNOWN
  | o :: outcomes' =>
      if (if o then success_threshold else failure_threshold) <=? run_length o outcomes
      then if o then STATE_HEALTHY else STATE_UNHEALTHY
      else verdict failure_threshold success_threshold outcomes'
  end.

(** The outcomes a run brings, when no operator intervenes. *)
Definition outcome_of (ev : MonitorEvent) : option bool :=
  match ev with
  | ProbeEnd _ (HTTPError _) _ => Some false
  | ProbeEnd _ (Response status_code _) _ => Some ((200 <=? status_code) && (status_code <? 300))
  | ReportedFailure _ _ _ | SessionFailure _ _ _ => Some false
  | _ => None
  end.

Definition outcomes (evs : list MonitorEvent) : list bool := omap outcome_of evs.

Definition operator (ev : MonitorEvent) : bool := match ev with MarkDead _ | ClearDead => true | _ => false end.

Section verdicts.
Context (failure_threshold success_threshold : Z).

(** The worker after [hist], the last outcome first, with the probes all of its epoch. *)
Record judged (hist : list bool) (m : Monitor) : Prop := {
  jg_state : w_state (mo_worker m) = verdict failure_threshold success_threshold hist;
  jg_failures : w_consecutive_failures (mo_worker m) = run_length false hist;
  jg_successes : w_consecutive_successes (mo_worker m) = run_length true hist;
  jg_probes : Forall (eq (w_health_epoch (mo_worker m))) (mo_probes m)
}.

Lemma verdict_alive hist : verdict failure_threshold success_threshold hist ≠ STATE_DEAD.
Proof. induction hist as [|o hist IH]; simpl; [done|]. by repeat case_match. Qed.

Lemma failure_judged hist m status error now :
  judged hist m → judged (false :: hist) (m <| mo_worker := record_request_failure failure_threshold status error now (mo_worker m) |>).
Proof.
  intros [H1 H2 H3 H4]. unfold record_request_failure, record_failure.
  constructor; simpl; destruct (failure_threshold <=? _) eqn:E; simpl in *; rewrite ?H2 in *; try done; try lia;
    rewrite Z.add_comm, E; done.
Qed.

Lemma probed_judged hist m ok status error now :
  judged hist m →
  judged (ok :: hist) (m <| mo_worker := record_health_result ok failure_threshold success_threshold status error now (mo_worker m) |>).
Proof.
  intros Hj. destruct ok; [|by apply failure_judged]. destruct Hj as [H1 H2 H3 H4]. unfold record_health_result.
  constructor; simpl; destruct (success_threshold <=? _) eqn:E; simpl in *; rewrite ?H3 in *; try done; try lia;
    rewrite Z.add_comm, E; done.
Qed.

Lemma step_judged hist m ev m' :
  judged hist m → operator ev = false → monitor_step failure_threshold success_threshold ev m = Some m' →
  judged (match outcome_of ev with Some o => o :: hist | None => hist end) m'.
Proof.
  intros Hj Hop. pose proof Hj as [H1 H2 H3 H4].
  assert (is_dead (mo_worker m) = false) as Halive.
  { unfold is_dead. apply bool_decide_eq_false. rewrite H1. apply verdict_alive. }
  destruct ev as [|i r now|st er now|st er now|er| |d]; simpl; try done.
  - rewrite Halive. intros [= <-]. constructor; simpl; try done. apply Forall_app. split; [done|]. by constructor.
  - destruct (mo_probes m !! i) as [epoch|] eqn:Ep; [|done]. simpl. intros [= <-].
    assert (w_health_epoch (mo_worker m) = epoch) as <- by (eapply (Forall_lookup_1 _ _ _ _ H4); exact Ep).
    assert (judged hist (m <| mo_probes := delete i (mo_probes m) |>)) as Hj'.
    { constructor; simpl; try done. by apply Forall_delete. }
    unfold probe_end. rewrite Z.eqb_refl. simpl. destruct r as [msg|code text].
    + exact (probed_judged hist _ false None (Some msg) now Hj').
    + exact (probed_judged hist _ ((200 <=? code) && (code <? 300)) (Some code) (probe_error code text) now Hj').
  - intros [= <-]. unfold reported_failure. rewrite Halive. by apply failure_judged.
  - intros [= <-]. by apply failure_judged.
  - intros [= <-]. by constructor.
Qed.

(** A worker's health is judged by the most recent run of like outcomes that was long
    enough: as long as no operator intervenes, after any interleaving of probes and reported
    failures its state is the reference verdict on the outcomes: healthy if the last run to
    reach its threshold was one of successes, unhealthy if of failures, unknown if none did. *)
Theorem health_verdict config incarnation evs m :
  monitor_run failure_threshold success_threshold evs (new_monitor config incarnation) = Some m →
  forallb (fun ev => negb (operator ev)) evs = true →
  w_state (mo_worker m) = verdict failure_threshold success_threshold (reverse (outcomes evs)).
Proof.
  assert (∀ evs hist m m', judged hist m → monitor_run failure_threshold success_threshold evs m = Some m' →
    forallb (fun ev => negb (operator ev)) evs = true → judged (reverse (outcomes evs) ++ hist) m') as Hrun.
  { clear. induction evs as [|ev evs IH]; simpl; intros hist m m' Hj; [by intros [= <-]|].
    destruct (monitor_step _ _ ev m) as [m1|] eqn:E; [|done]. simpl. intros Hr [Ha Hb]%andb_true_iff.
    apply negb_true_iff in Ha. pose proof (step_judged _ _ _ _ Hj Ha E) as Hj1. specialize (IH _ _ _ Hj1 Hr Hb).
    unfold outcomes. simpl. destruct (outcome_of ev) as [o|]; [|done].
    by rewrite reverse_cons, <- (assoc_L (++)). }
  intros Hr Hop. specialize (Hrun evs [] (new_monitor config incarnation) m). rewrite app_nil_r in Hrun.
  by apply Hrun.
Qed.
End verdicts.

Definition demo_config : WorkerConfig := {| wc_url := "http://w:1"; wc_model := None; wc_capabilities := ∅ |}.

(** A probe that was already under way when failures were reported, and a later success. *)
Lemma health_verdict_witness :
  ∃ m, monitor_run 2 1 [ProbeBegin; ReportedFailure None None 1; ReportedFailure (Some 502) None 2;
                        ProbeEnd 0 (Response 200 "") 3; ReportedFailure None None 4] (new_monitor demo_config "i") = Some m ∧
    w_state (mo_worker m) = STATE_HEALTHY.
Proof.
  eexists. split; [reflexivity|].
  rewrite (health_verdict 2 1 demo_config "i" [ProbeBegin; ReportedFailure None None 1; ReportedFailure (Some 502) None 2;
                        ProbeEnd 0 (Response 200 "") 3; ReportedFailure None None 4]); reflexivity.
Defined.

(** ** Operators *)

(** A probe is never of a later epoch, and of an earlier one once the worker is dead. *)
Record outdated (m : Monitor) : Prop := {
  ou_past : Forall (λ e, e ≤ w_health_epoch (mo_worker m)) (mo_probes m);
  ou_dead : is_dead (mo_worker m) = true → Forall (λ e, e < w_health_epoch (mo_worker m)) (mo_probes m)
}.

Lemma record_failure_state ft w : w_health_epoch (record_failure ft w) = w_health_epoch w ∧
  (is_dead (record_failure ft w) = true → is_dead w = true).
Proof. unfold record_failure. simpl. by destruct (_ <=? _). Qed.

Lemma probe_end_state ft st epoch r now w : w_health_epoch (probe_end ft st epoch r now w) = w_health_epoch w ∧
  (is_dead (probe_end ft st epoch r now w) = true → is_dead w = true).
Proof.
  unfold probe_end. destruct (negb _); [done|].
  assert (∀ ok s e, w_health_epoch (record_health_result ok ft st s e now w) = w_health_epoch w ∧
    (is_dead (record_health_result ok ft st s e now w) = true → is_dead w = true)) as H.
  { intros ok s e. unfold record_health_result. destruct ok; [|by apply (record_failure_state ft (observed s e now w))].
    simpl. by destruct (_ <=? _). }
  destruct r; apply H.
Qed.

Lemma step_outdated ft st m ev m' : outdated m → monitor_step ft st ev m = Some m' → outdated m'.
Proof.
  intros [H1 H2]. destruct ev as [|i r now|sc er now|sc er now|er| |d]; simpl.
  - destruct (is_dead (mo_worker m)) eqn:E; intros [= <-]; [constructor; auto|].
    constructor; simpl; [|by rewrite E]. apply Forall_app. split; [done|]. constructor; [simpl; lia|constructor].
  - destruct (mo_probes m !! i) as [epoch|] eqn:Ep; [|done]. simpl. intros [= <-].
    destruct (probe_end_state ft st epoch r now (mo_worker m)) as [He Hd].
    constructor; simpl; rewrite He; [by apply Forall_delete|]. intros Hdead%Hd. apply Forall_delete. auto.
  - intros [= <-]. unfold reported_failure. destruct (is_dead (mo_worker m)) eqn:E; [constructor; simpl; auto|].
    destruct (record_failure_state ft (observed sc er now (mo_worker m))) as [He Hd]. simpl in He, Hd.
    constructor; simpl; unfold record_request_failure; rewrite He; [done|]. intros Hdead%Hd. unfold is_dead in *. simpl in *. congruence.
  - intros [= <-]. destruct (record_failure_state ft (observed sc er now (mo_worker m))) as [He Hd]. simpl in He, Hd.
    constructor; simpl; unfold record_request_failure; rewrite He; [done|]. intros Hdead%Hd. apply H2. exact Hdead.
  - intros [= <-]. constructor; simpl; [|intros _]; (eapply Forall_impl; [exact H1|]); simpl; lia.
  - intros [= <-]. constructor; simpl; [|intros _]; (eapply Forall_impl; [exact H1|]); simpl; lia.
  - intros [= <-]. by constructor.
Qed.

Lemma run_outdated ft st evs : ∀ m m', outdated m → monitor_run ft st evs m = Some m' → outdated m'.
Proof.
  induction evs as [|ev evs IH]; simpl; intros m m' Ho; [by intros [= <-]|].
  destruct (monitor_step ft st ev m) as [m1|] eqn:E; [|done]. simpl. apply IH. by eapply step_outdated.
Qed.

(** Neither an operator's return of the worker nor the end of a session. *)
Definition keeps_dead (ev : MonitorEvent) : bool := match ev with ClearDead | SessionFailure _ _ _ => false | _ => true end.

Lemma step_dead ft st m ev m' :
  outdated m → is_dead (mo_worker m) = true → keeps_dead ev = true → monitor_step ft st ev m = Some m' → is_dead (mo_worker m') = true.
Proof.
  intros Ho Hd Hk. destruct ev as [|i r now|sc er now|sc er now|er| |d]; simpl; try done.
  - rewrite Hd. by intros [= <-].
  - destruct (mo_probes m !! i) as [epoch|] eqn:Ep; [|done]. simpl. intros [= <-]. simpl.
    pose proof (Forall_lookup_1 _ _ _ _ (ou_dead _ Ho Hd) Ep) as Hlt. simpl in Hlt.
    unfold probe_end. destruct (Z.eqb_spec (w_health_epoch (mo_worker m)) epoch); [lia|done].
  - intros [= <-]. simpl. unfold reported_failure. by rewrite Hd.
  - by intros [= <-].
  - by intros [= <-].
Qed.

(** An operator's dead mark holds: from any moment at which a worker is dead, with any probes
    still under way, no result of a probe, no report of a failure and no disabling or enabling
    makes it anything but dead, nor routable, until the operator clears the mark - or a session
    over a websocket ends in a failure, which [_complete_session] reports without the guard. *)
Theorem dead_until_cleared ft st config incarnation evs1 evs2 m1 m2 :
  monitor_run ft st evs1 (new_monitor config incarnation) = Some m1 → is_dead (mo_worker m1) = true →
  monitor_run ft st evs2 m1 = Some m2 → forallb keeps_dead evs2 = true →
  is_dead (mo_worker m2) = true ∧ is_routable (mo_worker m2) = false.
Proof.
  intros H1 Hd H2 Hk. assert (outdated m1) as Ho by (eapply run_outdated; [|exact H1]; by constructor).
  assert (is_dead (mo_worker m2) = true) as Hd2.
  { clear H1. revert m1 Hd H2 Ho. induction evs2 as [|ev evs2 IH]; simpl; intros m1 Hd; [by intros [= <-]|].
    simpl in Hk. apply andb_true_iff in Hk as [Ha Hb]. destruct (monitor_step ft st ev m1) as [m|] eqn:E; [|done]. simpl.
    intros H2 Ho. eapply (IH Hb m); [by eapply step_dead|done|by eapply step_outdated]. }
  split; [done|]. unfold is_dead in Hd2. apply bool_decide_eq_true in Hd2. unfold is_routable, is_healthy. by rewrite Hd2.
Qed.

(** The probe that was under way comes back with a success. *)
Lemma dead_until_cleared_witness :
  ∃ m1 m2, monitor_run 1 1 [ProbeBegin; MarkDead None] (new_monitor demo_config "i") = Some m1 ∧
    monitor_run 1 1 [ProbeEnd 0 (Response 200 "") 1; ProbeBegin; ReportedFailure None None 2] m1 = Some m2 ∧
    is_dead (mo_worker m2) = true ∧ is_routable (mo_worker m2) = false.
Proof.
  eexists _, _. split; [reflexivity|]. split; [reflexivity|].
  eapply (dead_until_cleared 1 1 demo_config "i" [ProbeBegin; MarkDead None]
            [ProbeEnd 0 (Response 200 "") 1; ProbeBegin; ReportedFailure None None 2]); reflexivity.
Defined.

(** The end of a session is enough to bring it back. *)
Example session_failure_revives :
  (fun m => is_routable (mo_worker m)) <$>
    monitor_run 1 1 [MarkDead None; SessionFailure (Some 502) None 1; ProbeBegin; ProbeEnd 0 (Response 200 "") 2]
      (new_monitor demo_config "i") = Some true.
Proof. reflexivity. Qed.
