(* ===== verification/RouterSelect.v ===== *)
(** * Choosing a worker

    Models [src/sglang_omni_router/selector.py]: which workers may take a request, and which of
    them each policy takes.  The generator behind [random] is a parameter. *)
From S2P Require Import Prelude PyNum RouterWorker.
Local Open Scope Z_scope.

(** [eligible_workers]. *)
Definition supports_all (required_capabilities : list string) (w : Worker) : bool :=
  forallb (fun capability => supports capability w) required_capabilities.

(** [any(worker.model ...)]: a model that is set and not empty. *)
Definition names_model (w : Worker) : bool :=
  match w_model w with Some m => negb (bool_decide (m = EmptyString)) | None => false end.

Definition eligible_workers (workers : list Worker) (required_capabilities : list string) (requested_model : option string)
    : list Worker :=
  let candidates := List.filter (fun w => is_routable w && supports_all required_capabilities w) workers in
  match requested_model with
  | Some m => if existsb names_model candidates then List.filter (fun w => bool_decide (w_model w = Some m)) candidates
              else candidates
  | None => candidates
  end.

Definition NoEligibleWorkerError (message : string) : pyexn := OtherError ("NoEligibleWorkerError: " +:+ message).

Definition require_eligible_worker (worker : option Worker) (required_capabilities : list string)
    (requested_model : option string) : result Worker :=
  match eligible_workers (match worker with Some w => [w] | None => [] end) required_capabilities requested_model with
  | [] => Raise (NoEligibleWorkerError "no eligible healthy worker")
  | w :: _ => Ok w
  end.

Record WorkerSelector (Rng : Type) : Type := { ws_policy : string; ws_rr_index : Z; ws_random : Rng }.
Arguments ws_policy {Rng} w.
Arguments ws_rr_index {Rng} w.
Arguments ws_random {Rng} w.

Section selector.
(** [random.Random]: an index below [n], and the generator's next state. *)
Context {Rng : Type} (randbelow : nat → Rng → nat * Rng).

#[local] Instance eta_WorkerSelector : Eta (WorkerSelector Rng) := fun s =>
  {| ws_policy := ws_policy s; ws_rr_index := ws_rr_index s; ws_random := ws_random s |}.

Definition select_round_robin (candidates : list Worker) (s : WorkerSelector Rng) : result Worker * WorkerSelector Rng :=
  match candidates !! Z.to_nat (ws_rr_index s mod Z.of_nat (length candidates)) with
  | Some w => (Ok w, s <| ws_rr_index := ws_rr_index s + 1 |>)
  | None => (Raise (IndexError "list index out of range"), s)
  end.

Definition min_active_requests (w : Worker) (candidates : list Worker) : Z :=
  foldr (fun w' n => Z.min (w_active_requests w') n) (w_active_requests w) candidates.

Definition select (workers : list Worker) (required_capabilities : list string) (requested_model : option string)
    (s : WorkerSelector Rng) : result Worker * WorkerSelector Rng :=
  let candidates := eligible_workers workers required_capabilities requested_model in
  match candidates with
  | [] => (Raise (NoEligibleWorkerError "no eligible healthy workers"), s)
  | w :: rest =>
      if bool_decide (ws_policy s = "round_robin") then select_round_robin candidates s
      else if bool_decide (ws_policy s = "least_request") then
        select_round_robin (List.filter (fun w' => w_active_requests w' =? min_active_requests w rest) candidates) s
      else if bool_decide (ws_policy s = "random") then
        match randbelow (length candidates) (ws_random s) with
        | (i, rng) => match candidates !! i with
                      | Some w => (Ok w, s <| ws_random := rng |>)
                      | None => (Raise (IndexError "list index out of range"), s)
                      end
        end
      else (Raise (ValueError ("unsupported routing policy: " +:+ ws_policy s)), s)
  end.

(** Selections one after the other, while the workers stay as they are. *)
Fixpoint selections (n : nat) (candidates : list Worker) (s : WorkerSelector Rng) : list (result Worker) :=
  match n with
  | O => []
  | S n' => let r := select_round_robin candidates s in r.1 :: selections n' candidates r.2
  end.

(** ** What a policy takes *)

Lemma min_active_le w rest w' : w' ∈ w :: rest → min_active_requests w rest ≤ w_active_requests w'.
Proof.
  unfold min_active_requests. revert w'. induction rest as [|x rest IH]; simpl; intros w' Hw.
  - apply list_elem_of_singleton in Hw as ->. lia.
  - assert (w' = x ∨ w' ∈ w :: rest) as [->|Hin] by set_solver; [lia|]. specialize (IH _ Hin). lia.
Qed.

Lemma min_active_reached w rest : ∃ w', w' ∈ w :: rest ∧ w_active_requests w' = min_active_requests w rest.
Proof.
  unfold min_active_requests. induction rest as [|x rest (w' & Hin & He)]; simpl; [exists w; set_solver|].
  destruct (Z.min_spec (w_active_requests x) (foldr (λ w' n, Z.min (w_active_requests w') n) (w_active_requests w) rest)) as [[_ ->]|[_ ->]].
  - exists x. set_solver.
  - exists w'. split; [set_solver|done].
Qed.

Lemma round_robin_takes candidates s : candidates ≠ [] →
  ∃ w, w ∈ candidates ∧ select_round_robin candidates s = (Ok w, s <| ws_rr_index := ws_rr_index s + 1 |>).
Proof.
  intros Hne. unfold select_round_robin. destruct (lookup_lt_is_Some_2 candidates (Z.to_nat (ws_rr_index s mod Z.of_nat (length candidates)))) as [w Hw].
  - pose proof (Z.mod_pos_bound (ws_rr_index s) (Z.of_nat (length candidates))). destruct candidates; [done|]. simpl length in *. lia.
  - exists w. rewrite Hw. split; [|done]. by eapply list_elem_of_lookup_2.
Qed.

(** ** Taking turns *)

Lemma selections_rotate candidates s n i :
  (i < n)%nat → candidates ≠ [] →
  selections n candidates s !! i = Ok <$> candidates !! Z.to_nat ((ws_rr_index s + Z.of_nat i) mod Z.of_nat (length candidates)).
Proof.
  revert s i. induction n as [|n IH]; intros s i Hi Hne; [lia|]. simpl.
  destruct (round_robin_takes candidates s Hne) as (w & Hin & E). destruct i as [|i]; simpl.
  - unfold select_round_robin. rewrite Z.add_0_r. by destruct (candidates !! _) eqn:El; [|unfold select_round_robin in E; rewrite El in E].
  - rewrite E. simpl. rewrite IH by (done || lia). simpl. do 2 f_equal. f_equal. f_equal. lia.
Qed.

Lemma selections_length candidates n : ∀ s, length (selections n candidates s) = n.
Proof. induction n as [|n IH]; intros s; simpl; [done|]. by rewrite IH. Qed.

Lemma omap_Some {B} (l : list B) : omap id (map Some l) = l.
Proof. induction l as [|x l IH]; [done|]. simpl. f_equal. exact IH. Qed.

Lemma map_lookup_seq {B C} (f : B → C) l :
  map (fun j => f <$> l !! j) (seq 0 (length l)) = map Some (map f l).
Proof.
  apply list_eq. intros i. rewrite !list_lookup_fmap. destruct (decide (i < length l)%nat) as [Hi|Hi].
  - rewrite lookup_seq_lt by done. simpl. by destruct (lookup_lt_is_Some_2 l i Hi) as [x ->].
  - rewrite lookup_seq_ge by lia. by rewrite lookup_ge_None_2 by lia.
Qed.

Lemma selections_rounds candidates s :
  candidates ≠ [] →
  let n := length candidates in let c := Z.to_nat (ws_rr_index s mod Z.of_nat n) in
  map Some (selections n candidates s) =
    map (fun j => Ok <$> candidates !! j) (map (fun j => (c + j) mod n)%nat (seq 0 n)).
Proof.
  intros Hne n c. assert (0 < n)%nat as Hn by (unfold n; destruct candidates; simpl; [done|lia]).
  rewrite map_map. apply list_eq. intros i. rewrite !list_lookup_fmap.
  destruct (decide (i < n)%nat) as [Hi|Hi].
  - rewrite (selections_rotate candidates s n i Hi Hne), lookup_seq_lt by done. cbn [fmap option_fmap option_map Nat.add]. fold n.
    assert (Z.to_nat ((ws_rr_index s + Z.of_nat i) mod Z.of_nat n) = (c + i) mod n)%nat as ->.
    { apply Nat2Z.inj. rewrite Nat2Z.inj_mod, Nat2Z.inj_add. unfold c.
      rewrite !Z2Nat.id by (apply Z.mod_pos_bound; lia). by rewrite Zplus_mod_idemp_l. }
    destruct (lookup_lt_is_Some_2 candidates ((c + i) mod n)) as [w ->]; [apply Nat.mod_upper_bound; fold n; lia|reflexivity].
  - rewrite lookup_seq_ge by lia. rewrite lookup_ge_None_2; [done|]. rewrite selections_length. lia.
Qed.

Lemma turns_take_all candidates s :
  candidates ≠ [] → selections (length candidates) candidates s ≡ₚ map Ok candidates.
Proof.
  intros Hne. rewrite <- (omap_Some (selections _ _ _)), <- (omap_Some (map Ok candidates)).
  rewrite selections_rounds, <- map_lookup_seq by done. apply omap_Permutation, Permutation_map, round_permutation.
  assert (0 < length candidates)%nat as Hn by (destruct candidates; simpl; [done|lia]).
  pose proof (Z.mod_pos_bound (ws_rr_index s) (Z.of_nat (length candidates))). lia.
Qed.

(** ** What a selection promises *)

(** The request may go to this worker: it takes requests, has every capability asked for, and
    serves the model asked for, if any worker that could take the request names its model. *)
Definition acceptable (workers : list Worker) (capabilities : list string) (model : option string) (w : Worker) : Prop :=
  let capable w := is_routable w = true ∧ ∀ c, c ∈ capabilities → c ∈ w_capabilities w in
  w ∈ workers ∧ capable w ∧
  ∀ m, model = Some m → w_model w = Some m ∨
    ∀ w', w' ∈ workers → capable w' → w_model w' = None ∨ w_model w' = Some EmptyString.

Lemma eligible_spec workers capabilities model w :
  w ∈ eligible_workers workers capabilities model ↔ acceptable workers capabilities model w.
Proof.
  unfold eligible_workers, acceptable. set (candidates := List.filter _ workers).
  assert (∀ w, w ∈ candidates ↔ w ∈ workers ∧ is_routable w = true ∧ ∀ c, c ∈ capabilities → c ∈ w_capabilities w) as Hc.
  { intros w'. unfold candidates, supports_all. rewrite list_elem_of_In, filter_In, <- list_elem_of_In, andb_true_iff, forallb_forall.
    setoid_rewrite <- list_elem_of_In. unfold supports. by setoid_rewrite bool_decide_eq_true. }
  destruct model as [m|]; [|rewrite Hc; naive_solver].
  destruct (existsb names_model candidates) eqn:E.
  - apply existsb_exists in E as (w' & Hw'%list_elem_of_In%Hc & Hn).
    assert (¬ (w_model w' = None ∨ w_model w' = Some EmptyString)) as Hnamed.
    { unfold names_model in Hn. destruct (w_model w'); [|done]. apply negb_true_iff, bool_decide_eq_false in Hn. naive_solver. }
    rewrite list_elem_of_In, filter_In, <- list_elem_of_In, Hc, bool_decide_eq_true. split.
    + intros (? & ?). naive_solver.
    + intros (? & ? & Hm). split; [done|]. destruct (Hm m eq_refl) as [?|Ha]; [done|]. naive_solver.
  - rewrite Hc. split; [|naive_solver]. intros (? & ?). split; [done|]. split; [done|].
    intros m' _. right. intros w' Hin Hcap. assert (w' ∈ candidates) as Hw' by by apply Hc.
    destruct (names_model w') eqn:En.
    + assert (existsb names_model candidates = true) as Ht; [|congruence].
      apply existsb_exists. exists w'. split; [by apply list_elem_of_In|done].
    + unfold names_model in En. destruct (w_model w') as [m0|]; [|by left]. right.
      apply negb_false_iff, bool_decide_eq_true in En. by subst.
Qed.

(** The policy's own promise. *)
Definition promised (workers : list Worker) (capabilities : list string) (model : option string)
    (s : WorkerSelector Rng) (w : Worker) : Prop :=
  ws_policy s = "least_request" →
  ∀ w', acceptable workers capabilities model w' → w_active_requests w ≤ w_active_requests w'.

(** [random.choice] takes an index of the list. *)
Context (below : ∀ n g, (0 < n)%nat → ((randbelow n g).1 < n)%nat).

Lemma select_takes workers capabilities model s :
  ws_policy s ∈ ["round_robin"; "least_request"; "random"] →
  eligible_workers workers capabilities model ≠ [] →
  ∃ w s', select workers capabilities model s = (Ok w, s') ∧ w ∈ eligible_workers workers capabilities model ∧
    ws_policy s' = ws_policy s ∧ promised workers capabilities model s w.
Proof.
  intros Hp Hne. unfold select, promised. setoid_rewrite <- eligible_spec.
  destruct (eligible_workers workers capabilities model) as [|w rest] eqn:El; [done|]. clear Hne.
  case_bool_decide as P1.
  { destruct (round_robin_takes (w :: rest) s) as (w' & Hw & ->); [done|]. eexists _, _. split; [done|].
    split; [done|]. split; [done|]. rewrite P1. discriminate. }
  case_bool_decide as P2.
  { set (least := List.filter _ _).
    assert (∀ w', w' ∈ least ↔ w' ∈ w :: rest ∧ w_active_requests w' = min_active_requests w rest) as Hl.
    { intros w'. unfold least. by rewrite list_elem_of_In, filter_In, <- list_elem_of_In, Z.eqb_eq. }
    destruct (round_robin_takes least s) as (w' & Hw%Hl & ->).
    { destruct (min_active_reached w rest) as (w' & Hw'). intros E. apply Hl in Hw'. rewrite E in Hw'.
      by apply not_elem_of_nil in Hw'. }
    eexists _, _. split; [done|]. split; [apply Hw|]. split; [done|]. intros _ x Hx%min_active_le. lia. }
  case_bool_decide as P3; [|set_solver].
  pose proof (below (length (w :: rest)) (ws_random s)) as Hb. destruct (randbelow _ _) as [i rng]. simpl in Hb.
  destruct (lookup_lt_is_Some_2 (w :: rest) i) as [w' Hw']; [simpl; lia|]. rewrite Hw'. eexists _, _.
  split; [done|]. split; [by eapply list_elem_of_lookup_2|]. split; [done|]. rewrite P3. discriminate.
Qed.

(** A selection under a known policy fails exactly when no worker is acceptable, and then
    leaves the selector alone; the worker it takes is acceptable, and under [least_request] no
    acceptable one has fewer requests.  Over as many turns as there are candidates, each is
    taken once, wherever the cursor stands. *)
Theorem selection_sound workers capabilities model s :
  ws_policy s ∈ ["round_robin"; "least_request"; "random"] →
  match select workers capabilities model s with
  | (Ok w, s') => acceptable workers capabilities model w ∧ promised workers capabilities model s w
  | (Raise e, s') => (∀ w, ¬ acceptable workers capabilities model w) ∧ s' = s
  end ∧
  (let candidates := eligible_workers workers capabilities model in
   candidates ≠ [] → selections (length candidates) candidates s ≡ₚ map Ok candidates).
Proof.
  intros Hp. split; [|apply turns_take_all].
  destruct (decide (eligible_workers workers capabilities model = [])) as [El|Hne].
  - unfold select. rewrite El. split; [|done]. intros w Hw%eligible_spec. rewrite El in Hw. by apply not_elem_of_nil in Hw.
  - destruct (select_takes workers capabilities model s Hp Hne) as (w & s' & -> & Hw & _ & Hpr).
    split; [by apply eligible_spec|done].
Qed.
End selector.

(** ** Three workers, one of them dead, one of them without the capability *)

Definition demo_worker (url : string) (capabilities : gset string) (active : Z) : Worker :=
  new_worker {| wc_url := url; wc_model := None; wc_capabilities := capabilities |} "i" <| w_active_requests := active |> <| w_state := STATE_HEALTHY |>.

Definition demo_workers : list Worker :=
  [demo_worker "http://a" {["chat"]} 3; demo_worker "http://b" {["chat"]} 1; demo_worker "http://c" ∅ 0].

Lemma selection_sound_witness :
  ∃ w s', select (fun _ (g : unit) => (0%nat, g)) demo_workers ["chat"] None
      {| ws_policy := "least_request"; ws_rr_index := 5; ws_random := tt |} = (Ok w, s') ∧
    w_url w = "http://b" ∧ acceptable demo_workers ["chat"] None w.
Proof.
  destruct (selection_sound (fun _ (g : unit) => (0%nat, g)) (fun n g H => H) demo_workers ["chat"] None
    {| ws_policy := "least_request"; ws_rr_index := 5; ws_random := tt |}) as [H _]; [set_solver|].
  destruct (select _ _ _ _ _) as [[w|e] s'] eqn:E; [|vm_compute in E; discriminate E].
  exists w, s'. split; [reflexivity|]. split; [vm_compute in E; injection E as <- _; reflexivity|]. apply H.
Defined.
